(* ===== verification/_CoqProject ===== *)
-Q . S2P
Prelude.v
Bf16.v
IqConv.v
Rle.v
Bfp.v
Lz77.v
Channel.v
Float.v
Rounding.v
StateMachine.v
Replay.v
Trainer.v
Selector.v
Controller.v
Sender.v
Receiver.v
EndToEnd.v
SlotPoint.v
OfhBase.v
OfhCplane.v
OfhUplane.v
BitBuffer.v
BoundedBitset.v
BitsetSpec.v
BitsetRefinement.v
BitsetProduct.v
ResourceGrid.v
GridPool.v
OfhCompression.v
Ecpri.v
Ethernet.v
OfhReceiver.v
UplinkContext.v
UplinkFlow.v
FramePool.v
TxSupport.v
Tdd.v
Timing.v
Prach.v
PrachFlow.v
DownlinkFlow.v
RadioReceiver.v
SchedulingFlow.v
Transmitter.v
Sector.v
SectorFactory.v
RadioUnit.v
