(* ===== verification/Prelude.v ===== *)
(** * A dynamic-compression sender and receiver, and the fronthaul they come from

    The repository has two parts.  Its own programs, a sender and a receiver, move
    a file over a socket as complex samples and choose for every frame one of four
    compressions (none, block floating point, run length, zlib), with a choice that
    learns from the measured durations: an epsilon-greedy state machine or a deep-Q
    trainer.  Around them is a copy of the srsRAN code base; of it the development
    models the Open Fronthaul, whose messages carry compressed samples.

    ** The program's parts and where they are modelled

    Own programs:
    - [Prelude]: outcomes of C++ code ([result], [fault]), machine integers, byte
      images, containers, tactics and hint databases shared by all files.
    - [Bf16] (include/srsran/adt/bf16.h, complex.h): brain floats and samples.
    - [IqConv] (lib/d_compression/iq.cpp, include/d_compression/iq.h): bytes to
      samples and back, serialization, the four options.
    - [Rle], [Bfp], [Lz77] (lib/d_compression/rle.cpp, bfp.cpp, lz77.cpp): the
      compressors.  zlib is the class [Zlib] with the promises of its manual in
      [ZlibSpec], instantiated by stored blocks.
    - [Channel] (include/d_compression/channel.h, zmq_channel): framing over a
      stream socket, the class [Socket], instantiated by a queue of bytes.
    - [Float]: the IEEE operations used, over the Standard Library's [SpecFloat].
    - [StateMachine] (lib/d_compression/iq_state_machine.cpp): the epsilon-greedy
      selector; the draws of the random generator and the iteration order of the
      hash map are arguments.
    - [Replay], [Trainer] (lib/dqn/, include/dqn/): replay buffers, networks and trainer;
      the tensor library is the class [Torch] with its promises in [TorchSpec].
    - [Selector], [Controller] (include/d_compression/controller.h): the interface
      [Selector] of the two selectors and their dispatch.
    - [Sender], [Receiver] (sender/main.cpp, receiver/main.cpp): file reader,
      command line, the bodies of the two loops.
    - [EndToEnd]: both programs as one transition system.

    Open Fronthaul, bottom up:
    - [SlotPoint] (include/srsran/ran/slot_point.h, subcarrier_spacing.h,
      include/srsran/ofh/timing/slot_symbol_point.h): time in slots and symbols, bit
      fields and wrap-around included.
    - [OfhBase] (lib/ofh/support/network_order_binary_*.h and the enumerations):
      writing and reading network-order fields; [serializer.emits] and
      [deserializer.rest] are the abstract view clients use.
    - [OfhCplane], [OfhUplane] (lib/ofh/serdes/): Control-Plane builders; User-Plane
      builder, decoder and peekers, over the interfaces [IqCompressor] and
      [IqDecompressor].
    - [Ecpri] (lib/ofh/ecpri/), [Ethernet] (lib/ofh/ethernet/): packets, frames and
      the pool of receive buffers.
    - [BitBuffer] (include/srsran/adt/bit_buffer.h and the packing routines),
      [OfhCompression] (lib/ofh/compression/): quantizer, the generic compressors and
      decompressors, factories and selectors, which implement the two interfaces.
    - [BoundedBitset] (include/srsran/adt/bounded_bitset.h): sets of bits in 64-bit
      words, either bit order; [BitsetSpec] relates them to lists of booleans,
      [BitsetRefinement] and [BitsetProduct] hold the refinement, the invariant, the
      product and the packing.
    - [ResourceGrid] (lib/phy/support/resource_grid_*.cpp, include/srsran/adt/tensor.h):
      the grid of samples with its writer, reader and flags of empty ports.
    - [GridPool] (lib/phy/support/resource_grid_pool_impl.cpp,
      include/srsran/phy/support/shared_resource_grid.h): the pool the grids are lent
      from and the counted references to them.
    - [OfhReceiver] (lib/ofh/receiver/): sequence identifiers, window statistics and
      the receiver that ties the layers together.
    - [UplinkContext] (lib/ofh/support/uplink_*context_repository.h): the symbols
      expected from the radio unit, and the commands they answer.
    - [UplinkFlow] (lib/ofh/receiver/ofh_data_flow_uplane_uplink_data_impl.cpp, the
      writer, the notifier and the closed window handler): from received messages to
      symbols handed to the consumer.
    - [Prach] (lib/ran/prach/, lib/phy/support/prach_buffer_impl.h), [PrachFlow]
      (lib/ofh/support/prach_context_repository.h and the PRACH flow of
      lib/ofh/receiver/): preambles, their buffers, the occasions waited for, and the
      messages that fill them.
    - [RadioReceiver] (lib/ofh/receiver/ofh_receiver_impl.cpp and the task dispatchers): the
      receiver with both flows and the closing windows on one executor.
    - [FramePool] (include/srsran/ofh/ethernet/ethernet_frame_pool.h): the frames queued per
      symbol and kind of message, as rings of windows.
    - [TxSupport] (lib/ofh/transmitter/: fragment sizes, counters, window checker), [Tdd]
      (lib/ran/tdd_ul_dl_config.cpp): what the transmitter asks about time and size.
    - [DownlinkFlow], [SchedulingFlow] (lib/ofh/transmitter/ofh_data_flow_*.cpp): a grid cut
      into User-Plane frames; commands sent as Control-Plane frames.
    - [Transmitter] (lib/ofh/transmitter/, the handlers, the dispatchers and the message
      transmitter): from requests to the bursts given to the gateway.
    - [Sector] (lib/ofh/ofh_sector_impl.h): transmitter and receiver on shared repositories.
    - [SectorFactory] (lib/ofh/ofh_factories.cpp, the factories of the transmitter and the
      receiver, lib/ru/ofh/ru_ofh_config_validator.cpp): from a configuration to the parts of
      a sector.
    - [Rounding], [Timing] (lib/ofh/timing/realtime_timing_worker.cpp): the rounding of the
      clock's floating-point quotients; the worker that turns the time into symbols and
      tells its subscribers.
    - [RadioUnit] (lib/ru/ofh/): the sectors behind the clock, the requests of the upper
      layer and the slot boundaries it is told.

    ** How the code is represented

    A function of the source is a Rocq function of the same name.  It returns
    [result A]: a value, or the [fault] a run ends in (an access out of bounds, an
    exception, a failed assertion, signed overflow, a division by zero).  A w-bit
    unsigned integer is a [Z] with [wrap w] written where the code can wrap; signed
    arithmetic goes through [sadd], which faults on overflow.  Bytes are [Z] below
    256 ([bytes_ok]), buffers are lists.  Objects are records threaded through their
    operations.  Loops are fixpoints with fuel; the fuel is an expression of the
    input (the length of the data, mostly) and every theorem about a loop shows a
    result or another fault than [OutOfFuel]; where the source's loop does not end
    (frames too small for one block) [OutOfFuel] for every fuel is what is shown.

    ** What the theorems show

    - Own programs: every option decodes to what was encoded; the received file is
      the sent one for every interleaving and is complete when both programs are
      done, which they are after a bounded number of steps; run-length coding is the
      unique greedy code; the selector picks a minimal average and explores a bounded
      number of times; training never fails and never changes the networks; replay
      buffers keep the newest transitions; malformed input is met with the stated faults.
    - Slots: arithmetic modulo the system frame, the order and its one ambiguity,
      decomposition and change of numerology.
    - Messages: the layouts of Control-Plane messages, the round trip of User-Plane
      messages and packets and frames, totality of the decoders on arbitrary octets
      with their faults characterised.
    - Compression: packing and block floating point lose exactly what the width
      makes them lose; messages decode to the quantized samples.
    - Bit sets: every sequence of calls refines lists of booleans, also where a call does
      not do what it is for; the representation invariant; the product and the packing
      with the cases in which they go wrong.
    - Grids: what is put is got; cleared grids are as new; the counters of the pool
      are the numbers of references, and what is lent is clean if it was written
      through the put operations and the executor takes the clearing tasks.
    - Receive path: classification by the window, loss reports of the sequence
      check, the ownership of receive buffers, and what any frame can lead to.  The
      repository of expected symbols refines a table of cells ([spec_step]), and the
      whole uplink flow refines that table fed with the admitted messages
      ([promise_step]); from this, every requested symbol is notified exactly once.  The
      same is shown for PRACH occasions.  The composed receiver refines both for arbitrary
      frames ([spec_rx_event]), and every request and occasion is answered once.
    - Transmit path: the frame pool refines rings of windows; a grid becomes frames that a
      radio unit decodes to the quantized samples, in a number of frames the factory's
      floating-point estimate covers; a command becomes a frame and, for the uplink, an
      expectation; the whole transmitter refines these on the rings ([spec_event]) for every
      interleaving of requests, symbols and accepted tasks, and a queued frame is sent when
      its window opens unless a later slot displaces it.
    - Sector and radio unit: a sector refines its two halves on the shared repositories
      ([spec_sector_event]), and an uplink slot given to the transmitter is answered by the
      receiver; the factories make of an accepted configuration a sector that starts as its
      promise; the sectors of a radio unit do not disturb each other.
    - Timing: a worker that is polled often enough tells every symbol once and in order,
      whatever the rounding of its quotients, except exactly at the first instant of a slot.

    ** What is not modelled

    Connection set-up, file and system calls, logging and tracing; the tensor
    library, zlib and the random generator (parameters); the rest of the srsRAN
    code base: physical layer, protocol layers, applications, generated ASN.1 code,
    vector kernels.  Of the fronthaul: the vectorised compressors the factories choose
    on processors that have them, the sleeping of the timing worker, the sockets, the
    controllers that start and stop the parts, and the managers that only hold them.  The
    lock-free queue of the buffer pool is a bounded queue with atomic operations; a
    function that holds a mutex is one step, and so is the handling of one received
    message, which shares its executor with the closing windows.  The tasks of the
    transmitter's executors are atomic too and run in any order. *)

From stdpp Require Export base tactics list gmap numbers strings.
From Stdlib Require Export ZArith Lia.
(** [lia] reasons about division and remainder by constants. *)
Ltac Zify.zify_post_hook ::= Z.to_euclidean_division_equations.

(** ** Outcomes of C++ code

    The code under study either returns, throws, or runs into behaviour the
    language leaves undefined.  [fault] names the ways a run can go wrong. *)
Inductive fault : Type :=
| OutOfBounds      (* read or write past the end of a container *)
| LengthError      (* std::length_error: a container asked to exceed max_size() *)
| InvalidArgument  (* std::invalid_argument *)
| OutOfRange       (* std::out_of_range *)
| NullPointer      (* a null [char*] used as a string *)
| DivByZero        (* integer division or remainder by zero *)
| SignedOverflow   (* overflow of a signed machine integer *)
| EndOfFile        (* boost::asio::error::eof *)
| AssertFailed     (* srsran_assert *)
| BadOptionalAccess (* std::bad_optional_access *)
| BadVariantAccess (* std::bad_variant_access *)
| BadShift         (* shift by at least the width of the operand *)
| FatalError       (* report_error, report_fatal_error: the application exits *)
| OutOfFuel.       (* the fuel of a loop is used up: stands for a loop that does not end *)

#[export] Instance fault_eq_dec : EqDecision fault.
Proof. solve_decision. Defined.

Inductive result (A : Type) : Type :=
| Ok (a : A)
| Fault (f : fault).
Arguments Ok {A} a.
Arguments Fault {A} f.

#[export] Instance result_ret : MRet result := λ A a, Ok a.
#[export] Instance result_bind : MBind result := λ A B k m,
  match m with Ok a => k a | Fault f => Fault f end.
#[export] Instance result_fmap : FMap result := λ A B g m,
  match m with Ok a => Ok (g a) | Fault f => Fault f end.

Definition assume (b : bool) (f : fault) : result unit :=
  if b then Ok tt else Fault f.

Lemma bind_Ok {A B} (m : result A) (k : A → result B) (b : B) :
  m ≫= k = Ok b ↔ ∃ a, m = Ok a ∧ k a = Ok b.
Proof. destruct m; simpl; naive_solver. Qed.

Lemma bind_assoc {A B C} (m : result A) (k : A → result B) (h : B → result C) :
  (m ≫= k) ≫= h = m ≫= (λ a, k a ≫= h).
Proof. by destruct m. Qed.

Lemma assume_Ok b f : assume b f = Ok tt ↔ b = true.
Proof. destruct b; simpl; naive_solver. Qed.

(** A table with one place changed. *)
Definition upd {A} (i s : nat) (v : A) (f : nat → nat → A) (i' s' : nat) : A := if decide (i = i' ∧ s = s') then v else f i' s'.

(** Iterating a fallible body over a list, accumulating from the left. *)
Fixpoint fold_result {A B} (g : A → B → result A) (a : A) (l : list B) : result A :=
  match l with
  | [] => Ok a
  | b :: l => a' ← g a b; fold_result g a' l
  end.

Lemma fold_result_app {A B} (g : A → B → result A) a l1 l2 :
  fold_result g a (l1 ++ l2) = fold_result g a l1 ≫= λ a', fold_result g a' l2.
Proof.
  revert a; induction l1 as [|b l1 IH]; intros a; simpl; [done|].
  destruct (g a b); simpl; auto.
Qed.

Lemma fold_result_Ok {A B} (g : A → B → result A) (h : A → B → A) l : ∀ a,
  (∀ a b, b ∈ l → g a b = Ok (h a b)) →
  fold_result g a l = Ok (foldl h a l).
Proof.
  induction l as [|b l IH]; intros a Hg; simpl; [done|].
  rewrite Hg by set_solver. simpl. apply IH. set_solver.
Qed.

Lemma fold_result_invariant {A B} (P : A → Prop) (g : A → B → result A) l : ∀ a a',
  (∀ a b a', b ∈ l → P a → g a b = Ok a' → P a') → P a → fold_result g a l = Ok a' → P a'.
Proof.
  induction l as [|b l IH]; intros a a' Hg HP; cbn [fold_result]; [by intros [= <-]|]. intros (a1 & H1 & H2)%bind_Ok.
  apply (IH a1 a'); [intros ? ? ? ?; apply Hg; set_solver| |done]. eapply Hg; [|exact HP|exact H1]. set_solver.
Qed.

Lemma mapM_Ok {A B} (f : A → result B) (g : A → B) (l : list A) :
  (∀ x, x ∈ l → f x = Ok (g x)) → mapM f l = Ok (map g l).
Proof.
  induction l as [|x l IH]; intros H; [done|]. cbn [mapM map].
  rewrite H by set_solver. cbn [mbind result_bind]. by rewrite IH by set_solver.
Qed.

Lemma mapM_Ok_Forall2 {A B} (f : A → result B) (l : list A) (k : list B) :
  mapM f l = Ok k ↔ Forall2 (λ x y, f x = Ok y) l k.
Proof.
  revert k. induction l as [|x l IH]; intros k; cbn [mapM].
  { split; [by intros [= <-]|]. by inversion 1. }
  rewrite bind_Ok. split.
  - intros (y & Hy & (k' & Hk & [= <-])%bind_Ok). constructor; [done|]. by apply IH.
  - inversion_clear 1 as [|? y ? k' Hy Hk]. exists y. split; [done|]. apply bind_Ok.
    exists k'. split; [by apply IH|done].
Qed.

Open Scope Z_scope.

(** ** Machine integers

    A [w]-bit unsigned integer is a [Z] in [[0, 2^w)]; conversions to an
    unsigned type reduce modulo [2^w]. *)
Definition wrap (w z : Z) : Z := z mod 2 ^ w.
Definition swrap (w z : Z) : Z := (z + 2 ^ (w - 1)) mod 2 ^ w - 2 ^ (w - 1).
Definition fits (w z : Z) : Prop := 0 <= z < 2 ^ w.
Definition sfits (w z : Z) : Prop := - 2 ^ (w - 1) <= z < 2 ^ (w - 1).
Definition sfitsb (w z : Z) : bool := (- 2 ^ (w - 1) <=? z) && (z <? 2 ^ (w - 1)).
Definition fitsb (w z : Z) : bool := (0 <=? z) && (z <? 2 ^ w).

Abbreviation u8 := (fits 8).
Abbreviation u16 := (fits 16).
Abbreviation u32 := (fits 32).
Abbreviation u64 := (fits 64).
Abbreviation bytes_ok := (Forall u8).

#[export] Instance fits_dec w z : Decision (fits w z).
Proof. unfold fits. apply _. Defined.
#[export] Instance sfits_dec w z : Decision (sfits w z).
Proof. unfold sfits. apply _. Defined.

Lemma fitsb_spec w z : fitsb w z = true ↔ fits w z.
Proof. unfold fitsb, fits. lia. Qed.
Lemma sfitsb_spec w z : sfitsb w z = true ↔ sfits w z.
Proof. unfold sfitsb, sfits. lia. Qed.

(** Signed addition: overflow is undefined behaviour. *)
Definition sadd (w a b : Z) : result Z :=
  if sfitsb w (a + b) then Ok (a + b) else Fault SignedOverflow.

Lemma sadd_Ok w a b : sfits w (a + b) → sadd w a b = Ok (a + b).
Proof. intros H. unfold sadd. by rewrite (proj2 (sfitsb_spec _ _) H). Qed.

Lemma sadd_inv w a b c : sadd w a b = Ok c → c = a + b ∧ sfits w c.
Proof.
  unfold sadd. destruct (sfitsb w (a + b)) eqn:E; [|done].
  intros [= <-]. split; [done|]. by apply sfitsb_spec.
Qed.

Lemma wrap_fits w z : 0 <= w → fits w (wrap w z).
Proof. intros Hw. apply Z.mod_pos_bound. lia. Qed.

Lemma wrap_small w z : fits w z → wrap w z = z.
Proof. apply Z.mod_small. Qed.

Lemma fits_mono w w' z : 0 <= w <= w' → fits w z → fits w' z.
Proof.
  unfold fits; intros Hw Hz.
  pose proof (Z.pow_le_mono_r 2 w w'). lia.
Qed.

Lemma fits_shiftr w k z : 0 <= k → 0 <= w → fits (w + k) z → fits w (z ≫ k).
Proof.
  unfold fits; intros Hk Hw Hz. rewrite Z.shiftr_div_pow2 by done.
  rewrite Z.pow_add_r in Hz by done. split.
  - apply Z.div_pos; lia.
  - apply Z.div_lt_upper_bound; lia.
Qed.

Lemma fits_shiftl w k z : 0 <= k → 0 <= w → fits w z → fits (w + k) (z ≪ k).
Proof.
  unfold fits; intros Hk Hw Hz. rewrite Z.shiftl_mul_pow2 by done.
  rewrite Z.pow_add_r by done. nia.
Qed.

Lemma fits_lor w a b : 0 <= w → fits w a → fits w b → fits w (Z.lor a b).
Proof.
  unfold fits; intros Hw [Ha Ha'] [Hb Hb'].
  assert (H : 0 <= Z.lor a b) by (apply Z.lor_nonneg; lia). split; [done|].
  destruct (decide (Z.lor a b = 0)) as [->|Hz]; [lia|].
  apply Z.log2_lt_pow2; [lia|]. rewrite Z.log2_lor by lia.
  apply Z.max_lub_lt.
  - destruct (decide (a = 0)) as [->|]; [|by apply Z.log2_lt_pow2; lia].
    destruct (decide (b = 0)) as [->|]; [by simpl in Hz|].
    simpl. apply Z.le_lt_trans with (Z.log2 b); [apply Z.log2_nonneg|].
    apply Z.log2_lt_pow2; lia.
  - destruct (decide (b = 0)) as [->|]; [|by apply Z.log2_lt_pow2; lia].
    destruct (decide (a = 0)) as [->|]; [by simpl in Hz|].
    simpl. apply Z.le_lt_trans with (Z.log2 a); [apply Z.log2_nonneg|].
    apply Z.log2_lt_pow2; lia.
Qed.

Lemma fits_land w a m : 0 <= w → 0 <= a → fits w m → fits w (Z.land a m).
Proof.
  unfold fits; intros Hw Ha [Hm Hm'].
  assert (H : 0 <= Z.land a m) by (apply Z.land_nonneg; lia). split; [done|].
  destruct (decide (Z.land a m = 0)) as [->|Hz]; [lia|].
  destruct (decide (m = 0)) as [->|]; [by rewrite Z.land_0_r in Hz|].
  apply Z.log2_lt_pow2; [lia|].
  apply Z.le_lt_trans with (Z.min (Z.log2 a) (Z.log2 m)); [by apply Z.log2_land; lia|].
  apply Z.le_lt_trans with (Z.log2 m); [lia|]. apply Z.log2_lt_pow2; lia.
Qed.

(** A field placed above a narrower one: the bitwise or is the sum. *)
Lemma land_shiftl_low a b k : 0 <= k → fits k a → Z.land (b ≪ k) a = 0.
Proof.
  intros Hk Ha. apply Z.bits_inj'. intros i Hi.
  rewrite Z.land_spec, Z.bits_0.
  destruct (decide (i < k)) as [H|H].
  - by rewrite Z.shiftl_spec_low by lia.
  - rewrite <- (wrap_small k a Ha). unfold wrap.
    rewrite Z.mod_pow2_bits_high by lia. apply andb_false_r.
Qed.

Lemma lor_disjoint_add a b : Z.land a b = 0 → Z.lor a b = a + b.
Proof. intros H. by rewrite Z.add_nocarry_lxor, Z.lxor_lor by done. Qed.

Lemma lor_shiftl_add a b k : 0 <= k → fits k a → Z.lor (b ≪ k) a = b * 2 ^ k + a.
Proof.
  intros Hk Ha. rewrite lor_disjoint_add by by apply land_shiftl_low.
  by rewrite Z.shiftl_mul_pow2.
Qed.

Lemma land_mask k a : 0 <= k → Z.land a (2 ^ k - 1) = a mod 2 ^ k.
Proof.
  intros Hk. rewrite <- Z.land_ones by done. by rewrite Z.ones_equiv, Z.sub_1_r.
Qed.

Lemma wrap_wrap w w' z : 0 <= w <= w' → wrap w (wrap w' z) = wrap w z.
Proof.
  intros Hw. unfold wrap.
  replace (2 ^ w') with (2 ^ w * 2 ^ (w' - w)) by (rewrite <- Z.pow_add_r; f_equal; lia).
  rewrite Z.rem_mul_r by lia.
  rewrite (Z.mul_comm (2 ^ w)), Z.mod_add by lia. by rewrite Z.mod_mod by lia.
Qed.

(** ** Byte strings *)

(** The bytes of [z] in the order of a little-endian memory image. *)
Fixpoint le_bytes (n : nat) (z : Z) : list Z :=
  match n with O => [] | S n => z mod 256 :: le_bytes n (z / 256) end.

Fixpoint le_value (l : list Z) : Z :=
  match l with [] => 0 | b :: l => b + 256 * le_value l end.

(** Network byte order: most significant byte first. *)
Definition be_bytes (n : nat) (z : Z) : list Z := reverse (le_bytes n z).
Definition be_value (l : list Z) : Z := le_value (reverse l).

Lemma length_le_bytes n z : length (le_bytes n z) = n.
Proof. revert z; induction n; intros; simpl; auto. Qed.

Lemma length_be_bytes n z : length (be_bytes n z) = n.
Proof. unfold be_bytes. by rewrite length_reverse, length_le_bytes. Qed.

Lemma le_bytes_ok n z : bytes_ok (le_bytes n z).
Proof.
  revert z; induction n; intros; simpl; constructor; auto.
  unfold fits. change (2 ^ 8) with 256. lia.
Qed.

Lemma be_bytes_ok n z : bytes_ok (be_bytes n z).
Proof. apply Forall_reverse, le_bytes_ok. Qed.

Lemma le_value_bytes n z : le_value (le_bytes n z) = z mod 256 ^ Z.of_nat n.
Proof.
  revert z; induction n as [|n IH]; intros; cbn [le_bytes le_value].
  - by rewrite Z.mod_1_r.
  - rewrite IH, Nat2Z.inj_succ, Z.pow_succ_r by lia.
    by rewrite Z.rem_mul_r by lia.
Qed.

Lemma le_value_bytes_fits n z : fits (8 * Z.of_nat n) z → le_value (le_bytes n z) = z.
Proof.
  intros Hz. rewrite le_value_bytes. apply Z.mod_small.
  unfold fits in Hz. rewrite Z.pow_mul_r in Hz by lia. exact Hz.
Qed.

Lemma be_value_bytes_fits n z : fits (8 * Z.of_nat n) z → be_value (be_bytes n z) = z.
Proof.
  unfold be_value, be_bytes. rewrite reverse_involutive. apply le_value_bytes_fits.
Qed.

Lemma le_bytes_value l : bytes_ok l → le_bytes (length l) (le_value l) = l.
Proof.
  induction 1 as [|b l Hb Hl IH]; cbn [length le_bytes le_value]; [done|].
  unfold fits in Hb. change (2 ^ 8) with 256 in Hb. f_equal.
  - rewrite Z.mul_comm, Z.mod_add, Z.mod_small by lia. done.
  - rewrite Z.mul_comm, Z.div_add, Z.div_small by lia. exact IH.
Qed.

Lemma be_bytes_value l : bytes_ok l → be_bytes (length l) (be_value l) = l.
Proof.
  intros Hl. unfold be_bytes, be_value.
  rewrite <- (length_reverse l), le_bytes_value by by apply Forall_reverse.
  apply reverse_involutive.
Qed.

Lemma le_value_fits l : bytes_ok l → fits (8 * Z.of_nat (length l)) (le_value l).
Proof.
  unfold fits. induction 1 as [|b l Hb Hl IH]; cbn [length le_value]; [done|].
  unfold fits in Hb. change (2 ^ 8) with 256 in Hb.
  replace (8 * Z.of_nat (S (length l))) with (8 * Z.of_nat (length l) + 8) by lia.
  rewrite Z.pow_add_r by lia. change (2 ^ 8) with 256. lia.
Qed.

Lemma be_value_fits l : bytes_ok l → fits (8 * Z.of_nat (length l)) (be_value l).
Proof.
  intros Hl. unfold be_value. rewrite <- (length_reverse l).
  by apply le_value_fits, Forall_reverse.
Qed.

Lemma be_value_1 x : be_value [x] = x.
Proof. unfold be_value. simpl. lia. Qed.

Lemma be_value_2 x y : be_value [x; y] = 256 * x + y.
Proof. unfold be_value. simpl. lia. Qed.

Lemma be_bytes_2 z : be_bytes 2 z = [(z / 256) mod 256; z mod 256].
Proof. done. Qed.

#[global] Opaque le_bytes le_value be_bytes be_value.

(** ** Containers *)

(** [v.size()] *)
Definition zlen {A} (v : list A) : Z := Z.of_nat (length v).
#[global] Arguments zlen : simpl never.

(** [v[i]]: undefined past the end. *)
Definition vec_at {A} (v : list A) (i : Z) : result A :=
  if 0 <=? i then
    match v !! Z.to_nat i with Some x => Ok x | None => Fault OutOfBounds end
  else Fault OutOfBounds.

(** [v.resize(n)] for a vector of bytes: truncates or appends zeros, and throws
    [std::length_error] past [max_size() = 2^63 - 1]. *)
Definition vec_resize (v : list Z) (n : Z) : result (list Z) :=
  if n <=? 2 ^ 63 - 1 then
    Ok (take (Z.to_nat n) v ++ replicate (Z.to_nat n - length v) 0)
  else Fault LengthError.

(** The bytes [[off, off + n)] of a buffer, as [memcpy] reads them. *)
Definition mem_read (v : list Z) (off n : Z) : result (list Z) :=
  if (0 <=? off) && (0 <=? n) && (off + n <=? zlen v) then
    Ok (take (Z.to_nat n) (drop (Z.to_nat off) v))
  else Fault OutOfBounds.

(** [memcpy] of [w] into [v] at offset [off]. *)
Definition mem_write (v : list Z) (off : Z) (w : list Z) : result (list Z) :=
  if (0 <=? off) && (off + zlen w <=? zlen v) then
    Ok (take (Z.to_nat off) v ++ w ++ drop (Z.to_nat off + length w) v)
  else Fault OutOfBounds.

(** The elements of an iterator range [[begin() + a, begin() + b)]. *)
Definition vec_range {A} (v : list A) (a b : Z) : result (list A) :=
  if (0 <=? a) && (a <=? b) && (b <=? zlen v) then
    Ok (take (Z.to_nat (b - a)) (drop (Z.to_nat a) v))
  else Fault OutOfBounds.

Lemma zlen_nonneg {A} (v : list A) : 0 <= zlen v.
Proof. unfold zlen; lia. Qed.
Lemma zlen_app {A} (v w : list A) : zlen (v ++ w) = zlen v + zlen w.
Proof. unfold zlen. rewrite length_app. lia. Qed.
Lemma zlen_cons {A} (x : A) v : zlen (x :: v) = 1 + zlen v.
Proof. unfold zlen. simpl. lia. Qed.

Lemma vec_at_lookup_eq {A} (l : list A) i x : vec_at l i = Ok x → l !! Z.to_nat i = Some x ∧ 0 <= i.
Proof.
  unfold vec_at. destruct (Z.leb_spec 0 i); [|done]. destruct (l !! Z.to_nat i); [|done]. by intros [= ->].
Qed.

Lemma vec_at_ok {A} (l : list A) i : 0 <= i < zlen l → ∃ x, vec_at l i = Ok x ∧ l !! Z.to_nat i = Some x.
Proof.
  intros Hi. unfold vec_at. rewrite (proj2 (Z.leb_le _ _)) by lia. destruct (lookup_lt_is_Some_2 l (Z.to_nat i)) as [x Hx]; [unfold zlen in Hi; lia|].
  exists x. by rewrite Hx.
Qed.

Lemma vec_at_lookup {A} (l : list A) i x : 0 <= i → l !! Z.to_nat i = Some x → vec_at l i = Ok x.
Proof. intros Hi Hl. unfold vec_at. rewrite (proj2 (Z.leb_le _ _)) by done. by rewrite Hl. Qed.

Lemma vec_at_nat {A} (l : list A) n x : vec_at l (Z.of_nat n) = Ok x ↔ l !! n = Some x.
Proof.
  split.
  - intros [H _]%vec_at_lookup_eq. by rewrite Nat2Z.id in H.
  - intros H. apply vec_at_lookup; [lia|]. by rewrite Nat2Z.id.
Qed.

Lemma vec_at_insert {A} (l : list A) n x : (n < length l)%nat → vec_at (<[n := x]> l) (Z.of_nat n) = Ok x.
Proof. intros H. by apply vec_at_nat, list_lookup_insert_eq. Qed.

Lemma vec_at_insert_ne {A} (l : list A) n i x : i ≠ Z.of_nat n → vec_at (<[n := x]> l) i = vec_at l i.
Proof. intros H. unfold vec_at. destruct (Z.leb_spec 0 i); [|done]. by rewrite list_lookup_insert_ne by lia. Qed.

Lemma vec_at_app_r {A} (v w : list A) i :
  0 <= i → vec_at (v ++ w) (zlen v + i) = vec_at w i.
Proof.
  intros Hi. unfold vec_at, zlen.
  rewrite !(proj2 (Z.leb_le _ _)) by lia.
  rewrite lookup_app_r by lia.
  by replace (Z.to_nat (Z.of_nat (length v) + i) - length v)%nat with (Z.to_nat i) by lia.
Qed.

Lemma vec_at_app_0 {A} (v w : list A) : vec_at (v ++ w) (zlen v) = vec_at w 0.
Proof. rewrite <- (Z.add_0_r (zlen v)). by apply vec_at_app_r. Qed.

Lemma vec_resize_take (v : list Z) (n : Z) :
  0 <= n <= zlen v → n < 2 ^ 63 → vec_resize v n = Ok (take (Z.to_nat n) v).
Proof.
  unfold vec_resize, zlen; intros H1 H2.
  rewrite (proj2 (Z.leb_le _ _)) by lia.
  replace (Z.to_nat n - length v)%nat with 0%nat by lia. by rewrite app_nil_r.
Qed.

Lemma Forall_sublist {A} (P : A → Prop) l k : sublist l k → Forall P k → Forall P l.
Proof. induction 1; inversion_clear 1; auto. Qed.

Lemma mem_read_app (u v w : list Z) :
  mem_read (u ++ v ++ w) (zlen u) (zlen v) = Ok v.
Proof.
  unfold mem_read, zlen. rewrite !length_app.
  rewrite (proj2 (andb_true_iff _ _)).
  2: { split; [apply andb_true_iff; split|]; apply Z.leb_le; lia. }
  rewrite !Nat2Z.id, drop_app_length, take_app_length. done.
Qed.

Lemma mem_write_app (u v w x : list Z) :
  length v = length x → mem_write (u ++ v ++ w) (zlen u) x = Ok (u ++ x ++ w).
Proof.
  intros Hl. unfold mem_write, zlen. rewrite !length_app, Hl.
  rewrite (proj2 (andb_true_iff _ _)) by (split; apply Z.leb_le; lia).
  rewrite Nat2Z.id, take_app_length, <- Hl, drop_app_add.
  by rewrite drop_app_length.
Qed.

Lemma vec_range_app {A} (u v w : list A) :
  vec_range (u ++ v ++ w) (zlen u) (zlen u + zlen v) = Ok v.
Proof.
  unfold vec_range, zlen. rewrite !length_app.
  rewrite !(proj2 (andb_true_iff _ _)).
  2: { split; [apply andb_true_iff; split|]; apply Z.leb_le; lia. }
  rewrite Nat2Z.id, drop_app_length.
  replace (Z.to_nat (Z.of_nat (length u) + Z.of_nat (length v) - Z.of_nat (length u)))
    with (length v) by lia.
  by rewrite take_app_length.
Qed.

(** ** Automation *)

Create HintDb machine.
Create Rewrite HintDb machine.
#[export] Hint Resolve le_bytes_ok be_bytes_ok wrap_fits : machine.
#[export] Hint Rewrite length_le_bytes length_be_bytes @zlen_app @zlen_cons : machine.

(** Case analysis on an integer test, leaving the arithmetic fact. *)
Ltac case_Z :=
  match goal with
  | |- context [Z.ltb ?a ?b] => destruct (Z.ltb_spec a b)
  | |- context [Z.leb ?a ?b] => destruct (Z.leb_spec a b)
  | |- context [Z.eqb ?a ?b] => destruct (Z.eqb_spec a b)
  end.

(** Resolve the first integer test of the goal by arithmetic. *)
Ltac test_true :=
  match goal with
  | |- context [if ?b then _ else _] => replace b with true by lia
  end.
Ltac test_false :=
  match goal with
  | |- context [if ?b then _ else _] => replace b with false by lia
  end.

(** Step over an assertion that holds by arithmetic. *)
Ltac pass_assume :=
  match goal with
  | |- context [assume ?b ?f] =>
      replace (assume b f) with (Ok tt : result unit) by (replace b with true by lia; reflexivity);
      cbn [mbind result_bind]
  end.

(** Unfold width predicates at literal widths so that [lia] can use them. *)
Ltac unfold_fits :=
  unfold fits, sfits in *;
  repeat match goal with
  | H : context [2 ^ ?k] |- _ =>
      let v := eval vm_compute in (2 ^ k) in
      match v with Z0 => fail 1 | Zpos _ => change (2 ^ k) with v in H end
  | |- context [2 ^ ?k] =>
      let v := eval vm_compute in (2 ^ k) in
      match v with Z0 => fail 1 | Zpos _ => change (2 ^ k) with v end
  end.

Ltac lia_fits := unfold_fits; lia.

(** Closes [Forall] goals on a concrete list whose elements are in range. *)
Ltac solve_Forall :=
  repeat first [apply Forall_nil_2 | apply Forall_cons_2 | lia_fits | split | done].

(** Split hypotheses about monadic binds that returned. *)
Ltac inv_result :=
  repeat match goal with
  | H : (_ ≫= _) = Ok _ |- _ =>
      let x := fresh "x" in let Hx := fresh "Hx" in
      apply bind_Ok in H as (x & Hx & H)
  | H : Ok _ = Ok _ |- _ => injection H as H
  | H : Fault _ = Ok _ |- _ => discriminate H
  | H : mret _ = Ok _ |- _ => injection H as H
  end; subst.
