(* ===== verification/Bf16.v ===== *)
(** * Bf16: brain floating point storage type

    Models include/srsran/adt/bf16.h and the sample type of
    include/srsran/adt/complex.h.  A [bf16_t] is its 16-bit pattern, and a
    [float] that is only moved around (memcpy, reinterpret_cast) is its 32-bit
    IEEE 754 pattern, so that every pattern, NaNs included, is covered. *)

From S2P Require Export Prelude.

(** [struct cbf16_t]: the two members. *)
Record cbf16_t : Type := mk_cbf16 { real : Z; imag : Z }.

#[export] Instance cbf16_eq_dec : EqDecision cbf16_t.
Proof. solve_decision. Defined.

(** [to_bf16(float)]: adds half an ulp of the shorter format (less one when the
    kept part is even) in 32-bit arithmetic, then drops the 16 low bits. *)
Definition to_bf16 (value : Z) : Z :=
  let temp_u32 := wrap 32 (value + (0x7fff + Z.land (value ≫ 16) 1)) in
  wrap 16 (temp_u32 ≫ 16).

(** [to_float(bf16_t)]. *)
Definition to_float (value : Z) : Z := wrap 32 (value ≪ 16).

(** A sample whose members are 16-bit patterns. *)
Definition cbf16_ok (s : cbf16_t) : Prop := u16 (real s) ∧ u16 (imag s).

(** Round-half-to-even of a 32-bit pattern to its 16 high bits: the documented
    behaviour of the conversion. *)
Definition round_half_even_16 (x : Z) : Z :=
  let q := x / 65536 in
  let r := x mod 65536 in
  if r <? 32768 then q
  else if 32768 <? r then q + 1
  else if Z.even q then q else q + 1.

Lemma land_1_mod2 x : Z.land x 1 = x mod 2.
Proof. exact (land_mask 1 x ltac:(lia)). Qed.

Lemma to_float_fits v : u32 (to_float v).
Proof. by apply wrap_fits. Qed.

Lemma to_float_eq v : u16 v → to_float v = v * 65536.
Proof.
  intros Hv. unfold to_float. rewrite Z.shiftl_mul_pow2 by lia.
  apply wrap_small. lia_fits.
Qed.

Lemma to_bf16_fits v : u16 (to_bf16 v).
Proof. by apply wrap_fits. Qed.

Lemma to_bf16_round x : u32 x → to_bf16 x = wrap 16 (round_half_even_16 x).
Proof.
  intros Hx. unfold to_bf16, round_half_even_16.
  rewrite land_1_mod2, !Z.shiftr_div_pow2 by lia.
  unfold wrap. unfold_fits.
  rewrite Zeven_mod. repeat case_Z; lia.
Qed.

Lemma to_bf16_to_float v : u16 v → to_bf16 (to_float v) = v.
Proof.
  intros Hv. rewrite to_bf16_round by apply to_float_fits.
  rewrite to_float_eq by done. unfold round_half_even_16.
  rewrite Z.mod_mul by lia. simpl. rewrite Z.div_mul by lia. by apply wrap_small.
Qed.

#[export] Hint Resolve to_bf16_fits to_float_fits : machine.

(** ** Properties *)

(** Storing a float as a brain float rounds its 32-bit pattern half to even,
    for every pattern (the result is taken modulo 2^16, as the carry out of the
    exponent of a NaN is), and a stored value survives the trip through float. *)
Theorem bf16_conversion x v :
  u32 x → u16 v →
  to_bf16 x = wrap 16 (round_half_even_16 x) ∧ to_bf16 (to_float v) = v.
Proof. intros Hx Hv. split; [by apply to_bf16_round|by apply to_bf16_to_float]. Qed.

Lemma bf16_conversion_witness :
  to_bf16 0x3f818000 = 0x3f82 ∧ to_bf16 0x3f808000 = 0x3f80 ∧ to_bf16 (to_float 0xbf81) = 0xbf81.
Proof.
  destruct (bf16_conversion 0x3f818000 0xbf81) as [H1 H2]; [lia_fits..|].
  destruct (bf16_conversion 0x3f808000 0xbf81) as [H3 _]; [lia_fits..|].
  split; [exact H1|]. split; [exact H3|exact H2].
Defined.
