(* ===== verification/IqConv.v ===== *)
(** * IqConv: bytes to IQ samples and back

    Models class [iq_conv] of include/d_compression/iq.h and
    lib/d_compression/iq.cpp: [to_iq]/[from_iq] place one byte in the high half
    of each brain float, [serialize]/[deserialize] write each member as the
    memory image of a 32-bit float (little-endian hosts, as the supported
    x86-64 and AArch64 builds are). *)

From S2P Require Export Bf16.

(** [typedef enum {...} compression_options] *)
Inductive compression_options : Type := NONE | BFP | RLE | LZ77.

#[export] Instance compression_options_eq_dec : EqDecision compression_options.
Proof. solve_decision. Defined.

(** The enumerators' values, as [static_cast<int>] gives them. *)
Definition option_value (o : compression_options) : Z :=
  match o with NONE => 0 | BFP => 1 | RLE => 2 | LZ77 => 3 end.

(** [static_cast<compression_options>(byte)]: the enumerator, if there is one. *)
Definition option_of_value (z : Z) : option compression_options :=
  match z with 0 => Some NONE | 1 => Some BFP | 2 => Some RLE | 3 => Some LZ77 | _ => None end.

Lemma option_of_value_value o : option_of_value (option_value o) = Some o.
Proof. by destruct o. Qed.

Module iq_conv.

(** [bf16_t I(static_cast<uint16_t>(byte) << 8)] *)
Definition high_byte (b : Z) : Z := wrap 16 (b ≪ 8).

(** The loop [for (i = 0; i + 1 < in.size(); i += 2)]. *)
Fixpoint to_iq_loop (inp : list Z) : list cbf16_t :=
  match inp with
  | b0 :: b1 :: rest => mk_cbf16 (high_byte b0) (high_byte b1) :: to_iq_loop rest
  | _ => []
  end.

(** Returns [blank_bytes] and the content of [out]. *)
Definition to_iq (inp : list Z) : Z * list cbf16_t :=
  let out := to_iq_loop inp in
  if zlen inp mod 2 =? 1 then
    (1, out ++ [mk_cbf16 (high_byte (List.last inp 0)) 0])
  else (0, out).

Definition from_iq_sample (iq : cbf16_t) : list Z :=
  [wrap 8 (real iq ≫ 8); wrap 8 (imag iq ≫ 8)].

(** [out.resize(out.size() - blank_bytes)] is computed in [size_t]. *)
Definition from_iq (inp : list cbf16_t) (blank_bytes : Z) : result (list Z) :=
  let out := inp ≫= from_iq_sample in
  vec_resize out (wrap 64 (zlen out - blank_bytes)).

Definition serialize_sample (val : cbf16_t) : list Z :=
  le_bytes 4 (to_float (real val)) ++ le_bytes 4 (to_float (imag val)).

Definition serialize (inp : list cbf16_t) : list Z := inp ≫= serialize_sample.

(** The loop [for (i = 0; i < in.size(); i += 8)]; both [memcpy] calls read four
    bytes whether or not the vector holds them. *)
Fixpoint deserialize_loop (fuel : nat) (inp : list Z) (i : Z) (out : list cbf16_t)
    : result (list cbf16_t) :=
  if i <? zlen inp then
    match fuel with
    | O => Fault OutOfFuel
    | S fuel =>
        If ← mem_read inp i 4;
        Qf ← mem_read inp (i + 4) 4;
        let newSample := mk_cbf16 (to_bf16 (le_value If)) (to_bf16 (le_value Qf)) in
        deserialize_loop fuel inp (i + 8) (out ++ [newSample])
    end
  else Ok out.

Definition deserialize (inp : list Z) : result (list cbf16_t) :=
  deserialize_loop (length inp) inp 0 [].

(** ** [to_iq] and [from_iq] *)

Lemma high_byte_eq b : u8 b → high_byte b = b * 256.
Proof.
  intros Hb. unfold high_byte. rewrite Z.shiftl_mul_pow2 by lia.
  apply wrap_small. lia_fits.
Qed.

Lemma high_byte_fits b : u16 (high_byte b).
Proof. by apply wrap_fits. Qed.

Lemma high_byte_back b : u8 b → wrap 8 (high_byte b ≫ 8) = b.
Proof.
  intros Hb. rewrite high_byte_eq by done. rewrite Z.shiftr_div_pow2 by lia.
  change (2 ^ 8) with 256. rewrite Z.div_mul by lia. by apply wrap_small.
Qed.

(** Induction over a list two elements at a time. *)
Lemma list_pair_ind {A} (P : list A → Prop) :
  P [] → (∀ x, P [x]) → (∀ x y l, P l → P (x :: y :: l)) → ∀ l, P l.
Proof.
  intros H0 H1 H2. fix IH 1. intros [|x [|y l]]; [done|apply H1|apply H2, IH].
Qed.

(** [to_iq] without the index arithmetic. *)
Fixpoint pair_up (inp : list Z) : list cbf16_t :=
  match inp with
  | [] => []
  | [b] => [mk_cbf16 (high_byte b) 0]
  | b0 :: b1 :: rest => mk_cbf16 (high_byte b0) (high_byte b1) :: pair_up rest
  end.

Lemma to_iq_spec inp : to_iq inp = (zlen inp mod 2, pair_up inp).
Proof.
  unfold to_iq. induction inp as [|x|x y l IH] using list_pair_ind; [done..|].
  rewrite !zlen_cons. replace ((1 + (1 + zlen l)) mod 2) with (zlen l mod 2) by lia.
  cbn [to_iq_loop pair_up]. revert IH. case_Z; intros IH; injection IH as H1 H2.
  - rewrite <- H1, <- H2. destruct l; [done|]. done.
  - by rewrite <- H1, <- H2.
Qed.

Lemma to_iq_ok inp : Forall cbf16_ok (to_iq inp).2.
Proof.
  rewrite to_iq_spec. cbn [snd].
  induction inp as [|x|x y l IH] using list_pair_ind; cbn [pair_up].
  - constructor.
  - constructor; [|constructor]. split; [apply high_byte_fits|]. simpl. lia_fits.
  - constructor; [|done]. split; apply high_byte_fits.
Qed.

Lemma from_iq_bytes inp : bytes_ok (inp ≫= from_iq_sample).
Proof.
  induction inp as [|s l IH]; [constructor|].
  rewrite bind_cons. do 2 (constructor; [by apply wrap_fits|]). exact IH.
Qed.

Lemma length_from_iq inp : length (inp ≫= from_iq_sample) = (2 * length inp)%nat.
Proof. induction inp as [|s l IH]; [done|]. rewrite bind_cons, length_app, IH. simpl. lia. Qed.

Lemma pair_up_back inp : bytes_ok inp →
  pair_up inp ≫= from_iq_sample = inp ++ (if zlen inp mod 2 =? 1 then [0] else []).
Proof.
  induction inp as [|x|x y l IH] using list_pair_ind; intros Hok.
  - done.
  - inversion_clear Hok as [|?? Hx _]. simpl. by rewrite high_byte_back.
  - inversion_clear Hok as [|?? Hx Hok']. inversion_clear Hok' as [|?? Hy Hok].
    rewrite !zlen_cons. replace ((1 + (1 + zlen l)) mod 2) with (zlen l mod 2) by lia.
    cbn [pair_up]. rewrite bind_cons, IH by done.
    unfold from_iq_sample. simpl. by rewrite !high_byte_back by done.
Qed.

Lemma from_iq_to_iq inp : bytes_ok inp → zlen inp < 2 ^ 63 - 1 →
  from_iq (to_iq inp).2 (to_iq inp).1 = Ok inp.
Proof.
  intros Hok Hlen. rewrite to_iq_spec. cbn [fst snd]. unfold from_iq.
  rewrite pair_up_back by done. pose proof (zlen_nonneg inp).
  assert (Hz : zlen (inp ++ (if zlen inp mod 2 =? 1 then [0] else [])) - zlen inp mod 2 = zlen inp).
  { rewrite zlen_app. case_Z; simpl; unfold zlen in *; simpl; lia. }
  rewrite Hz, wrap_small by lia_fits.
  rewrite vec_resize_take by (rewrite ?zlen_app; pose proof (zlen_nonneg (if zlen inp mod 2 =? 1 then [0] else [])); lia).
  unfold zlen. by rewrite Nat2Z.id, take_app_length.
Qed.

(** A blank count larger than the byte count wraps around and throws. *)
Lemma from_iq_underflow inp blank :
  2 * zlen inp < blank < 2 ^ 63 → from_iq inp blank = Fault LengthError.
Proof.
  intros H. unfold from_iq, vec_resize.
  assert (Hz : zlen (inp ≫= from_iq_sample) = 2 * zlen inp).
  { unfold zlen. rewrite length_from_iq. lia. }
  rewrite Hz. pose proof (zlen_nonneg inp). unfold wrap. unfold_fits.
  case_Z; [|done]. lia.
Qed.

(** ** [serialize] and [deserialize] *)

Lemma length_serialize_sample s : length (serialize_sample s) = 8%nat.
Proof. unfold serialize_sample. by rewrite length_app, !length_le_bytes. Qed.

Lemma zlen_serialize inp : zlen (serialize inp) = 8 * zlen inp.
Proof.
  unfold zlen, serialize. induction inp as [|s l IH]; [done|].
  rewrite bind_cons, length_app, length_serialize_sample. simpl length. lia.
Qed.

Lemma serialize_bytes inp : bytes_ok (serialize inp).
Proof.
  induction inp as [|s l IH]; [constructor|].
  unfold serialize. rewrite bind_cons. apply Forall_app; split; [|exact IH].
  apply Forall_app; auto with machine.
Qed.

Lemma sample_back v : u16 v → to_bf16 (le_value (le_bytes 4 (to_float v))) = v.
Proof.
  intros Hv. rewrite le_value_bytes_fits by apply to_float_fits.
  by apply to_bf16_to_float.
Qed.

Lemma deserialize_step fuel pre s rest out :
  deserialize_loop (S fuel) (pre ++ serialize_sample s ++ rest) (zlen pre) out =
  deserialize_loop fuel (pre ++ serialize_sample s ++ rest) (zlen (pre ++ serialize_sample s))
    (out ++ [mk_cbf16 (to_bf16 (le_value (le_bytes 4 (to_float (real s)))))
                      (to_bf16 (le_value (le_bytes 4 (to_float (imag s)))))]).
Proof.
  unfold serialize_sample. set (a := le_bytes 4 (to_float (real s))).
  set (b := le_bytes 4 (to_float (imag s))).
  assert (Ha : zlen a = 4) by (unfold zlen, a; by rewrite length_le_bytes).
  assert (Hb : zlen b = 4) by (unfold zlen, b; by rewrite length_le_bytes).
  cbn [deserialize_loop]. rewrite !zlen_app, Ha, Hb.
  pose proof (zlen_nonneg pre). pose proof (zlen_nonneg rest).
  case_Z; [|lia]. rewrite <- !app_assoc.
  rewrite <- Ha at 1. rewrite mem_read_app. cbn [mbind result_bind].
  pose proof (mem_read_app (pre ++ a) b rest) as HR.
  rewrite zlen_app, Ha, Hb, <- app_assoc in HR. rewrite HR. cbn [mbind result_bind].
  done.
Qed.

Lemma deserialize_loop_serialize l : ∀ fuel pre out,
  Forall cbf16_ok l → (length l <= fuel)%nat →
  deserialize_loop fuel (pre ++ serialize l) (zlen pre) out = Ok (out ++ l).
Proof.
  induction l as [|s l IH]; intros fuel pre out Hok Hf.
  - unfold serialize. simpl. rewrite !app_nil_r.
    destruct fuel; simpl; case_Z; (lia || done).
  - inversion_clear Hok as [|?? [Hr Hi] Hok'].
    destruct fuel as [|fuel]; simpl in Hf; [lia|].
    unfold serialize. rewrite bind_cons.
    rewrite deserialize_step, !sample_back by done.
    rewrite app_assoc. change (l ≫= serialize_sample) with (serialize l).
    rewrite IH by (done || lia). by rewrite <- app_assoc; destruct s.
Qed.

Lemma deserialize_serialize l : Forall cbf16_ok l → deserialize (serialize l) = Ok l.
Proof.
  intros Hok. unfold deserialize.
  apply (deserialize_loop_serialize l _ [] []); [done|].
  pose proof (zlen_serialize l). unfold zlen in *. lia.
Qed.

(** A buffer whose size is not a multiple of eight is read past its end. *)
Lemma deserialize_loop_short inp : ∀ fuel k out,
  zlen inp mod 8 ≠ 0 → 0 <= k → 8 * k <= zlen inp → zlen inp - 8 * k <= 8 * Z.of_nat fuel →
  deserialize_loop fuel inp (8 * k) out = Fault OutOfBounds.
Proof.
  induction fuel as [|fuel IH]; intros k out Hm Hk Hlo Hf; simpl.
  - lia.
  - case_Z; [|lia]. unfold mem_read.
    destruct (decide (8 * (k + 1) <= zlen inp)).
    + rewrite !(proj2 (andb_true_iff _ _)) by (split; [apply andb_true_iff; split|]; apply Z.leb_le; lia).
      simpl. replace (8 * k + 8) with (8 * (k + 1)) by lia. apply IH; lia.
    + rewrite (proj2 (andb_false_iff _ (8 * k + 4 + 4 <=? zlen inp))) by (right; apply Z.leb_gt; lia).
      by case_match.
Qed.

Lemma deserialize_short inp : zlen inp mod 8 ≠ 0 → deserialize inp = Fault OutOfBounds.
Proof.
  intros H. apply (deserialize_loop_short inp _ 0); try done; unfold zlen in *; lia.
Qed.

(** ** Properties *)

(** Any byte string, of odd or even length, comes back from its IQ samples
    when [from_iq] is given the blank count [to_iq] reported. *)
Theorem iq_roundtrip inp :
  bytes_ok inp → zlen inp < 2 ^ 63 - 1 →
  from_iq (to_iq inp).2 (to_iq inp).1 = Ok inp ∧ 0 <= (to_iq inp).1 <= 1 ∧
  2 * zlen (to_iq inp).2 = zlen inp + (to_iq inp).1.
Proof.
  intros Hb Hl. split; [by apply from_iq_to_iq|].
  pose proof (pair_up_back inp Hb) as Hp. apply (f_equal zlen) in Hp.
  rewrite to_iq_spec. cbn [fst snd]. unfold zlen in Hp at 1.
  rewrite length_from_iq, zlen_app in Hp. unfold zlen in *.
  destruct (Z.eqb_spec (Z.of_nat (length inp) mod 2) 1); simpl in Hp; lia.
Qed.

Lemma iq_roundtrip_witness : from_iq (to_iq [7; 255; 128]).2 (to_iq [7; 255; 128]).1 = Ok [7; 255; 128].
Proof. apply (iq_roundtrip [7; 255; 128]); [solve_Forall|done]. Defined.

(** Samples written as memory images of floats are read back unchanged, in
    eight bytes per sample. *)
Theorem serialization_roundtrip l :
  Forall cbf16_ok l → deserialize (serialize l) = Ok l ∧ zlen (serialize l) = 8 * zlen l.
Proof. intros H. split; [by apply deserialize_serialize|apply zlen_serialize]. Qed.

Lemma serialization_roundtrip_witness :
  deserialize (serialize [mk_cbf16 0x3f80 0x4100; mk_cbf16 0 0xffff]) =
    Ok [mk_cbf16 0x3f80 0x4100; mk_cbf16 0 0xffff].
Proof. apply (serialization_roundtrip [_; _]). solve_Forall. Defined.

(** The two malformed messages the receiver does not guard against: a body
    that is not a whole number of samples is read past its end, and a blank
    count larger than the decoded length makes the final resize throw. *)
Theorem malformed_samples inp samples blank :
  zlen inp mod 8 ≠ 0 → 2 * zlen samples < blank < 2 ^ 63 →
  deserialize inp = Fault OutOfBounds ∧ from_iq samples blank = Fault LengthError.
Proof. intros H1 H2. split; [by apply deserialize_short|by apply from_iq_underflow]. Qed.

Lemma malformed_samples_witness :
  deserialize [1; 2; 3] = Fault OutOfBounds ∧ from_iq [] 1 = Fault LengthError.
Proof. apply malformed_samples; [done|split; done]. Defined.

End iq_conv.
