(* ===== verification/Rle.v ===== *)
(** * Rle: the run-length compressor

    Models class [rle_compressor] (include/d_compression/rle.h,
    lib/d_compression/rle.cpp).  The loops keep the code's indices; their fuel
    is the input length, and the lemmas below show it is never exhausted.  The
    reference is a list of runs: [decode] gives the bytes it stands for and
    [canonical] says the runs are the greedy ones. *)

From S2P Require Export Prelude.

Module rle_compressor.

(** [while (i + 1 < n && in[i + 1] == current_byte && run_length < 255)];
    returns the final [run_length] and [i]. *)
Fixpoint run_loop (fuel : nat) (inp : list Z) (current_byte run_length i : Z)
    : result (Z * Z) :=
  if i + 1 <? zlen inp then
    b ← vec_at inp (i + 1);
    if (b =? current_byte) && (run_length <? 255) then
      match fuel with
      | O => Fault OutOfFuel
      | S fuel => run_loop fuel inp current_byte (wrap 8 (run_length + 1)) (i + 1)
      end
    else Ok (run_length, i)
  else Ok (run_length, i).

(** [for (i = 0; i < n; ++i)] *)
Fixpoint compress_loop (fuel : nat) (inp : list Z) (i : Z) (out : list Z)
    : result (list Z) :=
  if i <? zlen inp then
    match fuel with
    | O => Fault OutOfFuel
    | S fuel =>
        current_byte ← vec_at inp i;
        '(run_length, i') ← run_loop (length inp) inp current_byte 1 i;
        compress_loop fuel inp (i' + 1) (out ++ [current_byte; run_length])
    end
  else Ok out.

Definition compress (inp : list Z) : result (list Z) :=
  if zlen inp =? 0 then Ok [] else
  out ← compress_loop (length inp) inp 0 [];
  if negb (zlen out mod 2 =? 0) then
    b ← vec_at inp (zlen inp - 1);
    Ok (out ++ [b; 1])
  else Ok out.

(** [for (i = 0; i < in.size(); i += 2)]: an odd size is reported on the error
    stream but not rejected, and the last [in[i + 1]] is past the end. *)
Fixpoint decompress_loop (fuel : nat) (inp : list Z) (i : Z) (out : list Z)
    : result (list Z) :=
  if i <? zlen inp then
    match fuel with
    | O => Fault OutOfFuel
    | S fuel =>
        byte ← vec_at inp i;
        run_length ← vec_at inp (i + 1);
        decompress_loop fuel inp (i + 2) (out ++ replicate (Z.to_nat run_length) byte)
    end
  else Ok out.

Definition decompress (inp : list Z) : result (list Z) :=
  decompress_loop (length inp) inp 0 [].

(** ** Runs *)

Definition decode (runs : list (Z * Z)) : list Z :=
  runs ≫= λ r, replicate (Z.to_nat r.2) r.1.

Definition flat (runs : list (Z * Z)) : list Z := runs ≫= λ r, [r.1; r.2].

Inductive canonical : list (Z * Z) → Prop :=
| canonical_nil : canonical []
| canonical_one x k : 1 <= k <= 255 → canonical [(x, k)]
| canonical_cons x k y j rest :
    1 <= k <= 255 → (x ≠ y ∨ k = 255) →
    canonical ((y, j) :: rest) → canonical ((x, k) :: (y, j) :: rest).

#[local] Hint Constructors canonical : core.

Lemma decode_cons x k rest :
  decode ((x, k) :: rest) = replicate (Z.to_nat k) x ++ decode rest.
Proof. done. Qed.

Lemma flat_cons x k rest : flat ((x, k) :: rest) = x :: k :: flat rest.
Proof. done. Qed.

Lemma canonical_head x k rest : canonical ((x, k) :: rest) → 1 <= k <= 255.
Proof. by inversion 1. Qed.

Lemma canonical_tail r rest : canonical (r :: rest) → canonical rest.
Proof. inversion 1; auto. Qed.

Lemma zlen_flat runs : zlen (flat runs) = 2 * zlen runs.
Proof.
  induction runs as [|[x k] l IH]; [done|].
  rewrite flat_cons, !zlen_cons, IH. lia.
Qed.

Lemma canonical_size runs : canonical runs → zlen (flat runs) <= 2 * zlen (decode runs).
Proof.
  rewrite zlen_flat. induction runs as [|[x k] l IH]; intros Hc; [done|].
  pose proof (canonical_head _ _ _ Hc). apply canonical_tail, IH in Hc.
  rewrite decode_cons, zlen_cons, zlen_app.
  enough (zlen (replicate (Z.to_nat k) x) = k) by lia.
  unfold zlen. rewrite length_replicate. lia.
Qed.

(** ** The compressor produces canonical runs of its input *)

Definition starts_with (x : Z) (l : list Z) : Prop := head l = Some x.

Lemma run_loop_spec suffix : ∀ fuel pre x r,
  (length suffix <= fuel)%nat → 1 <= r <= 255 →
  ∃ k rest, suffix = replicate k x ++ rest ∧
    run_loop fuel (pre ++ x :: suffix) x r (zlen pre) =
      Ok (r + Z.of_nat k, zlen pre + Z.of_nat k) ∧
    r + Z.of_nat k <= 255 ∧ (starts_with x rest → r + Z.of_nat k = 255).
Proof.
  induction suffix as [|y suffix IH]; intros fuel pre x r Hf Hr.
  - exists 0%nat, []. split; [done|]. split; [|split; [lia|done]].
    destruct fuel; cbn [run_loop]; rewrite zlen_app; change (zlen [x]) with 1;
      (case_Z; [lia|]); by rewrite !Z.add_0_r.
  - destruct fuel as [|fuel]; simpl in Hf; [lia|].
    assert (Hv : vec_at (pre ++ x :: y :: suffix) (zlen pre + 1) = Ok y).
    { by rewrite vec_at_app_r by lia. }
    destruct (decide (y = x ∧ r < 255)) as [[-> Hlt]|Hn].
    + destruct (IH fuel (pre ++ [x]) x (r + 1)) as (k & rest & -> & HR & Hk & Hm); [lia..|].
      exists (S k), rest. split; [done|].
      rewrite zlen_app, <- app_assoc in HR. change (zlen [x]) with 1 in HR.
      cbn [run_loop]. rewrite Hv. cbn [mbind result_bind].
      rewrite zlen_app, !zlen_cons. pose proof (zlen_nonneg (replicate k x ++ rest)).
      case_Z; [|lia]. rewrite Z.eqb_refl, (proj2 (Z.ltb_lt r 255)) by lia. cbn [andb].
      rewrite wrap_small by lia_fits. simpl app in HR. rewrite HR.
      split; [do 2 f_equal; lia|]. split; [lia|]. intros; rewrite <- Hm by done; lia.
    + exists 0%nat, (y :: suffix). split; [done|]. cbn [run_loop]. rewrite Hv.
      cbn [mbind result_bind]. rewrite zlen_app, !zlen_cons. pose proof (zlen_nonneg suffix).
      case_Z; [|lia].
      replace ((y =? x) && (r <? 255)) with false by lia.
      rewrite !Z.add_0_r. split; [done|]. split; [lia|].
      unfold starts_with. simpl. intros [= ->]. lia.
Qed.

Lemma canonical_extend x k runs :
  1 <= k <= 255 → canonical runs → (starts_with x (decode runs) → k = 255) →
  canonical ((x, k) :: runs).
Proof.
  intros Hk Hc Hs. destruct runs as [|[y j] rest]; [by constructor|].
  constructor; [done| |done]. pose proof (canonical_head _ _ _ Hc).
  destruct (decide (x = y)) as [->|]; [right|by left]. apply Hs.
  unfold starts_with. rewrite decode_cons.
  replace (Z.to_nat j) with (S (Z.to_nat (j - 1))) by lia. done.
Qed.

Lemma compress_loop_spec n : ∀ fuel pre suffix out,
  (length suffix <= n)%nat → (length suffix <= fuel)%nat →
  ∃ runs, compress_loop fuel (pre ++ suffix) (zlen pre) out = Ok (out ++ flat runs) ∧
    decode runs = suffix ∧ canonical runs.
Proof.
  induction n as [|n IH]; intros fuel pre [|x suffix] out Hn Hf; simpl in Hn, Hf; try lia.
  1, 2: exists []; rewrite !app_nil_r; split; [|done];
    destruct fuel; simpl; (case_Z; [lia|done]).
  destruct fuel as [|fuel]; [lia|]. cbn [compress_loop].
  rewrite zlen_app, zlen_cons, vec_at_app_0. pose proof (zlen_nonneg suffix).
  case_Z; [|lia]. change (vec_at (x :: suffix) 0) with (Ok x). cbn [mbind result_bind].
  destruct (run_loop_spec suffix (length (pre ++ x :: suffix)) pre x 1)
    as (k & rest & -> & HR & Hk & Hm); [rewrite length_app; simpl; lia|lia|].
  rewrite HR. cbn [mbind result_bind].
  destruct (IH fuel (pre ++ x :: replicate k x) rest (out ++ [x; 1 + Z.of_nat k]))
    as (runs & HL & <- & Hc).
  1, 2: rewrite length_app, length_replicate in *; lia.
  exists ((x, 1 + Z.of_nat k) :: runs). split; [|split].
  - rewrite flat_cons. replace (zlen pre + Z.of_nat k + 1) with (zlen (pre ++ x :: replicate k x))
      by (rewrite zlen_app, zlen_cons; unfold zlen; rewrite length_replicate; lia).
    rewrite <- !app_assoc in HL. simpl in HL. by rewrite HL.
  - rewrite decode_cons. by replace (Z.to_nat (1 + Z.of_nat k)) with (S k) by lia.
  - apply canonical_extend; [lia|done|]. intros Hs. by apply Hm.
Qed.

Lemma rle_compress_spec inp :
  ∃ runs, compress inp = Ok (flat runs) ∧ decode runs = inp ∧ canonical runs.
Proof.
  unfold compress. case_Z.
  - exists []. destruct inp; [done|]. rewrite zlen_cons in *. pose proof (zlen_nonneg inp). lia.
  - destruct (compress_loop_spec (length inp) (length inp) [] inp []) as (runs & HL & Hd & Hc); [done..|].
    exists runs. split; [|done]. simpl app in HL. change (zlen []) with 0 in HL.
    rewrite HL. cbn [mbind result_bind]. rewrite zlen_flat.
    by replace ((2 * zlen runs) mod 2) with 0 by lia.
Qed.

(** ** The decompressor *)

Lemma decompress_loop_flat runs : ∀ fuel pre out,
  (length runs <= fuel)%nat →
  decompress_loop fuel (pre ++ flat runs) (zlen pre) out = Ok (out ++ decode runs).
Proof.
  induction runs as [|[x k] runs IH]; intros fuel pre out Hf.
  - unfold flat, decode. simpl. rewrite !app_nil_r. destruct fuel; simpl; (case_Z; [lia|done]).
  - destruct fuel as [|fuel]; simpl in Hf; [lia|]. cbn [decompress_loop].
    rewrite flat_cons, zlen_app, !zlen_cons, vec_at_app_0, vec_at_app_r by lia.
    pose proof (zlen_nonneg (flat runs)). case_Z; [|lia]. simpl vec_at. cbn [mbind result_bind].
    specialize (IH fuel (pre ++ [x; k]) (out ++ replicate (Z.to_nat k) x)).
    rewrite zlen_app, <- !app_assoc in IH. apply IH. lia.
Qed.

Lemma decompress_flat runs : decompress (flat runs) = Ok (decode runs).
Proof.
  apply (decompress_loop_flat runs _ [] []).
  pose proof (zlen_flat runs). unfold zlen in *. lia.
Qed.

Lemma decompress_loop_odd inp : ∀ fuel k out,
  zlen inp mod 2 = 1 → 0 <= k → 2 * k <= zlen inp → zlen inp - 2 * k <= 2 * Z.of_nat fuel →
  decompress_loop fuel inp (2 * k) out = Fault OutOfBounds.
Proof.
  induction fuel as [|fuel IH]; intros k out Hm Hk Hlo Hf; simpl; [lia|].
  case_Z; [|lia]. unfold vec_at. rewrite !(proj2 (Z.leb_le _ _)) by lia.
  destruct (lookup_lt_is_Some_2 inp (Z.to_nat (2 * k))) as [x ->]; [unfold zlen in *; lia|].
  cbn [mbind result_bind].
  destruct (inp !! Z.to_nat (2 * k + 1)) eqn:E; [|done]. cbn [mbind result_bind].
  apply lookup_lt_Some in E. replace (2 * k + 2) with (2 * (k + 1)) by lia.
  apply IH; unfold zlen in *; lia.
Qed.

(** ** Canonical encodings are unique *)

Lemma replicate_app_inv x (a b : nat) l1 l2 :
  (a < b)%nat → replicate a x ++ l1 = replicate b x ++ l2 → starts_with x l1.
Proof.
  intros Hab H. replace b with (a + S (b - a - 1))%nat in H by lia.
  rewrite replicate_add, <- app_assoc in H. apply app_inv_head in H. by rewrite H.
Qed.

Lemma canonical_starts x k runs :
  canonical ((x, k) :: runs) → starts_with x (decode runs) → k = 255.
Proof.
  inversion 1 as [| |x' k' y j rest Hk Hne Hc]; subst; [done|].
  pose proof (canonical_head _ _ _ Hc). unfold starts_with. rewrite decode_cons.
  replace (Z.to_nat j) with (S (Z.to_nat (j - 1))) by lia.
  intros [= ->]. by destruct Hne.
Qed.

Lemma canonical_unique runs1 : ∀ runs2,
  canonical runs1 → canonical runs2 → decode runs1 = decode runs2 → runs1 = runs2.
Proof.
  assert (Hnil : ∀ x k rest, canonical ((x, k) :: rest) → decode ((x, k) :: rest) ≠ []).
  { intros x k rest Hc. pose proof (canonical_head _ _ _ Hc). rewrite decode_cons.
    by replace (Z.to_nat k) with (S (Z.to_nat (k - 1))) by lia. }
  induction runs1 as [|[x k] runs1 IH]; intros [|[y j] runs2] H1 H2 Hd.
  - done.
  - by destruct (Hnil _ _ _ H2).
  - by destruct (Hnil _ _ _ H1).
  - pose proof (canonical_head _ _ _ H1) as Hk. pose proof (canonical_head _ _ _ H2) as Hj.
    rewrite !decode_cons in Hd.
    assert (x = y) as ->.
    { replace (Z.to_nat k) with (S (Z.to_nat (k - 1))) in Hd by lia.
      replace (Z.to_nat j) with (S (Z.to_nat (j - 1))) in Hd by lia. by injection Hd. }
    assert (k = j) as ->.
    { destruct (Z.lt_trichotomy k j) as [Hlt|[->|Hlt]]; [exfalso|done|exfalso].
      - eapply replicate_app_inv in Hd; [|lia].
        pose proof (canonical_starts _ _ _ H1 Hd). lia.
      - symmetry in Hd. eapply replicate_app_inv in Hd; [|lia].
        pose proof (canonical_starts _ _ _ H2 Hd). lia. }
    apply app_inv_head in Hd. f_equal. eauto using canonical_tail.
Qed.

Lemma compress_canonical runs : canonical runs → compress (decode runs) = Ok (flat runs).
Proof.
  intros Hc. destruct (rle_compress_spec (decode runs)) as (runs' & -> & Hd & Hc').
  by rewrite (canonical_unique runs' runs).
Qed.

(** The compressor's output consists of bytes. *)
Lemma flat_ok runs : canonical runs → bytes_ok (decode runs) → bytes_ok (flat runs).
Proof.
  induction runs as [|[x k] l IH]; intros Hc Hb; [constructor|].
  pose proof (canonical_head _ _ _ Hc). apply canonical_tail in Hc.
  rewrite decode_cons in Hb. apply Forall_app in Hb as [Hx Hb].
  replace (Z.to_nat k) with (S (Z.to_nat (k - 1))) in Hx by lia. inversion_clear Hx.
  rewrite flat_cons. constructor; [done|]. constructor; [lia_fits|auto].
Qed.

(** ** Properties *)

(** C5: compressing any byte string succeeds, decompression gives it back, and
    the compressed form never takes more than two bytes per input byte. *)
Theorem rle_roundtrip inp :
  bytes_ok inp →
  ∃ c, compress inp = Ok c ∧ decompress c = Ok inp ∧ bytes_ok c ∧ zlen c <= 2 * zlen inp.
Proof.
  intros Hb. destruct (rle_compress_spec inp) as (runs & -> & Hd & Hc).
  exists (flat runs). rewrite decompress_flat, Hd.
  pose proof (canonical_size runs Hc) as Hz. rewrite Hd in Hz.
  split_and!; try done. apply flat_ok; [done|by rewrite Hd].
Qed.

Lemma rle_roundtrip_witness :
  ∃ c, compress [5; 5; 5; 9] = Ok c ∧ decompress c = Ok [5; 5; 5; 9] ∧ c = [5; 3; 9; 1].
Proof.
  destruct (rle_roundtrip [5; 5; 5; 9]) as (c & Hc & Hd & _); [solve_Forall|].
  exists c. split; [done|]. split; [done|]. vm_compute in Hc. by injection Hc.
Defined.

(** C6: the compressor computes the greedy run-length code: maximal runs cut at
    255.  It is the only such code of its input, so the loops agree with the
    specification [canonical] on every input. *)
Theorem rle_is_canonical inp c :
  compress inp = Ok c ↔ ∃ runs, c = flat runs ∧ canonical runs ∧ decode runs = inp.
Proof.
  split.
  - intros H. destruct (rle_compress_spec inp) as (runs & HR & Hd & Hc).
    rewrite H in HR. injection HR as ->. eauto.
  - intros (runs & -> & Hc & <-). by apply compress_canonical.
Qed.

(** A compressed form of odd length, whose last run has no length byte, is
    not rejected: the decompressor reads one byte past its end. *)
Theorem rle_odd_length inp : zlen inp mod 2 = 1 → decompress inp = Fault OutOfBounds.
Proof. intros H. apply (decompress_loop_odd inp _ 0); unfold zlen in *; lia. Qed.

Lemma rle_odd_length_witness : decompress [65; 2; 66] = Fault OutOfBounds.
Proof. by apply rle_odd_length. Defined.

End rle_compressor.
