(* ===== verification/Bfp.v ===== *)
(** * Bfp: the block-floating-point compressor of the sender

    Models class [bfp_compressor] (include/d_compression/bfp.h,
    lib/d_compression/bfp.cpp): the input is cut into blocks of
    [NOF_SAMPLES_PER_PRB] samples and each member of a sample is cut to its high
    byte.  The block arithmetic is done in [unsigned] (32 bits), as in the code. *)

From S2P Require Export IqConv.

Module bfp_compressor.

Definition NOF_SAMPLES_PER_PRB : Z := 100.
Definition MAX_IQ_WIDTH : Z := 32.

(** [compress_prb_generic]: [out.push_back(v >> 8)] narrows to [uint8_t]. *)
Definition compress_prb_generic (inp : list cbf16_t) : list Z :=
  inp ≫= λ iq, [wrap 8 (real iq ≫ 8); wrap 8 (imag iq ≫ 8)].

(** One iteration of the block loop: the samples
    [[NOF_SAMPLES_PER_PRB * i, NOF_SAMPLES_PER_PRB * (i + 1))], cut at the end. *)
Definition block (inp : list cbf16_t) (i : Z) : result (list cbf16_t) :=
  let first := wrap 32 (NOF_SAMPLES_PER_PRB * i) in
  let next := wrap 32 (NOF_SAMPLES_PER_PRB * wrap 32 (i + 1)) in
  vec_range inp first (if zlen inp <=? next then zlen inp else next).

(** [nof_prbs] goes through [double] to [unsigned]: past 32 bits the conversion
    is undefined. *)
Definition compress (inp : list cbf16_t) : result (list Z) :=
  let nof_prbs := zlen inp / NOF_SAMPLES_PER_PRB + 1 in
  assume (fitsb 32 nof_prbs) SignedOverflow;;
  fold_result (λ out i,
      inter ← block inp (Z.of_nat i);
      Ok (out ++ compress_prb_generic inter))
    [] (seq 0 (Z.to_nat nof_prbs)).

(** [for (i = 0; i + 1 < in.size(); i += 2)] *)
Fixpoint decompress (inp : list Z) : list cbf16_t :=
  match inp with
  | b0 :: b1 :: rest => mk_cbf16 (wrap 16 (b0 ≪ 8)) (wrap 16 (b1 ≪ 8)) :: decompress rest
  | _ => []
  end.

(** [__builtin_clz] on a positive 32-bit value. *)
Definition clz (x : Z) : Z := 31 - Z.log2 x.

Definition determine_exponent (x data_width : Z) : Z :=
  let max_shift := wrap 32 (MAX_IQ_WIDTH - data_width) in
  let lz_without_sign :=
    if (0 <? x) && (0 <? max_shift) then wrap 32 (clz x - 16 - 1) else max_shift in
  let raw_exp := swrap 32 (Z.min max_shift lz_without_sign) in
  wrap 32 (Z.max 0 (swrap 32 (MAX_IQ_WIDTH - data_width) - raw_exp)).

(** ** Blocks cover the input exactly once *)

Lemma compress_prb_app l1 l2 :
  compress_prb_generic (l1 ++ l2) = compress_prb_generic l1 ++ compress_prb_generic l2.
Proof. apply bind_app. Qed.

Lemma block_spec inp i :
  zlen inp + 200 <= 2 ^ 32 → 0 <= i <= zlen inp / 100 →
  block inp i = Ok (take (Z.to_nat (Z.min 100 (zlen inp - 100 * i))) (drop (Z.to_nat (100 * i)) inp)).
Proof.
  intros Hn Hi. unfold block, NOF_SAMPLES_PER_PRB.
  rewrite (wrap_small 32 (i + 1)), !wrap_small by lia_fits.
  destruct (Z.leb_spec (zlen inp) (100 * (i + 1))); unfold vec_range;
    test_true; do 3 f_equal; lia.
Qed.

Lemma blocks_prefix inp (k : nat) :
  zlen inp + 200 <= 2 ^ 32 → Z.of_nat k <= zlen inp / 100 + 1 →
  fold_result (λ out i, inter ← block inp (Z.of_nat i); Ok (out ++ compress_prb_generic inter))
    [] (seq 0 k) = Ok (compress_prb_generic (take (100 * k) inp)).
Proof.
  intros Hn. induction k as [|k IH]; intros Hk; [done|].
  rewrite seq_S, fold_result_app, IH by lia. cbn [fold_result mbind result_bind].
  rewrite block_spec by lia. cbn [mbind result_bind]. rewrite <- compress_prb_app.
  do 2 f_equal.
  replace (Z.to_nat (100 * Z.of_nat (0 + k))) with (100 * k)%nat by lia.
  destruct (decide (100 * Z.of_nat (S k) <= zlen inp)).
  - replace (Z.to_nat (Z.min 100 _)) with 100%nat by lia.
    replace (100 * S k)%nat with (100 * k + 100)%nat by lia. by rewrite take_take_drop.
  - rewrite (take_ge inp (100 * S k)) by (unfold zlen in *; lia).
    rewrite (take_ge (drop _ _)) by (rewrite length_drop; unfold zlen in *; lia).
    apply take_drop.
Qed.

Lemma bfp_compress_spec inp :
  zlen inp + 200 <= 2 ^ 32 → compress inp = Ok (compress_prb_generic inp).
Proof.
  intros Hn. unfold compress, NOF_SAMPLES_PER_PRB.
  pose proof (zlen_nonneg inp).
  rewrite (proj2 (fitsb_spec 32 _)) by lia_fits. cbn [assume mbind result_bind].
  rewrite blocks_prefix by lia. rewrite take_ge; [done|]. unfold zlen in *. lia.
Qed.

(** The compressor keeps exactly the bytes [from_iq] would produce. *)
Lemma compress_prb_from_iq inp :
  compress_prb_generic inp = inp ≫= iq_conv.from_iq_sample.
Proof. done. Qed.

(** Truncation to the high byte: the low byte of each member is lost. *)
Definition high_part (s : cbf16_t) : cbf16_t :=
  mk_cbf16 (real s / 256 * 256) (imag s / 256 * 256).

Lemma decompress_prb inp :
  Forall cbf16_ok inp → decompress (compress_prb_generic inp) = high_part <$> inp.
Proof.
  induction 1 as [|[r i] l [Hr Hi] Hl IH]; [done|].
  unfold compress_prb_generic. rewrite bind_cons.
  cbn [app decompress fmap list_fmap real imag] in *. f_equal; [|exact IH].
  unfold high_part. cbn [real imag].
  rewrite !Z.shiftr_div_pow2 by lia.
  rewrite !Z.shiftl_mul_pow2 by lia. unfold wrap. unfold_fits. f_equal; lia.
Qed.

Lemma high_part_pair_up inp : bytes_ok inp →
  high_part <$> iq_conv.pair_up inp = iq_conv.pair_up inp.
Proof.
  assert (Hb : ∀ b, u8 b → iq_conv.high_byte b / 256 * 256 = iq_conv.high_byte b).
  { intros b Hb. rewrite iq_conv.high_byte_eq by done. by rewrite Z.div_mul by lia. }
  induction inp as [|x|x y l IH] using iq_conv.list_pair_ind; intros Hok;
    cbn [iq_conv.pair_up fmap list_fmap]; [done| |].
  - inversion_clear Hok as [|?? Hx _]. unfold high_part. simpl. by rewrite Hb.
  - inversion_clear Hok as [|?? Hx Hok']. inversion_clear Hok' as [|?? Hy Hok].
    unfold high_part at 1. cbn [real imag]. rewrite !Hb by done. f_equal. by apply IH.
Qed.

(** ** Properties *)

(** C12: whatever the number of samples, the blocks cover the input exactly once:
    two bytes come out per sample, and decompression returns every sample with
    the low byte of both members cleared. *)
Theorem bfp_keeps_high_bytes inp :
  Forall cbf16_ok inp → zlen inp + 200 <= 2 ^ 32 →
  ∃ c, compress inp = Ok c ∧ zlen c = 2 * zlen inp ∧ decompress c = high_part <$> inp.
Proof.
  intros Hok Hn. exists (compress_prb_generic inp). split; [by apply bfp_compress_spec|].
  split; [|by apply decompress_prb]. rewrite compress_prb_from_iq. unfold zlen.
  rewrite iq_conv.length_from_iq. lia.
Qed.

Lemma bfp_keeps_high_bytes_witness :
  ∃ c, compress (replicate 250 (mk_cbf16 0x1234 0xab00)) = Ok c ∧
    decompress c = replicate 250 (mk_cbf16 0x1200 0xab00).
Proof.
  destruct (bfp_keeps_high_bytes (replicate 250 (mk_cbf16 0x1234 0xab00))) as (c & Hc & _ & Hd).
  - apply Forall_replicate. split; done.
  - done.
  - exists c. split; [exact Hc|]. rewrite Hd. vm_compute. reflexivity.
Defined.

End bfp_compressor.
