(* ===== verification/Lz77.v ===== *)
(** * Lz77: the zlib-backed compressor

    Models class [lz77_compressor] (include/d_compression/lz77.h,
    lib/d_compression/lz77.cpp).  zlib is not part of the repository: the class
    [Zlib] lists the three entry points the code calls and [ZlibSpec] what its
    manual promises of them.  [uLong] has 8 bytes (LP64). *)

From S2P Require Export Prelude.

(** [compress(dest, &destLen, source, sourceLen)] is modelled by the return code
    and the bytes written at [dest]; [*destLen] is their number. *)
Class Zlib := {
  compressBound : Z → Z;
  zlib_compress : list Z → Z → Z * list Z;
  zlib_uncompress : list Z → Z → Z * list Z;
}.

Definition Z_OK : Z := 0.

(** What the manual promises: deflate expands by a few bytes per block at most
    (stated here with ample room), a destination of [compressBound] bytes is large
    enough, the destination is never overrun, and inflating what was deflated
    into a buffer large enough gives the source back. *)
Class ZlibSpec `{Zlib} := {
  compressBound_range n : 0 <= n < 2 ^ 32 → 0 <= compressBound n <= 2 * n + 64;
  zlib_compress_fits src cap code out :
    zlib_compress src cap = (code, out) → bytes_ok out ∧ (0 <= cap → zlen out <= cap);
  zlib_compress_ok src cap :
    bytes_ok src → compressBound (zlen src) <= cap → (zlib_compress src cap).1 = Z_OK;
  zlib_uncompress_fits src cap code out :
    zlib_uncompress src cap = (code, out) → bytes_ok out ∧ (0 <= cap → zlen out <= cap);
  zlib_uncompress_ok src cap cap' out :
    bytes_ok src → zlib_compress src cap = (Z_OK, out) → zlen src <= cap' →
    zlib_uncompress out cap' = (Z_OK, src);
}.

Module lz77_compressor.
Section lz77.
Context {zl : Zlib}.

Definition sizeof_uLong : Z := 8.

Definition compress (inp : list Z) : result (list Z) :=
  if zlen inp =? 0 then Ok [] else
  let sourceSize := zlen inp in
  let bound := compressBound sourceSize in
  out ← vec_resize [] (wrap 64 (bound + sizeof_uLong));
  let '(code, written) := zlib_compress inp bound in
  if negb (code =? Z_OK) then Ok [] else
  out ← mem_write out sizeof_uLong written;
  out ← vec_resize out (wrap 64 (zlen written + sizeof_uLong));
  mem_write out 0 (le_bytes 8 sourceSize).

(** Returns the final [in], which loses its size header, and [out]. *)
Definition decompress (inp : list Z) : result (list Z * list Z) :=
  if zlen inp <? sizeof_uLong then Ok (inp, []) else
  header ← mem_read inp 0 sizeof_uLong;
  let originalSize := le_value header in
  let inp := drop 8 inp in
  out ← vec_resize [] originalSize;
  let '(code, written) := zlib_uncompress inp originalSize in
  if negb (code =? Z_OK) then Ok (inp, []) else
  out ← mem_write out 0 written;
  out ← vec_resize out (zlen written);
  Ok (inp, out).

End lz77.

Section lemmas.
Context {zl : Zlib} {zs : ZlibSpec}.

Lemma vec_resize_nil n : 0 <= n < 2 ^ 63 → vec_resize [] n = Ok (replicate (Z.to_nat n) 0).
Proof.
  intros Hn. unfold vec_resize. test_true. rewrite take_nil. simpl. by rewrite Nat.sub_0_r.
Qed.

(** Writing into a zero-filled buffer and then cutting it to what was written. *)
Lemma write_then_resize (cap : Z) (hdr : nat) (w : list Z) :
  0 <= cap < 2 ^ 62 → zlen w <= cap → (hdr <= 8)%nat →
  (out ← mem_write (replicate (Z.to_nat (cap + Z.of_nat hdr)) 0) (Z.of_nat hdr) w;
   vec_resize out (zlen w + Z.of_nat hdr)) = Ok (replicate hdr 0 ++ w).
Proof.
  intros Hc Hw Hh. pose proof (zlen_nonneg w).
  replace (Z.to_nat (cap + Z.of_nat hdr)) with (hdr + (length w + (Z.to_nat cap - length w)))%nat
    by (unfold zlen in *; lia).
  rewrite !replicate_add.
  pose proof (mem_write_app (replicate hdr 0) (replicate (length w) 0)
                (replicate (Z.to_nat cap - length w) 0) w) as HW.
  unfold zlen in HW at 1. rewrite !length_replicate in HW. rewrite HW by done.
  cbn [mbind result_bind].
  rewrite vec_resize_take by (unfold_fits; rewrite ?zlen_app; unfold zlen in *;
    rewrite ?length_replicate; lia).
  rewrite app_assoc. rewrite take_app_length'; [done|].
  rewrite length_app, length_replicate. unfold zlen. lia.
Qed.

(** The stored form: the size as an 8-byte header, then zlib's bytes. *)
Lemma lz77_compress_spec inp :
  bytes_ok inp → 0 < zlen inp < 2 ^ 32 →
  ∃ w, compress inp = Ok (le_bytes 8 (zlen inp) ++ w) ∧ bytes_ok w ∧
       zlib_compress inp (compressBound (zlen inp)) = (Z_OK, w).
Proof.
  intros Hb Hlen. unfold compress, sizeof_uLong. test_false.
  pose proof (compressBound_range (zlen inp) ltac:(lia)) as Hr.
  assert (Hr' : compressBound (zlen inp) < 2 ^ 62) by lia_fits.
  rewrite (wrap_small 64 (compressBound _ + 8)) by lia_fits.
  rewrite vec_resize_nil by lia_fits. cbn [mbind result_bind].
  destruct (zlib_compress inp (compressBound (zlen inp))) as [code w] eqn:E.
  pose proof (zlib_compress_ok inp _ Hb (Z.le_refl _)) as Hc. rewrite E in Hc. simpl in Hc. subst code.
  destruct (zlib_compress_fits _ _ _ _ E) as [Hw Hl]. specialize (Hl ltac:(lia)).
  cbn [Z.eqb Z_OK negb]. pose proof (zlen_nonneg w).
  rewrite (wrap_small 64 (zlen w + 8)) by lia_fits.
  pose proof (write_then_resize (compressBound (zlen inp)) 8 w (conj (proj1 Hr) Hr') Hl ltac:(lia)) as HW.
  change (Z.of_nat 8) with 8 in HW. apply bind_Ok in HW as (o1 & H1 & H2).
  rewrite H1. cbn [mbind result_bind]. rewrite H2. cbn [mbind result_bind].
  exists w. split; [|done].
  apply (mem_write_app [] (replicate 8 0) w (le_bytes 8 (zlen inp))).
  by rewrite length_le_bytes.
Qed.

Lemma decompress_spec src cap w :
  bytes_ok src → zlen src < 2 ^ 32 → zlib_compress src cap = (Z_OK, w) →
  decompress (le_bytes 8 (zlen src) ++ w) = Ok (w, src).
Proof.
  intros Hb Hlen E. pose proof (zlen_nonneg src).
  unfold decompress, sizeof_uLong. set (hdr := le_bytes 8 (zlen src)).
  assert (Hh : zlen hdr = 8) by (unfold zlen, hdr; by rewrite length_le_bytes).
  rewrite zlen_app, Hh. pose proof (zlen_nonneg w). test_false.
  pose proof (mem_read_app [] hdr w) as HR. rewrite app_nil_l, Hh in HR.
  change (zlen []) with 0 in HR. rewrite HR. cbn [mbind result_bind].
  rewrite drop_app_length' by by unfold hdr; rewrite length_le_bytes.
  unfold hdr. rewrite le_value_bytes_fits by lia_fits.
  rewrite vec_resize_nil by lia_fits. cbn [mbind result_bind].
  rewrite (zlib_uncompress_ok src cap (zlen src) w Hb E) by done. cbn [Z_OK Z.eqb negb].
  pose proof (write_then_resize (zlen src) 0 src ltac:(lia) ltac:(done) ltac:(lia)) as HW.
  rewrite !Z.add_0_r in HW. apply bind_Ok in HW as (o1 & H1 & H2).
  change (Z.of_nat 0) with 0 in H1. rewrite H1. cbn [mbind result_bind]. by rewrite H2.
Qed.

Lemma decompress_compress inp :
  bytes_ok inp → zlen inp < 2 ^ 32 → (c ← compress inp; snd <$> decompress c) = Ok inp.
Proof.
  intros Hb Hlen. destruct (decide (zlen inp = 0)) as [H0|H0].
  - destruct inp; [done|]. rewrite zlen_cons in H0. pose proof (zlen_nonneg inp). lia.
  - pose proof (zlen_nonneg inp).
    destruct (lz77_compress_spec inp Hb ltac:(lia)) as (w & -> & _ & E). cbn [mbind result_bind].
    by rewrite (decompress_spec inp _ w Hb Hlen E).
Qed.

(** The compressed form is a byte string of bounded size. *)
Lemma compress_bytes inp c :
  bytes_ok inp → zlen inp < 2 ^ 32 → compress inp = Ok c →
  bytes_ok c ∧ zlen c <= 8 + Z.max 0 (compressBound (zlen inp)).
Proof.
  intros Hb Hlen Hc. destruct (decide (zlen inp = 0)) as [H0|H0].
  { unfold compress in Hc. rewrite H0 in Hc. injection Hc as <-. split; [constructor|].
    change (zlen []) with 0. lia. }
  pose proof (zlen_nonneg inp).
  destruct (lz77_compress_spec inp Hb ltac:(lia)) as (w & HE & Hw & E). rewrite HE in Hc.
  injection Hc as <-. split; [apply Forall_app; auto with machine|].
  destruct (zlib_compress_fits _ _ _ _ E) as [_ Hl].
  pose proof (compressBound_range (zlen inp) ltac:(lia)) as Hr. specialize (Hl ltac:(lia)).
  rewrite zlen_app. unfold zlen at 1. rewrite length_le_bytes. lia.
Qed.

End lemmas.
End lz77_compressor.

(** ** A concrete instance for evaluation: deflate's stored blocks, reduced to a
    marker byte followed by the data. *)
Module stored_zlib.

Definition stored_compress (src : list Z) (cap : Z) : Z * list Z :=
  if bool_decide (bytes_ok src) && (zlen src + 1 <=? cap) then (Z_OK, 1 :: src) else (-5, []).

Definition stored_uncompress (src : list Z) (cap : Z) : Z * list Z :=
  match src with
  | 1 :: rest =>
      if bool_decide (bytes_ok rest) && (zlen rest <=? cap) then (Z_OK, rest) else (-5, [])
  | _ => (-3, [])
  end.

#[export] Instance stored : Zlib := {
  compressBound n := n + 13;
  zlib_compress := stored_compress;
  zlib_uncompress := stored_uncompress;
}.

#[export] Instance stored_spec : ZlibSpec.
Proof.
  constructor; simpl.
  - intros n Hn. lia_fits.
  - intros src cap code out. unfold stored_compress. case_bool_decide; simpl.
    + case_Z; intros [= <- <-]; [|split; [constructor|done]].
      split; [constructor; [lia_fits|done]|]. rewrite zlen_cons. lia.
    + intros [= <- <-]. split; [constructor|done].
  - intros src cap Hb Hc. unfold stored_compress.
    rewrite bool_decide_eq_true_2 by done. by test_true.
  - intros src cap code out. unfold stored_uncompress.
    repeat case_match; intros [= <- <-]; try (split; [constructor|done]).
    match goal with Hb : _ && _ = true |- _ => apply andb_true_iff in Hb as [Hb Hz] end.
    match goal with Hb : bool_decide _ = true |- _ => apply bool_decide_eq_true_1 in Hb end.
    split; [done|]. lia.
  - intros src cap cap' out Hb. unfold stored_compress, stored_uncompress.
    case_match; [|done]. intros [= <-] Hc. rewrite bool_decide_eq_true_2 by done. by test_true.
Qed.

End stored_zlib.

(** ** Properties *)

(** C10: with any zlib that keeps its documented promises, decompression returns
    what was compressed (the empty input included), the header holds the
    original size, and the stored form is within [compressBound] plus header. *)
Theorem lz77_roundtrip {zl : Zlib} {zs : ZlibSpec} inp :
  bytes_ok inp → zlen inp < 2 ^ 32 →
  ∃ c, lz77_compressor.compress inp = Ok c ∧
    snd <$> lz77_compressor.decompress c = Ok inp ∧
    zlen c <= 8 + Z.max 0 (compressBound (zlen inp)) ∧
    (inp ≠ [] → take 8 c = le_bytes 8 (zlen inp)).
Proof.
  intros Hb Hl. pose proof (lz77_compressor.decompress_compress inp Hb Hl) as HR.
  apply bind_Ok in HR as (c & Hc & Hd). exists c. split; [done|]. split; [done|].
  split; [by eapply lz77_compressor.compress_bytes|]. intros Hne.
  destruct (lz77_compressor.lz77_compress_spec inp Hb) as (w & HE & _).
  { destruct inp; [done|]. rewrite zlen_cons in *. pose proof (zlen_nonneg inp). lia. }
  rewrite Hc in HE. injection HE as ->. apply take_app_length'. by rewrite length_le_bytes.
Qed.

Lemma lz77_roundtrip_witness :
  ∃ c, lz77_compressor.compress (zl := stored_zlib.stored) [9; 8; 7] = Ok c ∧
    snd <$> lz77_compressor.decompress (zl := stored_zlib.stored) c = Ok [9; 8; 7].
Proof.
  destruct (lz77_roundtrip (zs := stored_zlib.stored_spec) [9; 8; 7]) as (c & Hc & Hd & _);
    [solve_Forall|done|by exists c].
Defined.
