(* ===== verification/Channel.v ===== *)
(** * Channel: length-prefixed frames over a stream socket

    Models class [d_compression::channel] (include/d_compression/channel.h) and
    class [d_compression::zmq_channel] (lib/d_compression/zmq_channel.cpp).
    boost::asio and ZeroMQ are not part of the repository: [Socket] lists the
    blocking calls [boost::asio::write] and [boost::asio::read], [SocketSpec]
    what they promise while the connection is up (all bytes are written, exactly
    the bytes asked for are read, in order). *)

From S2P Require Export Prelude.

Class Socket (S : Type) := {
  asio_write : S → list Z → result S;
  asio_read : S → Z → result (list Z * S);
}.

Class SocketSpec (S : Type) `{Socket S} := {
  (** the bytes written by one end and not yet read by the other *)
  pending : S → list Z;
  asio_write_spec s data :
    ∃ s', asio_write s data = Ok s' ∧ pending s' = pending s ++ data;
  asio_read_spec s data rest :
    pending s = data ++ rest →
    ∃ s', asio_read s (zlen data) = Ok (data, s') ∧ pending s' = rest;
}.

Module channel.
Section channel.
Context {S : Type} {sk : Socket S}.

Definition chunk_size : Z := 1024.

(** [htonl]/[ntohl] on a little-endian host: reverse the four bytes. *)
Definition htonl (z : Z) : Z := le_value (be_bytes 4 z).
Definition ntohl (z : Z) : Z := be_value (le_bytes 4 z).

(** [while (total_sent < buffer.size())] *)
Fixpoint send_loop (fuel : nat) (socket : S) (buffer : list Z) (total_sent : Z)
    : result (Z * S) :=
  if total_sent <? zlen buffer then
    match fuel with
    | O => Fault OutOfFuel
    | Datatypes.S fuel =>
        let bytes_to_send := Z.min chunk_size (zlen buffer - total_sent) in
        data ← mem_read buffer total_sent bytes_to_send;
        socket ← asio_write socket data;
        send_loop fuel socket buffer (total_sent + bytes_to_send)
    end
  else Ok (total_sent, socket).

Definition send (socket : S) (buffer : list Z) : result (Z * S) :=
  let data_size := wrap 32 (zlen buffer) in
  let data_size_net := htonl data_size in
  socket ← asio_write socket (le_bytes 4 data_size_net);
  send_loop (Z.to_nat (zlen buffer / chunk_size + 1)) socket buffer 0.

(** [while (total_received < data_size)] *)
Fixpoint recv_loop (fuel : nat) (socket : S) (buffer : list Z) (data_size total_received : Z)
    : result (list Z * S) :=
  if total_received <? data_size then
    match fuel with
    | O => Fault OutOfFuel
    | Datatypes.S fuel =>
        let bytes_to_read := Z.min chunk_size (data_size - total_received) in
        '(data, socket) ← asio_read socket bytes_to_read;
        buffer ← mem_write buffer total_received data;
        recv_loop fuel socket buffer data_size (total_received + zlen data)
    end
  else Ok (buffer, socket).

Definition recv (socket : S) : result (list Z * S) :=
  '(data_size_net, socket) ← asio_read socket 4;
  let data_size := ntohl (le_value data_size_net) in
  recv_loop (Z.to_nat (data_size / chunk_size + 1)) socket
    (replicate (Z.to_nat data_size) 0) data_size 0.

End channel.

(** What one [send] puts on the wire. *)
Definition frame (buffer : list Z) : list Z := be_bytes 4 (zlen buffer) ++ buffer.

Lemma htonl_image z : le_bytes 4 (htonl z) = be_bytes 4 z.
Proof.
  unfold htonl. pose proof (le_bytes_value (be_bytes 4 z) (be_bytes_ok 4 z)) as H.
  by rewrite length_be_bytes in H.
Qed.

Lemma ntohl_image l : bytes_ok l → length l = 4%nat → ntohl (le_value l) = be_value l.
Proof. intros Hl Hn. unfold ntohl. rewrite <- Hn. by rewrite le_bytes_value. Qed.

Section lemmas.
Context {S : Type} {sk : Socket S} {sp : SocketSpec S}.

Lemma send_loop_spec rest : ∀ fuel socket sent,
  (zlen rest <= chunk_size * Z.of_nat fuel) →
  ∃ socket', send_loop fuel socket (sent ++ rest) (zlen sent) = Ok (zlen (sent ++ rest), socket') ∧
    pending socket' = pending socket ++ rest.
Proof.
  induction rest as [rest IH] using (well_founded_induction (well_founded_ltof _ (@length Z))).
  intros fuel socket sent Hf. pose proof (zlen_nonneg rest).
  destruct (decide (rest = [])) as [->|Hne].
  { exists socket. rewrite !app_nil_r. split; [|done].
    destruct fuel; simpl; (case_Z; [lia|done]). }
  assert (0 < zlen rest) by (destruct rest; [done|rewrite zlen_cons; pose proof (zlen_nonneg rest); lia]).
  destruct fuel as [|fuel]; [unfold chunk_size in *; lia|]. cbn [send_loop].
  rewrite zlen_app. test_true.
  replace (zlen sent + zlen rest - zlen sent) with (zlen rest) by lia.
  set (n := Z.min chunk_size (zlen rest)).
  assert (Hn : 0 < n <= zlen rest) by (unfold n, chunk_size; lia).
  rewrite <- (take_drop (Z.to_nat n) rest).
  set (a := take (Z.to_nat n) rest). set (b := drop (Z.to_nat n) rest).
  assert (Ha : zlen a = n) by (unfold zlen, a in *; rewrite length_take; lia).
  assert (Hb : zlen b = zlen rest - n) by (unfold zlen, b in *; rewrite length_drop; lia).
  pose proof (mem_read_app sent a b) as HR. rewrite Ha in HR. rewrite HR. cbn [mbind result_bind].
  destruct (asio_write_spec socket a) as (s1 & -> & Hp). cbn [mbind result_bind].
  destruct (IH b) with (fuel := fuel) (socket := s1) (sent := sent ++ a) as (s2 & HL & Hp2).
  { unfold ltof, zlen in *. lia. }
  { rewrite Hb. unfold n, chunk_size in *. lia. }
  rewrite !zlen_app, Ha, <- app_assoc in HL. exists s2. rewrite HL.
  split; [by rewrite zlen_app, Ha, Z.add_assoc|].
  by rewrite Hp2, Hp, <- app_assoc.
Qed.

(** [send] appends exactly one frame and reports the payload size. *)
Lemma send_spec socket buffer : zlen buffer < 2 ^ 32 →
  ∃ socket', send socket buffer = Ok (zlen buffer, socket') ∧
    pending socket' = pending socket ++ frame buffer.
Proof.
  intros Hlen. pose proof (zlen_nonneg buffer). unfold send.
  rewrite wrap_small by lia_fits. rewrite htonl_image.
  destruct (asio_write_spec socket (be_bytes 4 (zlen buffer))) as (s1 & -> & Hp).
  cbn [mbind result_bind].
  destruct (send_loop_spec buffer (Z.to_nat (zlen buffer / chunk_size + 1)) s1 []) as (s2 & HL & Hp2).
  { unfold chunk_size. lia. }
  exists s2. simpl in HL. change (zlen []) with 0 in HL. split; [done|].
  by rewrite Hp2, Hp, <- app_assoc.
Qed.

Lemma recv_loop_spec data : ∀ fuel socket got tail,
  (zlen data <= chunk_size * Z.of_nat fuel) → pending socket = data ++ tail →
  ∃ socket', recv_loop fuel socket (got ++ replicate (length data) 0)
      (zlen got + zlen data) (zlen got) = Ok (got ++ data, socket') ∧ pending socket' = tail.
Proof.
  induction data as [data IH] using (well_founded_induction (well_founded_ltof _ (@length Z))).
  intros fuel socket got tail Hf Hp. pose proof (zlen_nonneg data).
  destruct (decide (data = [])) as [->|Hne].
  { exists socket. simpl. rewrite !app_nil_r. split; [|done].
    change (zlen []) with 0. destruct fuel; simpl; (case_Z; [lia|done]). }
  assert (0 < zlen data) by (destruct data; [done|rewrite zlen_cons; pose proof (zlen_nonneg data); lia]).
  destruct fuel as [|fuel]; [unfold chunk_size in *; lia|]. cbn [recv_loop]. test_true.
  replace (zlen got + zlen data - zlen got) with (zlen data) by lia.
  set (n := Z.min chunk_size (zlen data)).
  assert (Hn : 0 < n <= zlen data) by (unfold n, chunk_size; lia).
  set (a := take (Z.to_nat n) data). set (b := drop (Z.to_nat n) data).
  assert (Hd : data = a ++ b) by by unfold a, b; rewrite take_drop.
  assert (Ha : zlen a = n) by (unfold zlen, a in *; rewrite length_take; lia).
  assert (Hb : zlen b = zlen data - n) by (unfold zlen, b in *; rewrite length_drop; lia).
  destruct (asio_read_spec socket a (b ++ tail)) as (s1 & HR & Hp1).
  { by rewrite Hp, Hd, <- app_assoc at 1. }
  rewrite Ha in HR. rewrite HR. cbn [mbind result_bind].
  assert (Hl : length data = (length a + length b)%nat) by by rewrite Hd, length_app at 1.
  rewrite Hl, replicate_add.
  rewrite (mem_write_app got (replicate (length a) 0) (replicate (length b) 0) a)
    by by rewrite length_replicate.
  cbn [mbind result_bind].
  destruct (IH b) with (fuel := fuel) (socket := s1) (got := got ++ a) (tail := tail) as (s2 & HL & Hp2);
    [unfold ltof, zlen in *; lia|rewrite Hb; unfold n, chunk_size in *; lia|done|].
  rewrite zlen_app, <- !app_assoc, Ha, Hb in HL. exists s2.
  replace (zlen got + n + (zlen data - n)) with (zlen got + zlen data) in HL by lia.
  rewrite Ha, HL. split; [|done]. by rewrite <- Hd.
Qed.

(** [recv] takes exactly one frame off the wire. *)
Lemma recv_spec socket buffer rest : zlen buffer < 2 ^ 32 →
  pending socket = frame buffer ++ rest →
  ∃ socket', recv socket = Ok (buffer, socket') ∧ pending socket' = rest.
Proof.
  intros Hlen Hp. pose proof (zlen_nonneg buffer). unfold recv.
  unfold frame in Hp. rewrite <- app_assoc in Hp.
  destruct (asio_read_spec _ _ _ Hp) as (s1 & HR & Hp1).
  unfold zlen in HR at 1. rewrite length_be_bytes in HR. change (Z.of_nat 4) with 4 in HR.
  rewrite HR. cbn [mbind result_bind].
  rewrite ntohl_image, be_value_bytes_fits by (auto with machine || apply length_be_bytes || lia_fits).
  destruct (recv_loop_spec buffer (Z.to_nat (zlen buffer / chunk_size + 1)) s1 [] rest)
    as (s2 & HL & Hp2); [unfold chunk_size; lia|done|].
  exists s2. split; [|done]. simpl in HL. change (zlen []) with 0 in HL.
  unfold zlen at 2. rewrite Nat2Z.id. by rewrite Z.add_0_l in HL.
Qed.

End lemmas.
End channel.

(** ** A concrete connection for evaluation: an in-memory byte queue. *)
Module fifo_socket.

#[export] Instance fifo : Socket (list Z) := {
  asio_write s data := Ok (s ++ data);
  asio_read s n :=
    if n <=? zlen s then Ok (take (Z.to_nat n) s, drop (Z.to_nat n) s) else Fault EndOfFile;
}.

#[export] Instance fifo_spec : SocketSpec (list Z).
Proof.
  refine {| pending := λ s, s |}.
  - intros s data. by eexists.
  - intros s data rest ->. exists rest. split; [|done]. simpl.
    rewrite zlen_app. pose proof (zlen_nonneg rest). test_true.
    unfold zlen. by rewrite Nat2Z.id, take_app_length, drop_app_length.
Defined.

End fifo_socket.

(** ** Properties of the framed channel *)

(** Sending a list of messages, and receiving a number of them. *)
Fixpoint send_all {S} {sk : Socket S} (s : S) (msgs : list (list Z)) : result S :=
  match msgs with
  | [] => Ok s
  | m :: msgs => '(_, s) ← channel.send s m; send_all s msgs
  end.

Fixpoint recv_all {S} {sk : Socket S} (s : S) (n : nat) : result (list (list Z) * S) :=
  match n with
  | O => Ok ([], s)
  | Datatypes.S n =>
      '(m, s) ← channel.recv s;
      '(msgs, s) ← recv_all s n;
      Ok (m :: msgs, s)
  end.

Section fifo_lemmas.
Context {S : Type} {sk : Socket S} {sp : SocketSpec S}.

Lemma send_all_spec msgs : ∀ s,
  Forall (λ m, zlen m < 2 ^ 32) msgs →
  ∃ s', send_all s msgs = Ok s' ∧ pending s' = pending s ++ mjoin (channel.frame <$> msgs).
Proof.
  induction msgs as [|m msgs IH]; intros s Hm; cbn [send_all].
  - exists s. by rewrite app_nil_r.
  - inversion_clear Hm as [|?? H1 H2]. destruct (channel.send_spec s m H1) as (s1 & -> & Hp).
    cbn [mbind result_bind]. destruct (IH s1 H2) as (s2 & -> & Hp2). exists s2. split; [done|].
    rewrite Hp2, Hp, <- app_assoc. done.
Qed.

Lemma recv_all_spec msgs : ∀ s rest,
  Forall (λ m, zlen m < 2 ^ 32) msgs → pending s = mjoin (channel.frame <$> msgs) ++ rest →
  ∃ s', recv_all s (length msgs) = Ok (msgs, s') ∧ pending s' = rest.
Proof.
  induction msgs as [|m msgs IH]; intros s rest Hm Hp; cbn [recv_all length].
  - by exists s.
  - inversion_clear Hm as [|?? H1 H2]. simpl in Hp. rewrite <- app_assoc in Hp.
    destruct (channel.recv_spec s m _ H1 Hp) as (s1 & -> & Hp1). cbn [mbind result_bind].
    destruct (IH s1 rest H2 Hp1) as (s2 & -> & Hp2). cbn [mbind result_bind]. eauto.
Qed.

End fifo_lemmas.

(** C7: messages of any sizes below 4 GiB, the empty one included, sent one after
    the other on a connection with nothing in flight are received as the same
    messages in the same order, and nothing is left over: the length prefix and
    the 1024-byte pieces of both loops agree. *)
Theorem channel_fifo {S} {sk : Socket S} {sp : SocketSpec S} s msgs :
  pending s = [] → Forall (λ m, zlen m < 2 ^ 32) msgs →
  ∃ s1 s2, send_all s msgs = Ok s1 ∧ recv_all s1 (length msgs) = Ok (msgs, s2) ∧ pending s2 = [].
Proof.
  intros Hp Hm. destruct (send_all_spec msgs s Hm) as (s1 & H1 & Hp1).
  rewrite Hp, app_nil_l in Hp1.
  destruct (recv_all_spec msgs s1 [] Hm) as (s2 & H2 & Hp2); [by rewrite app_nil_r|eauto].
Qed.

Lemma channel_fifo_witness :
  ∃ s1 s2, send_all (sk := fifo_socket.fifo) [] [[1; 2]; []; [3]] = Ok s1 ∧
    recv_all (sk := fifo_socket.fifo) s1 3 = Ok ([[1; 2]; []; [3]], s2) ∧ s2 = [].
Proof.
  destruct (channel_fifo (sp := fifo_socket.fifo_spec) ([] : list Z) [[1; 2]; []; [3]])
    as (s1 & s2 & H); [done|solve_Forall|by exists s1, s2].
Defined.

(** ** The ZeroMQ publisher/subscriber channel *)
Module zmq_channel.

(** A socket is a queue of messages; [zmq::socket_t::send] enqueues one whole
    message and [recv] dequeues one. *)
Class ZmqSocket (S : Type) := {
  zmq_send : S → list Z → result S;
  zmq_recv : S → result (list Z * S);
}.

Record state (S : Type) := mk_state { is_sender : bool; socket : S }.
Arguments mk_state {S}.
Arguments is_sender {S}.
Arguments socket {S}.

Section ops.
Context {S : Type} {zq : ZmqSocket S}.

Definition send (c : state S) (buffer : list Z) : result (Z * state S) :=
  if negb (is_sender c) then Ok (0, c) else
  s ← zmq_send (socket c) buffer;
  Ok (zlen buffer, mk_state (is_sender c) s).

Definition recv (c : state S) : result (list Z * state S) :=
  if is_sender c then Ok ([], c) else
  '(msg, s) ← zmq_recv (socket c);
  Ok (msg, mk_state (is_sender c) s).

(** The role of a channel never changes, and calls of the wrong role have no
    effect on the socket. *)
Lemma send_role c buffer n c' : send c buffer = Ok (n, c') →
  is_sender c' = is_sender c ∧ (is_sender c = false → n = 0 ∧ c' = c).
Proof. unfold send. destruct (is_sender c) eqn:E; simpl; intros; inv_result; naive_solver. Qed.

Lemma recv_role c b c' : recv c = Ok (b, c') →
  is_sender c' = is_sender c ∧ (is_sender c = true → b = [] ∧ c' = c).
Proof.
  unfold recv. destruct (is_sender c) eqn:E; simpl; intros; inv_result; [naive_solver|].
  destruct x as [m s]. inv_result. naive_solver.
Qed.

End ops.
End zmq_channel.
