(* ===== verification/Float.v ===== *)
(** * Float: IEEE 754 arithmetic of the C++ types [float] and [double]

    The standard library's executable specification of binary floating point
    ([SpecFloat], no axioms) instantiated at the two widths, with the
    conversions the code uses and the facts about comparison the components
    share. *)

From S2P Require Export Prelude.
From Stdlib Require Export SpecFloat.

Abbreviation f32_add := (SFadd 24 128).
Abbreviation f32_sub := (SFsub 24 128).
Abbreviation f32_mul := (SFmul 24 128).
Abbreviation f32_div := (SFdiv 24 128).
Abbreviation f64_add := (SFadd 53 1024).
Abbreviation f64_sub := (SFsub 53 1024).
Abbreviation f64_mul := (SFmul 53 1024).
Abbreviation f64_div := (SFdiv 53 1024).

(** Conversion of an integer, rounding to nearest even. *)
Definition f32_of_Z (z : Z) : spec_float := binary_normalize 24 128 z 0 false.
Definition f64_of_Z (z : Z) : spec_float := binary_normalize 53 1024 z 0 false.

(** Conversions between the two formats. *)
Definition f32_of_f64 (x : spec_float) : spec_float :=
  match x with S754_finite s m e => binary_round 24 128 s m e | _ => x end.
Definition f64_of_f32 (x : spec_float) : spec_float :=
  match x with S754_finite s m e => binary_round 53 1024 s m e | _ => x end.

(** A decimal literal [n / d] as the compiler reads it: a [double]. *)
Definition f64_lit (n d : Z) : spec_float := f64_div (f64_of_Z n) (f64_of_Z d).

(** [std::numeric_limits<double>::max()] *)
Definition DBL_MAX : spec_float := SFmax_float 53 1024.

(** The value represented by a bit pattern of a [float], and back. *)
Definition f32_of_bits (b : Z) : spec_float :=
  let s := Z.testbit b 31 in
  let e := (b / 2 ^ 23) mod 2 ^ 8 in
  let m := b mod 2 ^ 23 in
  if e =? 255 then (if m =? 0 then S754_infinity s else S754_nan)
  else if e =? 0 then
    match m with Zpos p => S754_finite s p (-149) | _ => S754_zero s end
  else match m + 2 ^ 23 with Zpos p => S754_finite s p (e - 150) | _ => S754_nan end.

Definition bits_of_f32 (x : spec_float) : Z :=
  let sgn (s : bool) := if s then 2 ^ 31 else 0 in
  match x with
  | S754_zero s => sgn s
  | S754_infinity s => sgn s + 255 * 2 ^ 23
  | S754_nan => 255 * 2 ^ 23 + 2 ^ 22
  | S754_finite s m e =>
      if Zpos m <? 2 ^ 23 then sgn s + Zpos m
      else sgn s + (e + 150) * 2 ^ 23 + (Zpos m - 2 ^ 23)
  end.

(** ** Comparison *)

Lemma pos_compare_cont_lt p q : Pos.compare_cont Eq p q = Lt ↔ (p < q)%positive.
Proof. done. Qed.

Lemma SFltb_finite s1 m1 e1 s2 m2 e2 :
  SFltb (S754_finite s1 m1 e1) (S754_finite s2 m2 e2) = true ↔
  (if s1 then (if s2 then (e2 < e1) ∨ (e1 = e2 ∧ (m2 < m1)%positive) else True)
   else (if s2 then False else (e1 < e2) ∨ (e1 = e2 ∧ (m1 < m2)%positive))).
Proof.
  unfold SFltb, SFcompare. destruct s1, s2; try done.
  - destruct (Z.compare_spec e1 e2) as [->|H|H].
    + fold (Pos.compare m1 m2). rewrite <- Pos.compare_antisym.
      destruct (Pos.compare_spec m2 m1); subst; split; intros; try done; try lia; auto.
    + split; [done|lia].
    + split; [by left|done].
  - destruct (Z.compare_spec e1 e2) as [->|H|H].
    + fold (Pos.compare m1 m2).
      destruct (Pos.compare_spec m1 m2); subst; split; intros; try done; try lia; auto.
    + split; [by left|done].
    + split; [done|lia].
Qed.

(** Strict comparison is transitive on all values (NaN compares with nothing). *)
Lemma SFltb_trans x y z : SFltb x y = true → SFltb y z = true → SFltb x z = true.
Proof.
  destruct x as [sx|sx| |sx mx ex], y as [sy|sy| |sy my ey], z as [sz|sz| |sz mz ez];
    try (by destruct sx, sy, sz); try (by destruct sx, sy); try (by destruct sy, sz);
    try (by destruct sx, sz); try done.
  rewrite !SFltb_finite. destruct sx, sy, sz; try done; lia.
Qed.

Lemma SFltb_irrefl x : SFltb x x = false.
Proof.
  destruct x as [[]|[]| |s m e]; try done.
  apply not_true_iff_false. rewrite SFltb_finite. destruct s; lia.
Qed.

(** Floats that compare equal are interchangeable in comparisons. *)
Lemma SFeqb_cases x y : SFeqb x y = true →
  x = y ∨ (∃ s1 s2, x = S754_zero s1 ∧ y = S754_zero s2).
Proof.
  unfold SFeqb. destruct x as [sx|sx| |sx mx ex], y as [sy|sy| |sy my ey]; simpl;
    try (by destruct sx); try (by destruct sy); try done.
  - intros _. right. eauto.
  - destruct sx, sy; try done; by left.
  - intros H. left.
    assert (sx = sy ∧ ex = ey ∧ mx = my) as (-> & -> & ->); [|done].
    destruct sx, sy; try done; destruct (Z.compare_spec ex ey); try done; subst;
      (split; [done|split; [done|]]); fold (Pos.compare mx my) in H;
      destruct (Pos.compare_spec mx my); done.
Qed.

Lemma SFeqb_ltb_l x y z : SFeqb x y = true → SFltb x z = SFltb y z.
Proof. intros [->|(s1 & s2 & -> & ->)]%SFeqb_cases; [done|]. by destruct z as [|[]| |[] ? ?]. Qed.

Lemma SFeqb_ltb_r x y z : SFeqb x y = true → SFltb z x = SFltb z y.
Proof. intros [->|(s1 & s2 & -> & ->)]%SFeqb_cases; [done|]. by destruct z as [|[]| |[] ? ?]. Qed.

Lemma SFeqb_trans x y z : SFeqb x y = true → SFeqb y z = true → SFeqb x z = true.
Proof.
  intros [->|(s1 & s2 & -> & ->)]%SFeqb_cases; [done|].
  by destruct z as [|[]| |[] ? ?].
Qed.

Lemma SFltb_not_eqb x y : SFltb x y = true → SFeqb x y = false.
Proof. unfold SFltb, SFeqb. by destruct (SFcompare x y) as [[]|]. Qed.

(** A value that is not negative: zero of either sign, positive, or NaN. *)
Definition not_negative (x : spec_float) : bool :=
  match x with S754_infinity true | S754_finite true _ _ => false | _ => true end.

Lemma binary_round_aux_sign prec emax m e l :
  not_negative (binary_round_aux prec emax false m e l) = true.
Proof. unfold binary_round_aux. repeat case_match; done. Qed.

Lemma binary_round_sign prec emax m e :
  not_negative (binary_round prec emax false m e) = true.
Proof. unfold binary_round. destruct shl_align. apply binary_round_aux_sign. Qed.

(** The shape of a rounded non-negative quantity. *)
Definition positive_shape (x : spec_float) : bool :=
  match x with
  | S754_zero false | S754_infinity false | S754_finite false _ _ | S754_nan => true
  | _ => false
  end.

Lemma binary_round_aux_shape prec emax m e l :
  positive_shape (binary_round_aux prec emax false m e l) = true.
Proof. unfold binary_round_aux. repeat case_match; done. Qed.

Lemma f64_of_Z_shape z : 0 <= z → positive_shape (f64_of_Z z) = true.
Proof.
  intros Hz. unfold f64_of_Z, binary_normalize. destruct z; [done| |lia].
  unfold binary_round. destruct shl_align. apply binary_round_aux_shape.
Qed.

Lemma f64_div_shape x y :
  positive_shape x = true → positive_shape y = true → positive_shape (f64_div x y) = true.
Proof.
  destruct x as [[]|[]| |[] mx ex], y as [[]|[]| |[] my ey]; try done.
  intros _ _. unfold SFdiv. destruct SFdiv_core_binary as [[mz ez] lz].
  apply binary_round_aux_shape.
Qed.

(** Nothing of that shape is below a strictly negative number. *)
Lemma positive_not_below x m e :
  positive_shape x = true → SFleb x (S754_finite true m e) = false.
Proof. destruct x as [[]|[]| |[] ? ?]; done. Qed.
