(* ===== verification/Rounding.v ===== *)
(** * Rounding: error bounds for floating-point division

    The standard library's specification of binary floating point comes without lemmas.  This
    file bounds the error of the quotient of two normalised numbers and shows that integers
    within the precision are converted exactly. *)

From S2P Require Import Prelude Float.

(** ** Digits *)

Lemma digits2_bounds p : 2 ^ (Zpos (digits2_pos p) - 1) <= Zpos p < 2 ^ Zpos (digits2_pos p).
Proof.
  induction p as [p IH|p IH|]; cbn [digits2_pos]; [| |done]; rewrite Pos2Z.inj_succ; set (d := Zpos (digits2_pos p)) in *; assert (0 < d) by done;
    replace (Z.succ d - 1) with (Z.succ (d - 1)) by lia; rewrite !Z.pow_succ_r by lia; lia.
Qed.

Lemma digits2_unique p d : 0 < d → 2 ^ (d - 1) <= Zpos p < 2 ^ d → Zpos (digits2_pos p) = d.
Proof.
  intros Hd [H1 H2]. pose proof (digits2_bounds p) as [B1 B2]. set (k := Zpos (digits2_pos p)) in *. assert (0 < k) by done.
  destruct (Z.lt_trichotomy k d) as [Hl|[He|Hl]]; [|done|]; exfalso.
  - assert (2 ^ k <= 2 ^ (d - 1)) by (apply Z.pow_le_mono_r; lia). lia.
  - assert (2 ^ d <= 2 ^ (k - 1)) by (apply Z.pow_le_mono_r; lia). lia.
Qed.

Lemma iter_xO p d : Zpos (Pos.iter xO p d) = Zpos p * 2 ^ Zpos d.
Proof.
  induction d as [|d IH] using Pos.peano_ind; [by rewrite Z.mul_comm|]. rewrite Pos.iter_succ, Pos2Z.inj_succ, Z.pow_succ_r by lia.
  assert (E : ∀ x, Zpos (xO x) = 2 * Zpos x) by done. rewrite E, IH. lia.
Qed.

(** ** Rounding a quotient *)
Section rounding.
Context (prec emax : Z) (Hprec : 1 < prec).
Abbreviation least := (emin prec emax).

Lemma fexp_normal e : least <= e - prec → fexp prec emax e = e - prec.
Proof. intros H. unfold fexp. lia. Qed.

Lemma shr_record_m m l : shr_m (shr_record_of_loc m l) = m.
Proof. by destruct l as [|[]]. Qed.

Lemma shr_1_m r : 0 <= shr_m r → shr_m (shr_1 r) = shr_m r / 2.
Proof. destruct r as [m b s]. cbn [shr_m]. intros Hm. destruct m as [|[p|p|]|p]; cbn; lia. Qed.

Lemma round_near m l : m <= round_nearest_even m l <= m + 1.
Proof. destruct l as [|[]]; cbn; try lia. destruct (Z.even m); lia. Qed.

(** A mantissa of [prec] bits stays, one of one more is halved. *)
Lemma shr_fexp_same m e l : Zdigits2 m = prec → least <= e → shr_fexp prec emax m e l = (shr_record_of_loc m l, e).
Proof. intros Hd He. unfold shr_fexp. rewrite Hd, fexp_normal by lia. by replace (prec + e - prec - e) with 0 by lia. Qed.
Lemma shr_fexp_one m e l : Zdigits2 m = prec + 1 → least <= e → shr_fexp prec emax m e l = (shr_1 (shr_record_of_loc m l), e + 1).
Proof. intros Hd He. unfold shr_fexp. rewrite Hd, fexp_normal by lia. by replace (prec + 1 + e - prec - e) with 1 by lia. Qed.

Definition sized (m : Z) : Prop := 2 ^ (prec - 1) <= m < 2 ^ prec.

Lemma sized_digits m : sized m → Zdigits2 m = prec.
Proof. intros Hm. assert (0 < 2 ^ (prec - 1)) by (apply Z.pow_pos_nonneg; lia). destruct m as [|p|p]; unfold sized in Hm; try lia. apply digits2_unique; [lia|done]. Qed.

Lemma sized_digits_succ m : 2 ^ prec <= m < 2 * 2 ^ prec → Zdigits2 m = prec + 1.
Proof.
  intros Hm. assert (0 < 2 ^ prec) by (apply Z.pow_pos_nonneg; lia). destruct m as [|p|p]; try lia. apply digits2_unique; [lia|]. rewrite Z.add_simpl_r, Z.pow_add_r by lia. lia.
Qed.

(** The second normalisation is exact. *)
Lemma renormalise sx m e : 2 ^ (prec - 1) <= m <= 2 ^ prec → least <= e → e + 1 <= emax - prec →
  ∃ m' k, match shr_fexp prec emax m e loc_Exact with
          | (r, e'') => match shr_m r with Z0 => S754_zero sx | Zpos p => if e'' <=? emax - prec then S754_finite sx p e'' else S754_infinity sx | _ => S754_nan end
          end = S754_finite sx m' (e + k) ∧ 0 <= k <= 1 ∧ Zpos m' * 2 ^ k = m ∧ sized (Zpos m').
Proof.
  intros [H1 H2] He Hm. assert (H0 : 0 < 2 ^ (prec - 1)) by (apply Z.pow_pos_nonneg; lia). assert (H3 : 2 ^ prec = 2 * 2 ^ (prec - 1)) by (rewrite <- Z.pow_succ_r by lia; f_equal; lia).
  destruct (decide (m = 2 ^ prec)) as [->|Hne].
  - rewrite shr_fexp_one by (done || (apply sized_digits_succ; lia)). rewrite shr_1_m; rewrite shr_record_m; [|lia]. replace (2 ^ prec / 2) with (2 ^ (prec - 1)) by lia.
    destruct (2 ^ (prec - 1)) as [|p|p] eqn:Hp; try lia. rewrite (proj2 (Z.leb_le _ _)) by lia. exists p, 1. split; [done|]. unfold sized. lia.
  - rewrite shr_fexp_same by (done || (apply sized_digits; split; lia)). rewrite shr_record_m. destruct m as [|p|p]; try lia. rewrite (proj2 (Z.leb_le _ _)) by lia. exists p, 0. rewrite Z.add_0_r. split; [done|]. unfold sized. lia.
Qed.

(** What is rounded is within two units. *)
Lemma round_aux_near sx m e l : 2 ^ (prec - 1) <= m < 2 * 2 ^ prec → least <= e → e + 2 <= emax - prec →
  ∃ m' k, binary_round_aux prec emax sx m e l = S754_finite sx m' (e + k) ∧ 0 <= k <= 2 ∧ m - 1 <= Zpos m' * 2 ^ k <= m + 2 ∧ sized (Zpos m').
Proof.
  intros [H1 H2] He Hm. assert (H0 : 0 < 2 ^ (prec - 1)) by (apply Z.pow_pos_nonneg; lia). assert (H3 : 2 ^ prec = 2 * 2 ^ (prec - 1)) by (rewrite <- Z.pow_succ_r by lia; f_equal; lia).
  unfold binary_round_aux. destruct (Z.le_gt_cases (2 ^ prec) m) as [Hl|Hl].
  - rewrite shr_fexp_one by (done || (apply sized_digits_succ; lia)). set (r := shr_1 _). assert (Hr : shr_m r = m / 2) by (unfold r; rewrite shr_1_m; rewrite shr_record_m; (done || lia)).
    pose proof (round_near (shr_m r) (loc_of_shr_record r)) as Hn. destruct (renormalise sx (round_nearest_even (shr_m r) (loc_of_shr_record r)) (e + 1)) as (m' & k & -> & Hk & Hv & Hs); [lia|lia|lia|].
    exists m', (1 + k). rewrite Z.add_assoc. split; [done|]. split; [lia|]. split; [|done]. rewrite Z.pow_add_r by lia. change (2 ^ 1) with 2. lia.
  - rewrite shr_fexp_same by (done || (apply sized_digits; split; lia)). pose proof (round_near (shr_m (shr_record_of_loc m l)) (loc_of_shr_record (shr_record_of_loc m l))) as Hn. rewrite shr_record_m in *.
    destruct (renormalise sx (round_nearest_even m (loc_of_shr_record (shr_record_of_loc m l))) e) as (m' & k & -> & Hk & Hv & Hs); [lia|lia|lia|]. exists m', k. split; [done|]. split; [lia|]. split; [lia|done].
Qed.

(** Nothing is lost when nothing is cut off. *)
Lemma round_aux_exact sx p e : sized (Zpos p) → least <= e → e <= emax - prec → binary_round_aux prec emax sx (Zpos p) e loc_Exact = S754_finite sx p e.
Proof.
  intros Hp He Hm. unfold binary_round_aux. rewrite (shr_fexp_same (Zpos p)) by (done || by apply sized_digits). cbn [shr_record_of_loc shr_m loc_of_shr_record round_nearest_even].
  rewrite (shr_fexp_same (Zpos p)) by (done || by apply sized_digits). cbn [shr_record_of_loc shr_m]. by rewrite (proj2 (Z.leb_le _ _)).
Qed.

(** The quotient of normalised numbers, in units of its last place but two. *)
Lemma div_near m1 e1 m2 e2 : sized (Zpos m1) → sized (Zpos m2) → least <= e1 - e2 - prec → e1 - e2 + 2 <= emax →
  ∃ m k, SFdiv prec emax (S754_finite false m1 e1) (S754_finite false m2 e2) = S754_finite false m (e1 - e2 - prec + k) ∧ 0 <= k <= 2 ∧ sized (Zpos m) ∧
    - (2 * Zpos m2) <= Zpos m * 2 ^ k * Zpos m2 - Zpos m1 * 2 ^ prec <= 2 * Zpos m2.
Proof.
  intros H1 H2 He Hm. unfold SFdiv, SFdiv_core_binary. rewrite (sized_digits _ H1), (sized_digits _ H2).
  replace (prec + e1 - (prec + e2)) with (e1 - e2) by lia. rewrite fexp_normal by lia. rewrite Z.min_l by lia. replace (e1 - e2 - (e1 - e2 - prec)) with prec by lia.
  assert (HM : match prec with Zpos _ => Z.shiftl (Zpos m1) prec | Z0 => Zpos m1 | Zneg _ => 0 end = Zpos m1 * 2 ^ prec) by (destruct prec; try lia; apply Z.shiftl_mul_pow2; lia). rewrite HM. clear HM.
  pose proof (Z_div_mod (Zpos m1 * 2 ^ prec) (Zpos m2) ltac:(lia)) as HD. destruct (Z.div_eucl _ _) as [q r]. destruct HD as [HD Hr]. cbn [xorb].
  assert (H0 : 0 < 2 ^ (prec - 1)) by (apply Z.pow_pos_nonneg; lia). assert (H3 : 2 ^ prec = 2 * 2 ^ (prec - 1)) by (rewrite <- Z.pow_succ_r by lia; f_equal; lia). unfold sized in H1, H2.
  destruct (round_aux_near false q (e1 - e2 - prec) (new_location (Zpos m2) r)) as (m & k & -> & Hk & Hv & Hs); [nia|lia|lia|]. exists m, k. split; [done|]. split; [done|]. split; [done|]. nia.
Qed.

(** Integers within the precision are exact. *)
Lemma normalize_exact p : Zpos p < 2 ^ prec → least <= - prec → 0 <= emax - prec →
  ∃ m e, binary_normalize prec emax (Zpos p) 0 false = S754_finite false m (- e) ∧ 0 <= e < prec ∧ sized (Zpos m) ∧ Zpos m = Zpos p * 2 ^ e ∧ e = prec - Zpos (digits2_pos p).
Proof.
  intros Hp Hmin Hmax. cbn [binary_normalize]. unfold binary_round. pose proof (digits2_bounds p) as [B1 B2]. set (k := Zpos (digits2_pos p)) in *. assert (Hk0 : 0 < k) by done.
  assert (Hk : k <= prec) by (destruct (Z.le_gt_cases k prec); [done|]; assert (2 ^ prec <= 2 ^ (k - 1)) by (apply Z.pow_le_mono_r; lia); lia).
  rewrite Z.add_0_r, fexp_normal by lia. unfold shl_align. rewrite Z.sub_0_r.
  assert (HS : ∀ m, Zpos m = Zpos p * 2 ^ (prec - k) → sized (Zpos m)).
  { intros m ->. unfold sized. assert (E1 : 2 ^ (prec - 1) = 2 ^ (k - 1) * 2 ^ (prec - k)) by (rewrite <- Z.pow_add_r by lia; f_equal; lia).
    assert (E2 : 2 ^ prec = 2 ^ k * 2 ^ (prec - k)) by (rewrite <- Z.pow_add_r by lia; f_equal; lia). assert (0 < 2 ^ (prec - k)) by (apply Z.pow_pos_nonneg; lia). rewrite E1, E2. nia. }
  destruct (k - prec) as [|d|d] eqn:Hd; [|lia|].
  - assert (k = prec) as -> by lia. assert (Hm : Zpos p = Zpos p * 2 ^ (prec - prec)) by (rewrite Z.sub_diag; lia). rewrite round_aux_exact by (done || by apply HS || lia).
    exists p, 0. split; [done|]. split; [lia|]. split; [by apply HS|]. lia.
  - assert (Hm : Zpos (Pos.iter xO p d) = Zpos p * 2 ^ (prec - k)) by (rewrite iter_xO; do 2 f_equal; lia). rewrite round_aux_exact by (done || by apply HS || lia).
    exists (Pos.iter xO p d), (prec - k). split; [f_equal; lia|]. split; [lia|]. split; [by apply HS|]. done.
Qed.
End rounding.
