(* ===== verification/StateMachine.v ===== *)
(** * StateMachine: the epsilon-greedy selector

    Models class [iq_state_machine] (include/d_compression/iq_state_machine.h,
    lib/d_compression/iq_state_machine.cpp).  The two values [rand()] returns
    are arguments of the operations that draw them; the iteration order of the
    [std::unordered_map], which the standard leaves open, is a parameter. *)

From S2P Require Export IqConv Float.

#[export] Instance compression_options_countable : Countable compression_options.
Proof.
  refine (inj_countable' (λ o, Z.to_nat (option_value o))
    (λ n, default NONE (option_of_value (Z.of_nat n))) _).
  by intros [].
Defined.

Module iq_state_machine.

Definition RAND_MAX : Z := 2147483647.

(** One line of the training log. *)
Record csv_row := mk_row {
  row_episode : Z;
  row_reward : Z;
  row_state : Z;
  row_epsilon : spec_float;
}.

Record state := mk_state {
  current_state : compression_options;
  interval : Z;
  old_duration : Z;
  epsilon : spec_float;
  memory : list (compression_options * Z);
  csv_file : list csv_row;
  episode : Z;
}.

Definition valid_actions : list compression_options := [NONE; BFP; RLE; LZ77].
Definition max_recall : Z := 200.

(** [float epsilon = 0.99; float epsilon_decay = 0.001;] *)
Definition epsilon_init : spec_float := f32_of_f64 (f64_lit 99 100).
Definition epsilon_decay : spec_float := f32_of_f64 (f64_lit 1 1000).

Definition init (interval_ : Z) : state :=
  mk_state NONE interval_ 0 epsilon_init [] [] 0.

Abbreviation durations := (gmap compression_options Z).

(** [m[option] += d] on a map whose [operator[]] creates zeros. *)
Definition bump (w : Z) (m : durations) (o : compression_options) (d : Z) : result durations :=
  v ← sadd w (default 0 (m !! o)) d;
  Ok (<[o := v]> m).

(** The recall loop, from the newest entry backwards. *)
Fixpoint recall (newest_first : list (compression_options * Z)) (memory_count : Z)
    (total_durations counts : durations) : result (durations * durations) :=
  match newest_first with
  | [] => Ok (total_durations, counts)
  | (opt, duration) :: rest =>
      if memory_count <? max_recall then
        total_durations ← bump 64 total_durations opt duration;
        counts ← bump 32 counts opt 1;
        recall rest (memory_count + 1) total_durations counts
      else Ok (total_durations, counts)
  end.

(** [static_cast<double>(total_duration) / counts[option]] *)
Definition average (counts : durations) (opt : compression_options) (total : Z) : spec_float :=
  f64_div (f64_of_Z total) (f64_of_Z (default 0 (counts !! opt))).

(** One pass of the selection loop. *)
Definition keep_better (counts : durations) (acc : compression_options * spec_float)
    (item : compression_options * Z) : compression_options * spec_float :=
  let average_duration := average counts item.1 item.2 in
  if SFltb average_duration acc.2 then (item.1, average_duration) else acc.

Section ops.
Context (hash_order : durations → list (compression_options * Z)).

Definition greedy (total_durations counts : durations) : compression_options * spec_float :=
  foldl (keep_better counts) (NONE, DBL_MAX) (hash_order total_durations).

(** [static_cast<double>(rand()) / RAND_MAX] *)
Definition uniform (rand : Z) : spec_float := f64_div (f64_of_Z rand) (f64_of_Z RAND_MAX).

(** [r <= epsilon]: the float is promoted to double. *)
Definition explore (st : state) (rand1 : Z) : bool :=
  SFleb (uniform rand1) (f64_of_f32 (epsilon st)).

Definition select_state (st : state) (compression transmission rand1 rand2 : Z)
    : result (compression_options * state) :=
  '(total_durations, counts) ← recall (reverse (memory st)) 0 ∅ ∅;
  let best_option := (greedy total_durations counts).1 in
  '(best_option, epsilon') ←
    (if explore st rand1 then
       o ← vec_at valid_actions (rand2 mod zlen valid_actions);
       Ok (o, f32_sub (epsilon st) epsilon_decay)
     else Ok (best_option, epsilon st));
  duration ← sadd 64 compression transmission;
  csv ← (if episode st mod 100 =? 0 then
           reward ← sadd 64 duration (- old_duration st);
           Ok (csv_file st ++ [mk_row (episode st) reward (option_value (current_state st))
                                 (f32_mul epsilon' (f32_of_Z 1000))])
         else Ok (csv_file st));
  episode' ← sadd 32 (episode st) 1;
  Ok (best_option,
      mk_state (current_state st) (interval st) duration epsilon' (memory st) csv episode').

Definition update (st : state) (frame_index current_compression current_transmission rand1 rand2 : Z)
    : result state :=
  if interval st =? 0 then Fault DivByZero else
  if negb (Z.rem frame_index (interval st) =? 0) then Ok st else
  duration ← sadd 64 current_compression current_transmission;
  let st := mk_state (current_state st) (interval st) (old_duration st) (epsilon st)
              (memory st ++ [(current_state st, duration)]) (csv_file st) (episode st) in
  '(next, st) ← select_state st current_compression current_transmission rand1 rand2;
  Ok (mk_state next (interval st) (old_duration st) (epsilon st)
        (memory st) (csv_file st) (episode st)).

Definition get_current_state (st : state) : compression_options := current_state st.

End ops.

(** ** Recall: totals and counts over the newest 200 measurements *)

Definition sum_of (o : compression_options) (l : list (compression_options * Z)) : Z :=
  foldr (λ e acc, (if decide (e.1 = o) then e.2 else 0) + acc) 0 l.
Definition count_of (o : compression_options) (l : list (compression_options * Z)) : Z :=
  foldr (λ e acc, (if decide (e.1 = o) then 1 else 0) + acc) 0 l.

Definition duration_ok (d : Z) : Prop := 0 <= d <= 2 ^ 55.

(** [m'] is [m] after adding [f] at each option occurring in [l]. *)
Definition accumulated (m m' : durations) (f : compression_options → Z)
    (l : list (compression_options * Z)) : Prop :=
  ∀ o, default 0 (m' !! o) = default 0 (m !! o) + f o ∧
       (is_Some (m' !! o) ↔ is_Some (m !! o) ∨ o ∈ l.*1).

Lemma bump_spec w m o d :
  sfits w (default 0 (m !! o) + d) → bump w m o d = Ok (<[o := default 0 (m !! o) + d]> m).
Proof. intros H. unfold bump. by rewrite sadd_Ok. Qed.

Lemma accumulated_cons m m' o d f l :
  accumulated (<[o := default 0 (m !! o) + d]> m) m' f l →
  accumulated m m' (λ o', (if decide (o = o') then d else 0) + f o') ((o, d) :: l).
Proof.
  intros H o'. destruct (H o') as [H1 H2]. split.
  - rewrite H1. rewrite lookup_insert. case_decide; subst; simpl; lia.
  - rewrite H2, fmap_cons, elem_of_cons, lookup_insert. simpl.
    case_decide; subst; [naive_solver|naive_solver].
Qed.

Lemma accumulated_label m m' f l l' :
  l.*1 = l'.*1 → accumulated m m' f l → accumulated m m' f l'.
Proof. intros Hl H o. destruct (H o). by rewrite <- Hl. Qed.

Lemma recall_acc l : ∀ n T C,
  0 <= n <= max_recall → Forall (λ e, duration_ok e.2) l →
  (∀ o, 0 <= default 0 (T !! o) <= n * 2 ^ 55) → (∀ o, 0 <= default 0 (C !! o) <= n) →
  ∃ T' C', recall l n T C = Ok (T', C') ∧
    let recent := take (Z.to_nat (max_recall - n)) l in
    accumulated T T' (λ o, sum_of o recent) recent ∧
    accumulated C C' (λ o, count_of o recent) recent.
Proof.
  induction l as [|[o d] l IH]; intros n T C Hn Hl HT HC; cbn [recall].
  - exists T, C. split; [done|]. rewrite take_nil.
    split; intros o; simpl; (split; [lia|]); set_solver.
  - unfold max_recall in *. case_Z.
    + inversion_clear Hl as [|?? Hd Hl']. unfold duration_ok in Hd. simpl in Hd.
      pose proof (HT o) as HTo. pose proof (HC o) as HCo.
      rewrite bump_spec by (unfold_fits; lia). cbn [mbind result_bind].
      rewrite bump_spec by (unfold_fits; lia). cbn [mbind result_bind].
      destruct (IH (n + 1) (<[o := default 0 (T !! o) + d]> T) (<[o := default 0 (C !! o) + 1]> C))
        as (T' & C' & -> & HT' & HC'); [lia|done| | |].
      { intros o'. rewrite lookup_insert. case_decide; subst; simpl; [lia|]. specialize (HT o'). lia. }
      { intros o'. rewrite lookup_insert. case_decide; subst; simpl; [lia|]. specialize (HC o'). lia. }
      exists T', C'. split; [done|].
      replace (Z.to_nat (200 - n)) with (S (Z.to_nat (200 - (n + 1)))) by lia.
      cbn [take]. split.
      * by apply accumulated_cons.
      * by eapply (accumulated_label _ _ _ ((o, 1) :: _)), accumulated_cons.
    + exists T, C. split; [done|]. replace (Z.to_nat (200 - n)) with 0%nat by lia.
      split; intros o'; simpl; (split; [lia|]); set_solver.
Qed.

(** The newest [max_recall] measurements. *)
Definition recent (mem : list (compression_options * Z)) : list (compression_options * Z) :=
  take 200 (reverse mem).

Lemma recall_spec mem : Forall (λ e, duration_ok e.2) mem →
  ∃ T C, recall (reverse mem) 0 ∅ ∅ = Ok (T, C) ∧
    accumulated ∅ T (λ o, sum_of o (recent mem)) (recent mem) ∧
    accumulated ∅ C (λ o, count_of o (recent mem)) (recent mem).
Proof.
  intros Hm. apply (recall_acc (reverse mem) 0 ∅ ∅); [done|by apply Forall_reverse| |];
    intros o; rewrite lookup_empty; simpl; lia.
Qed.

(** The average the code computes for an option, from the measurements alone. *)
Definition measured_average (mem : list (compression_options * Z)) (o : compression_options)
    : spec_float :=
  f64_div (f64_of_Z (sum_of o (recent mem))) (f64_of_Z (count_of o (recent mem))).

(** ** Greedy choice: no recalled option has a smaller average *)

Lemma keep_better_fold counts l : ∀ acc,
  let r := foldl (keep_better counts) acc l in
  (∀ i, i ∈ l → SFltb (average counts i.1 i.2) r.2 = false) ∧
  (SFltb acc.2 r.2 = false) ∧
  (r = acc ∨ ∃ i, i ∈ l ∧ r = (i.1, average counts i.1 i.2) ∧ SFltb r.2 acc.2 = true).
Proof.
  induction l as [|i l IH]; intros acc; simpl.
  - split; [set_solver|]. split; [apply SFltb_irrefl|by left].
  - assert (Hk : keep_better counts acc i =
      if SFltb (average counts i.1 i.2) acc.2 then (i.1, average counts i.1 i.2) else acc) by done.
    destruct (IH (keep_better counts acc i)) as (H1 & H2 & H3).
    set (r := foldl (keep_better counts) (keep_better counts acc i) l) in *.
    clearbody r. rewrite Hk in H2, H3. clear Hk IH.
    destruct (SFltb (average counts i.1 i.2) acc.2) eqn:E; simpl in H2, H3.
    + split; [|split].
      * intros j [->|Hj]%elem_of_cons; [done|by apply H1].
      * apply not_true_iff_false. intros Ha. apply not_true_iff_false in H2.
        apply H2. by eapply SFltb_trans.
      * right. destruct H3 as [->|(j & Hj & Hr & Hlt')].
        -- exists i. split; [set_solver|done].
        -- exists j. split; [set_solver|]. split; [done|]. by eapply SFltb_trans.
    + split; [|split; [done|]].
      * intros j [->|Hj]%elem_of_cons; [|by apply H1].
        apply not_true_iff_false. intros Ha. destruct H3 as [->|(k & Hk & Hr & Hlt')].
        -- congruence.
        -- apply not_true_iff_false in E. apply E. by eapply SFltb_trans.
      * destruct H3 as [->|(j & Hj & Hr & Hlt')]; [by left|right].
        exists j. split; [set_solver|done].
Qed.

Section greedy_lemmas.
Context (hash_order : durations → list (compression_options * Z)).
Context (hash_order_perm : ∀ m, hash_order m ≡ₚ map_to_list m).

Lemma greedy_spec T C :
  let best := greedy hash_order T C in
  (∀ o d, T !! o = Some d → SFltb (average C o d) best.2 = false) ∧
  (best = (NONE, DBL_MAX) ∨
   ∃ d, T !! best.1 = Some d ∧ best.2 = average C best.1 d ∧ SFltb best.2 DBL_MAX = true).
Proof.
  unfold greedy. destruct (keep_better_fold C (hash_order T) (NONE, DBL_MAX)) as (H1 & _ & H3).
  assert (Hin : ∀ o d, (o, d) ∈ hash_order T ↔ T !! o = Some d).
  { intros o d. rewrite (hash_order_perm T). apply elem_of_map_to_list. }
  split.
  - intros o d Ho. apply (H1 (o, d)). by apply Hin.
  - destruct H3 as [->|([o d] & Hi & -> & Hlt)]; [by left|right].
    exists d. simpl in *. split; [by apply Hin|done].
Qed.

(** Expressed on the measurements: the option chosen was measured among the
    newest 200, and no other measured option has a smaller average.  The
    alternative is that no average is below [DBL_MAX]. *)
Lemma greedy_measured mem T C :
  recall (reverse mem) 0 ∅ ∅ = Ok (T, C) → Forall (λ e, duration_ok e.2) mem →
  let best := (greedy hash_order T C).1 in
  (best ∈ (recent mem).*1 ∧
   ∀ o, o ∈ (recent mem).*1 → SFltb (measured_average mem o) (measured_average mem best) = false) ∨
  (∀ o, o ∈ (recent mem).*1 → SFltb (measured_average mem o) DBL_MAX = false).
Proof.
  intros HR Hm. destruct (recall_spec mem Hm) as (T' & C' & HR' & HT & HC).
  rewrite HR in HR'. injection HR' as <- <-.
  assert (Havg : ∀ o d, T !! o = Some d → average C o d = measured_average mem o).
  { intros o d Ho. unfold average, measured_average. destruct (HT o) as [H1 _], (HC o) as [H2 _].
    rewrite Ho, lookup_empty in H1. simpl in H1. rewrite lookup_empty in H2. simpl in H2.
    by rewrite H1, H2. }
  assert (Hdom : ∀ o, is_Some (T !! o) ↔ o ∈ (recent mem).*1).
  { intros o. destruct (HT o) as [_ ->]. rewrite lookup_empty.
    split; [intros [[? [=]]|]; done|by right]. }
  destruct (greedy_spec T C) as [H1 [HN|(d & Hd & Hb & Hlt)]].
  - right. intros o [d Hd]%Hdom. rewrite <- (Havg o d Hd). rewrite HN in H1. by eapply H1.
  - left. rewrite Hb, (Havg _ _ Hd) in H1. split; [apply Hdom; eauto|].
    intros o [d' Hd']%Hdom. rewrite <- (Havg o d' Hd'). by eapply H1.
Qed.

End greedy_lemmas.

(** ** Runs: a sequence of updates, with the number of random selections *)

Record input := mk_input {
  in_frame : Z; in_compression : Z; in_transmission : Z; in_rand1 : Z; in_rand2 : Z }.

Definition rand_ok (i : input) : Prop :=
  0 <= in_rand1 i <= RAND_MAX ∧ 0 <= in_rand2 i <= RAND_MAX.

Section runs.
Context (hash_order : durations → list (compression_options * Z)).

Definition update_on (st : state) (i : input) : result state :=
  update hash_order st (in_frame i) (in_compression i) (in_transmission i) (in_rand1 i) (in_rand2 i).

(** Whether the update on [i] selects at random. *)
Definition explores (st : state) (i : input) : bool :=
  (Z.rem (in_frame i) (interval st) =? 0) && explore st (in_rand1 i).

Fixpoint run (st : state) (l : list input) (explored : nat) : result (state * nat) :=
  match l with
  | [] => Ok (st, explored)
  | i :: l =>
      st' ← update_on st i;
      run st' l (if explores st i then S explored else explored)
  end.

(** What a selection that returns did. *)
Lemma select_effect st c t r1 r2 o st' :
  select_state hash_order st c t r1 r2 = Ok (o, st') →
  interval st' = interval st ∧ memory st' = memory st ∧
  old_duration st' = c + t ∧ episode st' = episode st + 1 ∧
  epsilon st' = (if explore st r1 then f32_sub (epsilon st) epsilon_decay else epsilon st) ∧
  zlen (csv_file st') = zlen (csv_file st) + (if episode st mod 100 =? 0 then 1 else 0).
Proof.
  unfold select_state. intros H.
  apply bind_Ok in H as ([T C] & _ & H). apply bind_Ok in H as ([b e] & He & H).
  apply bind_Ok in H as (d & [-> _]%sadd_inv & H). apply bind_Ok in H as (csv & Hc & H).
  apply bind_Ok in H as (ep & [-> _]%sadd_inv & H). injection H as <- <-.
  cbn [interval memory old_duration episode epsilon csv_file].
  do 4 (split; [done|]). split.
  - destruct (explore st r1); inv_result; done.
  - case_match; inv_result; rewrite ?zlen_app; change (zlen [_]) with 1; lia.
Qed.

(** What one update that returns did. *)
Lemma update_effect st i st' :
  update_on st i = Ok st' →
  interval st' = interval st ∧
  epsilon st' = (if explores st i then f32_sub (epsilon st) epsilon_decay else epsilon st) ∧
  (Z.rem (in_frame i) (interval st) ≠ 0 → st' = st) ∧
  (Z.rem (in_frame i) (interval st) = 0 →
    memory st' = memory st ++ [(current_state st, in_compression i + in_transmission i)] ∧
    old_duration st' = in_compression i + in_transmission i ∧
    episode st' = episode st + 1 ∧
    zlen (csv_file st') = zlen (csv_file st) + (if episode st mod 100 =? 0 then 1 else 0)).
Proof.
  unfold update_on, update, explores.
  destruct (interval st =? 0); [done|].
  destruct (Z.eqb_spec (Z.rem (in_frame i) (interval st)) 0) as [Hz|Hz]; cbn [negb andb].
  2: { intros [= <-]. done. }
  intros H. apply bind_Ok in H as (d & [-> _]%sadd_inv & H).
  apply bind_Ok in H as ([next st2] & H2 & H). injection H as <-.
  apply select_effect in H2 as (H1 & H2 & H3 & H4 & H5 & H6).
  cbn [interval memory old_duration episode epsilon csv_file current_state] in *.
  split; [done|]. split; [done|]. split; [done|]. intros _. done.
Qed.

(** ** Exploration is bounded *)

Definition epsilon_after (n : nat) : spec_float :=
  Nat.iter n (λ e, f32_sub e epsilon_decay) epsilon_init.

Definition max_explorations : nat := 991.

(** After 991 decays the threshold is negative, and no draw is below it. *)
Lemma exhausted st rand1 :
  0 <= rand1 → epsilon st = epsilon_after max_explorations → explore st rand1 = false.
Proof.
  intros Hr He. unfold explore. rewrite He.
  replace (f64_of_f32 (epsilon_after max_explorations))
    with (S754_finite true 4569233706975232 (-62)) by (vm_compute; reflexivity).
  apply positive_not_below. unfold uniform.
  apply f64_div_shape; apply f64_of_Z_shape; [done|unfold RAND_MAX; lia].
Qed.

Lemma run_epsilon l : ∀ st st' n n',
  Forall rand_ok l → run st l n = Ok (st', n') →
  epsilon st = epsilon_after n → (n <= max_explorations)%nat →
  epsilon st' = epsilon_after n' ∧ (n' <= max_explorations)%nat.
Proof.
  induction l as [|i l IH]; intros st st' n n' Hr H He Hn; cbn [run] in H.
  - by injection H as <- <-.
  - inversion_clear Hr as [|?? Hi Hl].
    apply bind_Ok in H as (st1 & H1 & H). apply update_effect in H1 as (_ & H1 & _).
    apply IH in H; [done|done| |].
    + rewrite H1. destruct (explores st i); [|done]. by rewrite He.
    + destruct (explores st i) eqn:E; [|done].
      destruct (decide (n = max_explorations)) as [->|]; [|lia].
      unfold explores in E. rewrite exhausted in E; [|apply Hi|done].
      rewrite andb_false_r in E. discriminate E.
Qed.

(** ** Updates never fail on sane measurements *)

(** After [n] updates of a selector whose durations were all sane. *)
Definition sane (n : Z) (st : state) : Prop :=
  interval st ≠ 0 ∧ Forall (λ e, duration_ok e.2) (memory st) ∧
  0 <= episode st <= n ∧ duration_ok (old_duration st).

Lemma init_sane iv : iv ≠ 0 → sane 0 (init iv).
Proof. intros. repeat split; try done. Qed.

Lemma measured_sum c t : 0 <= c <= 2 ^ 54 → 0 <= t <= 2 ^ 54 → duration_ok (c + t).
Proof. unfold duration_ok. unfold_fits. lia. Qed.

Lemma memory_snoc (m : list (compression_options * Z)) o d :
  Forall (λ e, duration_ok e.2) m → duration_ok d →
  Forall (λ e, duration_ok e.2) (m ++ [(o, d)]).
Proof. intros Hm Hd. apply Forall_app; split; [done|]. by constructor. Qed.

Lemma select_total st c t r1 r2 n :
  sane n st → n < 2 ^ 31 - 1 → 0 <= c <= 2 ^ 54 → 0 <= t <= 2 ^ 54 →
  ∃ o st', select_state hash_order st c t r1 r2 = Ok (o, st').
Proof.
  intros (_ & Hm & He & Ho) Hn Hc Ht. unfold select_state, duration_ok in *.
  destruct (recall_spec (memory st) Hm) as (T & C & -> & _). cbn [mbind result_bind].
  assert (Hv : ∃ o, vec_at valid_actions (r2 mod zlen valid_actions) = Ok o).
  { change (zlen valid_actions) with 4. unfold vec_at. test_true.
    destruct (lookup_lt_is_Some_2 valid_actions (Z.to_nat (r2 mod 4))) as [o ->]; [simpl; lia|eauto]. }
  destruct Hv as [o Hv].
  assert (H1 : sadd 64 c t = Ok (c + t)) by (apply sadd_Ok; unfold_fits; lia).
  assert (H2 : sadd 32 (episode st) 1 = Ok (episode st + 1)) by (apply sadd_Ok; unfold_fits; lia).
  assert (H3 : sadd 64 (c + t) (- old_duration st) = Ok (c + t + - old_duration st))
    by (apply sadd_Ok; unfold_fits; lia).
  destruct (explore st r1); [rewrite Hv|]; cbn [mbind result_bind]; rewrite H1;
    cbn [mbind result_bind]; rewrite H2, H3; case_match; cbn [mbind result_bind]; eauto.
Qed.

Lemma selector_update_total n st i :
  sane n st → n < 2 ^ 31 - 1 → 0 <= in_compression i <= 2 ^ 54 → 0 <= in_transmission i <= 2 ^ 54 →
  ∃ st', update_on st i = Ok st' ∧ sane (n + 1) st'.
Proof.
  intros Hs Hn Hc Ht. assert (HT : ∃ st', update_on st i = Ok st').
  { unfold update_on, update. destruct Hs as (Hi & Hm & He & Ho).
    rewrite (proj2 (Z.eqb_neq _ _) Hi). case_match; [eauto|].
    rewrite sadd_Ok by (unfold_fits; lia). cbn [mbind result_bind].
    match goal with |- context [select_state _ ?s _ _ ?r1 ?r2] =>
      destruct (select_total s (in_compression i) (in_transmission i) r1 r2 n) as (o & st' & ->) end.
    - unfold sane; cbn [interval memory episode old_duration]; split_and!; try done; try lia.
      by apply memory_snoc, measured_sum.
    - done.
    - done.
    - done.
    - cbn [mbind result_bind]. eauto. }
  destruct HT as [st' HU]. exists st'. split; [done|].
  apply update_effect in HU as (H1 & _ & H2 & H3). destruct Hs as (Hi & Hm & He & Ho).
  unfold sane. rewrite H1.
  destruct (decide (Z.rem (in_frame i) (interval st) = 0)) as [Hz|Hz].
  - destruct (H3 Hz) as (-> & -> & -> & _).
    split_and!; try done; try lia; [apply memory_snoc; [done|]|]; by apply measured_sum.
  - rewrite (H2 Hz). split_and!; try done; lia.
Qed.

(** ** Bookkeeping along a run *)

Definition book_ok (st : state) : Prop :=
  zlen (memory st) = episode st ∧ zlen (csv_file st) = (episode st + 99) / 100.

Lemma book_init iv : book_ok (init iv).
Proof. done. Qed.

Lemma book_step st i st' : book_ok st → update_on st i = Ok st' → book_ok st'.
Proof.
  intros [H1 H2] (_ & _ & Hs & Hd)%update_effect.
  destruct (decide (Z.rem (in_frame i) (interval st) = 0)) as [Hz|Hz].
  - destruct (Hd Hz) as (Hm & _ & He & Hc). unfold book_ok. rewrite Hm, He, Hc, zlen_app, H1, H2.
    change (zlen [_]) with 1. split; [done|]. pose proof (zlen_nonneg (memory st)).
    rewrite H1 in *. case_Z; lia.
  - by rewrite (Hs Hz).
Qed.

Lemma run_total l : ∀ n st k,
  sane n st → book_ok st → n + zlen l <= 2 ^ 31 - 1 →
  Forall (λ i, 0 <= in_compression i <= 2 ^ 54 ∧ 0 <= in_transmission i <= 2 ^ 54) l →
  ∃ st' k', run st l k = Ok (st', k') ∧ sane (n + zlen l) st' ∧ book_ok st'.
Proof.
  induction l as [|i l IH]; intros n st k Hs Hb Hn Hl; cbn [run].
  - exists st, k. change (zlen []) with 0. by rewrite Z.add_0_r.
  - inversion_clear Hl as [|?? [Hc Ht] Hl']. rewrite zlen_cons in Hn |- *.
    pose proof (zlen_nonneg l).
    destruct (selector_update_total n st i Hs ltac:(lia) Hc Ht) as (st1 & HU & Hs1). rewrite HU.
    cbn [mbind result_bind]. rewrite Z.add_assoc.
    apply IH; [done|by eapply book_step|lia|done].
Qed.

(** The option chosen when no random draw is made. *)
Lemma update_greedy st i st' :
  update_on st i = Ok st' → Z.rem (in_frame i) (interval st) = 0 → explores st i = false →
  ∃ T C, recall (reverse (memory st')) 0 ∅ ∅ = Ok (T, C) ∧
         current_state st' = (greedy hash_order T C).1.
Proof.
  unfold update_on, update, explores, select_state. intros H Hz He. rewrite Hz in H, He.
  destruct (interval st =? 0); [done|]. cbn [Z.eqb negb andb] in H, He.
  apply bind_Ok in H as (d & _ & H). apply bind_Ok in H as ([next st2] & H2 & H).
  injection H as <-. apply bind_Ok in H2 as ([T C] & HR & H2). exists T, C.
  unfold explore in He, H2. cbn [epsilon memory] in *. rewrite He in H2.
  cbn [mbind result_bind] in H2. apply bind_Ok in H2 as (d2 & _ & H2).
  apply bind_Ok in H2 as (csv & _ & H2). apply bind_Ok in H2 as (ep & _ & H2).
  by injection H2 as <- <-.
Qed.

End runs.

(** ** Properties *)

(** C8: an update that does not explore selects an option that occurs among the
    newest 200 measurements (the one just taken included) and whose average
    duration no other option measured there beats, whatever order the hash map
    is iterated in.  The alternative, no average below [DBL_MAX], keeps NONE. *)
Theorem greedy_choice_minimal hash_order st i st' :
  (∀ m, hash_order m ≡ₚ map_to_list m) →
  Forall (λ e, duration_ok e.2) (memory st) → duration_ok (in_compression i + in_transmission i) →
  Z.rem (in_frame i) (interval st) = 0 → explores st i = false →
  update_on hash_order st i = Ok st' →
  let best := current_state st' in
  (best ∈ (recent (memory st')).*1 ∧
   ∀ o, o ∈ (recent (memory st')).*1 →
     SFltb (measured_average (memory st') o) (measured_average (memory st') best) = false) ∨
  (∀ o, o ∈ (recent (memory st')).*1 → SFltb (measured_average (memory st') o) DBL_MAX = false).
Proof.
  intros Hh Hm Hd Hz He HU. destruct (update_greedy _ _ _ _ HU Hz He) as (T & C & HR & ->).
  apply (greedy_measured hash_order Hh _ _ _ HR).
  apply update_effect in HU as (_ & _ & _ & HU). destruct (HU Hz) as (-> & _).
  by apply memory_snoc.
Qed.

(** A selector that has measured LZ77 at 90 and RLE at 50 and uses BFP. *)
Definition example_state : state :=
  mk_state BFP 1 50 (f32_of_Z 0) [(LZ77, 90); (RLE, 50)] [] 2.

Lemma greedy_choice_minimal_witness :
  current_state <$> update_on map_to_list example_state (mk_input 3 40 30 1000 0) = Ok RLE ∧
  SFltb (measured_average [(LZ77, 90); (RLE, 50); (BFP, 70)] BFP)
        (measured_average [(LZ77, 90); (RLE, 50); (BFP, 70)] RLE) = false.
Proof.
  destruct (update_on map_to_list example_state (mk_input 3 40 30 1000 0)) as [st'|] eqn:HU;
    [|vm_compute in HU; discriminate].
  destruct (greedy_choice_minimal map_to_list example_state (mk_input 3 40 30 1000 0) st')
    as [[H1 H2]|H].
  - done.
  - unfold example_state, duration_ok. cbn [memory]. solve_Forall.
  - unfold duration_ok. simpl. lia_fits.
  - reflexivity.
  - reflexivity.
  - exact HU.
  - assert (current_state st' = RLE) as HR by (vm_compute in HU; by injection HU as <-).
    assert (memory st' = [(LZ77, 90); (RLE, 50); (BFP, 70)]) as HM by (vm_compute in HU; by injection HU as <-).
    split; [simpl; by rewrite HR|]. rewrite <- HM, <- HR. apply H2. rewrite HM. vm_compute. set_solver.
  - assert (memory st' = [(LZ77, 90); (RLE, 50); (BFP, 70)]) as HM by (vm_compute in HU; by injection HU as <-).
    exfalso. specialize (H RLE). rewrite HM in H. assert (RLE ∈ (recent [(LZ77, 90); (RLE, 50); (BFP, 70)]).*1) as Hin.
    { vm_compute. set_solver. }
    apply H in Hin. vm_compute in Hin. discriminate.
Defined.

(** C9: over the whole life of a selector, however many updates are made and
    whatever the generator returns, at most 991 selections are random: float
    subtraction of 0.001 from 0.99 turns the threshold negative by then, and a
    negative threshold is never reached again. *)
Theorem exploration_bounded hash_order iv l st n :
  Forall rand_ok l → run hash_order (init iv) l 0 = Ok (st, n) →
  (n <= max_explorations)%nat ∧ epsilon st = epsilon_after n ∧
  (n = max_explorations → ∀ rand, 0 <= rand → explore st rand = false).
Proof.
  intros Hl HR. destruct (run_epsilon hash_order l _ _ _ _ Hl HR) as [He Hn].
  - reflexivity.
  - unfold max_explorations. lia.
  - split; [exact Hn|]. split; [exact He|]. intros -> rand Hr. by apply exhausted.
Qed.

Lemma exploration_bounded_witness :
  ∃ st n, run map_to_list (init 1) (replicate 5 (mk_input 1 10 20 5 6)) 0 = Ok (st, n) ∧
    (n <= max_explorations)%nat.
Proof.
  destruct (run map_to_list (init 1) (replicate 5 (mk_input 1 10 20 5 6)) 0) as [[st n]|] eqn:HR;
    [|vm_compute in HR; discriminate].
  exists st, n. split; [reflexivity|].
  apply (exploration_bounded map_to_list 1 (replicate 5 (mk_input 1 10 20 5 6)) st n); [|exact HR].
  apply Forall_replicate. split; simpl; unfold RAND_MAX; lia.
Defined.

(** With a non-zero interval and durations below 2^54 microseconds, updates
    never fail (no overflow, no index outside the action list) for as many calls
    as an [int] counts; the memory then holds one measurement per episode and the
    log one line per hundred episodes, the first included. *)
Theorem updates_total hash_order iv l :
  iv ≠ 0 → zlen l <= 2 ^ 31 - 1 →
  Forall (λ i, 0 <= in_compression i <= 2 ^ 54 ∧ 0 <= in_transmission i <= 2 ^ 54) l →
  ∃ st n, run hash_order (init iv) l 0 = Ok (st, n) ∧
    zlen (memory st) = episode st ∧ zlen (csv_file st) = (episode st + 99) / 100.
Proof.
  intros Hi Hl Hd.
  destruct (run_total hash_order l 0 (init iv) 0) as (st & k & HR & _ & Hb);
    [by apply init_sane|apply book_init|lia|done|by exists st, k].
Qed.

Lemma updates_total_witness :
  ∃ st n, run map_to_list (init 2) (replicate 7 (mk_input 4 10 20 5 6)) 0 = Ok (st, n) ∧
    zlen (memory st) = episode st.
Proof.
  destruct (updates_total map_to_list 2 (replicate 7 (mk_input 4 10 20 5 6)))
    as (st & n & HR & Hm & _).
  - lia.
  - unfold zlen. rewrite length_replicate. lia.
  - apply Forall_replicate. simpl. lia.
  - exists st, n. split; [exact HR|exact Hm].
Defined.

End iq_state_machine.
