(* ===== verification/Replay.v ===== *)
(** * Replay: the experience buffers of the learning agent

    Models class [ExperienceReplay] (include/dqn/ExperienceReplay.h,
    lib/dqn/ExperienceReplay.cpp) and class [PrioritizedExperienceReplay]
    (include/dqn/PrioritizedExperienceReplay.h, lib/dqn/PrioritizedExperienceReplay.cpp).
    Tensors are libtorch's: they are a type parameter [T] with the value of a
    default-constructed tensor.  The random subset [std::sample] picks is an
    argument. *)

From S2P Require Export Float.

(** The tuple stored per transition: state, new state, action, reward, done. *)
Record transition (T : Type) := mk_transition {
  t_state : T; t_new_state : T; t_action : T; t_reward : T; t_done : T }.
Arguments mk_transition {T}.
Arguments t_state {T}.
Arguments t_new_state {T}.
Arguments t_action {T}.
Arguments t_reward {T}.
Arguments t_done {T}.

Definition default_transition {T} (d : T) : transition T := mk_transition d d d d d.

Module ExperienceReplay.
Section replay.
Context {T : Type}.

Record state := mk_state { capacity : Z; buffer : list (transition T) }.

Definition init (size : Z) : state := mk_state size [].

(** [while (buffer.size() >= capacity) buffer.pop_front();]  The comparison is
    unsigned: [capacity] is converted to [size_t]. *)
Fixpoint pop_loop (fuel : nat) (cap : Z) (buf : list (transition T))
    : result (list (transition T)) :=
  if cap <=? zlen buf then
    match fuel, buf with
    | S fuel, _ :: buf => pop_loop fuel cap buf
    | _, [] => Fault OutOfBounds
    | O, _ => Fault OutOfFuel
    end
  else Ok buf.

(** The parameters come in the order of the declaration ([done] before
    [reward]); the tuple stores [reward] before [done]. *)
Definition push (st : state) (s new_state action done reward : T) : result state :=
  let sample := mk_transition s new_state action reward done in
  let cap := wrap 64 (capacity st) in
  if zlen (buffer st) <? cap then
    Ok (mk_state (capacity st) (buffer st ++ [sample]))
  else
    buf ← pop_loop (length (buffer st)) cap (buffer st);
    Ok (mk_state (capacity st) (buf ++ [sample])).

(** [b(batch_size)] is filled from the front with the chosen transitions. *)
Definition sample_queue (d : T) (chosen : list (transition T)) (batch_size : Z)
    : list (transition T) :=
  take (Z.to_nat batch_size) chosen ++
  replicate (Z.to_nat batch_size - length chosen) (default_transition d).

(** What [std::sample] promises: a subsequence of the requested length, or all
    of the population when it is smaller. *)
Definition sample_of (st : state) (batch_size : Z) (chosen : list (transition T)) : Prop :=
  sublist chosen (buffer st) ∧ zlen chosen = Z.min batch_size (zlen (buffer st)).

Definition size_buffer (st : state) : Z := zlen (buffer st).

(** ** The buffer is the newest [capacity] transitions *)

(** The suffix of length at most [n]. *)
Definition newest {A} (n : Z) (l : list A) : list A := drop (Z.to_nat (zlen l - n)) l.

Lemma newest_snoc {A} n (l : list A) x :
  0 < n → newest n (l ++ [x]) = newest n (newest n l ++ [x]).
Proof.
  intros Hn. unfold newest. rewrite !zlen_app. change (zlen [x]) with 1.
  unfold zlen. rewrite length_drop, !drop_app. rewrite !drop_drop, length_drop.
  f_equal; [f_equal; lia|]. f_equal. lia.
Qed.

Lemma pop_loop_newest fuel cap buf :
  0 < cap → (length buf <= fuel)%nat →
  pop_loop fuel cap buf = Ok (newest (cap - 1) buf).
Proof.
  intros Hc. revert buf. induction fuel as [|fuel IH]; intros [|x buf] Hf; simpl in Hf; try lia;
    cbn [pop_loop]; case_Z; try (change (zlen []) with 0 in *; lia).
  - unfold newest. by replace (Z.to_nat _) with 0%nat by (change (zlen []) with 0; lia).
  - unfold newest. by replace (Z.to_nat _) with 0%nat by (change (zlen []) with 0; lia).
  - rewrite IH by lia. unfold newest. rewrite zlen_cons in *.
    by replace (Z.to_nat (1 + zlen buf - (cap - 1))) with (S (Z.to_nat (zlen buf - (cap - 1)))) by lia.
  - unfold newest. by replace (Z.to_nat _) with 0%nat by lia.
Qed.

Lemma push_spec st s n a d r :
  0 < capacity st < 2 ^ 63 →
  push st s n a d r =
  Ok (mk_state (capacity st) (newest (capacity st) (buffer st ++ [mk_transition s n a r d]))).
Proof.
  intros Hc. unfold push. rewrite wrap_small by lia_fits. case_Z.
  - do 2 f_equal. unfold newest.
    replace (Z.to_nat _) with 0%nat by (rewrite zlen_app; change (zlen [_]) with 1; lia). done.
  - rewrite pop_loop_newest by lia. cbn [mbind result_bind]. do 2 f_equal. unfold newest.
    rewrite zlen_app, drop_app. change (zlen [_]) with 1. f_equal; [f_equal; lia|].
    unfold zlen in *. by replace (_ - length (buffer st))%nat with 0%nat by lia.
Qed.

End replay.
Arguments state : clear implicits.
Arguments mk_state {T}.
(** ** Property *)

(** Pushing a list of transitions, oldest first. *)
Definition push_transition {T} (st : state T) (t : transition T) : result (state T) :=
  push st (t_state t) (t_new_state t) (t_action t) (t_done t) (t_reward t).

(** After any sequence of pushes the buffer holds exactly the newest
    [capacity] transitions in the order they were pushed, each stored with
    reward and done in their own fields. *)
Theorem replay_keeps_newest {T} (cap : Z) (l : list (transition T)) :
  0 < cap < 2 ^ 63 →
  fold_result push_transition (init cap) l = Ok (mk_state cap (newest cap l)).
Proof.
  intros Hc. induction l as [|t l IH] using rev_ind;
    [unfold newest; by rewrite drop_nil|].
  rewrite fold_result_app, IH. cbn [fold_result mbind result_bind]. unfold push_transition.
  rewrite push_spec by done. cbn [capacity buffer mbind result_bind].
  rewrite (newest_snoc _ l) by lia. by destruct t.
Qed.

Lemma replay_keeps_newest_witness :
  let t x := mk_transition x x x x x in
  fold_result push_transition (init 2) [t 1; t 2; t 3] = Ok (mk_state 2 [t 2; t 3]).
Proof. intros t. apply (replay_keeps_newest 2 [t 1; t 2; t 3]). lia. Defined.

End ExperienceReplay.

Module PrioritizedExperienceReplay.
Section per.
Context {T : Type}.

(** [struct element] *)
Record element := mk_element {
  td_error : spec_float; index : Z; el_transition : transition T }.

(** [element::operator<] *)
Definition lt (x y : element) : bool :=
  if negb (SFeqb (td_error x) (td_error y)) then SFltb (td_error x) (td_error y)
  else index x <? index y.

Record state := mk_state { capacity : Z; buffer : list element }.

(** [std::priority_queue]: [top] is an element no other exceeds; [pop] removes
    it. *)
Fixpoint top_pop (x : element) (rest : list element) : element * list element :=
  match rest with
  | [] => (x, [])
  | y :: rest =>
      if lt x y then let '(t, r) := top_pop y rest in (t, x :: r)
      else let '(t, r) := top_pop x rest in (t, y :: r)
  end.

Definition pop (buf : list element) : result (list element) :=
  match buf with [] => Fault OutOfBounds | x :: rest => Ok (top_pop x rest).2 end.

(** [while (buffer.size() >= capacity) buffer.pop();] *)
Fixpoint pop_loop (fuel : nat) (cap : Z) (buf : list element) : result (list element) :=
  if cap <=? zlen buf then
    match fuel with
    | O => Fault OutOfFuel
    | S fuel => buf ← pop buf; pop_loop fuel cap buf
    end
  else Ok buf.

Definition push (st : state) (s new_state action done reward : T) (td : spec_float) (ind : Z)
    : result state :=
  let sample_struct := mk_element td ind (mk_transition s new_state action reward done) in
  let cap := wrap 64 (capacity st) in
  if zlen (buffer st) <? cap then
    Ok (mk_state (capacity st) (sample_struct :: buffer st))
  else
    buf ← pop_loop (S (length (buffer st))) cap (buffer st);
    Ok (mk_state (capacity st) (sample_struct :: buf)).

(** [while (batch_size > 0 and buffer.size() > 0)]: the body never decrements
    [batch_size]. *)
Fixpoint drain (fuel : nat) (batch_size : Z) (buf : list element) (b : list (transition T))
    : result (list (transition T) * list element) :=
  match buf with
  | x :: rest =>
      if 0 <? batch_size then
        match fuel with
        | O => Fault OutOfFuel
        | S fuel =>
            let '(s, buf) := top_pop x rest in
            drain fuel batch_size buf (b ++ [el_transition s])
        end
      else Ok (b, buf)
  | [] => Ok (b, buf)
  end.

(** [b(batch_size)] starts with [batch_size] default elements; the samples are
    appended after them. *)
Definition sample_queue (d : T) (st : state) (batch_size : Z)
    : result (list (transition T) * state) :=
  '(b, buf) ← drain (length (buffer st)) batch_size (buffer st)
                (replicate (Z.to_nat batch_size) (default_transition d));
  Ok (b, mk_state (capacity st) buf).

Definition size_buffer (st : state) : Z := zlen (buffer st).

(** ** What the queue operations do *)

Lemma top_pop_perm x rest t r : top_pop x rest = (t, r) → x :: rest ≡ₚ t :: r.
Proof.
  revert x t r. induction rest as [|y rest IH]; intros x t r; cbn [top_pop].
  - by intros [= <- <-].
  - case_match; [destruct (top_pop y rest) as [t' r'] eqn:E|destruct (top_pop x rest) as [t' r'] eqn:E];
      intros [= <- <-]; apply IH in E.
    + rewrite E. constructor.
    + transitivity (y :: x :: rest); [constructor|]. rewrite E. constructor.
Qed.

Lemma lt_trans x y z : lt x y = true → lt y z = true → lt x z = true.
Proof.
  unfold lt. destruct (SFeqb (td_error x) (td_error y)) eqn:E1,
    (SFeqb (td_error y) (td_error z)) eqn:E2; simpl; intros H1 H2.
  - rewrite (SFeqb_trans _ _ _ E1 E2). simpl. lia.
  - rewrite (SFeqb_ltb_l _ _ _ E1). by rewrite (SFltb_not_eqb _ _) by by rewrite (SFeqb_ltb_l _ _ _ E1).
  - assert (H : SFltb (td_error x) (td_error z) = true) by by rewrite <- (SFeqb_ltb_r _ _ _ E2).
    by rewrite (SFltb_not_eqb _ _ H).
  - pose proof (SFltb_trans _ _ _ H1 H2) as H. by rewrite (SFltb_not_eqb _ _ H).
Qed.

(** What [pop] removes is an element no remaining one exceeds. *)
Lemma top_pop_max x rest t r :
  top_pop x rest = (t, r) → lt x x = false →
  (∀ y, y ∈ r → lt t y = false) ∧ (t = x ∨ lt x t = true).
Proof.
  revert x t r. induction rest as [|y rest IH]; intros x t r; cbn [top_pop].
  - intros [= <- <-] _. split; [set_solver|by left].
  - destruct (lt x y) eqn:Exy.
    + destruct (top_pop y rest) as [t' r'] eqn:E. intros [= <- <-] Hx.
      destruct (IH y t' r' E) as [H1 H2].
      { apply not_true_iff_false. unfold lt. intros H.
        destruct (SFeqb (td_error y) (td_error y)); simpl in H; [lia|].
        by rewrite SFltb_irrefl in H. }
      assert (Hxt : lt x t' = true) by (destruct H2 as [->|]; [done|by eapply lt_trans]).
      split; [|by right]. intros z [->|Hz]%elem_of_cons; [|by apply H1].
      apply not_true_iff_false. intros H. pose proof (lt_trans _ _ _ Hxt H). congruence.
    + destruct (top_pop x rest) as [t' r'] eqn:E. intros [= <- <-] Hx.
      destruct (IH x t' r' E Hx) as [H1 H2]. split; [|done].
      intros z [->|Hz]%elem_of_cons; [|by apply H1].
      apply not_true_iff_false. intros H. destruct H2 as [->|H2]; [congruence|].
      pose proof (lt_trans _ _ _ H2 H). congruence.
Qed.

Lemma drain_all d_batch buf : ∀ fuel b,
  0 < d_batch → (length buf <= fuel)%nat →
  ∃ out, drain fuel d_batch buf b = Ok (b ++ out, []) ∧ out ≡ₚ el_transition <$> buf.
Proof.
  remember (length buf) as n eqn:Hn. revert buf Hn.
  induction n as [|n IH]; intros [|x rest] Hn fuel b Hb Hf; try done.
  1: exists []; destruct fuel; by rewrite app_nil_r.
  destruct fuel as [|fuel]; [lia|]. cbn [drain]. test_true.
  destruct (top_pop x rest) as [t r] eqn:E. pose proof (top_pop_perm _ _ _ _ E) as Hp.
  assert (Hl : length r = n).
  { apply Permutation_length in Hp. simpl in *. lia. }
  destruct (IH r (eq_sym Hl) fuel (b ++ [el_transition t]) Hb ltac:(lia)) as (out & -> & Ho).
  exists (el_transition t :: out). rewrite <- app_assoc. split; [done|].
  rewrite Hp, fmap_cons. by rewrite Ho.
Qed.

(** ** Properties *)

(** A push on a full prioritized buffer evicts the element of the highest
    priority (the largest error, ties by index), keeping all the others: the
    comment on replay priority notwithstanding, the transitions with the largest
    errors are the first to go. *)
Theorem prioritized_push_evicts_highest st s n a d r td ind :
  0 < capacity st < 2 ^ 63 → zlen (buffer st) = capacity st →
  ∃ evicted kept, buffer st ≡ₚ evicted :: kept ∧
    (∀ y, y ∈ kept → lt evicted y = false) ∧
    push st s n a d r td ind =
      Ok (mk_state (capacity st) (mk_element td ind (mk_transition s n a r d) :: kept)).
Proof.
  intros Hc Hlen. unfold push. rewrite wrap_small by lia_fits. test_false.
  destruct (buffer st) as [|x rest] eqn:Hb; [change (zlen []) with 0 in Hlen; lia|].
  destruct (top_pop x rest) as [t r'] eqn:E. exists t, r'.
  pose proof (top_pop_perm _ _ _ _ E) as Hp. split; [done|]. split.
  { eapply top_pop_max; [done|]. unfold lt.
    destruct (SFeqb (td_error x) (td_error x)); simpl; [lia|apply SFltb_irrefl]. }
  assert (Hr : zlen r' = zlen rest).
  { apply Permutation_length in Hp. unfold zlen. simpl in Hp. lia. }
  rewrite zlen_cons in Hlen. cbn [pop_loop length]. rewrite zlen_cons. test_true.
  cbn [pop mbind result_bind]. rewrite E. cbn [snd].
  destruct (length rest); cbn [pop_loop]; rewrite Hr; by test_false.
Qed.

(** Sampling from the prioritized buffer ignores the batch size: the whole
    buffer is returned, after [batch_size] default-constructed transitions, and
    the buffer is left empty. *)
Theorem prioritized_sample_drains d st batch :
  0 < batch →
  ∃ out, sample_queue d st batch =
      Ok (replicate (Z.to_nat batch) (default_transition d) ++ out, mk_state (capacity st) []) ∧
    out ≡ₚ el_transition <$> buffer st.
Proof.
  intros Hb. unfold sample_queue.
  destruct (drain_all batch (buffer st) (length (buffer st))
              (replicate (Z.to_nat batch) (default_transition d)) Hb ltac:(lia)) as (out & -> & Ho).
  by exists out.
Qed.

End per.
Arguments element : clear implicits.
Arguments state : clear implicits.
Arguments mk_state {T}.
Arguments mk_element {T}.

Lemma prioritized_push_evicts_highest_witness :
  let el p := mk_element (f64_of_Z p) p (mk_transition p p p p p) in
  ∃ evicted kept, [el 5; el 9; el 2] ≡ₚ evicted :: kept ∧
    (∀ y, y ∈ kept → lt evicted y = false) ∧
    push (mk_state 3 [el 5; el 9; el 2]) 1 1 1 1 1 (f64_of_Z 1) 1 =
      Ok (mk_state 3 (mk_element (f64_of_Z 1) 1 (mk_transition 1 1 1 1 1) :: kept)).
Proof.
  intros el.
  apply (prioritized_push_evicts_highest (mk_state 3 [el 5; el 9; el 2]) 1 1 1 1 1 (f64_of_Z 1) 1);
    [simpl; lia|done].
Defined.

Lemma prioritized_sample_drains_witness :
  let el p := mk_element (f64_of_Z p) p (mk_transition p p p p p) in
  ∃ out, sample_queue 0 (mk_state 3 [el 5; el 9]) 1 =
    Ok ([default_transition 0] ++ out, mk_state 3 []) ∧ out ≡ₚ el_transition <$> [el 5; el 9].
Proof.
  intros el. apply (prioritized_sample_drains 0 (mk_state 3 [el 5; el 9]) 1). lia.
Defined.
End PrioritizedExperienceReplay.
