(* ===== verification/Trainer.v ===== *)
(** * Trainer: the deep-Q-learning selector

    Models struct [DQN] (include/dqn/dqn.h) and class [Trainer]
    (include/dqn/Trainer.h, lib/dqn/Trainer.cpp).  libtorch is not part of the
    repository: the class [Torch] lists the operations the code calls, [TorchSpec]
    what it relies on.  One-dimensional tensors are lists of floats, and a batch is
    computed row by row.  [DQN] never registers its layers with
    [torch::nn::Module], so the parameters libtorch lists for it are none:
    [registered] is that list. *)

From S2P Require Export Replay IqConv StateMachine.

(** The loss as a tensor: its value, and whether gradients can be asked of it. *)
Record loss_tensor := mk_loss { loss_value : spec_float; requires_grad : bool }.

Class Torch := {
  weights : Type;                                    (* the random weights a layer starts with *)
  layer : Type;                                      (* torch::nn::Linear *)
  make_linear : Z → Z → weights → layer;             (* its constructor, from in to out features *)
  apply_layer : layer → list spec_float → result (list spec_float);
  relu : list spec_float → list spec_float;
  argmax : list spec_float → Z;                      (* std::get<1>(t.max(1)) of a row *)
  mse_loss : list spec_float → list spec_float → spec_float;
  tensor : Type;                                     (* a named parameter *)
  gradient : Type;                                   (* what the tensors of the program hold in .grad *)
  no_gradient : gradient;
  zero_grad : gmap string tensor → gradient → gradient;
  (* from the layers and the batch the loss was computed with; accumulates *)
  backward : loss_tensor → list layer → list (transition (list spec_float)) → gradient → result gradient;
  adam_step : gmap string tensor → gradient → gmap string tensor;
  exp64 : spec_float → spec_float;                   (* exp of <math.h> *)
}.

Module Trainer.
Section trainer.
Context {tr : Torch}.

(** [struct DQN : torch::nn::Module] *)
Record DQN := mk_DQN {
  linear1 : layer; linear2 : layer; linear3 : layer; output : layer;
  registered : gmap string tensor;
  registered_buffers : gmap string tensor;
}.

Record initial_weights := mk_weights { w1 : weights; w2 : weights; w3 : weights; w4 : weights }.

(** The constructor makes the four layers and registers nothing. *)
Definition new_DQN (input_size num_actions : Z) (w : initial_weights) : DQN :=
  mk_DQN (make_linear input_size 128 (w1 w)) (make_linear 128 256 (w2 w))
    (make_linear 256 512 (w3 w)) (make_linear 512 num_actions (w4 w)) ∅ ∅.

Definition forward (net : DQN) (input : list spec_float) : result (list spec_float) :=
  input ← apply_layer (linear1 net) input;
  input ← apply_layer (linear2 net) (relu input);
  input ← apply_layer (linear3 net) (relu input);
  apply_layer (output net) (relu input).

(** On one state: [unsqueeze(0)] makes it the only row of the batch. *)
Definition act (net : DQN) (s : list spec_float) : result Z :=
  q_value ← forward net s;
  Ok (argmax q_value).

(** A stored transition: rows of floats for the states; the action as
    [torch::tensor(a)], i.e. the enumerator's value; reward and done. *)
Abbreviation value := (list spec_float).

Record csv_row := mk_row {
  row_episode : Z; row_reward : spec_float; row_action : Z; row_epsilon : spec_float }.

Record state := mk_state {
  buffer : ExperienceReplay.state value;
  network : DQN;
  target_network : DQN;
  grad_enabled : bool;
  episode_reward : spec_float;
  old_duration : spec_float;
  episode : Z;
  a : compression_options;
  state_tensor : value;
  csv_file : list csv_row;                           (* the rows below the header *)
  gradients : gradient;
}.

Definition epsilon_start : spec_float := f64_of_Z 1.
Definition epsilon_final : spec_float := f64_lit 1 100.
Definition epsilon_decay : Z := 30000.
Definition batch_size : Z := 32.
Definition gamma : spec_float := f32_of_f64 (f64_lit 99 100).
Definition legal_actions : list compression_options := [NONE; BFP; LZ77; RLE].
Definition zero : spec_float := S754_zero false.

(** [Trainer::Trainer()]: both networks have three inputs and four outputs. *)
Definition init (w w' : initial_weights) : state :=
  mk_state (ExperienceReplay.init 3000) (new_DQN 3 4 w) (new_DQN 3 4 w') true zero zero 0 NONE
    [zero; zero; zero] [] no_gradient.

(** [epsilon_final + (epsilon_start - epsilon_final) * exp(-1. * frame_id / epsilon_decay)] *)
Definition epsilon_by_frame (frame_id : Z) : spec_float :=
  f64_add epsilon_final
    (f64_mul (f64_sub epsilon_start epsilon_final)
       (exp64 (f64_div (f64_mul (f64_of_Z (-1)) (f64_of_Z frame_id)) (f64_of_Z epsilon_decay)))).

(** One row of [q.gather(1, index)]: an index outside the row throws. *)
Definition gather (row : list spec_float) (i : Z) : result spec_float := vec_at row i.

(** The integer a one-element tensor holds, [t.to(torch::kInt64)]. *)
Definition to_int (v : value) : result Z :=
  match v with
  | [S754_zero _] => Ok 0
  | [S754_finite s m e] =>
      Ok (SpecFloat.cond_Zopp s (if 0 <=? e then Zpos m * 2 ^ e else Zpos m / 2 ^ (- e)))
  | _ => Fault InvalidArgument
  end.

(** One batch element: the value of the stored action and its target. *)
Definition td_term (st : state) (t : transition value) : result (spec_float * spec_float) :=
  q_values ← forward (network st) (t_state t);
  next_target_q_values ← forward (target_network st) (t_new_state t);
  next_q_values ← forward (network st) (t_new_state t);
  action ← to_int (t_action t);
  q_value ← gather q_values action;
  let maximum := argmax next_q_values in
  next_q_value ← gather next_target_q_values maximum;
  dones ← to_int (t_done t);
  reward ← vec_at (t_reward t) 0;
  Ok (q_value,
      f32_add reward (f32_mul (f32_mul gamma next_q_value) (f32_of_Z (1 - dones)))).

Fixpoint td_terms (st : state) (batch : list (transition value))
    : result (list (spec_float * spec_float)) :=
  match batch with
  | [] => Ok []
  | t :: batch => x ← td_term st t; l ← td_terms st batch; Ok (x :: l)
  end.

(** The random choice of [std::sample]: the transitions it picks from a buffer. *)
Definition sampler := list (transition value) → list (transition value).

Definition sampler_ok (sample : sampler) : Prop :=
  ∀ buf, sublist (sample buf) buf ∧ zlen (sample buf) = Z.min batch_size (zlen buf).

Definition layers (net : DQN) : list layer := [linear1 net; linear2 net; linear3 net; output net].

(** [compute_td_loss].  The optimizer was built over [network.parameters()], the
    registered ones.  The loss requires gradients by itself if it was computed while they
    were enabled. *)
Definition compute_td_loss (st : state) (sample : sampler) : result (state * loss_tensor) :=
  let chosen := sample (ExperienceReplay.buffer (buffer st)) in
  let batch := ExperienceReplay.sample_queue [] chosen batch_size in
  terms ← td_terms st batch;
  let loss := mk_loss (mse_loss terms.*1 terms.*2) (grad_enabled st) in
  let net := network st in
  let grads := zero_grad (registered net) (gradients st) in
  let loss := mk_loss (loss_value loss) true in      (* loss.set_requires_grad(true) *)
  grads ← backward loss (layers net ++ layers (target_network st)) batch grads;
  let net := mk_DQN (linear1 net) (linear2 net) (linear3 net) (output net)
               (adam_step (registered net) grads) (registered_buffers net) in
  Ok (mk_state (buffer st) net (target_network st) (grad_enabled st) (episode_reward st)
        (old_duration st) (episode st) (a st) (state_tensor st) (csv_file st) grads, loss).

(** Copy one named parameter into the model, if the model has that name. *)
Definition copy_param (model : DQN) (name : string) (v : tensor) : DQN :=
  match registered model !! name with
  | Some _ => mk_DQN (linear1 model) (linear2 model) (linear3 model) (output model)
                (<[name := v]> (registered model)) (registered_buffers model)
  | None =>
      match registered_buffers model !! name with
      | Some _ => mk_DQN (linear1 model) (linear2 model) (linear3 model) (output model)
                    (registered model) (<[name := v]> (registered_buffers model))
      | None => model
      end
  end.

(** [loadstatedict(model, target_model)]: turns the recording of gradients off, for good,
    and writes into [model]. *)
Definition loadstatedict (model target_model : DQN) : bool * DQN :=
  (false, foldl (λ m p, copy_param m p.1 p.2) model (map_to_list (registered target_model))).

Definition float_of_bool (b : bool) : spec_float := if b then f32_of_Z 1 else zero.

(** [legal_actions[rand() % size]] or the network's choice. *)
Definition choose (st : state) (new_state : value) (epsilon : spec_float) (rand1 rand2 : Z)
    : result compression_options :=
  if SFleb (iq_state_machine.uniform rand1) epsilon then
    vec_at legal_actions (rand2 mod zlen legal_actions)
  else
    index ← act (network st) new_state;
    vec_at legal_actions index.

Definition train (st : state) (entropy packet_size duration : spec_float) (done : bool)
    (rand1 rand2 : Z) (sample : sampler) : result state :=
  let reward := f32_sub (old_duration st) duration in
  let episode_reward' := f32_add (episode_reward st) reward in
  let new_state := [entropy; packet_size; duration] in
  episode' ← sadd 32 (episode st) 1;
  let epsilon := epsilon_by_frame episode' in
  a' ← choose st new_state epsilon rand1 rand2;
  buffer' ← ExperienceReplay.push (buffer st) (state_tensor st) new_state
              [f32_of_Z (option_value a')] [float_of_bool done] [reward];
  let csv' := if episode' mod 100 =? 0 then
      csv_file st ++ [mk_row episode' reward (option_value a')
                        (f64_mul (epsilon_by_frame episode') (f64_of_Z 1000))]
    else csv_file st in
  let st := mk_state buffer' (network st) (target_network st) (grad_enabled st) episode_reward'
              duration episode' a' new_state csv' (gradients st) in
  if episode' mod 1000 =? 0 then
    '(st, _) ← compute_td_loss st sample;
    let '(grad_mode, net) := loadstatedict (network st) (target_network st) in
    Ok (mk_state (buffer st) net (target_network st) grad_mode zero (old_duration st) (episode st)
          (a st) (state_tensor st) (csv_file st) (gradients st))
  else Ok st.

Definition get_current_state (st : state) : compression_options := a st.

(** ** The networks *)

(** What the code relies on of libtorch: a layer takes rows of as many numbers as its
    constructor was given, returns rows of as many as it was given for them, and refuses
    others; the activation keeps the size; the row maximum is a position of the row;
    gradients can be computed of a loss that requires them; the optimizer updates the
    tensors it was given and no others. *)
Class TorchSpec := {
  apply_linear i o w x : 0 <= o → zlen x = i → ∃ y, apply_layer (make_linear i o w) x = Ok y ∧ zlen y = o;
  apply_mismatch i o w x : zlen x ≠ i → apply_layer (make_linear i o w) x = Fault InvalidArgument;
  relu_size x : zlen (relu x) = zlen x;
  argmax_range l : l ≠ [] → 0 <= argmax l < zlen l;
  backward_required loss ls batch g : requires_grad loss = true → ∃ g', backward loss ls batch g = Ok g';
  adam_step_dom p g : dom (adam_step p g) = dom p;
}.

(** A network as the constructor of the trainer makes it. *)
Definition fresh (net : DQN) : Prop := ∃ w, net = new_DQN 3 4 w.

Lemma fresh_registered net : fresh net → registered net = ∅.
Proof. by intros [w ->]. Qed.

Lemma loadstatedict_target_empty m t : registered t = ∅ → loadstatedict m t = (false, m).
Proof. intros Ht. unfold loadstatedict. rewrite Ht. by rewrite map_to_list_empty. Qed.

Section lemmas.
Context {ts : TorchSpec}.

Lemma adam_step_empty g : adam_step ∅ g = ∅.
Proof. apply dom_empty_inv_L. rewrite adam_step_dom. apply dom_empty_L. Qed.

(** The sizes of the layers fit: a state of [n] numbers gives a row of [m] values, and
    anything else is refused. *)
Lemma forward_row n m w x : 0 <= m → zlen x = n → ∃ y, forward (new_DQN n m w) x = Ok y ∧ zlen y = m.
Proof.
  intros Hm Hx. unfold forward, new_DQN. cbn [linear1 linear2 linear3 output].
  destruct (apply_linear n 128 (w1 w) x ltac:(done) Hx) as (x1 & -> & H1). cbn [mbind result_bind].
  destruct (apply_linear 128 256 (w2 w) (relu x1)) as (x2 & -> & H2); [done|by rewrite relu_size|]. cbn [mbind result_bind].
  destruct (apply_linear 256 512 (w3 w) (relu x2)) as (x3 & -> & H3); [done|by rewrite relu_size|]. cbn [mbind result_bind].
  apply apply_linear; [done|]. by rewrite relu_size.
Qed.

Lemma forward_mismatch n m w x : zlen x ≠ n → forward (new_DQN n m w) x = Fault InvalidArgument.
Proof. intros Hx. unfold forward, new_DQN. cbn [linear1]. by rewrite apply_mismatch. Qed.

Lemma act_range net x : fresh net → zlen x = 3 → ∃ i, act net x = Ok i ∧ 0 <= i < 4.
Proof.
  intros [w ->] Hx. unfold act. destruct (forward_row 3 4 w x ltac:(done) Hx) as (y & -> & Hy). cbn [mbind result_bind].
  exists (argmax y). split; [done|]. rewrite <- Hy. apply argmax_range. by intros ->.
Qed.

End lemmas.

(** ** Training never fails

    The replay buffer only holds transitions the trainer stored, and by the time
    a batch is drawn it holds enough of them. *)

Definition transition_ok (t : transition value) : Prop :=
  zlen (t_state t) = 3 ∧ zlen (t_new_state t) = 3 ∧ (∃ o, t_action t = [f32_of_Z (option_value o)]) ∧
  (∃ x, t_reward t = [x]) ∧ (∃ b, t_done t = [float_of_bool b]).

(** After [n] steps. *)
Definition inv (n : Z) (st : state) : Prop :=
  fresh (network st) ∧ fresh (target_network st) ∧ zlen (state_tensor st) = 3 ∧
  ExperienceReplay.capacity (buffer st) = 3000 ∧
  Forall transition_ok (ExperienceReplay.buffer (buffer st)) ∧
  episode st = n ∧ zlen (ExperienceReplay.buffer (buffer st)) = Z.min n 3000 ∧
  grad_enabled st = (n <? 1000) ∧ zlen (csv_file st) = n / 100.

Section total.
Context {ts : TorchSpec}.

Lemma vec_at_Some {A} (l : list A) i : 0 <= i < zlen l → ∃ x, vec_at l i = Ok x ∧ x ∈ l.
Proof.
  intros Hi. unfold vec_at, zlen in *. test_true.
  destruct (lookup_lt_is_Some_2 l (Z.to_nat i)) as [x Hx]; [lia|].
  exists x. rewrite Hx. split; [done|]. by eapply list_elem_of_lookup_2.
Qed.

Lemma td_term_total st t :
  fresh (network st) → fresh (target_network st) → transition_ok t → ∃ x, td_term st t = Ok x.
Proof.
  intros [w Hn] [w' Ht] (Hs & Hs' & [o Ho] & [x Hx] & [b Hb]). unfold td_term. rewrite Hn, Ht, Ho, Hx, Hb.
  destruct (forward_row 3 4 w (t_state t) ltac:(done) Hs) as (q & -> & Hq). cbn [mbind result_bind].
  destruct (forward_row 3 4 w' (t_new_state t) ltac:(done) Hs') as (q' & -> & Hq'). cbn [mbind result_bind].
  destruct (forward_row 3 4 w (t_new_state t) ltac:(done) Hs') as (q'' & -> & Hq''). cbn [mbind result_bind].
  replace (to_int [f32_of_Z (option_value o)]) with (Ok (option_value o)) by by destruct o.
  replace (to_int [float_of_bool b]) with (Ok (if b then 1 else 0)) by by destruct b.
  cbn [mbind result_bind]. unfold gather.
  destruct (vec_at_Some q (option_value o)) as (y & -> & _); [rewrite Hq; by destruct o|].
  cbn [mbind result_bind].
  destruct (vec_at_Some q' (argmax q'')) as (y' & -> & _).
  { rewrite Hq', <- Hq''. apply argmax_range. by intros ->. }
  cbn [mbind result_bind]. eauto.
Qed.

Lemma td_terms_total st batch :
  fresh (network st) → fresh (target_network st) → Forall transition_ok batch → ∃ l, td_terms st batch = Ok l.
Proof.
  intros Hn Ht. induction 1 as [|t batch Hok _ [l Hl]]; [by eexists|].
  cbn [td_terms]. destruct (td_term_total st t Hn Ht Hok) as [x ->]. cbn [mbind result_bind].
  rewrite Hl. cbn [mbind result_bind]. eauto.
Qed.

(** A batch drawn from a buffer of at least [batch_size] transitions holds no
    default-constructed tensors. *)
Lemma full_batch buf sample :
  sampler_ok sample → batch_size <= zlen buf →
  ExperienceReplay.sample_queue [] (sample buf) batch_size = sample buf.
Proof.
  intros Hs Hb. destruct (Hs buf) as [_ Hl]. unfold ExperienceReplay.sample_queue.
  unfold batch_size, zlen in *. rewrite take_ge by lia.
  replace (_ - length (sample buf))%nat with 0%nat by lia. apply app_nil_r.
Qed.

(** The loss of a full batch is computed, and nothing but the gradients changes. *)
Lemma compute_td_loss_total st sample :
  fresh (network st) → fresh (target_network st) →
  Forall transition_ok (ExperienceReplay.buffer (buffer st)) →
  batch_size <= zlen (ExperienceReplay.buffer (buffer st)) → sampler_ok sample →
  ∃ loss g, compute_td_loss st sample =
    Ok (mk_state (buffer st) (network st) (target_network st) (grad_enabled st) (episode_reward st)
          (old_duration st) (episode st) (a st) (state_tensor st) (csv_file st) g, loss).
Proof.
  intros Hn Ht Hok Hlen Hs. unfold compute_td_loss. rewrite full_batch by done.
  destruct (td_terms_total st (sample (ExperienceReplay.buffer (buffer st)))) as [terms ->]; [done|done| |].
  { destruct (Hs (ExperienceReplay.buffer (buffer st))) as [Hsub _]. by eapply Forall_sublist. }
  cbn [mbind result_bind loss_value].
  match goal with |- context [backward ?l ?ls ?b ?g] =>
    destruct (backward_required l ls b g ltac:(done)) as [g' ->] end. cbn [mbind result_bind].
  rewrite (fresh_registered _ Hn), adam_step_empty. destruct Hn as [w ->]. eexists _, g'. done.
Qed.

Lemma newest_Forall {A} (P : A → Prop) n l : Forall P l → Forall P (ExperienceReplay.newest n l).
Proof. intros. by apply Forall_drop. Qed.

Lemma zlen_newest {A} n (l : list A) : 0 <= n → zlen (ExperienceReplay.newest n l) = Z.min n (zlen l).
Proof. intros Hn. unfold ExperienceReplay.newest, zlen. rewrite length_drop. lia. Qed.

Lemma choose_total st new_state epsilon r1 r2 :
  fresh (network st) → zlen new_state = 3 → ∃ o, choose st new_state epsilon r1 r2 = Ok o.
Proof.
  intros Hn Hx. unfold choose. case_match.
  - destruct (vec_at_Some legal_actions (r2 mod zlen legal_actions)) as (o & -> & _); [|eauto].
    change (zlen legal_actions) with 4. lia.
  - destruct (act_range (network st) new_state Hn Hx) as (i & -> & Hi). cbn [mbind result_bind].
    destruct (vec_at_Some legal_actions i) as (o & -> & _); [done|eauto].
Qed.

Lemma zlen_csv (rows : list csv_row) n row : 0 <= n → zlen rows = n / 100 →
  zlen (if (n + 1) mod 100 =? 0 then rows ++ [row] else rows) = (n + 1) / 100.
Proof.
  intros Hn Hz. destruct (Z.eqb_spec ((n + 1) mod 100) 0); [rewrite zlen_app; change (zlen [row]) with 1|]; lia.
Qed.

Lemma train_total n st en ps du dn r1 r2 sample :
  inv n st → 0 <= n < 2 ^ 31 - 1 → sampler_ok sample →
  ∃ st', train st en ps du dn r1 r2 sample = Ok st' ∧ inv (n + 1) st' ∧
    network st' = network st ∧ target_network st' = target_network st.
Proof.
  intros (Hn & Ht & Hst & Hc & Hok & He & Hlen & Hg & Hcsv) Hr Hs. unfold train.
  rewrite He, sadd_Ok by lia_fits. cbn [mbind result_bind].
  destruct (choose_total st [en; ps; du] (epsilon_by_frame (n + 1)) r1 r2 Hn ltac:(done)) as [o ->].
  cbn [mbind result_bind]. rewrite ExperienceReplay.push_spec by (rewrite Hc; lia_fits).
  cbn [mbind result_bind]. rewrite Hc.
  set (buf := ExperienceReplay.newest 3000 _). set (row := mk_row _ _ _ _).
  pose proof (zlen_csv (csv_file st) n row ltac:(lia) Hcsv) as Hcsv'. set (csv := if _ : bool then _ else _) in *. clearbody csv.
  assert (Hok' : Forall transition_ok buf).
  { apply newest_Forall, Forall_app; split; [done|]. constructor; [|done].
    split; [done|]. split; [done|]. repeat split; eexists; done. }
  assert (Hlen' : zlen buf = Z.min (n + 1) 3000).
  { unfold buf. rewrite zlen_newest, zlen_app, Hlen by lia. change (zlen [_]) with 1. lia. }
  destruct (Z.eqb_spec ((n + 1) mod 1000) 0).
  - destruct (compute_td_loss_total
      (mk_state (ExperienceReplay.mk_state 3000 buf) (network st) (target_network st) (grad_enabled st)
         (f32_add (episode_reward st) (f32_sub (old_duration st) du)) du (n + 1) o [en; ps; du] csv (gradients st)) sample)
      as (loss & g & HE); [done|done|done|cbn [buffer ExperienceReplay.buffer]; rewrite Hlen'; unfold batch_size; lia|done|].
    rewrite HE. cbn [mbind result_bind network target_network].
    rewrite loadstatedict_target_empty by by apply fresh_registered.
    eexists. split; [done|]. split; [|done]. repeat (split; [done|]). split; [symmetry; apply Z.ltb_ge; lia|done].
  - eexists. split; [done|]. split; [|done]. repeat (split; [done|]). split; [|done].
    cbn [grad_enabled]. rewrite Hg. destruct (Z.ltb_spec n 1000), (Z.ltb_spec (n + 1) 1000); (done || lia).
Qed.

Lemma trainer_init_inv w w' : inv 0 (init w w').
Proof. split; [by eexists|]. split; [by eexists|]. repeat split; done. Qed.

End total.

(** ** Actions: what is stored against what the network chooses *)

(** The row position the loss trains for a stored action. *)
Definition trained_index (o : compression_options) : result Z :=
  to_int [f32_of_Z (option_value o)].

(** The action the network's choice of a row position stands for. *)
Definition chosen_action (i : Z) : result compression_options := vec_at legal_actions i.

(** *** Sequences of training steps *)

Record input := mk_input {
  in_entropy : spec_float; in_size : spec_float; in_duration : spec_float; in_done : bool;
  in_rand1 : Z; in_rand2 : Z; in_sample : sampler }.

Definition train_on (st : state) (i : input) : result state :=
  train st (in_entropy i) (in_size i) (in_duration i) (in_done i)
    (in_rand1 i) (in_rand2 i) (in_sample i).

Section training.
Context {ts : TorchSpec}.

Lemma training_total l : ∀ n st,
  inv n st → 0 <= n → n + zlen l <= 2 ^ 31 - 1 →
  Forall (λ i, sampler_ok (in_sample i)) l →
  ∃ st', fold_result train_on st l = Ok st' ∧ inv (n + zlen l) st' ∧
    network st' = network st ∧ target_network st' = target_network st.
Proof.
  induction l as [|i l IH]; intros n st Hi Hn Hl Hs; cbn [fold_result].
  - exists st. change (zlen []) with 0. by rewrite Z.add_0_r.
  - inversion_clear Hs as [|?? Hs1 Hs2]. rewrite zlen_cons in Hl |- *. pose proof (zlen_nonneg l).
    destruct (train_total n st (in_entropy i) (in_size i) (in_duration i) (in_done i)
                (in_rand1 i) (in_rand2 i) (in_sample i) Hi ltac:(lia) Hs1) as (st1 & HT & Hi1 & H1 & H2).
    assert (train_on st i = Ok st1) as -> by exact HT. cbn [mbind result_bind].
    destruct (IH (n + 1) st1 Hi1 ltac:(lia) ltac:(lia) Hs2) as (st2 & -> & Hi2 & HN & HT2).
    exists st2. rewrite Z.add_assoc. split; [done|]. split; [done|]. by rewrite HN, HT2, H1, H2.
Qed.
End training.

End trainer.
Arguments state : clear implicits.
Arguments state {_}.

(** ** A concrete instance for evaluation: linear layers whose weights are zero,
    so that a layer is its bias. *)
Definition position_of_max (l : list spec_float) : Z :=
  (foldl (λ acc x, let '(best, at_, i) := acc in
            if SFltb best x then (x, i, i + 1) else (best, at_, i + 1))
     (S754_infinity true, 0, 0) l).1.2.

(** The bias, cut or filled up with zeros. *)
Definition sized (o : Z) (b : list spec_float) : list spec_float :=
  take (Z.to_nat o) (b ++ replicate (Z.to_nat o) zero).

(** A gradient is the list of the losses it was computed for. *)
Definition bias_torch : Torch := {|
  weights := list spec_float;
  layer := Z * Z * list spec_float;
  make_linear i o b := (i, o, b);
  apply_layer l x := if zlen x =? l.1.1 then Ok (sized (Z.max 0 l.1.2) l.2) else Fault InvalidArgument;
  relu l := map (λ x, if SFltb x zero then zero else x) l;
  argmax := position_of_max;
  mse_loss l l' := foldl f32_add zero (zip_with (λ x y, f32_mul (f32_sub x y) (f32_sub x y)) l l');
  tensor := list spec_float;
  gradient := list spec_float;
  no_gradient := [];
  zero_grad p g := match map_to_list p with [] => g | _ => [] end;
  backward loss _ _ g := if requires_grad loss then Ok (g ++ [loss_value loss]) else Fault InvalidArgument;
  adam_step p _ := p;
  exp64 _ := zero;
|}.

Lemma position_of_max_range l : l ≠ [] → 0 <= position_of_max l < zlen l.
Proof.
  assert (H : ∀ l b p i, 0 <= p <= i → (p < i ∨ l ≠ []) → p = 0 ∨ p < i →
    0 <= (foldl (λ acc x, let '(best, at_, i) := acc in
            if SFltb best x then (x, i, i + 1) else (best, at_, i + 1)) (b, p, i) l).1.2 < i + zlen l).
  { clear l. induction l as [|x l IH]; intros b p i H1 H2 H3; cbn [foldl].
    - change (zlen []) with 0. simpl. destruct H2; [lia|done].
    - rewrite zlen_cons, Z.add_assoc. case_match; apply IH; lia. }
  intros Hl. apply (H l (S754_infinity true) 0 0); [lia|by right|by left].
Qed.

#[export] Instance bias_torch_spec : TorchSpec (tr := bias_torch).
Proof.
  constructor.
  - intros i o w x Ho Hx. exists (sized o w). cbn. rewrite Hx, Z.eqb_refl, Z.max_r by done. split; [done|].
    unfold zlen, sized. rewrite length_take, length_app, length_replicate. lia.
  - intros i o w x Hx. cbn. by rewrite (proj2 (Z.eqb_neq _ _) Hx).
  - intros x. unfold zlen. cbn. by rewrite length_map.
  - apply position_of_max_range.
  - intros loss ls batch g Hl. cbn. rewrite Hl. by eexists.
  - done.
Qed.

Definition example_weights : initial_weights (tr := bias_torch) :=
  mk_weights (tr := bias_torch) [] [] [] (f32_of_Z <$> [1; 2; 9; 4]).

(** ** Properties *)



(** The second of two batches is trained on without recording, and without
    [set_requires_grad] it could not be: the gradients of a loss that does not require
    them are refused. *)
Example second_batch :
  let i := mk_input zero zero zero false 5 6 (take 32) in
  fold_result (train_on (tr := bias_torch)) (init example_weights example_weights) (replicate 2000 i) ≫=
    (λ st, Ok (grad_enabled st, zlen (gradients (tr := bias_torch) st : list spec_float))) = Ok (false, 2) ∧
  backward (Torch := bias_torch) (mk_loss zero false) [] [] [] = Fault InvalidArgument.
Proof. split; vm_compute; reflexivity. Qed.

(** The position of the network's output the loss trains for a chosen action
    is the position that stands for that action for NONE and BFP only: [train]
    stores the enumerator's value, while the choice goes through the order of
    [legal_actions], in which LZ77 and RLE are the other way round. *)
Theorem trained_action_mismatch i o :
  chosen_action i = Ok o → (trained_index o = Ok i ↔ o = NONE ∨ o = BFP).
Proof.
  unfold chosen_action, vec_at. case_Z; [|done].
  destruct (Z.to_nat i) as [|[|[|[|n]]]] eqn:Hi; cbn; intros Hc; try discriminate; injection Hc as <-;
    (split; [intros Ht; vm_compute in Ht; (injection Ht as Hj; lia) || auto
            |intros [|]; try discriminate; vm_compute; f_equal; lia]).
Qed.

Lemma trained_action_mismatch_witness : trained_index LZ77 ≠ Ok 2.
Proof.
  intros H. destruct (proj1 (trained_action_mismatch 2 LZ77 ltac:(reflexivity)) H); discriminate.
Defined.

End Trainer.
