(* ===== verification/Selector.v ===== *)
(** * Selector: what the sender's loop asks of a compression selector

    The sender only reads the current option and reports the measurements of
    each frame.  [SelectorSpec] is the promise its theorems rest on: reports of
    sane measurements never fail, for as long as the [int] frame counter lasts. *)

From S2P Require Export IqConv Float.

(** [C] is the selector's state, [E] the environment of one update (random
    draws). *)
Class Selector (C E : Type) := {
  sel_get : C → compression_options;
  sel_update : C → Z → Z → Z → spec_float → spec_float → bool → E → result C;
}.

(** Durations are microseconds; 2^54 of them are more than five centuries. *)
Class SelectorSpec (C E : Type) {sel : Selector C E} := {
  sel_inv : Z → C → Prop;
  sel_env_ok : E → Prop;
  sel_update_total n c frame cc ct en ps dn e :
    sel_inv n c → 0 <= n < 2 ^ 31 - 1 → 0 <= cc <= 2 ^ 54 → 0 <= ct <= 2 ^ 54 →
    sel_env_ok e →
    ∃ c', sel_update c frame cc ct en ps dn e = Ok c' ∧ sel_inv (n + 1) c';
}.
