(* ===== verification/Controller.v ===== *)
(** * Controller: dispatch between the two selectors

    Models class [d_compression::controller] (include/d_compression/controller.h):
    the configured algorithm name decides which selector is updated and asked. *)

From S2P Require Export Trainer.
From S2P Require Export Selector.

Module controller.
Section controller.
Context {tr : Torch}.
Context (hash_order : iq_state_machine.durations → list (compression_options * Z)).

Record state := mk_state {
  algorithm_type : string;
  state_machine : iq_state_machine.state;
  trainer : Trainer.state;
}.

(** [controller(algorithm_type_, interval_)]. *)
Definition init (algorithm : string) (interval : Z) (w w' : Trainer.initial_weights) : state :=
  mk_state algorithm (iq_state_machine.init interval) (Trainer.init w w').

(** The environment of one call: two [rand()] results and the choice
    [std::sample] makes. *)
Record env := mk_env { rand1 : Z; rand2 : Z; sample : Trainer.sampler }.

Definition update (st : state) (frame_index current_compression current_transmission : Z)
    (shannon_entropy packet_size : spec_float) (done : bool) (e : env) : result state :=
  if String.eqb (algorithm_type st) "state_machine" then
    sm ← iq_state_machine.update hash_order (state_machine st) frame_index
           current_compression current_transmission (rand1 e) (rand2 e);
    Ok (mk_state (algorithm_type st) sm (trainer st))
  else if String.eqb (algorithm_type st) "dqn" then
    duration ← sadd 64 current_compression current_transmission;
    t ← Trainer.train (trainer st) shannon_entropy packet_size (f32_of_Z duration) done
          (rand1 e) (rand2 e) (sample e);
    Ok (mk_state (algorithm_type st) (state_machine st) t)
  else Ok st.

Definition get_current_state (st : state) : compression_options :=
  if String.eqb (algorithm_type st) "state_machine" then
    iq_state_machine.get_current_state (state_machine st)
  else if String.eqb (algorithm_type st) "dqn" then
    Trainer.get_current_state (trainer st)
  else NONE.

(** The algorithm name never changes, an update touches only the selector the
    name selects, the option read afterwards is that selector's, and with any
    other name nothing is ever updated and the option stays NONE. *)
Theorem controller_dispatch st fi cc ct en ps dn e st' :
  update st fi cc ct en ps dn e = Ok st' →
  algorithm_type st' = algorithm_type st ∧
  (algorithm_type st = "state_machine"%string →
     trainer st' = trainer st ∧
     get_current_state st' = iq_state_machine.current_state (state_machine st')) ∧
  (algorithm_type st = "dqn"%string →
     state_machine st' = state_machine st ∧ get_current_state st' = Trainer.a (trainer st')) ∧
  (algorithm_type st ≠ "state_machine"%string → algorithm_type st ≠ "dqn"%string →
     st' = st ∧ get_current_state st' = NONE).
Proof.
  unfold update, get_current_state. destruct (String.eqb_spec (algorithm_type st) "state_machine") as [Ha|Ha].
  - intros H. inv_result. cbn [algorithm_type trainer state_machine]. rewrite Ha. simpl. naive_solver.
  - destruct (String.eqb_spec (algorithm_type st) "dqn") as [Hb|Hb]; intros H; inv_result;
      cbn [algorithm_type trainer state_machine]; [rewrite Hb; simpl; naive_solver|].
    rewrite (proj2 (String.eqb_neq _ _) Ha), (proj2 (String.eqb_neq _ _) Hb). naive_solver.
Qed.

(** ** The controller is a selector *)

#[export] Instance controller_selector : Selector state env := {
  sel_get := get_current_state;
  sel_update := update;
}.

Context {ts : Trainer.TorchSpec}.

Definition inv (n : Z) (st : state) : Prop :=
  iq_state_machine.sane n (state_machine st) ∧
  ∃ m, 0 <= m <= n ∧ Trainer.inv m (trainer st).

Definition env_ok (e : env) : Prop := Trainer.sampler_ok (sample e).

Lemma sane_mono n st : iq_state_machine.sane n st → iq_state_machine.sane (n + 1) st.
Proof. unfold iq_state_machine.sane. intros (? & ? & ? & ?). split_and!; done || lia. Qed.

Lemma controller_update_total n c frame cc ct en ps dn e :
  inv n c → 0 <= n < 2 ^ 31 - 1 → 0 <= cc <= 2 ^ 54 → 0 <= ct <= 2 ^ 54 → env_ok e →
  ∃ c', update c frame cc ct en ps dn e = Ok c' ∧ inv (n + 1) c'.
Proof.
  intros [Hs (m & Hm & Ht)] Hn Hc Hc' He. unfold update. case_match; [|case_match].
  - destruct (iq_state_machine.selector_update_total hash_order n (state_machine c)
      (iq_state_machine.mk_input frame cc ct (rand1 e) (rand2 e))) as (sm & HU & Hsm); [done|lia|done..|].
    unfold iq_state_machine.update_on in HU. cbn in HU. rewrite HU. cbn [mbind result_bind].
    eexists. split; [done|]. split; [done|]. exists m. split; [lia|done].
  - rewrite sadd_Ok by (unfold_fits; lia). cbn [mbind result_bind].
    destruct (Trainer.train_total m (trainer c) en ps (f32_of_Z (cc + ct)) dn (rand1 e) (rand2 e) (sample e))
      as (t & -> & Ht' & _); [done|lia|done|]. cbn [mbind result_bind].
    eexists. split; [done|]. split; [by apply sane_mono|]. exists (m + 1). split; [lia|done].
  - eexists. split; [done|]. split; [by apply sane_mono|]. exists m. split; [lia|done].
Qed.

#[export] Instance controller_selector_spec : SelectorSpec state env := {
  sel_inv := inv;
  sel_env_ok := env_ok;
  sel_update_total := controller_update_total;
}.

Lemma controller_init_inv algorithm interval w w' :
  interval ≠ 0 → inv 0 (init algorithm interval w w').
Proof.
  intros Hi. split; [by apply iq_state_machine.init_sane|].
  exists 0. split; [lia|]. apply Trainer.trainer_init_inv.
Qed.

End controller.
Arguments state : clear implicits.
Arguments state {_}.

(** An update of the state machine that leaves the trainer alone. *)
Lemma controller_dispatch_witness :
  let c := init (tr := Trainer.bias_torch) "state_machine" 1 Trainer.example_weights Trainer.example_weights in
  ∃ st', update (tr := Trainer.bias_torch) map_to_list c 1 5 6 (S754_zero false) (S754_zero false) false
      (mk_env 2147483647 0 (take 32)) = Ok st' ∧
    trainer st' = trainer c.
Proof.
  intros c.
  destruct (controller_update_total (tr := Trainer.bias_torch) (ts := Trainer.bias_torch_spec) map_to_list 0 c 1 5 6 (S754_zero false) (S754_zero false)
    false (mk_env 2147483647 0 (take 32))) as (st' & HU & _).
  1: by apply (controller_init_inv (tr := Trainer.bias_torch)).
  1-3: lia.
  { intros buf. cbn [sample]. split; [apply sublist_take|]. unfold zlen, Trainer.batch_size. rewrite length_take. lia. }
  exists st'. split; [exact HU|].
  apply (controller_dispatch (tr := Trainer.bias_torch) map_to_list c 1 5 6 (S754_zero false) (S754_zero false) false
      (mk_env 2147483647 0 (take 32)) st' HU). reflexivity.
Defined.
End controller.
