(* ===== verification/Sender.v ===== *)
(** * Sender: the transmitting program

    Models sender/main.cpp: class [buffer_reader], the command line, the body of
    the transmit loop and the loop.  The selector, the socket and zlib are used
    through their interfaces; the clock readings of a frame (two durations in
    microseconds) and the selector's random draws are inputs of an iteration. *)

From S2P Require Export Bfp Rle Lz77 Channel Selector.
From Stdlib Require Import Ascii.

(** ** [class buffer_reader] *)
Module buffer_reader.

(** The [std::ifstream] is the file's content, a position and two state bits. *)
Record state := mk_state {
  count : Z;
  max_buffer_size : Z;
  content : list Z;
  pos : Z;
  eofbit : bool;
  failbit : bool;
}.

Definition default_max_buffer_size : Z := 20240.

(** The constructor, on a file that could be opened. *)
Definition init (file : list Z) (count_ max_ : Z) : state :=
  mk_state count_ max_ file 0 false false.

(** [file_stream.read(data, n)]: the bytes extracted and the stream after it.  A
    stream that is not good extracts nothing; a short read sets eof and fail. *)
Definition stream_read (r : state) (n : Z) : list Z * state :=
  if eofbit r || failbit r then
    ([], mk_state (count r) (max_buffer_size r) (content r) (pos r) (eofbit r) true)
  else
    let got := take (Z.to_nat n) (drop (Z.to_nat (pos r)) (content r)) in
    let short := zlen got <? n in
    (got, mk_state (count r) (max_buffer_size r) (content r) (pos r + zlen got) short short).

(** [read_buffer]: the recursion ends because each call consumes one of [count]. *)
Fixpoint read_buffer_loop (fuel : nat) (r : state) : result (list Z * state) :=
  if count r <=? 0 then Ok ([], r) else
  match fuel with
  | O => Fault OutOfFuel
  | S fuel =>
      let '(got, r) := stream_read r (max_buffer_size r) in
      if 0 <? zlen got then Ok (got, r)
      else
        let r := mk_state (count r - 1) (max_buffer_size r) (content r) (pos r) (eofbit r) (failbit r) in
        let r := if eofbit r
                 then mk_state (count r) (max_buffer_size r) (content r) 0 false false
                 else r in
        read_buffer_loop fuel r
  end.

Definition read_buffer (r : state) : result (list Z * state) :=
  read_buffer_loop (Z.to_nat (count r)) r.

(** *** What is still to be read *)

Definition wf (r : state) : Prop :=
  0 < max_buffer_size r ∧ 0 <= pos r <= zlen (content r) ∧ eofbit r = failbit r ∧
  bytes_ok (content r).

Definition to_read (r : state) : list Z :=
  if count r <=? 0 then [] else
  (if eofbit r then [] else drop (Z.to_nat (pos r)) (content r)) ++
  mjoin (replicate (Z.to_nat (count r) - 1) (content r)).

Lemma to_read_init file n max :
  to_read (init file n max) = mjoin (replicate (Z.to_nat n) file).
Proof.
  unfold to_read, init. cbn [count eofbit pos content].
  destruct (Z.leb_spec n 0).
  - by replace (Z.to_nat n) with 0%nat by lia.
  - by replace (Z.to_nat n) with (S (Z.to_nat n - 1)) at 2 by lia.
Qed.

Lemma init_wf file n max : 0 < max → bytes_ok file → wf (init file n max).
Proof. intros. repeat split; try done. apply zlen_nonneg. Qed.

(** Finishing a pass over the file. *)
Lemma to_read_rewind r :
  0 < count r → eofbit r = true →
  to_read r =
  to_read (mk_state (count r - 1) (max_buffer_size r) (content r) 0 false false).
Proof.
  intros Hc He. unfold to_read. cbn [count eofbit pos content]. rewrite He.
  rewrite (proj2 (Z.leb_gt _ _) Hc). rewrite app_nil_l. case_Z.
  - by replace (Z.to_nat (count r) - 1)%nat with 0%nat by lia.
  - replace (Z.to_nat (count r) - 1)%nat with (S (Z.to_nat (count r - 1) - 1)) by lia. done.
Qed.

(** A good stream that still has data delivers a prefix of what is to be read. *)
Lemma stream_read_good r got r' :
  wf r → 0 < count r → eofbit r = false → stream_read r (max_buffer_size r) = (got, r') →
  wf r' ∧ count r' = count r ∧ max_buffer_size r' = max_buffer_size r ∧
  to_read r = got ++ to_read r' ∧ bytes_ok got ∧ zlen got <= max_buffer_size r ∧
  (zlen got = 0 → eofbit r' = true).
Proof.
  intros (Hm & Hp & Hef & Hb) Hc He HR. unfold stream_read in HR. rewrite <- Hef, He in HR.
  cbn [orb] in HR. injection HR as <- <-. cbn [count max_buffer_size content pos eofbit failbit].
  set (rest := drop (Z.to_nat (pos r)) (content r)).
  set (got := take (Z.to_nat (max_buffer_size r)) rest).
  assert (Hr : zlen rest = zlen (content r) - pos r) by (unfold rest, zlen in *; rewrite length_drop; lia).
  assert (Hg : zlen got = Z.min (max_buffer_size r) (zlen rest))
    by (unfold got, zlen in *; rewrite length_take; lia).
  pose proof (zlen_nonneg rest).
  split_and!; try lia; try done.
  - unfold wf. cbn [count max_buffer_size content pos eofbit failbit]. split_and!; try lia; done.
  - unfold to_read. cbn [count eofbit pos content]. rewrite He, (proj2 (Z.leb_gt _ _) Hc).
    rewrite app_assoc. f_equal. fold rest. case_Z.
    + unfold got. rewrite app_nil_r, take_ge; [done|]. unfold zlen in *. lia.
    + rewrite <- (take_drop (Z.to_nat (max_buffer_size r)) rest) at 1. f_equal. unfold rest.
      rewrite drop_drop. f_equal. lia.
  - by apply Forall_take, Forall_drop.
Qed.

(** [read_buffer] returns the next piece, and an empty one only at the end. *)
Lemma read_buffer_loop_spec fuel : ∀ r,
  wf r → count r <= Z.of_nat fuel →
  ∃ b r', read_buffer_loop fuel r = Ok (b, r') ∧ wf r' ∧
    max_buffer_size r' = max_buffer_size r ∧
    to_read r = b ++ to_read r' ∧ bytes_ok b ∧ zlen b <= max_buffer_size r ∧
    (b = [] → to_read r = []).
Proof.
  induction fuel as [|fuel IH]; intros r Hwf Hf; cbn [read_buffer_loop].
  { rewrite (proj2 (Z.leb_le _ _)) by lia. exists [], r. split; [done|].
    pose proof Hwf as (Hm & _). split_and!; try done; change (zlen []) with 0; try lia.
    intros _. unfold to_read. by rewrite (proj2 (Z.leb_le _ _)) by lia. }
  destruct (Z.leb_spec (count r) 0).
  { exists [], r. split; [done|]. pose proof Hwf as (Hm & _).
    split_and!; try done; change (zlen []) with 0; try lia.
    intros _. unfold to_read. by rewrite (proj2 (Z.leb_le _ _)) by lia. }
  destruct (stream_read r (max_buffer_size r)) as [got r1] eqn:HR.
  assert (Hnext : ∀ r2, wf r2 → count r2 = count r → max_buffer_size r2 = max_buffer_size r →
    eofbit r2 = true → to_read r = to_read r2 →
    ∃ b r', read_buffer_loop fuel
      (mk_state (count r2 - 1) (max_buffer_size r2) (content r2) 0 false false) = Ok (b, r') ∧ wf r' ∧
      max_buffer_size r' = max_buffer_size r ∧ to_read r = b ++ to_read r' ∧ bytes_ok b ∧
      zlen b <= max_buffer_size r ∧ (b = [] → to_read r = [])).
  { intros r2 Hwf2 Hc2 Hm2 He2 ->. rewrite to_read_rewind by (done || lia).
    rewrite <- Hm2. apply (IH (mk_state (count r2 - 1) (max_buffer_size r2) (content r2) 0 false false));
      [|cbn [count]; lia].
    destruct Hwf2 as (? & ? & ? & ?). unfold wf.
    cbn [count max_buffer_size content pos eofbit failbit]. split_and!; try done. apply zlen_nonneg. }
  destruct (eofbit r) eqn:He.
  - unfold stream_read in HR. rewrite He in HR. cbn [orb] in HR. injection HR as <- <-.
    change (0 <? zlen []) with false. cbn [count max_buffer_size content pos eofbit failbit].
    apply (Hnext r); try done.
  - destruct (stream_read_good r got r1 Hwf ltac:(lia) He HR) as (Hwf1 & Hc1 & Hm1 & Ht & Hb & Hl & He1).
    destruct (Z.ltb_spec 0 (zlen got)).
    + exists got, r1. split; [done|]. split_and!; try done. intros ->. change (zlen []) with 0 in *. lia.
    + pose proof (zlen_nonneg got). specialize (He1 ltac:(lia)).
      cbn [count max_buffer_size content pos eofbit failbit]. rewrite He1.
      assert (got = []) as ->.
      { destruct got; [done|]. rewrite zlen_cons in *. pose proof (zlen_nonneg got). lia. }
      by apply (Hnext r1).
Qed.

Lemma read_buffer_spec r : wf r →
  ∃ b r', read_buffer r = Ok (b, r') ∧ wf r' ∧ max_buffer_size r' = max_buffer_size r ∧
    to_read r = b ++ to_read r' ∧ bytes_ok b ∧ zlen b <= max_buffer_size r ∧
    (b = [] → to_read r = []).
Proof. intros Hwf. apply read_buffer_loop_spec; [done|]. lia. Qed.

(** *** Property *)

(** [n] successive calls. *)
Fixpoint read_n (n : nat) (r : state) : result (list (list Z) * state) :=
  match n with
  | O => Ok ([], r)
  | S n => '(b, r) ← read_buffer r; '(bs, r) ← read_n n r; Ok (b :: bs, r)
  end.

Lemma read_n_spec n : ∀ r, wf r →
  ∃ bs r', read_n n r = Ok (bs, r') ∧ to_read r = mjoin bs ++ to_read r' ∧ length bs = n ∧
    Forall (λ b, zlen b <= max_buffer_size r) bs ∧
    (zlen (to_read r) < Z.of_nat n → last bs = Some [] ∧ to_read r' = []).
Proof.
  induction n as [|n IH]; intros r Hw; cbn [read_n].
  - exists [], r. split; [done|]. split; [done|]. split; [done|]. split; [constructor|].
    pose proof (zlen_nonneg (to_read r)). lia.
  - destruct (read_buffer_spec r Hw) as (b & r1 & -> & Hw1 & Hm & Hs & _ & Hl & He).
    cbn [mbind result_bind]. destruct (IH r1 Hw1) as (bs & r2 & -> & Hs2 & Hlen & Hf & Hlast).
    cbn [mbind result_bind]. exists (b :: bs), r2. split; [done|]. split_and!.
    + rewrite Hs, Hs2. simpl. by rewrite app_assoc.
    + simpl. by rewrite Hlen.
    + constructor; [done|]. by rewrite Hm in Hf.
    + intros Hn. destruct b as [|x b].
      * specialize (He eq_refl). rewrite He in Hs. symmetry in Hs. apply app_eq_nil in Hs as [_ Hs].
        rewrite Hs in *. symmetry in Hs2. apply app_eq_nil in Hs2 as [_ Hs2].
        split; [|done]. destruct n as [|n].
        -- by destruct bs.
        -- destruct (Hlast ltac:(change (zlen []) with 0; lia)) as [HL _].
           destruct bs; [done|]. done.
      * rewrite Hs, zlen_app, zlen_cons in Hn. pose proof (zlen_nonneg b).
        destruct (Hlast ltac:(lia)) as [HL Hr]. split; [|done]. by destruct bs.
Qed.

(** C11: reading until an empty buffer comes back delivers the whole file [count]
    times and nothing else, in pieces of at most [max_buffer_size] bytes: the
    rewind at the end of the file loses and repeats nothing, and one more call
    than there are bytes is enough. *)
Theorem reader_delivers file count_ max n :
  0 < max → bytes_ok file →
  zlen (mjoin (replicate (Z.to_nat count_) file)) < Z.of_nat n →
  ∃ bs r', read_n n (init file count_ max) = Ok (bs, r') ∧
    mjoin bs = mjoin (replicate (Z.to_nat count_) file) ∧
    Forall (λ b, zlen b <= max) bs ∧ last bs = Some [].
Proof.
  intros Hm Hb Hn. destruct (read_n_spec n (init file count_ max)) as (bs & r' & HR & Hs & _ & Hf & Hl).
  - by apply init_wf.
  - rewrite to_read_init in Hs, Hl. destruct (Hl Hn) as [HL Hr]. rewrite Hr, app_nil_r in Hs.
    exists bs, r'. done.
Qed.

Lemma reader_delivers_witness :
  ∃ bs r', read_n 11 (init [1; 2; 3; 4; 5] 2 3) = Ok (bs, r') ∧
    mjoin bs = [1; 2; 3; 4; 5; 1; 2; 3; 4; 5] ∧ last bs = Some [].
Proof.
  destruct (reader_delivers [1; 2; 3; 4; 5] 2 3 11) as (bs & r' & HR & HJ & _ & HL);
    [lia|solve_Forall|vm_compute; reflexivity|].
  exists bs, r'. split; [exact HR|]. split; [exact HJ|exact HL].
Defined.

End buffer_reader.

(** ** The command line *)
Module command_line.

Record config := mk_config {
  output_path : string; input_path : string; algo_type : string; tx_count : string }.

Definition defaults : config :=
  mk_config "./output.csv" "../rick.mp4" "state_machine" "10".

(** The loop [for (i = 1; i < argc; i += 2)] on the arguments after the program
    name; [argv[argc]] is a null pointer.  [None] stands for [return -1]. *)
Fixpoint parse (args : list string) (c : config) : result (option config) :=
  match args with
  | [] => Ok (Some c)
  | arg :: rest =>
      let known :=
        if String.eqb arg "--output" || String.eqb arg "-o" then
          Some (λ v, mk_config v (input_path c) (algo_type c) (tx_count c))
        else if String.eqb arg "--algorithm" || String.eqb arg "-a" then
          Some (λ v, mk_config (output_path c) (input_path c) v (tx_count c))
        else if String.eqb arg "--input" || String.eqb arg "-i" then
          Some (λ v, mk_config (output_path c) v (algo_type c) (tx_count c))
        else if String.eqb arg "--tx_count" || String.eqb arg "-c" then
          Some (λ v, mk_config (output_path c) (input_path c) (algo_type c) v)
        else None in
      match known, rest with
      | Some set, v :: rest => parse rest (set v)
      | Some _, [] => Fault NullPointer
      | None, _ => Ok None
      end
  end.

(** [std::stoi]: skips white space, reads an optional sign and decimal digits,
    ignores what follows. *)
Definition is_space (c : Ascii.ascii) : bool :=
  let n := Z.of_N (Ascii.N_of_ascii c) in (n =? 32) || ((9 <=? n) && (n <=? 13)).
Definition digit (c : Ascii.ascii) : option Z :=
  let n := Z.of_N (Ascii.N_of_ascii c) in
  if (48 <=? n) && (n <=? 57) then Some (n - 48) else None.

Fixpoint skip_space (s : list Ascii.ascii) : list Ascii.ascii :=
  match s with c :: s' => if is_space c then skip_space s' else s | [] => [] end.

(** The value of the leading digits, or [None] if there are none. *)
Fixpoint digits (s : list Ascii.ascii) (acc : option Z) : option Z :=
  match s with
  | c :: s => match digit c with
              | Some d => digits s (Some (10 * default 0 acc + d))
              | None => acc
              end
  | [] => acc
  end.

Definition stoi (str : string) : result Z :=
  let s := skip_space (String.list_ascii_of_string str) in
  let '(neg, s) := match s with
                   | "-"%char :: s' => (true, s')
                   | "+"%char :: s' => (false, s')
                   | _ => (false, s)
                   end in
  match digits s None with
  | None => Fault InvalidArgument
  | Some n =>
      let v := if (neg : bool) then - n else n in
      if sfitsb 32 v then Ok v else Fault OutOfRange
  end.

End command_line.

(** ** The transmit loop *)
Module sender.
Section sender.
Context {C E S : Type} {sel : Selector C E} {sk : Socket S} {zl : Zlib}.

(** What the clock and the selector's random draws contribute to a frame. *)
Record env := mk_env { compression_us : Z; transmit_us : Z; sel_env : E }.

Record csv_row := mk_row {
  row_index : Z; row_type : Z; row_length : spec_float; row_ratio : spec_float;
  row_compression : Z; row_transmission : Z;
  row_avg_compression : Z; row_avg_transmission : Z; row_avg_both : Z }.

Record state := mk_state {
  controller : C;
  reader : buffer_reader.state;
  wireless_channel : S;
  frame_index : Z;
  blank_bytes : Z;
  total_compress : Z;
  total_transmit : Z;
  total_both : Z;
  csv_file : list csv_row;
}.

Definition init (c : C) (r : buffer_reader.state) (s : S) : state :=
  mk_state c r s 0 0 0 0 0 [].

(** The [switch] on the current option. *)
Definition apply_compression (o : compression_options) (iqSamples : list cbf16_t)
    (buffer : list Z) : result (list Z) :=
  match o with
  | BFP => bfp_compressor.compress iqSamples
  | RLE => rle_compressor.compress buffer
  | LZ77 => lz77_compressor.compress buffer
  | NONE => Ok buffer
  end.

(** The two [insert(begin(), ...)] calls put the type before the blank count. *)
Definition add_header (o : compression_options) (blank : Z) (buffer : list Z) : list Z :=
  wrap 8 (option_value o) :: wrap 8 blank :: buffer.

(** The message of one buffer of the file, with the compressed length. *)
Definition encode (o : compression_options) (buffer : list Z) : result (list Z) :=
  let '(blank, iqSamples) := iq_conv.to_iq buffer in
  body ← apply_compression o iqSamples (iq_conv.serialize iqSamples);
  Ok (add_header o blank body).

(** One pass of [while (true)]; the flag says that the loop was left. *)
Definition iterate (st : state) (e : env) : result (state * bool) :=
  '(buffer, r) ← buffer_reader.read_buffer (reader st);
  if zlen buffer =? 0 then
    '(_, s) ← channel.send (wireless_channel st) [0];
    Ok (mk_state (controller st) r s (frame_index st) (blank_bytes st) (total_compress st)
          (total_transmit st) (total_both st) (csv_file st), true)
  else
    let '(blank, iqSamples) := iq_conv.to_iq buffer in
    index ← sadd 32 (frame_index st) 1;
    let buffer := iq_conv.serialize iqSamples in
    let uncompressed_buffer_len := f32_of_Z (zlen buffer) in
    let o := sel_get (controller st) in
    buffer ← apply_compression o iqSamples buffer;
    let compressed_buffer_len := f32_of_Z (zlen buffer) in
    '(_, s) ← channel.send (wireless_channel st) (add_header o blank buffer);
    tt ← sadd 64 (total_transmit st) (transmit_us e);
    tc ← sadd 64 (total_compress st) (compression_us e);
    both ← sadd 64 (compression_us e) (transmit_us e);
    tb ← sadd 64 (total_both st) both;
    let avg_transmit := Z.quot tt index in
    let avg_compression := Z.quot tc index in
    let avg_both := Z.quot tb index in
    let comp_ratio := f64_of_f32 (f32_div compressed_buffer_len uncompressed_buffer_len) in
    let row := mk_row index (option_value o) compressed_buffer_len comp_ratio
                 (compression_us e) (transmit_us e) avg_compression avg_transmit avg_both in
    c ← sel_update (controller st) index (compression_us e) (transmit_us e)
          (S754_zero false) compressed_buffer_len
          (SFltb uncompressed_buffer_len (f32_of_Z 20240)) (sel_env e);
    Ok (mk_state c r s index blank tc tt tb (csv_file st ++ [row]), false).

(** The loop on the given inputs; the flag says whether it was left. *)
Fixpoint loop (envs : list env) (st : state) : result (state * bool) :=
  match envs with
  | [] => Ok (st, false)
  | e :: envs =>
      '(st, done) ← iterate st e;
      if (done : bool) then Ok (st, true) else loop envs st
  end.

End sender.
Arguments state : clear implicits.
Arguments env : clear implicits.

(** *** Encoding a buffer *)
Section encode_lemmas.
Context {zl : Zlib} {zs : ZlibSpec}.

Lemma zlen_pair_up inp : zlen (iq_conv.pair_up inp) = (zlen inp + 1) / 2.
Proof.
  induction inp as [|x|x y l IH] using iq_conv.list_pair_ind; [done..|].
  cbn [iq_conv.pair_up]. rewrite !zlen_cons, IH. lia.
Qed.

(** The serialized form has four bytes per input byte (plus padding). *)
Lemma zlen_serialized b : zlen (iq_conv.serialize (iq_conv.to_iq b).2) = 8 * ((zlen b + 1) / 2).
Proof. rewrite iq_conv.zlen_serialize, iq_conv.to_iq_spec. cbn [snd]. by rewrite zlen_pair_up. Qed.

(** Largest body any option produces from a buffer of [n] bytes. *)
Definition body_bound (n : Z) : Z :=
  16 * (n + 1) + 8 + Z.max 0 (compressBound (8 * ((n + 1) / 2))).

Lemma apply_compression_total o b :
  bytes_ok b → zlen b <= 2 ^ 20 →
  ∃ body, apply_compression o (iq_conv.to_iq b).2 (iq_conv.serialize (iq_conv.to_iq b).2) = Ok body ∧
    bytes_ok body ∧ zlen body <= body_bound (zlen b).
Proof.
  intros Hb Hl. set (iq := (iq_conv.to_iq b).2). pose proof (zlen_nonneg b).
  assert (Hs : zlen (iq_conv.serialize iq) = 8 * ((zlen b + 1) / 2)) by apply zlen_serialized.
  assert (Hi : zlen iq = (zlen b + 1) / 2).
  { rewrite iq_conv.zlen_serialize in Hs. lia. }
  pose proof (iq_conv.serialize_bytes iq) as Hsb. unfold_fits. unfold body_bound.
  destruct o; cbn [apply_compression].
  - eexists. split; [done|]. split; [done|]. rewrite Hs. lia.
  - rewrite bfp_compressor.bfp_compress_spec by (rewrite Hi; lia_fits).
    eexists. split; [done|]. rewrite bfp_compressor.compress_prb_from_iq.
    split; [apply iq_conv.from_iq_bytes|]. unfold zlen in *. rewrite iq_conv.length_from_iq. lia.
  - destruct (rle_compressor.rle_compress_spec (iq_conv.serialize iq)) as (runs & -> & Hd & Hc).
    eexists. split; [done|]. split; [apply rle_compressor.flat_ok; by rewrite ?Hd|].
    pose proof (rle_compressor.canonical_size runs Hc) as Hz. rewrite Hd, Hs in Hz. lia.
  - destruct (decide (zlen (iq_conv.serialize iq) = 0)) as [H0|H0].
    + destruct (iq_conv.serialize iq) as [|z l]; [|rewrite zlen_cons in H0; pose proof (zlen_nonneg l); lia].
      eexists. split; [done|]. split; [constructor|]. change (zlen []) with 0. lia.
    + destruct (lz77_compressor.lz77_compress_spec (iq_conv.serialize iq) Hsb) as (w & HE & Hw & _).
      { rewrite Hs in *. lia_fits. }
      eexists. split; [done|]. apply lz77_compressor.compress_bytes in HE; [|done|rewrite Hs; lia_fits].
      destruct HE as [HB HE]. split; [done|]. rewrite Hs in HE |- *. lia.
Qed.

End encode_lemmas.
End sender.
