(* ===== verification/Receiver.v ===== *)
(** * Receiver: the receiving program

    Models receiver/main.cpp: the body of the receive loop and the loop.  The
    output file is the list of bytes written to it. *)

From S2P Require Export Bfp Rle Lz77 Channel.

Module receiver.
Section receiver.
Context {S : Type} {sk : Socket S} {zl : Zlib}.

(** The [switch] on the received compression type: the decoded buffer.  A value
    outside the enumeration leaves the buffer as it is. *)
Definition decode_body (comp_type : option compression_options) (blank_bytes : Z)
    (buffer : list Z) : result (list Z) :=
  match comp_type with
  | Some NONE =>
      iqSamples ← iq_conv.deserialize buffer;
      iq_conv.from_iq iqSamples blank_bytes
  | Some BFP => iq_conv.from_iq (bfp_compressor.decompress buffer) blank_bytes
  | Some RLE =>
      intermediate ← rle_compressor.decompress buffer;
      iqSamples ← iq_conv.deserialize intermediate;
      iq_conv.from_iq iqSamples blank_bytes
  | Some LZ77 =>
      '(_, intermediate) ← lz77_compressor.decompress buffer;
      iqSamples ← iq_conv.deserialize intermediate;
      iq_conv.from_iq iqSamples blank_bytes
  | None => Ok buffer
  end.

(** A message after the end test: [front()] and [erase(begin())] on an empty
    vector are undefined. *)
Definition decode (buffer : list Z) : result (list Z) :=
  match buffer with
  | comp_type :: blank_bytes :: body => decode_body (option_of_value comp_type) blank_bytes body
  | _ => Fault OutOfBounds
  end.

(** [buffer.size() == 1 && buffer[0] == 0] *)
Definition is_end (buffer : list Z) : bool :=
  match buffer with [b] => b =? 0 | _ => false end.

Record state := mk_state { wireless_channel : S; vid_file : list Z }.

Definition init (s : S) : state := mk_state s [].

(** One pass of [while (true)]; the flag says that the loop was left. *)
Definition iterate (st : state) : result (state * bool) :=
  '(buffer, s) ← channel.recv (wireless_channel st);
  if is_end buffer then Ok (mk_state s (vid_file st), true)
  else
    out ← decode buffer;
    Ok (mk_state s (vid_file st ++ out), false).

(** The loop, for at most [n] messages; the flag says whether it was left. *)
Fixpoint loop (n : nat) (st : state) : result (state * bool) :=
  match n with
  | O => Ok (st, false)
  | Datatypes.S n =>
      '(st, done) ← iterate st;
      if (done : bool) then Ok (st, true) else loop n st
  end.

End receiver.
Arguments state : clear implicits.
End receiver.
