(* ===== verification/EndToEnd.v ===== *)
(** * EndToEnd: the sender and the receiver together

    The two programs share one connection.  [step] interleaves their loop bodies
    in any order the blocking calls allow; the invariant says that what has been
    written to the output file, what the messages on the wire decode to and what
    the sender has still to read are, in this order, the transmissions of the
    input file. *)

From S2P Require Export Sender Receiver Controller.

(** ** Every option decodes what it encodes *)
Section codec.
Context {zl : Zlib} {zs : ZlibSpec}.

Lemma decode_samples b (buffer : list Z) :
  bytes_ok b → zlen b <= 2 ^ 20 → buffer = iq_conv.serialize (iq_conv.to_iq b).2 →
  (iqSamples ← iq_conv.deserialize buffer;
   iq_conv.from_iq iqSamples (iq_conv.to_iq b).1) = Ok b.
Proof.
  intros Hb Hl ->. rewrite iq_conv.deserialize_serialize by apply iq_conv.to_iq_ok.
  cbn [mbind result_bind]. apply iq_conv.from_iq_to_iq; [done|]. lia_fits.
Qed.

Lemma decode_encode o b :
  bytes_ok b → zlen b <= 2 ^ 20 →
  ∃ msg, sender.encode o b = Ok msg ∧ receiver.decode msg = Ok b ∧
    receiver.is_end msg = false ∧ bytes_ok msg ∧ zlen msg <= 2 + sender.body_bound (zlen b).
Proof.
  intros Hb Hl. unfold sender.encode.
  destruct (iq_conv.to_iq b) as [blank iq] eqn:E.
  destruct (sender.apply_compression_total o b Hb Hl) as (body & HA & Hok & Hz).
  assert (Hblank : 0 <= blank <= 1).
  { rewrite iq_conv.to_iq_spec in E. injection E as <- _. lia. }
  pose proof (decode_samples b (iq_conv.serialize iq) Hb Hl) as HD.
  pose proof (iq_conv.from_iq_to_iq b Hb ltac:(lia_fits)) as HF.
  rewrite E in HA, HD, HF. cbn [fst snd] in HA, HD, HF. rewrite HA. cbn [mbind result_bind].
  exists (sender.add_header o blank body). split; [done|].
  unfold sender.add_header. rewrite !wrap_small by (destruct o; simpl; lia_fits).
  split; [|split_and!]; [|done| |].
  - cbn [receiver.decode]. rewrite option_of_value_value.
    destruct o; cbn [receiver.decode_body sender.apply_compression] in *.
    + injection HA as <-. by apply HD.
    + rewrite bfp_compressor.bfp_compress_spec in HA.
      * injection HA as <-. rewrite bfp_compressor.decompress_prb.
        2: { pose proof (iq_conv.to_iq_ok b) as Ho. by rewrite E in Ho. }
        rewrite iq_conv.to_iq_spec in E. injection E as _ <-.
        by rewrite bfp_compressor.high_part_pair_up.
      * rewrite iq_conv.to_iq_spec in E. injection E as _ <-.
        rewrite sender.zlen_pair_up. pose proof (zlen_nonneg b). lia_fits.
    + destruct (rle_compressor.rle_compress_spec (iq_conv.serialize iq)) as (runs & HR & Hd & _).
      rewrite HR in HA. injection HA as <-. rewrite rle_compressor.decompress_flat, Hd.
      cbn [mbind result_bind]. by apply HD.
    + assert (Hser : zlen (iq_conv.serialize iq) < 2 ^ 32).
      { pose proof (sender.zlen_serialized b) as Hs. rewrite E in Hs. cbn [snd] in Hs.
        rewrite Hs. lia_fits. }
      pose proof (lz77_compressor.decompress_compress _ (iq_conv.serialize_bytes iq) Hser) as HZ.
      rewrite HA in HZ. cbn [mbind result_bind] in HZ.
      destruct (lz77_compressor.decompress body) as [[rest out]|f]; simpl in HZ; [|done].
      injection HZ as ->. cbn [mbind result_bind]. by apply HD.
  - constructor; [destruct o; simpl; lia_fits|]. constructor; [lia_fits|done].
  - rewrite !zlen_cons. lia.
Qed.

Lemma message_bound (b msg : list Z) :
  zlen b <= 2 ^ 20 → zlen msg <= 2 + sender.body_bound (zlen b) → zlen msg < 2 ^ 32.
Proof.
  intros Hb Hz. pose proof (zlen_nonneg b). unfold sender.body_bound in Hz.
  pose proof (compressBound_range (8 * ((zlen b + 1) / 2)) ltac:(lia_fits)). lia_fits.
Qed.

End codec.

(** ** One iteration of each program *)
Section programs.
Context {C E S : Type} {sel : Selector C E} {ss : SelectorSpec C E}.
Context {sk : Socket S} {sp : SocketSpec S} {zl : Zlib} {zs : ZlibSpec}.

(** A clock reading of at most 2^31 microseconds per frame. *)
Definition env_ok (e : sender.env E) : Prop :=
  0 <= sender.compression_us e <= 2 ^ 31 ∧ 0 <= sender.transmit_us e <= 2 ^ 31 ∧
  sel_env_ok (sender.sel_env e).

(** A message that carries the chunk [b]. *)
Definition carries (msg b : list Z) : Prop :=
  receiver.decode msg = Ok b ∧ receiver.is_end msg = false ∧ zlen msg < 2 ^ 32.

(** The sender after [n] frames. *)
Definition sender_ok (n : Z) (st : sender.state C S) : Prop :=
  0 <= n ∧ sender.frame_index st = n ∧ sel_inv n (sender.controller st) ∧
  buffer_reader.wf (sender.reader st) ∧
  buffer_reader.max_buffer_size (sender.reader st) <= 2 ^ 20 ∧
  0 <= sender.total_compress st <= n * 2 ^ 31 ∧ 0 <= sender.total_transmit st <= n * 2 ^ 31 ∧
  0 <= sender.total_both st <= n * 2 ^ 32.

Lemma zlen_0 {A} (l : list A) : zlen l = 0 ↔ l = [].
Proof.
  split; [|by intros ->]. destruct l; [done|]. rewrite zlen_cons. pose proof (zlen_nonneg l). lia.
Qed.

Lemma sender_last n st e :
  sender_ok n st → buffer_reader.to_read (sender.reader st) = [] →
  ∃ st', sender.iterate st e = Ok (st', true) ∧ sender_ok n st' ∧
    pending (sender.wireless_channel st') = pending (sender.wireless_channel st) ++ channel.frame [0] ∧
    buffer_reader.to_read (sender.reader st') = [].
Proof.
  intros (Hn & Hf & Hc & Hw & Hm & Ht) Hr. unfold sender.iterate.
  destruct (buffer_reader.read_buffer_spec _ Hw) as (b & r & -> & Hw' & Hm' & Hsplit & _ & _ & _).
  rewrite Hr in Hsplit. symmetry in Hsplit. apply app_eq_nil in Hsplit as [-> Hr'].
  cbn [mbind result_bind]. change (zlen [] =? 0) with true. cbn iota.
  destruct (channel.send_spec (sender.wireless_channel st) [0]) as (s' & -> & Hp); [done|].
  cbn [mbind result_bind]. eexists. split; [done|].
  unfold sender_ok. cbn [sender.wireless_channel sender.reader sender.frame_index sender.controller
    sender.total_compress sender.total_transmit sender.total_both].
  rewrite Hm'. split_and!; try done; apply Ht.
Qed.

Lemma sender_frame n st e :
  sender_ok n st → n < 2 ^ 31 - 1 → env_ok e →
  buffer_reader.to_read (sender.reader st) ≠ [] →
  ∃ st' b msg, sender.iterate st e = Ok (st', false) ∧ sender_ok (n + 1) st' ∧ b ≠ [] ∧
    sender.encode (sel_get (sender.controller st)) b = Ok msg ∧ carries msg b ∧
    pending (sender.wireless_channel st') = pending (sender.wireless_channel st) ++ channel.frame msg ∧
    buffer_reader.to_read (sender.reader st) = b ++ buffer_reader.to_read (sender.reader st').
Proof.
  intros (Hn & Hf & Hc & Hw & Hm & Ht1 & Ht2 & Ht3) Hlt (He1 & He2 & He3) Hr. unfold sender.iterate.
  destruct (buffer_reader.read_buffer_spec _ Hw) as (b & r & -> & Hw' & Hm' & Hsplit & Hb & Hl & He).
  cbn [mbind result_bind].
  assert (Hne : b ≠ []) by (intros ->; by apply Hr, He).
  rewrite (proj2 (Z.eqb_neq _ _)) by by rewrite zlen_0.
  destruct (decode_encode (sel_get (sender.controller st)) b Hb ltac:(lia))
    as (msg & Henc & Hdec & Hend & Hok & Hz).
  pose proof (zlen_nonneg b). assert (Hbb : zlen b <= 2 ^ 20) by lia.
  pose proof (message_bound b msg Hbb Hz) as Hmsg.
  pose proof Henc as Henc'. unfold sender.encode in Henc'.
  destruct (iq_conv.to_iq b) as [blank iq]. apply bind_Ok in Henc' as (body & HA & HE).
  injection HE as HE. rewrite Hf, (sadd_Ok 32 n) by lia_fits. cbn [mbind result_bind]. rewrite HA.
  cbn [mbind result_bind]. rewrite HE.
  destruct (channel.send_spec (sender.wireless_channel st) msg Hmsg) as (s' & -> & Hp).
  cbn [mbind result_bind].
  rewrite (sadd_Ok 64 (sender.total_transmit st)) by lia_fits. cbn [mbind result_bind].
  rewrite (sadd_Ok 64 (sender.total_compress st)) by lia_fits. cbn [mbind result_bind].
  rewrite (sadd_Ok 64 (sender.compression_us e)) by lia_fits. cbn [mbind result_bind].
  rewrite (sadd_Ok 64 (sender.total_both st)) by lia_fits. cbn [mbind result_bind].
  match goal with |- context [sel_update ?c ?f ?cc ?ct ?en ?ps ?dn ?ee] =>
    destruct (sel_update_total n c f cc ct en ps dn ee Hc) as (c' & -> & Hc') end;
    [lia|lia_fits|lia_fits|done|]. cbn [mbind result_bind].
  eexists _, b, msg. split; [done|].
  unfold sender_ok. cbn [sender.wireless_channel sender.reader sender.frame_index sender.controller
    sender.total_compress sender.total_transmit sender.total_both].
  rewrite Hm'. split_and!; try done; try lia.
Qed.

Lemma receiver_frame s file msg b rest :
  carries msg b → pending s = channel.frame msg ++ rest →
  ∃ s', receiver.iterate (receiver.mk_state s file) = Ok (receiver.mk_state s' (file ++ b), false) ∧
    pending s' = rest.
Proof.
  intros (Hd & He & Hl) Hp. unfold receiver.iterate. cbn [receiver.wireless_channel].
  destruct (channel.recv_spec s msg rest Hl Hp) as (s' & -> & Hp'). cbn [mbind result_bind].
  rewrite He, Hd. cbn [mbind result_bind receiver.vid_file]. eauto.
Qed.

Lemma receiver_last s file rest :
  pending s = channel.frame [0] ++ rest →
  ∃ s', receiver.iterate (receiver.mk_state s file) = Ok (receiver.mk_state s' file, true) ∧
    pending s' = rest.
Proof.
  intros Hp. unfold receiver.iterate. cbn [receiver.wireless_channel].
  destruct (channel.recv_spec s [0] rest) as (s' & -> & Hp'); [done..|]. cbn [mbind result_bind].
  eauto.
Qed.

(** ** The interleaved system *)

Record system := mk_system {
  tx : sender.state C S; tx_done : bool; out_file : list Z; rx_done : bool }.

Definition connection (sys : system) : S := sender.wireless_channel (tx sys).

Definition set_connection (st : sender.state C S) (s : S) : sender.state C S :=
  sender.mk_state (sender.controller st) (sender.reader st) s (sender.frame_index st)
    (sender.blank_bytes st) (sender.total_compress st) (sender.total_transmit st)
    (sender.total_both st) (sender.csv_file st).

Inductive step : system → system → Prop :=
| step_tx sys e tx' d :
    tx_done sys = false → env_ok e →
    sender.iterate (tx sys) e = Ok (tx', d) →
    step sys (mk_system tx' d (out_file sys) (rx_done sys))
| step_rx sys rx' d :
    rx_done sys = false → pending (connection sys) ≠ [] →
    receiver.iterate (receiver.mk_state (connection sys) (out_file sys)) = Ok (rx', d) →
    step sys (mk_system (set_connection (tx sys) (receiver.wireless_channel rx'))
                (tx_done sys) (receiver.vid_file rx') d).

(** [reach k a b]: [k] steps lead from [a] to [b]. *)
Inductive reach : nat → system → system → Prop :=
| reach_refl sys : reach 0 sys sys
| reach_step k a b c : reach k a b → step b c → reach (Datatypes.S k) a c.

Definition start (c : C) (file : list Z) (count : Z) (s : S) : system :=
  mk_system (sender.init c (buffer_reader.init file count buffer_reader.default_max_buffer_size) s)
    false [] false.

(** What the transmissions amount to: the file, [count] times. *)
Definition transmissions (file : list Z) (count : Z) : list Z :=
  mjoin (replicate (Z.to_nat count) file).

Definition end_mark (tx_finished rx_finished : bool) : list (list Z) :=
  if tx_finished && negb rx_finished then [[0]] else [].

(** The invariant: [chunks] are what the messages in flight carry, [k] the steps
    made so far. *)
Definition inv (total : list Z) (k : nat) (sys : system) : Prop :=
  ∃ n msgs chunks,
    sender_ok n (tx sys) ∧ Forall2 carries msgs chunks ∧
    pending (connection sys) =
      mjoin (channel.frame <$> msgs ++ end_mark (tx_done sys) (rx_done sys)) ∧
    out_file sys ++ mjoin chunks ++ buffer_reader.to_read (sender.reader (tx sys)) = total ∧
    (tx_done sys = true → buffer_reader.to_read (sender.reader (tx sys)) = []) ∧
    (rx_done sys = true → tx_done sys = true ∧ msgs = []) ∧
    n + zlen (buffer_reader.to_read (sender.reader (tx sys))) <= zlen total ∧
    Z.of_nat k + 2 * zlen (buffer_reader.to_read (sender.reader (tx sys)))
      + (if tx_done sys then 0 else 2)
      + zlen (msgs ++ end_mark (tx_done sys) (rx_done sys)) <= 2 * zlen total + 2.

Lemma frame_not_nil msg : channel.frame msg ≠ [].
Proof.
  intros H. apply (f_equal length) in H. unfold channel.frame in H.
  rewrite length_app, length_be_bytes in H. simpl in H. lia.
Qed.

Lemma inv_start c file count s :
  sel_inv 0 c → bytes_ok file → pending s = [] →
  inv (transmissions file count) 0 (start c file count s).
Proof.
  intros Hc Hb Hp. exists 0, [], []. unfold start, connection.
  cbn [tx tx_done out_file rx_done sender.wireless_channel sender.init sender.reader].
  rewrite buffer_reader.to_read_init. fold (transmissions file count).
  pose proof (zlen_nonneg (transmissions file count)).
  split_and!; try done; change (zlen ([] ++ end_mark false false)) with 0; try lia.
  unfold sender_ok. cbn [sender.frame_index sender.controller sender.reader sender.total_compress
    sender.total_transmit sender.total_both sender.init].
  split_and!; try done. by apply buffer_reader.init_wf.
Qed.

Lemma inv_tx total k sys e tx' d :
  zlen total < 2 ^ 31 - 1 → inv total k sys → tx_done sys = false → env_ok e →
  sender.iterate (tx sys) e = Ok (tx', d) →
  inv total (Datatypes.S k) (mk_system tx' d (out_file sys) (rx_done sys)).
Proof.
  intros Hlen (n & msgs & chunks & Hs & Hcar & Hp & Htot & Htx & Hrx & Hn & Hk) Hd He HI.
  assert (Hr : rx_done sys = false).
  { destruct (rx_done sys); [|done]. destruct Hrx as [? _]; [done|congruence]. }
  rewrite Hd, Hr in *. cbn [end_mark andb negb] in *. rewrite !app_nil_r in *.
  destruct (decide (buffer_reader.to_read (sender.reader (tx sys)) = [])) as [H0|H0].
  - destruct (sender_last n (tx sys) e Hs H0) as (st' & HI' & Hs' & Hp' & Hr').
    rewrite HI in HI'. injection HI' as -> ->. exists n, msgs, chunks.
    unfold connection in *. cbn [tx tx_done out_file rx_done end_mark andb negb].
    rewrite H0 in Htot, Hn, Hk. rewrite Hr', Hp', Hp. split_and!; try done.
    + rewrite fmap_app, join_app. simpl. by rewrite app_nil_r.
    + rewrite zlen_app. change (zlen [[0]]) with 1. lia.
  - assert (0 < zlen (buffer_reader.to_read (sender.reader (tx sys)))).
    { pose proof (zlen_nonneg (buffer_reader.to_read (sender.reader (tx sys)))).
      rewrite <- zlen_0 in H0. lia. }
    destruct (sender_frame n (tx sys) e Hs ltac:(lia) He H0)
      as (st' & b & msg & HI' & Hs' & Hb & _ & Hc & Hp' & Hsplit).
    rewrite HI in HI'. injection HI' as -> ->. exists (n + 1), (msgs ++ [msg]), (chunks ++ [b]).
    unfold connection in *. cbn [tx tx_done out_file rx_done end_mark andb negb].
    rewrite !app_nil_r, Hp', Hp. rewrite Hsplit in Htot, Hn, Hk. rewrite zlen_app in Hn, Hk.
    assert (0 < zlen b) by (pose proof (zlen_nonneg b); rewrite <- zlen_0 in Hb; lia).
    rewrite zlen_app. change (zlen [msg]) with 1.
    split_and!; try done; try lia.
    + apply Forall2_app; [done|]. by constructor.
    + rewrite fmap_app, join_app. f_equal. simpl. by rewrite app_nil_r.
    + rewrite join_app. simpl. rewrite app_nil_r, <- !app_assoc. done.
Qed.

Lemma inv_rx total k sys rx' d :
  inv total k sys → rx_done sys = false → pending (connection sys) ≠ [] →
  receiver.iterate (receiver.mk_state (connection sys) (out_file sys)) = Ok (rx', d) →
  inv total (Datatypes.S k) (mk_system (set_connection (tx sys) (receiver.wireless_channel rx'))
                (tx_done sys) (receiver.vid_file rx') d).
Proof.
  intros (n & msgs & chunks & Hs & Hcar & Hp & Htot & Htx & Hrx & Hn & Hk) Hd Hne HI.
  rewrite Hd in *. destruct Hcar as [|msg b msgs chunks Hc Hcar].
  - unfold end_mark in Hp, Hk. rewrite app_nil_l in *. destruct (tx_done sys) eqn:Ht; [|done].
    cbn [andb negb] in *. simpl in Hp.
    destruct (receiver_last (connection sys) (out_file sys) [] Hp) as (s' & HI' & Hp').
    rewrite HI in HI'. injection HI' as -> ->. exists n, [], [].
    unfold connection, end_mark. cbn [tx tx_done out_file rx_done andb negb set_connection
      sender.wireless_channel sender.reader receiver.wireless_channel receiver.vid_file].
    split_and!; try done. change (zlen ([] ++ [])) with 0. change (zlen [[0]]) with 1 in Hk. lia.
  - rewrite <- app_comm_cons, fmap_cons in Hp. simpl in Hp.
    destruct (receiver_frame (connection sys) (out_file sys) msg b _ Hc Hp) as (s' & HI' & Hp').
    rewrite HI in HI'. injection HI' as -> ->. exists n, msgs, chunks.
    unfold connection. cbn [tx tx_done out_file rx_done set_connection
      sender.wireless_channel sender.reader receiver.wireless_channel receiver.vid_file].
    split_and!; try done.
    + rewrite <- Htot. simpl. by rewrite <- !app_assoc.
    + rewrite <- app_comm_cons, zlen_cons in Hk. lia.
Qed.

Lemma inv_reach total k a b :
  zlen total < 2 ^ 31 - 1 → inv total 0 a → reach k a b → inv total k b.
Proof.
  intros Hlen Ha. induction 1 as [|k a b c _ IH Hst]; [done|]. specialize (IH Ha).
  inversion Hst; subst; [by eapply inv_tx|by eapply inv_rx].
Qed.

(** Some program can always move until both are done. *)
Lemma inv_progress total k sys e :
  zlen total < 2 ^ 31 - 1 → inv total k sys → env_ok e →
  tx_done sys = false ∨ rx_done sys = false → ∃ sys', step sys sys'.
Proof.
  intros Hlen Hinv He Hdone. destruct (tx_done sys) eqn:Ht.
  - destruct Hdone as [?|Hr]; [done|].
    destruct Hinv as (n & msgs & chunks & Hs & Hcar & Hp & Htot & Htx & Hrx & Hn & Hk).
    rewrite Ht, Hr in *. cbn [end_mark andb negb] in Hp. destruct Hcar as [|msg b msgs chunks Hc Hcar].
    + simpl in Hp. destruct (receiver_last (connection sys) (out_file sys) [] Hp) as (s' & HI & _).
      eexists. eapply step_rx; [done| |done]. rewrite Hp, app_nil_r. apply frame_not_nil.
    + rewrite <- app_comm_cons, fmap_cons in Hp. simpl in Hp.
      destruct (receiver_frame (connection sys) (out_file sys) msg b _ Hc Hp) as (s' & HI & _).
      eexists. eapply step_rx; [done| |done]. rewrite Hp.
      intros [Hf _]%app_eq_nil. by apply frame_not_nil in Hf.
  - destruct Hinv as (n & msgs & chunks & Hs & _ & _ & _ & _ & _ & Hn & _).
    destruct (decide (buffer_reader.to_read (sender.reader (tx sys)) = [])) as [H0|H0].
    + destruct (sender_last n (tx sys) e Hs H0) as (st' & HI & _). eexists. by eapply step_tx.
    + assert (0 < zlen (buffer_reader.to_read (sender.reader (tx sys)))).
      { pose proof (zlen_nonneg (buffer_reader.to_read (sender.reader (tx sys)))).
        rewrite <- zlen_0 in H0. lia. }
      destruct (sender_frame n (tx sys) e Hs ltac:(lia) He H0) as (st' & b & msg & HI & _).
      eexists. by eapply step_tx.
Qed.

(** ** Executing a schedule: [Some e] lets the sender move, [None] the receiver *)

Definition move (sys : system) (who : option (sender.env E)) : result system :=
  match who with
  | Some e =>
      assume (negb (tx_done sys)) InvalidArgument;;
      '(tx', d) ← sender.iterate (tx sys) e;
      Ok (mk_system tx' d (out_file sys) (rx_done sys))
  | None =>
      assume (negb (rx_done sys) && (0 <? zlen (pending (connection sys)))) InvalidArgument;;
      '(rx', d) ← receiver.iterate (receiver.mk_state (connection sys) (out_file sys));
      Ok (mk_system (set_connection (tx sys) (receiver.wireless_channel rx'))
            (tx_done sys) (receiver.vid_file rx') d)
  end.

Definition who_ok (who : option (sender.env E)) : Prop :=
  match who with Some e => env_ok e | None => True end.

Lemma move_step sys who sys' : who_ok who → move sys who = Ok sys' → step sys sys'.
Proof.
  intros Hw H. destruct who as [e|]; unfold move in H; apply bind_Ok in H as (u & Ha & H).
  - destruct (tx_done sys) eqn:Ht; [done|]. apply bind_Ok in H as ([tx' d] & HI & H).
    injection H as <-. by eapply step_tx.
  - destruct (rx_done sys) eqn:Hr; [done|]. cbn [negb andb] in Ha.
    destruct (Z.ltb_spec 0 (zlen (pending (connection sys)))) as [Hp|]; [|done].
    apply bind_Ok in H as ([rx' d] & HI & H). injection H as <-. eapply step_rx; [done| |done].
    intros H0. rewrite H0 in Hp. change (zlen []) with 0 in Hp. lia.
Qed.

Lemma schedule_reach l sys sys' :
  Forall who_ok l → fold_result move sys l = Ok sys' → reach (length l) sys sys'.
Proof.
  revert sys'. induction l as [|w l IH] using rev_ind; intros sys' Hl H.
  - injection H as <-. constructor.
  - apply Forall_app in Hl as [Hl Hw]. inversion_clear Hw as [|?? Hw' _].
    rewrite fold_result_app in H. apply bind_Ok in H as (mid & H1 & H2).
    cbn [fold_result] in H2. apply bind_Ok in H2 as (s & H2 & H3). injection H3 as <-.
    rewrite length_app, Nat.add_comm. econstructor; [by apply IH|by eapply move_step].
Qed.

End programs.

(** ** Properties *)

(** C2: every option's message decodes to the buffer it was made from: for the
    option the selector chose, whatever it is, and any buffer of up to 1 MiB of
    any bytes and parity, the sender's encoding succeeds, the receiver's decoding
    of it returns the buffer exactly (block floating point included, since the
    samples made from bytes have no low part), and the message is never taken for
    the end mark. *)
Theorem codec_roundtrip {zl : Zlib} {zs : ZlibSpec} o b :
  bytes_ok b → zlen b <= 2 ^ 20 →
  ∃ msg, sender.encode o b = Ok msg ∧ carries msg b ∧ bytes_ok msg.
Proof.
  intros Hb Hl. destruct (decode_encode o b Hb Hl) as (msg & H1 & H2 & H3 & H4 & Hz).
  exists msg. unfold carries. split_and!; try done. by apply (message_bound b).
Qed.

Lemma codec_roundtrip_witness :
  ∃ msg, sender.encode (zl := stored_zlib.stored) LZ77 [10; 20; 30] = Ok msg ∧
    receiver.decode (zl := stored_zlib.stored) msg = Ok [10; 20; 30].
Proof.
  destruct (codec_roundtrip (zs := stored_zlib.stored_spec) LZ77 [10; 20; 30])
    as (msg & H1 & [H2 _] & _); [solve_Forall|vm_compute; discriminate|by exists msg].
Defined.

Section delivery.
Context {C E S : Type} {sel : Selector C E} {ss : SelectorSpec C E}.
Context {sk : Socket S} {sp : SocketSpec S} {zl : Zlib} {zs : ZlibSpec}.

(** C1: whatever selector is used and however the two programs are interleaved,
    when both have left their loops the output file is the input file [tx_count]
    times over, byte for byte, and nothing is left on the connection. *)
Theorem delivery_complete (c : C) file count (s : S) k sys :
  sel_inv 0 c → bytes_ok file → pending s = [] → zlen (transmissions file count) < 2 ^ 31 - 1 →
  reach k (start c file count s) sys → tx_done sys = true → rx_done sys = true →
  out_file sys = transmissions file count ∧ pending (connection sys) = [].
Proof.
  intros Hc Hb Hp Hl HR Ht Hr.
  destruct (inv_reach _ _ _ _ Hl (inv_start c file count s Hc Hb Hp) HR)
    as (n & msgs & chunks & _ & Hcar & Hpend & Htot & Htx & Hrx & _).
  destruct (Hrx Hr) as [_ ->]. inversion Hcar; subst chunks. rewrite Ht, Hr in Hpend.
  rewrite (Htx Ht) in Htot. simpl in Htot. rewrite app_nil_r in Htot. done.
Qed.

(** C4: at every moment of every run the output file is a prefix of the input
    file repeated: nothing wrong, reordered or duplicated is ever written, even if
    the programs are stopped early. *)
Theorem delivery_prefix (c : C) file count (s : S) k sys :
  sel_inv 0 c → bytes_ok file → pending s = [] → zlen (transmissions file count) < 2 ^ 31 - 1 →
  reach k (start c file count s) sys →
  out_file sys `prefix_of` transmissions file count.
Proof.
  intros Hc Hb Hp Hl HR.
  destruct (inv_reach _ _ _ _ Hl (inv_start c file count s Hc Hb Hp) HR)
    as (n & msgs & chunks & _ & _ & _ & Htot & _). rewrite <- Htot. by eexists.
Qed.

(** C3: the transfer terminates.  No run makes more than two steps per byte and
    two more, and until both programs have left their loops one of them can make
    a step: no iteration fails and they never wait for each other. *)
Theorem delivery_terminates (c : C) file count (s : S) k sys e :
  sel_inv 0 c → bytes_ok file → pending s = [] → zlen (transmissions file count) < 2 ^ 31 - 1 →
  reach k (start c file count s) sys → env_ok e →
  Z.of_nat k <= 2 * zlen (transmissions file count) + 2 ∧
  (tx_done sys = false ∨ rx_done sys = false → ∃ sys', step sys sys').
Proof.
  intros Hc Hb Hp Hl HR He.
  pose proof (inv_reach _ _ _ _ Hl (inv_start c file count s Hc Hb Hp) HR) as Hinv.
  split; [|intros Hd; by eapply inv_progress].
  destruct Hinv as (n & msgs & chunks & _ & _ & _ & _ & _ & _ & _ & Hk).
  pose proof (zlen_nonneg (msgs ++ end_mark (tx_done sys) (rx_done sys))).
  pose proof (zlen_nonneg (buffer_reader.to_read (sender.reader (tx sys)))).
  destruct (tx_done sys); lia.
Qed.
End delivery.

(** *** A run of both programs: the state machine as selector, an in-memory
    connection, stored blocks; three bytes, twice. *)
Module example.
Import fifo_socket stored_zlib.

Definition torch : Torch := Trainer.bias_torch.
#[local] Existing Instance torch.
#[local] Existing Instance Trainer.bias_torch_spec.

Definition sel : Selector controller.state controller.env := controller.controller_selector map_to_list.
#[local] Existing Instance sel.
Definition sel_spec : SelectorSpec controller.state controller.env :=
  controller.controller_selector_spec map_to_list.
#[local] Existing Instance sel_spec.

Definition selector : controller.state :=
  controller.init "state_machine" 1 Trainer.example_weights Trainer.example_weights.

Definition frame_env : sender.env controller.env :=
  sender.mk_env 120 340 (controller.mk_env 7 3 (take 32)).

Definition schedule : list (option (sender.env controller.env)) :=
  [Some frame_env; Some frame_env; None; Some frame_env; None; None].

Definition initial : system := start selector [65; 66; 67] 2 ([] : list Z).

Lemma frame_env_ok : env_ok frame_env.
Proof.
  split_and!; try (simpl; lia). intros buf. change (controller.sample _) with (@take (transition (list spec_float)) 32).
  split; [apply sublist_take|]. unfold zlen, Trainer.batch_size. rewrite length_take. lia.
Qed.

Lemma selector_ok : sel_inv 0 selector.
Proof. by apply controller.controller_init_inv. Qed.

Lemma schedule_ok n : Forall who_ok (take n schedule).
Proof.
  apply Forall_take. unfold schedule.
  repeat (apply Forall_cons_2; [first [exact frame_env_ok|exact I]|]). apply Forall_nil_2.
Qed.

(** What a schedule leaves: the file, and which of the programs have ended. *)
Definition outcome (sys : system (C := controller.state) (S := list Z)) : list Z * bool * bool := (out_file sys, tx_done sys, rx_done sys).

Lemma schedule_outcome n x : (sys ← fold_result move initial (take n schedule); Ok (outcome sys)) = Ok x →
  ∃ sys, reach (length (take n schedule)) initial sys ∧ outcome sys = x.
Proof.
  intros (sys & H & HO)%bind_Ok. exists sys. injection HO as <-. split; [|done].
  apply schedule_reach; [apply schedule_ok|exact H].
Qed.

Lemma schedule_runs : ∃ sys,
  reach 6 initial sys ∧ tx_done sys = true ∧ rx_done sys = true.
Proof.
  destruct (schedule_outcome 6 ([65; 66; 67; 65; 66; 67], true, true)) as (sys & HR & HO); [vm_compute; reflexivity|].
  injection HO as _ Ht Hr. by exists sys.
Qed.

(** After three moves the sender has sent both blocks and the receiver written the first. *)
Lemma schedule_half : ∃ sys,
  reach 3 initial sys ∧ out_file sys = [65; 66; 67] ∧ rx_done sys = false.
Proof.
  destruct (schedule_outcome 3 ([65; 66; 67], false, false)) as (sys & HR & HO); [vm_compute; reflexivity|].
  injection HO as Ho Ht Hr. by exists sys.
Qed.

Lemma delivery_complete_witness :
  ∃ sys, reach 6 initial sys ∧ out_file sys = [65; 66; 67; 65; 66; 67].
Proof.
  destruct schedule_runs as (sys & HR & Ht & Hr). exists sys. split; [exact HR|].
  apply (delivery_complete selector [65; 66; 67] 2 [] 6 sys);
    [exact selector_ok|solve_Forall|reflexivity|vm_compute; reflexivity|exact HR|exact Ht|exact Hr].
Defined.

Lemma delivery_prefix_witness :
  ∃ sys, reach 3 initial sys ∧ out_file sys = [65; 66; 67] ∧ rx_done sys = false ∧
    out_file sys `prefix_of` [65; 66; 67; 65; 66; 67].
Proof.
  destruct schedule_half as (sys & HR & Ho & Hr). exists sys.
  split; [exact HR|]. split; [exact Ho|]. split; [exact Hr|].
  apply (delivery_prefix selector [65; 66; 67] 2 [] 3 sys);
    [exact selector_ok|solve_Forall|reflexivity|vm_compute; reflexivity|exact HR].
Defined.

Lemma delivery_terminates_witness : ∃ sys', step initial sys'.
Proof.
  apply (delivery_terminates selector [65; 66; 67] 2 [] 0 initial frame_env);
    [exact selector_ok|solve_Forall|reflexivity|vm_compute; reflexivity|constructor|exact frame_env_ok|].
  left; reflexivity.
Defined.
End example.
