(* ===== verification/SlotPoint.v ===== *)
(** * SlotPoint: slot and symbol counters of the radio frame

    Models class [slot_point] (include/srsran/ran/slot_point.h), the numerology
    helpers of include/srsran/ran/subcarrier_spacing.h and class
    [slot_symbol_point] (include/srsran/ofh/timing/slot_symbol_point.h).  The
    members are bit fields; their widths and the mixed signed and unsigned
    arithmetic are written out.  [srsran_assert] is modelled as enabled. *)

From S2P Require Export Prelude.

(** [enum class subcarrier_spacing] *)
Inductive subcarrier_spacing : Type := kHz15 | kHz30 | kHz60 | kHz120 | kHz240 | scs_invalid.

#[export] Instance subcarrier_spacing_eq_dec : EqDecision subcarrier_spacing.
Proof. solve_decision. Defined.

Definition to_numerology_value (scs : subcarrier_spacing) : Z :=
  match scs with
  | kHz15 => 0 | kHz30 => 1 | kHz60 => 2 | kHz120 => 3 | kHz240 => 4 | scs_invalid => 5
  end.

Definition is_scs_valid (scs : subcarrier_spacing) : bool := to_numerology_value scs <=? 4.

Definition scs_to_khz (scs : subcarrier_spacing) : result Z :=
  assume (is_scs_valid scs) AssertFailed;;
  Ok (wrap 32 (15 ≪ to_numerology_value scs)).

Definition get_nof_slots_per_subframe (numerology : Z) : Z := wrap 32 (1 ≪ numerology).

Definition NOF_NUMEROLOGIES : Z := 5.
Definition NOF_SUBFRAMES_PER_FRAME : Z := 10.
Definition NOF_SFNS : Z := 1024.

Module slot_point.

(** The bit fields [numerology_val : 3] and [count_val : 29]. *)
Record t := mk { numerology_val : Z; count_val : Z }.

#[export] Instance t_eq_dec : EqDecision t.
Proof. solve_decision. Defined.

(** The default constructor: the invalid state. *)
Definition invalid : t := mk NOF_NUMEROLOGIES 0.

Definition clear (s : t) : t := mk NOF_NUMEROLOGIES (count_val s).
Definition valid (s : t) : bool := numerology_val s <? NOF_NUMEROLOGIES.
Definition numerology (s : t) : Z := numerology_val s.

Definition nof_slots_per_subframe (s : t) : Z := wrap 32 (1 ≪ numerology_val s).
Definition nof_slots_per_frame (s : t) : Z :=
  wrap 32 (nof_slots_per_subframe s * NOF_SUBFRAMES_PER_FRAME).
Definition nof_slots_per_system_frame (s : t) : Z := wrap 32 (nof_slots_per_frame s * NOF_SFNS).

(** [slot_point(numerology, count)] *)
Definition of_count (numerology count : Z) : result t :=
  let s := mk (wrap 3 numerology) (wrap 29 count) in
  assume (numerology <? NOF_NUMEROLOGIES) AssertFailed;;
  assume (count <? nof_slots_per_system_frame s) AssertFailed;;
  Ok s.

(** [slot_point(numerology, sfn_val, slot_radio_frame_idx)]: the member
    initialisers use the functions of the object under construction. *)
Definition of_slot (numerology sfn_val slot_radio_frame_idx : Z) : result t :=
  let s0 := mk (wrap 3 numerology) 0 in
  let s := mk (wrap 3 numerology)
    (wrap 29 (wrap 32 (slot_radio_frame_idx + wrap 32 (sfn_val * nof_slots_per_frame s0)))) in
  assume (numerology <? NOF_NUMEROLOGIES) AssertFailed;;
  assume (sfn_val <? NOF_SFNS) AssertFailed;;
  assume (slot_radio_frame_idx <? nof_slots_per_frame s) AssertFailed;;
  Ok s.

(** [slot_point(numerology, sfn_val, subframe_index, slot_subframe_index)] *)
Definition of_subframe (numerology sfn_val subframe_index slot_subframe_index : Z) : result t :=
  let s0 := mk (wrap 3 numerology) 0 in
  let s := mk (wrap 3 numerology)
    (wrap 29 (wrap 32 (wrap 32 (slot_subframe_index + wrap 32 (subframe_index * nof_slots_per_subframe s0))
                       + wrap 32 (sfn_val * nof_slots_per_frame s0)))) in
  assume (numerology <? NOF_NUMEROLOGIES) AssertFailed;;
  assume (sfn_val <? NOF_SFNS) AssertFailed;;
  assume (subframe_index <? NOF_SUBFRAMES_PER_FRAME) AssertFailed;;
  assume (slot_subframe_index <? nof_slots_per_subframe s) AssertFailed;;
  Ok s.

Definition slot_index (s : t) : Z := count_val s mod nof_slots_per_frame s.
Definition sfn (s : t) : Z := count_val s / nof_slots_per_frame s.
Definition subframe_index (s : t) : Z := slot_index s / nof_slots_per_subframe s.
Definition system_slot (s : t) : Z := count_val s.
Definition to_uint (s : t) : Z := count_val s.
Definition nof_hrf_slots (s : t) : Z := nof_slots_per_frame s / 2.
Definition is_odd_hrf (s : t) : bool := NOF_SUBFRAMES_PER_FRAME / 2 <=? subframe_index s.
Definition hrf_slot_index (s : t) : Z := count_val s mod nof_hrf_slots s.
Definition subframe_slot_index (s : t) : Z := count_val s mod nof_slots_per_subframe s.

(** The comparison operators.  [-(int)n / 2] negates before it divides. *)
Definition eqb (a b : t) : bool :=
  (count_val b =? count_val a) && (numerology_val b =? numerology_val a).
Definition ltb (a b : t) : result bool :=
  assume (numerology a =? numerology b) AssertFailed;;
  v ← sadd 32 (count_val b) (- count_val a);
  let n := swrap 32 (nof_slots_per_system_frame a) in
  if 0 <? v then Ok (v <? Z.quot n 2) else Ok (v <? Z.quot (- n) 2).
Definition leb (a b : t) : result bool := if eqb a b then Ok true else ltb a b.
Definition geb (a b : t) : result bool := x ← ltb a b; Ok (negb x).
Definition gtb (a b : t) : result bool := if negb (eqb a b) then geb a b else Ok false.

(** [operator-(const slot_point&)]: [a - nof_slots] is computed in [unsigned]. *)
Definition diff (x y : t) : result Z :=
  a ← sadd 32 (count_val x) (- count_val y);
  let n := nof_slots_per_system_frame x in
  if Z.quot (swrap 32 n) 2 <=? a then Ok (swrap 32 (wrap 32 (a - n)))
  else if a <? Z.quot (- swrap 32 n) 2 then Ok (swrap 32 (wrap 32 (a + n)))
  else Ok a.

(** [operator++]: the 29-bit field wraps before the comparison. *)
Definition incr (s : t) : t :=
  let c := wrap 29 (count_val s + 1) in
  mk (numerology_val s) (if c =? nof_slots_per_system_frame s then 0 else c).

(** [operator+=(uint32_t)] *)
Definition add_unsigned (s : t) (jump : Z) : t :=
  mk (numerology_val s) (wrap 29 (wrap 32 (count_val s + jump) mod nof_slots_per_system_frame s)).

(** [operator+=(int)] *)
Definition add_int (s : t) (jump : Z) : result t :=
  let nof_slots := swrap 32 (nof_slots_per_system_frame s) in
  sum ← sadd 32 (count_val s) jump;
  let tmp := Z.rem sum nof_slots in
  c ← sadd 32 tmp (if tmp <? 0 then nof_slots else 0);
  Ok (mk (numerology_val s) (wrap 29 c)).

(** [operator-=(uint32_t)] and [operator-=(int)] *)
Definition sub_int (s : t) (jump : Z) : result t :=
  j ← sadd 32 0 (- jump); add_int s j.
Definition sub_unsigned (s : t) (jump : Z) : result t :=
  j ← sadd 32 0 (- swrap 32 jump); add_int s j.

Definition is_in_interval (s first last : t) : result bool :=
  ge ← geb s first;
  if (ge : bool) then ltb s last else Ok false.

Definition max (lhs rhs : t) : result t := g ← gtb lhs rhs; Ok (if (g : bool) then lhs else rhs).
Definition min (lhs rhs : t) : result t := l ← ltb lhs rhs; Ok (if (l : bool) then lhs else rhs).

Definition set_slot_numerology (sl : t) (new_numerology : Z) : result t :=
  let old_numerology := numerology sl in
  if new_numerology <? old_numerology then
    of_count new_numerology (to_uint sl ≫ (old_numerology - new_numerology))
  else if old_numerology <? new_numerology then
    of_count new_numerology (wrap 32 (to_uint sl ≪ (new_numerology - old_numerology)))
  else Ok sl.

(** ** Well-formed slots *)

(** The number of slots of a system frame, without wrap-around. *)
Definition period (s : t) : Z := 10240 * 2 ^ numerology_val s.

Definition wf (s : t) : Prop := 0 <= numerology_val s < 5 ∧ 0 <= count_val s < period s.

Lemma numerology_cases m : 0 <= m < 5 → m = 0 ∨ m = 1 ∨ m = 2 ∨ m = 3 ∨ m = 4.
Proof. lia. Qed.

(** Evaluates the slot counts of a literal numerology. *)
Ltac slot_consts :=
  unfold numerology, to_uint, sfn, subframe_index, slot_index, subframe_slot_index, hrf_slot_index,
    nof_hrf_slots, nof_slots_per_system_frame, nof_slots_per_frame, nof_slots_per_subframe in *;
  cbn [numerology_val count_val] in *;
  repeat match goal with
  | |- context [wrap 32 (1 ≪ ?k)] =>
      let v := eval vm_compute in (wrap 32 (1 ≪ k)) in change (wrap 32 (1 ≪ k)) with v
  | |- context [wrap 32 (Zpos ?a * NOF_SUBFRAMES_PER_FRAME)] =>
      let v := eval vm_compute in (wrap 32 (Zpos a * NOF_SUBFRAMES_PER_FRAME)) in
      change (wrap 32 (Zpos a * NOF_SUBFRAMES_PER_FRAME)) with v
  | |- context [wrap 32 (Zpos ?a * NOF_SFNS)] =>
      let v := eval vm_compute in (wrap 32 (Zpos a * NOF_SFNS)) in
      change (wrap 32 (Zpos a * NOF_SFNS)) with v
  | |- context [swrap 32 (Zpos ?a)] =>
      let v := eval vm_compute in (swrap 32 (Zpos a)) in change (swrap 32 (Zpos a)) with v
  end; unfold_fits.

(** Splits on the numerology, so that every modulus is a literal. *)
Ltac slot_cases s H :=
  let m := fresh "m" in let c := fresh "c" in let Hm := fresh "Hm" in
  destruct s as [m c]; destruct H as [Hm H]; unfold period in *;
  cbn [numerology_val count_val] in *;
  destruct (numerology_cases m Hm) as [->|[->|[->|[->| ->]]]]; clear Hm;
  slot_consts.

(** Closes [wf] of a concrete slot. *)
Ltac solve_wf := split; split; vm_compute; first [discriminate | reflexivity].

Lemma wrap_29 z : 0 <= z <= 163840 → wrap 29 z = z.
Proof. intros H. apply wrap_small. lia_fits. Qed.

Lemma add_int_spec s j :
  wf s → - 2 ^ 30 <= j <= 2 ^ 30 →
  add_int s j = Ok (mk (numerology_val s) ((count_val s + j) mod period s)).
Proof.
  intros Hs Hj. unfold add_int.
  slot_cases s Hs; rewrite sadd_Ok by lia_fits; cbn [mbind result_bind];
    (rewrite sadd_Ok; [|case_Z; lia_fits]); cbn [mbind result_bind];
    rewrite wrap_29 by (case_Z; lia); do 2 f_equal; case_Z; lia.
Qed.

Lemma add_wf s j : wf s → wf (mk (numerology_val s) ((count_val s + j) mod period s)).
Proof.
  intros [Hm Hc]. split; [done|]. unfold period in *. cbn [numerology_val count_val].
  apply Z.mod_pos_bound. lia.
Qed.

Lemma sub_int_spec s j :
  wf s → - 2 ^ 30 <= j <= 2 ^ 30 →
  sub_int s j = Ok (mk (numerology_val s) ((count_val s - j) mod period s)).
Proof.
  intros Hs Hj. unfold sub_int. rewrite sadd_Ok by lia_fits. cbn [mbind result_bind].
  by rewrite add_int_spec by (done || lia).
Qed.

(** The signed distance, in [[- period / 2, period / 2)]. *)
Lemma diff_spec x y :
  wf x → wf y → numerology_val x = numerology_val y →
  diff x y = Ok ((count_val x - count_val y + period x / 2) mod period x - period x / 2).
Proof.
  intros Hx [Hn Hy] Heq. unfold diff. destruct y as [m' c']. unfold period in Hy.
  cbn [numerology_val count_val] in *. subst m'.
  slot_cases x Hx; rewrite sadd_Ok by lia_fits; cbn [mbind result_bind];
    repeat case_Z; f_equal; unfold swrap, wrap; unfold_fits; lia.
Qed.

(** [a < b] iff [b] is less than half a system frame ahead of [a]. *)
Lemma ltb_spec x y :
  wf x → wf y → numerology_val x = numerology_val y →
  ltb x y = Ok (bool_decide (0 < (count_val y - count_val x) mod period x < period x / 2)).
Proof.
  intros Hx [Hn Hy] Heq. unfold ltb. destruct y as [m' c']. unfold period in Hy.
  cbn [numerology_val count_val] in *. subst m'.
  slot_cases x Hx; rewrite Z.eqb_refl; cbn [assume mbind result_bind];
    rewrite sadd_Ok by lia_fits; cbn [mbind result_bind];
    (case_Z; f_equal; (case_bool_decide; [apply Z.ltb_lt|apply Z.ltb_ge]; lia)).
Qed.

Lemma incr_spec s : wf s → incr s = mk (numerology_val s) ((count_val s + 1) mod period s).
Proof.
  intros Hs. unfold incr. slot_cases s Hs; rewrite wrap_29 by lia; f_equal; case_Z; lia.
Qed.

(** The constructors on what the accessors return. *)
Ltac eval_wrap3 :=
  repeat match goal with |- context [wrap 3 ?k] =>
    let v := eval vm_compute in (wrap 3 k) in change (wrap 3 k) with v end.

Lemma of_count_spec s : wf s → of_count (numerology s) (to_uint s) = Ok s.
Proof.
  intros Hs. unfold of_count. pose proof Hs as [Hm Hc].
  slot_cases s Hs; cbv zeta; eval_wrap3; cbn [numerology_val]; rewrite wrap_29 by lia;
    unfold NOF_NUMEROLOGIES; slot_consts; do 2 pass_assume; done.
Qed.

Lemma of_slot_spec s : wf s → of_slot (numerology s) (sfn s) (slot_index s) = Ok s.
Proof.
  intros Hs. unfold of_slot. slot_cases s Hs; cbv zeta; eval_wrap3; slot_consts;
    rewrite (wrap_small 32 (_ * _)) by lia_fits; rewrite (wrap_small 32 (_ + _)) by lia_fits;
    rewrite wrap_29 by lia; unfold NOF_NUMEROLOGIES, NOF_SFNS; do 3 pass_assume;
    do 2 f_equal; lia.
Qed.

Lemma of_subframe_spec s : wf s →
  of_subframe (numerology s) (sfn s) (subframe_index s) (subframe_slot_index s) = Ok s.
Proof.
  intros Hs. unfold of_subframe. slot_cases s Hs; cbv zeta; eval_wrap3; slot_consts;
    rewrite !(wrap_small 32 (_ * _)) by lia_fits;
    rewrite (wrap_small 32 (_ mod _ + _)) by lia_fits;
    rewrite (wrap_small 32 (_ + _)) by lia_fits;
    rewrite wrap_29 by lia; unfold NOF_NUMEROLOGIES, NOF_SFNS, NOF_SUBFRAMES_PER_FRAME;
    do 4 pass_assume; do 2 f_equal; lia.
Qed.

(** The subframe constructor on parts that are in range. *)
Lemma of_subframe_parts m f sf i :
  0 <= m < 5 → 0 <= f < 1024 → 0 <= sf < 10 → 0 <= i < 2 ^ m →
  ∃ s, of_subframe m f sf i = Ok s ∧ wf s ∧ numerology s = m ∧ sfn s = f ∧
    subframe_index s = sf ∧ subframe_slot_index s = i.
Proof.
  intros Hm Hf Hs Hi. set (s := mk m (i + sf * 2 ^ m + f * (10 * 2 ^ m))).
  assert (Hw : wf s).
  { split; [done|]. unfold period, s. cbn [numerology_val count_val].
    destruct (numerology_cases m Hm) as [->|[->|[->|[->| ->]]]]; unfold_fits; lia. }
  assert (numerology s = m ∧ sfn s = f ∧ subframe_index s = sf ∧ subframe_slot_index s = i)
    as (E1 & E2 & E3 & E4).
  { unfold s, numerology, sfn, subframe_index, slot_index, subframe_slot_index, nof_slots_per_frame,
      nof_slots_per_subframe, NOF_SUBFRAMES_PER_FRAME. cbn [numerology_val count_val].
    destruct (numerology_cases m Hm) as [->|[->|[->|[->| ->]]]]; slot_consts; unfold_fits;
      repeat match goal with |- context [wrap 32 (?a * 10)] =>
        let v := eval vm_compute in (wrap 32 (a * 10)) in change (wrap 32 (a * 10)) with v end;
      split_and!; lia. }
  exists s. split_and!; try done.
  pose proof (of_subframe_spec s Hw) as HS. by rewrite E1, E2, E3, E4 in HS.
Qed.

Lemma of_count_zero m : 0 <= m < 5 →
  of_count m 0 = Ok (mk m 0) ∧ nof_slots_per_subframe (mk m 0) = 2 ^ m.
Proof.
  intros Hm. destruct (numerology_cases m Hm) as [->|[->|[->|[->| ->]]]]; done.
Qed.

(** ** Properties *)

(** Slot arithmetic is arithmetic modulo the system frame (1024 frames of ten
    subframes of 2^numerology slots) and never overflows: adding a jump of up to
    2^30 slots either way keeps the slot well formed, subtracting it returns to
    the start, the difference of the two slots is the jump when it is less than
    half a system frame, and [++] is adding one. *)
Theorem slot_arithmetic s j :
  wf s → - 2 ^ 30 <= j <= 2 ^ 30 →
  ∃ s', add_int s j = Ok s' ∧ wf s' ∧ sub_int s' j = Ok s ∧
    (- (period s / 2) <= j < period s / 2 → diff s' s = Ok j) ∧
    add_int s 1 = Ok (incr s).
Proof.
  intros Hs Hj. pose proof (add_wf s j Hs) as Hw.
  exists (mk (numerology_val s) ((count_val s + j) mod period s)).
  rewrite add_int_spec, sub_int_spec, diff_spec, incr_spec, add_int_spec by (done || lia).
  split; [done|]. split; [done|]. clear Hw. split; [|split; [|done]];
    unfold period; cbn [numerology_val count_val]; slot_cases s Hs; [f_equal; f_equal; lia..| | | | |];
    intros Hh; f_equal; lia.
Qed.

Lemma slot_arithmetic_witness :
  ∃ s', add_int (mk 1 20479) 2 = Ok s' ∧ s' = mk 1 1 ∧ diff s' (mk 1 20479) = Ok 2.
Proof.
  destruct (slot_arithmetic (mk 1 20479) 2) as (s' & Ha & _ & _ & Hd & _).
  - solve_wf.
  - lia_fits.
  - exists s'. split; [exact Ha|]. split; [vm_compute in Ha; by injection Ha as <-|].
    apply Hd. vm_compute. split; [discriminate|reflexivity].
Defined.

(** the comparison of two slots is the cyclic order of the system frame: [a]
    is before [b] iff [b] is ahead of it by less than half a system frame, which
    is the sign of their difference.  It is irreflexive and asymmetric, it holds
    one way round for any two distinct slots that are not exactly half a system
    frame apart, and for two slots exactly that far apart it holds neither way,
    so that both [a > b] and [b > a] are true. *)
Theorem slot_order a b :
  wf a → wf b → numerology_val a = numerology_val b →
  ∃ d e lt gt, diff b a = Ok d ∧ diff a b = Ok e ∧ ltb a b = Ok lt ∧ ltb b a = Ok gt ∧
    (lt = true ↔ 0 < d) ∧ (gt = true ↔ 0 < e) ∧
    (lt = true → gt = false) ∧
    (lt = false ∧ gt = false ↔ a = b ∨ d = - (period a / 2)) ∧
    (d = - (period a / 2) → gtb a b = Ok true ∧ gtb b a = Ok true).
Proof.
  intros Ha Hb Heq. eexists _, _, _, _.
  rewrite (diff_spec b a), (diff_spec a b), (ltb_spec a b), (ltb_spec b a) by done.
  split_and!; [done..| | | | |].
  all: unfold gtb, geb; rewrite ?(ltb_spec a b), ?(ltb_spec b a) by done; cbn [mbind result_bind];
    unfold eqb; destruct b as [m' c']; destruct Hb as [_ Hb]; unfold period in *;
    cbn [numerology_val count_val] in *; subst m'; slot_cases a Ha; rewrite ?bool_decide_eq_true.
  all: try (split; lia).
  all: try (intros ?; case_bool_decide; [exfalso; lia|done]).
  all: try (split;
    [intros [H1%bool_decide_eq_false H2%bool_decide_eq_false];
     destruct (decide (c = c')) as [->|]; [by left|right; lia]
    |intros [[= ->]|]; split; apply bool_decide_eq_false; lia]).
  all: intros Hd; assert (c ≠ c') by lia;
    rewrite (proj2 (Z.eqb_neq c c')), (proj2 (Z.eqb_neq c' c)) by lia; cbn [andb negb];
    rewrite !bool_decide_eq_false_2 by lia; done.
Qed.

Lemma slot_order_witness :
  ∃ lt gt, ltb (mk 0 10239) (mk 0 3) = Ok lt ∧ ltb (mk 0 3) (mk 0 10239) = Ok gt ∧ (lt = true → gt = false).
Proof.
  destruct (slot_order (mk 0 10239) (mk 0 3)) as (d & e & lt & gt & _ & _ & H1 & H2 & _ & _ & H3 & _).
  - solve_wf.
  - solve_wf.
  - reflexivity.
  - exists lt, gt. split; [exact H1|]. split; [exact H2|exact H3].
Defined.

(** A slot is determined by its numerology, frame number and slot index, and
    by its frame number, subframe index and slot index in the subframe: both
    constructors rebuild it from what the accessors return, which are in the
    ranges the documentation gives, and none of their assertions fires. *)
Theorem slot_decomposition s :
  wf s →
  of_slot (numerology s) (sfn s) (slot_index s) = Ok s ∧
  of_subframe (numerology s) (sfn s) (subframe_index s) (subframe_slot_index s) = Ok s ∧
  of_count (numerology s) (to_uint s) = Ok s ∧
  0 <= sfn s < 1024 ∧ 0 <= slot_index s < nof_slots_per_frame s ∧
  0 <= subframe_index s < 10 ∧ 0 <= subframe_slot_index s < nof_slots_per_subframe s.
Proof.
  intros Hs. split_and!; [apply of_slot_spec|apply of_subframe_spec|apply of_count_spec|..];
    try done; slot_cases s Hs; lia.
Qed.


Lemma slot_decomposition_witness : of_slot 1 (sfn (mk 1 20479)) (slot_index (mk 1 20479)) = Ok (mk 1 20479).
Proof. apply (slot_decomposition (mk 1 20479)). solve_wf. Defined.

Lemma set_numerology_value s m : wf s → 0 <= m < 5 →
  set_slot_numerology s m = Ok (mk m (count_val s * 2 ^ m / 2 ^ numerology_val s)).
Proof.
  intros Hs Hm. unfold set_slot_numerology, of_count.
  destruct (numerology_cases m Hm) as [->|[->|[->|[->| ->]]]]; clear Hm; slot_cases s Hs;
    repeat match goal with |- context [if (?a <? ?b) then _ else _] =>
      let v := eval vm_compute in (a <? b) in change (a <? b) with v; cbn iota end;
    cbv zeta; eval_wrap3; slot_consts; rewrite ?Z.shiftr_div_pow2, ?Z.shiftl_mul_pow2 by lia; unfold_fits;
    repeat match goal with |- context [2 ^ (?a - ?b)] =>
      let v := eval vm_compute in (2 ^ (a - b)) in change (2 ^ (a - b)) with v end;
    rewrite ?(wrap_small 32 (_ * _)) by lia_fits; rewrite ?wrap_29 by lia;
    unfold NOF_NUMEROLOGIES; try pass_assume; try pass_assume; do 2 f_equal; lia.
Qed.

(** Converting a slot to another numerology always succeeds and keeps the
    frame and the subframe; refining and converting back is the identity, and
    coarsening and converting back gives the first slot of the coarser one that
    contains the slot (the floor the comment promises). *)
Theorem numerology_conversion s m :
  wf s → 0 <= m < 5 →
  ∃ s' s'', set_slot_numerology s m = Ok s' ∧ wf s' ∧ numerology s' = m ∧
    sfn s' = sfn s ∧ subframe_index s' = subframe_index s ∧
    set_slot_numerology s' (numerology s) = Ok s'' ∧
    (numerology s <= m → s'' = s) ∧
    (m <= numerology s →
       count_val s'' <= count_val s < count_val s'' + 2 ^ (numerology s - m)).
Proof.
  intros Hs Hm. pose proof Hs as [Hn _].
  assert (Hw : wf (mk m (count_val s * 2 ^ m / 2 ^ numerology_val s))).
  { split; [done|]. unfold period. cbn [numerology_val count_val].
    destruct (numerology_cases m Hm) as [->|[->|[->|[->| ->]]]]; clear Hm; slot_cases s Hs; lia. }
  exists (mk m (count_val s * 2 ^ m / 2 ^ numerology_val s)).
  eexists. rewrite (set_numerology_value s) by done. split; [done|]. split; [done|]. split; [done|].
  unfold numerology at 2. rewrite set_numerology_value by done.
  cbn [numerology_val count_val]. clear Hw. split_and!; [| |reflexivity| |].
  all: destruct (numerology_cases m Hm) as [->|[->|[->|[->| ->]]]]; clear Hm; slot_cases s Hs;
    clear Hn; try lia; intros ?; try lia; try (f_equal; lia);
    match goal with |- context [2 ^ (?a - ?b)] =>
      let v := eval vm_compute in (2 ^ (a - b)) in change (2 ^ (a - b)) with v end; lia.
Qed.

Lemma numerology_conversion_witness :
  ∃ s' s'', set_slot_numerology (mk 3 81919) 1 = Ok s' ∧ set_slot_numerology s' 3 = Ok s'' ∧ s'' = mk 3 81916.
Proof.
  destruct (numerology_conversion (mk 3 81919) 1) as (s' & s'' & H1 & _ & _ & _ & _ & H2 & _).
  - solve_wf.
  - lia.
  - exists s', s''. split; [exact H1|]. split; [exact H2|].
    vm_compute in H1. injection H1 as <-. vm_compute in H2. by injection H2 as <-.
Defined.

End slot_point.

Module slot_symbol_point.

(** The bit fields [nof_symbols : 4], [numerology : 3] and [count_val : 25]. *)
Record t := mk { nof_symbols : Z; numerology : Z; count_val : Z }.

(** [slot_symbol_point(slot, symbol_index, nof_symbols)] *)
Definition of_slot (slot : slot_point.t) (symbol_index nof_symbols_ : Z) : result t :=
  let s := mk (wrap 4 nof_symbols_) (wrap 3 (slot_point.numerology slot))
    (wrap 25 (wrap 32 (wrap 32 (slot_point.count_val slot * nof_symbols_) + symbol_index))) in
  assume (symbol_index <? nof_symbols_) AssertFailed;;
  Ok s.

(** [slot_symbol_point(numerology, count, nof_symbols)] *)
Definition of_count (numerology_ count_ nof_symbols_ : Z) : result t :=
  let s := mk (wrap 4 nof_symbols_) (wrap 3 numerology_) (wrap 25 count_) in
  assume (numerology s <? NOF_NUMEROLOGIES) AssertFailed;;
  Ok s.

Definition get_slot (s : t) : result slot_point.t :=
  if numerology s <? NOF_NUMEROLOGIES then
    (if nof_symbols s =? 0 then Fault DivByZero
     else slot_point.of_count (numerology s) (count_val s / nof_symbols s))
  else Ok slot_point.invalid.

Definition is_valid (s : t) : bool := negb (nof_symbols s =? 0) && (numerology s <? NOF_NUMEROLOGIES).

Definition get_symbol_index (s : t) : result Z :=
  if nof_symbols s =? 0 then Fault DivByZero else Ok (count_val s mod nof_symbols s).
Definition get_nof_symbols (s : t) : Z := nof_symbols s.
Definition get_numerology (s : t) : Z := numerology s.
Definition to_uint (s : t) : Z := count_val s.

(** [NOF_SFNS * NOF_SUBFRAMES_PER_FRAME * slots * nof_symbols], a [size_t]
    expression converted to [int]. *)
Definition nof_symbols_per_slot_wrap (s : t) : Z :=
  swrap 32 (wrap 64 (NOF_SFNS * NOF_SUBFRAMES_PER_FRAME
                     * get_nof_slots_per_subframe (numerology s) * nof_symbols s)).

Definition add (s : t) (jump : Z) : result t :=
  let n := nof_symbols_per_slot_wrap s in
  sum ← sadd 32 (count_val s) jump;
  if n =? 0 then Fault DivByZero else
  let tmp := Z.rem sum n in
  c ← sadd 32 tmp (if tmp <? 0 then n else 0);
  Ok (mk (nof_symbols s) (numerology s) (wrap 25 c)).

Definition sub (s : t) (jump : Z) : result t := j ← sadd 32 0 (- jump); add s j.

Definition eqb (a b : t) : bool :=
  (count_val b =? count_val a) && (numerology b =? numerology a) && (nof_symbols b =? nof_symbols a).

Definition ltb (a b : t) : result bool :=
  assume (numerology a =? numerology b) AssertFailed;;
  assume (get_nof_symbols a =? get_nof_symbols b) AssertFailed;;
  let n := nof_symbols_per_slot_wrap a in
  v ← sadd 32 (count_val b) (- count_val a);
  if 0 <? v then Ok (v <? Z.quot n 2) else Ok (v <? Z.quot (- n) 2).

Definition leb (a b : t) : result bool := if eqb a b then Ok true else ltb a b.
Definition geb (a b : t) : result bool := x ← ltb a b; Ok (negb x).
Definition gtb (a b : t) : result bool := if negb (eqb a b) then geb a b else Ok false.

(** [operator-(slot_symbol_point, slot_symbol_point)] *)
Definition diff (lhs rhs : t) : result Z :=
  assume (get_numerology rhs =? get_numerology lhs) AssertFailed;;
  assume (get_nof_symbols rhs =? get_nof_symbols lhs) AssertFailed;;
  let n := nof_symbols_per_slot_wrap lhs in
  tmp ← sadd 32 (to_uint lhs) (- to_uint rhs);
  if Z.quot n 2 <? tmp then sadd 32 tmp (- n)
  else if tmp <? - Z.quot n 2 then sadd 32 tmp n
  else Ok tmp.

(** ** Well-formed points *)

Definition period (s : t) : Z := 10240 * 2 ^ numerology s * nof_symbols s.

Definition wf (s : t) : Prop :=
  0 < nof_symbols s < 16 ∧ 0 <= numerology s < 5 ∧ 0 <= count_val s < period s.

Lemma period_range s : 0 < nof_symbols s < 16 → 0 <= numerology s < 5 →
  nof_symbols_per_slot_wrap s = period s ∧ 2 * (period s / 2) = period s ∧
  10240 <= period s <= 2457600.
Proof.
  intros Hn Hm. unfold nof_symbols_per_slot_wrap, period, get_nof_slots_per_subframe,
    NOF_SFNS, NOF_SUBFRAMES_PER_FRAME.
  destruct (slot_point.numerology_cases _ Hm) as [E|[E|[E|[E|E]]]]; rewrite E;
    match goal with |- context [wrap 32 (1 ≪ ?k)] =>
      let v := eval vm_compute in (wrap 32 (1 ≪ k)) in change (wrap 32 (1 ≪ k)) with v end;
    rewrite wrap_small by lia_fits; unfold swrap; unfold_fits; lia.
Qed.

(** Remainder plus correction is the mathematical modulus. *)
Lemma rem_correct a n : 0 < n →
  Z.rem a n + (if Z.rem a n <? 0 then n else 0) = a mod n.
Proof.
  intros Hn. pose proof (Z.quot_rem a n ltac:(lia)) as Hq.
  pose proof (Z.rem_bound_abs a n ltac:(lia)) as Hb.
  destruct (Z.ltb_spec (Z.rem a n) 0).
  - apply (Z.mod_unique_pos a n (Z.quot a n - 1)); lia.
  - apply (Z.mod_unique_pos a n (Z.quot a n)); lia.
Qed.

Lemma symbol_add_spec s j : wf s → - 2 ^ 30 <= j <= 2 ^ 30 →
  add s j = Ok (mk (nof_symbols s) (numerology s) ((count_val s + j) mod period s)).
Proof.
  intros (Hn & Hm & Hc) Hj. destruct (period_range s Hn Hm) as (HN & He & HP). unfold add.
  rewrite HN, sadd_Ok by lia_fits. cbn [mbind result_bind]. rewrite (proj2 (Z.eqb_neq _ _)) by lia.
  pose proof (rem_correct (count_val s + j) (period s) ltac:(lia)) as HR.
  pose proof (Z.mod_pos_bound (count_val s + j) (period s) ltac:(lia)).
  rewrite sadd_Ok by (rewrite HR; lia_fits). cbn [mbind result_bind].
  rewrite HR, wrap_small by lia_fits. done.
Qed.

Lemma symbol_add_wf s j : wf s →
  wf (mk (nof_symbols s) (numerology s) ((count_val s + j) mod period s)).
Proof.
  intros (Hn & Hm & Hc). destruct (period_range s Hn Hm) as (_ & _ & HP).
  split; [exact Hn|]. split; [exact Hm|].
  exact (Z.mod_pos_bound (count_val s + j) (period s) ltac:(lia)).
Qed.

(** A value less than one period away from its residue. *)
Lemma mod_near a n : 0 < n → - n < a < n → a mod n = if a <? 0 then a + n else a.
Proof.
  intros Hn Ha. case_Z.
  - symmetry. apply (Z.mod_unique_pos a n (-1)); lia.
  - apply Z.mod_small. lia.
Qed.

Lemma symbol_ltb_spec a b :
  wf a → wf b → numerology a = numerology b → nof_symbols a = nof_symbols b →
  ltb a b = Ok (bool_decide (0 < (count_val b - count_val a) mod period a < period a / 2)).
Proof.
  intros (Hn & Hm & Hc) (_ & _ & Hc') E1 E2. destruct (period_range a Hn Hm) as (HN & He & HP).
  assert (Hp : period b = period a) by (unfold period; by rewrite E1, E2). rewrite Hp in Hc'.
  unfold ltb, get_nof_symbols. do 2 pass_assume. rewrite HN, sadd_Ok by lia_fits.
  cbn [mbind result_bind]. rewrite mod_near by lia.
  repeat case_Z; f_equal; case_bool_decide; first [done|exfalso; lia].
Qed.

Lemma symbol_diff_spec a b :
  wf a → wf b → numerology a = numerology b → nof_symbols a = nof_symbols b →
  ∃ d, diff a b = Ok d ∧ - (period a / 2) <= d <= period a / 2 ∧
    (d = count_val a - count_val b ∨ d = count_val a - count_val b - period a ∨
     d = count_val a - count_val b + period a).
Proof.
  intros (Hn & Hm & Hc) (_ & _ & Hc') E1 E2. destruct (period_range a Hn Hm) as (HN & He & HP).
  assert (Hp : period b = period a) by (unfold period; by rewrite E1, E2). rewrite Hp in Hc'.
  unfold diff, get_nof_symbols, get_numerology, to_uint. do 2 pass_assume.
  rewrite HN, sadd_Ok by lia_fits. cbn [mbind result_bind].
  repeat case_Z; rewrite ?sadd_Ok by lia_fits; eexists; (split; [done|]); lia.
Qed.

(** A point built from a slot and a symbol gives both back. *)
Lemma symbol_of_slot_spec slot i n : slot_point.wf slot → 0 < n < 16 → 0 <= i < n →
  let p := mk n (slot_point.numerology_val slot) (slot_point.count_val slot * n + i) in
  of_slot slot i n = Ok p ∧ wf p ∧ get_slot p = Ok slot ∧ get_symbol_index p = Ok i.
Proof.
  intros Hs Hn Hi p. pose proof Hs as [Hm Hc]. destruct (period_range p Hn Hm) as (_ & He & HP).
  assert (Hw : wf p).
  { split_and!; cbn [p nof_symbols numerology count_val]; try lia.
    unfold period, slot_point.period in *. cbn [p nof_symbols numerology]. nia. }
  pose proof Hw as (_ & _ & Hpc). cbn [p count_val] in Hpc. split; [|split; [done|split]].
  - unfold of_slot, slot_point.numerology. rewrite (wrap_small 32 (_ * n)) by lia_fits.
    rewrite (wrap_small 32), (wrap_small 25), (wrap_small 4), (wrap_small 3) by lia_fits. by pass_assume.
  - unfold get_slot, p, NOF_NUMEROLOGIES. cbn [numerology nof_symbols count_val].
    rewrite (proj2 (Z.ltb_lt _ _)), (proj2 (Z.eqb_neq _ _)) by lia.
    rewrite Z.div_add_l, Z.div_small, Z.add_0_r by lia. by apply slot_point.of_count_spec.
  - unfold get_symbol_index, p. cbn [nof_symbols count_val]. rewrite (proj2 (Z.eqb_neq _ _)) by lia.
    by rewrite Z.add_comm, Z.mod_add, Z.mod_small by lia.
Qed.

(** The slot and the symbol of a point. *)
Lemma point_values p : wf p →
  ∃ slot s, get_slot p = Ok slot ∧ slot_point.wf slot ∧
    get_symbol_index p = Ok (Z.of_nat s) ∧ Z.of_nat s < nof_symbols p.
Proof.
  intros (Hn & Hm & Hc). unfold period in Hc.
  pose proof (Z.mod_pos_bound (count_val p) (nof_symbols p) ltac:(lia)).
  assert (Hw : slot_point.wf (slot_point.mk (numerology p) (count_val p / nof_symbols p))).
  { split; [done|]. cbn [slot_point.count_val slot_point.numerology_val]. split; [apply Z.div_pos; lia|]. apply Z.div_lt_upper_bound; [lia|].
    unfold slot_point.period. cbn [slot_point.numerology_val]. lia. }
  eexists _, (Z.to_nat (count_val p mod nof_symbols p)).
  unfold get_slot, get_symbol_index, NOF_NUMEROLOGIES.
  rewrite (proj2 (Z.ltb_lt _ _)), (proj2 (Z.eqb_neq _ _)) by lia. rewrite Z2Nat.id by lia.
  split; [by apply (slot_point.of_count_spec _ Hw)|]. split; [done|]. split; [done|lia].
Qed.

(** ** Properties *)

(** Symbol points count symbols modulo the system frame.  A point built from
    a slot and a symbol index gives both back; moving by a number of symbols
    keeps it well formed, moving back returns, the distance of the two points is
    the jump when it is less than half a system frame, and the order of two
    points is the sign of their distance unless they are exactly that far apart. *)
Theorem symbol_arithmetic slot i n j :
  slot_point.wf slot → 0 < n < 16 → 0 <= i < n → - 2 ^ 30 <= j <= 2 ^ 30 →
  ∃ p q, of_slot slot i n = Ok p ∧ get_slot p = Ok slot ∧ get_symbol_index p = Ok i ∧
    add p j = Ok q ∧ wf q ∧ sub q j = Ok p ∧
    (- (period p / 2) < j < period p / 2 →
       diff q p = Ok j ∧ ltb p q = Ok (bool_decide (0 < j)) ∧ ltb q p = Ok (bool_decide (j < 0))).
Proof.
  intros Hs Hn Hi Hj. destruct (symbol_of_slot_spec slot i n Hs Hn Hi) as (HB & Hw & HS & HI).
  set (p := mk n _ _) in *. destruct (period_range p Hn (proj1 Hs)) as (_ & He & HP).
  exists p, (mk (nof_symbols p) (numerology p) ((count_val p + j) mod period p)).
  pose proof (symbol_add_wf p j Hw) as Hq. rewrite symbol_add_spec by done.
  assert (Hback : ∀ c, (c mod period p - j) mod period p = (c - j) mod period p)
    by (intros c; apply Zminus_mod_idemp_l).
  split; [done|]. split; [done|]. split; [done|]. split; [done|]. split; [done|]. split.
  - unfold sub. rewrite sadd_Ok by lia_fits. cbn [mbind result_bind].
    rewrite symbol_add_spec by (done || lia). cbn [nof_symbols numerology count_val].
    change (period (mk _ _ _)) with (period p). rewrite Z.add_0_l, Z.add_opp_r, Hback.
    replace (count_val p + j - j) with (count_val p) by lia.
    rewrite Z.mod_small by apply Hw. by destruct p.
  - intros Hh. set (q := mk _ _ _). assert (Hqp : period q = period p) by done.
    pose proof Hw as (_ & _ & Hpc'). pose proof Hq as (_ & _ & Hqc). fold q in Hqc. rewrite Hqp in Hqc.
    assert (Hcq : count_val q = (count_val p + j) mod period p) by done.
    destruct (symbol_diff_spec q p Hq Hw eq_refl eq_refl) as (d & -> & Hd & Hcase).
    rewrite !symbol_ltb_spec by done. rewrite Hqp in *.
    assert (Hmod : ∃ k, count_val q = count_val p + j + k * period p).
    { exists (- ((count_val p + j) / period p)). rewrite Hcq.
      pose proof (Z.div_mod (count_val p + j) (period p) ltac:(lia)). lia. }
    destruct Hmod as [k Hk]. rewrite !mod_near by (unfold p in *; cbn [count_val] in *; lia).
    assert (k = -1 ∨ k = 0 ∨ k = 1) as [->|[->| ->]] by (cbn [p count_val] in *; nia).
    all: split; [f_equal; lia|]; split; f_equal; apply bool_decide_ext; case_Z; lia.
Qed.

Lemma symbol_arithmetic_witness :
  ∃ p q, of_slot (slot_point.mk 1 20479) 13 14 = Ok p ∧ add p 1 = Ok q ∧
    get_slot p = Ok (slot_point.mk 1 20479) ∧ diff q p = Ok 1.
Proof.
  destruct (symbol_arithmetic (slot_point.mk 1 20479) 13 14 1)
    as (p & q & H1 & H2 & _ & H3 & _ & _ & H4); [slot_point.solve_wf|lia|lia|lia_fits|].
  exists p, q. split; [exact H1|]. split; [exact H3|]. split; [exact H2|].
  apply H4. vm_compute in H1. injection H1 as <-. vm_compute. split; reflexivity.
Defined.

End slot_symbol_point.
