(* ===== verification/OfhBase.v ===== *)
(** * OfhBase: shared definitions of the Open Fronthaul stack

    Models the enumerations of include/srsran/ofh/serdes/ofh_message_properties.h
    and include/srsran/ofh/compression/compression_params.h, the size helpers of
    include/srsran/ofh/compression/compression_properties.h and
    include/srsran/support/units.h, the views of include/srsran/adt/span.h and
    the two classes of lib/ofh/support/network_order_binary_serializer.h and
    network_order_binary_deserializer.h.  Writing or reading outside the
    underlying span is the fault [OutOfBounds]. *)

From S2P Require Export Prelude.

(** ** Enumerations *)

Inductive data_direction : Type := uplink | downlink.
Inductive rb_id_type : Type := every_rb_used | every_other_rb_used.
Inductive symbol_incr_type : Type := current_symbol_number | increment_current_symbol_number.
Inductive filter_index_type : Type :=
| standard_channel_filter | ul_prach_preamble_1p25khz | ul_prach_preamble_5kHz
| ul_prach_preamble_short | ul_nprach_preamble | ul_prach_preamble_7p5kHz
| ul_prach_preamble_short_15kHz | ul_prach_preamble_short_30kHz | filter_reserved.
Inductive section_type : Type := type_0 | type_1 | type_3 | type_5 | type_6.
Inductive compression_type : Type :=
| none | BFP | block_scaling | mu_law | modulation | bfp_selective | mod_selective | reserved.

#[export] Instance data_direction_eq_dec : EqDecision data_direction.
Proof. solve_decision. Defined.
#[export] Instance filter_index_eq_dec : EqDecision filter_index_type.
Proof. solve_decision. Defined.
#[export] Instance section_type_eq_dec : EqDecision section_type.
Proof. solve_decision. Defined.
#[export] Instance compression_type_eq_dec : EqDecision compression_type.
Proof. solve_decision. Defined.

(** [to_value] of each enumeration. *)
Definition direction_value (d : data_direction) : Z := match d with uplink => 0 | downlink => 1 end.
Definition rb_id_value (r : rb_id_type) : Z :=
  match r with every_rb_used => 0 | every_other_rb_used => 1 end.
Definition symbol_incr_value (s : symbol_incr_type) : Z :=
  match s with current_symbol_number => 0 | increment_current_symbol_number => 1 end.
Definition filter_index_value (f : filter_index_type) : Z :=
  match f with
  | standard_channel_filter => 0 | ul_prach_preamble_1p25khz => 1 | ul_prach_preamble_5kHz => 2
  | ul_prach_preamble_short => 3 | ul_nprach_preamble => 4 | ul_prach_preamble_7p5kHz => 5
  | ul_prach_preamble_short_15kHz => 6 | ul_prach_preamble_short_30kHz => 7 | filter_reserved => 8
  end.

Definition to_filter_index_type (index : Z) : filter_index_type :=
  match index with
  | 0 => standard_channel_filter | 1 => ul_prach_preamble_1p25khz | 2 => ul_prach_preamble_5kHz
  | 3 => ul_prach_preamble_short | 4 => ul_nprach_preamble | 5 => ul_prach_preamble_7p5kHz
  | 6 => ul_prach_preamble_short_15kHz | 7 => ul_prach_preamble_short_30kHz | _ => filter_reserved
  end.

Definition is_a_prach_message (f : filter_index_type) : bool :=
  (filter_index_value ul_prach_preamble_1p25khz <=? filter_index_value f) &&
  (filter_index_value f <=? filter_index_value ul_prach_preamble_short_30kHz).

Definition compression_value (c : compression_type) : Z :=
  match c with
  | none => 0 | BFP => 1 | block_scaling => 2 | mu_law => 3 | modulation => 4
  | bfp_selective => 5 | mod_selective => 6 | reserved => 7
  end.

Definition to_compression_type (compr_value : Z) : compression_type :=
  match compr_value with
  | 0 => none | 1 => BFP | 2 => block_scaling | 3 => mu_law | 4 => modulation
  | 5 => bfp_selective | 6 => mod_selective | _ => reserved
  end.

Definition MAX_IQ_WIDTH : Z := 16.
Definition NOF_SUBCARRIERS_PER_RB : Z := 12.
Definition OFH_PAYLOAD_VERSION : Z := 1.

Record ru_compression_params := mk_compr { compr_type : compression_type; data_width : Z }.

(** ** Sizes *)

(** [bits::round_up_to_bytes] *)
Definition round_up_to_bytes (bits : Z) : Z := wrap 32 (bits + 8 - 1) / 8.

Definition is_compression_param_present (t : compression_type) : bool :=
  match t with BFP | mu_law | bfp_selective | mod_selective => true | _ => false end.

Definition get_compressed_prb_size (params : ru_compression_params) : Z :=
  let prb_size := wrap 32 (NOF_SUBCARRIERS_PER_RB * 2 * data_width params) in
  round_up_to_bytes
    (if is_compression_param_present (compr_type params) then wrap 32 (prb_size + 8) else prb_size).

(** ** Views ([span]) *)

Definition subspan {A} (s : list A) (offset count : Z) : result (list A) :=
  assume (offset <=? zlen s) AssertFailed;;
  assume (count <=? zlen s - offset) AssertFailed;;
  Ok (take (Z.to_nat count) (drop (Z.to_nat offset) s)).

Definition span_first {A} (s : list A) (count : Z) : result (list A) :=
  assume (count <=? zlen s) AssertFailed;; subspan s 0 count.

Definition span_last {A} (s : list A) (count : Z) : result (list A) :=
  assume (count <=? zlen s) AssertFailed;; subspan s (zlen s - count) count.

(** ** [network_order_binary_serializer] *)
Module serializer.

(** The memory behind the pointer and the number of bytes advanced. *)
Record t := mk { buffer : list Z; offset : Z }.

Definition advance (s : t) (x : Z) : t := mk (buffer s) (wrap 32 (offset s + x)).

(** [std::memcpy(ptr, ...)] followed by [advance]. *)
Definition write_bytes (s : t) (bytes : list Z) : result t :=
  b ← mem_write (buffer s) (offset s) bytes;
  Ok (advance (mk b (offset s)) (zlen bytes)).

Definition write_u8 (s : t) (x : Z) : result t := write_bytes s [x].
Definition write_u16 (s : t) (x : Z) : result t := write_bytes s (be_bytes 2 x).

(** [get_view_and_advance], with what is then written through the view: [fill] maps
    the bytes of the view to its new bytes. *)
Definition fill_view_and_advance (s : t) (x : Z) (fill : list Z → result (list Z)) : result t :=
  view ← mem_read (buffer s) (offset s) x;
  bytes ← fill view;
  b ← mem_write (buffer s) (offset s) bytes;
  Ok (advance (mk b (offset s)) x).

Definition get_offset (s : t) : Z := offset s.

(** *** What a sequence of writes produces *)

(** [emits f bs]: wherever it starts, [f] puts [bs] at the offset, moves past it
    and touches nothing else. *)
Definition emits (f : t → result t) (bs : list Z) : Prop :=
  ∀ pre old rest, length old = length bs → zlen pre + zlen bs < 2 ^ 32 →
    f (mk (pre ++ old ++ rest) (zlen pre)) = Ok (mk (pre ++ bs ++ rest) (zlen pre + zlen bs)).

Lemma emits_bytes bs : emits (λ s, write_bytes s bs) bs.
Proof.
  intros pre old rest Hl Hz. unfold write_bytes, advance. cbn [buffer offset].
  rewrite mem_write_app by done. cbn [mbind result_bind]. cbn [buffer offset].
  pose proof (zlen_nonneg pre). pose proof (zlen_nonneg bs).
  by rewrite wrap_small by lia_fits.
Qed.

Lemma emits_seq f g a b :
  emits f a → emits g b → emits (λ s, s' ← f s; g s') (a ++ b).
Proof.
  intros Hf Hg pre old rest Hl Hz. rewrite length_app in Hl. rewrite zlen_app in Hz.
  pose proof (zlen_nonneg a). pose proof (zlen_nonneg b).
  rewrite <- (take_drop (length a) old), <- app_assoc.
  rewrite (Hf pre (take (length a) old) (drop (length a) old ++ rest));
    [|rewrite length_take; lia|lia].
  cbn [mbind result_bind].
  pose proof (Hg (pre ++ a) (drop (length a) old) rest) as HG.
  rewrite zlen_app, <- !app_assoc in HG. rewrite HG by (rewrite ?length_drop; lia).
  rewrite zlen_app, <- app_assoc. do 2 f_equal. lia.
Qed.

Lemma emits_nil : emits Ok [].
Proof.
  intros pre old rest Hl _. destruct old; [|done]. change (zlen []) with 0. by rewrite Z.add_0_r.
Qed.

Lemma emits_view x fill bs :
  (∀ view, zlen view = x → fill view = Ok bs) → zlen bs = x →
  emits (λ s, fill_view_and_advance s x fill) bs.
Proof.
  intros Hf Hx pre old rest Hl Hz. unfold fill_view_and_advance. cbn [buffer offset].
  assert (Hold : zlen old = x) by (unfold zlen in *; lia).
  rewrite <- Hold, mem_read_app. cbn [mbind result_bind]. rewrite Hf by done. cbn [mbind result_bind].
  rewrite Hold, <- Hx. exact (emits_bytes bs pre old rest Hl Hz).
Qed.

(** Running on a whole buffer from its start. *)
Lemma emits_run f bs buf :
  emits f bs → zlen bs <= zlen buf → zlen bs < 2 ^ 32 →
  f (mk buf 0) = Ok (mk (bs ++ drop (length bs) buf) (zlen bs)).
Proof.
  intros Hf Hl Hz. pose proof (Hf [] (take (length bs) buf) (drop (length bs) buf)) as H.
  rewrite app_nil_l, take_drop in H. apply H; [|done].
  unfold zlen in *. rewrite length_take. lia.
Qed.

(** A serializer constructed on [buf], the writes [f], and the buffer they leave. *)
Definition on_buffer (buf : list Z) (f : t → result t) : result (list Z) :=
  s ← f (mk buf 0); Ok (buffer s).

Lemma on_buffer_emits f bs buf n :
  emits f bs → length bs = n → Z.of_nat n <= zlen buf → Z.of_nat n < 2 ^ 32 →
  on_buffer buf f = Ok (bs ++ drop n buf).
Proof.
  intros Hf <- Hl Hz. unfold on_buffer. rewrite (emits_run f bs buf) by done. done.
Qed.

End serializer.

#[export] Hint Resolve serializer.emits_bytes serializer.emits_seq serializer.emits_nil : machine.

(** Proves [emits] of a sequence of writes, the bytes being those written. *)
Ltac solve_emits :=
  repeat first
    [ apply serializer.emits_seq
    | exact (serializer.emits_bytes _)
    | eassumption ].

(** ** [network_order_binary_deserializer] *)
Module deserializer.

Record t := mk { data : list Z; offset : Z }.

Definition init (buffer : list Z) : t := mk buffer 0.

Definition advance (d : t) (x : Z) : t := mk (data d) (wrap 32 (offset d + x)).

Definition read_bytes (d : t) (n : Z) : result (list Z * t) :=
  b ← mem_read (data d) (offset d) n;
  Ok (b, advance d n).

Definition read_u8 (d : t) : result (Z * t) := '(b, d) ← read_bytes d 1; Ok (be_value b, d).
Definition read_u16 (d : t) : result (Z * t) := '(b, d) ← read_bytes d 2; Ok (be_value b, d).
Definition read_u32 (d : t) : result (Z * t) := '(b, d) ← read_bytes d 4; Ok (be_value b, d).

Definition get_view_and_advance (d : t) (x : Z) : result (list Z * t) := read_bytes d x.

Definition get_offset (d : t) : Z := offset d.

(** [size - offset], both [unsigned]. *)
Definition remaining_bytes (d : t) : Z := wrap 32 (wrap 32 (zlen (data d)) - offset d).

(** *** Reading what remains *)

Definition wf (d : t) : Prop := 0 <= offset d <= zlen (data d) ∧ zlen (data d) < 2 ^ 32.

(** The bytes not consumed yet. *)
Definition rest (d : t) : list Z := drop (Z.to_nat (offset d)) (data d).

Lemma remaining_rest d : wf d → remaining_bytes d = zlen (rest d).
Proof.
  intros [Ho Hl]. unfold remaining_bytes, rest. rewrite !wrap_small by (rewrite ?wrap_small; lia_fits).
  unfold zlen in *. rewrite length_drop. lia.
Qed.

Lemma read_bytes_rest d n :
  wf d → 0 <= n <= zlen (rest d) →
  ∃ d', read_bytes d n = Ok (take (Z.to_nat n) (rest d), d') ∧ wf d' ∧
    rest d' = drop (Z.to_nat n) (rest d) ∧ data d' = data d ∧ offset d' = offset d + n.
Proof.
  intros [Ho Hl] Hn. unfold rest in *. unfold read_bytes, mem_read, advance.
  assert (Hr : zlen (drop (Z.to_nat (offset d)) (data d)) = zlen (data d) - offset d)
    by (unfold zlen in *; rewrite length_drop; lia).
  rewrite Hr in Hn. test_true. cbn [mbind result_bind].
  rewrite wrap_small by lia_fits. eexists. split; [done|]. cbn [data offset].
  split; [split; cbn [data offset]; lia|]. split_and!; try done.
  rewrite drop_drop. f_equal. lia.
Qed.

Lemma read_u8_rest d x l :
  wf d → rest d = x :: l →
  ∃ d', read_u8 d = Ok (x, d') ∧ wf d' ∧ rest d' = l ∧ data d' = data d ∧ offset d' = offset d + 1.
Proof.
  intros Hw Hr. unfold read_u8.
  destruct (read_bytes_rest d 1 Hw) as (d' & -> & Hw' & Hr' & Hd & Ho).
  { rewrite Hr, zlen_cons. pose proof (zlen_nonneg l). lia. }
  cbn [mbind result_bind]. rewrite Hr. exists d'. rewrite Hr in Hr'. split_and!; try done.
  change (take (Z.to_nat 1) (x :: l)) with [x]. by rewrite be_value_1.
Qed.

(** Reading a 16-bit field. *)
Lemma read_u16_rest d x y l : wf d → rest d = x :: y :: l →
  ∃ d', read_u16 d = Ok (256 * x + y, d') ∧ wf d' ∧ rest d' = l ∧
    data d' = data d ∧ offset d' = offset d + 2.
Proof.
  intros Hw Hr. unfold read_u16.
  destruct (read_bytes_rest d 2 Hw) as (d' & -> & Hw' & Hr' & Hd & Ho).
  { rewrite Hr, !zlen_cons. pose proof (zlen_nonneg l). lia. }
  cbn [mbind result_bind]. rewrite Hr in *. exists d'.
  change (take (Z.to_nat 2) (x :: y :: l)) with [x; y]. by rewrite be_value_2.
Qed.

Lemma reader_init_wf message : zlen message < 2 ^ 32 →
  wf (init message) ∧ rest (init message) = message.
Proof.
  intros Hl. split; [|done]. split; cbn [offset data init];
    pose proof (zlen_nonneg message); lia.
Qed.

(** A view of what remains, from the offset on. *)
Lemma subspan_rest d n : wf d → 0 <= n →
  subspan (data d) (get_offset d) n =
    if n <=? zlen (rest d) then Ok (take (Z.to_nat n) (rest d)) else Fault AssertFailed.
Proof.
  intros [Ho Hl] Hn. unfold subspan, get_offset, rest.
  assert (Hr : zlen (drop (Z.to_nat (offset d)) (data d)) = zlen (data d) - offset d)
    by (unfold zlen in *; rewrite length_drop; lia).
  pass_assume. rewrite Hr. by destruct (n <=? _).
Qed.

Lemma subspan_remaining d : wf d → subspan (data d) (get_offset d) (remaining_bytes d) = Ok (rest d).
Proof.
  intros Hd. rewrite remaining_rest, subspan_rest, Z.leb_refl by (done || apply zlen_nonneg).
  by rewrite take_ge by (unfold zlen; lia).
Qed.

End deserializer.

(** Steps through reads of a deserializer whose remaining bytes are known. *)
Ltac read_field :=
  match goal with
  | Hw : deserializer.wf ?d, Hr : deserializer.rest ?d = ?x :: ?l |- context [deserializer.read_u8 ?d] =>
      let d' := fresh "d" in let Hw' := fresh "Hw" in let Hr' := fresh "Hr" in
      let Hd' := fresh "Hdata" in let Ho' := fresh "Hoff" in
      destruct (deserializer.read_u8_rest d x l Hw Hr) as (d' & -> & Hw' & Hr' & Hd' & Ho');
      cbn [mbind result_bind]; rewrite ?Hd', ?Ho' in *; clear Hw Hr
  | Hw : deserializer.wf ?d, Hr : deserializer.rest ?d = ?x :: ?y :: ?l |- context [deserializer.read_u16 ?d] =>
      let d' := fresh "d" in let Hw' := fresh "Hw" in let Hr' := fresh "Hr" in
      let Hd' := fresh "Hdata" in let Ho' := fresh "Hoff" in
      destruct (deserializer.read_u16_rest d x y l Hw Hr) as (d' & -> & Hw' & Hr' & Hd' & Ho');
      cbn [mbind result_bind]; rewrite ?Hd', ?Ho' in *; clear Hw Hr
  end.

Lemma span_last_tail {A} (e : A) l : span_last (e :: l) (zlen (e :: l) - 1) = Ok l.
Proof.
  unfold span_last, subspan. rewrite zlen_cons. pose proof (zlen_nonneg l). do 3 pass_assume.
  f_equal. replace (1 + zlen l - (1 + zlen l - 1)) with 1 by lia.
  change (drop (Z.to_nat 1) (e :: l)) with l. apply take_ge. unfold zlen. lia.
Qed.
