(* ===== verification/OfhCplane.v ===== *)
(** * OfhCplane: Control-Plane message builder

    Models lib/ofh/serdes/ofh_cplane_message_builder_impl.cpp with its two
    compression-header variants
    (ofh_cplane_message_builder_dynamic_compression_impl.cpp and
    ofh_cplane_message_builder_static_compression_impl.cpp) and the structures of
    include/srsran/ofh/serdes/ofh_cplane_message_properties.h.  The reference is
    the O-RAN bit layout: [wire] functions read the fields of a message with
    division and remainder. *)

From S2P Require Export OfhBase SlotPoint.

(** [octet |= x] on a [uint8_t]. *)
Definition lor8 (octet x : Z) : Z := wrap 8 (Z.lor octet x).

Lemma lor8_0 x : u8 x → lor8 0 x = x.
Proof. intros Hx. unfold lor8. rewrite Z.lor_0_l. by apply wrap_small. Qed.

(** Two disjoint fields of an octet. *)
Lemma lor8_pack hi k lo : 0 <= k < 8 → 0 <= hi < 2 ^ (8 - k) → 0 <= lo < 2 ^ k →
  lor8 (lor8 0 (hi ≪ k)) lo = hi * 2 ^ k + lo.
Proof.
  intros Hk Hh Hl.
  assert (Hp : 2 ^ (8 - k) * 2 ^ k = 256) by (rewrite <- Z.pow_add_r by lia; by replace (8 - k + k) with 8 by lia).
  pose proof (Z.pow_pos_nonneg 2 k ltac:(lia) ltac:(lia)).
  assert (hi * 2 ^ k + 2 ^ k <= 256) by nia.
  assert (0 <= hi * 2 ^ k) by nia.
  rewrite lor8_0 by (rewrite Z.shiftl_mul_pow2 by lia; lia_fits).
  unfold lor8. rewrite lor_shiftl_add by (unfold fits; lia). apply wrap_small. lia_fits.
Qed.

Module cplane.

Record cplane_common_section_0_1_3_5_fields := mk_common {
  section_id : Z; prb_start : Z; nof_prb : Z; re_mask : Z; nof_symbols : Z }.

Record cplane_radio_application_header := mk_header {
  direction : data_direction; filter_index : filter_index_type; start_symbol : Z;
  slot : slot_point.t }.

(** The section types 0 and 1 hold the common fields only. *)
Record cplane_section_type1_parameters := mk_type1 {
  t1_radio_hdr : cplane_radio_application_header;
  t1_section_fields : cplane_common_section_0_1_3_5_fields;
  t1_compr_params : ru_compression_params }.

Inductive cplane_fft_size : Type :=
| fft_noop | fft_128 | fft_256 | fft_512 | fft_1024 | fft_2048 | fft_4096 | fft_1536 | fft_3072.

Definition fft_size_value (f : cplane_fft_size) : Z :=
  match f with
  | fft_noop => 0 | fft_128 => 7 | fft_256 => 8 | fft_512 => 9 | fft_1024 => 10 | fft_2048 => 11
  | fft_4096 => 12 | fft_1536 => 13 | fft_3072 => 14
  end.

Inductive cplane_scs : Type :=
| cp_kHz15 | cp_kHz30 | cp_kHz60 | cp_kHz120 | cp_kHz1_25 | cp_kHz5 | cp_reserved.

Definition cplane_scs_value (s : cplane_scs) : Z :=
  match s with
  | cp_kHz15 => 0 | cp_kHz30 => 1 | cp_kHz60 => 2 | cp_kHz120 => 3 | cp_kHz1_25 => 12
  | cp_kHz5 => 14 | cp_reserved => 15
  end.

Record cplane_section_type0_parameters := mk_type0 {
  t0_radio_hdr : cplane_radio_application_header;
  t0_section_fields : cplane_common_section_0_1_3_5_fields;
  t0_scs : subcarrier_spacing;
  t0_time_offset : Z }.

Record cplane_section_type3_parameters := mk_type3 {
  t3_radio_hdr : cplane_radio_application_header;
  t3_section_fields : cplane_common_section_0_1_3_5_fields;
  t3_frequency_offset : Z;
  t3_compr_params : ru_compression_params;
  t3_scs : cplane_scs;
  t3_fft_size : cplane_fft_size;
  t3_cpLength : Z;
  t3_time_offset : Z }.

(** ** The octets *)

Definition encode_frame_structure (scs : cplane_scs) (fft_size : cplane_fft_size) : Z :=
  let value := wrap 8 (cplane_scs_value scs) in
  wrap 8 (Z.lor value (wrap 8 (fft_size_value fft_size) ≪ 4)).

Definition encode_data_direction (params : cplane_radio_application_header) : Z :=
  let value := lor8 0 (wrap 8 (direction_value (direction params)) ≪ 7) in
  let value := lor8 value (wrap 8 (Z.land OFH_PAYLOAD_VERSION 0x7) ≪ 4) in
  lor8 value (wrap 8 (filter_index_value (filter_index params))).

Definition encode_subframe_and_slot (s : slot_point.t) : Z :=
  let value := lor8 0 (wrap 8 (Z.land (slot_point.subframe_index s) 0xf) ≪ 4) in
  lor8 value (Z.land (wrap 8 (slot_point.subframe_slot_index s ≫ 2)) 0xf).

Definition encode_slot_and_start_symbol (s : slot_point.t) (start_symbol_ : Z) : Z :=
  let value := lor8 0 (wrap 8 (Z.land (slot_point.subframe_slot_index s) 0x3) ≪ 6) in
  lor8 value (Z.land start_symbol_ 0x3f).

Definition encode_sect_id_rb_symbols (section : cplane_common_section_0_1_3_5_fields) : Z :=
  let value := lor8 0 (wrap 8 (Z.land (section_id section) 0xf) ≪ 4) in
  let value := lor8 value (wrap 8 (rb_id_value every_rb_used) ≪ 3) in
  let value := lor8 value (wrap 8 (symbol_incr_value current_symbol_number) ≪ 2) in
  lor8 value (Z.land (wrap 8 (prb_start section ≫ 8)) 0x3).

Definition encode_re_mask_and_nof_symbols (section : cplane_common_section_0_1_3_5_fields) : Z :=
  let value := lor8 0 (wrap 8 (Z.land (re_mask section) 0xf) ≪ 4) in
  lor8 value (wrap 8 (Z.land (nof_symbols section) 0xf)).

(** ** The messages *)

Definition serialize_section_0_1_3_5_fields (section : cplane_common_section_0_1_3_5_fields)
    (s : serializer.t) : result serializer.t :=
  s ← serializer.write_u8 s (wrap 8 (section_id section ≫ 4));
  s ← serializer.write_u8 s (encode_sect_id_rb_symbols section);
  s ← serializer.write_u8 s (wrap 8 (prb_start section));
  s ← serializer.write_u8 s (wrap 8 (if 255 <? nof_prb section then 0 else nof_prb section));
  s ← serializer.write_u8 s (wrap 8 (re_mask section ≫ 4));
  serializer.write_u8 s (encode_re_mask_and_nof_symbols section).

Definition serialize_section1_extensions (s : serializer.t) : result serializer.t :=
  s ← serializer.write_u8 s 0;
  serializer.write_u8 s 0.

Definition serialize_section_1 (section : cplane_common_section_0_1_3_5_fields) (s : serializer.t)
    : result serializer.t :=
  s ← serialize_section_0_1_3_5_fields section s;
  serialize_section1_extensions s.

(** The overriders of the pure virtual [serialize_compression_header]. *)
Inductive compression_mode : Type := dynamic_compression | static_compression.

Definition serialize_compression_header (mode : compression_mode) (compr : ru_compression_params)
    (dir : data_direction) (s : serializer.t) : result serializer.t :=
  match mode with
  | static_compression => serializer.write_u8 s 0
  | dynamic_compression =>
      if decide (dir = downlink) then serializer.write_u8 s 0
      else
        let value := lor8 0 (wrap 8 (if data_width compr =? 16 then 0 else data_width compr) ≪ 4) in
        let value := lor8 value (wrap 8 (compression_value (compr_type compr))) in
        serializer.write_u8 s value
  end.

(** The first six octets, the same statements in the three builders. *)
Definition serialize_radio_header (hdr : cplane_radio_application_header) (section_type : Z)
    (s : serializer.t) : result serializer.t :=
  s ← serializer.write_u8 s (encode_data_direction hdr);
  s ← serializer.write_u8 s (wrap 8 (slot_point.sfn (slot hdr)));
  s ← serializer.write_u8 s (encode_subframe_and_slot (slot hdr));
  s ← serializer.write_u8 s (encode_slot_and_start_symbol (slot hdr) (start_symbol hdr));
  s ← serializer.write_u8 s 1;
  serializer.write_u8 s section_type.

(** Constructs the serializer on the buffer, runs the statements of a builder and
    returns the offset, with the buffer. *)
Definition build (buffer : list Z) (body : serializer.t → result serializer.t) : result (Z * list Z) :=
  s ← body (serializer.mk buffer 0);
  Ok (serializer.get_offset s, serializer.buffer s).

Definition build_dl_ul_radio_channel_message (mode : compression_mode) (buffer : list Z)
    (msg_params : cplane_section_type1_parameters) : result (Z * list Z) :=
  build buffer (λ s,
    s ← serialize_radio_header (t1_radio_hdr msg_params) 1 s;
    s ← serialize_compression_header mode (t1_compr_params msg_params)
          (direction (t1_radio_hdr msg_params)) s;
    s ← serializer.write_u8 s 0;
    serialize_section_1 (t1_section_fields msg_params) s).

Definition to_cplane_scs_value (scs : subcarrier_spacing) : cplane_scs :=
  match scs with
  | kHz15 => cp_kHz15 | kHz30 => cp_kHz30 | kHz60 => cp_kHz60 | kHz120 => cp_kHz120
  | _ => cp_reserved
  end.

Definition encode_cp_length : Z := 0.

Definition serialize_section0_extensions (s : serializer.t) : result serializer.t :=
  s ← serializer.write_u8 s 0;
  serializer.write_u8 s 0.

Definition serialize_section_0 (section : cplane_common_section_0_1_3_5_fields) (s : serializer.t)
    : result serializer.t :=
  s ← serialize_section_0_1_3_5_fields section s;
  serialize_section0_extensions s.

Definition build_idle_guard_period_message (buffer : list Z)
    (msg_params : cplane_section_type0_parameters) : result (Z * list Z) :=
  build buffer (λ s,
    s ← serialize_radio_header (t0_radio_hdr msg_params) 0 s;
    s ← serializer.write_u16 s (t0_time_offset msg_params);
    s ← serializer.write_u8 s (encode_frame_structure (to_cplane_scs_value (t0_scs msg_params)) fft_noop);
    s ← serializer.write_u16 s encode_cp_length;
    s ← serializer.write_u8 s 0;
    serialize_section_0 (t0_section_fields msg_params) s).

Definition serialize_section_3 (section : cplane_common_section_0_1_3_5_fields) (frequency_offset : Z)
    (s : serializer.t) : result serializer.t :=
  s ← serialize_section_0_1_3_5_fields section s;
  s ← serializer.write_u16 s 0;
  s ← serializer.write_u8 s (wrap 8 (frequency_offset ≫ 16));
  s ← serializer.write_u16 s (wrap 16 (Z.land frequency_offset 0xffff));
  serializer.write_u8 s 0.

Definition build_prach_mixed_numerology_message (mode : compression_mode) (buffer : list Z)
    (msg_params : cplane_section_type3_parameters) : result (Z * list Z) :=
  build buffer (λ s,
    s ← serialize_radio_header (t3_radio_hdr msg_params) 3 s;
    s ← serializer.write_u16 s (t3_time_offset msg_params);
    s ← serializer.write_u8 s (encode_frame_structure (t3_scs msg_params) (t3_fft_size msg_params));
    s ← serializer.write_u16 s (wrap 16 (t3_cpLength msg_params));
    s ← serialize_compression_header mode (t3_compr_params msg_params)
          (direction (t3_radio_hdr msg_params)) s;
    serialize_section_3 (t3_section_fields msg_params) (t3_frequency_offset msg_params) s).

(** ** The bytes each part writes *)

Definition section_bytes (section : cplane_common_section_0_1_3_5_fields) : list Z :=
  [wrap 8 (section_id section ≫ 4)] ++ [encode_sect_id_rb_symbols section] ++
  [wrap 8 (prb_start section)] ++
  [wrap 8 (if 255 <? nof_prb section then 0 else nof_prb section)] ++
  [wrap 8 (re_mask section ≫ 4)] ++ [encode_re_mask_and_nof_symbols section].

Lemma section_emits section : serializer.emits (serialize_section_0_1_3_5_fields section) (section_bytes section).
Proof. unfold serialize_section_0_1_3_5_fields, section_bytes, serializer.write_u8. solve_emits. Qed.

Definition header_bytes (hdr : cplane_radio_application_header) (section_type : Z) : list Z :=
  [encode_data_direction hdr] ++ [wrap 8 (slot_point.sfn (slot hdr))] ++
  [encode_subframe_and_slot (slot hdr)] ++
  [encode_slot_and_start_symbol (slot hdr) (start_symbol hdr)] ++ [1] ++ [section_type].

Lemma header_emits hdr ty : serializer.emits (serialize_radio_header hdr ty) (header_bytes hdr ty).
Proof. unfold serialize_radio_header, header_bytes, serializer.write_u8. solve_emits. Qed.

(** The compression octet, 0 when there is none. *)
Definition compression_octet (mode : compression_mode) (compr : ru_compression_params)
    (dir : data_direction) : Z :=
  match mode, dir with
  | dynamic_compression, uplink =>
      (if data_width compr =? 16 then 0 else data_width compr) * 16 + compression_value (compr_type compr)
  | _, _ => 0
  end.

Lemma compression_emits mode compr dir :
  0 <= data_width compr <= 16 →
  serializer.emits (serialize_compression_header mode compr dir) [compression_octet mode compr dir].
Proof.
  intros Hw. unfold serialize_compression_header, serializer.write_u8, compression_octet.
  destruct mode; [|solve_emits]. case_decide as Hd; [subst; solve_emits|].
  destruct dir; [|done]. set (w := if data_width compr =? 16 then 0 else data_width compr).
  assert (0 <= w < 16) by (unfold w; case_Z; lia).
  rewrite !wrap_small by (destruct (compr_type compr); simpl; lia_fits).
  rewrite (lor8_pack w 4) by (destruct (compr_type compr); simpl; lia). solve_emits.
Qed.

Definition type1_bytes mode (p : cplane_section_type1_parameters) : list Z :=
  header_bytes (t1_radio_hdr p) 1 ++
  [compression_octet mode (t1_compr_params p) (direction (t1_radio_hdr p))] ++ [0] ++
  section_bytes (t1_section_fields p) ++ [0] ++ [0].

Definition type0_bytes (p : cplane_section_type0_parameters) : list Z :=
  header_bytes (t0_radio_hdr p) 0 ++ be_bytes 2 (t0_time_offset p) ++
  [encode_frame_structure (to_cplane_scs_value (t0_scs p)) fft_noop] ++ be_bytes 2 0 ++ [0] ++
  section_bytes (t0_section_fields p) ++ [0] ++ [0].

Definition type3_bytes mode (p : cplane_section_type3_parameters) : list Z :=
  header_bytes (t3_radio_hdr p) 3 ++ be_bytes 2 (t3_time_offset p) ++
  [encode_frame_structure (t3_scs p) (t3_fft_size p)] ++ be_bytes 2 (wrap 16 (t3_cpLength p)) ++
  [compression_octet mode (t3_compr_params p) (direction (t3_radio_hdr p))] ++
  section_bytes (t3_section_fields p) ++ be_bytes 2 0 ++
  [wrap 8 (t3_frequency_offset p ≫ 16)] ++
  be_bytes 2 (wrap 16 (Z.land (t3_frequency_offset p) 0xffff)) ++ [0].

Lemma build_emits f bs n buffer :
  serializer.emits f bs → zlen bs = n → n <= zlen buffer → n < 2 ^ 32 →
  build buffer f = Ok (n, bs ++ drop (Z.to_nat n) buffer).
Proof.
  intros Hf <- Hl Hz. unfold build. rewrite (serializer.emits_run f bs) by done.
  by replace (Z.to_nat (zlen bs)) with (length bs) by (unfold zlen; lia).
Qed.

Lemma zlen_type1 mode p : zlen (type1_bytes mode p) = 16.
Proof. done. Qed.

Lemma zlen_be_bytes n z : zlen (be_bytes n z) = Z.of_nat n.
Proof. unfold zlen. by rewrite length_be_bytes. Qed.

Lemma type1_spec mode p buffer :
  0 <= data_width (t1_compr_params p) <= 16 → 16 <= zlen buffer →
  build_dl_ul_radio_channel_message mode buffer p = Ok (16, type1_bytes mode p ++ drop 16 buffer).
Proof.
  intros Hw Hl. apply (build_emits _ (type1_bytes mode p)); [|done|done|done].
  unfold type1_bytes, serialize_section_1, serialize_section1_extensions, serializer.write_u8.
  pose proof (header_emits (t1_radio_hdr p) 1).
  pose proof (compression_emits mode (t1_compr_params p) (direction (t1_radio_hdr p)) Hw).
  pose proof (section_emits (t1_section_fields p)). solve_emits.
Qed.

Lemma type0_spec p buffer :
  20 <= zlen buffer →
  build_idle_guard_period_message buffer p = Ok (20, type0_bytes p ++ drop 20 buffer).
Proof.
  intros Hl. apply (build_emits _ (type0_bytes p)); [| |done|done].
  - unfold type0_bytes, serialize_section_0, serialize_section0_extensions, serializer.write_u8,
      serializer.write_u16.
    pose proof (header_emits (t0_radio_hdr p) 0). pose proof (section_emits (t0_section_fields p)).
    solve_emits.
  - unfold type0_bytes. rewrite !zlen_app, !zlen_be_bytes. done.
Qed.

Lemma type3_spec mode p buffer :
  0 <= data_width (t3_compr_params p) <= 16 → 24 <= zlen buffer →
  build_prach_mixed_numerology_message mode buffer p = Ok (24, type3_bytes mode p ++ drop 24 buffer).
Proof.
  intros Hw Hl. apply (build_emits _ (type3_bytes mode p)); [| |done|done].
  - unfold type3_bytes, serialize_section_3, serializer.write_u8, serializer.write_u16.
    pose proof (header_emits (t3_radio_hdr p) 3).
    pose proof (compression_emits mode (t3_compr_params p) (direction (t3_radio_hdr p)) Hw).
    pose proof (section_emits (t3_section_fields p)). solve_emits.
  - unfold type3_bytes. rewrite !zlen_app, !zlen_be_bytes. done.
Qed.


(** ** The O-RAN layout of the fields *)

Record wire_header := mk_wire_header {
  w_direction : Z; w_version : Z; w_filter : Z; w_frame : Z; w_subframe : Z; w_slot : Z; w_symbol : Z }.

Record wire_section := mk_wire_section {
  w_section_id : Z; w_rb : Z; w_sym_inc : Z; w_start_prb : Z; w_num_prb : Z; w_re_mask : Z;
  w_num_symbol : Z }.

(** The octet at a position of a message. *)
Definition octet (msg : list Z) (i : nat) : Z := nth i msg 0.

(** The radio application header takes the first four octets. *)
Definition wire_header_of (msg : list Z) : wire_header :=
  mk_wire_header (octet msg 0 / 128) (octet msg 0 / 16 mod 8) (octet msg 0 mod 16) (octet msg 1)
    (octet msg 2 / 16) (octet msg 2 mod 16 * 4 + octet msg 3 / 64) (octet msg 3 mod 64).

(** The section header takes six octets. *)
Definition wire_section_of (msg : list Z) (at_ : nat) : wire_section :=
  let b i := octet msg (at_ + i) in
  mk_wire_section (b 0%nat * 16 + b 1%nat / 16) (b 1%nat / 8 mod 2) (b 1%nat / 4 mod 2)
    (b 1%nat mod 4 * 256 + b 2%nat) (b 3%nat) (b 4%nat * 16 + b 5%nat / 16) (b 5%nat mod 16).

(** What the fields of the parameters should read as: the frame number is sent
    modulo 256 and more than 255 blocks are sent as 0. *)
Definition header_fields (hdr : cplane_radio_application_header) : wire_header :=
  mk_wire_header (direction_value (direction hdr)) 1 (filter_index_value (filter_index hdr))
    (slot_point.sfn (slot hdr) mod 256) (slot_point.subframe_index (slot hdr))
    (slot_point.subframe_slot_index (slot hdr)) (start_symbol hdr).

Definition section_fields (section : cplane_common_section_0_1_3_5_fields) : wire_section :=
  mk_wire_section (section_id section) 0 0 (prb_start section)
    (if 255 <? nof_prb section then 0 else nof_prb section) (re_mask section) (nof_symbols section).

(** Parameters that fit their fields. *)
Definition header_ok (hdr : cplane_radio_application_header) : Prop :=
  slot_point.wf (slot hdr) ∧ 0 <= start_symbol hdr < 64.

Definition section_ok (section : cplane_common_section_0_1_3_5_fields) : Prop :=
  0 <= section_id section < 4096 ∧ 0 <= prb_start section < 1024 ∧ 0 <= nof_prb section < 2 ^ 32 ∧
  0 <= re_mask section < 4096 ∧ 0 <= nof_symbols section < 16.

Lemma land_15 x : Z.land x 0xf = x mod 16.
Proof. exact (land_mask 4 x ltac:(lia)). Qed.
Lemma land_3 x : Z.land x 0x3 = x mod 4.
Proof. exact (land_mask 2 x ltac:(lia)). Qed.
Lemma land_63 x : Z.land x 0x3f = x mod 64.
Proof. exact (land_mask 6 x ltac:(lia)). Qed.
Lemma land_ffff x : Z.land x 0xffff = x mod 65536.
Proof. exact (land_mask 16 x ltac:(lia)). Qed.

Lemma subframe_ranges s : slot_point.wf s →
  0 <= slot_point.subframe_index s < 10 ∧ 0 <= slot_point.subframe_slot_index s < 16 ∧
  0 <= slot_point.sfn s < 1024.
Proof. intros Hs. slot_point.slot_cases s Hs; lia. Qed.

Lemma encode_subframe_value s : slot_point.wf s →
  encode_subframe_and_slot s = slot_point.subframe_index s * 16 + slot_point.subframe_slot_index s / 4.
Proof.
  intros (Hf & Hi & _)%subframe_ranges. unfold encode_subframe_and_slot.
  rewrite !land_15, Z.shiftr_div_pow2 by lia. change (2 ^ 2) with 4.
  rewrite !(Z.mod_small _ 16) by (rewrite ?wrap_small; lia_fits).
  rewrite !wrap_small by lia_fits. by apply (lor8_pack _ 4); lia.
Qed.

Lemma encode_symbol_value s sym : slot_point.wf s → 0 <= sym < 64 →
  encode_slot_and_start_symbol s sym = slot_point.subframe_slot_index s mod 4 * 64 + sym.
Proof.
  intros (_ & Hi & _)%subframe_ranges Hs. unfold encode_slot_and_start_symbol.
  rewrite land_3, land_63, (Z.mod_small sym 64) by lia. rewrite wrap_small by lia_fits.
  apply (lor8_pack _ 6); lia.
Qed.

Lemma encode_sect_value section : section_ok section →
  encode_sect_id_rb_symbols section = section_id section mod 16 * 16 + prb_start section / 256.
Proof.
  intros (Hi & Hp & _). unfold encode_sect_id_rb_symbols. cbn [rb_id_value symbol_incr_value].
  rewrite land_15, land_3, Z.shiftr_div_pow2 by lia. change (2 ^ 8) with 256.
  rewrite (wrap_small 8 (prb_start section / 256)), (Z.mod_small _ 4) by lia_fits.
  rewrite (wrap_small 8 (section_id section mod 16)) by lia_fits.
  change (wrap 8 0 ≪ 3) with 0. change (wrap 8 0 ≪ 2) with 0.
  assert (H0 : ∀ x, u8 x → lor8 x 0 = x).
  { intros x Hx. unfold lor8. rewrite Z.lor_0_r. by apply wrap_small. }
  rewrite !(H0 (lor8 0 _)); [apply (lor8_pack _ 4); lia|by apply wrap_fits..].
Qed.

Lemma encode_mask_value section : section_ok section →
  encode_re_mask_and_nof_symbols section = re_mask section mod 16 * 16 + nof_symbols section.
Proof.
  intros (_ & _ & _ & Hm & Hs). unfold encode_re_mask_and_nof_symbols.
  rewrite !land_15, (Z.mod_small (nof_symbols section) 16) by lia.
  rewrite !wrap_small by lia_fits. apply (lor8_pack _ 4); lia.
Qed.

Lemma header_layout hdr ty rest : header_ok hdr →
  wire_header_of (header_bytes hdr ty ++ rest) = header_fields hdr.
Proof.
  intros [Hs Hy]. pose proof (subframe_ranges _ Hs). unfold wire_header_of, header_fields, header_bytes.
  cbn [octet nth app]. rewrite encode_subframe_value, encode_symbol_value by done.
  f_equal; try lia.
  all: unfold encode_data_direction; destruct (direction hdr), (filter_index hdr); done.
Qed.

Lemma section_layout section pre rest : section_ok section →
  wire_section_of (pre ++ section_bytes section ++ rest) (length pre) = section_fields section.
Proof.
  intros Hs. pose proof Hs as (Hi & Hp & Hn & Hm & Hy). unfold_fits.
  unfold wire_section_of, octet, section_fields.
  rewrite !app_nth2_plus. unfold section_bytes. cbn [app nth].
  rewrite encode_sect_value, encode_mask_value, !Z.shiftr_div_pow2 by (done || lia).
  change (2 ^ 4) with 16. unfold wrap. change (2 ^ 8) with 256. f_equal; try lia.
  case_Z; lia.
Qed.

(** ** Property *)

(** each of the three Control-Plane builders writes exactly its message (16,
    20 and 24 octets) at the start of the buffer, leaves the rest untouched and
    returns that size; read by the O-RAN layout the message has one section of
    the right type and every field of the parameters, the frame number modulo
    256, 0 for more than 255 blocks, the compression octet only for uplink
    messages of a dynamic-compression sender, and the 24-bit frequency offset in
    two's complement. *)
Theorem control_messages_layout mode buffer p1 p0 p3 :
  24 <= zlen buffer →
  header_ok (t1_radio_hdr p1) → header_ok (t0_radio_hdr p0) → header_ok (t3_radio_hdr p3) →
  section_ok (t1_section_fields p1) → section_ok (t0_section_fields p0) → section_ok (t3_section_fields p3) →
  0 <= data_width (t1_compr_params p1) <= 16 → 0 <= data_width (t3_compr_params p3) <= 16 →
  (∃ m, build_dl_ul_radio_channel_message mode buffer p1 = Ok (16, m ++ drop 16 buffer) ∧
     wire_header_of m = header_fields (t1_radio_hdr p1) ∧ octet m 4 = 1 ∧ octet m 5 = 1 ∧
     octet m 6 = compression_octet mode (t1_compr_params p1) (direction (t1_radio_hdr p1)) ∧
     wire_section_of m 8 = section_fields (t1_section_fields p1)) ∧
  (∃ m, build_idle_guard_period_message buffer p0 = Ok (20, m ++ drop 20 buffer) ∧
     wire_header_of m = header_fields (t0_radio_hdr p0) ∧ octet m 4 = 1 ∧ octet m 5 = 0 ∧
     wire_section_of m 12 = section_fields (t0_section_fields p0)) ∧
  (∃ m, build_prach_mixed_numerology_message mode buffer p3 = Ok (24, m ++ drop 24 buffer) ∧
     wire_header_of m = header_fields (t3_radio_hdr p3) ∧ octet m 4 = 1 ∧ octet m 5 = 3 ∧
     octet m 11 = compression_octet mode (t3_compr_params p3) (direction (t3_radio_hdr p3)) ∧
     wire_section_of m 12 = section_fields (t3_section_fields p3) ∧
     octet m 20 * 65536 + octet m 21 * 256 + octet m 22 = t3_frequency_offset p3 mod 2 ^ 24).
Proof.
  intros Hb H1 H0 H3 S1 S0 S3 W1 W3. split; [|split].
  - exists (type1_bytes mode p1). rewrite type1_spec by (done || lia). split; [done|].
    split_and!; [by apply header_layout|done..|].
    pose proof (section_layout (t1_section_fields p1)
      (header_bytes (t1_radio_hdr p1) 1 ++
       [compression_octet mode (t1_compr_params p1) (direction (t1_radio_hdr p1))] ++ [0]) ([0] ++ [0]) S1) as HS.
    by rewrite <- !app_assoc in HS.
  - exists (type0_bytes p0). rewrite type0_spec by (done || lia). split; [done|].
    split_and!; [by apply header_layout|done..|].
    pose proof (section_layout (t0_section_fields p0)
      (header_bytes (t0_radio_hdr p0) 0 ++ be_bytes 2 (t0_time_offset p0) ++
       [encode_frame_structure (to_cplane_scs_value (t0_scs p0)) fft_noop] ++ be_bytes 2 0 ++ [0])
      ([0] ++ [0]) S0) as HS.
    rewrite !length_app, !length_be_bytes, <- !app_assoc in HS. exact HS.
  - exists (type3_bytes mode p3). rewrite type3_spec by (done || lia). split; [done|].
    unfold type3_bytes. rewrite !be_bytes_2, land_ffff, !Z.shiftr_div_pow2 by lia.
    split_and!; [by apply header_layout|done..| |].
    + exact (section_layout (t3_section_fields p3) (header_bytes (t3_radio_hdr p3) 3 ++ [_; _] ++ [_] ++ [_; _] ++ [_]) _ S3).
    + unfold octet, section_bytes, header_bytes. cbn [app nth]. unfold wrap. unfold_fits. lia.
Qed.

(** An uplink header in the last slot of a system frame, and a wide section. *)
Definition example_header : cplane_radio_application_header :=
  mk_header uplink ul_prach_preamble_short 13 (slot_point.mk 1 20479).
Definition example_section : cplane_common_section_0_1_3_5_fields := mk_common 3001 770 273 4095 14.
Definition example_compr : ru_compression_params := mk_compr BFP 9.

Lemma control_messages_layout_witness :
  ∃ m, build_prach_mixed_numerology_message dynamic_compression (replicate 30 0)
      (mk_type3 example_header example_section (-3288) example_compr cp_kHz30 fft_1024 0 2048) =
        Ok (24, m ++ replicate 6 0) ∧
    octet m 20 * 65536 + octet m 21 * 256 + octet m 22 = 2 ^ 24 - 3288.
Proof.
  destruct (control_messages_layout dynamic_compression (replicate 30 0)
    (mk_type1 example_header example_section example_compr)
    (mk_type0 example_header example_section kHz30 100)
    (mk_type3 example_header example_section (-3288) example_compr cp_kHz30 fft_1024 0 2048))
    as (_ & _ & m & HB & _ & _ & _ & _ & _ & HF).
  - vm_compute. discriminate.
  - split; [slot_point.solve_wf|simpl; lia].
  - split; [slot_point.solve_wf|simpl; lia].
  - split; [slot_point.solve_wf|simpl; lia].
  - unfold section_ok; simpl; lia.
  - unfold section_ok; simpl; lia.
  - unfold section_ok; simpl; lia.
  - simpl; lia.
  - simpl; lia.
  - exists m. split; [exact HB|exact HF].
Defined.

End cplane.
