(* ===== verification/OfhUplane.v ===== *)
(** * OfhUplane: User-Plane message builder, decoder and peekers

    Models lib/ofh/serdes/ofh_uplane_message_builder_impl.cpp and
    ofh_uplane_message_decoder_impl.cpp with their static and dynamic
    compression variants, and the structures of
    include/srsran/ofh/serdes/ofh_uplane_message_properties.h and
    ofh_uplane_message_decoder_properties.h.  Compressor and decompressor are the
    interfaces [iq_compressor] and [iq_decompressor]. *)

From S2P Require Export OfhCplane Bf16.

(** [iq_compressor::compress] maps the bytes of the view it is given to those it
    leaves there; [iq_decompressor::decompress] gives the samples it writes to a
    value-initialised span of the given size. *)
Class IqCompressor := {
  iq_compress : list Z → list cbf16_t → ru_compression_params → result (list Z) }.
Class IqDecompressor := {
  iq_decompress : Z → list Z → ru_compression_params → result (list cbf16_t) }.

Module uplane.

Record uplane_message_params := mk_params {
  direction : data_direction; slot : slot_point.t; filter_index : filter_index_type;
  start_prb : Z; nof_prb : Z; symbol_id : Z; sect_type : section_type;
  compression_params : ru_compression_params }.

(** ** The builder *)
Section builder.
Context {compressor : IqCompressor}.

Definition encode_data_direction : Z :=
  let octet := lor8 0 (wrap 8 (direction_value downlink) ≪ 7) in
  lor8 octet (wrap 8 OFH_PAYLOAD_VERSION ≪ 4).

Definition encode_subframe_and_slot (s : slot_point.t) : Z :=
  let octet := lor8 0 (wrap 8 (slot_point.subframe_index s) ≪ 4) in
  lor8 octet (wrap 8 (slot_point.subframe_slot_index s ≫ 2)).

Definition encode_slot_lsb_and_symbol (params : uplane_message_params) : Z :=
  let octet := lor8 0 (wrap 8 (Z.land (slot_point.subframe_slot_index (slot params)) 0x3) ≪ 6) in
  lor8 octet (wrap 8 (symbol_id params)).

Definition encode_sect_id_rb_symbols (params : uplane_message_params) : Z :=
  let octet := lor8 0 (wrap 8 (rb_id_value every_rb_used) ≪ 3) in
  let octet := lor8 octet (wrap 8 (symbol_incr_value current_symbol_number) ≪ 2) in
  lor8 octet (Z.land (wrap 8 (start_prb params ≫ 8)) 0x3).

Definition build_radio_app_header (params : uplane_message_params) (s : serializer.t)
    : result serializer.t :=
  s ← serializer.write_u8 s encode_data_direction;
  s ← serializer.write_u8 s (wrap 8 (slot_point.sfn (slot params)));
  s ← serializer.write_u8 s (encode_subframe_and_slot (slot params));
  serializer.write_u8 s (encode_slot_lsb_and_symbol params).

Definition build_section1_header (params : uplane_message_params) (s : serializer.t)
    : result serializer.t :=
  s ← serializer.write_u8 s 0;
  s ← serializer.write_u8 s (encode_sect_id_rb_symbols params);
  s ← serializer.write_u8 s (wrap 8 (start_prb params));
  serializer.write_u8 s (wrap 8 (if 255 <? nof_prb params then 0 else nof_prb params)).

(** The overriders of [serialize_compression_header] and [get_header_size]. *)
Definition serialize_compression_header (mode : cplane.compression_mode) (params : ru_compression_params)
    (s : serializer.t) : result serializer.t :=
  match mode with
  | cplane.static_compression => Ok s
  | cplane.dynamic_compression =>
      let value := lor8 0 (wrap 8 (if data_width params =? 16 then 0 else data_width params) ≪ 4) in
      let value := lor8 value (wrap 8 (compression_value (compr_type params))) in
      s ← serializer.write_u8 s value;
      serializer.write_u8 s 0
  end.

Definition is_selective (t : compression_type) : bool :=
  match t with bfp_selective | mod_selective => true | _ => false end.

Definition get_header_size (mode : cplane.compression_mode) (params : ru_compression_params) : Z :=
  let hdr_size := match mode with cplane.dynamic_compression => 10 | cplane.static_compression => 8 end in
  if is_selective (compr_type params) then hdr_size + 2 else hdr_size.

Definition serialize_iq_data (mode : cplane.compression_mode) (ud_comp_length_support : bool)
    (iq_data : list cbf16_t) (nof_prbs : Z) (compr_params : ru_compression_params)
    (s : serializer.t) : result serializer.t :=
  s ← serialize_compression_header mode compr_params s;
  s ← (if ud_comp_length_support && is_selective (compr_type compr_params) then
         serializer.write_u16 s
           (wrap 16 (round_up_to_bytes (wrap 32 (NOF_SUBCARRIERS_PER_RB * 2 * data_width compr_params))))
       else Ok s);
  let prb_size := get_compressed_prb_size compr_params in
  let bytes_to_serialize := wrap 32 (prb_size * nof_prbs) in
  serializer.fill_view_and_advance s bytes_to_serialize
    (λ view, iq_compress view iq_data compr_params).

Definition build_message (mode : cplane.compression_mode) (ud_comp_length_support : bool)
    (buffer : list Z) (iq_data : list cbf16_t) (params : uplane_message_params)
    : result (Z * list Z) :=
  assume (bool_decide (sect_type params = type_1)) AssertFailed;;
  assume (zlen iq_data =? wrap 64 (nof_prb params * NOF_SUBCARRIERS_PER_RB)) AssertFailed;;
  cplane.build buffer (λ s,
    s ← build_radio_app_header params s;
    s ← build_section1_header params s;
    serialize_iq_data mode ud_comp_length_support iq_data (nof_prb params) (compression_params params) s).

End builder.

(** ** The decoder *)

Definition MAX_NOF_PRBS : Z := 275.
Definition NOF_BYTES_UP_HEADER : Z := 4.
Definition SECTION_ID_HEADER_NO_COMPRESSION_SIZE : Z := 4.
Definition RESULTS_MAX_NOF_SUPPORTED_SECTIONS : Z := 2.

(** [uplane_section_params]; [ud_comp_param] is never set. *)
Record uplane_section_params := mk_section {
  section_id : Z; is_every_rb_used : bool; use_current_symbol_number : bool;
  sec_start_prb : Z; sec_nof_prbs : Z; ud_comp_hdr : ru_compression_params;
  ud_comp_len : option Z; iq_samples : list cbf16_t }.

(** The header fields [decode_header] sets. *)
Record decoded_params := mk_decoded {
  d_direction : data_direction; d_slot : slot_point.t; d_filter_index : filter_index_type;
  d_symbol_id : Z }.

Record uplane_message_decoder_results := mk_results {
  params : decoded_params; sections : list uplane_section_params }.

Inductive decoded_section_status : Type := ok | incomplete | malformed.

(** Members of a decoder: [Some p] for a static-compression one. *)
Record decoder := mk_decoder {
  scs : subcarrier_spacing; nof_symbols : Z; ru_nof_prbs : Z;
  static_params : option ru_compression_params }.

Section decoding.
Context {decompressor : IqDecompressor}.

Definition is_header_valid (p : decoded_params) (nof_symbols_ version : Z) : bool :=
  if decide (d_direction p ≠ uplink) then false
  else if negb (version =? OFH_PAYLOAD_VERSION) then false
  else if decide (d_filter_index p = filter_reserved) then false
  else if nof_symbols_ <=? d_symbol_id p then false
  else true.

Definition decode_header (self : decoder) (p : decoded_params) (d : deserializer.t)
    : result (bool * decoded_params * deserializer.t) :=
  if deserializer.remaining_bytes d <? NOF_BYTES_UP_HEADER then Ok (false, p, d) else
  '(value, d) ← deserializer.read_u8 d;
  let direction_ := if value ≫ 7 =? 0 then uplink else downlink in
  let version := Z.land (value ≫ 4) 7 in
  let filter_ := to_filter_index_type (Z.land value 0xf) in
  '(frame, d) ← deserializer.read_u8 d;
  '(subframe_and_slot, d) ← deserializer.read_u8 d;
  let subframe := subframe_and_slot ≫ 4 in
  let slot_id := Z.lor 0 (Z.land subframe_and_slot 0x0f ≪ 2) in
  '(slot_and_symbol, d) ← deserializer.read_u8 d;
  let symbol := Z.land slot_and_symbol 0x3f in
  let slot_id := Z.lor slot_id (slot_and_symbol ≫ 6) in
  let p := mk_decoded direction_ (d_slot p) filter_ symbol in
  if NOF_SUBFRAMES_PER_FRAME <=? subframe then Ok (false, p, d) else
  s0 ← slot_point.of_count (to_numerology_value (scs self)) 0;
  if slot_point.nof_slots_per_subframe s0 <=? slot_id then Ok (false, p, d) else
  s ← slot_point.of_subframe (to_numerology_value (scs self)) frame subframe slot_id;
  let p := mk_decoded direction_ s filter_ symbol in
  Ok (is_header_valid p (nof_symbols self) version, p, d).

(** [decoder_uplane_section_params] before the samples are decoded. *)
Definition decode_section_header (self : decoder) (d : deserializer.t)
    : result (decoded_section_status * uplane_section_params * deserializer.t) :=
  let empty := mk_section 0 false false 0 0 (mk_compr none 0) None [] in
  if deserializer.remaining_bytes d <? SECTION_ID_HEADER_NO_COMPRESSION_SIZE
  then Ok (incomplete, empty, d) else
  '(b, d) ← deserializer.read_u8 d;
  let id := Z.lor 0 (b ≪ 4) in
  '(section_and_rest, d) ← deserializer.read_u8 d;
  let id := Z.lor id (section_and_rest ≫ 4) in
  let every := Z.land (section_and_rest ≫ 3) 1 =? 0 in
  let current := Z.land (section_and_rest ≫ 2) 1 =? 0 in
  let start := Z.lor 0 (Z.land section_and_rest 0x03 ≪ 8) in
  '(b, d) ← deserializer.read_u8 d;
  let start := Z.lor start b in
  '(nof, d) ← deserializer.read_u8 d;
  let '(nof, start) := if nof =? 0 then (ru_nof_prbs self, 0) else (nof, start) in
  Ok (ok, mk_section id every current start nof (mk_compr none 0) None [], d).

(** The overriders of [decode_compression_header]. *)
Definition decode_compression_header (self : decoder) (sec : uplane_section_params) (d : deserializer.t)
    : result (decoded_section_status * uplane_section_params * deserializer.t) :=
  let with_hdr h := mk_section (section_id sec) (is_every_rb_used sec) (use_current_symbol_number sec)
    (sec_start_prb sec) (sec_nof_prbs sec) h (ud_comp_len sec) (iq_samples sec) in
  match static_params self with
  | Some p => Ok (ok, with_hdr p, d)
  | None =>
      if deserializer.remaining_bytes d <? 2 then Ok (incomplete, sec, d) else
      '(value, d) ← deserializer.read_u8 d;
      let t := to_compression_type (Z.land value 0x0f) in
      if decide (t = reserved) then Ok (malformed, with_hdr (mk_compr t (data_width (ud_comp_hdr sec))), d) else
      let width := value ≫ 4 in
      Ok (ok, with_hdr (mk_compr t (if width =? 0 then MAX_IQ_WIDTH else width)), deserializer.advance d 1)
  end.

Definition decode_compression_length (sec : uplane_section_params) (d : deserializer.t)
    : result (decoded_section_status * uplane_section_params * deserializer.t) :=
  match compr_type (ud_comp_hdr sec) with
  | none | BFP | block_scaling | mu_law | modulation => Ok (ok, sec, d)
  | _ =>
      if deserializer.remaining_bytes d <? 2 then Ok (incomplete, sec, d) else
      '(len, d) ← deserializer.read_u16 d;
      Ok (ok, mk_section (section_id sec) (is_every_rb_used sec) (use_current_symbol_number sec)
                (sec_start_prb sec) (sec_nof_prbs sec) (ud_comp_hdr sec) (Some len) (iq_samples sec), d)
  end.

Definition check_iq_data_size (nof_prb_ : Z) (d : deserializer.t) (c : ru_compression_params) : bool :=
  let prb_iq_data_size := round_up_to_bytes (wrap 32 (NOF_SUBCARRIERS_PER_RB * 2 * data_width c)) in
  let prb_iq_data_size :=
    if is_compression_param_present (compr_type c) then wrap 32 (prb_iq_data_size + 1) else prb_iq_data_size in
  negb (deserializer.remaining_bytes d <? wrap 32 (prb_iq_data_size * nof_prb_)).

Definition decode_iq_data (sec : uplane_section_params) (d : deserializer.t)
    : result (uplane_section_params * deserializer.t) :=
  let c := ud_comp_hdr sec in
  let bits := wrap 32 (NOF_SUBCARRIERS_PER_RB * 2 * data_width c) in
  let bits := if is_compression_param_present (compr_type c) then wrap 32 (bits + 8) else bits in
  '(compressed_data, d) ←
    deserializer.get_view_and_advance d (wrap 32 (sec_nof_prbs sec * round_up_to_bytes bits));
  let n := wrap 32 (sec_nof_prbs sec * NOF_SUBCARRIERS_PER_RB) in
  assume (n <=? MAX_NOF_PRBS * NOF_SUBCARRIERS_PER_RB) AssertFailed;;
  samples ← iq_decompress n compressed_data c;
  Ok (mk_section (section_id sec) (is_every_rb_used sec) (use_current_symbol_number sec)
        (sec_start_prb sec) (sec_nof_prbs sec) c (ud_comp_len sec) samples, d).

(** The checks after each part: any status but [ok] is returned at once. *)
Definition on_ok (secs : list uplane_section_params)
    (r : result (decoded_section_status * uplane_section_params * deserializer.t))
    (k : uplane_section_params → deserializer.t →
         result (decoded_section_status * list uplane_section_params * deserializer.t))
    : result (decoded_section_status * list uplane_section_params * deserializer.t) :=
  '(status, sec, d) ← r;
  match (status : decoded_section_status) with ok => k sec d | st => Ok (st, secs, d) end.

(** From the check of the size to the end of [decode_section]. *)
Definition decode_section_samples (secs : list uplane_section_params) (sec : uplane_section_params)
    (d : deserializer.t) : result (decoded_section_status * list uplane_section_params * deserializer.t) :=
  if negb (check_iq_data_size (sec_nof_prbs sec) d (ud_comp_hdr sec)) then Ok (incomplete, secs, d) else
  assume (zlen secs <? RESULTS_MAX_NOF_SUPPORTED_SECTIONS) AssertFailed;;
  '(sec, d) ← decode_iq_data sec d;
  Ok (ok, secs ++ [sec], d).

Definition decode_section (self : decoder) (secs : list uplane_section_params) (d : deserializer.t)
    : result (decoded_section_status * list uplane_section_params * deserializer.t) :=
  on_ok secs (decode_section_header self d) (λ sec d,
    on_ok secs (decode_compression_header self sec d) (λ sec d,
      on_ok secs (decode_compression_length sec d) (λ sec d,
        decode_section_samples secs sec d))).

(** [while (deserializer.remaining_bytes())] *)
Fixpoint decode_sections_loop (fuel : nat) (self : decoder) (secs : list uplane_section_params)
    (d : deserializer.t) : result (bool * list uplane_section_params) :=
  if deserializer.remaining_bytes d =? 0 then Ok (bool_decide (secs ≠ []), secs) else
  match fuel with
  | O => Fault OutOfFuel
  | S fuel =>
      '(status, secs, d) ← decode_section self secs d;
      match (status : decoded_section_status) with
      | incomplete => Ok (bool_decide (secs ≠ []), secs)
      | malformed => Ok (false, secs)
      | ok =>
          if zlen secs =? RESULTS_MAX_NOF_SUPPORTED_SECTIONS then Ok (false, secs)
          else decode_sections_loop fuel self secs d
      end
  end.

Definition decode_all_sections (self : decoder) (secs : list uplane_section_params) (d : deserializer.t)
    : result (bool * list uplane_section_params) :=
  decode_sections_loop (length (deserializer.data d)) self secs d.

Definition decode (self : decoder) (results : uplane_message_decoder_results) (message : list Z)
    : result (bool * uplane_message_decoder_results) :=
  let d := deserializer.init message in
  '(valid, p, d) ← decode_header self (params results) d;
  if negb valid then Ok (false, mk_results p (sections results)) else
  '(valid, secs) ← decode_all_sections self (sections results) d;
  Ok ((valid : bool), mk_results p secs).

End decoding.

(** ** The peekers *)

Definition peek_filter_index (message : list Z) : filter_index_type :=
  match message with [] => filter_reserved | b :: _ => to_filter_index_type (Z.land b 0xf) end.

Definition peek_slot_symbol_point (message : list Z) (nof_symbols_ : Z) (scs_ : subcarrier_spacing)
    : result slot_symbol_point.t :=
  match message with
  | _ :: frame :: subframe_and_slot :: slot_and_symbol :: _ =>
      let subframe := subframe_and_slot ≫ 4 in
      let slot_id := Z.lor 0 (Z.land subframe_and_slot 0x0f ≪ 2) in
      let symbol := Z.land slot_and_symbol 0x3f in
      let slot_id := Z.lor slot_id (slot_and_symbol ≫ 6) in
      if NOF_SUBFRAMES_PER_FRAME <=? subframe
      then slot_symbol_point.of_slot slot_point.invalid 0 nof_symbols_ else
      s0 ← slot_point.of_count (to_numerology_value scs_) 0;
      if slot_point.nof_slots_per_subframe s0 <=? slot_id
      then slot_symbol_point.of_slot slot_point.invalid 0 nof_symbols_ else
      s ← slot_point.of_subframe (to_numerology_value scs_) frame subframe slot_id;
      slot_symbol_point.of_slot s symbol nof_symbols_
  | _ => slot_symbol_point.of_slot slot_point.invalid 0 nof_symbols_
  end.

(** ** Reading the header *)

Lemma slot_id_value a b : u8 a → u8 b →
  Z.lor (Z.lor 0 (Z.land a 0x0f ≪ 2)) (b ≫ 6) = a mod 16 * 4 + b / 64.
Proof.
  intros Ha Hb. rewrite Z.lor_0_l, cplane.land_15, Z.shiftr_div_pow2 by lia.
  rewrite lor_shiftl_add by lia_fits. done.
Qed.

Lemma land_7 x : Z.land x 7 = x mod 8.
Proof. exact (land_mask 3 x ltac:(lia)). Qed.

Lemma shiftr_4 x : x ≫ 4 = x / 16.
Proof. by rewrite Z.shiftr_div_pow2. Qed.

(** The decoder's view of the header is the O-RAN layout. *)
Definition header_accepted (self : decoder) (h : cplane.wire_header) : Prop :=
  cplane.w_direction h = 0 ∧ cplane.w_version h = 1 ∧ cplane.w_filter h < 8 ∧
  cplane.w_subframe h < 10 ∧ cplane.w_slot h < 2 ^ to_numerology_value (scs self) ∧
  cplane.w_symbol h < nof_symbols self.

Lemma filter_reserved_iff x : 0 <= x → to_filter_index_type x = filter_reserved ↔ 8 <= x.
Proof.
  intros Hx. destruct (decide (x < 8)).
  - assert (x = 0 ∨ x = 1 ∨ x = 2 ∨ x = 3 ∨ x = 4 ∨ x = 5 ∨ x = 6 ∨ x = 7) as HH by lia.
    destruct HH as [->|[->|[->|[->|[->|[->|[->| ->]]]]]]]; split; (done || lia).
  - split; [lia|]. intros _.
    destruct x as [|[[[[]|[]|]|[[]|[]|]|]|[[[]|[]|]|[[]|[]|]|]|]|]; done || lia.
Qed.

Lemma decode_header_spec self p d b0 b1 b2 b3 l :
  deserializer.wf d → deserializer.rest d = b0 :: b1 :: b2 :: b3 :: l →
  bytes_ok [b0; b1; b2; b3] → is_scs_valid (scs self) = true →
  let h := cplane.wire_header_of [b0; b1; b2; b3] in
  ∃ valid p' d', decode_header self p d = Ok (valid, p', d') ∧
    deserializer.wf d' ∧ deserializer.rest d' = l ∧ deserializer.data d' = deserializer.data d ∧
    (valid = true ↔ header_accepted self h) ∧
    (valid = true → d_direction p' = uplink ∧ d_symbol_id p' = cplane.w_symbol h ∧
       d_filter_index p' = to_filter_index_type (cplane.w_filter h) ∧ slot_point.wf (d_slot p') ∧
       slot_point.numerology (d_slot p') = to_numerology_value (scs self) ∧
       slot_point.sfn (d_slot p') = cplane.w_frame h ∧
       slot_point.subframe_index (d_slot p') = cplane.w_subframe h ∧
       slot_point.subframe_slot_index (d_slot p') = cplane.w_slot h).
Proof.
  intros Hw Hr Hb Hscs h. inversion_clear Hb as [|?? B0 Hb1]. inversion_clear Hb1 as [|?? B1 Hb2].
  inversion_clear Hb2 as [|?? B2 Hb3]. inversion_clear Hb3 as [|?? B3 _].
  assert (Hm : 0 <= to_numerology_value (scs self) < 5) by (destruct (scs self); done).
  unfold decode_header. rewrite deserializer.remaining_rest by done.
  rewrite (proj2 (Z.ltb_ge _ _)) by (rewrite Hr, !zlen_cons; pose proof (zlen_nonneg l);
    unfold NOF_BYTES_UP_HEADER; lia).
  do 4 read_field. rewrite slot_id_value, shiftr_4, shiftr_4 by done.
  rewrite cplane.land_15, cplane.land_63, land_7.
  destruct (slot_point.of_count_zero _ Hm) as [-> Hn]. cbn [mbind result_bind].
  rewrite Hn, Z.shiftr_div_pow2 by lia. change (2 ^ 7) with 128.
  unfold h, cplane.wire_header_of, header_accepted, cplane.octet. cbn [nth cplane.w_direction
    cplane.w_version cplane.w_filter cplane.w_frame cplane.w_subframe cplane.w_slot cplane.w_symbol].
  unfold NOF_SUBFRAMES_PER_FRAME. unfold_fits. destruct (Z.leb_spec 10 (b2 / 16)).
  { eexists _, _, _. split; [done|]. split_and!; [done|done|congruence| |done].
    split; [done|intros; exfalso; lia]. }
  destruct (Z.leb_spec (2 ^ to_numerology_value (scs self)) (b2 mod 16 * 4 + b3 / 64)).
  { eexists _, _, _. split; [done|]. split_and!; [done|done|congruence| |done].
    split; [done|intros; exfalso; lia]. }
  destruct (slot_point.of_subframe_parts (to_numerology_value (scs self)) b1 (b2 / 16)
    (b2 mod 16 * 4 + b3 / 64) Hm) as (s & -> & Hs & E1 & E2 & E3 & E4); [lia..|].
  cbn [mbind result_bind]. eexists _, _, _. split; [done|]. split_and!; [done|done|congruence| |].
  - unfold is_header_valid. cbn [d_direction d_filter_index d_symbol_id].
    unfold OFH_PAYLOAD_VERSION. pose proof (filter_reserved_iff (b0 mod 16) ltac:(lia)) as HF.
    destruct (decide (to_filter_index_type (b0 mod 16) = filter_reserved)) as [E|E];
      rewrite HF in E; destruct (Z.eqb_spec (b0 / 128) 0), (Z.eqb_spec (b0 / 16 mod 8) 1),
      (Z.leb_spec (nof_symbols self) (b3 mod 64)); cbn [negb]; repeat case_decide; try congruence;
      (split; [intros HH; try discriminate HH; split_and!; lia|intros HH; try reflexivity; exfalso; lia]).
  - cbn [d_direction d_slot d_filter_index d_symbol_id]. intros HV.
    split_and!; try done. unfold is_header_valid in HV. cbn [d_direction] in HV.
    destruct (Z.eqb_spec (b0 / 128) 0); [done|]. by case_decide.
Qed.

(** ** Reading a section *)

Lemma land_1 x : Z.land x 1 = x mod 2.
Proof. exact (land_mask 1 x ltac:(lia)). Qed.

Lemma section_header_spec self d b0 b1 b2 b3 l :
  deserializer.wf d → deserializer.rest d = b0 :: b1 :: b2 :: b3 :: l → bytes_ok [b0; b1; b2; b3] →
  ∃ d', decode_section_header self d =
      Ok (ok, mk_section (b0 * 16 + b1 / 16) (b1 / 8 mod 2 =? 0) (b1 / 4 mod 2 =? 0)
                (if b3 =? 0 then 0 else b1 mod 4 * 256 + b2) (if b3 =? 0 then ru_nof_prbs self else b3)
                (mk_compr none 0) None [], d') ∧
    deserializer.wf d' ∧ deserializer.rest d' = l ∧ deserializer.data d' = deserializer.data d.
Proof.
  intros Hw Hr Hb. inversion_clear Hb as [|?? B0 Hb1]. inversion_clear Hb1 as [|?? B1 Hb2].
  inversion_clear Hb2 as [|?? B2 Hb3]. inversion_clear Hb3 as [|?? B3 _].
  unfold decode_section_header. rewrite deserializer.remaining_rest by done.
  rewrite (proj2 (Z.ltb_ge _ _)) by (rewrite Hr, !zlen_cons; pose proof (zlen_nonneg l);
    unfold SECTION_ID_HEADER_NO_COMPRESSION_SIZE; lia).
  do 4 read_field. rewrite !Z.lor_0_l, !land_1, cplane.land_3.
  rewrite shiftr_4, !Z.shiftr_div_pow2 by lia. change (2 ^ 3) with 8. change (2 ^ 2) with 4.
  rewrite !lor_shiftl_add by lia_fits. change (2 ^ 4) with 16. change (2 ^ 8) with 256.
  eexists. destruct (b3 =? 0); (split; [done|]); split_and!; (done || congruence).
Qed.

Lemma section_header_short self d :
  deserializer.wf d → zlen (deserializer.rest d) < 4 →
  ∃ sec, decode_section_header self d = Ok (incomplete, sec, d).
Proof.
  intros Hw Hr. unfold decode_section_header. rewrite deserializer.remaining_rest by done.
  rewrite (proj2 (Z.ltb_lt _ _)) by done. eauto.
Qed.

(** Replacing the compression header or the length of a section. *)
Definition with_comp_hdr (sec : uplane_section_params) (h : ru_compression_params) :=
  mk_section (section_id sec) (is_every_rb_used sec) (use_current_symbol_number sec)
    (sec_start_prb sec) (sec_nof_prbs sec) h (ud_comp_len sec) (iq_samples sec).
Definition with_comp_len (sec : uplane_section_params) (n : Z) :=
  mk_section (section_id sec) (is_every_rb_used sec) (use_current_symbol_number sec)
    (sec_start_prb sec) (sec_nof_prbs sec) (ud_comp_hdr sec) (Some n) (iq_samples sec).
Definition with_samples (sec : uplane_section_params) (l : list cbf16_t) :=
  mk_section (section_id sec) (is_every_rb_used sec) (use_current_symbol_number sec)
    (sec_start_prb sec) (sec_nof_prbs sec) (ud_comp_hdr sec) (ud_comp_len sec) l.

Definition needs_length (t : compression_type) : bool :=
  match t with none | BFP | block_scaling | mu_law | modulation => false | _ => true end.

(** The compression octet of a dynamic-compression message. *)
Definition octet_params (value : Z) : ru_compression_params :=
  mk_compr (to_compression_type (value mod 16)) (if value / 16 =? 0 then 16 else value / 16).

Lemma advance_spec d x l : deserializer.wf d → deserializer.rest d = x :: l →
  deserializer.wf (deserializer.advance d 1) ∧ deserializer.rest (deserializer.advance d 1) = l.
Proof.
  intros Hw Hr. destruct (deserializer.read_u8_rest d x l Hw Hr) as (d' & HR & Hw' & Hr' & _).
  unfold deserializer.read_u8, deserializer.read_bytes in HR.
  apply bind_Ok in HR as ([b d2] & H1 & H2). apply bind_Ok in H1 as (b' & _ & H1).
  injection H1 as <- <-. injection H2 as _ <-. done.
Qed.

Lemma comp_header_dynamic self sec d value r l :
  static_params self = None → deserializer.wf d → deserializer.rest d = value :: r :: l → u8 value →
  ∃ st sec' d', decode_compression_header self sec d = Ok (st, sec', d') ∧ deserializer.wf d' ∧
    deserializer.data d' = deserializer.data d ∧
    (compr_type (octet_params value) = reserved → st = malformed) ∧
    (compr_type (octet_params value) ≠ reserved →
       st = ok ∧ sec' = with_comp_hdr sec (octet_params value) ∧ deserializer.rest d' = l).
Proof.
  intros Hs Hw Hr Hv. unfold decode_compression_header. rewrite Hs.
  rewrite deserializer.remaining_rest, Hr, !zlen_cons by done. pose proof (zlen_nonneg l).
  rewrite (proj2 (Z.ltb_ge _ _)) by lia. read_field. rewrite cplane.land_15, shiftr_4.
  unfold octet_params. cbn [compr_type]. case_decide as E.
  - eexists _, _, _. split; [done|]. split_and!; done.
  - destruct (advance_spec d0 r l Hw0 Hr0) as [Hw2 Hr2].
    eexists _, _, _. split; [done|]. split_and!; try done.
Qed.

Lemma comp_length_spec sec d :
  deserializer.wf d → 
  (needs_length (compr_type (ud_comp_hdr sec)) = false →
     decode_compression_length sec d = Ok (ok, sec, d)) ∧
  (needs_length (compr_type (ud_comp_hdr sec)) = true → zlen (deserializer.rest d) < 2 →
     decode_compression_length sec d = Ok (incomplete, sec, d)) ∧
  (needs_length (compr_type (ud_comp_hdr sec)) = true → ∀ x y l, deserializer.rest d = x :: y :: l →
     ∃ d', decode_compression_length sec d = Ok (ok, with_comp_len sec (256 * x + y), d') ∧
       deserializer.wf d' ∧ deserializer.rest d' = l ∧ deserializer.data d' = deserializer.data d).
Proof.
  intros Hw. unfold decode_compression_length. rewrite deserializer.remaining_rest by done.
  split_and!.
  - by destruct (compr_type (ud_comp_hdr sec)).
  - intros Hn Hl. rewrite (proj2 (Z.ltb_lt _ _)) by done. by destruct (compr_type (ud_comp_hdr sec)).
  - intros Hn x y l Hr. assert (Hz : 2 <= zlen (deserializer.rest d))
      by (rewrite Hr, !zlen_cons; pose proof (zlen_nonneg l); lia).
    rewrite (proj2 (Z.ltb_ge _ _)) by done. unfold deserializer.read_u16.
    destruct (deserializer.read_bytes_rest d 2 Hw ltac:(lia)) as (d' & -> & Hw' & Hr' & Hd & _).
    cbn [mbind result_bind]. rewrite Hr in *. exists d'.
    change (take (Z.to_nat 2) (x :: y :: l)) with [x; y]. rewrite be_value_2.
    split; [by destruct (compr_type (ud_comp_hdr sec))|]. done.
Qed.

(** ** Sizes *)

Lemma prb_size_value c : 0 <= data_width c <= 16 →
  get_compressed_prb_size c = 3 * data_width c + (if is_compression_param_present (compr_type c) then 1 else 0).
Proof.
  intros Hw. unfold get_compressed_prb_size, round_up_to_bytes, NOF_SUBCARRIERS_PER_RB.
  rewrite !(wrap_small 32 (12 * 2 * _)) by lia_fits.
  destruct (is_compression_param_present _); rewrite !wrap_small by (rewrite ?wrap_small; lia_fits); lia.
Qed.

Lemma check_size_spec nof d c :
  deserializer.wf d → 0 <= data_width c <= 16 → 0 <= nof <= 275 →
  check_iq_data_size nof d c = (nof * get_compressed_prb_size c <=? zlen (deserializer.rest d)).
Proof.
  intros Hd Hw Hn. unfold check_iq_data_size. rewrite deserializer.remaining_rest by done.
  rewrite prb_size_value by done. unfold round_up_to_bytes, NOF_SUBCARRIERS_PER_RB.
  rewrite (wrap_small 32 (12 * 2 * _)), (wrap_small 32 (_ + 8 - 1)) by lia_fits.
  set (b := is_compression_param_present (compr_type c)).
  replace (if b then wrap 32 ((12 * 2 * data_width c + 8 - 1) / 8 + 1)
           else (12 * 2 * data_width c + 8 - 1) / 8)
    with (3 * data_width c + (if b then 1 else 0)) by (destruct b; rewrite ?wrap_small by lia_fits; lia).
  assert (0 <= (3 * data_width c + (if b then 1 else 0)) * nof <= 49 * 275) by (destruct b; nia).
  rewrite wrap_small by lia_fits. rewrite (Z.mul_comm nof).
  by rewrite <- Z.leb_antisym.
Qed.

Section decoding_lemmas.
Context {decompressor : IqDecompressor}.

Lemma decode_iq_spec sec d :
  deserializer.wf d → 0 <= data_width (ud_comp_hdr sec) <= 16 → 0 <= sec_nof_prbs sec <= 275 →
  let n := sec_nof_prbs sec * get_compressed_prb_size (ud_comp_hdr sec) in
  n <= zlen (deserializer.rest d) →
  ∃ d', deserializer.wf d' ∧ deserializer.data d' = deserializer.data d ∧
    deserializer.rest d' = drop (Z.to_nat n) (deserializer.rest d) ∧
    decode_iq_data sec d =
      samples ← iq_decompress (sec_nof_prbs sec * 12) (take (Z.to_nat n) (deserializer.rest d)) (ud_comp_hdr sec);
      Ok (with_samples sec samples, d').
Proof.
  intros Hd Hw Hn n Hle.
  assert (Hn0 : 0 <= n < 2 ^ 20).
  { unfold n. rewrite prb_size_value by done. case_match; unfold_fits; nia. }
  unfold decode_iq_data.
  assert (Hsz : round_up_to_bytes
    (if is_compression_param_present (compr_type (ud_comp_hdr sec))
     then wrap 32 (wrap 32 (NOF_SUBCARRIERS_PER_RB * 2 * data_width (ud_comp_hdr sec)) + 8)
     else wrap 32 (NOF_SUBCARRIERS_PER_RB * 2 * data_width (ud_comp_hdr sec))) =
    get_compressed_prb_size (ud_comp_hdr sec)) by done.
  rewrite Hsz. fold n. rewrite (wrap_small 32 n) by lia_fits.
  unfold deserializer.get_view_and_advance.
  destruct (deserializer.read_bytes_rest d n Hd ltac:(lia)) as (d' & -> & Hw' & Hr' & Hdt & _).
  cbn [mbind result_bind]. unfold NOF_SUBCARRIERS_PER_RB, MAX_NOF_PRBS. rewrite wrap_small by lia_fits.
  pass_assume. exists d'. done.
Qed.

(** The compression parameters a decoder can hand to the decompressor. *)
Definition params_from (self : decoder) (c : ru_compression_params) : Prop :=
  match static_params self with
  | Some p => c = p
  | None => compr_type c ≠ reserved ∧ 1 <= data_width c <= 16
  end.

(** The compression header of a section: none with static parameters, else two octets of which
    the first has the method and the width. *)
Definition header_gives (self : decoder) (hdr : list Z) (c : ru_compression_params) : Prop :=
  match static_params self with
  | Some p => hdr = [] ∧ c = p
  | None => ∃ v r, hdr = [v; r] ∧ c = octet_params v ∧ compr_type c ≠ reserved
  end.

(** The octets [l] begin with a section of [blocks] blocks, compressed with [c] to [data]; the
    fourth octet is the number of blocks, 0 for all. *)
Definition one_section (self : decoder) (l : list Z) (blocks : Z) (c : ru_compression_params) (data rest : list Z) : Prop :=
  ∃ b0 b1 b2 b3 hdr len, l = [b0; b1; b2; b3] ++ hdr ++ len ++ data ++ rest ∧ blocks = (if b3 =? 0 then ru_nof_prbs self else b3) ∧
    header_gives self hdr c ∧ length len = (if needs_length (compr_type c) then 2 else 0)%nat ∧ zlen data = blocks * get_compressed_prb_size c.

(** The sections of the octets [l], one behind the other. *)
Inductive section_in (self : decoder) : list Z → Z → ru_compression_params → list Z → Prop :=
| first_section l blocks c data rest : one_section self l blocks c data rest → section_in self l blocks c data
| next_section l blocks' c' data' rest blocks c data :
    one_section self l blocks' c' data' rest → section_in self rest blocks c data → section_in self l blocks c data.

(** The only way a run can go wrong: the decompressor fails on the blocks of a section of the
    octets [l]. *)
Definition decompressor_fault {A} (self : decoder) (l : list Z) (r : result A) : Prop :=
  ∃ f blocks data c, r = Fault f ∧ iq_decompress (blocks * 12) data c = Fault f ∧
    zlen data = blocks * get_compressed_prb_size c ∧ 0 <= blocks <= 275 ∧ bytes_ok data ∧
    params_from self c ∧ section_in self l blocks c data.

Definition decoder_ok (self : decoder) : Prop :=
  is_scs_valid (scs self) = true ∧ 0 <= ru_nof_prbs self <= 275 ∧
  match static_params self with Some p => 0 <= data_width p <= 16 | None => True end.

(** One section: it is decoded and something was consumed, or the status says why
    not, or the decompressor fails. *)
Definition section_outcome (self : decoder) (secs : list uplane_section_params) (d : deserializer.t) (n : Z)
    (r : result (decoded_section_status * list uplane_section_params * deserializer.t)) : Prop :=
  (∃ st secs' d', r = Ok (st, secs', d') ∧ deserializer.wf d' ∧
     deserializer.data d' = deserializer.data d ∧
     (st = ok → zlen (deserializer.rest d') <= n ∧ zlen secs' = zlen secs + 1) ∧
     (st ≠ ok → secs' = secs) ∧
     (st = ok → ∃ blocks c data, one_section self (deserializer.rest d) blocks c data (deserializer.rest d'))) ∨
  decompressor_fault self (deserializer.rest d) r.

Lemma outcome_status self secs d d' n sec st :
  st ≠ ok → deserializer.wf d' → deserializer.data d' = deserializer.data d →
  section_outcome self secs d n (on_ok secs (Ok (st, sec, d')) (λ sec d, decode_section_samples secs sec d)) ∧
  ∀ k, section_outcome self secs d n (on_ok secs (Ok (st, sec, d')) k).
Proof.
  intros Hst Hw Hd. split; intros; left; unfold on_ok; cbn [mbind result_bind];
    eexists st, secs, d'; (split; [by destruct st|]); split_and!; done.
Qed.

Lemma samples_outcome self secs d n sec d3 :
  params_from self (ud_comp_hdr sec) → bytes_ok (deserializer.data d) →
  0 <= sec_nof_prbs sec <= 275 → 0 <= data_width (ud_comp_hdr sec) <= 16 → zlen secs < 2 →
  deserializer.wf d3 → deserializer.data d3 = deserializer.data d → zlen (deserializer.rest d3) <= n →
  (∀ data rest, deserializer.rest d3 = data ++ rest → zlen data = sec_nof_prbs sec * get_compressed_prb_size (ud_comp_hdr sec) →
     one_section self (deserializer.rest d) (sec_nof_prbs sec) (ud_comp_hdr sec) data rest) →
  section_outcome self secs d n (decode_section_samples secs sec d3).
Proof.
  intros Hfrom Hb Hn Hh Hs Hw Hd Hr HO. unfold decode_section_samples. rewrite check_size_spec by done.
  set (sz := sec_nof_prbs sec * get_compressed_prb_size (ud_comp_hdr sec)).
  destruct (Z.leb_spec sz (zlen (deserializer.rest d3))) as [Hsz|Hsz]; cbn [negb].
  2: { left. eexists _, _, _. split; [done|]. split_and!; done. }
  unfold RESULTS_MAX_NOF_SUPPORTED_SECTIONS. pass_assume.
  destruct (decode_iq_spec sec d3 Hw Hh Hn Hsz) as (d4 & Hw4 & Hd4 & Hr4 & ->). fold sz in Hr4 |- *.
  assert (Hpos : 0 <= sz) by (unfold sz; rewrite prb_size_value by done; case_match; nia).
  assert (Hz : zlen (take (Z.to_nat sz) (deserializer.rest d3)) = sz) by (unfold zlen in *; rewrite length_take; lia).
  specialize (HO _ _ (eq_sym (take_drop (Z.to_nat sz) (deserializer.rest d3))) Hz).
  destruct (iq_decompress _ _ _) as [samples|f] eqn:E; cbn [mbind result_bind].
  - left. eexists _, _, _. split; [done|]. split; [done|]. split; [congruence|]. split; [intros _|split; [done|intros _; eexists _, _, _; rewrite Hr4; exact HO]].
    rewrite zlen_app. change (zlen [_]) with 1. split; [|done]. rewrite Hr4.
    unfold zlen in *. rewrite length_drop. lia.
  - right. eexists f, _, _, _. split; [done|]. split; [exact E|]. split; [exact Hz|]. split; [done|].
    split; [apply Forall_take, Forall_drop; by rewrite Hd|]. split; [done|]. by eapply first_section.
Qed.

Lemma length_outcome self secs d n sec d2 :
  params_from self (ud_comp_hdr sec) → bytes_ok (deserializer.data d) →
  0 <= sec_nof_prbs sec <= 275 → 0 <= data_width (ud_comp_hdr sec) <= 16 → zlen secs < 2 →
  deserializer.wf d2 → deserializer.data d2 = deserializer.data d → zlen (deserializer.rest d2) <= n →
  (∀ len data rest, deserializer.rest d2 = len ++ data ++ rest → length len = (if needs_length (compr_type (ud_comp_hdr sec)) then 2 else 0)%nat →
     zlen data = sec_nof_prbs sec * get_compressed_prb_size (ud_comp_hdr sec) → one_section self (deserializer.rest d) (sec_nof_prbs sec) (ud_comp_hdr sec) data rest) →
  section_outcome self secs d n
    (on_ok secs (decode_compression_length sec d2) (λ sec d, decode_section_samples secs sec d)).
Proof.
  intros Hfrom Hb Hn Hh Hs Hw Hd Hr HO. destruct (comp_length_spec sec d2 Hw) as (L1 & L2 & L3).
  destruct (needs_length (compr_type (ud_comp_hdr sec))) eqn:Hnl.
  - destruct (deserializer.rest d2) as [|x [|y l2]] eqn:Hrd2.
    1, 2: rewrite L2 by done; by apply outcome_status.
    destruct (L3 eq_refl x y l2 eq_refl) as (d3 & -> & Hw3 & Hr3 & Hd3).
    apply samples_outcome; try done; [congruence|rewrite Hr3; rewrite !zlen_cons in Hr; lia|].
    intros data rest E Hz. apply (HO [x; y]); [by rewrite <- E, Hr3|done|done].
  - rewrite L1 by done. apply samples_outcome; try done. intros data rest E Hz. by apply (HO []).
Qed.

Lemma decode_section_total self secs d :
  decoder_ok self → deserializer.wf d → bytes_ok (deserializer.data d) → zlen secs < 2 →
  section_outcome self secs d (zlen (deserializer.rest d) - 4) (decode_section self secs d).
Proof.
  intros (Hscs & Hru & Hst) Hw Hb Hsecs. unfold decode_section.
  assert (Hbr : bytes_ok (deserializer.rest d)) by by apply Forall_drop.
  destruct (decide (zlen (deserializer.rest d) < 4)) as [Hs|Hs].
  { destruct (section_header_short self d Hw Hs) as (sec & ->). by apply outcome_status. }
  destruct (deserializer.rest d) as [|b0 [|b1 [|b2 [|b3 l]]]] eqn:Hr; try (exfalso; apply Hs; done).
  apply (Forall_app _ [b0; b1; b2; b3] l) in Hbr as [Hb4 Hbl].
  destruct (section_header_spec self d b0 b1 b2 b3 l Hw Hr Hb4) as (d1 & -> & Hw1 & Hr1 & Hd1).
  unfold on_ok at 1. cbn [mbind result_bind]. set (sec := mk_section _ _ _ _ _ _ _ _).
  assert (Hnof : 0 <= sec_nof_prbs sec <= 275).
  { apply (Forall_lookup_1 _ _ 3 b3) in Hb4; [|done]. unfold sec. cbn [sec_nof_prbs].
    unfold_fits. case_Z; lia. }
  replace (zlen _ - 4) with (zlen l) by (rewrite !zlen_cons; lia).
  unfold decode_compression_header. destruct (static_params self) as [h|] eqn:Hsp.
  - unfold on_ok at 1. cbn [mbind result_bind]. apply length_outcome; try done; [unfold params_from; by rewrite Hsp|by rewrite Hr1|].
    intros len data rest E Hlen Hz. rewrite Hr. exists b0, b1, b2, b3, [], len. rewrite Hr1 in E. unfold header_gives. rewrite Hsp, E. split; [done|]. split; [unfold sec; cbn [sec_nof_prbs with_comp_hdr]; by destruct (b3 =? 0)|]. done.
  - destruct l as [|v [|r l]].
    1, 2: rewrite deserializer.remaining_rest, Hr1 by done; by apply outcome_status.
    assert (Hv : u8 v) by by inversion Hbl.
    destruct (comp_header_dynamic self sec d1 v r l Hsp Hw1 Hr1 Hv)
      as (st & sec2 & d2 & HC & Hw2 & Hd2 & Hres & Hok).
    unfold decode_compression_header in HC. rewrite Hsp in HC. rewrite HC.
    destruct (decide (compr_type (octet_params v) = reserved)) as [E|E].
    + rewrite (Hres E). apply outcome_status; [done..|congruence].
    + destruct (Hok E) as (-> & -> & Hr2). unfold on_ok at 1. cbn [mbind result_bind].
      apply length_outcome; try done; [| |congruence|rewrite Hr2, !zlen_cons; lia|].
      3: { intros len data rest E' Hlen Hz. rewrite Hr. exists b0, b1, b2, b3, [v; r], len. rewrite Hr2 in E'. unfold header_gives. rewrite Hsp, E'. split; [done|].
           split; [unfold sec; cbn [sec_nof_prbs with_comp_hdr]; by destruct (b3 =? 0)|]. split; [by exists v, r|]. done. }
      { unfold params_from. rewrite Hsp. split; [done|]. unfold with_comp_hdr, octet_params. cbn [ud_comp_hdr data_width].
        unfold_fits. case_Z; lia. }
      unfold octet_params, with_comp_hdr. cbn [data_width ud_comp_hdr]. unfold_fits. case_Z; lia.
Qed.

(** The loop: every accepted message has one section. *)
Lemma sections_loop_total self fuel : ∀ secs d,
  decoder_ok self → deserializer.wf d → bytes_ok (deserializer.data d) → zlen secs < 2 →
  zlen (deserializer.rest d) <= Z.of_nat fuel →
  (∃ valid secs', decode_sections_loop fuel self secs d = Ok (valid, secs') ∧
     (valid = true → zlen secs' = 1)) ∨
  decompressor_fault self (deserializer.rest d) (decode_sections_loop fuel self secs d).
Proof.
  assert (Hdone : ∀ secs : list uplane_section_params,
    zlen secs < 2 → bool_decide (secs ≠ []) = true → zlen secs = 1).
  { intros secs Hs He%bool_decide_eq_true. destruct secs as [|s secs]; [done|].
    rewrite zlen_cons in *. pose proof (zlen_nonneg secs). lia. }
  induction fuel as [|fuel IH]; intros secs d Hok Hw Hb Hs Hf; cbn [decode_sections_loop];
    rewrite deserializer.remaining_rest by done; pose proof (zlen_nonneg (deserializer.rest d)).
  { rewrite (proj2 (Z.eqb_eq _ _)) by lia. left. eauto 10. }
  destruct (Z.eqb_spec (zlen (deserializer.rest d)) 0); [left; eauto 10|].
  destruct (decode_section_total self secs d Hok Hw Hb Hs) as [(st & secs' & d' & HD & Hw' & Hd' & Hr & Hn & Hone)|HF].
  - rewrite HD. cbn [mbind result_bind]. destruct st.
    + destruct (Hr eq_refl) as [Hr1 Hr2]. unfold RESULTS_MAX_NOF_SUPPORTED_SECTIONS.
      destruct (Z.eqb_spec (zlen secs') 2); [left; by eexists _, _|].
      destruct (IH secs' d') as [HX|(f & blocks & data & c & HE & HD2 & HZ & HB & HD3 & HP & HI)]; try done; [by rewrite Hd'|lia|lia|by left|].
      right. exists f, blocks, data, c. do 6 (split; [done|]). destruct (Hone eq_refl) as (b' & c' & data' & H1). by eapply next_section.
    + rewrite Hn by done. left. eexists _, _. split; [done|]. by apply Hdone.
    + left. by eexists _, _.
  - right. destruct HF as (f & blocks & data & c & HE & HF). exists f, blocks, data, c.
    rewrite HE. done.
Qed.

End decoding_lemmas.

(** ** The bytes the builder writes *)
Section builder_lemmas.
Context {compressor : IqCompressor}.

Definition compression_bytes (mode : cplane.compression_mode) (c : ru_compression_params) : list Z :=
  match mode with
  | cplane.static_compression => []
  | cplane.dynamic_compression =>
      [(if data_width c =? 16 then 0 else data_width c) * 16 + compression_value (compr_type c)] ++ [0]
  end.

Definition length_bytes (support : bool) (c : ru_compression_params) : list Z :=
  if support && is_selective (compr_type c) then be_bytes 2 (3 * data_width c) else [].

(** Everything after the first octet. *)
Definition message_tail mode support (p : uplane_message_params) (payload : list Z) : list Z :=
  ([wrap 8 (slot_point.sfn (slot p))] ++ [encode_subframe_and_slot (slot p)] ++
   [encode_slot_lsb_and_symbol p]) ++
  ([0] ++ [encode_sect_id_rb_symbols p] ++ [wrap 8 (start_prb p)] ++
   [wrap 8 (if 255 <? nof_prb p then 0 else nof_prb p)]) ++
  compression_bytes mode (compression_params p) ++ length_bytes support (compression_params p) ++ payload.

Lemma compression_bytes_emits mode c : 0 <= data_width c <= 16 →
  serializer.emits (serialize_compression_header mode c) (compression_bytes mode c).
Proof.
  intros Hw. unfold serialize_compression_header, compression_bytes, serializer.write_u8.
  destruct mode; [|exact serializer.emits_nil].
  set (w := if data_width c =? 16 then 0 else data_width c).
  assert (0 <= w < 16) by (unfold w; case_Z; lia).
  rewrite !wrap_small by (destruct (compr_type c); simpl; lia_fits).
  rewrite (lor8_pack w 4) by (destruct (compr_type c); simpl; lia). solve_emits.
Qed.

Lemma message_emits mode support p iq payload :
  0 <= data_width (compression_params p) <= 16 → 0 <= nof_prb p <= 275 →
  (∀ view, zlen view = nof_prb p * get_compressed_prb_size (compression_params p) →
     iq_compress view iq (compression_params p) = Ok payload) →
  zlen payload = nof_prb p * get_compressed_prb_size (compression_params p) →
  serializer.emits (λ s,
    s ← build_radio_app_header p s;
    s ← build_section1_header p s;
    serialize_iq_data mode support iq (nof_prb p) (compression_params p) s)
    (([encode_data_direction] ++ [wrap 8 (slot_point.sfn (slot p))] ++ [encode_subframe_and_slot (slot p)] ++
      [encode_slot_lsb_and_symbol p]) ++
     ([0] ++ [encode_sect_id_rb_symbols p] ++ [wrap 8 (start_prb p)] ++
      [wrap 8 (if 255 <? nof_prb p then 0 else nof_prb p)]) ++
     compression_bytes mode (compression_params p) ++ length_bytes support (compression_params p) ++ payload).
Proof.
  intros Hw Hn Hc Hp. unfold build_radio_app_header, build_section1_header, serialize_iq_data,
    serializer.write_u8, serializer.write_u16.
  apply serializer.emits_seq; [solve_emits|]. apply serializer.emits_seq; [solve_emits|].
  apply serializer.emits_seq; [by apply compression_bytes_emits|].
  set (c := compression_params p) in *.
  assert (Hsz : 0 <= nof_prb p * get_compressed_prb_size c <= 49 * 275).
  { rewrite prb_size_value by done. case_match; nia. }
  apply serializer.emits_seq.
  - unfold length_bytes. destruct (support && is_selective (compr_type c)); [|exact serializer.emits_nil].
    unfold round_up_to_bytes, NOF_SUBCARRIERS_PER_RB.
    rewrite (wrap_small 32 (12 * 2 * _)), (wrap_small 32 (_ + 8 - 1)), (wrap_small 16) by lia_fits.
    replace ((12 * 2 * data_width c + 8 - 1) / 8) with (3 * data_width c) by lia. solve_emits.
  - rewrite (Z.mul_comm _ (nof_prb p)), wrap_small by lia_fits.
    by apply (serializer.emits_view _ (λ view, iq_compress view iq c)).
Qed.

Lemma zlen_tail mode support p payload :
  (is_selective (compr_type (compression_params p)) = true → support = true) →
  1 + zlen (message_tail mode support p payload) =
  get_header_size mode (compression_params p) + zlen payload.
Proof.
  intros Hs. unfold message_tail, get_header_size, length_bytes, compression_bytes.
  rewrite !zlen_app. destruct (is_selective _).
  - rewrite Hs by done. cbn [andb]. rewrite cplane.zlen_be_bytes. destruct mode; simpl; unfold zlen; simpl; lia.
  - rewrite andb_false_r. destruct mode; simpl; unfold zlen; simpl; lia.
Qed.

Lemma build_message_spec mode support buffer iq p payload :
  sect_type p = type_1 → zlen iq = nof_prb p * 12 →
  0 <= data_width (compression_params p) <= 16 → 0 <= nof_prb p <= 275 →
  (is_selective (compr_type (compression_params p)) = true → support = true) →
  (∀ view, zlen view = nof_prb p * get_compressed_prb_size (compression_params p) →
     iq_compress view iq (compression_params p) = Ok payload) →
  zlen payload = nof_prb p * get_compressed_prb_size (compression_params p) →
  let n := get_header_size mode (compression_params p) + zlen payload in
  n <= zlen buffer →
  build_message mode support buffer iq p =
    Ok (n, (144 :: message_tail mode support p payload) ++ drop (Z.to_nat n) buffer).
Proof.
  intros Ht Hq Hw Hn Hs Hc Hp n Hb. unfold build_message, NOF_SUBCARRIERS_PER_RB.
  rewrite bool_decide_eq_true_2 by done. cbn [assume mbind result_bind].
  rewrite wrap_small by lia_fits. pass_assume.
  apply (cplane.build_emits _ (144 :: message_tail mode support p payload)).
  - exact (message_emits mode support p iq payload Hw Hn Hc Hp).
  - rewrite zlen_cons. by apply zlen_tail.
  - done.
  - unfold n. rewrite Hp. assert (get_header_size mode (compression_params p) <= 12).
    { unfold get_header_size. destruct mode, (is_selective _); lia. }
    rewrite prb_size_value by done. case_match; unfold_fits; nia.
Qed.

End builder_lemmas.

(** The octets as numbers. *)
Lemma u_subframe_value s : slot_point.wf s →
  encode_subframe_and_slot s = slot_point.subframe_index s * 16 + slot_point.subframe_slot_index s / 4.
Proof.
  intros (Hf & Hi & _)%cplane.subframe_ranges. unfold encode_subframe_and_slot.
  rewrite Z.shiftr_div_pow2 by lia. change (2 ^ 2) with 4. rewrite !wrap_small by lia_fits.
  apply (lor8_pack _ 4); lia.
Qed.

Lemma u_symbol_value p : slot_point.wf (slot p) → 0 <= symbol_id p < 64 →
  encode_slot_lsb_and_symbol p = slot_point.subframe_slot_index (slot p) mod 4 * 64 + symbol_id p.
Proof.
  intros (_ & Hi & _)%cplane.subframe_ranges Hs. unfold encode_slot_lsb_and_symbol.
  rewrite cplane.land_3. rewrite !wrap_small by lia_fits. apply (lor8_pack _ 6); lia.
Qed.

Lemma u_section_value p : 0 <= start_prb p < 1024 → encode_sect_id_rb_symbols p = start_prb p / 256.
Proof.
  intros Hp. unfold encode_sect_id_rb_symbols. cbn [rb_id_value symbol_incr_value].
  rewrite cplane.land_3, Z.shiftr_div_pow2 by lia. change (2 ^ 8) with 256.
  rewrite (wrap_small 8 (start_prb p / 256)), (Z.mod_small _ 4) by lia_fits.
  change (lor8 (lor8 0 (wrap 8 0 ≪ 3)) (wrap 8 0 ≪ 2)) with 0. apply lor8_0. lia_fits.
Qed.

(** The parameters a message of [self] can carry. *)
Definition message_ok mode support (self : decoder) (p : uplane_message_params) : Prop :=
  slot_point.wf (slot p) ∧ slot_point.numerology (slot p) = to_numerology_value (scs self) ∧
  0 <= symbol_id p < nof_symbols self ∧ nof_symbols self <= 64 ∧
  0 <= start_prb p < 1024 ∧ 0 < nof_prb p <= 275 ∧
  (255 < nof_prb p → nof_prb p = ru_nof_prbs self ∧ start_prb p = 0) ∧
  0 < data_width (compression_params p) <= 16 ∧ compr_type (compression_params p) ≠ reserved ∧
  (is_selective (compr_type (compression_params p)) = true → support = true) ∧
  static_params self =
    match mode with
    | cplane.static_compression => Some (compression_params p)
    | cplane.dynamic_compression => None
    end.

Section roundtrip_lemmas.
Context {decompressor : IqDecompressor}.

(** The section decoded from the bytes the builder wrote. *)
Definition expected_section (p : uplane_message_params) (samples : list cbf16_t) : uplane_section_params :=
  mk_section 0 true true (start_prb p) (nof_prb p) (compression_params p)
    (if is_selective (compr_type (compression_params p))
     then Some (3 * data_width (compression_params p)) else None) samples.

Lemma octet_params_back c : 0 < data_width c <= 16 → compr_type c ≠ reserved →
  octet_params ((if data_width c =? 16 then 0 else data_width c) * 16 + compression_value (compr_type c)) = c.
Proof.
  intros Hw Ht. unfold octet_params. destruct c as [ty w]. cbn [data_width compr_type] in *.
  assert (Hv : 0 <= compression_value ty < 7) by (destruct ty; simpl; (done || lia)).
  replace (((if w =? 16 then 0 else w) * 16 + compression_value ty) mod 16) with (compression_value ty)
    by (case_Z; lia).
  replace (((if w =? 16 then 0 else w) * 16 + compression_value ty) / 16) with (if w =? 16 then 0 else w)
    by (case_Z; lia).
  f_equal; [by destruct ty|]. destruct (Z.eqb_spec w 16); [done|].
  by rewrite (proj2 (Z.eqb_neq w 0)) by lia.
Qed.

(** From the compression header on. *)
Lemma compression_roundtrip mode support self p sec d payload :
  message_ok mode support self p → deserializer.wf d → bytes_ok payload →
  deserializer.rest d =
    compression_bytes mode (compression_params p) ++ length_bytes support (compression_params p) ++ payload →
  ud_comp_len sec = None →
  ∃ d1 d2, decode_compression_header self sec d =
      Ok (ok, with_comp_hdr sec (compression_params p), d1) ∧
    decode_compression_length (with_comp_hdr sec (compression_params p)) d1 =
      Ok (ok, mk_section (section_id sec) (is_every_rb_used sec) (use_current_symbol_number sec)
                (sec_start_prb sec) (sec_nof_prbs sec) (compression_params p)
                (if is_selective (compr_type (compression_params p))
                 then Some (3 * data_width (compression_params p)) else None) (iq_samples sec), d2) ∧
    deserializer.wf d2 ∧ deserializer.rest d2 = payload ∧ deserializer.data d2 = deserializer.data d.
Proof.
  intros (_ & _ & _ & _ & _ & _ & _ & Hw & Ht & Hsel & Hst) Hd Hp Hr Hlen. set (c := compression_params p) in *.
  assert (∃ d1, decode_compression_header self sec d = Ok (ok, with_comp_hdr sec c, d1) ∧
    deserializer.wf d1 ∧ deserializer.rest d1 = length_bytes support c ++ payload ∧
    deserializer.data d1 = deserializer.data d) as (d1 & HC & Hw1 & Hr1 & Hd1).
  { destruct mode; cbn [compression_bytes] in Hr.
    - pose proof (octet_params_back c Hw Ht) as HO.
      destruct (comp_header_dynamic self sec d _ _ _ Hst Hd Hr) as (st & sec' & d' & HC & Hw' & Hd' & _ & Hok).
      + assert (0 <= compression_value (compr_type c) < 7) by (destruct (compr_type c); simpl; (done || lia)).
        unfold_fits. case_Z; lia.
      + rewrite HO in Hok. destruct (Hok Ht) as (-> & -> & Hr'). by exists d'.
    - exists d. unfold decode_compression_header. rewrite Hst. done. }
  destruct (comp_length_spec (with_comp_hdr sec c) d1 Hw1) as (L1 & _ & L3).
  exists d1. unfold length_bytes in Hr1. cbn [ud_comp_hdr with_comp_hdr] in L1, L3.
  destruct (is_selective (compr_type c)) eqn:Hs.
  - rewrite Hsel in Hr1 by done. cbn [andb] in Hr1. rewrite be_bytes_2 in Hr1.
    destruct (L3 ltac:(by destruct (compr_type c)) _ _ _ Hr1) as (d2 & HL & Hw2 & Hr2 & Hd2).
    replace (256 * _ + _) with (3 * data_width c) in HL by lia.
    exists d2. rewrite HC, HL. split_and!; (done || congruence).
  - rewrite andb_false_r in Hr1. exists d1. rewrite HC, L1 by (by destruct (compr_type c)).
    split; [done|]. split; [by rewrite <- Hlen|]. done.
Qed.

Lemma section_roundtrip mode support self p d payload samples :
  message_ok mode support self p → deserializer.wf d → bytes_ok payload → 0 <= ru_nof_prbs self ->
  deserializer.rest d = drop 3 (message_tail mode support p payload) →
  zlen payload = nof_prb p * get_compressed_prb_size (compression_params p) →
  iq_decompress (nof_prb p * 12) payload (compression_params p) = Ok samples →
  ∃ d', decode_section self [] d = Ok (ok, [expected_section p samples], d') ∧
    deserializer.wf d' ∧ deserializer.rest d' = [].
Proof.
  intros Hm Hd Hp Hru Hr Hz Hdec. pose proof Hm as (_ & _ & _ & _ & Hsp & Hn & Hbig & Hw & _).
  unfold message_tail in Hr. cbn [app drop] in Hr. rewrite u_section_value in Hr by done.
  destruct (section_header_spec self d _ _ _ _ _ Hd Hr) as (d1 & HH & Hw1 & Hr1 & _).
  { solve_Forall; try (by apply wrap_fits); lia_fits. }
  unfold decode_section. rewrite HH. unfold on_ok at 1. cbn [mbind result_bind].
  set (sec := mk_section _ _ _ _ _ _ _ _).
  destruct (compression_roundtrip mode support self p sec d1 payload Hm Hw1 Hp Hr1 eq_refl)
    as (d2 & d3 & HC & HL & Hw3 & Hr3 & Hd3).
  rewrite HC. unfold on_ok at 1. cbn [mbind result_bind]. rewrite HL. unfold on_ok. cbn [mbind result_bind].
  assert (sec_nof_prbs sec = nof_prb p ∧ sec_start_prb sec = start_prb p ∧ section_id sec = 0 ∧
    is_every_rb_used sec = true ∧ use_current_symbol_number sec = true) as (E1 & E2 & E3 & E4 & E5).
  { unfold sec. cbn [sec_nof_prbs sec_start_prb section_id is_every_rb_used use_current_symbol_number].
    unfold wrap. change (2 ^ 8) with 256.
    destruct (Z.ltb_spec 255 (nof_prb p)); [destruct Hbig as [-> ->]; [done|]; repeat split|];
      repeat case_Z; split_and!; try lia; reflexivity. }
  rewrite E1, E2, E3, E4, E5. clear E1 E2 E3 E4 E5 HH HC HL. clearbody sec.
  assert (Hpos : 0 <= nof_prb p * get_compressed_prb_size (compression_params p)).
  { apply Z.mul_nonneg_nonneg; [lia|].
    rewrite prb_size_value by lia. destruct (is_compression_param_present _); lia. }
  unfold decode_section_samples. cbn [sec_nof_prbs ud_comp_hdr].
  rewrite check_size_spec, Hr3, Hz, Z.leb_refl by (done || lia). cbn [negb].
  unfold RESULTS_MAX_NOF_SUPPORTED_SECTIONS. cbn [zlen length assume Z.of_nat Z.ltb Z.compare mbind result_bind].
  match goal with |- context [decode_iq_data ?s d3] =>
    destruct (decode_iq_spec s d3 Hw3) as (d4 & Hw4 & _ & Hr4 & HI) end;
    [cbn [ud_comp_hdr]; lia|cbn [sec_nof_prbs]; lia|cbn [sec_nof_prbs ud_comp_hdr]; rewrite Hr3; lia|].
  rewrite HI. cbn [sec_nof_prbs ud_comp_hdr] in *. rewrite Hr3 in *.
  rewrite take_ge by (unfold zlen in *; lia). rewrite Hdec. cbn [mbind result_bind].
  exists d4. split; [done|]. split; [done|]. rewrite Hr4. apply drop_ge. unfold zlen in *; lia.
Qed.

End roundtrip_lemmas.

(** ** The properties *)

Lemma header_short self p d : deserializer.wf d → zlen (deserializer.rest d) < 4 →
  decode_header self p d = Ok (false, p, d).
Proof.
  intros Hw Hr. unfold decode_header. rewrite deserializer.remaining_rest by done.
  by rewrite (proj2 (Z.ltb_lt _ _)).
Qed.

Lemma slot_in_subframe s : slot_point.wf s →
  0 <= slot_point.subframe_slot_index s < 2 ^ slot_point.numerology s.
Proof. intros Hs. slot_point.slot_cases s Hs; unfold slot_point.numerology; simpl; lia. Qed.

(** What an accepted message promises: its header is in range, it has one section, and
    symbol and slot are those of the header. *)
Definition accepted_as (self : decoder) (h : cplane.wire_header) (res : uplane_message_decoder_results) : Prop :=
  header_accepted self h ∧ zlen (sections res) = 1 ∧
  d_symbol_id (params res) = cplane.w_symbol h ∧
  slot_point.sfn (d_slot (params res)) = cplane.w_frame h ∧
  slot_point.subframe_index (d_slot (params res)) = cplane.w_subframe h ∧
  slot_point.subframe_slot_index (d_slot (params res)) = cplane.w_slot h.

Section properties.
Context {compressor : IqCompressor} {decompressor : IqDecompressor}.

(** Whatever bytes arrive, decoding an Uplane message ends: it never reads
    outside the message nor writes outside its buffers, and unless the
    decompressor itself fails on the blocks announced it returns.  A message is
    accepted only if its header has the uplink direction, payload version 1, a
    known filter and subframe, slot and symbol in range, and then it holds exactly
    one section and the slot and symbol returned are those of the header. *)
Lemma uplane_decode_total self p message :
  decoder_ok self → bytes_ok message → zlen message < 2 ^ 32 →
  let h := cplane.wire_header_of message in
  (∃ valid res, decode self (mk_results p []) message = Ok (valid, res) ∧
     (valid = true → accepted_as self h res)) ∨
  (header_accepted self h ∧ decompressor_fault self (drop 4 message) (decode self (mk_results p []) message)).
Proof.
  intros Hok Hb Hl. cbv zeta. destruct (deserializer.reader_init_wf message Hl) as [Hw Hr]. unfold decode. cbn [params sections].
  destruct message as [|b0 [|b1 [|b2 [|b3 l]]]]; try (left; eexists _, _;
    rewrite header_short by done; by split).
  pose proof Hb as Hb'. apply (Forall_app _ [b0; b1; b2; b3] l) in Hb' as [Hb4 _].
  destruct (decode_header_spec self p _ b0 b1 b2 b3 l Hw Hr Hb4 (proj1 Hok))
    as (valid & p' & d' & -> & Hw' & Hr' & Hd' & Hv & Hs).
  cbn [mbind result_bind]. destruct valid; cbn [negb]; [|left; by eexists _, _].
  destruct (sections_loop_total self (length (deserializer.data d')) [] d')
    as [(valid & secs & HL & Hone)|HF]; try done.
  - by rewrite Hd'.
  - rewrite Hr', Hd'. unfold zlen. cbn [deserializer.init deserializer.data length]. lia.
  - left. unfold decode_all_sections. rewrite HL. cbn [mbind result_bind]. eexists valid, _.
    split; [done|]. intros ->. destruct (Hs eq_refl) as (_ & E1 & _ & _ & _ & E2 & E3 & E4).
    split; [by apply Hv|]. split; [by apply Hone|]. done.
  - right. split; [by apply Hv|]. rewrite Hr' in HF. destruct HF as (f & blocks & data & c & HE & HF). exists f, blocks, data, c.
    unfold decode_all_sections. by rewrite HE.
Qed.

(** What the slot peeker computes on a header in range. *)
Lemma peek_value scs_ nof b0 b1 b2 b3 l :
  0 <= to_numerology_value scs_ < 5 → u8 b2 → u8 b3 →
  let message := b0 :: b1 :: b2 :: b3 :: l in
  let h := cplane.wire_header_of message in
  cplane.w_subframe h < 10 → cplane.w_slot h < 2 ^ to_numerology_value scs_ →
  peek_slot_symbol_point message nof scs_ =
    s ← slot_point.of_subframe (to_numerology_value scs_) (cplane.w_frame h) (cplane.w_subframe h)
          (cplane.w_slot h);
    slot_symbol_point.of_slot s (cplane.w_symbol h) nof.
Proof.
  intros Hm B2 B3 message h. unfold peek_slot_symbol_point, message.
  rewrite slot_id_value, shiftr_4, cplane.land_63 by done.
  unfold h, message, cplane.wire_header_of, cplane.octet.
  cbn [nth cplane.w_subframe cplane.w_slot cplane.w_frame cplane.w_symbol]. intros Hsf Hsl.
  unfold NOF_SUBFRAMES_PER_FRAME. rewrite (proj2 (Z.leb_gt _ _)) by done.
  destruct (slot_point.of_count_zero _ Hm) as [-> Hn]. cbn [mbind result_bind].
  by rewrite Hn, (proj2 (Z.leb_gt _ _)) by done.
Qed.

(** ... and on one out of range. *)
Lemma peek_value_invalid scs_ nof b0 b1 b2 b3 l :
  0 <= to_numerology_value scs_ < 5 → u8 b2 → u8 b3 →
  let message := b0 :: b1 :: b2 :: b3 :: l in
  let h := cplane.wire_header_of message in
  10 <= cplane.w_subframe h ∨ 2 ^ to_numerology_value scs_ <= cplane.w_slot h →
  peek_slot_symbol_point message nof scs_ = slot_symbol_point.of_slot slot_point.invalid 0 nof.
Proof.
  intros Hm B2 B3 message h. unfold peek_slot_symbol_point, message.
  rewrite slot_id_value, shiftr_4, cplane.land_63 by done.
  unfold h, message, cplane.wire_header_of, cplane.octet. cbn [nth cplane.w_subframe cplane.w_slot].
  unfold NOF_SUBFRAMES_PER_FRAME. destruct (slot_point.of_count_zero _ Hm) as [-> Hn]. cbn [mbind result_bind].
  rewrite Hn. destruct (Z.leb_spec 10 (b2 / 16)); [done|].
  destruct (Z.leb_spec (2 ^ to_numerology_value scs_) (b2 mod 16 * 4 + b3 / 64)); [done|lia].
Qed.

(** The peekers and the decoder read the same header: whenever the decoder
    accepts a header, the filter peeked is the one decoded and the point peeked is
    the decoded slot and symbol.  A header the decoder refuses only for its symbol
    number, at least the symbols of a slot, makes the slot peeker fail its
    assertion. *)
Theorem uplane_peek self p b0 b1 b2 b3 l :
  is_scs_valid (scs self) = true → bytes_ok [b0; b1; b2; b3] → zlen l < 2 ^ 32 - 4 →
  let message := b0 :: b1 :: b2 :: b3 :: l in
  let h := cplane.wire_header_of message in
  peek_filter_index message = to_filter_index_type (cplane.w_filter h) ∧
  (∀ p' d', decode_header self p (deserializer.init message) = Ok (true, p', d') →
     peek_filter_index message = d_filter_index p' ∧
     peek_slot_symbol_point message (nof_symbols self) (scs self) =
       slot_symbol_point.of_slot (d_slot p') (d_symbol_id p') (nof_symbols self) ∧
     ∃ point, peek_slot_symbol_point message (nof_symbols self) (scs self) = Ok point) ∧
  (cplane.w_subframe h < 10 → cplane.w_slot h < 2 ^ to_numerology_value (scs self) →
   nof_symbols self <= cplane.w_symbol h →
   peek_slot_symbol_point message (nof_symbols self) (scs self) = Fault AssertFailed).
Proof.
  intros Hscs Hb Hl message h.
  destruct (deserializer.reader_init_wf message) as [Hw Hr]; [unfold message; rewrite !zlen_cons; lia|].
  destruct (decode_header_spec self p _ b0 b1 b2 b3 l Hw Hr Hb Hscs)
    as (valid & p1 & d1 & HD & _ & _ & _ & Hv & Hs).
  assert (Hm : 0 <= to_numerology_value (scs self) < 5) by (destruct (scs self); done).
  assert (B2 : u8 b2 ∧ u8 b3) by (inversion_clear Hb as [|?? _ Hb1]; inversion_clear Hb1 as [|?? _ Hb2];
    inversion_clear Hb2 as [|??? Hb3]; by inversion_clear Hb3).
  assert (HF : peek_filter_index message = to_filter_index_type (cplane.w_filter h)).
  { unfold peek_filter_index, message. by rewrite cplane.land_15. }
  split; [done|].
  pose proof (peek_value (scs self) (nof_symbols self) b0 b1 b2 b3 l Hm (proj1 B2) (proj2 B2)) as HP.
  cbv zeta in HP. fold message in HP. fold h in HP.
  split.
  - intros p' d' HD'. rewrite HD in HD'. injection HD' as -> -> ->.
    destruct (proj1 Hv eq_refl) as (_ & _ & _ & A1 & A2 & A3).
    destruct (Hs eq_refl) as (_ & E1 & E2 & Hwf & E3 & E4 & E5 & E6).
    split; [by rewrite HF, E2|].
    rewrite HP by done. unfold h, message. unfold cplane.wire_header_of, cplane.octet in *.
    cbn [nth cplane.w_subframe cplane.w_slot cplane.w_frame cplane.w_symbol] in *.
    rewrite <- E3, <- E4, <- E5, <- E6, slot_point.of_subframe_spec by done. cbn [mbind result_bind].
    rewrite E1. split; [done|].
    unfold slot_symbol_point.of_slot. pass_assume. eauto.
  - intros A1 A2 A3. rewrite HP by done.
    destruct (slot_point.of_subframe_parts (to_numerology_value (scs self)) (cplane.w_frame h)
      (cplane.w_subframe h) (cplane.w_slot h) Hm) as (s & -> & _).
    1-3: unfold h, message, cplane.wire_header_of, cplane.octet in *;
      cbn [nth cplane.w_subframe cplane.w_slot cplane.w_frame] in *;
      inversion_clear Hb as [|?? _ Hb1]; inversion_clear Hb1; unfold_fits; lia.
    cbn [mbind result_bind]. unfold slot_symbol_point.of_slot.
    by rewrite (proj2 (Z.ltb_ge _ _)).
Qed.

(** The tail of a message as the header reader sees it. *)
Lemma tail_header mode support self p b0 payload :
  message_ok mode support self p →
  cplane.wire_header_of (b0 :: message_tail mode support p payload) =
    cplane.mk_wire_header (b0 / 128) (b0 / 16 mod 8) (b0 mod 16) (slot_point.sfn (slot p) mod 256)
      (slot_point.subframe_index (slot p)) (slot_point.subframe_slot_index (slot p)) (symbol_id p).
Proof.
  intros (Hs & _ & Hy & Hy64 & _). pose proof (cplane.subframe_ranges _ Hs) as (H1 & H2 & H3).
  unfold cplane.wire_header_of, message_tail, cplane.octet. cbn [app nth].
  rewrite u_subframe_value, u_symbol_value by (done || lia). f_equal; try done; lia.
Qed.

Lemma message_size mode c nof (payload : list Z) :
  0 < data_width c <= 16 → 0 < nof <= 275 → zlen payload = nof * get_compressed_prb_size c →
  get_header_size mode c + zlen payload < 2 ^ 32.
Proof.
  intros Hw Hn ->. rewrite prb_size_value by lia.
  assert (get_header_size mode c <= 12) by (unfold get_header_size; destruct mode, (is_selective _); lia).
  destruct (is_compression_param_present _); unfold_fits; nia.
Qed.

(** The header of a message of the builder, with first octet [b0]. *)
Lemma tail_decode_header mode support self p q b0 payload :
  message_ok mode support self p → decoder_ok self → u8 b0 →
  1 + zlen (message_tail mode support p payload) < 2 ^ 32 →
  ∃ valid p' d', decode_header self q (deserializer.init (b0 :: message_tail mode support p payload)) =
      Ok (valid, p', d') ∧
    deserializer.wf d' ∧ deserializer.rest d' = drop 3 (message_tail mode support p payload) ∧
    deserializer.data d' = b0 :: message_tail mode support p payload ∧
    (valid = true ↔ b0 / 128 = 0 ∧ b0 / 16 mod 8 = 1 ∧ b0 mod 16 < 8) ∧
    (valid = true → d_direction p' = uplink ∧ d_symbol_id p' = symbol_id p ∧
       d_filter_index p' = to_filter_index_type (b0 mod 16) ∧ slot_point.wf (d_slot p') ∧
       slot_point.numerology (d_slot p') = to_numerology_value (scs self) ∧
       slot_point.sfn (d_slot p') = slot_point.sfn (slot p) mod 256 ∧
       slot_point.subframe_index (d_slot p') = slot_point.subframe_index (slot p) ∧
       slot_point.subframe_slot_index (d_slot p') = slot_point.subframe_slot_index (slot p)).
Proof.
  intros Hm Hok Hb0 Hl. pose proof Hm as (Hs & Hnum & Hy & Hy64 & _).
  pose proof (cplane.subframe_ranges _ Hs) as (R1 & R2 & R3). pose proof (slot_in_subframe _ Hs) as R4.
  destruct (deserializer.reader_init_wf (b0 :: message_tail mode support p payload)) as [Hw Hr]; [by rewrite zlen_cons|].
  pose proof (tail_header mode support self p b0 payload Hm) as HT.
  assert (Hb4 : bytes_ok [b0; wrap 8 (slot_point.sfn (slot p)); encode_subframe_and_slot (slot p);
    encode_slot_lsb_and_symbol p]).
  { rewrite u_subframe_value, u_symbol_value by (done || lia).
    solve_Forall; try done; try (by apply wrap_fits); lia_fits. }
  destruct (decode_header_spec self q _ _ _ _ _ _ Hw Hr Hb4 (proj1 Hok))
    as (valid & p' & d' & HD & Hw' & Hr' & Hd' & Hv & Hsp).
  exists valid, p', d'. split; [done|]. split; [done|]. split; [done|]. split; [done|].
  change (cplane.wire_header_of _) with (cplane.wire_header_of (b0 :: message_tail mode support p payload)) in Hv, Hsp.
  rewrite HT in Hv, Hsp. split; [|done]. rewrite Hv. unfold header_accepted.
  cbn [cplane.w_direction cplane.w_version cplane.w_filter cplane.w_subframe cplane.w_slot cplane.w_symbol].
  rewrite <- Hnum. lia.
Qed.

(** A message whose only section is decoded up to its end. *)
Lemma sections_loop_one self fuel sec d d' :
  deserializer.wf d → 0 < zlen (deserializer.rest d) →
  decode_section self [] d = Ok (ok, [sec], d') → deserializer.wf d' → deserializer.rest d' = [] →
  decode_sections_loop (S fuel) self [] d = Ok (true, [sec]).
Proof.
  intros Hw Hz HD Hw' Hr'. cbn [decode_sections_loop]. rewrite deserializer.remaining_rest by done.
  rewrite (proj2 (Z.eqb_neq _ _)) by lia. rewrite HD. cbn [mbind result_bind].
  destruct fuel; cbn [decode_sections_loop]; by rewrite deserializer.remaining_rest, Hr' by done.
Qed.

(** The builder writes exactly [header + payload] octets at the start of the
    buffer, leaving the rest alone, whatever the compression method, width, length
    field and number of blocks.  What it writes is a downlink message: the decoder
    refuses it as it stands, and decodes the same octets with the direction bit
    cleared to the frame modulo 256, the subframe, slot, symbol, first block,
    number of blocks, compression parameters and samples given to the builder. *)
Lemma uplane_roundtrip mode support self p iq buffer payload samples q :
  message_ok mode support self p → decoder_ok self → sect_type p = type_1 → zlen iq = nof_prb p * 12 →
  (∀ view, zlen view = nof_prb p * get_compressed_prb_size (compression_params p) →
     iq_compress view iq (compression_params p) = Ok payload) →
  zlen payload = nof_prb p * get_compressed_prb_size (compression_params p) → bytes_ok payload →
  iq_decompress (nof_prb p * 12) payload (compression_params p) = Ok samples →
  let n := get_header_size mode (compression_params p) + zlen payload in
  n <= zlen buffer →
  ∃ tail, build_message mode support buffer iq p = Ok (n, (144 :: tail) ++ drop (Z.to_nat n) buffer) ∧
    (∃ r, decode self (mk_results q []) (144 :: tail) = Ok (false, r)) ∧
    ∃ s, decode self (mk_results q []) (16 :: tail) =
        Ok (true, mk_results (mk_decoded uplink s standard_channel_filter (symbol_id p)) [expected_section p samples]) ∧
      slot_point.wf s ∧ slot_point.numerology s = to_numerology_value (scs self) ∧
      slot_point.sfn s = slot_point.sfn (slot p) mod 256 ∧
      slot_point.subframe_index s = slot_point.subframe_index (slot p) ∧
      slot_point.subframe_slot_index s = slot_point.subframe_slot_index (slot p).
Proof.
  intros Hm Hok Ht Hq Hc Hz Hb Hdec n Hn. pose proof Hm as (_ & _ & _ & _ & _ & Hp & _ & Hw & _ & Hsel & _).
  exists (message_tail mode support p payload). split; [apply build_message_spec; (done || lia)|].
  assert (Hlen : 1 + zlen (message_tail mode support p payload) < 2 ^ 32).
  { rewrite zlen_tail by done. fold n. by apply (message_size mode _ (nof_prb p)). }
  split.
  - destruct (tail_decode_header mode support self p q 144 payload Hm Hok ltac:(lia_fits) Hlen)
      as (valid & p' & d' & HD & _ & _ & _ & Hv & _).
    unfold decode. cbn [params sections]. rewrite HD. cbn [mbind result_bind].
    destruct valid; [exfalso; by destruct (proj1 Hv eq_refl)|]. by eexists.
  - destruct (tail_decode_header mode support self p q 16 payload Hm Hok ltac:(lia_fits) Hlen)
      as (valid & p' & d' & HD & Hw' & Hr' & Hd' & Hv & Hs).
    unfold decode. cbn [params sections]. rewrite HD. cbn [mbind result_bind].
    assert (valid = true) as -> by (by apply Hv).
    destruct (Hs eq_refl) as (E1 & E2 & E3 & Hwf & E5 & E6 & E7 & E8).
    destruct (section_roundtrip mode support self p d' payload samples Hm Hw' Hb) as (d2 & HS & Hw2 & Hr2);
      [by destruct Hok; lia|done..|].
    cbn [negb]. unfold decode_all_sections. rewrite Hd'. cbn [length].
    rewrite (sections_loop_one self _ _ d' d2) by
      (done || (rewrite Hr'; unfold message_tail; cbn [app drop]; rewrite zlen_cons;
                match goal with |- context [zlen ?l] => pose proof (zlen_nonneg l) end; lia)).
    cbn [mbind result_bind]. exists (d_slot p'). split; [|done].
    destruct p'. cbn in *. by subst.
Qed.

End properties.

(** ** Instances *)
Module raw_samples.
(** Samples sent as they are, 16 bits each member. *)
Definition raw_compress (view : list Z) (iq : list cbf16_t) (c : ru_compression_params) : result (list Z) :=
  Ok (concat (map (λ s, be_bytes 2 (real s) ++ be_bytes 2 (imag s)) iq)).
Fixpoint raw_decompress (data : list Z) : list cbf16_t :=
  match data with
  | a :: b :: c :: d :: l => mk_cbf16 (256 * a + b) (256 * c + d) :: raw_decompress l
  | _ => []
  end.
#[local] Instance raw_compressor : IqCompressor := {| iq_compress := raw_compress |}.
#[local] Instance raw_decompressor : IqDecompressor := {| iq_decompress _ data _ := Ok (raw_decompress data) |}.

Definition example_samples : list cbf16_t := map (λ i, mk_cbf16 (256 * i + 1) (i + 2)) (seqZ 0 12).
Definition example_payload : list Z :=
  concat (map (λ s, be_bytes 2 (real s) ++ be_bytes 2 (imag s)) example_samples).
Definition example_decoder : decoder := mk_decoder kHz30 14 273 None.
Definition example_params : uplane_message_params :=
  mk_params downlink (slot_point.mk 1 10275) standard_channel_filter 5 1 9 type_1 (mk_compr none 16).
Definition no_params : decoded_params := mk_decoded uplink slot_point.invalid standard_channel_filter 0.

Lemma uplane_roundtrip_witness :
  ∃ tail s, build_message cplane.dynamic_compression true (replicate 60 0) example_samples example_params =
      Ok (58, (144 :: tail) ++ [0; 0]) ∧
    decode example_decoder (mk_results no_params []) (16 :: tail) =
      Ok (true, mk_results (mk_decoded uplink s standard_channel_filter 9)
                  [expected_section example_params example_samples]) ∧
    slot_point.sfn s = 1.
Proof.
  destruct (uplane_roundtrip cplane.dynamic_compression true example_decoder example_params example_samples
    (replicate 60 0) example_payload example_samples no_params) as (tail & HB & _ & s & HD & _ & _ & Hf & _).
  - split; [slot_point.solve_wf|]. split; [reflexivity|]. simpl. split_and!; (lia || done).
  - split; [reflexivity|]. simpl. split; [lia|exact I].
  - reflexivity.
  - reflexivity.
  - reflexivity.
  - vm_compute. reflexivity.
  - vm_compute. repeat constructor; discriminate.
  - vm_compute. reflexivity.
  - vm_compute. discriminate.
  - exists tail, s. split; [exact HB|]. split; [exact HD|exact Hf].
Defined.

Lemma uplane_decode_total_witness :
  ¬ decompressor_fault example_decoder [] (decode example_decoder (mk_results no_params []) [16; 1; 0]) ∧
  ∃ valid res, decode example_decoder (mk_results no_params []) [16; 1; 0] = Ok (valid, res).
Proof.
  destruct (uplane_decode_total example_decoder no_params [16; 1; 0]) as [(v & r & H & _)|(_ & f & b & l & c & _ & HF & _)].
  - split; [reflexivity|]. simpl. split; [lia|exact I].
  - repeat constructor; vm_compute; discriminate.
  - reflexivity.
  - split; [|exists v, r; exact H]. intros (f & b & l & c & _ & HF & _). discriminate HF.
  - discriminate HF.
Defined.

Lemma uplane_peek_witness :
  peek_slot_symbol_point [16; 1; 0; 14; 7] 14 kHz30 = Fault AssertFailed.
Proof.
  destruct (uplane_peek example_decoder no_params 16 1 0 14 [7]) as (_ & _ & H).
  - reflexivity.
  - repeat constructor; vm_compute; discriminate.
  - reflexivity.
  - apply H; vm_compute; (reflexivity || discriminate).
Defined.

End raw_samples.

End uplane.
