(* ===== verification/BitBuffer.v ===== *)
(** * BitBuffer: packed bits

    Models include/srsran/adt/bit_buffer.h (class [bit_buffer] and
    [bit_buffer_reader]), the masks of include/srsran/adt/bounded_bitset.h and the
    two routines of lib/ofh/compression/packing_utils_generic.cpp.  Bit 0 of a
    buffer is the most significant bit of its first byte.  The abstract view is
    [bit], a bit at a position, and [window], the number in a range of bits; the
    shifts and masks of the code are proved against it. *)

From S2P Require Export OfhBase.

(** [span::operator[]] checks its index. *)
Definition span_at {A} (s : list A) (i : Z) : result A :=
  match s !! Z.to_nat i with Some x => Ok x | None => Fault AssertFailed end.
Definition span_set {A} (s : list A) (i : Z) (x : A) : result (list A) :=
  assume (i <? zlen s) AssertFailed;; Ok (<[Z.to_nat i := x]> s).

(** ** Masks of an unsigned integer of [w] bits *)
Definition mask_msb_zeros (w N : Z) : Z :=
  if N =? 0 then 2 ^ w - 1 else if N =? w then 0 else (2 ^ w - 1) ≫ N.
Definition mask_lsb_ones (w N : Z) : Z := mask_msb_zeros w (w - N).
Definition mask_msb_ones (w N : Z) : Z := wrap w (Z.lnot (mask_msb_zeros w N)).

Module bit_buffer.

Definition bits_per_word : Z := 8.

(** Both classes: a view of words and the current size in bits. *)
Record t := mk { buffer : list Z; current_size : Z }.

Definition size (b : t) : Z := current_size b.

(** [bit_buffer::from_bytes] counts in [unsigned], the reader in [size_t]. *)
Definition from_bytes (bytes : list Z) : t :=
  mk bytes (wrap 32 (wrap 32 (zlen bytes) * bits_per_word)).

Definition calculate_nof_words (nof_bits : Z) : Z :=
  wrap 32 (wrap 32 nof_bits + (bits_per_word - 1)) / bits_per_word.

Definition reader_from_bytes (bytes : list Z) : result t :=
  let current_size_ := wrap 64 (zlen bytes * bits_per_word) in
  assume (calculate_nof_words current_size_ <=? zlen bytes) AssertFailed;;
  Ok (mk bytes current_size_).

(** [extract<uint8_t>] *)
Definition extract (b : t) (startpos count : Z) : result Z :=
  assume (count <=? bits_per_word) AssertFailed;;
  assume (wrap 32 (startpos + count) <=? size b) AssertFailed;;
  let start_word := startpos / bits_per_word in
  let start_mod := startpos mod bits_per_word in
  if start_mod =? 0 then
    w ← span_at (buffer b) start_word;
    Ok (wrap 8 (w ≫ (bits_per_word - count)))
  else if start_mod + count <=? bits_per_word then
    w ← span_at (buffer b) start_word;
    Ok (wrap 8 (Z.land (w ≫ (bits_per_word - start_mod - count)) (mask_lsb_ones 8 count)))
  else
    w0 ← span_at (buffer b) start_word;
    let word := wrap 32 (w0 ≪ bits_per_word) in
    w1 ← span_at (buffer b) (start_word + 1);
    let word := Z.lor word w1 in
    let word := word ≫ (2 * bits_per_word - start_mod - count) in
    let word := Z.land word (mask_lsb_ones 32 count) in
    Ok (wrap 8 word).

(** [insert<uint8_t>] *)
Definition insert (b : t) (value startpos count : Z) : result t :=
  assume (count <=? bits_per_word) AssertFailed;;
  assume (value <? 1 ≪ count) AssertFailed;;
  assume (wrap 32 (startpos + count) <=? size b) AssertFailed;;
  let start_word := startpos / bits_per_word in
  let start_mod := startpos mod bits_per_word in
  assume (value <=? mask_lsb_ones 8 count) AssertFailed;;
  if start_mod =? 0 then
    w ← span_at (buffer b) start_word;
    l ← span_set (buffer b) start_word
          (wrap 8 (Z.lor (Z.land w (mask_msb_zeros 8 count)) (value ≪ (bits_per_word - count))));
    Ok (mk l (current_size b))
  else if start_mod + count <=? bits_per_word then
    word ← span_at (buffer b) start_word;
    let word := Z.land word (wrap 8 (Z.lor (mask_msb_ones 8 start_mod)
                                     (mask_lsb_ones 8 (bits_per_word - start_mod - count)))) in
    let word := wrap 8 (Z.lor word (value ≪ (bits_per_word - start_mod - count))) in
    l ← span_set (buffer b) start_word word;
    Ok (mk l (current_size b))
  else
    w0 ← span_at (buffer b) start_word;
    l ← span_set (buffer b) start_word
          (wrap 8 (Z.lor (Z.land w0 (mask_msb_ones 8 start_mod))
                         (value ≫ (start_mod + count - bits_per_word))));
    w1 ← span_at l (start_word + 1);
    l ← span_set l (start_word + 1)
          (wrap 8 (Z.lor (Z.land w1 (mask_msb_zeros 8 (start_mod + count - bits_per_word)))
                         (value ≪ (2 * bits_per_word - start_mod - count))));
    Ok (mk l (current_size b)).

(** ** Bits and windows *)

(** The bit at position [i]. *)
Definition bit (l : list Z) (i : Z) : bool :=
  Z.testbit (nth (Z.to_nat (i / 8)) l 0) (7 - i mod 8).

(** The [n] bits from position [pos] on, as a number. *)
Fixpoint window (l : list Z) (pos : Z) (n : nat) : Z :=
  match n with O => 0 | S n => 2 * window l pos n + Z.b2z (bit l (pos + Z.of_nat n)) end.

Lemma window_fits l pos n : fits (Z.of_nat n) (window l pos n).
Proof.
  induction n as [|n IH]; [done|]. unfold fits in *. cbn [window].
  rewrite Nat2Z.inj_succ, Z.pow_succ_r by lia.
  destruct (bit _ _); cbn [Z.b2z]; lia.
Qed.

Lemma window_testbit l pos n j : 0 <= j →
  Z.testbit (window l pos n) j = (j <? Z.of_nat n) && bit l (pos + Z.of_nat n - 1 - j).
Proof.
  revert j. induction n as [|n IH]; intros j Hj; cbn [window].
  { rewrite Z.bits_0. by rewrite (proj2 (Z.ltb_ge _ _)) by lia. }
  destruct (decide (j = 0)) as [->|Hj0].
  - rewrite Z.testbit_0_r.
    rewrite (proj2 (Z.ltb_lt _ _)) by lia. cbn [andb]. f_equal. lia.
  - replace j with (Z.succ (j - 1)) at 1 by lia.
    rewrite Z.testbit_succ_r, IH by lia. f_equal; [|f_equal; lia].
    apply eq_true_iff_eq. rewrite !Z.ltb_lt. lia.
Qed.

Lemma window_app l pos n m :
  window l pos (n + m) = window l pos n * 2 ^ Z.of_nat m + window l (pos + Z.of_nat n) m.
Proof.
  induction m as [|m IH]; [rewrite Nat.add_0_r; simpl; lia|].
  rewrite Nat.add_succ_r. cbn [window]. rewrite IH, Nat2Z.inj_succ, Z.pow_succ_r by lia.
  rewrite Nat2Z.inj_add, Z.add_assoc. ring.
Qed.

(** A window is determined by its bits. *)
Lemma window_ext l l' pos pos' n :
  (∀ k, 0 <= k < Z.of_nat n → bit l (pos + k) = bit l' (pos' + k)) →
  window l pos n = window l' pos' n.
Proof.
  induction n as [|n IH]; intros H; [done|]. cbn [window].
  rewrite IH, H by (intros; try apply H; lia). done.
Qed.

Lemma window_value l pos n v : fits (Z.of_nat n) v →
  (∀ k, 0 <= k < Z.of_nat n → bit l (pos + k) = Z.testbit v (Z.of_nat n - 1 - k)) →
  window l pos n = v.
Proof.
  intros Hv Hb. apply Z.bits_inj'. intros j Hj. rewrite window_testbit by done.
  destruct (Z.ltb_spec j (Z.of_nat n)); cbn [andb].
  - replace (pos + Z.of_nat n - 1 - j) with (pos + (Z.of_nat n - 1 - j)) by lia.
    rewrite Hb by lia. f_equal. lia.
  - rewrite <- (wrap_small _ v Hv). unfold wrap. by rewrite Z.mod_pow2_bits_high by lia.
Qed.

(** ** The operations against that view *)

Lemma mask_msb_zeros_bit w N j : 0 < w → 0 <= N <= w → 0 <= j →
  Z.testbit (mask_msb_zeros w N) j = (j <? w - N).
Proof.
  intros Hw HN Hj. unfold mask_msb_zeros.
  assert (Ho : 2 ^ w - 1 = Z.ones w) by (rewrite Z.ones_equiv; lia). rewrite Ho.
  destruct (Z.eqb_spec N 0) as [->|]; [rewrite Z.testbit_ones_nonneg by lia; f_equal; lia|].
  destruct (Z.eqb_spec N w) as [->|].
  - rewrite Z.bits_0. symmetry. apply Z.ltb_ge. lia.
  - rewrite Z.shiftr_spec, Z.testbit_ones_nonneg by lia. apply eq_true_iff_eq. rewrite !Z.ltb_lt. lia.
Qed.

Lemma mask_lsb_ones_bit w N j : 0 < w → 0 <= N <= w → 0 <= j →
  Z.testbit (mask_lsb_ones w N) j = (j <? N).
Proof. intros. unfold mask_lsb_ones. rewrite mask_msb_zeros_bit by lia. f_equal. lia. Qed.

Lemma wrap_bit w z j : 0 <= w → 0 <= j → Z.testbit (wrap w z) j = (j <? w) && Z.testbit z j.
Proof.
  intros Hw Hj. unfold wrap. destruct (Z.ltb_spec j w).
  - by rewrite Z.mod_pow2_bits_low by lia.
  - by rewrite Z.mod_pow2_bits_high by lia.
Qed.

Lemma mask_msb_ones_bit w N j : 0 < w → 0 <= N <= w → 0 <= j →
  Z.testbit (mask_msb_ones w N) j = (w - N <=? j) && (j <? w).
Proof.
  intros. unfold mask_msb_ones. rewrite wrap_bit, Z.lnot_spec, mask_msb_zeros_bit by lia.
  rewrite <- Z.leb_antisym. apply andb_comm.
Qed.

Lemma fits_bit w v j : fits w v → w <= j → 0 <= w → Z.testbit v j = false.
Proof.
  intros Hv Hj Hw. rewrite <- (wrap_small w v Hv), wrap_bit by lia.
  by rewrite (proj2 (Z.ltb_ge _ _)) by lia.
Qed.

Lemma mask_lsb_ones_value w N : 0 < w → 0 <= N <= w → mask_lsb_ones w N = 2 ^ N - 1.
Proof.
  intros Hw HN. apply Z.bits_inj'. intros j Hj. rewrite mask_lsb_ones_bit by lia.
  replace (2 ^ N - 1) with (Z.ones N) by (rewrite Z.ones_equiv; lia).
  by rewrite Z.testbit_ones_nonneg by lia.
Qed.

(** Rewrites the bits of an expression built from shifts, masks and words. *)
Ltac expand_bits :=
  repeat first
    [ rewrite wrap_bit by lia | rewrite Z.lor_spec | rewrite Z.land_spec
    | rewrite mask_msb_zeros_bit by lia | rewrite mask_msb_ones_bit by lia
    | rewrite mask_lsb_ones_bit by lia
    | rewrite Z.shiftl_spec by lia | rewrite Z.shiftr_spec by lia ].

(** A buffer whose size is within its words. *)
Definition sized (b : t) : Prop :=
  0 <= current_size b <= 8 * zlen (buffer b) ∧ zlen (buffer b) < 2 ^ 29.

Lemma word_at {l : list Z} {i} : 0 <= i < zlen l → span_at l i = Ok (nth (Z.to_nat i) l 0).
Proof.
  intros Hi. unfold span_at, zlen in *.
  destruct (lookup_lt_is_Some_2 l (Z.to_nat i)) as [x Hx]; [lia|].
  by rewrite Hx, (nth_lookup_Some _ _ _ _ Hx).
Qed.

Lemma word_ok l i : bytes_ok l → u8 (nth (Z.to_nat i) l 0).
Proof.
  intros Hl. rewrite nth_lookup. destruct (l !! Z.to_nat i) eqn:E; [|done].
  by apply (Forall_lookup_1 _ _ _ _ Hl E).
Qed.

(** The bit at [i] of word [q], at distance [r] from its top. *)
Lemma bit_word l i q r : 0 <= r < 8 → i = 8 * q + r →
  bit l i = Z.testbit (nth (Z.to_nat q) l 0) (7 - r).
Proof.
  intros Hr ->. unfold bit. replace ((8 * q + r) / 8) with q by lia.
  by replace ((8 * q + r) mod 8) with r by lia.
Qed.

Lemma extract_spec b startpos count :
  bytes_ok (buffer b) → sized b → 0 <= startpos → 1 <= count <= 8 → startpos + count <= current_size b →
  extract b startpos count = Ok (window (buffer b) startpos (Z.to_nat count)).
Proof.
  intros Hb [Hz Hl] Hp Hc Hs.
  unfold extract, bits_per_word, size. rewrite wrap_small by lia_fits. do 2 pass_assume.
  assert (H0 : span_at (buffer b) (startpos / 8) = Ok (nth (Z.to_nat (startpos / 8)) (buffer b) 0))
    by (apply word_at; lia).
  set (q := startpos / 8) in *. set (r := startpos mod 8).
  assert (Hq : startpos = 8 * q + r ∧ 0 <= r < 8) by lia. clearbody q r. destruct Hq as [-> Hr].
  destruct (Z.eqb_spec r 0) as [->|Hm];
    [|destruct (Z.leb_spec (r + count) 8) as [Hm8|Hm8]]; rewrite H0; cbn [mbind result_bind].
  3: rewrite word_at by lia; cbn [mbind result_bind].
  all: f_equal; apply Z.bits_inj'; intros j Hj; rewrite window_testbit, Z2Nat.id by lia;
    expand_bits; destruct (Z.ltb_spec j count); cbn [andb].
  - rewrite (bit_word _ _ q (count - 1 - j)) by lia.
    rewrite (proj2 (Z.ltb_lt j 8)) by lia. cbn [andb]. f_equal. lia.
  - rewrite (fits_bit 8 (nth _ _ _)) by (lia || by apply word_ok). apply andb_false_r.
  - rewrite (bit_word _ _ q (r + count - 1 - j)) by lia.
    rewrite (proj2 (Z.ltb_lt j 8)), andb_true_r by lia. cbn [andb]. f_equal. lia.
  - by rewrite !andb_false_r.
  - rewrite (proj2 (Z.ltb_lt j 8)), andb_true_r by lia. cbn [andb].
    destruct (decide (r + count - 1 - j < 8)).
    + rewrite (bit_word _ _ q (r + count - 1 - j)) by lia.
      rewrite (proj2 (Z.ltb_lt _ 32)) by lia. cbn [andb].
      rewrite (fits_bit 8 (nth (Z.to_nat (q + 1)) _ _)), orb_false_r by (lia || by apply word_ok). f_equal. lia.
    + rewrite (bit_word _ _ (q + 1) (r + count - 1 - j - 8)) by lia.
      rewrite (Z.testbit_neg_r _ (_ - 8)), andb_false_r by lia. cbn [orb]. f_equal. lia.
  - by rewrite !andb_false_r.
Qed.

(** What [insert] promises: the bits written, everything else as it was; the words
    written are bytes. *)
Definition inserted (b : t) (value startpos count : Z) (b' : t) : Prop :=
  sized b' ∧ length (buffer b') = length (buffer b) ∧ current_size b' = current_size b ∧
  (∀ i, 0 <= i → bit (buffer b') i =
    if (startpos <=? i) && (i <? startpos + count) then Z.testbit value (startpos + count - 1 - i)
    else bit (buffer b) i) ∧
  (∀ q, 0 <= q →
     u8 (nth (Z.to_nat q) (buffer b) 0) ∨ (startpos < 8 * q + 8 ∧ 8 * q < startpos + count) →
     u8 (nth (Z.to_nat q) (buffer b') 0)).

Lemma bit_set l q x i : 0 <= i → 0 <= q < zlen l →
  bit (<[Z.to_nat q := x]> l) i = if i / 8 =? q then Z.testbit x (7 - i mod 8) else bit l i.
Proof.
  intros Hi Hq. unfold bit, zlen in *. rewrite !nth_lookup.
  destruct (Z.eqb_spec (i / 8) q) as [->|Hne].
  - by rewrite list_lookup_insert_eq by lia.
  - by rewrite list_lookup_insert_ne by lia.
Qed.

Lemma span_set_ok {A} (l : list A) i x : i < zlen l → span_set l i x = Ok (<[Z.to_nat i := x]> l).
Proof. intros H. unfold span_set. by pass_assume. Qed.

Lemma set_sized b q x : sized b → sized (mk (<[Z.to_nat q := x]> (buffer b)) (current_size b)).
Proof. unfold sized, zlen. cbn [buffer current_size]. by rewrite length_insert. Qed.

Lemma set_word l q q' x : 0 <= q < zlen l → 0 <= q' →
  nth (Z.to_nat q') (<[Z.to_nat q := x]> l) 0 = if q' =? q then x else nth (Z.to_nat q') l 0.
Proof.
  unfold zlen. intros Hq Hq'. rewrite !nth_lookup. destruct (Z.eqb_spec q' q) as [->|].
  - by rewrite list_lookup_insert_eq by lia.
  - by rewrite list_lookup_insert_ne by lia.
Qed.

(** Decides the integer tests of a goal about single bits. *)
Ltac decide_tests :=
  repeat match goal with
  | |- context [?a <? ?b] =>
      first [ replace (a <? b) with true by lia | replace (a <? b) with false by lia
            | destruct (Z.ltb_spec a b) ]
  | |- context [?a <=? ?b] =>
      first [ replace (a <=? b) with true by lia | replace (a <=? b) with false by lia
            | destruct (Z.leb_spec a b) ]
  end; cbn [andb orb]; rewrite ?andb_false_r, ?andb_true_r, ?orb_false_r, ?orb_true_r.

(** Closes an equation of bits once the tests are decided: positions below zero and
    above the width of a number hold no bit. *)
Ltac close_bits :=
  decide_tests;
  repeat match goal with
  | |- context [Z.testbit ?x ?j] =>
      first [ rewrite (Z.testbit_neg_r x j) by lia
            | rewrite (fits_bit _ x j) by (eassumption || lia) ]
  end;
  cbn [andb orb]; rewrite ?andb_false_r, ?andb_true_r, ?orb_false_r, ?orb_true_r;
  first [done | f_equal; lia | lia].

(** One word rewritten: its bits from [r] on, [count] of them, are those of [v]. *)
Lemma inserted_word b q r count v value x :
  sized b → 0 <= q < zlen (buffer b) → 0 <= r → 0 <= count → r + count <= 8 → u8 x →
  (∀ s, 0 <= s < 8 → Z.testbit x (7 - s) =
    if (r <=? s) && (s <? r + count) then Z.testbit value (v - 1 - s)
    else Z.testbit (nth (Z.to_nat q) (buffer b) 0) (7 - s)) →
  let b' := mk (<[Z.to_nat q := x]> (buffer b)) (current_size b) in
  sized b' ∧ length (buffer b') = length (buffer b) ∧
  (∀ i, 0 <= i → bit (buffer b') i =
    if (8 * q + r <=? i) && (i <? 8 * q + r + count) then Z.testbit value (8 * q + v - 1 - i)
    else bit (buffer b) i) ∧
  (∀ q', 0 <= q' → u8 (nth (Z.to_nat q') (buffer b) 0) ∨ q' = q → u8 (nth (Z.to_nat q') (buffer b') 0)).
Proof.
  intros Hb Hq Hr Hc Hrc Hx Hbits b'. split; [by apply set_sized|]. split; [apply length_insert|]. split.
  2: { intros q' Hq' H. unfold b'. cbn [buffer]. rewrite set_word by done.
       destruct (Z.eqb_spec q' q); [done|]. by destruct H. }
  intros i Hi. unfold b'. cbn [buffer]. rewrite bit_set by done.
  destruct (Z.eqb_spec (i / 8) q) as [E|E].
  - assert (i = 8 * q + i mod 8 ∧ 0 <= i mod 8 < 8) as [Hi8 Hm] by lia.
    rewrite Hbits by done. rewrite (bit_word _ i q (i mod 8)) by done.
    set (s := i mod 8) in *. clearbody s. subst i.
    repeat case_Z; cbn [andb]; try lia; try done; f_equal; lia.
  - decide_tests; try done; lia.
Qed.

Lemma insert_spec b value startpos count :
  sized b → 0 <= startpos → 1 <= count <= 8 → startpos + count <= current_size b → fits count value →
  ∃ b', insert b value startpos count = Ok b' ∧ inserted b value startpos count b'.
Proof.
  intros Hb Hp Hc Hs Hv. pose proof Hb as (Hz & Hl).
  unfold insert, bits_per_word, size. rewrite (wrap_small 32) by lia_fits.
  rewrite (mask_lsb_ones_value 8 count), Z.shiftl_1_l by lia. pose proof Hv as Hv'. unfold fits in Hv'. do 4 pass_assume.
  assert (H0 : span_at (buffer b) (startpos / 8) = Ok (nth (Z.to_nat (startpos / 8)) (buffer b) 0))
    by (apply word_at; lia).
  set (q := startpos / 8) in *. set (r := startpos mod 8).
  assert (Hq : startpos = 8 * q + r ∧ 0 <= r < 8) by lia. clearbody q r. destruct Hq as [-> Hr].
  assert (Hqz : 0 <= q < zlen (buffer b)) by lia.
  destruct (Z.eqb_spec r 0) as [->|Hm];
    [|destruct (Z.leb_spec (r + count) 8) as [Hm8|Hm8]]; rewrite H0; cbn [mbind result_bind];
    rewrite span_set_ok by lia; cbn [mbind result_bind].
  - eexists. split; [done|].
    match goal with |- inserted _ _ _ _ (mk (<[_ := ?x]> _) _) =>
      destruct (inserted_word b q 0 count count value x) as (I1 & I2 & I3 & I4) end;
      try done; try lia; [by apply wrap_fits|intros s Hs'; expand_bits; close_bits|].
    split; [done|]. split; [done|]. split; [done|].
    split; [|intros q' Hq' H; apply I4; [done|]; destruct H; [by left|right; lia]].
    intros i Hi. rewrite I3 by done.
    by replace (8 * q + 0 + count - 1 - i) with (8 * q + count - 1 - i) by lia.
  - eexists. split; [done|].
    match goal with |- inserted _ _ _ _ (mk (<[_ := ?x]> _) _) =>
      destruct (inserted_word b q r count (r + count) value x) as (I1 & I2 & I3 & I4) end;
      try done; try lia; [by apply wrap_fits|intros s Hs'; expand_bits; close_bits|].
    split; [done|]. split; [done|]. split; [done|].
    split; [|intros q' Hq' H; apply I4; [done|]; destruct H; [by left|right; lia]].
    intros i Hi. rewrite I3 by done.
    by rewrite Z.add_assoc.
  - match goal with |- context [span_at (<[_ := ?x]> _)] =>
      destruct (inserted_word b q r (8 - r) (r + count) value x) as (I1 & I2 & I3 & I4) end;
      try done; try lia; [by apply wrap_fits|intros s Hs'; expand_bits; close_bits|].
    set (b1 := mk (<[Z.to_nat q := _]> (buffer b)) (current_size b)) in *.
    change (<[Z.to_nat q := _]> (buffer b)) with (buffer b1).
    assert (Hz1 : zlen (buffer b1) = zlen (buffer b)) by (unfold zlen; by rewrite I2).
    rewrite word_at by lia. cbn [mbind result_bind].
    rewrite span_set_ok by lia. cbn [mbind result_bind]. eexists. split; [done|].
    match goal with |- inserted _ _ _ _ (mk (<[_ := ?x]> _) _) =>
      destruct (inserted_word b1 (q + 1) 0 (r + count - 8) (r + count - 8) value x) as (J1 & J2 & J3 & J4) end;
      try done; try lia; [by apply wrap_fits|intros s Hs'; expand_bits; close_bits|].
    split; [done|]. split; [by rewrite <- I2|]. split; [done|].
    split; [|intros q' Hq' H; apply J4; [done|]; destruct (decide (q' = q + 1)); [by right|left; apply I4; [done|];
             destruct H; [by left|right; lia]]].
    intros i Hi.
    change (current_size b) with (current_size b1). rewrite J3 by done. rewrite I3 by done. close_bits.
Qed.

(** Writing two numbers side by side is writing their concatenation. *)
Lemma inserted_seq b b1 b2 v1 v2 v p c1 c2 :
  0 <= c1 → 0 <= c2 → inserted b v1 p c1 b1 → inserted b1 v2 (p + c1) c2 b2 →
  (∀ j, 0 <= j < c2 → Z.testbit v j = Z.testbit v2 j) →
  (∀ j, 0 <= j < c1 → Z.testbit v (c2 + j) = Z.testbit v1 j) →
  inserted b v p (c1 + c2) b2.
Proof.
  intros Hc1 Hc2 (_ & L1 & S1 & H1 & B1) (O2 & L2 & S2 & H2 & B2) Hlo Hhi.
  split; [done|]. split; [congruence|]. split; [congruence|].
  split; [|intros q Hq H; apply B2; [done|];
    destruct (decide (p + c1 < 8 * q + 8 ∧ 8 * q < p + c1 + c2)); [by right|left; apply B1; [done|];
    destruct H; [by left|right; lia]]].
  intros i Hi. rewrite H2, H1 by done.
  decide_tests; try lia; try done.
  - replace (p + (c1 + c2) - 1 - i) with (c2 + (p + c1 - 1 - i)) by lia. by rewrite Hhi by lia.
  - rewrite Hlo by lia. f_equal. lia.
Qed.

Lemma inserted_ext b b' v v' p c : 0 <= c →
  (∀ j, 0 <= j < c → Z.testbit v j = Z.testbit v' j) → inserted b v p c b' → inserted b v' p c b'.
Proof.
  intros Hc Hv (H1 & H2 & H3 & H4 & H5). split; [done|]. split; [done|]. split; [done|]. split; [|done].
  intros i Hi. rewrite H4 by done.
  decide_tests; try done. apply Hv. lia.
Qed.

Lemma inserted_window b b' v p n : 0 <= p → fits (Z.of_nat n) v →
  inserted b v p (Z.of_nat n) b' → window (buffer b') p n = v.
Proof.
  intros Hp Hv (_ & _ & _ & H & _). apply window_value; [done|]. intros k Hk. rewrite H by lia.
  decide_tests. f_equal. lia.
Qed.

Lemma inserted_other b b' v p c pos n : 0 <= pos → 0 <= c →
  pos + Z.of_nat n <= p ∨ p + c <= pos →
  inserted b v p c b' → window (buffer b') pos n = window (buffer b) pos n.
Proof.
  intros Hp Hc Hd (_ & _ & _ & H & _). apply window_ext. intros k Hk. rewrite H by lia. by decide_tests.
Qed.

Lemma from_bytes_ok l : zlen l < 2 ^ 29 →
  sized (from_bytes l) ∧ buffer (from_bytes l) = l ∧ current_size (from_bytes l) = 8 * zlen l.
Proof.
  intros Hl. unfold sized, from_bytes, bits_per_word. cbn [buffer current_size].
  pose proof (zlen_nonneg l). rewrite (wrap_small 32 (zlen l)), wrap_small by lia_fits.
  split_and!; (done || lia).
Qed.

Lemma reader_from_bytes_spec l : zlen l < 2 ^ 29 - 1 → reader_from_bytes l = Ok (mk l (8 * zlen l)).
Proof.
  intros Hl. unfold reader_from_bytes, calculate_nof_words, bits_per_word. pose proof (zlen_nonneg l).
  rewrite (wrap_small 64) by lia_fits. rewrite (wrap_small 32 (zlen l * 8)), wrap_small by lia_fits.
  pass_assume. by rewrite Z.mul_comm.
Qed.

End bit_buffer.

(** ** Signed conversions *)

Lemma swrap_wrap w z : swrap w (wrap w z) = swrap w z.
Proof. unfold swrap, wrap. by rewrite Zplus_mod_idemp_l. Qed.

Lemma wrap_swrap w z : 0 < w → wrap w (swrap w z) = wrap w z.
Proof.
  intros Hw. unfold swrap, wrap. rewrite Zminus_mod_idemp_l. f_equal. lia.
Qed.

Lemma swrap_eq w a b : wrap w a = wrap w b → swrap w a = swrap w b.
Proof. intros H. by rewrite <- swrap_wrap, H, swrap_wrap. Qed.

Lemma swrap_small w z : 0 < w → sfits w z → swrap w z = z.
Proof.
  unfold sfits, swrap. intros Hw Hz.
  assert (2 ^ w = 2 * 2 ^ (w - 1)) by (rewrite <- Z.pow_succ_r by lia; f_equal; lia).
  rewrite Z.mod_small by lia. lia.
Qed.

Lemma swrap_sfits w z : 0 < w → sfits w (swrap w z).
Proof.
  unfold sfits, swrap. intros Hw.
  assert (2 ^ w = 2 * 2 ^ (w - 1)) by (rewrite <- Z.pow_succ_r by lia; f_equal; lia).
  pose proof (Z.mod_pos_bound (z + 2 ^ (w - 1)) (2 ^ w)). lia.
Qed.

Lemma wrap_lor w a b : 0 <= w → wrap w (Z.lor a b) = Z.lor (wrap w a) (wrap w b).
Proof.
  intros Hw. apply Z.bits_inj'. intros j Hj.
  rewrite bit_buffer.wrap_bit, !Z.lor_spec, !bit_buffer.wrap_bit by lia. by destruct (j <? w).
Qed.

Lemma swrap_scale w k z : 0 < w → 0 <= k → swrap (w + k) (z * 2 ^ k) = swrap w z * 2 ^ k.
Proof.
  intros Hw Hk. unfold swrap. rewrite Z.pow_add_r by lia.
  replace (2 ^ (w + k - 1)) with (2 ^ (w - 1) * 2 ^ k) by (rewrite <- Z.pow_add_r by lia; f_equal; lia).
  rewrite <- Z.mul_add_distr_r, Z.mul_mod_distr_r by lia. ring.
Qed.

(** ** [pack_bytes] and [unpack_bits] *)
Module packing.
Import bit_buffer.

Definition NUM_BITS_IN_BYTE : Z := 8.

(** The inner loop: one sample, a byte at a time.  The two shifts are defined up to
    24 bits left. *)
Fixpoint pack_sample (fuel : nat) (b : t) (sample start_pos left_to_pack : Z) : result (t * Z) :=
  if left_to_pack =? 0 then Ok (b, start_pos) else
  match fuel with
  | O => Fault OutOfFuel
  | S fuel =>
      let nbits := Z.min NUM_BITS_IN_BYTE left_to_pack in
      let masked := wrap 8 (Z.land sample 0x00ff) in
      '(masked, sample) ←
        (if NUM_BITS_IN_BYTE <? left_to_pack then
           assume (left_to_pack - NUM_BITS_IN_BYTE <=? 16) BadShift;;
           Ok (wrap 8 (sample ≫ (left_to_pack - NUM_BITS_IN_BYTE)),
               swrap 16 (Z.land sample (mask_lsb_ones 16 (left_to_pack - NUM_BITS_IN_BYTE))))
         else Ok (masked, sample));
      b ← insert b masked start_pos nbits;
      pack_sample fuel b sample (wrap 32 (start_pos + nbits)) (left_to_pack - nbits)
  end.

Definition pack_bytes (b : t) (compressed_iq : list Z) (iq_width : Z) : result t :=
  '(b, start_pos) ← fold_result
    (λ '(b, start_pos) sample, pack_sample (Z.to_nat iq_width) b sample start_pos iq_width)
    (b, 0) compressed_iq;
  if start_pos mod NUM_BITS_IN_BYTE =? 0 then Ok b
  else insert b 0 start_pos (NUM_BITS_IN_BYTE - start_pos mod NUM_BITS_IN_BYTE).

Fixpoint unpack_loop (fuel : nat) (b : t) (value offset bits_left_to_read : Z) : result Z :=
  if bits_left_to_read =? 0 then Ok value else
  match fuel with
  | O => Fault OutOfFuel
  | S fuel =>
      if NUM_BITS_IN_BYTE <? bits_left_to_read then
        value ← extract b offset NUM_BITS_IN_BYTE;
        assume (bits_left_to_read - NUM_BITS_IN_BYTE <? 32) BadShift;;
        unpack_loop fuel b (swrap 16 (value ≪ (bits_left_to_read - NUM_BITS_IN_BYTE)))
          (wrap 32 (offset + NUM_BITS_IN_BYTE)) (bits_left_to_read - NUM_BITS_IN_BYTE)
      else
        v ← extract b offset bits_left_to_read;
        unpack_loop fuel b (swrap 16 (Z.lor value v)) offset 0
  end.

Definition unpack_bits (b : t) (offset length : Z) : result Z :=
  unpack_loop (Z.to_nat length) b 0 offset length.

Lemma unpack_bits_spec b offset n :
  bytes_ok (buffer b) → sized b → 0 <= offset → 1 <= n <= 16 → offset + n <= current_size b →
  unpack_bits b offset n = Ok (swrap 16 (window (buffer b) offset (Z.to_nat n))).
Proof.
  intros Hok Hb Ho Hn Hs. unfold unpack_bits, NUM_BITS_IN_BYTE. pose proof Hb as (Hz & Hl).
  destruct (decide (n <= 8)).
  - destruct (Z.to_nat n) as [|f] eqn:E; [lia|]. cbn [unpack_loop].
    unfold NUM_BITS_IN_BYTE. replace (n =? 0) with false by lia. replace (8 <? n) with false by lia.
    rewrite extract_spec, E by (done || lia_fits). cbn [mbind result_bind].
    by destruct f; cbn [unpack_loop].
  - destruct (Z.to_nat n) as [|[|f]] eqn:E; [lia..|]. cbn [unpack_loop]. unfold NUM_BITS_IN_BYTE.
    replace (n =? 0) with false by lia. replace (8 <? n) with true by lia.
    rewrite (extract_spec b offset) by (done || lia_fits). cbn [mbind result_bind]. pass_assume.
    replace (n - 8 =? 0) with false by lia. replace (8 <? n - 8) with false by lia.
    rewrite wrap_small by lia_fits. rewrite extract_spec by (done || lia_fits). cbn [mbind result_bind].
    assert (∀ v, unpack_loop f b v (offset + 8) 0 = Ok v) as -> by (by intros; destruct f).
    pass_assume. f_equal. rewrite <- E.
    replace (Z.to_nat n) with (Z.to_nat 8 + Z.to_nat (n - 8))%nat by lia.
    rewrite window_app, !Z2Nat.id by lia. set (a := window _ _ (Z.to_nat 8)).
    pose proof (window_fits (buffer b) (offset + 8) (Z.to_nat (n - 8))) as Hf.
    rewrite Z2Nat.id in Hf by lia. rewrite <- (lor_shiftl_add _ a (n - 8)) by (done || lia).
    apply swrap_eq. by rewrite !wrap_lor, wrap_swrap by lia.
Qed.

(** Samples the inner loop accepts: any from eight bits on, below that only those
    whose low byte needs no more bits. *)
Definition packable (w sample : Z) : bool := (8 <=? w) || (sample mod 256 <? 2 ^ w).

Lemma land_255 x : Z.land x 0x00ff = x mod 256.
Proof. exact (land_mask 8 x ltac:(lia)). Qed.

Lemma pack_sample_narrow b sample p w fuel :
  sized b → 0 <= p → 1 <= w <= 8 → p + w <= current_size b →
  pack_sample (S fuel) b sample p w =
    if packable w sample then b' ← insert b (wrap w sample) p w; Ok (b', p + w) else Fault AssertFailed.
Proof.
  intros Hb Hp Hw Hs. pose proof Hb as (Hz & Hl). cbn [pack_sample]. unfold NUM_BITS_IN_BYTE.
  replace (w =? 0) with false by lia. replace (8 <? w) with false by lia. cbn [mbind result_bind].
  replace (Z.min 8 w) with w by lia. rewrite land_255.
  rewrite (wrap_small 8) by lia_fits. unfold packable.
  assert (2 ^ w <= 256) by (apply (Z.pow_le_mono_r 2 w 8); lia).
  assert (Hr : ∀ b', pack_sample fuel b' sample (wrap 32 (p + w)) (w - w) = Ok (b', p + w)).
  { intros b'. rewrite wrap_small by lia_fits. replace (w - w) with 0 by lia. by destruct fuel. }
  destruct (Z.ltb_spec (sample mod 256) (2 ^ w)) as [H8|H8]; rewrite ?orb_true_r, ?orb_false_r.
  - assert (sample mod 256 = wrap w sample) as ->.
    { change 256 with (2 ^ 8). fold (wrap 8 sample).
      rewrite <- (wrap_wrap w 8) by lia. symmetry. apply wrap_small. split; [apply wrap_fits; lia|done]. }
    by destruct (insert _ _ _ _); cbn [mbind result_bind]; rewrite ?Hr.
  - destruct (Z.leb_spec 8 w); [exfalso; replace w with 8 in H8 by lia; change (2 ^ 8) with 256 in H8; lia|].
    unfold insert, bits_per_word. pass_assume. rewrite Z.shiftl_1_l.
    by replace (sample mod 256 <? 2 ^ w) with false by lia.
Qed.

Lemma pack_sample_spec b sample p w :
  sized b → 0 <= p → 1 <= w <= 16 → p + w <= current_size b → packable w sample = true →
  ∃ b', pack_sample (Z.to_nat w) b sample p w = Ok (b', p + w) ∧ inserted b (wrap w sample) p w b'.
Proof.
  intros Hb Hp Hw Hs Hok. pose proof Hb as (Hz & Hl).
  destruct (Z.to_nat w) as [|f] eqn:E; [lia|]. destruct (decide (w <= 8)).
  - rewrite pack_sample_narrow, Hok by (done || lia).
    destruct (insert_spec b (wrap w sample) p w) as (b' & -> & HI); try done; try lia.
    { apply wrap_fits. lia. }
    by exists b'.
  - destruct f as [|f]; [lia|]. remember (S f) as f1. cbn [pack_sample]. unfold NUM_BITS_IN_BYTE.
    replace (w =? 0) with false by lia. replace (8 <? w) with true by lia. cbn [mbind result_bind].
    pass_assume. replace (Z.min 8 w) with 8 by lia.
    destruct (insert_spec b (wrap 8 (sample ≫ (w - 8))) p 8) as (b1 & -> & HI1); try done; try lia.
    { by apply wrap_fits. }
    cbn [mbind result_bind]. rewrite (wrap_small 32) by lia_fits.
    rewrite mask_lsb_ones_value, land_mask by lia. fold (wrap (w - 8) sample).
    pose proof (wrap_fits (w - 8) sample ltac:(lia)) as Hf.
    assert (Hf8 : u8 (wrap (w - 8) sample)) by (apply (fits_mono (w - 8)); [lia|done]).
    rewrite swrap_small by (try lia; unfold sfits; unfold_fits; lia).
    pose proof HI1 as (Hb1 & _ & HS1 & _). subst f1.
    rewrite pack_sample_narrow by (done || lia).
    assert (packable (w - 8) (wrap (w - 8) sample) = true) as ->.
    { unfold packable. apply orb_true_iff. right. unfold fits in Hf, Hf8.
      rewrite Z.mod_small by (change 256 with (2 ^ 8); lia). lia. }
    rewrite (wrap_small _ _ Hf).
    destruct (insert_spec b1 (wrap (w - 8) sample) (p + 8) (w - 8)) as (b2 & -> & HI2); try done; try lia.
    cbn [mbind result_bind]. exists b2. split; [do 2 f_equal; lia|].
    assert (HG : inserted b (wrap w sample) p (8 + (w - 8)) b2); [|by replace (8 + (w - 8)) with w in HG by lia].
    eapply inserted_seq; [| |exact HI1|exact HI2|..]; [lia..| |].
    + intros j Hj. rewrite !wrap_bit by lia. by decide_tests.
    + intros j Hj. rewrite !wrap_bit, Z.shiftr_spec by lia. decide_tests. f_equal. lia.
Qed.

(** Bytes [l'] hold the samples [l] of width [w] from position [p] on; other bits are
    those of [l0]. *)
Definition holds (w p : Z) (l : list Z) (l0 l' : list Z) : Prop :=
  (∀ k s, l !! k = Some s → window l' (p + Z.of_nat k * w) (Z.to_nat w) = wrap w s) ∧
  (∀ i, 0 <= i → i < p ∨ p + zlen l * w <= i → bit l' i = bit l0 i) ∧
  (∀ q, 0 <= q → u8 (nth (Z.to_nat q) l0 0) ∨ (p < 8 * q + 8 ∧ 8 * q < p + zlen l * w ∧ 0 < zlen l * w) →
     u8 (nth (Z.to_nat q) l' 0)).

Lemma holds_cons w p s l b b1 b' : 1 <= w → 0 <= p →
  inserted b (wrap w s) p w b1 → holds w (p + w) l (buffer b1) (buffer b') →
  holds w p (s :: l) (buffer b) (buffer b').
Proof.
  intros Hw Hp HI (HW & HO & HU). pose proof HI as (_ & _ & _ & HB & HBU). pose proof (zlen_nonneg l).
  split_and!.
  - intros [|k] s' Hk.
    + injection Hk as <-. replace (p + Z.of_nat 0 * w) with p by lia.
      rewrite <- (inserted_window b b1 (wrap w s) p (Z.to_nat w)); rewrite ?Z2Nat.id by lia;
        [|done|apply wrap_fits; lia|done].
      apply window_ext. intros k Hk. apply HO; lia.
    + rewrite <- (HW k s') by done. f_equal. lia.
  - intros i Hi Hd. rewrite zlen_cons in Hd. rewrite HO by lia. rewrite HB by done.
    by decide_tests.
  - intros q Hq H'. rewrite zlen_cons in H'. apply HU; [done|].
    destruct (decide (p + w < 8 * q + 8 ∧ 8 * q < p + w + zlen l * w ∧ 0 < zlen l * w)); [by right|left].
    apply HBU; [done|]. destruct H'; [by left|right; lia].
Qed.

Lemma pack_samples_spec w l : 1 <= w <= 16 → ∀ b p,
  sized b → 0 <= p → p + zlen l * w <= current_size b → forallb (packable w) l = true →
  ∃ b', fold_result (λ '(b, start_pos) sample, pack_sample (Z.to_nat w) b sample start_pos w) (b, p) l =
      Ok (b', p + zlen l * w) ∧ sized b' ∧ length (buffer b') = length (buffer b) ∧
    current_size b' = current_size b ∧ holds w p l (buffer b) (buffer b').
Proof.
  intros Hw. induction l as [|s l IH]; intros b p Hb Hp Hs Hok.
  { exists b. split; [simpl; do 2 f_equal; change (zlen []) with 0; lia|]. split; [done|]. split; [done|]. split; [done|].
    split; [done|]. split; [done|]. change (zlen []) with 0. intros q Hq [H|H]; [done|lia]. }
  cbn [forallb] in Hok. apply andb_true_iff in Hok as [Hok1 Hok2]. rewrite zlen_cons in Hs.
  pose proof (zlen_nonneg l). destruct (pack_sample_spec b s p w) as (b1 & HP & HI); try done; try nia.
  cbn [fold_result]. rewrite HP. cbn [mbind result_bind]. pose proof HI as (Hb1 & L1 & S1 & _).
  destruct (IH b1 (p + w)) as (b' & HF & Hb' & L' & S' & HH); try done; try lia.
  exists b'. rewrite HF, zlen_cons. split; [do 2 f_equal; lia|]. split_and!; try done; try congruence.
  by apply (holds_cons w p s l b b1 b'); try lia.
Qed.

Lemma pack_samples_fault w l : 1 <= w <= 16 → ∀ b p,
  sized b → 0 <= p → p + zlen l * w <= current_size b → forallb (packable w) l = false →
  fold_result (λ '(b, start_pos) sample, pack_sample (Z.to_nat w) b sample start_pos w) (b, p) l =
    Fault AssertFailed.
Proof.
  intros Hw. induction l as [|s l IH]; intros b p Hb Hp Hs Hok; [done|].
  cbn [forallb] in Hok. rewrite zlen_cons in Hs. pose proof (zlen_nonneg l). cbn [fold_result].
  destruct (packable w s) eqn:Ep.
  - destruct (pack_sample_spec b s p w) as (b1 & -> & HI); try done; try nia. cbn [mbind result_bind].
    pose proof HI as (Hb1 & _ & S1 & _). apply IH; try done; lia.
  - assert (w < 8) by (unfold packable in Ep; apply orb_false_iff in Ep as [Ep _]; lia).
    destruct (Z.to_nat w) as [|f] eqn:E; [lia|]. rewrite pack_sample_narrow, Ep by (done || nia). done.
Qed.

(** The whole routine: the samples, then zeros up to the end of the byte. *)
Lemma pack_bytes_spec w l bytes :
  1 <= w <= 16 → zlen bytes < 2 ^ 29 - 1 → zlen l * w <= 8 * zlen bytes →
  forallb (packable w) l = true →
  ∃ out, pack_bytes (from_bytes bytes) l w = Ok (mk out (8 * zlen bytes)) ∧
    length out = length bytes ∧
    (∀ k s, l !! k = Some s → window out (Z.of_nat k * w) (Z.to_nat w) = wrap w s) ∧
    (∀ q, 0 <= q → u8 (nth (Z.to_nat q) bytes 0) ∨ 8 * q < zlen l * w → u8 (nth (Z.to_nat q) out 0)) ∧
    (∀ i, zlen l * w <= i → bit out i = if i <? (zlen l * w + 7) / 8 * 8 then false else bit bytes i).
Proof.
  intros Hw Hl Hs Hok. destruct (from_bytes_ok bytes) as (Hb0 & B0 & S0); [lia|].
  pose proof (zlen_nonneg l). unfold pack_bytes, NUM_BITS_IN_BYTE.
  destruct (pack_samples_spec w l Hw (from_bytes bytes) 0 Hb0) as (b1 & -> & Hb1 & L1 & S1 & HW & HO & HU);
    try done; try lia. cbn [mbind result_bind]. rewrite Z.add_0_l in *. rewrite B0 in *. rewrite S0 in S1.
  set (p := zlen l * w) in *. assert (Hp : 0 <= p) by (unfold p; nia).
  assert (Hkp : ∀ k, (k < length l)%nat → Z.of_nat k * w + w <= p) by (intros k Hk; unfold p, zlen; nia).
  clearbody p.
  destruct (Z.eqb_spec (p mod 8) 0) as [Hm|Hm].
  - exists (buffer b1). split; [by destruct b1; cbn in *; subst|]. split; [done|].
    split; [exact HW|]. split; [intros q Hq H'; apply HU; [done|]; destruct H'; [by left|right; lia]|].
    intros i Hi. rewrite HO by lia. by replace (i <? _) with false by lia.
  - destruct (insert_spec b1 0 p (8 - p mod 8)) as (b2 & -> & HI); try done; try lia.
    { split; [done|]. apply Z.pow_pos_nonneg; lia. }
    pose proof HI as (Hb2 & L2 & S2 & HB & HBU). exists (buffer b2).
    split; [by destruct b2; cbn in *; subst; rewrite S1|]. split; [congruence|].
    split_and!.
    + intros k s Hk. rewrite <- (HW k s Hk). apply lookup_lt_Some in Hk.
      apply (inserted_other b1 b2 0 p (8 - p mod 8)); try done; [nia|lia|].
      left. rewrite Z2Nat.id by lia. by apply Hkp.
    + intros q Hq H'. apply HBU; [done|]. left. apply HU; [done|]. destruct H'; [by left|right; lia].
    + intros i Hi. rewrite HB by lia. decide_tests; try lia; [apply Z.bits_0|]. apply HO; lia.
Qed.

Lemma pack_bytes_fault w l bytes :
  1 <= w <= 16 → zlen bytes < 2 ^ 29 - 1 → zlen l * w <= 8 * zlen bytes →
  forallb (packable w) l = false → pack_bytes (from_bytes bytes) l w = Fault AssertFailed.
Proof.
  intros Hw Hl Hs Hok. destruct (from_bytes_ok bytes) as (Hb0 & B0 & S0); [lia|].
  unfold pack_bytes. by rewrite pack_samples_fault by (done || lia).
Qed.

(** Bytes are determined by their bits, the bits of a packed buffer by its windows. *)
Lemma bytes_ext l l' : bytes_ok l → bytes_ok l' → length l = length l' →
  (∀ i, 0 <= i < 8 * zlen l → bit l i = bit l' i) → l = l'.
Proof.
  intros Hl Hl' Hlen Hbit. apply (list_eq_same_length _ _ (length l)); [done..|].
  intros q x y Hq Hx Hy. pose proof (Forall_lookup_1 _ _ _ _ Hl Hx) as Ux.
  pose proof (Forall_lookup_1 _ _ _ _ Hl' Hy) as Uy. cbv beta in Ux, Uy.
  apply Z.bits_inj'. intros j Hj. destruct (decide (j < 8)).
  - specialize (Hbit (8 * Z.of_nat q + (7 - j))). unfold zlen in Hbit.
    rewrite !(bit_word _ _ (Z.of_nat q) (7 - j)) in Hbit by lia.
    rewrite Nat2Z.id, (nth_lookup_Some _ _ _ _ Hx), (nth_lookup_Some _ _ _ _ Hy) in Hbit.
    replace (7 - (7 - j)) with j in Hbit by lia. apply Hbit. lia.
  - by rewrite !(fits_bit 8) by (done || lia).
Qed.

Lemma window_bit l p n i : 0 <= i < Z.of_nat n →
  bit l (p + i) = Z.testbit (window l p n) (Z.of_nat n - 1 - i).
Proof.
  intros Hi. rewrite window_testbit by lia. replace (_ <? _) with true by lia. cbn [andb].
  f_equal. lia.
Qed.

Lemma bytes_ok_nth l : (∀ q, 0 <= q < zlen l → u8 (nth (Z.to_nat q) l 0)) → bytes_ok l.
Proof.
  intros H. apply Forall_lookup_2. intros i x Hx. pose proof (lookup_lt_Some _ _ _ Hx).
  specialize (H (Z.of_nat i)). rewrite Nat2Z.id, (nth_lookup_Some _ _ _ _ Hx) in H.
  apply H. unfold zlen. lia.
Qed.

(** A view filled to its last bit: the result does not depend on what it held. *)
Lemma pack_bytes_full w l (n : nat) :
  1 <= w <= 16 → Z.of_nat n < 2 ^ 29 - 1 → zlen l * w = 8 * Z.of_nat n →
  forallb (packable w) l = true →
  ∃ out, bytes_ok out ∧ length out = n ∧
    (∀ k s, l !! k = Some s → window out (Z.of_nat k * w) (Z.to_nat w) = wrap w s) ∧
    (∀ view, length view = n →
       pack_bytes (from_bytes view) l w = Ok (mk out (8 * Z.of_nat n))).
Proof.
  intros Hw Hn Hl Hok.
  assert (Hpack : ∀ view, length view = n → ∃ out, bytes_ok out ∧ length out = n ∧
    (∀ k s, l !! k = Some s → window out (Z.of_nat k * w) (Z.to_nat w) = wrap w s) ∧
    pack_bytes (from_bytes view) l w = Ok (mk out (8 * Z.of_nat n))).
  { intros view Hv. destruct (pack_bytes_spec w l view) as (out & HP & HL & HW & HU & _);
      try done; [unfold zlen in *; lia..|].
    exists out. split; [|unfold zlen in HP; rewrite Hv in *; done].
    apply bytes_ok_nth. intros q Hq. apply HU; [lia|]. right. unfold zlen in *. lia. }
  destruct (Hpack (replicate n 0)) as (out & HB & HL & HW & _); [apply length_replicate|].
  exists out. split; [done|]. split; [done|]. split; [done|]. intros view Hv.
  destruct (Hpack view Hv) as (out' & HB' & HL' & HW' & ->). do 2 f_equal.
  apply bytes_ext; [done..|congruence|]. intros i Hi. unfold zlen in *.
  assert (Hk : (Z.to_nat (i / w) < length l)%nat).
  { assert (i / w < Z.of_nat (length l)) by (apply Z.div_lt_upper_bound; lia).
    pose proof (Z.div_pos i w). lia. }
  destruct (lookup_lt_is_Some_2 l _ Hk) as [s Hs].
  pose proof (Z.div_mod i w ltac:(lia)) as Hdm. pose proof (Z.mod_pos_bound i w ltac:(lia)).
  replace i with (Z.of_nat (Z.to_nat (i / w)) * w + i mod w)
    by (rewrite Z2Nat.id by (apply Z.div_pos; lia); lia).
  rewrite !(window_bit _ _ (Z.to_nat w)) by (rewrite Z2Nat.id; lia).
  by rewrite (HW _ _ Hs), (HW' _ _ Hs).
Qed.

End packing.
