(* ===== verification/BoundedBitset.v ===== *)
(** * BoundedBitset: bitsets of bounded size, stored in 64-bit words

    Models class [bounded_bitset] of include/srsran/adt/bounded_bitset.h.  The two
    template arguments, the capacity [N] and the bit order [LowestInfoBitIsMSB], are
    section variables.  A loop over word indices is a fold over the list of indices;
    the three searches run on fuel, one step per word of the array and one more, as a
    step past the array is an access out of bounds.

    The file proves what every operation does to single bits ([bit], a position in
    memory order); [BitsetSpec] lifts that to lists of booleans. *)

From S2P Require Export BitBuffer.

(** ** Words of 64 bits *)

Definition wnot (x : Z) : Z := wrap 64 (Z.lnot x).
Definition mask_lsb_zeros (w N : Z) : Z := wrap w (Z.lnot (mask_lsb_ones w N)).

(** [__builtin_clzl], [__builtin_ctzl], [__builtin_popcountl] *)
Definition clzl (x : Z) : Z := 63 - Z.log2 x.
Fixpoint ctz_pos (p : positive) : Z := match p with xO p => 1 + ctz_pos p | _ => 0 end.
Definition ctzl (x : Z) : Z := match x with Zpos p => ctz_pos p | _ => 0 end.
Fixpoint popcount_pos (p : positive) : Z :=
  match p with xH => 1 | xO p => popcount_pos p | xI p => 1 + popcount_pos p end.
Definition popcountl (x : Z) : Z := match x with Zpos p => popcount_pos p | _ => 0 end.

Definition zero_msb_count (x : Z) : Z := if x =? 0 then 64 else clzl x.
Definition zero_lsb_count (x : Z) : Z := if x =? 0 then 64 else ctzl x.
Definition count_ones (x : Z) : Z := popcountl x.
Definition find_first_msb_one (x : Z) : Z := if x =? 0 then 64 else 64 - 1 - zero_msb_count x.
Definition find_first_lsb_one (x : Z) : Z := zero_lsb_count x.

(** The 16 cases by which [for_each] visits four bits at a time. *)
Definition preset (n : Z) : list Z :=
  match n with
  | 0 => [] | 1 => [0] | 2 => [1] | 3 => [0; 1]
  | 4 => [2] | 5 => [0; 2] | 6 => [1; 2] | 7 => [0; 1; 2]
  | 8 => [3] | 9 => [0; 3] | 10 => [1; 3] | 11 => [0; 1; 3]
  | 12 => [2; 3] | 13 => [0; 2; 3] | 14 => [1; 2; 3] | _ => [0; 1; 2; 3]
  end.

Module bounded_bitset.

Definition bits_per_word : Z := 64.

Record t := mk { buffer : list Z; cur_size : Z }.

Definition size (b : t) : Z := cur_size b.
Definition empty (b : t) : bool := size b =? 0.
Definition nof_words_ (b : t) : Z := (size b + bits_per_word - 1) / bits_per_word.
Definition word_idx_ (bitidx : Z) : Z := bitidx / bits_per_word.
Definition maskbit (pos : Z) : Z := wrap 64 (1 ≪ (pos mod bits_per_word)).

Definition assert_within_bounds_ (b : t) (pos : Z) (strict : bool) : result unit :=
  assume ((pos <? size b) || (negb strict && (pos =? size b))) AssertFailed.
Definition assert_range_bounds_ (b : t) (startpos endpos : Z) : result unit :=
  assume ((startpos <=? endpos) && (endpos <=? size b)) AssertFailed.

(** [buffer[i] = f(buffer[i])], for one index and for the indices of a loop. *)
Definition set_word (b : t) (i : Z) (f : Z → result Z) : result t :=
  w ← vec_at (buffer b) i;
  x ← f w;
  Ok (mk (<[Z.to_nat i := x]> (buffer b)) (cur_size b)).
Definition each_word (b : t) (idxs : list Z) (f : Z → Z → result Z) : result t :=
  fold_result (λ b i, set_word b i (f i)) b idxs.

(** A loop over word indices that returns at the first word [p] holds of. *)
Fixpoint exists_word (buf : list Z) (idxs : list Z) (p : Z → Z → result bool) : result bool :=
  match idxs with
  | [] => Ok false
  | i :: idxs => w ← vec_at buf i; found ← p i w; if (found : bool) then Ok true else exists_word buf idxs p
  end.

Definition sanitize_ (b : t) : result t :=
  let n := size b mod bits_per_word in
  let nwords := nof_words_ b in
  if negb (n =? 0) && (0 <? nwords) then
    set_word b (nwords - 1) (λ w, Ok (Z.land w (wnot (wrap 64 (wnot 0 ≪ n)))))
  else Ok b.

Section bitset.
Context (N : Z) (LowestInfoBitIsMSB : bool).

Definition max_nof_words_ : Z := (N + bits_per_word - 1) / bits_per_word.
Definition max_size : Z := N.

(** ** Construction and size *)

Definition create (cur_size_ : Z) : result t :=
  assume (cur_size_ <=? N) AssertFailed;;
  Ok (mk (replicate (Z.to_nat max_nof_words_) 0) cur_size_).

(** [std::copy] of the words in use. *)
Definition copy_words (buf src : list Z) (n : Z) : result (list Z) :=
  words ← vec_range src 0 n;
  mem_write buf 0 words.

Definition copy (other : t) : result t :=
  buf ← copy_words (replicate (Z.to_nat max_nof_words_) 0) (buffer other) (nof_words_ other);
  Ok (mk buf (cur_size other)).

Definition assign (b other : t) : result t :=
  b ← each_word b (seqZ (nof_words_ other) (nof_words_ b - nof_words_ other)) (λ _ _, Ok 0);
  buf ← copy_words (buffer b) (buffer other) (nof_words_ other);
  Ok (mk buf (cur_size other)).

Definition resize (b : t) (new_size : Z) : result t :=
  assume (new_size <=? max_size) AssertFailed;;
  if new_size =? cur_size b then Ok b else
  let prev_nof_words := nof_words_ b in
  b ← sanitize_ (mk (buffer b) new_size);
  let new_nof_words := nof_words_ b in
  let start := Z.min prev_nof_words new_nof_words in
  let end_ := Z.max prev_nof_words new_nof_words in
  each_word b (seqZ start (end_ - start)) (λ _ _, Ok 0).

(** ** Single bits *)

Definition get_bitidx_ (b : t) (bitpos : Z) : Z :=
  if LowestInfoBitIsMSB then wrap 64 (size b - 1 - bitpos) else bitpos.

Definition get_word_ (b : t) (bitidx : Z) : result Z := vec_at (buffer b) (bitidx / bits_per_word).

Definition test_ (b : t) (bitpos : Z) : result bool :=
  let bitpos := get_bitidx_ b bitpos in
  w ← get_word_ b bitpos;
  Ok (negb (Z.land w (maskbit bitpos) =? 0)).

Definition set_ (b : t) (bitpos : Z) : result t :=
  let bitpos := get_bitidx_ b bitpos in
  set_word b (bitpos / bits_per_word) (λ w, Ok (Z.lor w (maskbit bitpos))).

Definition reset_ (b : t) (bitpos : Z) : result t :=
  let bitpos := get_bitidx_ b bitpos in
  set_word b (bitpos / bits_per_word) (λ w, Ok (Z.land w (wnot (maskbit bitpos)))).

Definition test (b : t) (pos : Z) : result bool :=
  assert_within_bounds_ b pos true;; test_ b pos.

Definition set (b : t) (pos : Z) (val : bool) : result t :=
  assert_within_bounds_ b pos true;; if val then set_ b pos else reset_ b pos.

(** [set(pos)] and [reset(pos)] *)
Definition set_bit (b : t) (pos : Z) : result t := assert_within_bounds_ b pos true;; set_ b pos.
Definition reset_bit (b : t) (pos : Z) : result t := assert_within_bounds_ b pos true;; reset_ b pos.

(** The constructor from a range of booleans. *)
Definition of_values (values : list bool) : result t :=
  b ← resize (mk (replicate (Z.to_nat max_nof_words_) 0) 0) (zlen values);
  fold_result (λ b '(n, value), assert_within_bounds_ b n true;; if (value : bool) then set_ b n else reset_ b n)
    b (zip (seqZ 0 (zlen values)) values).

(** ** All words *)

Definition reset_all (b : t) : result t := each_word b (seqZ 0 (nof_words_ b)) (λ _ _, Ok 0).

Definition fill_all (b : t) (val : bool) : result t :=
  if negb val then reset_all b else
  b ← each_word b (seqZ 0 (nof_words_ b)) (λ _ _, Ok (2 ^ 64 - 1));
  sanitize_ b.

Definition flip (b : t) : result t :=
  b ← each_word b (seqZ 0 (nof_words_ b)) (λ _ w, Ok (wnot w));
  sanitize_ b.

Definition or_assign (b other : t) : result t :=
  assume (size other =? size b) AssertFailed;;
  each_word b (seqZ 0 (nof_words_ b)) (λ i w, o ← vec_at (buffer other) i; Ok (Z.lor w o)).

Definition and_assign (b other : t) : result t :=
  assume (size other =? size b) AssertFailed;;
  each_word b (seqZ 0 (nof_words_ b)) (λ i w, o ← vec_at (buffer other) i; Ok (Z.land w o)).

Definition not (b : t) : result t := ret ← copy b; flip ret.

Definition eqb (b other : t) : result bool :=
  if negb (size b =? size other) then Ok false else
  found ← exists_word (buffer b) (seqZ 0 (nof_words_ b))
            (λ i w, o ← vec_at (buffer other) i; Ok (negb (w =? o)));
  Ok (negb found).

Definition any (b : t) : result bool :=
  exists_word (buffer b) (seqZ 0 (nof_words_ b)) (λ _ w, Ok (negb (w =? 0))).
Definition none (b : t) : result bool := a ← any b; Ok (negb a).

Definition all (b : t) : result bool :=
  let nw := nof_words_ b in
  if nw =? 0 then Ok true else
  let allset := wnot 0 in
  found ← exists_word (buffer b) (seqZ 0 (nw - 1)) (λ _ w, Ok (negb (w =? allset)));
  if (found : bool) then Ok false else
  w ← vec_at (buffer b) (nw - 1);
  Ok (w =? allset ≫ (nw * bits_per_word - size b)).

Definition count (b : t) : result Z :=
  c ← fold_result (λ c i, w ← vec_at (buffer b) i; sadd 32 c (count_ones w)) 0 (seqZ 0 (nof_words_ b));
  Ok (wrap 64 c).

(** ** Ranges of bits *)

(** The callback [c] gets a word index and the mask of the bits of that word in the
    range; it may change [s] and stops the loop by returning true. *)
Definition range_mask (start stop start_word end_word i : Z) : Z :=
  let mask := wnot 0 in
  let mask := if i =? start_word then Z.land mask (mask_lsb_zeros 64 (start mod bits_per_word)) else mask in
  if i =? end_word - 1 then Z.land mask (mask_msb_zeros 64 (end_word * bits_per_word - stop)) else mask.

Fixpoint find_first_word_loop {S} (c : Z → Z → S → result (bool * S))
    (start stop start_word end_word : Z) (idxs : list Z) (s : S) : result (bool * S) :=
  match idxs with
  | [] => Ok (false, s)
  | i :: idxs =>
      '(stopped, s) ← c i (range_mask start stop start_word end_word i) s;
      if (stopped : bool) then Ok (true, s)
      else find_first_word_loop c start stop start_word end_word idxs s
  end.

Definition find_first_word_ {S} (b : t) (start stop : Z) (c : Z → Z → S → result (bool * S)) (s : S)
    : result (bool * S) :=
  assert_range_bounds_ b start stop;;
  let '(start, stop) :=
    if LowestInfoBitIsMSB
    then (wrap 64 (get_bitidx_ b stop + 1), wrap 64 (get_bitidx_ b start + 1))
    else (start, stop) in
  let start_word := word_idx_ start in
  let end_word := word_idx_ stop + (if 0 <? stop mod bits_per_word then 1 else 0) in
  find_first_word_loop c start stop start_word end_word (seqZ start_word (end_word - start_word)) s.

Definition fill (b : t) (startpos endpos : Z) (value : bool) : result t :=
  '(_, b) ← find_first_word_ b startpos endpos (λ word_idx mask b,
    b ← set_word b word_idx (λ w, Ok (if value then Z.lor w mask else Z.land w (wnot mask)));
    Ok (false, b)) b;
  Ok b.

Definition all_range (b : t) (start stop : Z) : result bool :=
  '(not_all_found, _) ← find_first_word_ b start stop (λ word_idx mask _,
    w ← vec_at (buffer b) word_idx; Ok (negb (Z.lor w (wnot mask) =? wnot 0), tt)) tt;
  Ok (negb not_all_found).

Definition any_range (b : t) (start stop : Z) : result bool :=
  '(any_found, _) ← find_first_word_ b start stop (λ word_idx mask _,
    w ← vec_at (buffer b) word_idx; Ok (negb (Z.land w mask =? 0), tt)) tt;
  Ok any_found.

Definition none_range (b : t) (start stop : Z) : result bool :=
  a ← any_range b start stop; Ok (negb a).

(** ** Searches *)

Fixpoint find_first_loop (fuel : nat) (b : t) (startpos endpos startword lastword : Z) (value : bool) (i : Z)
    : result Z :=
  match fuel with
  | O => Fault OutOfFuel
  | S fuel =>
      if lastword <? i then Ok (-1) else
      w ← vec_at (buffer b) i;
      let w := if value then w else wnot w in
      let w := if i =? startword then Z.land w (mask_lsb_zeros 64 (startpos mod bits_per_word)) else w in
      let w := if i =? lastword
               then Z.land w (mask_lsb_ones 64 (wrap 64 (endpos - 1) mod bits_per_word + 1)) else w in
      if negb (w =? 0) then Ok (swrap 32 (i * bits_per_word + find_first_lsb_one w))
      else find_first_loop fuel b startpos endpos startword lastword value (i + 1)
  end.

Definition find_first_ (b : t) (startpos endpos : Z) (value : bool) : result Z :=
  let startword := startpos / bits_per_word in
  let lastword := wrap 64 (endpos - 1) / bits_per_word in
  find_first_loop (S (length (buffer b))) b startpos endpos startword lastword value startword.

Fixpoint find_last_loop (fuel : nat) (b : t) (startpos endpos startword lastword : Z) (value : bool) (i : Z)
    : result Z :=
  match fuel with
  | O => Fault OutOfFuel
  | S fuel =>
      if i =? wrap 64 (startword - 1) then Ok (-1) else
      w ← vec_at (buffer b) i;
      let w := if value then w else wnot w in
      let offset := startpos mod bits_per_word in
      let w := if i =? startword
               then Z.land w (if LowestInfoBitIsMSB then mask_msb_zeros 64 offset else mask_lsb_zeros 64 offset)
               else w in
      let offset := wrap 64 (endpos - 1) mod bits_per_word in
      let w := if i =? lastword
               then Z.land w (if LowestInfoBitIsMSB then mask_msb_ones 64 (offset + 1)
                              else mask_lsb_ones 64 (offset + 1))
               else w in
      if negb (w =? 0) then Ok (swrap 32 (i * bits_per_word + find_first_msb_one w))
      else find_last_loop fuel b startpos endpos startword lastword value (wrap 64 (i - 1))
  end.

Definition find_last_ (b : t) (startpos endpos : Z) (value : bool) : result Z :=
  let startword := startpos / bits_per_word in
  let lastword := wrap 64 (endpos - 1) / bits_per_word in
  find_last_loop (S (length (buffer b))) b startpos endpos startword lastword value lastword.

Fixpoint find_first_reversed_loop (fuel : nat) (b : t) (startbitpos lastbitpos startword lastword : Z)
    (value : bool) (i : Z) : result Z :=
  match fuel with
  | O => Fault OutOfFuel
  | S fuel =>
      if i =? wrap 64 (lastword - 1) then Ok (-1) else
      w ← vec_at (buffer b) i;
      let w := if value then w else wnot w in
      let w := if i =? startword
               then Z.land w (mask_lsb_ones 64 (startbitpos mod bits_per_word + 1)) else w in
      let w := if i =? lastword
               then Z.land w (mask_lsb_zeros 64 (lastbitpos mod bits_per_word)) else w in
      if negb (w =? 0) then
        let pos := find_first_msb_one w in
        Ok (swrap 32 (size b - 1 - (pos + i * bits_per_word)))
      else find_first_reversed_loop fuel b startbitpos lastbitpos startword lastword value (wrap 64 (i - 1))
  end.

Definition find_first_reversed_ (b : t) (startpos endpos : Z) (value : bool) : result Z :=
  let startbitpos := get_bitidx_ b startpos in
  let lastbitpos := get_bitidx_ b (wrap 64 (endpos - 1)) in
  let startword := startbitpos / bits_per_word in
  let lastword := lastbitpos / bits_per_word in
  find_first_reversed_loop (S (length (buffer b))) b startbitpos lastbitpos startword lastword value startword.

Definition find_lowest_range (b : t) (startpos endpos : Z) (value : bool) : result Z :=
  assert_range_bounds_ b startpos endpos;;
  if startpos =? endpos then Ok (-1) else
  if negb LowestInfoBitIsMSB then find_first_ b startpos endpos value
  else find_first_reversed_ b startpos endpos value.

Definition find_lowest (b : t) (value : bool) : result Z := find_lowest_range b 0 (size b) value.

Definition find_highest_range (b : t) (startpos endpos : Z) (value : bool) : result Z :=
  assert_range_bounds_ b startpos endpos;;
  if LowestInfoBitIsMSB then
    ret ← find_first_ b (size b - endpos) (size b - startpos) value;
    if ret =? -1 then Ok ret else Ok (swrap 32 (size b - 1 - ret))
  else find_last_ b startpos endpos value.

Definition find_highest (b : t) (value : bool) : result Z := find_highest_range b 0 (size b) value.

Definition is_contiguous (b : t) (value : bool) : result bool :=
  startpos ← find_lowest_range b 0 (size b) value;
  if startpos =? -1 then Ok true else
  endpos ← find_highest_range b (startpos + 1) (size b) value;
  if endpos =? -1 then Ok true else
  value_count ← count b;
  let value_count := if value then value_count else size b - value_count in
  Ok (value_count =? (endpos + 1) - startpos).

Fixpoint get_bit_positions_loop (fuel : nat) (b : t) (value : bool) (i_bit : Z) : result (list Z) :=
  match fuel with
  | O => Fault OutOfFuel
  | S fuel =>
      if negb (i_bit <? size b) then Ok [] else
      next_position ← find_lowest_range b i_bit (size b) value;
      if next_position <? 0 then Ok [] else
      positions ← get_bit_positions_loop fuel b value (next_position + 1);
      Ok (next_position :: positions)
  end.

Definition get_bit_positions (b : t) (value : bool) : result (list Z) :=
  get_bit_positions_loop (S (Z.to_nat (size b))) b value 0.

(** Visiting the bits of one word, four at a time. *)
Fixpoint for_each_word {S} (fuel : nat) (function : S → Z → result S) (w bitpos : Z) (s : S) : result S :=
  match fuel with
  | O => if w =? 0 then Ok s else Fault OutOfFuel
  | Datatypes.S fuel =>
      if w =? 0 then Ok s else
      s ← fold_result (λ s k, function s (bitpos + k)) s (preset (Z.land w 15));
      for_each_word fuel function (w ≫ 4) (bitpos + 4) s
  end.

Definition for_each {S} (b : t) (startpos endpos : Z) (function : S → Z → result S) (value : bool) (s : S)
    : result S :=
  assert_range_bounds_ b startpos endpos;;
  if startpos =? endpos then Ok s else
  uniform ← (if value then all_range b startpos endpos else none_range b startpos endpos);
  if (uniform : bool) then fold_result function s (seqZ startpos (endpos - startpos)) else
  let startword := startpos / bits_per_word in
  let lastword := (endpos + bits_per_word - 1) / bits_per_word in
  fold_result (λ s i,
    w ← vec_at (buffer b) i;
    let w := if value then w else wnot w in
    if w =? 0 then Ok s else
    let w := if i =? startword then Z.land w (mask_lsb_zeros 64 (startpos mod bits_per_word)) else w in
    let w := if (i =? lastword - 1) && negb (endpos mod bits_per_word =? 0)
             then Z.land w (mask_lsb_ones 64 (endpos mod bits_per_word)) else w in
    for_each_word 16 function w (i * bits_per_word) s) s (seqZ startword (lastword - startword)).

(** ** Integers and other sets *)

Definition push_back (b : t) (val : bool) : result t :=
  let bitpos := wrap 32 (size b) in
  b ← resize b (size b + 1);
  set b bitpos val.

(** [val >> k] for an unsigned type of [width] bits, after promotion. *)
Definition shr (width val k : Z) : result Z :=
  assume (k <? Z.max 32 width) BadShift;; Ok (val ≫ k).

Definition push_back_bits (width : Z) (b : t) (val nof_bits : Z) : result t :=
  let bitpos := wrap 32 (size b) in
  b ← resize b (size b + nof_bits);
  b ← (if LowestInfoBitIsMSB then
         fold_result (λ b bit_index, v ← test b (bit_index + nof_bits); set b bit_index v) b (seqZ 0 bitpos)
       else Ok b);
  fold_result (λ b bit_index,
    v ← shr width val (nof_bits - 1 - bit_index);
    set b (bitpos + bit_index) (negb (Z.land v 1 =? 0))) b (seqZ 0 nof_bits).

Definition extract (width : Z) (b : t) (startpos nof_bits : Z) : result Z :=
  assume (nof_bits <=? width) AssertFailed;;
  assume (wrap 32 (startpos + nof_bits) <=? size b) AssertFailed;;
  fold_result (λ val bit_index,
    v ← test b (wrap 32 (startpos + bit_index));
    if (v : bool) then
      assume (nof_bits - 1 - bit_index <? 32) BadShift;;
      Ok (Z.lor val (wrap 32 (1 ≪ (nof_bits - 1 - bit_index))))
    else Ok val) 0 (seqZ 0 nof_bits).

Definition to_uint64 (b : t) : result Z :=
  assume (nof_words_ b =? 1) AssertFailed;; get_word_ b 0.

Definition from_uint64 (b : t) (v : Z) : result t :=
  assume (nof_words_ b =? 1) AssertFailed;;
  assume (size b <? 64) BadShift;;
  assume (v <? 1 ≪ size b) AssertFailed;;
  set_word b 0 (λ _, Ok v).

Definition to_unpacked_bits (b : t) (nof_bits : Z) : result (list Z) :=
  assume (size b =? nof_bits) AssertFailed;;
  mapM (λ i, v ← test b i; Ok (Z.b2z v)) (seqZ 0 (size b)).

(** The integers written by [to_packed_bits], for an unsigned type of [width] bits. *)
Definition to_packed_bits (width : Z) (b : t) (nof_packed : Z) : result (list Z) :=
  let steps_per_word := 64 / width in
  let integer_mask := mask_lsb_ones 64 width in
  let last_word_steps := (size b mod bits_per_word + width - 1) / width in
  let nof_words := wrap 32 (nof_words_ b) in
  let nof_integers_packed := wrap 32 (wrap 32 (nof_words - 1) * steps_per_word + last_word_steps) in
  assume (nof_integers_packed <=? nof_packed) AssertFailed;;
  fold_result (λ packed i,
    let nof_steps := if i =? nof_words - 1 then last_word_steps else steps_per_word in
    if negb LowestInfoBitIsMSB then
      w ← vec_at (buffer b) i;
      Ok (packed ++ map (λ j, wrap width (Z.land (w ≫ (j * steps_per_word)) integer_mask)) (seqZ 0 nof_steps))
    else
      w ← vec_at (buffer b) (nof_words - i - 1);
      let w := if i =? nof_words - 1 then wrap 64 (w ≪ (bits_per_word - size b mod bits_per_word)) else w in
      Ok (packed ++ map (λ j, wrap width (Z.land (w ≫ (bits_per_word - (j + 1) * width)) integer_mask))
                        (seqZ 0 nof_steps))) [] (seqZ 0 nof_words).

End bitset.

(** [slice<N2>] and [kronecker_product<Factor>] build bitsets of another capacity. *)
Definition slice (N2 : Z) (LowestInfoBitIsMSB : bool) (b : t) (startpos endpos : Z) : result t :=
  sliced ← create N2 (wrap 64 (endpos - startpos));
  let '(startpos, endpos) :=
    if LowestInfoBitIsMSB
    then (wrap 64 (get_bitidx_ true b endpos + 1), wrap 64 (get_bitidx_ true b startpos + 1))
    else (startpos, endpos) in
  let start_word := wrap 32 (startpos / bits_per_word) in
  let start_mod := startpos mod bits_per_word in
  sliced ← (if negb (start_mod =? 0) then
      let left_mask := mask_lsb_ones 64 (bits_per_word - start_mod) in
      let right_mask := mask_lsb_ones 64 start_mod in
      each_word sliced (seqZ 0 (nof_words_ sliced)) (λ i _,
        w ← vec_at (buffer b) (i + start_word);
        let x := Z.land (w ≫ start_mod) left_mask in
        if i + start_word + 1 <? nof_words_ b then
          w' ← vec_at (buffer b) (i + start_word + 1);
          Ok (Z.lor x (wrap 64 (Z.land w' right_mask ≪ (bits_per_word - start_mod))))
        else Ok x)
    else each_word sliced (seqZ 0 (nof_words_ sliced)) (λ i _, vec_at (buffer b) (i + start_word)));
  sanitize_ sliced.

Definition kronecker_expansion (Factor : Z) (other : t) (result_ : t) (bit_index : Z) : result t :=
  let bitpos := bit_index * Factor in
  word ← vec_at (buffer other) 0;
  let bit_offset := bitpos mod bits_per_word in
  let word_index := bitpos / bits_per_word in
  r ← set_word result_ word_index (λ w, Ok (Z.lor w (wrap 64 (word ≪ bit_offset))));
  if negb (bit_offset =? 0) && (bits_per_word <? bit_offset + size other) then
    set_word r (word_index + 1) (λ w, Ok (Z.lor w (word ≫ (bits_per_word - bit_offset))))
  else Ok r.

Definition kronecker_product (N Factor : Z) (b other : t) : result t :=
  r ← create (Factor * N) (size b * size other);
  contiguous ← is_contiguous false b true;
  if (contiguous : bool) then
    i_begin ← find_lowest false b true;
    i_last ← find_highest false b true;
    let i_end := i_last + 1 in
    if (i_begin <? 0) || (i_end <=? 0) then Ok r else
    other_all ← all other;
    r ← (if (other_all : bool) then fill false r (i_begin * size other) (i_end * size other) true
         else fold_result (kronecker_expansion Factor other) r (seqZ i_begin (i_end - i_begin)));
    c ← count b; c' ← count other; c'' ← count r;
    assume (c * c' =? c'') AssertFailed;;
    Ok r
  else
    r ← for_each false b 0 (size b) (kronecker_expansion Factor other) true r;
    c ← count b; c' ← count other; c'' ← count r;
    assume (c * c' =? c'') AssertFailed;;
    Ok r.

(** ** Words and bits *)

(** The word at index [j], and the bit at position [p] in memory order. *)
Definition word (l : list Z) (j : Z) : Z := nth (Z.to_nat j) l 0.
Definition bit (l : list Z) (p : Z) : bool := Z.testbit (word l (p / 64)) (p mod 64).

(** The invariant: the array has its fixed length, its words are 64-bit words, and no
    bit is set past the size. *)
Definition wf (N : Z) (b : t) : Prop :=
  zlen (buffer b) = max_nof_words_ N ∧ Forall u64 (buffer b) ∧ 0 <= cur_size b <= N ∧
  ∀ p, cur_size b <= p → bit (buffer b) p = false.

Lemma vec_at_word l j : 0 <= j < zlen l → vec_at l j = Ok (word l j).
Proof.
  intros Hj. unfold vec_at, word, zlen in *. rewrite (proj2 (Z.leb_le _ _)) by lia.
  destruct (lookup_lt_is_Some_2 l (Z.to_nat j)) as [x Hx]; [lia|].
  by rewrite Hx, (nth_lookup_Some _ _ _ _ Hx).
Qed.

Lemma vec_at_past {A} (l : list A) j : zlen l <= j → vec_at l j = Fault OutOfBounds.
Proof.
  intros Hj. unfold vec_at, zlen in *. destruct (Z.leb_spec 0 j); [|done].
  by rewrite lookup_ge_None_2 by lia.
Qed.

Lemma word_past l j : zlen l <= j → word l j = 0.
Proof. intros Hj. unfold word, zlen in *. apply nth_overflow. lia. Qed.

Lemma word_u64 l j : Forall u64 l → u64 (word l j).
Proof.
  intros Hl. unfold word. rewrite nth_lookup. destruct (l !! Z.to_nat j) eqn:E; [|done].
  by apply (Forall_lookup_1 _ _ _ _ Hl E).
Qed.

Lemma words_u64 l : (∀ j, 0 <= j < zlen l → u64 (word l j)) → Forall u64 l.
Proof.
  intros H. apply Forall_lookup. intros i x Hi. pose proof (lookup_lt_Some _ _ _ Hi).
  specialize (H (Z.of_nat i)). unfold word in H. rewrite Nat2Z.id in H.
  rewrite (nth_lookup_Some _ _ _ _ Hi) in H. apply H. unfold zlen. lia.
Qed.

Lemma word_insert l j x k : 0 <= j < zlen l → 0 <= k →
  word (<[Z.to_nat j := x]> l) k = if k =? j then x else word l k.
Proof. intros. unfold word. by apply bit_buffer.set_word. Qed.

(** Two words are equal when their 64 bits are. *)
Lemma word_eq x y : u64 x → u64 y → (∀ r, 0 <= r < 64 → Z.testbit x r = Z.testbit y r) → x = y.
Proof.
  intros Hx Hy H. apply Z.bits_inj'. intros r Hr. destruct (decide (r < 64)); [apply H; lia|].
  by rewrite (bit_buffer.fits_bit 64 x), (bit_buffer.fits_bit 64 y) by (done || lia).
Qed.

Lemma wnot_bit x r : 0 <= r → Z.testbit (wnot x) r = (r <? 64) && negb (Z.testbit x r).
Proof. intros. unfold wnot. by rewrite bit_buffer.wrap_bit, Z.lnot_spec by lia. Qed.

Lemma mask_lsb_zeros_bit n r : 0 <= n <= 64 → 0 <= r →
  Z.testbit (mask_lsb_zeros 64 n) r = (n <=? r) && (r <? 64).
Proof.
  intros. unfold mask_lsb_zeros.
  rewrite bit_buffer.wrap_bit, Z.lnot_spec, bit_buffer.mask_lsb_ones_bit by lia.
  rewrite <- Z.leb_antisym. apply andb_comm.
Qed.

Lemma maskbit_bit p r : 0 <= r → Z.testbit (maskbit p) r = (r =? p mod 64).
Proof.
  intros. unfold maskbit, bits_per_word. rewrite bit_buffer.wrap_bit, Z.shiftl_spec by lia.
  destruct (Z.eqb_spec r (p mod 64)) as [->|].
  - rewrite (proj2 (Z.ltb_lt _ _)) by lia. by rewrite Z.sub_diag.
  - destruct (decide (r < p mod 64)); [by rewrite Z.testbit_neg_r, andb_false_r by lia|].
    rewrite Z.bits_above_log2, andb_false_r; [done|lia|simpl; lia].
Qed.

Lemma u64_bits x : 0 <= x → (∀ r, 64 <= r → Z.testbit x r = false) → u64 x.
Proof.
  intros Hx H. unfold fits. destruct (decide (x = 0)) as [->|]; [done|]. split; [done|].
  apply Z.log2_lt_pow2; [lia|]. destruct (decide (Z.log2 x < 64)); [done|].
  specialize (H (Z.log2 x)). rewrite Z.bit_log2 in H by lia. lia.
Qed.

Lemma u64_land x y : u64 x → 0 <= y → u64 (Z.land x y).
Proof. intros Hx Hy. rewrite Z.land_comm. by apply fits_land. Qed.
Lemma u64_lor x y : u64 x → u64 y → u64 (Z.lor x y).
Proof. by apply fits_lor. Qed.
Lemma u64_wnot x : u64 (wnot x).
Proof. by apply wrap_fits. Qed.
Lemma u64_nonneg x : u64 x → 0 <= x.
Proof. by intros []. Qed.

(** ** Loops over words *)

Lemma set_word_spec b j f x : 0 <= j < zlen (buffer b) → f (word (buffer b) j) = Ok x →
  set_word b j f = Ok (mk (<[Z.to_nat j := x]> (buffer b)) (cur_size b)).
Proof.
  intros Hj Hf. unfold set_word. rewrite vec_at_word by done. cbn [mbind result_bind]. by rewrite Hf.
Qed.

(** What a loop over the indices from [a] on leaves in each word. *)
Lemma each_word_spec f g n : 0 <= n → ∀ b a, 0 <= a → a + n <= zlen (buffer b) →
  (∀ j, a <= j < a + n → f j (word (buffer b) j) = Ok (g j)) →
  ∃ l, each_word b (seqZ a n) f = Ok (mk l (cur_size b)) ∧ zlen l = zlen (buffer b) ∧
    ∀ j, 0 <= j → word l j = if (a <=? j) && (j <? a + n) then g j else word (buffer b) j.
Proof.
  intros Hn0. pattern n. apply natlike_ind; [|clear n Hn0; intros n Hn0 IH|done]; intros b a Ha Hn Hf.
  { exists (buffer b). split; [by destruct b|]. split; [done|]. intros j Hj.
    by replace ((a <=? j) && (j <? a + 0)) with false by lia. }
  rewrite seqZ_cons, Z.pred_succ by lia. unfold each_word. cbn [fold_result].
  rewrite (set_word_spec b a _ (g a)) by (lia || by apply Hf; lia). cbn [mbind result_bind].
  set (b' := mk _ _). assert (Hz : zlen (buffer b') = zlen (buffer b))
    by (unfold zlen; cbn [b' buffer]; by rewrite length_insert).
  destruct (IH b' (Z.succ a)) as (l & HE & HL & HW); [lia|rewrite Hz; lia| |].
  { intros j Hj. cbn [b' buffer]. rewrite word_insert by lia.
    rewrite (proj2 (Z.eqb_neq _ _)) by lia. apply Hf. lia. }
  exists l. split; [exact HE|]. split; [by rewrite HL, Hz|]. intros j Hj. rewrite HW by done.
  cbn [b' buffer]. rewrite word_insert by lia. unfold Z.succ. destruct (Z.eqb_spec j a) as [->|].
  - replace ((a <=? a) && (a <? a + (n + 1))) with true by lia. by destruct (_ && _).
  - by replace ((a + 1 <=? j) && (j <? a + 1 + n)) with ((a <=? j) && (j <? a + (n + 1))) by lia.
Qed.

Lemma exists_word_spec buf p q n : 0 <= n → ∀ a, 0 <= a → a + n <= zlen buf →
  (∀ j, a <= j < a + n → p j (word buf j) = Ok (q j)) →
  exists_word buf (seqZ a n) p = Ok (existsb q (seqZ a n)).
Proof.
  intros Hn0. pattern n. apply natlike_ind; [|clear n Hn0; intros n Hn0 IH|done]; intros a Ha Hn Hp; [done|].
  rewrite seqZ_cons, Z.pred_succ by lia. cbn [exists_word existsb].
  rewrite vec_at_word by lia. cbn [mbind result_bind]. rewrite Hp by lia. cbn [mbind result_bind].
  destruct (q a); [done|]. apply IH; [lia|lia|]. intros. apply Hp. lia.
Qed.

Lemma existsb_seqZ (q : Z → bool) a n :
  existsb q (seqZ a n) = true ↔ ∃ j, a <= j < a + n ∧ q j = true.
Proof.
  rewrite existsb_exists. split; intros (j & Hj & Hq); exists j; split; try done.
  - apply list_elem_of_In, elem_of_seqZ in Hj. lia.
  - apply list_elem_of_In, elem_of_seqZ. lia.
Qed.

(** ** What the operations do to the bits

    [has_bits N b n f]: [b] is well formed, of size [n], and its bits are those of [f]. *)
Definition has_bits (N : Z) (b : t) (n : Z) (f : Z → bool) : Prop :=
  wf N b ∧ size b = n ∧ ∀ p, 0 <= p < n → bit (buffer b) p = f p.

Lemma bit_at l j r : 0 <= j → 0 <= r < 64 → bit l (64 * j + r) = Z.testbit (word l j) r.
Proof.
  intros. unfold bit. replace ((64 * j + r) / 64) with j by lia. by replace ((64 * j + r) mod 64) with r by lia.
Qed.

Lemma has_bits_intro N l n f : zlen l = max_nof_words_ N → Forall u64 l → 0 <= n <= N →
  (∀ p, 0 <= p → bit l p = (p <? n) && f p) → has_bits N (mk l n) n f.
Proof.
  intros Hz Hu Hn Hb. split; [|split; [done|]].
  - do 3 (split; [done|]). intros p Hp. cbn [cur_size buffer] in *. rewrite Hb by lia.
    by replace (p <? n) with false by lia.
  - intros p Hp. cbn [buffer]. rewrite Hb by lia. by replace (p <? n) with true by lia.
Qed.

Lemma wf_bits N b : wf N b → has_bits N b (size b) (bit (buffer b)).
Proof. intros H. by split. Qed.

Lemma has_bits_ext N b n f g : has_bits N b n f → (∀ p, 0 <= p < n → f p = g p) → has_bits N b n g.
Proof. intros (Hw & Hs & Hb) H. split; [done|]. split; [done|]. intros p Hp. by rewrite Hb, H. Qed.

(** Bits of a well-formed set, also past its size. *)
Lemma wf_bit N b p : wf N b → 0 <= p → bit (buffer b) p = (p <? size b) && bit (buffer b) p.
Proof.
  intros (_ & _ & _ & H) Hp. unfold size. destruct (Z.ltb_spec p (cur_size b)); [done|]. by apply H.
Qed.

Lemma wf_words N b : wf N b → 0 <= nof_words_ b <= zlen (buffer b).
Proof. intros (Hz & _ & Hn & _). unfold nof_words_, max_nof_words_, size, bits_per_word in *. lia. Qed.

Lemma wf_word_zero N b j : wf N b → nof_words_ b <= j → word (buffer b) j = 0.
Proof.
  intros Hw Hj. pose proof (wf_words N b Hw). apply word_eq; [apply word_u64, Hw|done|].
  intros r Hr. rewrite <- (bit_at _ j r) by lia. rewrite Z.bits_0. apply Hw.
  unfold nof_words_, bits_per_word, size in *. lia.
Qed.

(** A loop over words, seen at the bits. *)
Lemma each_word_bits b a n f g : 0 <= n → 0 <= a → a + n <= zlen (buffer b) →
  (∀ j, a <= j < a + n → f j (word (buffer b) j) = Ok (g j)) →
  (∀ j, a <= j < a + n → u64 (g j)) → Forall u64 (buffer b) →
  ∃ l, each_word b (seqZ a n) f = Ok (mk l (cur_size b)) ∧ zlen l = zlen (buffer b) ∧ Forall u64 l ∧
    ∀ p, 0 <= p → bit l p =
      if (64 * a <=? p) && (p <? 64 * (a + n)) then Z.testbit (g (p / 64)) (p mod 64) else bit (buffer b) p.
Proof.
  intros Hn Ha Hz Hf Hg Hu. destruct (each_word_spec f g n Hn b a Ha Hz Hf) as (l & HE & HL & HW).
  exists l. split; [done|]. split; [done|]. split.
  - apply words_u64. intros j Hj. rewrite HW by lia.
    destruct (_ && _) eqn:E; [apply Hg; lia|by apply word_u64].
  - intros p Hp. unfold bit at 1. rewrite HW by lia.
    replace ((a <=? p / 64) && (p / 64 <? a + n)) with ((64 * a <=? p) && (p <? 64 * (a + n))) by lia.
    by destruct (_ && _).
Qed.

(** The bits of the last word past the size are cleared. *)
Lemma sanitize_bits l n : 0 <= n → (n + 63) / 64 <= zlen l → Forall u64 l →
  ∃ l', sanitize_ (mk l n) = Ok (mk l' n) ∧ zlen l' = zlen l ∧ Forall u64 l' ∧
    ∀ p, 0 <= p → bit l' p = if p <? 64 * ((n + 63) / 64) then (p <? n) && bit l p else bit l p.
Proof.
  intros Hn Hz Hu. unfold sanitize_, nof_words_, size, bits_per_word. cbn [cur_size].
  replace (n + 64 - 1) with (n + 63) by lia.
  destruct (negb (n mod 64 =? 0) && (0 <? (n + 63) / 64)) eqn:E.
  - set (nw := (n + 63) / 64) in *.
    set (x := Z.land (word l (nw - 1)) (wnot (wrap 64 (wnot 0 ≪ (n mod 64))))).
    rewrite (set_word_spec _ _ _ x) by (done || (cbn [buffer]; lia)). cbn [buffer cur_size].
    eexists. split; [done|]. split; [unfold zlen; by rewrite length_insert|]. split.
    + apply Forall_insert; [done|]. apply u64_land; [by apply word_u64|]. apply u64_nonneg, u64_wnot.
    + intros p Hp. unfold bit at 1. rewrite word_insert by lia.
      destruct (Z.eqb_spec (p / 64) (nw - 1)) as [Hj|Hj].
      * unfold x. rewrite Z.land_spec, wnot_bit by lia. rewrite bit_buffer.wrap_bit, Z.shiftl_spec by lia.
        replace (p mod 64 <? 64) with true by lia. replace (p <? 64 * nw) with true by lia. cbn [andb].
        unfold bit. rewrite Hj, andb_comm. f_equal.
        destruct (decide (p mod 64 < n mod 64)).
        -- rewrite Z.testbit_neg_r by lia. cbn [negb]. lia.
        -- rewrite wnot_bit, Z.bits_0 by lia. replace (p mod 64 - n mod 64 <? 64) with true by lia.
           cbn [andb negb]. lia.
      * destruct (Z.ltb_spec p (64 * nw)); [|done].
        by replace (p <? n) with true by lia.
  - exists l. split; [done|]. split; [done|]. split; [done|]. intros p Hp.
    destruct (Z.ltb_spec p (64 * ((n + 63) / 64))); [|done].
    assert (n mod 64 = 0 ∨ (n + 63) / 64 <= 0) as [|] by lia; [|lia].
    by replace (p <? n) with true by lia.
Qed.

(** Closes a goal about the bits of a word once its tests are decided. *)
Ltac bits_by_cases :=
  repeat match goal with
  | |- context [?a <? ?b] => destruct (Z.ltb_spec a b)
  | |- context [?a <=? ?b] => destruct (Z.leb_spec a b)
  | |- context [?a =? ?b] => destruct (Z.eqb_spec a b)
  end; cbn [andb orb negb]; rewrite ?andb_false_r, ?andb_true_r, ?orb_false_r, ?orb_true_r;
  try (done || lia).

Lemma land_maskbit w p : negb (Z.land w (maskbit p) =? 0) = Z.testbit w (p mod 64).
Proof.
  destruct (Z.testbit w (p mod 64)) eqn:E; apply eq_true_iff_eq; rewrite negb_true_iff, Z.eqb_neq.
  - split; [done|]. intros _ H. apply (f_equal (λ x, Z.testbit x (p mod 64))) in H.
    by rewrite Z.land_spec, maskbit_bit, Z.eqb_refl, E, Z.bits_0 in H by lia.
  - split; [|done]. intros H. exfalso. apply H. apply Z.bits_inj'. intros r Hr.
    rewrite Z.land_spec, maskbit_bit, Z.bits_0 by lia. destruct (Z.eqb_spec r (p mod 64)) as [->|]; [by rewrite E|].
    apply andb_false_r.
Qed.

Lemma nonzero_bits x : u64 x → x ≠ 0 ↔ ∃ r, 0 <= r < 64 ∧ Z.testbit x r = true.
Proof.
  intros Hx. split.
  - intros Hne. exists (Z.log2 x). pose proof (Z.log2_nonneg x). destruct Hx. split; [|apply Z.bit_log2; lia].
    split; [done|]. apply Z.log2_lt_pow2; lia.
  - intros (r & _ & Hr) ->. by rewrite Z.bits_0 in Hr.
Qed.

Lemma range_mask_u64 start stop sw ew j : stop <= 64 * ew → u64 (range_mask start stop sw ew j).
Proof.
  intros He. unfold range_mask, bits_per_word. assert (u64 (wnot 0)) by apply u64_wnot.
  assert (∀ k, 0 <= mask_lsb_zeros 64 k) by (intros; apply (wrap_fits 64 _); lia).
  assert (0 <= mask_msb_zeros 64 (ew * 64 - stop)).
  { unfold mask_msb_zeros. repeat case_Z; try lia. apply Z.shiftr_nonneg. lia. }
  destruct (j =? sw), (j =? ew - 1); auto using u64_land.
Qed.

Lemma range_mask_bit start stop i r : 0 <= start <= stop → 0 <= r < 64 →
  let end_word := stop / 64 + (if 0 <? stop mod 64 then 1 else 0) in
  start / 64 <= i < end_word →
  Z.testbit (range_mask start stop (start / 64) end_word i) r = (start <=? 64 * i + r) && (64 * i + r <? stop).
Proof.
  intros Hs Hr e Hi. unfold range_mask, bits_per_word.
  assert (He : stop <= 64 * e < stop + 64) by (unfold e; destruct (Z.ltb_spec 0 (stop mod 64)); lia).
  clearbody e.
  assert (Hn : Z.testbit (wnot 0) r = true) by (rewrite wnot_bit, Z.bits_0 by lia; lia).
  destruct (Z.eqb_spec i (start / 64)), (Z.eqb_spec i (e - 1));
    rewrite ?Z.land_spec, Hn, ?mask_lsb_zeros_bit, ?bit_buffer.mask_msb_zeros_bit by lia; cbn [andb];
    bits_by_cases.
Qed.

Lemma range_update_loop f start stop sw ew idxs : ∀ b,
  find_first_word_loop (λ i mask b, b ← set_word b i (f mask); Ok (false, b)) start stop sw ew idxs b =
  (b ← each_word b idxs (λ i, f (range_mask start stop sw ew i)); Ok (false, b)).
Proof.
  induction idxs as [|i idxs IH]; intros b; [done|]. unfold each_word.
  cbn [find_first_word_loop fold_result]. destruct (set_word _ _ _); [|done]. cbn [mbind result_bind].
  by rewrite IH.
Qed.

Lemma range_query_loop (q : Z → Z → bool) buf start stop sw ew idxs :
  find_first_word_loop (λ i mask (_ : unit), w ← vec_at buf i; Ok (q w mask, tt)) start stop sw ew idxs tt =
  (v ← exists_word buf idxs (λ i w, Ok (q w (range_mask start stop sw ew i))); Ok (v, tt)).
Proof.
  induction idxs as [|i idxs IH]; [done|]. cbn [find_first_word_loop exists_word].
  destruct (vec_at buf i); [|done]. cbn [mbind result_bind]. by destruct (q _ _).
Qed.

Lemma full_word l j : Forall u64 l → 0 <= j →
  word l j = wnot 0 ↔ ∀ k, 0 <= k < 64 → bit l (64 * j + k) = true.
Proof.
  intros Hu Hj. split.
  - intros HE k Hk. rewrite bit_at, HE, wnot_bit, Z.bits_0 by lia. lia.
  - intros HB. apply word_eq; [by apply word_u64|apply u64_wnot|]. intros k Hk.
    rewrite <- (bit_at _ j k), HB, wnot_bit, Z.bits_0 by lia. lia.
Qed.

(** The word that holds the last [64 - d] bits of a set. *)
Lemma full_last_word l j d : Forall u64 l → 0 <= j → 0 <= d < 64 →
  (∀ p, 64 * (j + 1) - d <= p → bit l p = false) →
  word l j = wnot 0 ≫ d ↔ ∀ k, 0 <= k < 64 - d → bit l (64 * j + k) = true.
Proof.
  intros Hu Hj Hd Hz.
  assert (HR : ∀ k, 0 <= k < 64 → Z.testbit (wnot 0 ≫ d) k = (k <? 64 - d)).
  { intros k Hk. rewrite Z.shiftr_spec, wnot_bit, Z.bits_0 by lia. lia. }
  split.
  - intros HE k Hk. rewrite bit_at, HE, HR by lia. lia.
  - intros HB. apply word_eq; [by apply word_u64| |].
    { apply (fits_mono (64 - d)); [lia|]. apply fits_shiftr; [lia|lia|].
      replace (64 - d + d) with 64 by lia. apply u64_wnot. }
    intros k Hk. rewrite HR, <- bit_at by lia. destruct (Z.ltb_spec k (64 - d)); [apply HB|apply Hz]; lia.
Qed.

(** The number of positions below [n] at which [f] holds. *)
Fixpoint ones (f : Z → bool) (n : nat) : Z :=
  match n with O => 0 | S n => ones f n + Z.b2z (f (Z.of_nat n)) end.

Lemma ones_ext f g n : (∀ p, 0 <= p < Z.of_nat n → f p = g p) → ones f n = ones g n.
Proof. induction n as [|n IH]; intros H; [done|]. cbn [ones]. rewrite IH, H by (intros; try apply H; lia). done. Qed.

Lemma ones_add f n m : ones f (n + m) = ones f n + ones (λ p, f (Z.of_nat n + p)) m.
Proof.
  induction m as [|m IH]; [rewrite Nat.add_0_r; cbn [ones]; lia|].
  rewrite Nat.add_succ_r. cbn [ones]. rewrite IH, Nat2Z.inj_add. lia.
Qed.

Lemma ones_bound f n : 0 <= ones f n <= Z.of_nat n.
Proof. induction n as [|n IH]; [done|]. cbn [ones]. destruct (f _); cbn [Z.b2z]; lia. Qed.

Lemma ones_false f n : (∀ p, 0 <= p < Z.of_nat n → f p = false) → ones f n = 0.
Proof. intros H. rewrite (ones_ext f (λ _, false)) by done. clear H. induction n as [|n IH]; [done|]. simpl. lia. Qed.

Lemma popcount_ones p : ∀ n, Z.pos p < 2 ^ Z.of_nat n → popcount_pos p = ones (Z.testbit (Z.pos p)) n.
Proof.
  induction p as [p IH|p IH|]; intros [|n] Hn; try (simpl in Hn; lia);
    rewrite Nat2Z.inj_succ, Z.pow_succ_r in Hn by lia; change (S n) with (1 + n)%nat; rewrite ones_add; cbn [popcount_pos].
  - rewrite (IH n) by lia. rewrite (ones_ext (λ q, Z.testbit (Z.pos p~1) (Z.of_nat 1 + q)) (Z.testbit (Z.pos p))); [done|].
    intros q Hq. rewrite Pos2Z.inj_xI. replace (Z.of_nat 1 + q) with (Z.succ q) by lia.
    by rewrite Z.testbit_odd_succ by lia.
  - rewrite (IH n) by lia. rewrite (ones_ext (λ q, Z.testbit (Z.pos p~0) (Z.of_nat 1 + q)) (Z.testbit (Z.pos p))); [done|].
    intros q Hq. rewrite Pos2Z.inj_xO. replace (Z.of_nat 1 + q) with (Z.succ q) by lia.
    by rewrite Z.testbit_even_succ by lia.
  - rewrite (ones_false (λ q, Z.testbit 1 (Z.of_nat 1 + q))); [done|]. intros q Hq.
    apply Z.bits_above_log2; [lia|simpl; lia].
Qed.

Lemma count_ones_word w : u64 w → count_ones w = ones (Z.testbit w) 64.
Proof.
  intros [Hw Hw']. unfold count_ones, popcountl. destruct w as [|p|p]; [|by apply popcount_ones|lia].
  symmetry. apply ones_false. intros. apply Z.bits_0.
Qed.

Lemma ctz_spec p : Z.testbit (Z.pos p) (ctz_pos p) = true ∧ 0 <= ctz_pos p <= Z.log2 (Z.pos p) ∧
  ∀ k, 0 <= k < ctz_pos p → Z.testbit (Z.pos p) k = false.
Proof.
  induction p as [p (HB & HL & HZ)|p (HB & HL & HZ)|]; cbn [ctz_pos]; [|rewrite Pos2Z.inj_xO|].
  1,3: split; [done|]; split; [split; [done|apply Z.log2_nonneg]|lia].
  rewrite Z.log2_double by lia. replace (1 + ctz_pos p) with (Z.succ (ctz_pos p)) by lia.
  rewrite Z.testbit_even_succ by lia. split; [done|]. split; [lia|]. intros k Hk.
  destruct (decide (k = 0)) as [->|]; [by rewrite Z.testbit_even_0|].
  replace k with (Z.succ (k - 1)) by lia. rewrite Z.testbit_even_succ by lia. apply HZ. lia.
Qed.

Lemma lsb_spec w : u64 w → w ≠ 0 →
  Z.testbit w (find_first_lsb_one w) = true ∧ 0 <= find_first_lsb_one w < 64 ∧
  ∀ k, 0 <= k < find_first_lsb_one w → Z.testbit w k = false.
Proof.
  intros [Hw Hw'] Hne. unfold find_first_lsb_one, zero_lsb_count. rewrite (proj2 (Z.eqb_neq w 0)) by done.
  destruct w as [|p|p]; [done| |lia]. cbn [ctzl]. destruct (ctz_spec p) as (HB & HL & HZ).
  split; [done|]. split; [|done]. assert (Z.log2 (Z.pos p) < 64) by (apply Z.log2_lt_pow2; lia). lia.
Qed.

Lemma msb_spec w : u64 w → w ≠ 0 →
  Z.testbit w (find_first_msb_one w) = true ∧ 0 <= find_first_msb_one w < 64 ∧
  ∀ k, find_first_msb_one w < k → Z.testbit w k = false.
Proof.
  intros [Hw Hw'] Hne. unfold find_first_msb_one, zero_msb_count, clzl.
  rewrite (proj2 (Z.eqb_neq w 0)) by done. replace (64 - 1 - (63 - Z.log2 w)) with (Z.log2 w) by lia.
  assert (Z.log2 w < 64) by (apply Z.log2_lt_pow2; lia). pose proof (Z.log2_nonneg w).
  split; [apply Z.bit_log2; lia|]. split; [lia|]. intros. apply Z.bits_above_log2; lia.
Qed.

(** The word a search looks at: the positions of the range that hold [value]. *)
Lemma search_word l i s e (value : bool) : Forall u64 l → 0 <= s <= e → 0 < e → s / 64 <= i <= (e - 1) / 64 →
  let w0 := if value then word l i else wnot (word l i) in
  let w1 := if i =? s / 64 then Z.land w0 (mask_lsb_zeros 64 (s mod 64)) else w0 in
  let w2 := if i =? (e - 1) / 64 then Z.land w1 (mask_lsb_ones 64 ((e - 1) mod 64 + 1)) else w1 in
  u64 w2 ∧ ∀ k, 0 <= k < 64 →
    Z.testbit w2 k = Bool.eqb (bit l (64 * i + k)) value && ((s <=? 64 * i + k) && (64 * i + k <? e)).
Proof.
  intros Hu Hs He Hi w0 w1 w2.
  assert (H0 : u64 w0) by (unfold w0; destruct value; [by apply word_u64|apply u64_wnot]).
  assert (Hm : ∀ k, 0 <= mask_lsb_zeros 64 k) by (intros; apply (wrap_fits 64 _); lia).
  assert (H1 : u64 w1) by (unfold w1; destruct (_ =? _); [by apply u64_land|done]).
  split.
  { unfold w2. destruct (i =? (e - 1) / 64); [|exact H1]. apply u64_land; [exact H1|].
    rewrite (bit_buffer.mask_lsb_ones_value 64) by lia. pose proof (Z.pow_pos_nonneg 2 ((e - 1) mod 64 + 1)). lia. }
  intros k Hk. assert (HB : Z.testbit w0 k = Bool.eqb (bit l (64 * i + k)) value).
  { rewrite bit_at by lia. unfold w0. destruct value; [by destruct (Z.testbit _ _)|].
    rewrite wnot_bit by lia. replace (k <? 64) with true by lia. by destruct (Z.testbit _ _). }
  unfold w2, w1. rewrite <- HB.
  destruct (Z.eqb_spec i (s / 64)), (Z.eqb_spec i ((e - 1) / 64));
    rewrite ?Z.land_spec, ?mask_lsb_zeros_bit, ?bit_buffer.mask_lsb_ones_bit by lia;
    destruct (Z.testbit w0 k); cbn [andb]; bits_by_cases.
Qed.

(** The lowest position of the range that holds [value], and the highest. *)
Definition lowest (l : list Z) (s e : Z) (value : bool) (r : Z) : Prop :=
  (r = -1 ∧ ∀ p, s <= p < e → bit l p ≠ value) ∨
  (s <= r < e ∧ bit l r = value ∧ ∀ p, s <= p < r → bit l p ≠ value).
Definition highest (l : list Z) (s e : Z) (value : bool) (r : Z) : Prop :=
  (r = -1 ∧ ∀ p, s <= p < e → bit l p ≠ value) ∨
  (s <= r < e ∧ bit l r = value ∧ ∀ p, r < p < e → bit l p ≠ value).

Definition within (r : Z * Z) (p : Z) : bool := (r.1 <=? p) && (p <? r.2).

Section effects.
Context (N : Z) (LowestInfoBitIsMSB : bool) (HN : 0 <= N < 2 ^ 31).

Lemma create_bits n : 0 <= n <= N → ∃ b, create N n = Ok b ∧ has_bits N b n (λ _, false).
Proof.
  intros Hn. unfold create. pass_assume. eexists. split; [done|]. apply has_bits_intro; [| |done|].
  - unfold zlen. rewrite length_replicate. unfold max_nof_words_, bits_per_word. lia.
  - by apply Forall_replicate.
  - intros p Hp. rewrite andb_false_r. unfold bit, word. rewrite nth_lookup.
    destruct (replicate _ 0 !! _) as [x|] eqn:E; [apply lookup_replicate_1 in E as [-> _]|]; apply Z.bits_0.
Qed.

Lemma resize_bits b n : wf N b → 0 <= n <= N →
  ∃ b', resize N b n = Ok b' ∧ has_bits N b' n (λ p, (p <? size b) && bit (buffer b) p).
Proof.
  intros Hw Hn. pose proof Hw as (Hz & Hu & Hs & _). unfold resize, max_size. pass_assume.
  unfold max_nof_words_, bits_per_word in Hz. destruct (Z.eqb_spec n (cur_size b)) as [->|Hne].
  { exists b. split; [done|]. eapply has_bits_ext; [by apply wf_bits|]. intros p Hp. unfold size in *.
    by replace (p <? cur_size b) with true by lia. }
  destruct (sanitize_bits (buffer b) n) as (l & HS & HL & HU & HB); [lia|lia|done|].
  rewrite HS. cbn [mbind result_bind]. unfold nof_words_, size, bits_per_word. cbn [cur_size].
  set (a := Z.min _ _). set (e := Z.max _ _).
  destruct (each_word_bits (mk l n) a (e - a) (λ _ _, Ok 0) (λ _, 0)) as (l' & HE & HL' & HU' & HB');
    try done; cbn [buffer]; try lia. cbn [cur_size buffer] in *.
  rewrite HE. eexists. split; [done|]. apply has_bits_intro; [unfold max_nof_words_, bits_per_word; lia|done|done|].
  intros p Hp. rewrite HB' by done. rewrite Z.bits_0, HB by done.
  rewrite (wf_bit N b p Hw Hp). unfold size. bits_by_cases.
Qed.

Lemma reset_all_bits b : wf N b → ∃ b', reset_all b = Ok b' ∧ has_bits N b' (size b) (λ _, false).
Proof.
  intros Hw. pose proof (wf_words N b Hw). pose proof Hw as (Hz & Hu & Hs & _).
  destruct (each_word_bits b 0 (nof_words_ b) (λ _ _, Ok 0) (λ _, 0)) as (l & HE & HL & HU & HB);
    try done; try lia.
  unfold reset_all. rewrite HE. eexists. split; [done|]. apply has_bits_intro; [by rewrite HL|done|done|].
  intros p Hp. rewrite HB, Z.bits_0 by done. rewrite (wf_bit N b p Hw Hp).
  unfold nof_words_, bits_per_word, size in *. bits_by_cases.
Qed.

(** The loops that rewrite every word in use and then clear the rest of the last one. *)
Lemma whole_words_bits b f g : wf N b →
  (∀ j, 0 <= j < nof_words_ b → f j (word (buffer b) j) = Ok (g j)) →
  (∀ j, 0 <= j < nof_words_ b → u64 (g j)) →
  ∃ l, each_word b (seqZ 0 (nof_words_ b)) f = Ok (mk l (size b)) ∧ zlen l = max_nof_words_ N ∧ Forall u64 l ∧
    (∀ p, 0 <= p → bit l p = (p <? 64 * nof_words_ b) && Z.testbit (g (p / 64)) (p mod 64)) ∧
    ∃ b', sanitize_ (mk l (size b)) = Ok b' ∧
      has_bits N b' (size b) (λ p, Z.testbit (g (p / 64)) (p mod 64)).
Proof.
  intros Hw Hf Hg. pose proof (wf_words N b Hw). pose proof Hw as (Hz & Hu & Hs & _).
  destruct (each_word_bits b 0 (nof_words_ b) f g) as (l & HE & HL & HU & HB); try done; try lia.
  assert (HB' : ∀ p, 0 <= p → bit l p = (p <? 64 * nof_words_ b) && Z.testbit (g (p / 64)) (p mod 64)).
  { intros p Hp. rewrite HB, (wf_bit N b p Hw Hp) by done. unfold nof_words_, bits_per_word, size. bits_by_cases. }
  exists l. split; [done|]. split; [by rewrite HL|]. split; [done|]. split; [done|].
  unfold nof_words_, bits_per_word in *.
  destruct (sanitize_bits l (size b)) as (l' & HS & HL' & HU' & HS'); [by destruct Hs|lia|done|].
  rewrite HS. eexists. split; [done|]. apply has_bits_intro; [by rewrite HL', HL|done|done|].
  intros p Hp. rewrite HS', HB' by done. replace (size b + 64 - 1) with (size b + 63) by lia. bits_by_cases.
Qed.

Lemma fill_all_bits b v : wf N b → ∃ b', fill_all b v = Ok b' ∧ has_bits N b' (size b) (λ _, v).
Proof.
  intros Hw. unfold fill_all. destruct v; cbn [negb]; [|by apply reset_all_bits].
  destruct (whole_words_bits b (λ _ _, Ok (2 ^ 64 - 1)) (λ _, 2 ^ 64 - 1) Hw) as (l & -> & _ & _ & _ & b' & HS & HB);
    [done|done|]. cbn [mbind result_bind]. exists b'. split; [done|].
  eapply has_bits_ext; [done|]. intros p Hp. cbn beta. replace (2 ^ 64 - 1) with (Z.ones 64) by done.
  rewrite Z.testbit_ones_nonneg by lia. lia.
Qed.

Lemma flip_bits b : wf N b → ∃ b', flip b = Ok b' ∧ has_bits N b' (size b) (λ p, negb (bit (buffer b) p)).
Proof.
  intros Hw. unfold flip.
  destruct (whole_words_bits b (λ _ w, Ok (wnot w)) (λ j, wnot (word (buffer b) j)) Hw)
    as (l & -> & _ & _ & _ & b' & HS & HB); [done|intros; apply u64_wnot|].
  cbn [mbind result_bind]. exists b'. split; [done|].
  eapply has_bits_ext; [done|]. intros p Hp. cbn beta. rewrite wnot_bit by lia.
  by replace (p mod 64 <? 64) with true by lia.
Qed.

(** Word-wise combination with a set of the same size. *)
Lemma combine_bits b c f h : wf N b → wf N c → size c = size b →
  (∀ x y, u64 x → u64 y → u64 (f x y)) →
  (∀ x y r, 0 <= r < 64 → Z.testbit (f x y) r = h (Z.testbit x r) (Z.testbit y r)) → h false false = false →
  ∃ b', each_word b (seqZ 0 (nof_words_ b)) (λ i w, o ← vec_at (buffer c) i; Ok (f w o)) = Ok b' ∧
    has_bits N b' (size b) (λ p, h (bit (buffer b) p) (bit (buffer c) p)).
Proof.
  intros Hb Hc Hs Hf Hh H0. pose proof (wf_words N c Hc). pose proof Hb as (_ & Hu & Hn & _).
  pose proof Hc as (_ & Hu' & _). assert (Hnw : nof_words_ c = nof_words_ b) by (unfold nof_words_; by rewrite Hs).
  destruct (whole_words_bits b (λ i w, o ← vec_at (buffer c) i; Ok (f w o))
    (λ j, f (word (buffer b) j) (word (buffer c) j)) Hb) as (l & HE & HL & HU & HB & _).
  { intros j Hj. by rewrite vec_at_word by lia. }
  { intros. apply Hf; by apply word_u64. }
  rewrite HE. eexists. split; [done|]. apply has_bits_intro; [done|done|done|].
  intros p Hp. rewrite HB, Hh by lia.
  change (Z.testbit (word ?l (p / 64)) (p mod 64)) with (bit l p).
  rewrite (wf_bit N b p Hb Hp), (wf_bit N c p Hc Hp), Hs.
  unfold nof_words_, bits_per_word, size. bits_by_cases.
Qed.

Lemma or_bits b c : wf N b → wf N c → size c = size b →
  ∃ b', or_assign b c = Ok b' ∧ has_bits N b' (size b) (λ p, bit (buffer b) p || bit (buffer c) p).
Proof.
  intros Hb Hc Hs. unfold or_assign. pass_assume.
  apply (combine_bits b c Z.lor orb); try done; [by apply u64_lor|]. intros. apply Z.lor_spec.
Qed.

Lemma and_bits b c : wf N b → wf N c → size c = size b →
  ∃ b', and_assign b c = Ok b' ∧ has_bits N b' (size b) (λ p, bit (buffer b) p && bit (buffer c) p).
Proof.
  intros Hb Hc Hs. unfold and_assign. pass_assume.
  apply (combine_bits b c Z.land andb); try done; [intros; apply u64_land; (done || by apply u64_nonneg)|].
  intros. apply Z.land_spec.
Qed.

(** ** Single bits *)

(** The position in memory of bit [i] of a set of size [n]. *)
Definition phys (n i : Z) : Z := if LowestInfoBitIsMSB then n - 1 - i else i.

Lemma bitidx b i : wf N b → 0 <= i < size b →
  get_bitidx_ LowestInfoBitIsMSB b i = phys (size b) i ∧ 0 <= phys (size b) i < size b.
Proof.
  intros (_ & _ & Hn & _) Hi. unfold get_bitidx_, phys, size in *. destruct LowestInfoBitIsMSB; [|lia].
  rewrite wrap_small by lia_fits. lia.
Qed.

Lemma test_bits b i : wf N b → 0 <= i →
  test LowestInfoBitIsMSB b i =
    if i <? size b then Ok (bit (buffer b) (phys (size b) i)) else Fault AssertFailed.
Proof.
  intros Hw Hi. unfold test, assert_within_bounds_. cbn [negb andb]. rewrite orb_false_r.
  destruct (Z.ltb_spec i (size b)); [|done]. cbn [assume mbind result_bind].
  destruct (bitidx b i Hw) as [HI Hp]; [lia|]. pose proof (wf_words N b Hw).
  unfold test_. rewrite HI. unfold get_word_, bits_per_word.
  rewrite vec_at_word by (unfold nof_words_, bits_per_word in *; lia). cbn [mbind result_bind].
  by rewrite land_maskbit.
Qed.

Lemma set_bits b i v : wf N b → 0 <= i < size b →
  ∃ b', set LowestInfoBitIsMSB b i v = Ok b' ∧
    has_bits N b' (size b) (λ p, if p =? phys (size b) i then v else bit (buffer b) p).
Proof.
  intros Hw Hi. pose proof (wf_words N b Hw). destruct (bitidx b i Hw Hi) as [HI Hp].
  pose proof Hw as (Hz & Hu & Hn & _).
  unfold set, assert_within_bounds_. pass_assume. unfold set_, reset_. rewrite HI. unfold bits_per_word.
  set (q := phys (size b) i) in *.
  set (x := if v then Z.lor (word (buffer b) (q / 64)) (maskbit q)
            else Z.land (word (buffer b) (q / 64)) (wnot (maskbit q))).
  assert (Hx : (if v then set_word b (q / 64) (λ w, Ok (Z.lor w (maskbit q)))
                else set_word b (q / 64) (λ w, Ok (Z.land w (wnot (maskbit q))))) =
               Ok (mk (<[Z.to_nat (q / 64) := x]> (buffer b)) (size b))).
  { unfold nof_words_, bits_per_word in *. destruct v; apply set_word_spec; (done || lia). }
  rewrite Hx. eexists. split; [done|]. apply has_bits_intro; [| |done|].
  - unfold zlen. by rewrite length_insert.
  - apply Forall_insert; [done|]. pose proof (word_u64 (buffer b) (q / 64) Hu). unfold x. destruct v.
    + apply u64_lor; [done|]. by apply wrap_fits.
    + apply u64_land; [done|]. apply u64_nonneg, u64_wnot.
  - intros p Hp0. unfold bit at 1. unfold nof_words_, bits_per_word in *.
    rewrite word_insert by lia. destruct (Z.eqb_spec (p / 64) (q / 64)) as [Hj|Hj].
    + assert (Hxr : Z.testbit x (p mod 64) = if p =? q then v else bit (buffer b) p).
      { unfold x, bit. rewrite Hj. destruct v.
        - rewrite Z.lor_spec, maskbit_bit by lia. replace (p mod 64 =? q mod 64) with (p =? q) by lia.
          destruct (p =? q); [apply orb_true_r|apply orb_false_r].
        - rewrite Z.land_spec, wnot_bit, maskbit_bit by lia.
          replace (p mod 64 <? 64) with true by lia. replace (p mod 64 =? q mod 64) with (p =? q) by lia.
          cbn [andb]. destruct (p =? q); [apply andb_false_r|apply andb_true_r]. }
      rewrite Hxr. destruct (Z.eqb_spec p q) as [->|].
      * by replace (q <? size b) with true by lia.
      * by apply (wf_bit N b p Hw).
    + change (Z.testbit (word (buffer b) (p / 64)) (p mod 64)) with (bit (buffer b) p).
      replace (p =? q) with false by lia. by apply (wf_bit N b p Hw).
Qed.

(** ** Ranges *)

(** The positions in memory of the bits from [s] up to [e]. *)
Definition phys_range (n s e : Z) : Z * Z := if LowestInfoBitIsMSB then (n - e, n - s) else (s, e).

Lemma phys_within n s e i : 0 <= i < n → within (phys_range n s e) (phys n i) = (s <=? i) && (i <? e).
Proof.
  intros Hi. unfold within, phys_range, phys. destruct LowestInfoBitIsMSB; cbn [fst snd]; lia.
Qed.

Lemma find_first_word_range {S} b s e (c : Z → Z → S → result (bool * S)) st : wf N b → 0 <= s <= e → e <= size b →
  let r := phys_range (size b) s e in
  let end_word := r.2 / 64 + (if 0 <? r.2 mod 64 then 1 else 0) in
  (0 <= r.1 <= r.2 ∧ r.2 <= size b ∧ r.1 / 64 <= end_word <= zlen (buffer b)) ∧
  find_first_word_ LowestInfoBitIsMSB b s e c st =
    find_first_word_loop c r.1 r.2 (r.1 / 64) end_word (seqZ (r.1 / 64) (end_word - r.1 / 64)) st.
Proof.
  intros Hw Hs He. pose proof Hw as (Hz & _ & Hn & _). unfold max_nof_words_, bits_per_word in Hz.
  unfold find_first_word_, assert_range_bounds_. pass_assume. unfold get_bitidx_, phys_range, size in *.
  destruct LowestInfoBitIsMSB.
  - assert (HW : ∀ x, 0 <= x <= cur_size b → wrap 64 (wrap 64 (cur_size b - 1 - x) + 1) = cur_size b - x).
    { intros x Hx. unfold wrap. rewrite Zplus_mod_idemp_l. rewrite Z.mod_small by lia_fits. lia. }
    rewrite !HW by lia. unfold word_idx_, bits_per_word. cbn [fst snd]. split; [|done].
    destruct (Z.ltb_spec 0 ((cur_size b - s) mod 64)); lia.
  - unfold word_idx_, bits_per_word. cbn [fst snd]. split; [|done].
    destruct (Z.ltb_spec 0 (e mod 64)); lia.
Qed.

Lemma fill_bits b s e v : wf N b → 0 <= s <= e → e <= size b →
  ∃ b', fill LowestInfoBitIsMSB b s e v = Ok b' ∧
    has_bits N b' (size b) (λ p, if within (phys_range (size b) s e) p then v else bit (buffer b) p).
Proof.
  intros Hw Hs He. unfold fill.
  destruct (find_first_word_range b s e (λ word_idx mask b,
    b ← set_word b word_idx (λ w, Ok (if v then Z.lor w mask else Z.land w (wnot mask))); Ok (false, b)) b Hw Hs He)
    as [Hr HE]. cbn zeta in *. rewrite HE. clear HE.
  set (r := phys_range (size b) s e) in *. set (ew := r.2 / 64 + _) in *. pose proof Hw as (Hz & Hu & Hn & _).
  rewrite (range_update_loop (λ mask w, Ok (if v then Z.lor w mask else Z.land w (wnot mask)))).
  set (m := range_mask r.1 r.2 (r.1 / 64) ew).
  assert (Hm : ∀ j, u64 (m j)) by (intros; apply range_mask_u64; unfold ew; destruct (0 <? r.2 mod 64) eqn:?; lia).
  destruct (each_word_bits b (r.1 / 64) (ew - r.1 / 64)
    (λ i w, Ok (if v then Z.lor w (m i) else Z.land w (wnot (m i))))
    (λ j, if v then Z.lor (word (buffer b) j) (m j) else Z.land (word (buffer b) j) (wnot (m j))))
    as (l & HE & HL & HU & HB); try done; try lia.
  { intros j Hj. pose proof (word_u64 (buffer b) j Hu). destruct v; [by apply u64_lor|].
    apply u64_land; [done|]. apply u64_nonneg, u64_wnot. }
  rewrite HE. cbn [mbind result_bind]. eexists. split; [done|].
  apply has_bits_intro; [by rewrite HL|done|done|]. intros p Hp. rewrite HB by done.
  assert (Hin : (64 * (r.1 / 64) <=? p) && (p <? 64 * (r.1 / 64 + (ew - r.1 / 64))) = true →
    Z.testbit (m (p / 64)) (p mod 64) = within r p).
  { intros Hb. unfold m, within. rewrite range_mask_bit by (fold ew; lia). f_equal; lia. }
  destruct (_ && _) eqn:E.
  - specialize (Hin eq_refl). destruct v.
    + rewrite Z.lor_spec, Hin. change (Z.testbit _ _) with (bit (buffer b) p).
      rewrite (wf_bit N b p Hw Hp). unfold within in *.
      destruct (Z.ltb_spec p (size b)), ((r.1 <=? p) && (p <? r.2)) eqn:E2; cbn [andb orb];
        rewrite ?orb_true_r, ?orb_false_r; (done || lia).
    + rewrite Z.land_spec, wnot_bit, Hin by lia. replace (p mod 64 <? 64) with true by lia. cbn [andb].
      change (Z.testbit _ _) with (bit (buffer b) p). rewrite (wf_bit N b p Hw Hp).
      destruct (within r p), (p <? size b); cbn [negb]; rewrite ?andb_false_r, ?andb_true_r; done.
  - rewrite (wf_bit N b p Hw Hp) at 1. unfold within.
    replace ((r.1 <=? p) && (p <? r.2)) with false; [done|]. symmetry. unfold ew in E.
    destruct (0 <? r.2 mod 64) eqn:?; lia.
Qed.

Lemma any_range_bits b s e : wf N b → 0 <= s <= e → e <= size b →
  ∃ v, any_range LowestInfoBitIsMSB b s e = Ok v ∧
    (v = true ↔ ∃ p, within (phys_range (size b) s e) p = true ∧ bit (buffer b) p = true).
Proof.
  intros Hw Hs He. unfold any_range.
  destruct (find_first_word_range b s e (λ word_idx mask _,
    w ← vec_at (buffer b) word_idx; Ok (negb (Z.land w mask =? 0), tt)) tt Hw Hs He) as [Hr HE].
  cbn zeta in *. rewrite HE. clear HE. pose proof Hw as (_ & Hu & _).
  set (r := phys_range (size b) s e) in *. set (ew := r.2 / 64 + _) in *.
  rewrite (range_query_loop (λ w mask, negb (Z.land w mask =? 0))).
  set (m := range_mask r.1 r.2 (r.1 / 64) ew).
  rewrite (exists_word_spec _ _ (λ j, negb (Z.land (word (buffer b) j) (m j) =? 0))) by (done || lia).
  cbn [mbind result_bind]. eexists. split; [done|]. rewrite existsb_seqZ.
  assert (Hm : ∀ j k, r.1 / 64 <= j < ew → 0 <= k < 64 → Z.testbit (m j) k = within r (64 * j + k)).
  { intros j k Hj Hk. unfold m, within. by rewrite range_mask_bit by (fold ew; lia). }
  assert (Hland : ∀ j, u64 (Z.land (word (buffer b) j) (m j))).
  { intros j. apply u64_land; [by apply word_u64|]. apply u64_nonneg, range_mask_u64. unfold ew.
    destruct (0 <? r.2 mod 64) eqn:?; lia. }
  split.
  - intros (j & Hj & Hne). apply negb_true_iff, Z.eqb_neq, nonzero_bits in Hne as (k & Hk & HB); [|done].
    rewrite Z.land_spec, andb_true_iff, Hm in HB by lia. exists (64 * j + k). rewrite bit_at by lia. naive_solver.
  - intros (p & Hp & HB). assert (r.1 <= p < r.2) by (unfold within in Hp; lia).
    exists (p / 64). assert (r.1 / 64 <= p / 64 < ew) by (unfold ew; destruct (0 <? r.2 mod 64) eqn:?; lia).
    split; [lia|]. apply negb_true_iff, Z.eqb_neq, nonzero_bits; [done|]. exists (p mod 64). split; [lia|].
    rewrite Z.land_spec, Hm by lia. replace (64 * (p / 64) + p mod 64) with p by lia. rewrite Hp.
    unfold bit in HB. by rewrite HB.
Qed.

Lemma all_range_bits b s e : wf N b → 0 <= s <= e → e <= size b →
  ∃ v, all_range LowestInfoBitIsMSB b s e = Ok v ∧
    (v = true ↔ ∀ p, within (phys_range (size b) s e) p = true → bit (buffer b) p = true).
Proof.
  intros Hw Hs He. unfold all_range.
  destruct (find_first_word_range b s e (λ word_idx mask _,
    w ← vec_at (buffer b) word_idx; Ok (negb (Z.lor w (wnot mask) =? wnot 0), tt)) tt Hw Hs He) as [Hr HE].
  cbn zeta in *. rewrite HE. clear HE. pose proof Hw as (_ & Hu & _).
  set (r := phys_range (size b) s e) in *. set (ew := r.2 / 64 + _) in *.
  rewrite (range_query_loop (λ w mask, negb (Z.lor w (wnot mask) =? wnot 0))).
  set (m := range_mask r.1 r.2 (r.1 / 64) ew).
  rewrite (exists_word_spec _ _ (λ j, negb (Z.lor (word (buffer b) j) (wnot (m j)) =? wnot 0))) by (done || lia).
  cbn [mbind result_bind]. eexists. split; [done|].
  rewrite negb_true_iff, <- not_true_iff_false, existsb_seqZ.
  assert (Hm : ∀ j k, r.1 / 64 <= j < ew → 0 <= k < 64 → Z.testbit (m j) k = within r (64 * j + k)).
  { intros j k Hj Hk. unfold m, within. by rewrite range_mask_bit by (fold ew; lia). }
  split.
  - intros H p Hp. assert (r.1 <= p < r.2) by (unfold within in Hp; lia).
    assert (r.1 / 64 <= p / 64 < ew) by (unfold ew; destruct (0 <? r.2 mod 64) eqn:?; lia).
    destruct (bit (buffer b) p) eqn:E; [done|]. exfalso. apply H. exists (p / 64). split; [lia|].
    apply negb_true_iff, Z.eqb_neq. intros Heq. apply (f_equal (λ x, Z.testbit x (p mod 64))) in Heq.
    rewrite Z.lor_spec, !wnot_bit, Hm, Z.bits_0 in Heq by lia.
    replace (64 * (p / 64) + p mod 64) with p in Heq by lia. unfold bit in E. rewrite E, Hp in Heq.
    by replace (p mod 64 <? 64) with true in Heq by lia.
  - intros H (j & Hj & Hne). apply negb_true_iff, Z.eqb_neq in Hne. apply Hne.
    apply word_eq; [apply u64_lor; [by apply word_u64|apply u64_wnot]|apply u64_wnot|]. intros k Hk.
    rewrite Z.lor_spec, !wnot_bit, Hm, Z.bits_0 by lia. replace (k <? 64) with true by lia. cbn [andb negb].
    destruct (within r (64 * j + k)) eqn:E; [|apply orb_true_r]. apply H in E. rewrite bit_at in E by lia.
    by rewrite E.
Qed.

(** ** Queries on the whole set *)

Lemma any_bits b : wf N b →
  ∃ v, any b = Ok v ∧ (v = true ↔ ∃ p, 0 <= p < size b ∧ bit (buffer b) p = true).
Proof.
  intros Hw. pose proof (wf_words N b Hw). pose proof Hw as (_ & Hu & _ & Hz). unfold any.
  rewrite (exists_word_spec _ _ (λ j, negb (word (buffer b) j =? 0))) by (done || lia).
  eexists. split; [done|]. rewrite existsb_seqZ. split.
  - intros (j & Hj & Hne). apply negb_true_iff, Z.eqb_neq, nonzero_bits in Hne as (k & Hk & HB); [|by apply word_u64].
    exists (64 * j + k). rewrite bit_at by lia. split; [|done]. split; [lia|].
    destruct (Z.lt_ge_cases (64 * j + k) (size b)) as [|Hge]; [done|]. apply Hz in Hge.
    rewrite bit_at in Hge by lia. by rewrite HB in Hge.
  - intros (p & Hp & HB). exists (p / 64). unfold nof_words_, bits_per_word in *. split; [lia|].
    apply negb_true_iff, Z.eqb_neq, nonzero_bits; [by apply word_u64|]. exists (p mod 64). split; [lia|done].
Qed.

Lemma all_bits b : wf N b →
  ∃ v, all b = Ok v ∧ (v = true ↔ ∀ p, 0 <= p < size b → bit (buffer b) p = true).
Proof.
  intros Hw. pose proof (wf_words N b Hw) as Hnw. pose proof Hw as (_ & Hu & Hn & Hz). unfold all.
  assert (Hs : size b <= 64 * nof_words_ b < size b + 64) by (unfold nof_words_, bits_per_word in *; lia).
  destruct (Z.eqb_spec (nof_words_ b) 0) as [H0|H0].
  { exists true. split; [done|]. split; [|done]. intros _ p Hp. lia. }
  rewrite (exists_word_spec _ _ (λ j, negb (word (buffer b) j =? wnot 0))) by (done || lia).
  cbn [mbind result_bind]. set (nw := nof_words_ b) in *. destruct (existsb _ _) eqn:E.
  - exists false. split; [done|]. split; [done|]. intros HB. apply existsb_seqZ in E as (j & Hj & Hne).
    apply negb_true_iff, Z.eqb_neq in Hne. exfalso. apply Hne, full_word; [done|lia|]. intros. apply HB. lia.
  - rewrite vec_at_word by lia. cbn [mbind result_bind]. eexists. split; [done|].
    unfold bits_per_word. rewrite Z.eqb_eq, full_last_word; [|done|lia|lia|].
    2: { intros p Hp. apply Hz. unfold size in *. lia. }
    split; [|intros HB k Hk; apply HB; lia]. intros HL p Hp. destruct (decide (p / 64 < nw - 1)).
    + assert (HF : word (buffer b) (p / 64) = wnot 0).
      { destruct (Z.eqb_spec (word (buffer b) (p / 64)) (wnot 0)) as [|Hne]; [done|].
        rewrite <- not_true_iff_false, existsb_seqZ in E. exfalso. apply E. exists (p / 64). split; [lia|].
        by apply negb_true_iff, Z.eqb_neq. }
      replace p with (64 * (p / 64) + p mod 64) by lia. apply full_word; [done|lia|done|lia].
    + replace p with (64 * (nw - 1) + (p - 64 * (nw - 1))) by lia. apply HL; lia.
Qed.

Lemma eqb_bits b c : wf N b → wf N c →
  ∃ v, eqb b c = Ok v ∧
    (v = true ↔ size b = size c ∧ ∀ p, 0 <= p < size b → bit (buffer b) p = bit (buffer c) p).
Proof.
  intros Hw Hc. pose proof (wf_words N b Hw). pose proof (wf_words N c Hc).
  pose proof Hw as (_ & Hu & _ & Hz). pose proof Hc as (_ & Hu' & _ & Hz'). unfold eqb.
  destruct (Z.eqb_spec (size b) (size c)) as [Hs|Hs]; cbn [negb].
  2: { exists false. split; [done|]. split; [done|]. by intros []. }
  assert (nof_words_ c = nof_words_ b) by (unfold nof_words_; by rewrite Hs).
  rewrite (exists_word_spec _ _ (λ j, negb (word (buffer b) j =? word (buffer c) j))); try lia.
  2: { intros j Hj. by rewrite vec_at_word by lia. }
  cbn [mbind result_bind]. eexists. split; [done|].
  rewrite negb_true_iff, <- not_true_iff_false, existsb_seqZ. split.
  - intros HE. split; [done|]. intros p Hp. unfold bit.
    destruct (Z.eqb_spec (word (buffer b) (p / 64)) (word (buffer c) (p / 64))) as [->|Hne]; [done|].
    exfalso. apply HE. exists (p / 64). split; [unfold nof_words_, bits_per_word in *; lia|].
    by apply negb_true_iff, Z.eqb_neq.
  - intros [_ HB] (j & Hj & Hne). apply negb_true_iff, Z.eqb_neq in Hne. apply Hne.
    apply word_eq; [by apply word_u64..|]. intros k Hk. rewrite <- !bit_at by lia.
    destruct (Z.lt_ge_cases (64 * j + k) (size b)); [apply HB; lia|]. unfold size in *. by rewrite Hz, Hz' by lia.
Qed.

(** ** Counting *)

Lemma ones_past_size b n : wf N b → size b <= Z.of_nat n →
  ones (bit (buffer b)) n = ones (bit (buffer b)) (Z.to_nat (size b)).
Proof.
  intros (_ & _ & Hn & Hz) Hle. unfold size in *.
  replace n with (Z.to_nat (cur_size b) + (n - Z.to_nat (cur_size b)))%nat by lia. rewrite ones_add.
  rewrite (ones_false (λ p, bit (buffer b) (Z.of_nat (Z.to_nat (cur_size b)) + p))); [lia|].
  intros p Hp. apply Hz. lia.
Qed.

Lemma count_loop b n : wf N b → Z.of_nat n <= nof_words_ b →
  fold_result (λ c i, w ← vec_at (buffer b) i; sadd 32 c (count_ones w)) 0 (seqZ 0 (Z.of_nat n)) =
    Ok (ones (bit (buffer b)) (64 * n)).
Proof.
  intros Hw. pose proof (wf_words N b Hw). pose proof Hw as (_ & Hu & Hn & _).
  induction n as [|n IH]; intros Hle; [by rewrite Nat.mul_0_r|].
  replace (Z.of_nat (S n)) with (Z.of_nat n + 1) by lia. rewrite seqZ_app by lia.
  rewrite fold_result_app, IH by lia. cbn [mbind result_bind]. rewrite seqZ_cons by lia.
  rewrite (seqZ_nil _ (Z.pred 1)) by done. cbn [fold_result].
  rewrite vec_at_word by lia. cbn [mbind result_bind].
  rewrite count_ones_word by by apply word_u64.
  replace (64 * S n)%nat with (64 * n + 64)%nat by lia. rewrite ones_add.
  rewrite (ones_ext (Z.testbit _) (λ p, bit (buffer b) (Z.of_nat (64 * n) + p))).
  2: { intros k Hk. replace (Z.of_nat (64 * n)) with (64 * Z.of_nat n) by lia. by rewrite bit_at by lia. }
  rewrite sadd_Ok; [done|].
  pose proof (ones_bound (bit (buffer b)) (64 * n)).
  pose proof (ones_bound (λ p, bit (buffer b) (Z.of_nat (64 * n) + p)) 64).
  rewrite <- ones_add.
  assert (Hlast : ones (bit (buffer b)) (64 * n + 64) <= size b).
  { destruct (decide (size b <= Z.of_nat (64 * n + 64))).
    - rewrite ones_past_size by done. pose proof (ones_bound (bit (buffer b)) (Z.to_nat (size b))).
      unfold size in *. lia.
    - pose proof (ones_bound (bit (buffer b)) (64 * n + 64)). lia. }
  pose proof (ones_bound (bit (buffer b)) (64 * n + 64)). unfold size in *. lia_fits.
Qed.

Lemma count_bits b : wf N b → count b = Ok (ones (bit (buffer b)) (Z.to_nat (size b))).
Proof.
  intros Hw. pose proof (wf_words N b Hw). pose proof Hw as (_ & _ & Hn & Hz). unfold count.
  rewrite <- (Z2Nat.id (nof_words_ b)), count_loop by (done || lia). cbn [mbind result_bind].
  rewrite ones_past_size by (done || (unfold nof_words_, bits_per_word, size in *; lia)).
  pose proof (ones_bound (bit (buffer b)) (Z.to_nat (size b))). unfold size in *.
  by rewrite wrap_small by lia_fits.
Qed.

(** ** Searches *)

Lemma find_first_loop_spec b s e value fuel : ∀ i, wf N b → 0 <= s <= e → 0 < e → e <= size b →
  s / 64 <= i → (e - 1) / 64 - i + 2 <= Z.of_nat fuel → (0 < fuel)%nat →
  (∀ p, s <= p < e → p < 64 * i → bit (buffer b) p ≠ value) →
  ∃ r, find_first_loop fuel b s e (s / 64) ((e - 1) / 64) value i = Ok r ∧ lowest (buffer b) s e value r.
Proof.
  induction fuel as [|fuel IH]; intros i Hw Hs He Hsz Hi Hf Hf0 Hp; [lia|]. cbn [find_first_loop].
  destruct (Z.ltb_spec ((e - 1) / 64) i) as [Hlt|Hge].
  { exists (-1). split; [done|]. left. split; [done|]. intros p Hpr. apply Hp; lia. }
  pose proof (wf_words N b Hw). pose proof Hw as (_ & Hu & Hn & _). unfold nof_words_, bits_per_word, size in *.
  rewrite vec_at_word by lia. cbn [mbind result_bind]. rewrite (wrap_small 64 (e - 1)) by lia_fits.
  destruct (search_word (buffer b) i s e value Hu Hs He (conj Hi Hge)) as [H64 HB]. cbn zeta in *.
  set (w := if i =? (e - 1) / 64 then _ else _) in *. clearbody w.
  destruct (Z.eqb_spec w 0) as [->|Hne]; cbn [negb].
  - apply IH; try done; try lia. intros p Hpr Hlt.
    destruct (decide (p < 64 * i)) as [|Hge']; [by apply Hp|]. specialize (HB (p - 64 * i)).
    rewrite Z.bits_0 in HB. replace (64 * i + (p - 64 * i)) with p in HB by lia.
    intros Hv. rewrite Hv, Bool.eqb_reflx in HB. cbn [andb] in HB. lia.
  - destruct (lsb_spec w H64 Hne) as (HT & HR & HZ). rewrite HB in HT by lia.
    apply andb_true_iff in HT as [Hv%Bool.eqb_prop HT].
    eexists. split; [done|]. right.
    assert (swrap 32 (i * 64 + find_first_lsb_one w) = 64 * i + find_first_lsb_one w) as ->
      by (rewrite swrap_small by lia_fits; lia).
    split; [lia|]. split; [done|]. intros p Hpr.
    destruct (decide (p < 64 * i)); [apply Hp; lia|]. specialize (HZ (p - 64 * i)). rewrite HB in HZ by lia.
    replace (64 * i + (p - 64 * i)) with p in HZ by lia. intros Hv'. rewrite Hv', Bool.eqb_reflx in HZ.
    cbn [andb] in HZ. lia.
Qed.

Lemma find_first_spec b s e value : wf N b → 0 <= s <= e → 0 < e → e <= size b →
  ∃ r, find_first_ b s e value = Ok r ∧ lowest (buffer b) s e value r.
Proof.
  intros Hw Hs He Hsz. unfold find_first_, bits_per_word. pose proof (wf_words N b Hw).
  pose proof Hw as (_ & _ & Hn & _). unfold nof_words_, bits_per_word, size, zlen in *.
  rewrite wrap_small by lia_fits. apply find_first_loop_spec; try (done || lia).
Qed.

(** Downwards; [i] is the index before wrap-around. *)
Lemma find_last_loop_spec b s e value fuel : ∀ i, wf N b → 0 <= s <= e → 0 < e → e <= size b →
  s / 64 - 1 <= i <= (e - 1) / 64 → i - s / 64 + 2 <= Z.of_nat fuel →
  (∀ p, s <= p < e → 64 * (i + 1) <= p → bit (buffer b) p ≠ value) →
  ∃ r, find_last_loop false fuel b s e (s / 64) ((e - 1) / 64) value (wrap 64 i) = Ok r ∧
    highest (buffer b) s e value r.
Proof.
  induction fuel as [|fuel IH]; intros i Hw Hs He Hsz Hi Hf Hp; [lia|]. cbn [find_last_loop].
  pose proof (wf_words N b Hw). pose proof Hw as (_ & Hu & Hn & _). unfold nof_words_, bits_per_word, size in *.
  destruct (decide (i = s / 64 - 1)) as [->|Hne].
  { rewrite Z.eqb_refl. exists (-1). split; [done|]. left. split; [done|]. intros p Hpr. apply Hp; lia. }
  rewrite (wrap_small 64 i) by lia_fits.
  replace (i =? wrap 64 (s / 64 - 1)) with false.
  2: { symmetry. apply Z.eqb_neq. unfold wrap. destruct (decide (s / 64 = 0)) as [->|].
       - rewrite Z.sub_0_l, Z.mod_opp_l_nz, Z.mod_1_l; lia_fits.
       - rewrite Z.mod_small by lia_fits. done. }
  rewrite vec_at_word by lia. cbn [mbind result_bind]. rewrite (wrap_small 64 (e - 1)) by lia_fits.
  destruct (search_word (buffer b) i s e value Hu Hs He) as [H64 HB]; [lia|]. cbn zeta in *.
  set (w := if i =? (e - 1) / 64 then _ else _) in *. clearbody w.
  destruct (Z.eqb_spec w 0) as [->|Hnz]; cbn [negb].
  - apply IH; try done; try lia. intros p Hpr Hge.
    destruct (decide (64 * (i + 1) <= p)) as [|Hlt]; [by apply Hp|]. specialize (HB (p - 64 * i)).
    rewrite Z.bits_0 in HB. replace (64 * i + (p - 64 * i)) with p in HB by lia.
    intros Hv. rewrite Hv, Bool.eqb_reflx in HB. cbn [andb] in HB. lia.
  - destruct (msb_spec w H64 Hnz) as (HT & HR & HZ). rewrite HB in HT by lia.
    apply andb_true_iff in HT as [Hv%Bool.eqb_prop HT].
    eexists. split; [done|]. right.
    assert (swrap 32 (i * 64 + find_first_msb_one w) = 64 * i + find_first_msb_one w) as ->
      by (rewrite swrap_small by lia_fits; lia).
    split; [lia|]. split; [done|]. intros p Hpr.
    destruct (decide (64 * (i + 1) <= p)); [apply Hp; lia|]. specialize (HZ (p - 64 * i)). rewrite HB in HZ by lia.
    replace (64 * i + (p - 64 * i)) with p in HZ by lia. intros Hv'. rewrite Hv', Bool.eqb_reflx in HZ.
    cbn [andb] in HZ. lia.
Qed.

Lemma find_last_spec b s e value : wf N b → 0 <= s <= e → 0 < e → e <= size b →
  ∃ r, find_last_ false b s e value = Ok r ∧ highest (buffer b) s e value r.
Proof.
  intros Hw Hs He Hsz. unfold find_last_, bits_per_word. pose proof (wf_words N b Hw).
  pose proof Hw as (_ & _ & Hn & _). unfold nof_words_, bits_per_word, size, zlen in *.
  rewrite (wrap_small 64 (e - 1)) by lia_fits.
  destruct (find_last_loop_spec b s e value (S (length (buffer b))) ((e - 1) / 64)) as (r & HE & HH);
    try (done || unfold size; lia). rewrite wrap_small in HE by lia_fits. by exists r.
Qed.

(** The reversed search is the downward one with the position counted from the top. *)
Lemma find_first_reversed_loop_eq b s e value fuel : ∀ i, wf N b → 0 <= s < e → e <= size b →
  find_first_reversed_loop fuel b (e - 1) s ((e - 1) / 64) (s / 64) value i =
  (r ← find_last_loop false fuel b s e (s / 64) ((e - 1) / 64) value i;
   Ok (if r =? -1 then -1 else size b - 1 - r)).
Proof.
  intros i Hw Hs He. revert i. induction fuel as [|fuel IH]; intros i; [done|].
  cbn [find_first_reversed_loop find_last_loop]. destruct (Z.eqb_spec i (wrap 64 (s / 64 - 1))); [done|].
  pose proof (wf_words N b Hw). pose proof Hw as (Hz & Hu & Hn & _).
  unfold max_nof_words_, bits_per_word, size in *. rewrite (wrap_small 64 (e - 1)) by lia_fits.
  destruct (Z.le_gt_cases (zlen (buffer b)) i); [by rewrite vec_at_past|].
  destruct (Z.leb_spec 0 i); [|unfold vec_at; by replace (0 <=? i) with false by lia].
  rewrite vec_at_word by lia. cbn [mbind result_bind].
  set (w0 := if value then _ else _). assert (Hw0 : u64 w0)
    by (unfold w0; destruct value; [by apply word_u64|apply u64_wnot]).
  set (w := if i =? s / 64 then Z.land _ (mask_lsb_zeros _ _) else _).
  set (w' := if i =? (e - 1) / 64 then Z.land (if i =? s / 64 then _ else _) _ else _).
  assert (w' = w) as ->.
  { unfold w, w'. destruct (i =? s / 64), (i =? (e - 1) / 64); try done.
    by rewrite <- !Z.land_assoc, (Z.land_comm (mask_lsb_zeros _ _)). }
  assert (Hw64 : u64 w).
  { assert (∀ k, 0 <= mask_lsb_zeros 64 k) by (intros; apply (wrap_fits 64 _); lia).
    assert (0 <= mask_lsb_ones 64 ((e - 1) mod 64 + 1)).
    { rewrite (bit_buffer.mask_lsb_ones_value 64) by lia. pose proof (Z.pow_pos_nonneg 2 ((e - 1) mod 64 + 1)). lia. }
    unfold w. destruct (i =? s / 64), (i =? (e - 1) / 64); auto using u64_land. }
  clearbody w. destruct (Z.eqb_spec w 0) as [->|Hne]; cbn [negb]; [apply IH|].
  destruct (msb_spec w Hw64 Hne) as (_ & HR & _). cbn [mbind result_bind].
  rewrite !swrap_small by lia_fits. destruct (Z.eqb_spec (i * 64 + find_first_msb_one w) (-1)); [lia|].
  f_equal. lia.
Qed.

(** The two searches in the order of the set's own indices. *)
Definition has (b : t) (i : Z) : bool := bit (buffer b) (phys (size b) i).

Lemma find_lowest_spec b s e value : wf N b → 0 <= s <= e → e <= size b →
  ∃ r, find_lowest_range LowestInfoBitIsMSB b s e value = Ok r ∧
    ((r = -1 ∧ ∀ i, s <= i < e → has b i ≠ value) ∨
     (s <= r < e ∧ has b r = value ∧ ∀ i, s <= i < r → has b i ≠ value)).
Proof.
  intros Hw Hs He. unfold find_lowest_range, assert_range_bounds_. pass_assume.
  pose proof Hw as (_ & _ & Hn & _). unfold size in Hn.
  destruct (Z.eqb_spec s e) as [->|Hne]. { exists (-1). split; [done|]. left. split; [done|]. lia. }
  unfold has, phys. destruct LowestInfoBitIsMSB eqn:Erev; cbn [negb].
  - unfold find_first_reversed_, get_bitidx_, bits_per_word, size in *.
    rewrite (wrap_small 64 (e - 1)), (wrap_small 64 (cur_size b - 1 - s)),
      (wrap_small 64 (cur_size b - 1 - (e - 1))) by lia_fits.
    replace (cur_size b - 1 - (e - 1)) with (cur_size b - e) by lia.
    replace (cur_size b - 1 - s) with ((cur_size b - s) - 1) by lia.
    rewrite find_first_reversed_loop_eq by (done || unfold size; lia).
    destruct (find_last_spec b (cur_size b - e) (cur_size b - s) value) as (r & HE & HH); try (done || unfold size; lia).
    unfold find_last_, bits_per_word in HE. rewrite (wrap_small 64 (cur_size b - s - 1)) in HE by lia_fits.
    cbn zeta in HE. rewrite HE. cbn [mbind result_bind]. eexists. split; [done|]. unfold size.
    destruct HH as [[-> HH]|(Hr & Hv & HH)].
    + left. split; [done|]. intros i Hi. apply HH. lia.
    + destruct (Z.eqb_spec r (-1)); [lia|]. right. split; [lia|].
      replace (cur_size b - 1 - (cur_size b - 1 - r)) with r by lia. split; [done|]. intros i Hi. apply HH. lia.
  - destruct (find_first_spec b s e value) as (r & HE & HH); try (done || lia). exists r. by split.
Qed.

Lemma find_highest_spec b s e value : wf N b → 0 <= s <= e → e <= size b → (if LowestInfoBitIsMSB then s < size b else 0 < e) →
  ∃ r, find_highest_range LowestInfoBitIsMSB b s e value = Ok r ∧
    ((r = -1 ∧ ∀ i, s <= i < e → has b i ≠ value) ∨
     (s <= r < e ∧ has b r = value ∧ ∀ i, r < i < e → has b i ≠ value)).
Proof.
  intros Hw Hs He Hne. unfold find_highest_range, assert_range_bounds_. pass_assume.
  pose proof Hw as (_ & _ & Hn & _). unfold has, phys, size in *. destruct LowestInfoBitIsMSB eqn:Erev.
  - destruct (find_first_spec b (cur_size b - e) (cur_size b - s) value) as (r & HE & HH); try (done || unfold size; lia).
    rewrite HE. cbn [mbind result_bind]. destruct HH as [[-> HH]|(Hr & Hv & HH)].
    + exists (-1). split; [done|]. left. split; [done|]. intros i Hi. apply HH. lia.
    + rewrite (proj2 (Z.eqb_neq r (-1))) by lia. rewrite swrap_small by lia_fits.
      eexists. split; [done|]. right. split; [lia|].
      replace (cur_size b - 1 - (cur_size b - 1 - r)) with r by lia. split; [done|]. intros i Hi. apply HH. lia.
  - destruct (find_last_spec b s e value) as (r & HE & HH); try (done || unfold size; lia). exists r. by split.
Qed.

End effects.

End bounded_bitset.
