(* ===== verification/BitsetSpec.v ===== *)
(** * BitsetSpec: bounded bitsets as lists of booleans

    The contract of [bounded_bitset]: a set of size [n] is a list of [n] booleans,
    indexed from the lowest information bit whatever the bit order in memory.
    [spec] gives every operation its meaning on lists; the refinement theorem says
    that any sequence of calls on the words has the results and the faults it has on
    lists.  A call the documentation does not cover, or whose outcome differs from the
    documentation, has no meaning ([None]); the latter are shown as examples. *)

From S2P Require Export BoundedBitset.
Import bounded_bitset.

(** ** The meaning of the operations *)
Module spec.

Definition sub (l : list bool) (s e : nat) : list bool := take (e - s) (drop s l).

Definition resize (rev : bool) (n : nat) (l : list bool) : list bool :=
  if rev then replicate (n - length l) false ++ drop (length l - n) l
  else take n l ++ replicate (n - length l) false.

Definition fill (s e : nat) (v : bool) (l : list bool) : list bool :=
  take s l ++ replicate (e - s) v ++ drop e l.

Definition lowest (s e : nat) (v : bool) (l : list bool) : Z :=
  match list_find (λ x, x = v) (sub l s e) with Some (k, _) => Z.of_nat (s + k) | None => -1 end.

Definition highest (s e : nat) (v : bool) (l : list bool) : Z :=
  match list_find (λ x, x = v) (reverse (sub l s e)) with Some (k, _) => Z.of_nat e - 1 - Z.of_nat k | None => -1 end.

Definition count (l : list bool) : Z := Z.of_nat (length (List.filter id l)).

(** Drop the leading elements equal to [v]. *)
Fixpoint strip (v : bool) (l : list bool) : list bool :=
  match l with [] => [] | x :: l' => if Bool.eqb x v then strip v l' else l end.

(** Those equal to [v] are consecutive: after them only others follow. *)
Definition contiguous (v : bool) (l : list bool) : bool :=
  match strip (negb v) (strip v (strip (negb v) l)) with [] => true | _ => false end.

(** The indices from [s] up to [e] that hold [v], in order. *)
Definition positions (s e : Z) (v : bool) (l : list bool) : list Z :=
  List.filter (λ i, Bool.eqb (nth (Z.to_nat i) l false) v) (seqZ s (e - s)).

(** The number whose binary digits are [l], most significant first. *)
Definition number (l : list bool) : Z := foldl (λ x b, 2 * x + Z.b2z b) 0 l.

(** The [n] low bits of a number, most significant first. *)
Definition digits (val : Z) (n : nat) : list bool :=
  map (λ k, Z.testbit val (Z.of_nat n - 1 - k)) (seqZ 0 (Z.of_nat n)).

End spec.

(** The list a bitset stands for. *)
Definition bits_of (rev : bool) (b : t) : list bool := map (has rev b) (seqZ 0 (size b)).

Lemma length_bits rev b : length (bits_of rev b) = Z.to_nat (size b).
Proof. unfold bits_of. by rewrite length_map, length_seqZ. Qed.

Lemma zlen_bits rev b : 0 <= size b → zlen (bits_of rev b) = size b.
Proof. intros. unfold zlen. rewrite length_bits. lia. Qed.

Lemma lookup_map_seqZ {A} (f : Z → A) n i :
  map f (seqZ 0 n) !! i = if decide (Z.of_nat i < n) then Some (f (Z.of_nat i)) else None.
Proof.
  rewrite list_lookup_fmap. destruct (decide _).
  - rewrite lookup_seqZ_lt by lia. simpl. do 2 f_equal; lia.
  - by rewrite lookup_seqZ_ge by lia.
Qed.

Lemma bits_lookup rev b i :
  bits_of rev b !! i = if decide (Z.of_nat i < size b) then Some (has rev b (Z.of_nat i)) else None.
Proof. apply lookup_map_seqZ. Qed.

Lemma has_bits_list N rev b n f : has_bits N b n f → bits_of rev b = map (λ i, f (phys rev n i)) (seqZ 0 n).
Proof.
  intros (_ & Hs & Hb). unfold bits_of. rewrite Hs. apply map_ext_in. intros i Hi.
  apply list_elem_of_In, elem_of_seqZ in Hi. unfold has. rewrite Hs. apply Hb.
  unfold phys. destruct rev; lia.
Qed.

(** Equality of two lists of booleans, index by index. *)
Ltac by_index :=
  apply list_eq; intros i; repeat first
    [ rewrite bits_lookup | rewrite lookup_map_seqZ | rewrite list_lookup_fmap ];
  simpl.

(** ** Visiting set bits four at a time *)

Lemma fold_result_map {A B C} (f : A → C → result A) (g : B → C) l : ∀ a,
  fold_result (λ a x, f a (g x)) a l = fold_result f a (map g l).
Proof.
  induction l as [|x l IH]; intros a; [done|]. cbn [fold_result map]. destruct (f a (g x)); [|done].
  cbn [mbind result_bind]. apply IH.
Qed.

Lemma preset_spec w : preset (Z.land w 15) = List.filter (Z.testbit w) [0; 1; 2; 3].
Proof.
  assert (Hx : 0 <= Z.land w 15 < 16) by (change 15 with (2 ^ 4 - 1); rewrite land_mask by done; apply Z.mod_pos_bound; done).
  assert (HB : List.filter (Z.testbit w) [0; 1; 2; 3] = List.filter (Z.testbit (Z.land w 15)) [0; 1; 2; 3]).
  { apply filter_ext_in. intros k Hk. rewrite Z.land_spec.
    destruct Hk as [<-|[<-|[<-|[<-|[]]]]]; by rewrite andb_true_r. }
  rewrite HB. generalize dependent (Z.land w 15). intros x Hx _.
  assert (x ∈ seqZ 0 16) as Hin by (apply elem_of_seqZ; lia). clear Hx. revert x Hin.
  apply Forall_forall. repeat (apply Forall_cons; split; [reflexivity|]). apply Forall_nil. done.
Qed.

Lemma for_each_word_spec {S} (f : S → Z → result S) fuel : ∀ w base st, 0 <= w < 2 ^ (4 * Z.of_nat fuel) →
  for_each_word fuel f w base st =
    fold_result f st (List.filter (λ p, Z.testbit w (p - base)) (seqZ base (4 * Z.of_nat fuel))).
Proof.
  assert (H0 : ∀ base n st, Ok st = fold_result f st (List.filter (λ p, Z.testbit 0 (p - base)) (seqZ base n))).
  { intros base n st. induction (seqZ base n) as [|x l IH]; [done|]. cbn [List.filter]. by rewrite Z.bits_0. }
  induction fuel as [|fuel IH]; intros w base st Hw; cbn [for_each_word].
  { assert (w = 0) as -> by (change (4 * Z.of_nat 0) with 0 in Hw; lia). apply H0. }
  destruct (Z.eqb_spec w 0) as [->|Hne]; [apply H0|].
  replace (4 * Z.of_nat (Datatypes.S fuel)) with (4 + 4 * Z.of_nat fuel) in * by lia.
  rewrite fold_result_map, preset_spec, seqZ_app, List.filter_app, fold_result_app by lia.
  assert (map (Z.add base) (List.filter (Z.testbit w) [0; 1; 2; 3]) =
    List.filter (λ p, Z.testbit w (p - base)) (seqZ base 4)) as ->.
  { assert (seqZ base 4 = map (Z.add base) [0; 1; 2; 3]) as ->.
    { rewrite <- (Z.add_0_r base) at 1. by rewrite <- fmap_add_seqZ. }
    rewrite filter_map_swap. f_equal. apply List.filter_ext. intros k. f_equal. lia. }
  destruct (fold_result f st _); [|done]. cbn [mbind result_bind]. rewrite IH.
  - f_equal. apply filter_ext_in. intros p Hp. apply list_elem_of_In, elem_of_seqZ in Hp.
    rewrite Z.shiftr_spec by lia. f_equal. lia.
  - split; [apply Z.shiftr_nonneg; lia|]. rewrite Z.shiftr_div_pow2 by done. apply Z.div_lt_upper_bound; [done|].
    rewrite <- Z.pow_add_r by lia. lia.
Qed.


Lemma filter_seqZ_none (f : Z → bool) a n : (∀ j, a <= j < a + n → f j = false) → List.filter f (seqZ a n) = [].
Proof.
  intros H. assert (HE : ∀ j, j ∈ seqZ a n → f j = false) by (intros j Hj%elem_of_seqZ; apply H; lia).
  induction (seqZ a n) as [|x l IH]; [done|]. cbn. rewrite HE by set_solver. apply IH. set_solver.
Qed.

Lemma seqZ_split a r n : a <= r < a + n → seqZ a n = seqZ a (r - a) ++ r :: seqZ (r + 1) (n - (r - a) - 1).
Proof.
  intros Hr. replace n with ((r - a) + (n - (r - a))) at 1 by lia. rewrite seqZ_app by lia. f_equal.
  rewrite seqZ_cons by lia. f_equal; [lia|]. f_equal; lia.
Qed.

Lemma sub_lookup (l : list bool) s e k : spec.sub l s e !! k = if decide (k < e - s)%nat then l !! (s + k)%nat else None.
Proof. unfold spec.sub. by rewrite lookup_take, lookup_drop. Qed.

Lemma length_sub (l : list bool) s e : (s <= e <= length l)%nat → length (spec.sub l s e) = (e - s)%nat.
Proof. intros. unfold spec.sub. rewrite length_take, length_drop. lia. Qed.

Lemma sub_all (l : list bool) : spec.sub l 0 (length l) = l.
Proof. unfold spec.sub. by rewrite drop_0, Nat.sub_0_r, firstn_all. Qed.

Lemma forallb_elem (l : list bool) : forallb id l = true ↔ ∀ x, x ∈ l → x = true.
Proof. rewrite forallb_forall. by setoid_rewrite list_elem_of_In. Qed.

Lemma existsb_elem (l : list bool) : existsb id l = true ↔ true ∈ l.
Proof.
  rewrite existsb_exists. setoid_rewrite <- list_elem_of_In. split; [by intros (x & Hx & <-)|]. by exists true.
Qed.

Lemma count_map f n : spec.count (map f (seqZ 0 (Z.of_nat n))) = ones f n.
Proof.
  induction n as [|n IH]; [done|]. unfold spec.count in *.
  replace (Z.of_nat (S n)) with (Z.of_nat n + 1) by lia. rewrite seqZ_app, map_app, List.filter_app, length_app by lia.
  rewrite Nat2Z.inj_add, IH. cbn [ones]. rewrite seqZ_cons by lia. rewrite (seqZ_nil _ (Z.pred 1)) by done.
  rewrite Z.add_0_l. simpl. by destruct (f _).
Qed.

Lemma ones_rev f n : ones (λ i, f (Z.of_nat n - 1 - i)) n = ones f n.
Proof.
  induction n as [|n IH]; [done|]. change (S n) with (1 + n)%nat at 2. rewrite ones_add. cbn [ones].
  rewrite <- IH. rewrite (ones_ext (λ p, f (Z.of_nat (S n) - 1 - (Z.of_nat 1 + p))) (λ i, f (Z.of_nat n - 1 - i))).
  - replace (Z.of_nat (S n) - 1 - Z.of_nat 0) with (Z.of_nat n) by lia. lia.
  - intros p Hp. f_equal. lia.
Qed.

Lemma ones_full f n : ones f n = Z.of_nat n → ∀ p, 0 <= p < Z.of_nat n → f p = true.
Proof.
  induction n as [|n IH]; intros H p Hp; [lia|]. cbn [ones] in H. pose proof (ones_bound f n).
  destruct (decide (p = Z.of_nat n)) as [->|]; [destruct (f _); [done|]; cbn in H; lia|].
  apply IH; [|lia]. destruct (f (Z.of_nat n)); cbn in H; lia.
Qed.

Lemma ones_true n : ones (λ _, true) n = Z.of_nat n.
Proof. induction n as [|n IH]; [done|]. cbn [ones]. rewrite IH. cbn. lia. Qed.

Lemma ones_eqb f (v : bool) n : ones (λ i, Bool.eqb (f i) v) n = if v then ones f n else Z.of_nat n - ones f n.
Proof.
  induction n as [|n IH]; [by destruct v|]. cbn [ones]. rewrite IH. destruct v, (f (Z.of_nat n)); cbn; lia.
Qed.

Lemma strip_spec v l : ∃ n, l = replicate n v ++ spec.strip v l ∧ head (spec.strip v l) ≠ Some v.
Proof.
  induction l as [|x l (n & IH & Hh)]; [by exists 0%nat|]. cbn [spec.strip].
  destruct (Bool.eqb x v) eqn:E; [apply Bool.eqb_prop in E as ->|].
  - exists (S n). split; [|done]. cbn. by rewrite <- IH.
  - exists 0%nat. split; [done|]. intros [= ->]. by rewrite Bool.eqb_reflx in E.
Qed.

Lemma strip_replicate v n l : spec.strip v (replicate n v ++ l) = spec.strip v l.
Proof. induction n as [|n IH]; [done|]. cbn. by rewrite Bool.eqb_reflx. Qed.

Lemma strip_neq v l : head l ≠ Some v → spec.strip v l = l.
Proof.
  destruct l as [|x l]; [done|]. intros H. cbn. destruct (Bool.eqb x v) eqn:E; [|done].
  apply Bool.eqb_prop in E as ->. done.
Qed.

(** A list is contiguous in [v] when it is a run of [v] between two runs of the other. *)
Lemma contiguous_form v l : spec.contiguous v l = true ↔
  ∃ a n c, l = replicate a (negb v) ++ replicate n v ++ replicate c (negb v).
Proof.
  unfold spec.contiguous. split.
  - destruct (strip_spec (negb v) l) as (a & Ha & _). set (l1 := spec.strip _ _) in *.
    destruct (strip_spec v l1) as (n & Hn & _). set (l2 := spec.strip v l1) in *.
    destruct (strip_spec (negb v) l2) as (c & Hc & _). destruct (spec.strip (negb v) l2); [|done].
    intros _. exists a, n, c. by rewrite Ha, Hn, Hc, app_nil_r.
  - intros (a & n & c & ->). rewrite strip_replicate. destruct n as [|n].
    + rewrite app_nil_l. rewrite <- (app_nil_r (replicate c _)), strip_replicate. done.
    + rewrite (strip_neq (negb v) (replicate (S n) v ++ _)) by (by destruct v). rewrite strip_replicate.
      assert (spec.strip v (replicate c (negb v)) = replicate c (negb v)) as ->.
      { apply strip_neq. destruct c, v; done. }
      rewrite <- (app_nil_r (replicate c _)), strip_replicate. done.
Qed.

(** Positions that hold [v] lie between the first and the last of them; they are
    consecutive when there are as many as fit. *)
Lemma contiguous_count f v n r h : 0 <= r <= h → h < Z.of_nat n → f r = v → f h = v →
  (∀ i, 0 <= i < r → f i ≠ v) → (∀ i, h < i < Z.of_nat n → f i ≠ v) →
  spec.contiguous v (map f (seqZ 0 (Z.of_nat n))) =
    (ones (λ i, Bool.eqb (f i) v) n =? h + 1 - r).
Proof.
  intros Hr Hh Hfr Hfh Hlo Hhi. set (g := λ i, Bool.eqb (f i) v).
  assert (Hg : ∀ i, g i = true ↔ f i = v) by (intros; apply Bool.eqb_true_iff).
  assert (HO : ones g n = ones (λ p, g (r + p)) (Z.to_nat (h + 1 - r))).
  { replace n with (Z.to_nat r + (Z.to_nat (h + 1 - r) + (n - Z.to_nat (h + 1))))%nat at 1 by lia.
    rewrite !ones_add, (ones_false g (Z.to_nat r)).
    2: { intros p Hp. apply not_true_iff_false. rewrite Hg. apply Hlo. lia. }
    rewrite (ones_false _ (n - Z.to_nat (h + 1))).
    2: { intros p Hp. apply not_true_iff_false. rewrite Hg. apply Hhi. lia. }
    rewrite Z2Nat.id by lia. lia. }
  apply eq_true_iff_eq. rewrite contiguous_form, Z.eqb_eq, HO. split.
  - intros (a & m & c & HE).
    assert (Hat : ∀ i, 0 <= i < Z.of_nat n → f i = v ↔ Z.of_nat a <= i < Z.of_nat (a + m)).
    { intros i Hi. apply (f_equal (λ l, l !! Z.to_nat i)) in HE. rewrite lookup_map_seqZ, decide_True in HE by lia.
      rewrite Z2Nat.id in HE by lia. destruct (decide (i < Z.of_nat a)).
      - rewrite lookup_app_l, lookup_replicate_2 in HE by (rewrite ?length_replicate; lia). injection HE as ->.
        split; [by destruct v|lia].
      - rewrite lookup_app_r, length_replicate in HE by (rewrite length_replicate; lia).
        destruct (decide (i < Z.of_nat (a + m))).
        + rewrite lookup_app_l, lookup_replicate_2 in HE by (rewrite ?length_replicate; lia). injection HE as ->.
          split; [lia|done].
        + rewrite lookup_app_r, length_replicate in HE by (rewrite length_replicate; lia). symmetry in HE.
          apply lookup_replicate_1 in HE as [-> _]. split; [by destruct v|lia]. }
    pose proof (proj1 (Hat r ltac:(lia)) Hfr). pose proof (proj1 (Hat h ltac:(lia)) Hfh).
    rewrite (ones_ext _ (λ _, true)), ones_true by (intros p Hp; apply Hg, Hat; lia). lia.
  - intros HF. exists (Z.to_nat r), (Z.to_nat (h + 1 - r)), (n - Z.to_nat (h + 1))%nat.
    assert (Hin : ∀ i, r <= i < h + 1 → f i = v).
    { intros i Hi. apply Hg. replace i with (r + (i - r)) by lia.
      apply (ones_full (λ p, g (r + p)) (Z.to_nat (h + 1 - r))); lia. }
    assert (Hneg : ∀ x : bool, x ≠ v → x = negb v) by (intros [] ?; destruct v; done).
    apply list_eq. intros i. rewrite lookup_map_seqZ. destruct (decide (Z.of_nat i < Z.of_nat n)).
    + destruct (decide (Z.of_nat i < r)).
      { rewrite lookup_app_l, lookup_replicate_2 by (rewrite ?length_replicate; lia). f_equal. apply Hneg, Hlo. lia. }
      rewrite lookup_app_r, length_replicate by (rewrite length_replicate; lia).
      destruct (decide (Z.of_nat i < h + 1)).
      { rewrite lookup_app_l, lookup_replicate_2 by (rewrite ?length_replicate; lia). f_equal. apply Hin. lia. }
      rewrite lookup_app_r, length_replicate, lookup_replicate_2 by (rewrite ?length_replicate; lia).
      f_equal. apply Hneg, Hhi. lia.
    + symmetry. apply lookup_ge_None_2. rewrite !length_app, !length_replicate. lia.
Qed.

Lemma contiguous_single f v n r : 0 <= r < Z.of_nat n → f r = v → (∀ i, 0 <= i < Z.of_nat n → i ≠ r → f i ≠ v) →
  spec.contiguous v (map f (seqZ 0 (Z.of_nat n))) = true.
Proof.
  intros Hr Hv Ho. rewrite (contiguous_count f v n r r); try done; try lia; [|intros; apply Ho; lia..].
  replace n with (Z.to_nat r + (1 + (n - Z.to_nat r - 1)))%nat by lia. rewrite !ones_add. cbn [ones].
  rewrite (ones_false _ (Z.to_nat r)), (ones_false _ (n - Z.to_nat r - 1)).
  - replace (Z.of_nat (Z.to_nat r) + Z.of_nat 0) with r by lia. rewrite Hv, Bool.eqb_reflx. cbn. lia.
  - intros p Hp. apply not_true_iff_false. rewrite Bool.eqb_true_iff. apply Ho; lia.
  - intros p Hp. apply not_true_iff_false. rewrite Bool.eqb_true_iff. apply Ho; lia.
Qed.

Lemma contiguous_none f v n : (∀ i, 0 <= i < Z.of_nat n → f i ≠ v) →
  spec.contiguous v (map f (seqZ 0 (Z.of_nat n))) = true.
Proof.
  intros H. apply contiguous_form. exists n, 0%nat, 0%nat. cbn [replicate]. rewrite app_nil_l, app_nil_r.
  apply list_eq. intros i. rewrite lookup_map_seqZ. destruct (decide _).
  - rewrite lookup_replicate_2 by lia. f_equal. specialize (H (Z.of_nat i)). destruct (f _), v; try done; by exfalso; apply H; lia.
  - symmetry. apply lookup_replicate_None. lia.
Qed.

Lemma zip_with_map_seqZ (h : bool → bool → bool) f g n :
  zip_with h (map f (seqZ 0 n)) (map g (seqZ 0 n)) = map (λ i, h (f i) (g i)) (seqZ 0 n).
Proof. induction (seqZ 0 n) as [|x l IH]; simpl; [done|]. by rewrite IH. Qed.

(** ** Numbers and their digits *)

Lemma number_snoc l b : spec.number (l ++ [b]) = 2 * spec.number l + Z.b2z b.
Proof. unfold spec.number. by rewrite foldl_app. Qed.

Lemma number_bounds l : 0 <= spec.number l < 2 ^ zlen l.
Proof.
  induction l as [|b l IH] using rev_ind; [done|]. rewrite number_snoc, zlen_app, Z.pow_add_r by apply zlen_nonneg.
  change (2 ^ zlen [b]) with 2. destruct b; cbn [Z.b2z]; lia.
Qed.

Lemma number_testbit l k : 0 <= k →
  Z.testbit (spec.number l) k = (k <? zlen l) && nth (Z.to_nat (zlen l - 1 - k)) l false.
Proof.
  revert k. induction l as [|b l IH] using rev_ind; intros k Hk.
  { change (spec.number []) with 0. rewrite Z.bits_0. change (zlen (@nil bool)) with 0. by replace (k <? 0) with false by lia. }
  rewrite number_snoc, zlen_app. change (zlen [b]) with 1. pose proof (zlen_nonneg l).
  destruct (decide (k = 0)) as [->|].
  - rewrite Z.testbit_0_r. replace (0 <? zlen l + 1) with true by lia. cbn [andb].
    replace (Z.to_nat (zlen l + 1 - 1 - 0)) with (length l) by (unfold zlen; lia).
    by rewrite nth_middle.
  - replace k with (Z.succ (k - 1)) at 1 by lia. rewrite Z.testbit_succ_r, IH by lia.
    replace (k <? zlen l + 1) with (k - 1 <? zlen l) by lia. destruct (Z.ltb_spec (k - 1) (zlen l)); [|done]. cbn [andb].
    rewrite app_nth1 by (unfold zlen in *; lia). f_equal. lia.
Qed.

Lemma length_digits v n : length (spec.digits v n) = n.
Proof. unfold spec.digits. rewrite length_map, length_seqZ. lia. Qed.

(** A number is given by its bits. *)
Lemma number_unique l v : fits (zlen l) v →
  (∀ i, 0 <= i < zlen l → nth (Z.to_nat i) l false = Z.testbit v (zlen l - 1 - i)) → spec.number l = v.
Proof.
  intros Hv H. apply Z.bits_inj'. intros k Hk. rewrite number_testbit by done.
  destruct (Z.ltb_spec k (zlen l)); cbn [andb].
  - rewrite H by lia. f_equal. lia.
  - symmetry. apply (bit_buffer.fits_bit (zlen l)); [done|lia|apply zlen_nonneg].
Qed.


Lemma fold_result_ext {A B} (f g : A → B → result A) l : (∀ a x, x ∈ l → f a x = g a x) → ∀ a,
  fold_result f a l = fold_result g a l.
Proof.
  induction l as [|x l IH]; intros H a; [done|]. cbn [fold_result]. rewrite H by set_solver.
  destruct (g a x); [|done]. cbn [mbind result_bind]. apply IH. set_solver.
Qed.

Section refinement.
Context (N : Z) (rev : bool) (HN : 0 <= N < 2 ^ 31).

Abbreviation bits := (bits_of rev).

Lemma wf_size b : wf N b → 0 <= size b <= N.
Proof. by intros (_ & _ & ? & _). Qed.

Lemma bits_nth b i : wf N b → 0 <= i < size b → nth (Z.to_nat i) (bits b) false = has rev b i.
Proof.
  intros Hw Hi. apply nth_lookup_Some. rewrite bits_lookup, decide_True by lia. by rewrite Z2Nat.id by lia.
Qed.

Lemma create_list n : 0 <= n <= N →
  ∃ b, create N n = Ok b ∧ wf N b ∧ size b = n ∧ bits b = replicate (Z.to_nat n) false.
Proof.
  intros Hn. destruct (create_bits N HN n Hn) as (b & HE & HB). exists b.
  rewrite (has_bits_list _ _ _ _ _ HB). destruct HB as (Hw & Hs & _). split; [done|]. split; [done|]. split; [done|].
  by_index. destruct (decide _).
  - by rewrite lookup_replicate_2 by lia.
  - by rewrite (proj1 (lookup_replicate_None _ _ _)) by lia.
Qed.

Lemma resize_list b n : wf N b → 0 <= n <= N →
  ∃ b', resize N b n = Ok b' ∧ wf N b' ∧ size b' = n ∧ bits b' = spec.resize rev (Z.to_nat n) (bits b).
Proof.
  intros Hw Hn. destruct (resize_bits N HN b n Hw Hn) as (b' & HE & HB). exists b'.
  rewrite (has_bits_list _ _ _ _ _ HB). destruct HB as (Hw' & Hs & _). do 3 (split; [done|]).
  pose proof (wf_size b Hw). unfold spec.resize. rewrite length_bits. by_index. unfold phys. destruct rev.
  - destruct (decide (i < Z.to_nat n - Z.to_nat (size b)))%nat.
    + rewrite lookup_app_l by (rewrite length_replicate; lia). rewrite lookup_replicate_2 by lia.
      rewrite decide_True by lia. by replace (_ <? _) with false by lia.
    + rewrite lookup_app_r by (rewrite length_replicate; lia). rewrite length_replicate, lookup_drop, bits_lookup.
      destruct (decide (Z.of_nat i < n)); [|by rewrite decide_False by lia]. rewrite decide_True by lia.
      replace (_ <? _) with true by lia. unfold has, phys. cbn [andb]. do 2 f_equal. lia.
  - destruct (decide (i < Z.to_nat n `min` Z.to_nat (size b)))%nat.
    + rewrite lookup_app_l by (rewrite length_take, length_bits; lia). rewrite lookup_take by lia.
      rewrite bits_lookup, !decide_True by lia. by replace (_ <? _) with true by lia.
    + rewrite lookup_app_r by (rewrite length_take, length_bits; lia). rewrite length_take, length_bits.
      destruct (decide (Z.of_nat i < n)).
      * rewrite lookup_replicate_2 by lia. by replace (_ <? _) with false by lia.
      * by rewrite (proj1 (lookup_replicate_None _ _ _)) by lia.
Qed.

Lemma set_list b i v : wf N b → 0 <= i < size b →
  ∃ b', set rev b i v = Ok b' ∧ wf N b' ∧ size b' = size b ∧ bits b' = <[Z.to_nat i := v]> (bits b).
Proof.
  intros Hw Hi. destruct (set_bits N rev HN b i v Hw Hi) as (b' & HE & HB). exists b'.
  rewrite (has_bits_list _ _ _ _ _ HB). destruct HB as (Hw' & Hs & _). do 3 (split; [done|]).
  apply list_eq. intros k. rewrite lookup_map_seqZ. destruct (decide (k = Z.to_nat i)) as [->|].
  - rewrite list_lookup_insert_eq by (rewrite length_bits; lia). rewrite decide_True by lia.
    rewrite Z2Nat.id by lia. by rewrite Z.eqb_refl.
  - rewrite list_lookup_insert_ne by done. rewrite bits_lookup. destruct (decide _); [|done].
    rewrite (proj2 (Z.eqb_neq _ _)) by (unfold phys; destruct rev; lia). done.
Qed.

Lemma test_list b i : wf N b → 0 <= i →
  test rev b i = match bits b !! Z.to_nat i with Some v => Ok v | None => Fault AssertFailed end.
Proof.
  intros Hw Hi. rewrite (test_bits N rev HN) by done. rewrite bits_lookup.
  destruct (Z.ltb_spec i (size b)); [rewrite decide_True by lia|by rewrite decide_False by lia].
  by rewrite Z2Nat.id by lia.
Qed.

Lemma fill_all_list b v : wf N b →
  ∃ b', fill_all b v = Ok b' ∧ wf N b' ∧ size b' = size b ∧ bits b' = replicate (Z.to_nat (size b)) v.
Proof.
  intros Hw. pose proof (wf_size b Hw). destruct (fill_all_bits N HN b v Hw) as (b' & HE & HB). exists b'.
  rewrite (has_bits_list _ _ _ _ _ HB). destruct HB as (Hw' & Hs & _). do 3 (split; [done|]).
  by_index. destruct (decide _); [by rewrite lookup_replicate_2 by lia|].
  by rewrite (proj1 (lookup_replicate_None _ _ _)) by lia.
Qed.

Lemma flip_list b : wf N b →
  ∃ b', flip b = Ok b' ∧ wf N b' ∧ size b' = size b ∧ bits b' = map negb (bits b).
Proof.
  intros Hw. destruct (flip_bits N HN b Hw) as (b' & HE & HB). exists b'.
  rewrite (has_bits_list _ _ _ _ _ HB). destruct HB as (Hw' & Hs & _). do 3 (split; [done|]).
  unfold bits_of. by rewrite map_map.
Qed.

Lemma or_list b c : wf N b → wf N c → size c = size b →
  ∃ b', or_assign b c = Ok b' ∧ wf N b' ∧ size b' = size b ∧ bits b' = zip_with orb (bits b) (bits c).
Proof.
  intros Hw Hc Hs. destruct (or_bits N HN b c Hw Hc Hs) as (b' & HE & HB). exists b'.
  rewrite (has_bits_list _ _ _ _ _ HB). destruct HB as (Hw' & Hs' & _). do 3 (split; [done|]).
  unfold bits_of, has. by rewrite Hs, zip_with_map_seqZ.
Qed.

Lemma and_list b c : wf N b → wf N c → size c = size b →
  ∃ b', and_assign b c = Ok b' ∧ wf N b' ∧ size b' = size b ∧ bits b' = zip_with andb (bits b) (bits c).
Proof.
  intros Hw Hc Hs. destruct (and_bits N HN b c Hw Hc Hs) as (b' & HE & HB). exists b'.
  rewrite (has_bits_list _ _ _ _ _ HB). destruct HB as (Hw' & Hs' & _). do 3 (split; [done|]).
  unfold bits_of, has. by rewrite Hs, zip_with_map_seqZ.
Qed.

Lemma fill_list b s e v : wf N b → 0 <= s <= e → e <= size b →
  ∃ b', fill rev b s e v = Ok b' ∧ wf N b' ∧ size b' = size b ∧
    bits b' = spec.fill (Z.to_nat s) (Z.to_nat e) v (bits b).
Proof.
  intros Hw Hs He. destruct (fill_bits N rev HN b s e v Hw Hs He) as (b' & HE & HB). exists b'.
  rewrite (has_bits_list _ _ _ _ _ HB). destruct HB as (Hw' & Hs' & _). do 3 (split; [done|]).
  unfold spec.fill. apply list_eq. intros i. rewrite lookup_map_seqZ.
  destruct (decide (Z.of_nat i < size b)) as [Hi|Hi].
  - rewrite (phys_within N) by (done || lia). destruct (decide (i < Z.to_nat s))%nat.
    + rewrite lookup_app_l by (rewrite length_take, length_bits; lia). rewrite lookup_take_lt by lia.
      replace (_ && _) with false by lia. by rewrite bits_lookup, decide_True by lia.
    + rewrite lookup_app_r by (rewrite length_take, length_bits; lia). rewrite length_take, length_bits.
      destruct (decide (i < Z.to_nat e))%nat.
      * rewrite lookup_app_l by (rewrite length_replicate; lia). rewrite lookup_replicate_2 by lia.
        by replace (_ && _) with true by lia.
      * rewrite lookup_app_r by (rewrite length_replicate; lia). rewrite length_replicate, lookup_drop, bits_lookup.
        rewrite decide_True by lia. replace (_ && _) with false by lia. unfold has. do 3 f_equal. lia.
  - symmetry. apply lookup_ge_None_2. rewrite !length_app, length_take, length_replicate, length_drop, length_bits. lia.
Qed.

(** ** Queries *)

Lemma phys_inv n i : 0 <= i < n → phys rev n (phys rev n i) = i ∧ 0 <= phys rev n i < n.
Proof. unfold phys. destruct rev; lia. Qed.

Lemma sub_elem b s e x : wf N b → 0 <= s → e <= size b →
  x ∈ spec.sub (bits b) (Z.to_nat s) (Z.to_nat e) ↔ ∃ i, s <= i < e ∧ has rev b i = x.
Proof.
  intros Hw Hs He. rewrite list_elem_of_lookup. split.
  - intros [k Hk]. rewrite sub_lookup, bits_lookup in Hk. destruct (decide _) in Hk; [|done]. destruct (decide _) in Hk; [|done]. injection Hk as <-.
    eexists. split; [|done]. lia.
  - intros (i & Hi & <-). exists (Z.to_nat (i - s)). rewrite sub_lookup, bits_lookup, !decide_True by lia. do 2 f_equal. lia.
Qed.

Lemma bits_elem b x : wf N b → x ∈ bits b ↔ ∃ i, 0 <= i < size b ∧ has rev b i = x.
Proof.
  intros Hw. rewrite <- (sub_elem b 0 (size b)) by (done || lia).
  rewrite <- (length_bits rev b). by rewrite sub_all.
Qed.

Lemma all_list b : wf N b → all b = Ok (forallb id (bits b)).
Proof.
  intros Hw. destruct (all_bits N HN b Hw) as (v & -> & Hv). f_equal. apply eq_true_iff_eq.
  rewrite Hv, forallb_elem. split.
  - intros H x (i & Hi & <-)%bits_elem; [|done]. apply H. by apply phys_inv.
  - intros H p Hp. apply H, bits_elem; [done|]. exists (phys rev (size b) p). destruct (phys_inv (size b) p Hp) as [HI ?].
    split; [done|]. unfold has. by rewrite HI.
Qed.

Lemma any_list b : wf N b → any b = Ok (existsb id (bits b)).
Proof.
  intros Hw. destruct (any_bits N HN b Hw) as (v & -> & Hv). f_equal. apply eq_true_iff_eq.
  rewrite Hv, existsb_elem, bits_elem by done. split.
  - intros (p & Hp & HB). exists (phys rev (size b) p). destruct (phys_inv (size b) p Hp) as [HI ?].
    split; [done|]. unfold has. by rewrite HI.
  - intros (i & Hi & HB). exists (phys rev (size b) i). split; [by apply phys_inv|done].
Qed.

Lemma within_phys b s e p : 0 <= s → e <= size b → within (phys_range rev (size b) s e) p = true →
  s <= phys rev (size b) p < e ∧ phys rev (size b) (phys rev (size b) p) = p.
Proof. unfold within, phys_range, phys. destruct rev; cbn [fst snd]; lia. Qed.

Lemma phys_within_true b s e i : 0 <= s → e <= size b → s <= i < e →
  within (phys_range rev (size b) s e) (phys rev (size b) i) = true.
Proof. unfold within, phys_range, phys. destruct rev; cbn [fst snd]; lia. Qed.

Lemma all_range_list b s e : wf N b → 0 <= s <= e → e <= size b →
  all_range rev b s e = Ok (forallb id (spec.sub (bits b) (Z.to_nat s) (Z.to_nat e))).
Proof.
  intros Hw Hs He. destruct (all_range_bits N rev HN b s e Hw Hs He) as (v & -> & Hv). f_equal.
  apply eq_true_iff_eq. rewrite Hv, forallb_elem. split.
  - intros H x (i & Hi & <-)%sub_elem; [|done|lia|done]. apply H. apply phys_within_true; lia.
  - intros H p Hp. apply within_phys in Hp as [Hi HI]; [|lia|done]. apply H, sub_elem; [done|lia|done|].
    eexists. split; [done|]. unfold has. by rewrite HI.
Qed.

Lemma any_range_list b s e : wf N b → 0 <= s <= e → e <= size b →
  any_range rev b s e = Ok (existsb id (spec.sub (bits b) (Z.to_nat s) (Z.to_nat e))).
Proof.
  intros Hw Hs He. destruct (any_range_bits N rev HN b s e Hw Hs He) as (v & -> & Hv). f_equal.
  apply eq_true_iff_eq. rewrite Hv, existsb_elem, sub_elem by (done || lia). split.
  - intros (p & Hp & HB). apply within_phys in Hp as [Hi HI]; [|lia|done]. eexists. split; [done|].
    unfold has. by rewrite HI.
  - intros (i & Hi & HB). exists (phys rev (size b) i). split; [|done]. apply phys_within_true; lia.
Qed.

Lemma eqb_list b c : wf N b → wf N c → eqb b c = Ok (bool_decide (bits b = bits c)).
Proof.
  intros Hw Hc. pose proof (wf_size b Hw). pose proof (wf_size c Hc).
  destruct (eqb_bits N HN b c Hw Hc) as (v & -> & Hv). f_equal.
  apply eq_true_iff_eq. rewrite Hv, bool_decide_eq_true. split.
  - intros [Hs HB]. unfold bits_of. rewrite <- Hs. apply map_ext_in. intros i Hi.
    apply list_elem_of_In, elem_of_seqZ in Hi. unfold has. rewrite <- Hs. apply HB. apply phys_inv. lia.
  - intros HE. assert (Hs : size b = size c).
    { apply (f_equal length) in HE. rewrite !length_bits in HE. lia. }
    split; [done|]. intros p Hp. destruct (phys_inv (size b) p Hp) as [HI HP].
    apply (f_equal (λ l, nth (Z.to_nat (phys rev (size b) p)) l false)) in HE.
    rewrite !bits_nth in HE by (done || lia). unfold has in HE. rewrite <- Hs in HE. by rewrite HI in HE.
Qed.

(** ** Counting *)

Lemma ones_has b : wf N b → ones (has rev b) (Z.to_nat (size b)) = ones (bit (buffer b)) (Z.to_nat (size b)).
Proof.
  intros Hw. pose proof (wf_size b Hw). unfold has, phys. destruct rev; [|done].
  rewrite <- (ones_rev (bit (buffer b))). apply ones_ext. intros p Hp. f_equal. lia.
Qed.

Lemma count_list b : wf N b → count b = Ok (spec.count (bits b)).
Proof.
  intros Hw. rewrite (count_bits N HN b Hw). f_equal. rewrite <- ones_has by done.
  rewrite <- count_map. pose proof (wf_size b Hw). unfold bits_of. by rewrite Z2Nat.id by lia.
Qed.

(** ** Searches *)

Lemma find_lowest_list b s e v : wf N b → 0 <= s <= e → e <= size b →
  find_lowest_range rev b s e v = Ok (spec.lowest (Z.to_nat s) (Z.to_nat e) v (bits b)).
Proof.
  intros Hw Hs He. destruct (find_lowest_spec N rev HN b s e v Hw Hs He) as (r & -> & HR). f_equal.
  unfold spec.lowest. destruct HR as [[-> HR]|(Hr & Hv & HR)].
  - assert (HNone : list_find (λ x, x = v) (spec.sub (bits b) (Z.to_nat s) (Z.to_nat e)) = None); [|by rewrite HNone].
    apply list_find_None, Forall_forall. intros x (i & Hi & <-)%sub_elem; [|done|lia|done]. by apply HR.
  - assert (HSome : list_find (λ x, x = v) (spec.sub (bits b) (Z.to_nat s) (Z.to_nat e)) = Some (Z.to_nat (r - s), v)).
    { apply list_find_Some. rewrite sub_lookup, bits_lookup, !decide_True by lia.
      replace (Z.of_nat (Z.to_nat s + Z.to_nat (r - s))) with r by lia. rewrite Hv. split; [done|]. split; [done|].
      intros j y Hj Hlt ->. rewrite sub_lookup, bits_lookup, !decide_True in Hj by lia.
      injection Hj as Hj. revert Hj. apply HR. lia. }
    rewrite HSome. lia.
Qed.

Lemma find_highest_list b s e v : wf N b → 0 <= s <= e → e <= size b → (if rev then s < size b else 0 < e) →
  find_highest_range rev b s e v = Ok (spec.highest (Z.to_nat s) (Z.to_nat e) v (bits b)).
Proof.
  intros Hw Hs He Hne. destruct (find_highest_spec N rev HN b s e v Hw Hs He Hne) as (r & -> & HR). f_equal.
  unfold spec.highest. destruct HR as [[-> HR]|(Hr & Hv & HR)].
  - assert (HNone : list_find (λ x, x = v) (reverse (spec.sub (bits b) (Z.to_nat s) (Z.to_nat e))) = None);
      [|by rewrite HNone].
    apply list_find_None, Forall_reverse, Forall_forall. intros x (i & Hi & <-)%sub_elem; [|done|lia|done]. by apply HR.
  - assert (HL : length (spec.sub (bits b) (Z.to_nat s) (Z.to_nat e)) = Z.to_nat (e - s))
      by (rewrite length_sub by (rewrite length_bits; lia); lia).
    assert (HSome : list_find (λ x, x = v) (reverse (spec.sub (bits b) (Z.to_nat s) (Z.to_nat e))) =
      Some (Z.to_nat (e - 1 - r), v)).
    { apply list_find_Some. rewrite reverse_lookup by lia. rewrite HL, sub_lookup, bits_lookup, !decide_True by lia.
      replace (Z.of_nat (Z.to_nat s + (Z.to_nat (e - s) - S (Z.to_nat (e - 1 - r))))) with r by lia.
      rewrite Hv. split; [done|]. split; [done|]. intros j y Hj Hlt ->.
      rewrite reverse_lookup, HL, sub_lookup, bits_lookup, !decide_True in Hj by lia.
      injection Hj as Hj. revert Hj. apply HR. lia. }
    rewrite HSome. lia.
Qed.

(** An empty range at the start of memory: the search runs on to the first bit with the value,
    wherever it is, or past the end of the array. *)
Definition found_from_start (b : t) (v : bool) (r : result Z) : Prop :=
  (∃ p, 0 <= p < 64 * zlen (buffer b) ∧ bit (buffer b) p = v ∧ (∀ q, 0 <= q < p → bit (buffer b) q ≠ v) ∧ r = Ok p) ∨
  ((∀ q, 0 <= q < 64 * zlen (buffer b) → bit (buffer b) q ≠ v) ∧ r = Fault OutOfBounds).

Lemma find_first_runs_on b v fuel : wf N b → ∀ i, 0 <= i <= zlen (buffer b) → zlen (buffer b) - i < Z.of_nat fuel →
  (∀ q, 0 <= q < 64 * i → bit (buffer b) q ≠ v) → found_from_start b v (find_first_loop fuel b 0 0 0 (2 ^ 58 - 1) v i).
Proof.
  intros Hw. pose proof Hw as (Hz & Hu & Hn & _). unfold max_nof_words_, bits_per_word in Hz.
  induction fuel as [|fuel IH]; intros i Hi Hf Hq; [lia|]. cbn [find_first_loop]. replace (2 ^ 58 - 1 <? i) with false by lia.
  destruct (decide (i = zlen (buffer b))) as [->|Hne]; [right; split; [done|]; by rewrite vec_at_past|].
  rewrite vec_at_word by lia. cbn [mbind result_bind]. replace (i =? 2 ^ 58 - 1) with false by lia.
  destruct (search_word (buffer b) i 0 (64 * (i + 2)) v Hu) as [H64 HB]; [lia|lia|lia|]. cbn zeta in *. change (0 / 64) with 0 in *. change (0 mod bits_per_word) with (0 mod 64).
  replace ((64 * (i + 2) - 1) / 64) with (i + 1) in * by lia. replace (i =? i + 1) with false in * by lia.
  set (w := if i =? 0 then _ else _) in *. clearbody w.
  assert (HB' : ∀ k, 0 <= k < 64 → Z.testbit w k = Bool.eqb (bit (buffer b) (64 * i + k)) v)
    by (intros k Hk; rewrite HB by done; replace (0 <=? 64 * i + k) with true by lia; replace (64 * i + k <? 64 * (i + 2)) with true by lia; by rewrite andb_true_r).
  destruct (Z.eqb_spec w 0) as [->|Hw0]; cbn [negb].
  - apply IH; [lia|lia|]. intros q Hqr. destruct (decide (q < 64 * i)) as [|Hge]; [by apply Hq; lia|]. specialize (HB' (q - 64 * i) ltac:(lia)). rewrite Z.bits_0 in HB'.
    replace (64 * i + (q - 64 * i)) with q in HB' by lia. intros E. by rewrite E, Bool.eqb_reflx in HB'.
  - destruct (lsb_spec w H64 Hw0) as (HT & HR & HZ). left. exists (64 * i + find_first_lsb_one w). split; [lia|]. rewrite HB' in HT by done. split; [by apply Bool.eqb_prop|].
    split; [|unfold bits_per_word; rewrite swrap_small by lia_fits; f_equal; lia]. intros q Hqr. destruct (decide (q < 64 * i)) as [|Hge]; [by apply Hq; lia|].
    specialize (HZ (q - 64 * i) ltac:(lia)). rewrite HB' in HZ by lia. replace (64 * i + (q - 64 * i)) with q in HZ by lia. intros E. by rewrite E, Bool.eqb_reflx in HZ.
Qed.

Lemma find_first_from_start b v : wf N b → found_from_start b v (find_first_ b 0 0 v).
Proof.
  intros Hw. unfold find_first_, bits_per_word. change (wrap 64 (0 - 1) / 64) with (2 ^ 58 - 1). change (0 / 64) with 0.
  apply find_first_runs_on; [done|unfold zlen; lia|unfold zlen; lia|intros q Hq; lia].
Qed.

(** The highest bit of the whole set, if there is one with the value. *)
Lemma highest_unique b v p : wf N b → rev = true → 0 <= p < size b → bit (buffer b) p = v → (∀ q, 0 <= q < p → bit (buffer b) q ≠ v) →
  spec.highest 0 (Z.to_nat (size b)) v (bits b) = size b - 1 - p.
Proof.
  intros Hw Hrev Hp Hv Hq. destruct (find_highest_spec N rev HN b 0 (size b) v Hw) as (r & HE & HR); [lia|lia|by rewrite Hrev; lia|].
  rewrite (find_highest_list b 0 (size b) v Hw) in HE by (lia || (rewrite Hrev; lia)). change (Z.to_nat 0) with 0%nat in HE. injection HE as ->.
  unfold has, phys in HR. rewrite Hrev in HR. destruct HR as [[_ HR]|(Hr & Hrv & HR)].
  - exfalso. apply (HR (size b - 1 - p)); [lia|]. by replace (size b - 1 - (size b - 1 - p)) with p by lia.
  - destruct (Z.lt_trichotomy r (size b - 1 - p)) as [Hlt|[->|Hgt]]; [|done|].
    + exfalso. apply (HR (size b - 1 - p)); [lia|]. by replace (size b - 1 - (size b - 1 - p)) with p by lia.
    + exfalso. apply (Hq (size b - 1 - r)); [lia|done].
Qed.

Lemma highest_none b v : wf N b → rev = true → (∀ q, 0 <= q < size b → bit (buffer b) q ≠ v) → spec.highest 0 (Z.to_nat (size b)) v (bits b) = -1.
Proof.
  intros Hw Hrev Hq. unfold spec.highest. assert (HNone : list_find (λ x, x = v) (reverse (spec.sub (bits b) 0 (Z.to_nat (size b)))) = None); [|by rewrite HNone].
  apply list_find_None, Forall_reverse, Forall_forall. change 0%nat with (Z.to_nat 0). intros x (i & Hi & <-)%sub_elem; [|done|lia|done]. unfold has, phys. rewrite Hrev. apply Hq. lia.
Qed.

(** The search for the highest bit of the empty range at the top of a reversed set. *)
Lemma find_highest_top b v : wf N b → rev = true →
  find_highest_range rev b (size b) (size b) v =
    let h := spec.highest 0 (Z.to_nat (size b)) v (bits b) in
    if negb (h =? -1) then Ok h else if negb v && (size b <? 64 * max_nof_words_ N) then Ok (-1) else Fault OutOfBounds.
Proof.
  intros Hw Hrev. pose proof (wf_size b Hw). pose proof Hw as (Hz & _ & _ & H0). unfold find_highest_range, assert_range_bounds_. pass_assume. rewrite Hrev. cbn zeta. rewrite <- Hrev. rewrite Z.sub_diag.
  destruct (find_first_from_start b v Hw) as [(p & Hp & Hv & Hq & ->)|[Hq ->]]; cbn [mbind result_bind].
  - replace (p =? -1) with false by lia. unfold max_nof_words_, bits_per_word in Hz. rewrite swrap_small by (unfold sfits in *; lia). destruct (Z.lt_ge_cases p (size b)) as [Hlt|Hge].
    + rewrite (highest_unique b v p Hw Hrev) by (done || lia). by replace (size b - 1 - p =? -1) with false by lia.
    + assert (E : v = false) by (rewrite <- Hv; by apply H0). rewrite E in *. clear E v. assert (p = size b) as ->.
      { destruct (decide (p = size b)) as [|Hne]; [done|]. exfalso. apply (Hq (size b)); [lia|]. by apply H0. }
      rewrite highest_none; [|done|done|intros q Hqr; apply Hq; lia]. cbn [negb andb]. unfold max_nof_words_, bits_per_word. rewrite Z.eqb_refl. cbn [negb]. rewrite (proj2 (Z.ltb_lt _ _)) by lia. f_equal. lia.
  - rewrite highest_none; [|done|done|]. 2: { intros q Hqr. apply Hq. unfold max_nof_words_, bits_per_word in Hz. lia. }
    rewrite Z.eqb_refl. cbn [negb]. destruct v; [done|]. cbn [negb andb]. rewrite <- Hz. destruct (Z.ltb_spec (size b) (64 * zlen (buffer b))); [|done].
    exfalso. apply (Hq (size b)); [lia|]. by apply H0.
Qed.

(** ... and of the empty range at the start of the other sets. *)
Lemma find_highest_bottom b v : wf N b → rev = false → find_highest_range rev b 0 0 v = Fault OutOfBounds.
Proof.
  intros Hw Hrev. pose proof (wf_size b Hw). pose proof Hw as (Hz & _ & _ & _). unfold max_nof_words_, bits_per_word in Hz. unfold find_highest_range, assert_range_bounds_. pass_assume. rewrite Hrev.
  unfold find_last_, bits_per_word. change (wrap 64 (0 - 1) / 64) with (2 ^ 58 - 1). change (0 / 64) with 0. cbn [find_last_loop]. replace (2 ^ 58 - 1 =? wrap 64 (0 - 1)) with false by done.
  by rewrite vec_at_past by lia.
Qed.

(** ** Contiguity *)

(** An empty range at the start of memory: the search runs on and finds bit 0. *)
Lemma find_first_empty b v : wf N b → 0 < size b → bit (buffer b) 0 = v → find_first_ b 0 0 v = Ok 0.
Proof.
  intros Hw Hs Hv. pose proof (wf_words N b Hw). pose proof Hw as (_ & Hu & _ & _).
  unfold find_first_, bits_per_word. change (wrap 64 (0 - 1) / 64) with (2 ^ 58 - 1). change (0 / 64) with 0.
  cbn [find_first_loop]. replace (2 ^ 58 - 1 <? 0) with false by done.
  rewrite vec_at_word by (unfold nof_words_, bits_per_word, size in *; lia). cbn [mbind result_bind].
  change (0 =? 0) with true. replace (0 =? 2 ^ 58 - 1) with false by done.
  set (w0 := if v then _ else _). assert (Hw0 : u64 w0)
    by (unfold w0; destruct v; [by apply word_u64|apply u64_wnot]).
  set (w := Z.land w0 _).
  assert (Hbit : Z.testbit w 0 = true).
  { unfold w. rewrite Z.land_spec, mask_lsb_zeros_bit by (change (0 mod bits_per_word) with 0; lia).
    unfold bit in Hv. change (0 / 64) with 0 in Hv. change (0 mod 64) with 0 in Hv. unfold w0.
    destruct v; [by rewrite Hv|]. rewrite wnot_bit, Hv by lia. done. }
  assert (H64 : u64 w) by (apply u64_land; [done|]; apply (wrap_fits 64 _); lia).
  assert (Hne : w ≠ 0) by (intros ->; by rewrite Z.bits_0 in Hbit).
  rewrite (proj2 (Z.eqb_neq w 0) Hne). cbn [negb]. destruct (lsb_spec w H64 Hne) as (_ & HR & HZ).
  destruct (decide (find_first_lsb_one w = 0)) as [->|]; [done|]. by rewrite HZ in Hbit by lia.
Qed.

Lemma is_contiguous_list b v : wf N b → is_contiguous rev b v = Ok (spec.contiguous v (bits b)).
Proof.
  intros Hw. pose proof (wf_size b Hw). unfold is_contiguous.
  assert (HB : bits b = map (has rev b) (seqZ 0 (Z.of_nat (Z.to_nat (size b))))) by (by rewrite Z2Nat.id by lia).
  rewrite HB. clear HB.
  destruct (find_lowest_spec N rev HN b 0 (size b) v Hw) as (r & -> & HR); [lia..|]. cbn [mbind result_bind].
  destruct HR as [[-> HR]|(Hr & Hv & HR)].
  { rewrite contiguous_none; [done|]. intros i Hi. apply HR. lia. }
  rewrite (proj2 (Z.eqb_neq r (-1))) by lia.
  assert (HC : ones (λ i, Bool.eqb (has rev b i) v) (Z.to_nat (size b)) =
    if v then ones (bit (buffer b)) (Z.to_nat (size b)) else size b - ones (bit (buffer b)) (Z.to_nat (size b)))
    by (rewrite ones_eqb, ones_has, Z2Nat.id by (done || lia); done).
  destruct (decide (rev = true ∧ r + 1 = size b)) as [[Hrev Hlast]|Hne].
  { assert (find_highest_range rev b (r + 1) (size b) v = Ok r) as ->.
    { unfold find_highest_range, assert_range_bounds_. pass_assume. rewrite Hrev.
      replace (size b - size b) with 0 by lia. replace (size b - (r + 1)) with 0 by lia.
      rewrite find_first_empty; [|done|lia|]. 2: { unfold has, phys in Hv. rewrite Hrev in Hv. rewrite <- Hv. f_equal. lia. }
      cbn [mbind result_bind]. rewrite swrap_small by lia_fits. replace (0 =? -1) with false by done. f_equal. lia. }
    cbn [mbind result_bind]. rewrite (proj2 (Z.eqb_neq r (-1))) by lia.
    rewrite (count_bits N HN b Hw). cbn [mbind result_bind]. by rewrite <- HC, (contiguous_count _ v _ r r) by (done || lia). }
  destruct (find_highest_spec N rev HN b (r + 1) (size b) v Hw) as (h & -> & HH); [lia|lia|destruct rev; [naive_solver lia|lia]|].
  cbn [mbind result_bind]. destruct HH as [[-> HH]|(Hh & Hv' & HH)].
  - rewrite (contiguous_single _ v _ r); [done|lia|done|]. intros i Hi Hne'.
    destruct (decide (i < r)); [apply HR|apply HH]; lia.
  - rewrite (proj2 (Z.eqb_neq h (-1))) by lia. rewrite (count_bits N HN b Hw). cbn [mbind result_bind].
    rewrite <- HC, (contiguous_count _ v _ r h); try done; try lia.
    intros i Hi. apply HH. lia.
Qed.

(** ** Visits *)

Lemma get_bit_positions_loop_list b v fuel : ∀ i, wf N b → 0 <= i <= size b → size b - i < Z.of_nat fuel →
  get_bit_positions_loop rev fuel b v i = Ok (spec.positions i (size b) v (bits b)).
Proof.
  induction fuel as [|fuel IH]; intros i Hw Hi Hf; [lia|]. cbn [get_bit_positions_loop]. unfold spec.positions.
  destruct (Z.ltb_spec i (size b)); cbn [negb]; [|by rewrite seqZ_nil by lia].
  destruct (find_lowest_spec N rev HN b i (size b) v Hw) as (r & -> & HR); [lia..|]. cbn [mbind result_bind].
  assert (HF : ∀ j, i <= j < size b → Bool.eqb (nth (Z.to_nat j) (bits b) false) v = true ↔ has rev b j = v).
  { intros j Hj. rewrite bits_nth by (done || lia). apply Bool.eqb_true_iff. }
  destruct HR as [[-> HR]|(Hr & Hv & HR)].
  - rewrite filter_seqZ_none; [done|]. intros j Hj. apply not_true_iff_false. rewrite HF by lia. apply HR. lia.
  - replace (r <? 0) with false by lia. rewrite IH by (done || lia). cbn [mbind result_bind]. f_equal.
    rewrite (seqZ_split i r (size b - i)) by lia. rewrite List.filter_app, filter_seqZ_none.
    + cbn [List.filter app]. rewrite (proj2 (HF r ltac:(lia)) Hv). unfold spec.positions. do 3 f_equal. lia.
    + intros j Hj. apply not_true_iff_false. rewrite HF by lia. apply HR. lia.
Qed.

Lemma get_bit_positions_list b v : wf N b →
  get_bit_positions rev b v = Ok (spec.positions 0 (size b) v (bits b)).
Proof. intros Hw. pose proof (wf_size b Hw). apply get_bit_positions_loop_list; (done || lia). Qed.

(** ** Writing one bit after another *)

Lemma set_loop_list b base n (g : Z → result bool) f : wf N b → 0 <= base → 0 <= n → base + n <= size b →
  (∀ i, 0 <= i < n → g i = Ok (f i)) →
  ∃ b', fold_result (λ b i, v ← g i; set rev b (base + i) v) b (seqZ 0 n) = Ok b' ∧ wf N b' ∧ size b' = size b ∧
    bits b' = take (Z.to_nat base) (bits b) ++ map f (seqZ 0 n) ++ drop (Z.to_nat (base + n)) (bits b).
Proof.
  intros Hw Hbase Hn. pattern n. apply natlike_ind; [|clear n Hn; intros n Hn IH|done]; intros Hle Hg.
  { exists b. rewrite Z.add_0_r. simpl. by rewrite take_drop. }
  destruct IH as (b1 & HE & Hw1 & Hs1 & HB1); [lia|intros; apply Hg; lia|].
  rewrite <- Z.add_1_r, seqZ_app, fold_result_app, HE by lia. cbn [mbind result_bind].
  rewrite (seqZ_cons _ 1) by lia. rewrite (seqZ_nil _ (Z.pred 1)) by done. cbn [fold_result].
  rewrite Z.add_0_l, Hg by lia. cbn [mbind result_bind].
  destruct (set_list b1 (base + n) (f n) Hw1) as (b2 & HE2 & Hw2 & Hs2 & HB2); [lia|].
  rewrite HE2. cbn [mbind result_bind]. exists b2. split; [done|]. split; [done|]. split; [lia|].
  rewrite HB2, HB1, map_app. pose proof (length_bits rev b).
  rewrite insert_app_r_alt by (rewrite length_take; lia). f_equal. rewrite length_take.
  rewrite insert_app_r_alt by (rewrite length_map, length_seqZ; lia). rewrite <- app_assoc. f_equal.
  rewrite length_map, length_seqZ. replace (Z.to_nat (base + n) - _ - _)%nat with 0%nat by lia.
  destruct (drop (Z.to_nat (base + n)) (bits b)) as [|x r] eqn:E.
  { apply (f_equal length) in E. rewrite length_drop in E. simpl in E. lia. }
  simpl. f_equal. replace (Z.to_nat (base + (n + 1))) with (Z.to_nat (base + n) + 1)%nat by lia.
  by rewrite <- drop_drop, E.
Qed.

(** Moving every bit down by [n]. *)
Lemma shift_loop_list b n k : wf N b → 0 <= n → 0 <= k → k + n <= size b →
  ∃ b', fold_result (λ b i, v ← test rev b (i + n); set rev b i v) b (seqZ 0 k) = Ok b' ∧ wf N b' ∧ size b' = size b ∧
    bits b' = take (Z.to_nat k) (drop (Z.to_nat n) (bits b)) ++ drop (Z.to_nat k) (bits b).
Proof.
  intros Hw Hn Hk. pattern k. apply natlike_ind; [|clear k Hk; intros k Hk IH|done]; intros Hle.
  { exists b. done. }
  destruct IH as (b1 & HE & Hw1 & Hs1 & HB1); [lia|]. pose proof (length_bits rev b).
  rewrite <- Z.add_1_r, seqZ_app, fold_result_app, HE by lia. cbn [mbind result_bind].
  rewrite (seqZ_cons _ 1) by lia. rewrite (seqZ_nil _ (Z.pred 1)) by done. cbn [fold_result]. rewrite Z.add_0_l.
  destruct (lookup_lt_is_Some_2 (bits b) (Z.to_nat (k + n))) as [x Hx]; [lia|].
  rewrite test_list by (done || lia).
  assert (bits b1 !! Z.to_nat (k + n) = Some x) as ->.
  { rewrite HB1, lookup_app_r by (rewrite length_take, length_drop; lia).
    rewrite length_take, length_drop, lookup_drop, <- Hx. f_equal. lia. }
  cbn [mbind result_bind]. destruct (set_list b1 k x Hw1) as (b2 & HE2 & Hw2 & Hs2 & HB2); [lia|].
  rewrite HE2. cbn [mbind result_bind]. exists b2. split; [done|]. split; [done|]. split; [lia|]. rewrite HB2, HB1.
  rewrite insert_app_r_alt by (rewrite length_take, length_drop; lia).
  rewrite length_take, length_drop. replace (Z.to_nat k - _)%nat with 0%nat by lia.
  replace (Z.to_nat (k + 1)) with (S (Z.to_nat k)) by lia.
  rewrite (take_S_r _ _ x), <- app_assoc.
  2: { rewrite lookup_drop, <- Hx. f_equal. lia. }
  f_equal. destruct (drop (Z.to_nat k) (bits b)) as [|y r] eqn:E.
  { apply (f_equal length) in E. rewrite length_drop in E. simpl in E. lia. }
  simpl. f_equal. rewrite <- Nat.add_1_r, <- drop_drop, E. done.
Qed.

Lemma push_back_bits_list width b val n : wf N b → 0 <= n → size b + n <= N → n <= Z.max 32 width →
  ∃ b', push_back_bits N rev width b val n = Ok b' ∧ wf N b' ∧ size b' = size b + n ∧
    bits b' = bits b ++ spec.digits val (Z.to_nat n).
Proof.
  intros Hw Hn Hle Hwid. pose proof (wf_size b Hw). unfold push_back_bits.
  rewrite wrap_small by lia_fits.
  destruct (resize_list b (size b + n) Hw) as (b1 & HE1 & Hw1 & Hs1 & HB1); [lia|].
  rewrite HE1. cbn [mbind result_bind].
  assert (∃ b2, (if rev then fold_result (λ b i, v ← test rev b (i + n); set rev b i v) b1 (seqZ 0 (size b)) else Ok b1) = Ok b2 ∧
    wf N b2 ∧ size b2 = size b + n ∧ take (Z.to_nat (size b)) (bits b2) = bits b) as (b2 & HE2 & Hw2 & Hs2 & HB2).
  { unfold spec.resize in HB1. rewrite !length_bits in HB1. pose proof (length_bits rev b).
    replace (Z.to_nat (size b + n) - Z.to_nat (size b))%nat with (Z.to_nat n) in HB1 by lia.
    destruct rev eqn:Erev.
    - rewrite <- Erev in *. destruct (shift_loop_list b1 n (size b) Hw1) as (b2 & HE2 & Hw2 & Hs2 & HB2); [lia..|].
      exists b2. split; [done|]. split; [done|]. split; [lia|]. rewrite HB2, HB1.
      replace (Z.to_nat (size b) - Z.to_nat (size b + n))%nat with 0%nat by lia. rewrite drop_0.
      rewrite drop_app_length' by (by rewrite length_replicate).
      rewrite (take_ge (bits b)) by lia. rewrite take_app_length' by lia. done.
    - exists b1. split; [done|]. split; [done|]. split; [done|]. rewrite HB1, (take_ge (bits_of false b)) by lia.
      by rewrite take_app_length' by lia. }
  rewrite HE2. cbn [mbind result_bind].
  destruct (set_loop_list b2 (size b) n (λ i, v ← shr width val (n - 1 - i); Ok (negb (Z.land v 1 =? 0)))
    (λ i, Z.testbit val (n - 1 - i)) Hw2) as (b3 & HE3 & Hw3 & Hs3 & HB3); [lia..| |].
  { intros i Hi. unfold shr. pass_assume. f_equal. change 1 with (maskbit 0). rewrite land_maskbit.
    change (0 mod 64) with 0. rewrite Z.shiftr_spec by lia. by f_equal. }
  exists b3. split.
  - rewrite <- HE3. apply fold_result_ext. intros a i Hi. by rewrite bind_assoc.
  - split; [done|]. split; [lia|]. rewrite HB3, HB2. f_equal. unfold spec.digits. rewrite Z2Nat.id by lia.
    rewrite drop_ge by (rewrite length_bits; lia). apply app_nil_r.
Qed.

(** Appending one bit.  When the lowest information bit is the highest in memory the
    set shifts and its last bit is overwritten. *)
Lemma push_back_list b v : wf N b → size b + 1 <= N →
  ∃ b', push_back N rev b v = Ok b' ∧ wf N b' ∧ size b' = size b + 1 ∧
    bits b' = if rev then <[Z.to_nat (size b) := v]> (false :: bits b) else bits b ++ [v].
Proof.
  intros Hw Hle. pose proof (wf_size b Hw). unfold push_back. rewrite wrap_small by lia_fits.
  destruct (resize_list b (size b + 1) Hw) as (b1 & HE1 & Hw1 & Hs1 & HB1); [lia|].
  rewrite HE1. cbn [mbind result_bind].
  destruct (set_list b1 (size b) v Hw1) as (b2 & HE2 & Hw2 & Hs2 & HB2); [lia|]. exists b2.
  split; [done|]. split; [done|]. split; [lia|]. rewrite HB2, HB1. unfold spec.resize. rewrite !length_bits.
  replace (Z.to_nat (size b + 1) - Z.to_nat (size b))%nat with 1%nat by lia.
  replace (Z.to_nat (size b) - Z.to_nat (size b + 1))%nat with 0%nat by lia. destruct rev; [done|].
  rewrite take_ge by (rewrite length_bits; lia). rewrite insert_app_r_alt by (rewrite length_bits; lia).
  by rewrite length_bits, Nat.sub_diag.
Qed.

Lemma lor_next a m : 0 <= m → 0 <= a → Z.lor (2 * a * 2 ^ m) (2 ^ m) = (2 * a + 1) * 2 ^ m.
Proof.
  intros Hm Ha. rewrite <- (Z.mul_1_l (2 ^ m)) at 2. rewrite <- !Z.shiftl_mul_pow2, <- Z.shiftl_lor by lia. f_equal.
  rewrite (Z.mul_comm 2 a). change 2 with (2 ^ 1) at 1. rewrite <- Z.shiftl_mul_pow2 by lia.
  by rewrite lor_shiftl_add by done.
Qed.

Lemma extract_loop_list b s n k : wf N b → 0 <= s → 0 <= k <= n → s + n <= size b → n <= 32 →
  fold_result (λ val i,
    v ← test rev b (wrap 32 (s + i));
    if (v : bool) then
      assume (n - 1 - i <? 32) BadShift;; Ok (Z.lor val (wrap 32 (1 ≪ (n - 1 - i))))
    else Ok val) 0 (seqZ 0 k) =
  Ok (spec.number (spec.sub (bits b) (Z.to_nat s) (Z.to_nat (s + k))) * 2 ^ (n - k)).
Proof.
  intros Hw Hs [Hk Hkn] Hle Hn. pose proof (wf_size b Hw). revert Hkn. pattern k.
  apply natlike_ind; [|clear k Hk; intros k Hk IH|done]; intros Hkn.
  { rewrite Z.add_0_r. unfold spec.sub. by rewrite Nat.sub_diag. }
  rewrite <- Z.add_1_r, seqZ_app, fold_result_app, IH by lia. cbn [mbind result_bind].
  rewrite (seqZ_cons _ 1) by lia. rewrite (seqZ_nil _ (Z.pred 1)) by done. cbn [fold_result]. rewrite Z.add_0_l.
  rewrite (wrap_small 32 (s + k)) by lia_fits. rewrite test_list by (done || lia).
  destruct (lookup_lt_is_Some_2 (bits b) (Z.to_nat (s + k))) as [x Hx]; [rewrite length_bits; lia|].
  rewrite Hx. cbn [mbind result_bind].
  assert (spec.sub (bits b) (Z.to_nat s) (Z.to_nat (s + (k + 1))) =
    spec.sub (bits b) (Z.to_nat s) (Z.to_nat (s + k)) ++ [x]) as ->.
  { unfold spec.sub. replace (Z.to_nat (s + (k + 1)) - Z.to_nat s)%nat with (S (Z.to_nat (s + k) - Z.to_nat s)) by lia.
    apply take_S_r. rewrite lookup_drop, <- Hx. f_equal. lia. }
  rewrite number_snoc. set (a := spec.number _). assert (0 <= a) by apply number_bounds.
  replace (n - k) with (n - 1 - k + 1) by lia. replace (n - (k + 1)) with (n - 1 - k) by lia.
  rewrite Z.pow_add_r by lia. change (2 ^ 1) with 2. destruct x; cbn [Z.b2z].
  - pass_assume. rewrite Z.shiftl_1_l, (wrap_small 32).
    + replace (a * (2 ^ (n - 1 - k) * 2)) with (2 * a * 2 ^ (n - 1 - k)) by lia. by rewrite lor_next by lia.
    + split; [lia|]. apply Z.pow_lt_mono_r; lia.
  - cbn [mbind result_bind]. f_equal. lia.
Qed.

Lemma extract_list width b s n : wf N b → 0 <= s → 0 <= n → s + n <= size b → n <= 32 → n <= width →
  extract rev width b s n = Ok (spec.number (spec.sub (bits b) (Z.to_nat s) (Z.to_nat (s + n)))).
Proof.
  intros Hw Hs Hn Hle H32 Hwid. pose proof (wf_size b Hw). unfold extract. pass_assume.
  rewrite (wrap_small 32 (s + n)) by lia_fits. pass_assume.
  rewrite extract_loop_list by (done || lia). by rewrite Z.sub_diag, Z.mul_1_r.
Qed.

(** The bits above the lowest 32: each one that is set shifts past the width of the constant. *)
Lemma extract_high_list b s n k : wf N b → 0 <= s → 32 < n → 0 <= k <= n - 32 → s + n <= size b →
  fold_result (λ val i,
    v ← test rev b (wrap 32 (s + i));
    if (v : bool) then
      assume (n - 1 - i <? 32) BadShift;; Ok (Z.lor val (wrap 32 (1 ≪ (n - 1 - i))))
    else Ok val) 0 (seqZ 0 k) =
  (if existsb id (spec.sub (bits b) (Z.to_nat s) (Z.to_nat (s + k))) then Fault BadShift else Ok 0).
Proof.
  intros Hw Hs Hn [Hk Hkn] Hle. pose proof (wf_size b Hw). revert Hkn. pattern k.
  apply natlike_ind; [|clear k Hk; intros k Hk IH|done]; intros Hkn.
  { rewrite Z.add_0_r. unfold spec.sub. by rewrite Nat.sub_diag. }
  rewrite <- Z.add_1_r, seqZ_app, fold_result_app, IH by lia.
  rewrite (seqZ_cons _ 1) by lia. rewrite (seqZ_nil _ (Z.pred 1)) by done. cbn [fold_result]. rewrite Z.add_0_l.
  destruct (lookup_lt_is_Some_2 (bits b) (Z.to_nat (s + k))) as [x Hx]; [rewrite length_bits; lia|].
  assert (spec.sub (bits b) (Z.to_nat s) (Z.to_nat (s + (k + 1))) =
    spec.sub (bits b) (Z.to_nat s) (Z.to_nat (s + k)) ++ [x]) as ->.
  { unfold spec.sub. replace (Z.to_nat (s + (k + 1)) - Z.to_nat s)%nat with (S (Z.to_nat (s + k) - Z.to_nat s)) by lia.
    apply take_S_r. rewrite lookup_drop, <- Hx. f_equal. lia. }
  rewrite existsb_app. destruct (existsb id (spec.sub _ _ _)); cbn [orb mbind result_bind]; [done|].
  rewrite (wrap_small 32 (s + k)) by lia_fits. rewrite test_list by (done || lia). rewrite Hx. cbn [mbind result_bind existsb orb id]. destruct x; [|done].
  by replace (n - 1 - k <? 32) with false by lia.
Qed.

Lemma extract_wide_list width b s n : wf N b → 0 <= s → 32 < n → s + n <= size b → n <= width →
  extract rev width b s n =
    if existsb id (spec.sub (bits b) (Z.to_nat s) (Z.to_nat (s + n - 32))) then Fault BadShift
    else Ok (spec.number (spec.sub (bits b) (Z.to_nat (s + n - 32)) (Z.to_nat (s + n)))).
Proof.
  intros Hw Hs Hn Hle Hwid. pose proof (wf_size b Hw). unfold extract. pass_assume. rewrite (wrap_small 32 (s + n)) by lia_fits. pass_assume.
  replace (seqZ 0 n) with (seqZ 0 ((n - 32) + 32)) by (f_equal; lia). rewrite seqZ_app, fold_result_app, extract_high_list by (done || lia). replace (s + (n - 32)) with (s + n - 32) by lia.
  destruct (existsb id _); [done|]. cbn [mbind result_bind]. rewrite Z.add_0_l. replace (seqZ (n - 32) 32) with (map (Z.add (n - 32)) (seqZ 0 32)) by (rewrite <- (Z.add_0_r (n - 32)) at 2; apply fmap_add_seqZ).
  rewrite <- fold_result_map. pose proof (extract_loop_list b (s + n - 32) 32 32 Hw ltac:(lia) ltac:(lia) ltac:(lia) ltac:(lia)) as HX. rewrite Z.sub_diag, Z.mul_1_r in HX.
  replace (s + n - 32 + 32) with (s + n) in HX by lia. rewrite <- HX. apply fold_result_ext. intros val i _. replace (s + (n - 32 + i)) with (s + n - 32 + i) by lia. by replace (n - 1 - (n - 32 + i)) with (32 - 1 - i) by lia.
Qed.

(** ** One-word sets as integers *)

Lemma memory_nth b i : wf N b → 0 <= i < size b →
  nth (Z.to_nat i) (if rev then bits b else reverse (bits b)) false = bit (buffer b) (size b - 1 - i).
Proof.
  intros Hw Hi. pose proof (length_bits rev b). pose proof (bits_nth b i Hw Hi) as H1.
  pose proof (bits_nth b (size b - 1 - i) Hw ltac:(lia)) as H2. unfold has, phys in *. destruct rev; [done|].
  rewrite <- H2, !nth_lookup, reverse_lookup by lia. do 2 f_equal. lia.
Qed.

Lemma length_memory b : zlen (if rev then bits b else reverse (bits b)) = Z.of_nat (Z.to_nat (size b)).
Proof. unfold zlen. destruct rev; by rewrite ?length_reverse, length_bits. Qed.

Lemma to_uint64_list b : wf N b → 1 <= size b <= 64 →
  to_uint64 b = Ok (spec.number (if rev then bits b else reverse (bits b))).
Proof.
  intros Hw Hs. pose proof (wf_words N b Hw). pose proof Hw as (_ & Hu & _ & Hz). unfold size in *.
  unfold to_uint64, nof_words_, bits_per_word, size in *. replace (_ =? 1) with true by lia. cbn [assume mbind result_bind].
  unfold get_word_, bits_per_word. change (0 / 64) with 0. rewrite vec_at_word by lia. f_equal. symmetry.
  assert (HW : ∀ k, 0 <= k < 64 → Z.testbit (word (buffer b) 0) k = bit (buffer b) k)
    by (intros k Hk; by rewrite <- (bit_at _ 0 k) by lia).
  apply number_unique.
  - rewrite length_memory. unfold size. rewrite Z2Nat.id by lia. pose proof (word_u64 (buffer b) 0 Hu) as Hw0.
    destruct (decide (word (buffer b) 0 = 0)) as [->|]; [split; lia|]. destruct Hw0. split; [done|].
    apply Z.log2_lt_pow2; [lia|]. assert (Z.log2 (word (buffer b) 0) < 64) by (apply Z.log2_lt_pow2; lia).
    destruct (Z.lt_ge_cases (Z.log2 (word (buffer b) 0)) (cur_size b)) as [|Hge]; [done|].
    pose proof (Z.log2_nonneg (word (buffer b) 0)). apply Hz in Hge. rewrite <- HW, Z.bit_log2 in Hge by lia. done.
  - rewrite length_memory. unfold size. rewrite Z2Nat.id by lia. intros i Hi.
    rewrite memory_nth by (done || lia). rewrite HW by lia. done.
Qed.

Lemma from_uint64_list b v : wf N b → 1 <= size b < 64 → 0 <= v < 2 ^ size b →
  ∃ b', from_uint64 b v = Ok b' ∧ wf N b' ∧ size b' = size b ∧
    bits b' = (if rev then spec.digits v (Z.to_nat (size b)) else reverse (spec.digits v (Z.to_nat (size b)))).
Proof.
  intros Hw Hs Hv. pose proof (wf_words N b Hw). pose proof Hw as (Hz & Hu & Hn & Hf).
  unfold from_uint64, nof_words_, bits_per_word, size in *. replace (_ =? 1) with true by lia. cbn [assume mbind result_bind].
  pass_assume. rewrite Z.shiftl_1_l. pass_assume.
  rewrite (set_word_spec b 0 _ v) by (done || lia). eexists. split; [done|].
  assert (HB : has_bits N (mk (<[Z.to_nat 0 := v]> (buffer b)) (cur_size b)) (cur_size b) (Z.testbit v)).
  { assert (u64 v) by (apply (fits_mono (cur_size b)); [lia|done]).
    apply has_bits_intro; [unfold zlen; by rewrite length_insert|by apply Forall_insert|done|]. intros p Hp.
    unfold bit. rewrite word_insert by lia. destruct (Z.eqb_spec (p / 64) 0).
    - replace (p mod 64) with p by lia. destruct (Z.ltb_spec p (cur_size b)); [done|].
      by rewrite (bit_buffer.fits_bit (cur_size b)) by (done || lia).
    - change (Z.testbit (word (buffer b) (p / 64)) (p mod 64)) with (bit (buffer b) p). replace (p <? cur_size b) with false by lia. apply Hf. lia. }
  rewrite (has_bits_list _ _ _ _ _ HB). destruct HB as (Hw' & _). split; [done|]. split; [done|].
  unfold spec.digits, phys. rewrite Z2Nat.id by lia. destruct rev; [done|].
  apply list_eq. intros i. rewrite lookup_map_seqZ. destruct (decide (Z.of_nat i < cur_size b)).
  - rewrite reverse_lookup by (rewrite length_map, length_seqZ; lia).
    rewrite length_map, length_seqZ, lookup_map_seqZ, decide_True by lia. do 2 f_equal. lia.
  - symmetry. apply lookup_ge_None_2. rewrite length_reverse, length_map, length_seqZ. lia.
Qed.

Lemma to_unpacked_bits_list b : wf N b → to_unpacked_bits rev b (size b) = Ok (map Z.b2z (bits b)).
Proof.
  intros Hw. unfold to_unpacked_bits. rewrite Z.eqb_refl. cbn [assume mbind result_bind].
  rewrite (mapM_Ok _ (λ i, Z.b2z (has rev b i))).
  - unfold bits_of. by rewrite map_map.
  - intros i Hi%elem_of_seqZ. rewrite test_list by (done || lia). rewrite bits_lookup, decide_True by lia.
    cbn [mbind result_bind]. by rewrite Z2Nat.id by lia.
Qed.

(** ** Copies *)

(** Words in use over an array whose other words are zero. *)
Lemma copy_words_wf buf c : wf N c → zlen buf = max_nof_words_ N →
  (∀ j, nof_words_ c <= j → word buf j = 0) → copy_words buf (buffer c) (nof_words_ c) = Ok (buffer c).
Proof.
  intros Hc Hz H0. pose proof (wf_words N c Hc). pose proof Hc as (Hz' & _). unfold copy_words, vec_range.
  replace ((0 <=? 0) && (0 <=? nof_words_ c) && (nof_words_ c <=? zlen (buffer c))) with true by lia.
  cbn [mbind result_bind]. rewrite Z.sub_0_r, drop_0. unfold mem_write.
  assert (HL : zlen (take (Z.to_nat (nof_words_ c)) (buffer c)) = nof_words_ c) by (unfold zlen in *; rewrite length_take; lia).
  rewrite HL. replace ((0 <=? 0) && (0 + nof_words_ c <=? zlen buf)) with true by lia. f_equal.
  change (Z.to_nat 0) with 0%nat. rewrite take_0, app_nil_l, Nat.add_0_l.
  replace (length (take (Z.to_nat (nof_words_ c)) (buffer c))) with (Z.to_nat (nof_words_ c)) by (unfold zlen in HL; lia).
  trans (take (Z.to_nat (nof_words_ c)) (buffer c) ++ drop (Z.to_nat (nof_words_ c)) (buffer c)); [|apply take_drop].
  f_equal. apply list_eq_same_length with (length (drop (Z.to_nat (nof_words_ c)) buf)).
  - rewrite !length_drop. unfold zlen in *. lia.
  - rewrite !length_drop. unfold zlen in *. lia.
  - intros i x y _ Hx Hy. rewrite lookup_drop in Hx, Hy. apply (nth_lookup_Some _ _ 0) in Hx, Hy.
    rewrite <- Hx, <- Hy. pose proof (wf_word_zero N c (nof_words_ c + Z.of_nat i) Hc) as Hw.
    specialize (H0 (nof_words_ c + Z.of_nat i)). unfold word in *.
    replace (Z.to_nat (nof_words_ c + Z.of_nat i)) with (Z.to_nat (nof_words_ c) + i)%nat in * by lia.
    rewrite Hw, H0 by lia. done.
Qed.

Lemma copy_wf c : wf N c → copy N c = Ok c.
Proof.
  intros Hc. unfold copy. rewrite copy_words_wf; [by destruct c|done| |].
  - unfold zlen. rewrite length_replicate. unfold max_nof_words_, bits_per_word. lia.
  - intros j _. unfold word. rewrite nth_lookup. destruct (_ !! _) eqn:E; [|done].
    by apply lookup_replicate_1 in E as [-> _].
Qed.

Lemma assign_wf b c : wf N b → wf N c → assign b c = Ok c.
Proof.
  intros Hb Hc. pose proof (wf_words N b Hb). pose proof (wf_words N c Hc). pose proof Hb as (Hz & _).
  unfold assign.
  assert (∃ b1, each_word b (seqZ (nof_words_ c) (nof_words_ b - nof_words_ c)) (λ _ _, Ok 0) = Ok b1 ∧
    zlen (buffer b1) = max_nof_words_ N ∧ ∀ j, nof_words_ c <= j → word (buffer b1) j = 0) as (b1 & -> & Hz1 & Hzero).
  { destruct (Z.le_gt_cases (nof_words_ b) (nof_words_ c)).
    - rewrite seqZ_nil by lia. exists b. split; [done|]. split; [done|]. intros j Hj. apply (wf_word_zero N); [done|lia].
    - destruct (each_word_spec (λ _ _, Ok 0) (λ _, 0) (nof_words_ b - nof_words_ c) ltac:(lia) b (nof_words_ c))
        as (l & HE & HL & HW); [lia|lia|done|]. exists (mk l (cur_size b)). split; [done|]. cbn [buffer].
      split; [by rewrite HL|]. intros j Hj. rewrite HW by lia. destruct (_ && _) eqn:E; [done|].
      apply (wf_word_zero N); [done|lia]. }
  cbn [mbind result_bind]. rewrite copy_words_wf by done. by destruct c.
Qed.

Lemma of_values_list values : zlen values <= N →
  ∃ b, of_values N rev values = Ok b ∧ wf N b ∧ bits b = values.
Proof.
  intros Hle. pose proof (zlen_nonneg values). unfold of_values.
  destruct (create_list 0) as (b0 & HE0 & Hw0 & _ & _); [lia|].
  unfold create in HE0. rewrite (proj2 (Z.leb_le 0 N)) in HE0 by lia. injection HE0 as <-.
  destruct (resize_list _ (zlen values) Hw0) as (b1 & HE1 & Hw1 & Hs1 & _); [lia|].
  rewrite HE1. cbn [mbind result_bind].
  destruct (set_loop_list b1 0 (zlen values) (λ i, Ok (nth (Z.to_nat i) values false))
    (λ i, nth (Z.to_nat i) values false) Hw1) as (b2 & HE2 & Hw2 & Hs2 & HB2); [lia..|done|].
  assert (Hnth : map (λ i, nth (Z.to_nat i) values false) (seqZ 0 (zlen values)) = values).
  { apply list_eq. intros i. rewrite lookup_map_seqZ. unfold zlen. destruct (decide _).
    - rewrite Nat2Z.id, nth_lookup. destruct (lookup_lt_is_Some_2 values i) as [x ->]; [lia|done].
    - symmetry. apply lookup_ge_None_2. lia. }
  exists b2. split.
  - rewrite <- HE2. assert (HZ : zip (seqZ 0 (zlen values)) values =
      map (λ i, (i, nth (Z.to_nat i) values false)) (seqZ 0 (zlen values))).
    { rewrite <- Hnth at 2. clear. induction (seqZ 0 (zlen values)) as [|x l IH]; [done|]. simpl. by rewrite IH. }
    rewrite HZ. rewrite <- (fold_result_map (λ b '(n, value), assert_within_bounds_ b n true;;
      if (value : bool) then set_ rev b n else reset_ rev b n)). done.
  - split; [done|]. rewrite HB2, Hnth. simpl. rewrite drop_ge; [apply app_nil_r|]. rewrite length_bits. lia.
Qed.

(** ** Slices *)

(** The word a slice starting at [st] gets at index [i]. *)
Definition slice_word (b : t) (st i : Z) : Z :=
  if st mod 64 =? 0 then word (buffer b) (i + st / 64) else
  Z.lor (Z.land (word (buffer b) (i + st / 64) ≫ (st mod 64)) (mask_lsb_ones 64 (64 - st mod 64)))
        (wrap 64 (Z.land (word (buffer b) (i + st / 64 + 1)) (mask_lsb_ones 64 (st mod 64)) ≪ (64 - st mod 64))).

Lemma slice_word_bits b st i : wf N b → 0 <= st → 0 <= i →
  u64 (slice_word b st i) ∧ ∀ k, 0 <= k < 64 → Z.testbit (slice_word b st i) k = bit (buffer b) (st + (64 * i + k)).
Proof.
  intros Hw Hst Hi. pose proof Hw as (_ & Hu & _). unfold slice_word.
  destruct (Z.eqb_spec (st mod 64) 0) as [H0|Hne].
  { split; [by apply word_u64|]. intros k Hk. rewrite <- (bit_at _ (i + st / 64)) by lia. f_equal. lia. }
  pose proof (word_u64 (buffer b) (i + st / 64) Hu) as [Hw1 Hw2]. split.
  - apply u64_lor; [|by apply wrap_fits]. rewrite Z.land_comm. apply (fits_land 64); [done| |].
    + rewrite (bit_buffer.mask_lsb_ones_value 64) by lia. pose proof (Z.pow_pos_nonneg 2 (64 - st mod 64)). lia.
    + apply (fits_mono (64 - st mod 64)); [lia|]. apply fits_shiftr; [lia|lia|].
      replace (64 - st mod 64 + st mod 64) with 64 by lia. by split.
  - intros k Hk. rewrite Z.lor_spec, Z.land_spec, bit_buffer.wrap_bit, Z.shiftr_spec, Z.shiftl_spec, Z.land_spec,
      (bit_buffer.mask_lsb_ones_bit 64 (64 - st mod 64)) by lia.
    replace (k <? 64) with true by lia. cbn [andb]. destruct (Z.ltb_spec k (64 - st mod 64)).
    + rewrite andb_true_r, (Z.testbit_neg_r _ (k - (64 - st mod 64))), andb_false_l, orb_false_r by lia.
      rewrite <- (bit_at _ (i + st / 64)) by lia. f_equal. lia.
    + rewrite andb_false_r, (bit_buffer.mask_lsb_ones_bit 64 (st mod 64)) by lia. cbn [orb].
      replace (k - (64 - st mod 64) <? st mod 64) with true by lia. rewrite andb_true_r.
      rewrite <- (bit_at _ (i + st / 64 + 1)) by lia. f_equal. lia.
Qed.

Lemma slice_list N2 b s e : 0 <= N2 < 2 ^ 31 → wf N b → 0 <= s <= e → e <= size b → e - s <= N2 →
  ∃ c, slice N2 rev b s e = Ok c ∧ wf N2 c ∧ bits c = spec.sub (bits b) (Z.to_nat s) (Z.to_nat e).
Proof.
  intros HN2 Hw Hs He Hle. pose proof (wf_words N b Hw). pose proof Hw as (_ & Hu & Hn & Hz).
  unfold slice. rewrite (wrap_small 64 (e - s)) by (unfold size in *; lia_fits).
  destruct (create_bits N2 HN2 (e - s)) as (c0 & -> & Hw0 & Hs0 & _); [lia|]. cbn [mbind result_bind].
  set (st := (phys_range rev (size b) s e).1).
  assert (Hst : ∃ x, (if rev then (wrap 64 (get_bitidx_ true b e + 1), wrap 64 (get_bitidx_ true b s + 1)) else (s, e)) = (st, x)).
  { unfold st, phys_range, get_bitidx_, size in *. destruct rev; [|by eexists]. eexists. f_equal. cbn [fst].
    unfold wrap. rewrite Zplus_mod_idemp_l. rewrite Z.mod_small by lia_fits. lia. }
  destruct Hst as (ex & ->). clear ex.
  assert (Hst : 0 <= st ∧ st + (e - s) <= size b) by (unfold st, phys_range; destruct rev; cbn [fst]; lia).
  unfold bits_per_word. rewrite (wrap_small 32 (st / 64)) by (unfold size in *; lia_fits).
  assert (Hin : ∀ i, 0 <= i < nof_words_ c0 → 0 <= i + st / 64 < nof_words_ b).
  { unfold nof_words_, bits_per_word. rewrite Hs0. lia. }
  match goal with |- ∃ c, (if negb _ then each_word c0 _ ?f else each_word c0 _ ?h) ≫= _ = _ ∧ _ =>
    assert (Hf : ∀ i, 0 <= i < nof_words_ c0 → f i (word (buffer c0) i) = Ok (slice_word b st i) ∨ st mod 64 = 0);
    [|assert (Hh : ∀ i, 0 <= i < nof_words_ c0 → st mod 64 = 0 → h i (word (buffer c0) i) = Ok (slice_word b st i))]
  end.
  { intros i Hi. destruct (Z.eq_dec (st mod 64) 0) as [|Hne]; [by right|left]. specialize (Hin i Hi).
    rewrite (vec_at_word (buffer b) (i + st / 64)) by lia. cbn [mbind result_bind]. unfold slice_word. rewrite (proj2 (Z.eqb_neq (st mod 64) 0)) by done.
    destruct (Z.ltb_spec (i + st / 64 + 1) (nof_words_ b)); [by rewrite vec_at_word by lia|].
    rewrite (wf_word_zero N b (i + st / 64 + 1)) by (done || lia). by rewrite Z.land_0_l, Z.shiftl_0_l, Z.lor_0_r. }
  { intros i Hi H0. specialize (Hin i Hi). rewrite vec_at_word by lia. unfold slice_word. by rewrite H0. }
  assert (HE : ∀ f, (∀ i, 0 <= i < nof_words_ c0 → f i (word (buffer c0) i) = Ok (slice_word b st i)) →
    ∃ c, each_word c0 (seqZ 0 (nof_words_ c0)) f ≫= sanitize_ = Ok c ∧ has_bits N2 c (e - s) (λ p, bit (buffer b) (st + p))).
  { intros f Hf'. destruct (whole_words_bits N2 HN2 c0 f (slice_word b st) Hw0 Hf') as (l & -> & _ & _ & _ & c & HS & HB).
    { intros j Hj. by apply slice_word_bits; try lia. }
    cbn [mbind result_bind]. exists c. split; [done|]. rewrite <- Hs0. eapply has_bits_ext; [exact HB|]. intros p Hp. cbn beta.
    destruct (slice_word_bits b st (p / 64) Hw) as [_ HT]; [lia|lia|]. rewrite HT by lia. f_equal. lia. }
  assert (Hend : ∀ r, (∃ c, r = Ok c ∧ has_bits N2 c (e - s) (λ p, bit (buffer b) (st + p))) →
    ∃ c, r = Ok c ∧ wf N2 c ∧ bits c = spec.sub (bits b) (Z.to_nat s) (Z.to_nat e)).
  { intros r (c & HC & HB). exists c. split; [done|]. rewrite (has_bits_list _ _ _ _ _ HB).
    destruct HB as (Hwc & _). split; [done|]. apply list_eq. intros i. rewrite lookup_map_seqZ, sub_lookup, bits_lookup.
    destruct (decide (Z.of_nat i < e - s)); [|by rewrite decide_False by lia].
    rewrite !decide_True by lia. f_equal. unfold has, st, phys_range, phys. destruct rev; cbn [fst]; f_equal; lia. }
  apply Hend. destruct (Z.eqb_spec (st mod 64) 0) as [H0|Hne]; cbn [negb]; apply HE.
  - intros i Hi. by apply Hh.
  - intros i Hi. by destruct (Hf i Hi).
Qed.

End refinement.

(** ** [for_each] calls the function on the indices that hold the value, in order *)
Section for_each.
Context (N : Z) (HN : 0 <= N < 2 ^ 31).

(** The word visited, restricted to the range. *)
Lemma visited_word l i s e (v : bool) : Forall u64 l → 0 <= s < e → s / 64 <= i < (e + 63) / 64 →
  let w0 := if v then word l i else wnot (word l i) in
  let w1 := if i =? s / 64 then Z.land w0 (mask_lsb_zeros 64 (s mod 64)) else w0 in
  let w2 := if (i =? (e + 63) / 64 - 1) && negb (e mod 64 =? 0)
            then Z.land w1 (mask_lsb_ones 64 (e mod 64)) else w1 in
  u64 w0 ∧ u64 w2 ∧ ∀ k, 0 <= k < 64 →
    Z.testbit w0 k = Bool.eqb (bit l (64 * i + k)) v ∧
    Z.testbit w2 k = Bool.eqb (bit l (64 * i + k)) v && ((s <=? 64 * i + k) && (64 * i + k <? e)).
Proof.
  intros Hu Hs Hi w0 w1 w2.
  assert (H0 : u64 w0) by (unfold w0; destruct v; [by apply word_u64|apply u64_wnot]).
  assert (Hm : 0 <= mask_lsb_zeros 64 (s mod 64)) by (apply (wrap_fits 64 _); lia).
  assert (Hm' : 0 <= mask_lsb_ones 64 (e mod 64)).
  { rewrite (bit_buffer.mask_lsb_ones_value 64) by lia. pose proof (Z.pow_pos_nonneg 2 (e mod 64)). lia. }
  assert (H1 : u64 w1) by (unfold w1; destruct (i =? s / 64); [by apply u64_land|done]).
  split; [done|]. split; [unfold w2; destruct (_ && _); [by apply u64_land|done]|]. intros k Hk.
  assert (HB : Z.testbit w0 k = Bool.eqb (bit l (64 * i + k)) v).
  { rewrite bit_at by lia. unfold w0. destruct v; [by destruct (Z.testbit _ _)|].
    rewrite wnot_bit by lia. replace (k <? 64) with true by lia. by destruct (Z.testbit _ _). }
  split; [done|]. unfold w2, w1. rewrite <- HB.
  destruct (Z.eqb_spec i (s / 64)), (Z.eqb_spec i ((e + 63) / 64 - 1)), (Z.eqb_spec (e mod 64) 0); cbn [andb negb];
    rewrite ?Z.land_spec, ?mask_lsb_zeros_bit, ?bit_buffer.mask_lsb_ones_bit by lia;
    destruct (Z.testbit w0 k); cbn [andb]; bits_by_cases.
Qed.

(** Visiting word by word is visiting the concatenation. *)
Lemma fold_words {S} (f : S → Z → result S) (g : Z → bool) n : 0 <= n → ∀ a st,
  fold_result (λ st i, fold_result f st (List.filter g (seqZ (64 * i) 64))) st (seqZ a n) =
  fold_result f st (List.filter g (seqZ (64 * a) (64 * n))).
Proof.
  intros Hn. pattern n. apply natlike_ind; [|clear n Hn; intros n Hn IH|done]; intros a st; [done|].
  rewrite seqZ_cons, Z.pred_succ by lia. cbn [fold_result].
  replace (64 * Z.succ n) with (64 + 64 * n) by lia. rewrite seqZ_app, List.filter_app, fold_result_app by lia.
  destruct (fold_result f st _); [|done]. cbn [mbind result_bind]. rewrite IH. do 3 f_equal. lia.
Qed.

(** Only the range matters of a longer one. *)
Lemma filter_seqZ_range (h : Z → bool) a n s e : a <= s <= e → e <= a + n →
  List.filter (λ p, h p && ((s <=? p) && (p <? e))) (seqZ a n) = List.filter h (seqZ s (e - s)).
Proof.
  intros Hs He. replace n with ((s - a) + ((e - s) + (a + n - e))) by lia.
  rewrite !seqZ_app, !List.filter_app by lia. replace (a + (s - a)) with s by lia.
  rewrite filter_seqZ_none by (intros; apply andb_false_iff; right; lia).
  rewrite (filter_seqZ_none _ (s + (e - s))) by (intros; apply andb_false_iff; right; lia).
  rewrite app_nil_l, app_nil_r. apply filter_ext_in. intros p Hp. apply list_elem_of_In, elem_of_seqZ in Hp.
  replace ((s <=? p) && (p <? e)) with true by lia. apply andb_true_r.
Qed.

Lemma positions_bits b s e v : wf N b → 0 <= s → e <= size b →
  spec.positions s e v (bits_of false b) = List.filter (λ p, Bool.eqb (bit (buffer b) p) v) (seqZ s (e - s)).
Proof.
  intros Hw Hs He. unfold spec.positions. apply filter_ext_in. intros p Hp. apply list_elem_of_In, elem_of_seqZ in Hp.
  by rewrite (bits_nth N) by (done || lia).
Qed.

Lemma for_each_uniform b s e (v : bool) : wf N b → 0 <= s <= e → e <= size b →
  ∃ u, (if v then all_range false b s e else none_range false b s e) = Ok u ∧
    (u = true → spec.positions s e v (bits_of false b) = seqZ s (e - s)).
Proof.
  intros Hw Hs He. rewrite positions_bits by (done || lia).
  assert (Hall : ∀ f : Z → bool, (∀ p, s <= p < e → f p = true) → List.filter f (seqZ s (e - s)) = seqZ s (e - s)).
  { intros f Hf. apply forallb_filter_id, forallb_forall. intros p Hp. apply list_elem_of_In, elem_of_seqZ in Hp.
    apply Hf. lia. }
  destruct v.
  - destruct (all_range_bits N false HN b s e Hw Hs He) as (u & -> & Hu). exists u. split; [done|]. intros ->.
    apply Hall. intros p Hp. rewrite (proj1 Hu eq_refl p); [done|]. unfold within, phys_range. simpl. lia.
  - unfold none_range. destruct (any_range_bits N false HN b s e Hw Hs He) as (u & -> & Hu). cbn [mbind result_bind].
    eexists. split; [done|]. intros Hu'. apply Hall. intros p Hp. destruct (bit (buffer b) p) eqn:E; [|done].
    rewrite (proj2 Hu) in Hu'; [done|]. exists p. split; [|done]. unfold within, phys_range. simpl. lia.
Qed.

Lemma for_each_list {S} b s e (f : S → Z → result S) v st : wf N b → 0 <= s <= e → e <= size b →
  for_each false b s e f v st = fold_result f st (spec.positions s e v (bits_of false b)).
Proof.
  intros Hw Hs He. pose proof (wf_words N b Hw). pose proof Hw as (_ & Hu & _).
  unfold for_each, assert_range_bounds_. pass_assume.
  destruct (Z.eqb_spec s e) as [->|Hne]. { unfold spec.positions. by rewrite Z.sub_diag. }
  destruct (for_each_uniform b s e v Hw Hs He) as (u & -> & Hunif). cbn [mbind result_bind].
  destruct u; [by rewrite Hunif|]. clear Hunif. rewrite positions_bits by (done || lia).
  unfold bits_per_word. replace (e + 64 - 1) with (e + 63) by lia.
  rewrite <- (filter_seqZ_range _ (64 * (s / 64)) (64 * ((e + 63) / 64 - s / 64)) s e) by lia.
  rewrite <- fold_words by lia. apply fold_result_ext. intros st' i Hi%elem_of_seqZ.
  rewrite vec_at_word by (unfold nof_words_, bits_per_word, size in *; lia). cbn [mbind result_bind].
  destruct (visited_word (buffer b) i s e v Hu) as (H0 & H2 & HB); [lia|lia|]. cbn zeta in *.
  set (w0 := if v then _ else _) in *. set (w2 := if _ && _ then _ else _) in *. clearbody w0 w2.
  assert (HF : ∀ w, u64 w → for_each_word 16 f w (i * 64) st' =
    fold_result f st' (List.filter (λ p, Z.testbit w (p - i * 64)) (seqZ (64 * i) 64))).
  { intros w [Hw0 Hw1]. rewrite for_each_word_spec by (change (4 * Z.of_nat 16) with 64; lia).
    change (4 * Z.of_nat 16) with 64. by rewrite (Z.mul_comm i). }
  rewrite HF by done. destruct (Z.eqb_spec w0 0) as [->|].
  - rewrite filter_seqZ_none; [done|]. intros p Hp. destruct (HB (p - 64 * i)) as [HB0 _]; [lia|].
    rewrite Z.bits_0 in HB0. replace (64 * i + (p - 64 * i)) with p in HB0 by lia. by rewrite <- HB0.
  - f_equal. apply filter_ext_in. intros p Hp. apply list_elem_of_In, elem_of_seqZ in Hp.
    rewrite (Z.mul_comm i). destruct (HB (p - 64 * i)) as [_ ->]; [lia|].
    by replace (64 * i + (p - 64 * i)) with p by lia.
Qed.

End for_each.

Lemma count_app l k : spec.count (l ++ k) = spec.count l + spec.count k.
Proof. unfold spec.count. rewrite List.filter_app, length_app. lia. Qed.
