(* ===== verification/BitsetRefinement.v ===== *)
(** * BitsetRefinement: bounded bitsets implement lists of booleans

    The calls of [bounded_bitset] as data, their execution on the words, their meaning
    on lists, and the simulation between the two: one call, and any sequence of calls.
    The capacity bound 2^31 is that of the [int] in which positions are returned. *)

From S2P Require Export BitsetSpec.
Import bounded_bitset.

(** ** Calls and answers

    [A] is the type of sets: [t] in the program, [list bool] in the specification.  The
    arguments are unsigned in the source.  The product and the packing into integers, which
    make values of other types, are in BitsetProduct. *)
Inductive op (A : Type) : Type :=
| Assign (other : A) | Resize (n : Z) | SetBit (pos : Z) (v : bool) | FillAll (v : bool)
| Fill (s e : Z) (v : bool) | PushBack (v : bool) | PushBackBits (width val n : Z) | Flip
| OrAssign (other : A) | AndAssign (other : A) | FromUint64 (v : Z)
| Test (pos : Z) | All | Any | None_ | AllRange (s e : Z) | AnyRange (s e : Z) | NoneRange (s e : Z)
| FindLowest (s e : Z) (v : bool) | FindHighest (s e : Z) (v : bool) | IsContiguous (v : bool)
| Count | Equal (other : A) | Extract (width s n : Z) | ToUint64 | ToUnpackedBits
| GetBitPositions (v : bool) | ForEach (s e : Z) (v : bool) | Slice (N2 s e : Z).

Inductive answer (A : Type) : Type :=
| Done | ABool (v : bool) | AInt (z : Z) | AInts (l : list Z) | ASet (a : A).

Arguments Assign {A}. Arguments Resize {A}. Arguments SetBit {A}. Arguments FillAll {A}. Arguments Fill {A}.
Arguments PushBack {A}. Arguments PushBackBits {A}. Arguments Flip {A}. Arguments OrAssign {A}.
Arguments AndAssign {A}. Arguments FromUint64 {A}. Arguments Test {A}. Arguments All {A}. Arguments Any {A}.
Arguments None_ {A}. Arguments AllRange {A}. Arguments AnyRange {A}. Arguments NoneRange {A}.
Arguments FindLowest {A}. Arguments FindHighest {A}. Arguments IsContiguous {A}. Arguments Count {A}.
Arguments Equal {A}. Arguments Extract {A}. Arguments ToUint64 {A}. Arguments ToUnpackedBits {A}.
Arguments GetBitPositions {A}. Arguments ForEach {A}. Arguments Slice {A}.
Arguments Done {A}. Arguments ABool {A}. Arguments AInt {A}. Arguments AInts {A}. Arguments ASet {A}.

Definition op_map {A B} (f : A → B) (o : op A) : op B :=
  match o with
  | Assign c => Assign (f c) | OrAssign c => OrAssign (f c) | AndAssign c => AndAssign (f c) | Equal c => Equal (f c)
  | Resize n => Resize n | SetBit p v => SetBit p v | FillAll v => FillAll v | Fill s e v => Fill s e v
  | PushBack v => PushBack v | PushBackBits w v n => PushBackBits w v n | Flip => Flip | FromUint64 v => FromUint64 v
  | Test p => Test p | All => All | Any => Any | None_ => None_ | AllRange s e => AllRange s e
  | AnyRange s e => AnyRange s e | NoneRange s e => NoneRange s e | FindLowest s e v => FindLowest s e v
  | FindHighest s e v => FindHighest s e v | IsContiguous v => IsContiguous v | Count => Count
  | Extract w s n => Extract w s n | ToUint64 => ToUint64 | ToUnpackedBits => ToUnpackedBits
  | GetBitPositions v => GetBitPositions v | ForEach s e v => ForEach s e v | Slice n s e => Slice n s e
  end.

Definition answer_map {A B} (f : A → B) (o : answer A) : answer B :=
  match o with Done => Done | ABool v => ABool v | AInt z => AInt z | AInts l => AInts l | ASet a => ASet (f a) end.

Section refinement.
Context (N : Z) (rev : bool) (HN : 0 <= N < 2 ^ 31).

(** ** Execution on words *)
Definition step (b : t) (o : op t) : result (t * answer t) :=
  let update (r : result t) := b ← r; Ok (b, Done) in
  let ask_bool (r : result bool) := v ← r; Ok (b, ABool v) in
  let ask_int (r : result Z) := v ← r; Ok (b, AInt v) in
  let ask_ints (r : result (list Z)) := v ← r; Ok (b, AInts v) in
  match o with
  | Assign c => update (assign b c)
  | Resize n => update (resize N b n)
  | SetBit p v => update (set rev b p v)
  | FillAll v => update (fill_all b v)
  | Fill s e v => update (fill rev b s e v)
  | PushBack v => update (push_back N rev b v)
  | PushBackBits w v n => update (push_back_bits N rev w b v n)
  | Flip => update (flip b)
  | OrAssign c => update (or_assign b c)
  | AndAssign c => update (and_assign b c)
  | FromUint64 v => update (from_uint64 b v)
  | Test p => ask_bool (test rev b p)
  | All => ask_bool (all b)
  | Any => ask_bool (any b)
  | None_ => ask_bool (none b)
  | AllRange s e => ask_bool (all_range rev b s e)
  | AnyRange s e => ask_bool (any_range rev b s e)
  | NoneRange s e => ask_bool (none_range rev b s e)
  | FindLowest s e v => ask_int (find_lowest_range rev b s e v)
  | FindHighest s e v => ask_int (find_highest_range rev b s e v)
  | IsContiguous v => ask_bool (is_contiguous rev b v)
  | Count => ask_int (count b)
  | Equal c => ask_bool (eqb b c)
  | Extract w s n => ask_int (extract rev w b s n)
  | ToUint64 => ask_int (to_uint64 b)
  | ToUnpackedBits => ask_ints (to_unpacked_bits rev b (size b))
  | GetBitPositions v => ask_ints (get_bit_positions rev b v)
  | ForEach s e v => ask_ints (for_each rev b s e (λ acc i, Ok (acc ++ [i])) v [])
  | Slice n s e => c ← slice n rev b s e; Ok (b, ASet c)
  end.

Fixpoint run (b : t) (ops : list (op t)) : result (t * list (answer t)) :=
  match ops with
  | [] => Ok (b, [])
  | o :: ops => '(b, a) ← step b o; '(b, l) ← run b ops; Ok (b, a :: l)
  end.

(** ** Meaning on lists

    What the calls do, also where that is not what they are for: a bit appended to a set whose
    lowest bit is the highest in memory is written over its last one; more digits than the
    type has, a set of 64 bits loaded from an integer, and bits set above the lowest 32 of
    those extracted shift past a width; the search for the highest bit of an empty range at the
    start of memory runs on to the first bit with the value, or past the array.  [None]: a slice
    of a range the set does not have. *)
Definition appended (v : bool) (l : list bool) : list bool := if rev then <[length l := v]> (false :: l) else l ++ [v].

(** The answer to the search in an empty range at the start of memory. *)
Definition runs_on (v : bool) (l : list bool) : result Z :=
  let h := spec.highest 0 (length l) v l in
  if negb rev then Fault OutOfBounds else
  if negb (h =? -1) then Ok h else if negb v && (zlen l <? 64 * max_nof_words_ N) then Ok (-1) else Fault OutOfBounds.

Definition valid_range (l : list bool) (s e : Z) : bool := (s <=? e) && (e <=? zlen l).

Definition spec_step (l : list bool) (o : op (list bool)) : option (result (list bool * answer (list bool))) :=
  let ok l' := Some (Ok (l', Done)) in
  let say a := Some (Ok (l, a)) in
  let check (c : bool) r := if c then r else Some (Fault AssertFailed) in
  let shifts (c : bool) r := if c then r else Some (Fault BadShift) in
  match o with
  | Assign c => ok c
  | Resize n => check (n <=? N) (ok (spec.resize rev (Z.to_nat n) l))
  | SetBit p v => check (p <? zlen l) (ok (<[Z.to_nat p := v]> l))
  | FillAll v => ok (replicate (length l) v)
  | Fill s e v => check (valid_range l s e) (ok (spec.fill (Z.to_nat s) (Z.to_nat e) v l))
  | PushBack v => check (zlen l + 1 <=? N) (ok (appended v l))
  | PushBackBits w v n =>
      check (zlen l + n <=? N) (shifts (n <=? Z.max 32 w) (ok (l ++ spec.digits v (Z.to_nat n))))
  | Flip => ok (map negb l)
  | OrAssign c => check (zlen c =? zlen l) (ok (zip_with orb l c))
  | AndAssign c => check (zlen c =? zlen l) (ok (zip_with andb l c))
  | FromUint64 v =>
      check ((1 <=? zlen l) && (zlen l <=? 64)) (shifts (zlen l <? 64) (check (v <? 2 ^ zlen l)
        (ok (if rev then spec.digits v (length l) else reverse (spec.digits v (length l))))))
  | Test p => match l !! Z.to_nat p with Some v => say (ABool v) | None => Some (Fault AssertFailed) end
  | All => say (ABool (forallb id l))
  | Any => say (ABool (existsb id l))
  | None_ => say (ABool (negb (existsb id l)))
  | AllRange s e => check (valid_range l s e) (say (ABool (forallb id (spec.sub l (Z.to_nat s) (Z.to_nat e)))))
  | AnyRange s e => check (valid_range l s e) (say (ABool (existsb id (spec.sub l (Z.to_nat s) (Z.to_nat e)))))
  | NoneRange s e =>
      check (valid_range l s e) (say (ABool (negb (existsb id (spec.sub l (Z.to_nat s) (Z.to_nat e))))))
  | FindLowest s e v => check (valid_range l s e) (say (AInt (spec.lowest (Z.to_nat s) (Z.to_nat e) v l)))
  | FindHighest s e v =>
      check (valid_range l s e)
        (if (if rev then s <? zlen l else 0 <? e) then say (AInt (spec.highest (Z.to_nat s) (Z.to_nat e) v l))
         else match runs_on v l with Ok r => say (AInt r) | Fault f => Some (Fault f) end)
  | IsContiguous v => say (ABool (spec.contiguous v l))
  | Count => say (AInt (spec.count l))
  | Equal c => say (ABool (bool_decide (l = c)))
  | Extract w s n =>
      let low := Z.max s (s + n - 32) in
      check (n <=? w) (check (s + n <=? zlen l) (shifts (negb (existsb id (spec.sub l (Z.to_nat s) (Z.to_nat low))))
        (say (AInt (spec.number (spec.sub l (Z.to_nat low) (Z.to_nat (s + n))))))))
  | ToUint64 =>
      check ((1 <=? zlen l) && (zlen l <=? 64)) (say (AInt (spec.number (if rev then l else reverse l))))
  | ToUnpackedBits => say (AInts (map Z.b2z l))
  | GetBitPositions v => say (AInts (spec.positions 0 (zlen l) v l))
  | ForEach s e v => check (valid_range l s e) (say (AInts (spec.positions s e v l)))
  | Slice n s e =>
      if valid_range l s e then check (e - s <=? n) (say (ASet (spec.sub l (Z.to_nat s) (Z.to_nat e)))) else None
  end.

Fixpoint spec_run (l : list bool) (ops : list (op (list bool)))
    : option (result (list bool * list (answer (list bool)))) :=
  match ops with
  | [] => Some (Ok (l, []))
  | o :: ops =>
      match spec_step l o with
      | Some (Ok (l, a)) =>
          match spec_run l ops with Some (Ok (l, k)) => Some (Ok (l, a :: k)) | r => r end
      | Some (Fault f) => Some (Fault f)
      | None => None
      end
  end.

(** Arguments: unsigned, with sums that do not wrap around, and other sets well formed.  The
    visit of a set whose lowest bit is the highest in memory does not compile. *)
Definition op_ok (o : op t) : Prop :=
  match o with
  | Assign c | OrAssign c | AndAssign c | Equal c => wf N c
  | Resize n => 0 <= n
  | SetBit p _ | Test p => 0 <= p
  | Fill s e _ | AllRange s e | AnyRange s e | NoneRange s e | FindLowest s e _ | FindHighest s e _ =>
      0 <= s ∧ 0 <= e
  | ForEach s e _ => rev = false ∧ 0 <= s ∧ 0 <= e
  | PushBackBits w v n => 0 <= v ∧ 0 <= n
  | FromUint64 v => 0 <= v
  | Extract w s n => 0 <= s ∧ 0 <= n ∧ s + n < 2 ^ 32
  | Slice n s e => 0 <= n < 2 ^ 31 ∧ 0 <= s ∧ 0 <= e
  | _ => True
  end.

(** ** The simulation *)
Abbreviation bits := (bits_of rev).

(** What the words do is what the meaning says, where there is one. *)
Definition simulates (r : result (t * answer t)) (s : option (result (list bool * answer (list bool)))) : Prop :=
  match s with
  | None => True
  | Some (Fault f) => r = Fault f
  | Some (Ok (l, a)) => ∃ b a', r = Ok (b, a') ∧ wf N b ∧ bits b = l ∧ answer_map bits a' = a
  end.

Lemma simulates_update r l : (∃ b, r = Ok b ∧ wf N b ∧ bits b = l) →
  simulates (b ← r; Ok (b, Done)) (Some (Ok (l, Done))).
Proof. intros (b & -> & Hw & Hb). by exists b, Done. Qed.

Lemma simulates_update_size r l n : (∃ b, r = Ok b ∧ wf N b ∧ size b = n ∧ bits b = l) →
  simulates (b ← r; Ok (b, Done)) (Some (Ok (l, Done))).
Proof. intros (b & Hr & Hw & _ & Hb). apply simulates_update. by exists b. Qed.

Lemma simulates_ask {A} (k : A → answer t) (r : result A) b v : wf N b → r = Ok v →
  simulates (v ← r; Ok (b, k v)) (Some (Ok (bits b, answer_map bits (k v)))).
Proof. intros Hw ->. by exists b, (k v). Qed.

Lemma zlen_set b : wf N b → zlen (bits b) = size b.
Proof. intros Hw. pose proof (wf_size N b Hw). apply zlen_bits. lia. Qed.

(** A range the set does not have fails the assertion of every operation on ranges. *)
Lemma range_fault b s e : wf N b → valid_range (bits b) s e = false → assert_range_bounds_ b s e = Fault AssertFailed.
Proof. intros Hw H. unfold assert_range_bounds_, valid_range in *. rewrite zlen_set in H by done. by rewrite H. Qed.

Lemma range_valid b s e : wf N b → valid_range (bits b) s e = true → s <= e ∧ e <= size b.
Proof. intros Hw H. unfold valid_range in H. rewrite zlen_set in H by done. lia. Qed.

(** Splits on the guard of an operation on ranges and closes the faulty side. *)
Ltac split_range b s e Hw :=
  let E := fresh "E" in
  destruct (valid_range (bits b) s e) eqn:E;
  [ apply (range_valid b s e Hw) in E as [? ?]
  | apply (range_fault b s e Hw) in E;
    unfold fill, all_range, none_range, any_range, find_first_word_, find_lowest_range, find_highest_range, for_each;
    rewrite E; done ].

(** Too many digits: the first shift is already past the width. *)
Lemma push_back_bits_wide width b val n : wf N b → 0 <= n → size b + n <= N →
  Z.max 32 width < n → push_back_bits N rev width b val n = Fault BadShift.
Proof.
  intros Hw Hn Hle Hwide. pose proof (wf_size N b Hw). unfold push_back_bits. rewrite (wrap_small 32 (size b)) by lia_fits.
  destruct (resize_list N rev HN b (size b + n) Hw) as (b1 & -> & Hw1 & Hs1 & _); [lia|]. cbn [mbind result_bind].
  assert (∃ b2, (if rev then fold_result (λ b i, v ← test rev b (i + n); set rev b i v) b1 (seqZ 0 (size b)) else Ok b1) = Ok b2)
    as (b2 & ->).
  { destruct rev eqn:Erev; [|by eexists]. rewrite <- Erev.
    destruct (shift_loop_list N rev HN b1 n (size b) Hw1) as (b2 & HE & _); [lia..|]. by exists b2. }
  cbn [mbind result_bind]. rewrite (seqZ_cons 0 n) by lia. cbn [fold_result]. unfold shr.
  by replace (n - 1 - 0 <? Z.max 32 width) with false by lia.
Qed.

Lemma update_simulates b o : wf N b → op_ok o →
  match o with
  | Assign _ | Resize _ | SetBit _ _ | FillAll _ | Fill _ _ _ | PushBack _ | PushBackBits _ _ _ | Flip
  | OrAssign _ | AndAssign _ | FromUint64 _ => simulates (step b o) (spec_step (bits b) (op_map bits o))
  | _ => True
  end.
Proof.
  intros Hw Hok. pose proof (wf_size N b Hw) as Hs. pose proof (zlen_set b Hw) as Hz. pose proof (length_bits rev b) as Hl.
  destruct o; try exact I; cbn [step spec_step op_map op_ok] in *; cbn zeta; rewrite ?Hz.
  - apply simulates_update. exists other. by rewrite (assign_wf N HN).
  - destruct (Z.leb_spec n N); [eapply simulates_update_size, resize_list; (done || lia)|].
    unfold resize, max_size. by replace (n <=? N) with false by lia.
  - destruct (Z.ltb_spec pos (size b)); [eapply simulates_update_size, (set_list N); (done || lia)|].
    unfold set, assert_within_bounds_. cbn [negb andb]. by replace (pos <? size b) with false by lia.
  - rewrite Hl. eapply simulates_update_size, (fill_all_list N); done.
  - split_range b s e Hw. eapply simulates_update_size, (fill_list N); (done || lia).
  - destruct (Z.leb_spec (size b + 1) N).
    + eapply simulates_update_size. unfold appended. rewrite Hl. by apply (push_back_list N rev HN).
    + unfold push_back, resize, max_size. by replace (size b + 1 <=? N) with false by lia.
  - destruct (Z.leb_spec (size b + n) N); [|unfold push_back_bits, resize, max_size; by replace (size b + n <=? N) with false by lia].
    destruct (Z.leb_spec n (Z.max 32 width)); [|by rewrite push_back_bits_wide by (done || lia)].
    eapply simulates_update_size, (push_back_bits_list N); (done || lia).
  - eapply simulates_update_size, (flip_list N); done.
  - rewrite zlen_set by done. destruct (Z.eqb_spec (size other) (size b)); [eapply simulates_update_size, (or_list N); done|].
    unfold or_assign. by replace (size other =? size b) with false by lia.
  - rewrite zlen_set by done. destruct (Z.eqb_spec (size other) (size b)); [eapply simulates_update_size, (and_list N); done|].
    unfold and_assign. by replace (size other =? size b) with false by lia.
  - rewrite Hl. destruct ((1 <=? size b) && (size b <=? 64)) eqn:E.
    2: { unfold from_uint64, nof_words_, bits_per_word. by replace (_ =? 1) with false by lia. }
    destruct (Z.ltb_spec (size b) 64).
    2: { unfold from_uint64, nof_words_, bits_per_word. replace (_ =? 1) with true by lia. cbn [assume mbind result_bind]. by replace (size b <? 64) with false by lia. }
    destruct (Z.ltb_spec v (2 ^ size b)).
    + eapply simulates_update_size, (from_uint64_list N); (done || lia).
    + unfold from_uint64, nof_words_, bits_per_word. replace (_ =? 1) with true by lia. cbn [assume mbind result_bind].
      pass_assume. rewrite Z.shiftl_1_l. by replace (v <? 2 ^ size b) with false by lia.
Qed.

Lemma for_each_collect (l acc : list Z) : fold_result (λ acc i, Ok (acc ++ [i])) acc l = Ok (acc ++ l).
Proof.
  revert acc. induction l as [|i l IH]; intros acc; cbn [fold_result mbind result_bind]; [by rewrite app_nil_r|].
  by rewrite IH, <- app_assoc.
Qed.

Lemma query_simulates b o : wf N b → op_ok o →
  match o with
  | Assign _ | Resize _ | SetBit _ _ | FillAll _ | Fill _ _ _ | PushBack _ | PushBackBits _ _ _ | Flip
  | OrAssign _ | AndAssign _ | FromUint64 _ => True
  | _ => simulates (step b o) (spec_step (bits b) (op_map bits o))
  end.
Proof.
  intros Hw Hok. pose proof (wf_size N b Hw) as Hs. pose proof (zlen_set b Hw) as Hz. pose proof (length_bits rev b) as Hl.
  destruct o; try exact I; cbn [step spec_step op_map op_ok] in *; cbn zeta; rewrite ?Hz.
  - rewrite (test_list N) by done. destruct (bits b !! Z.to_nat pos); [|done]. by apply (simulates_ask ABool (Ok _)).
  - by apply (simulates_ask ABool), (all_list N).
  - by apply (simulates_ask ABool), (any_list N).
  - apply (simulates_ask ABool); [done|]. unfold none. by rewrite (any_list N rev).
  - split_range b s e Hw. apply (simulates_ask ABool); [done|]. apply (all_range_list N); (done || lia).
  - split_range b s e Hw. apply (simulates_ask ABool); [done|]. apply (any_range_list N); (done || lia).
  - split_range b s e Hw. apply (simulates_ask ABool); [done|]. unfold none_range.
    by rewrite (any_range_list N) by (done || lia).
  - split_range b s e Hw. apply (simulates_ask AInt); [done|]. apply (find_lowest_list N); (done || lia).
  - split_range b s e Hw. destruct (if rev then s <? size b else 0 <? e) eqn:Ec.
    + apply (simulates_ask AInt); [done|]. apply (find_highest_list N); try (done || lia). destruct rev; lia.
    + assert (HE : find_highest_range rev b s e v = runs_on v (bits b)).
      { unfold runs_on. rewrite Hz, Hl. clear Hl Hz. destruct rev eqn:Erev; cbn [negb]; apply Z.ltb_ge in Ec.
        - replace s with (size b) by lia. replace e with (size b) by lia. by apply find_highest_top.
        - replace s with 0 by lia. replace e with 0 by lia. by apply (find_highest_bottom N). }
      rewrite HE. destruct (runs_on v (bits b)) as [r|f]; [|done]. by apply (simulates_ask AInt (Ok _)).
  - by apply (simulates_ask ABool), (is_contiguous_list N).
  - by apply (simulates_ask AInt), (count_list N).
  - by apply (simulates_ask ABool), (eqb_list N).
  - destruct (Z.leb_spec n width); [|unfold extract; by replace (n <=? width) with false by lia].
    destruct (Z.leb_spec (s + n) (size b)).
    + destruct (Z.leb_spec n 32).
      * replace (Z.max s (s + n - 32)) with s by lia. unfold spec.sub at 1. rewrite Nat.sub_diag. cbn [take existsb negb]. apply (simulates_ask AInt); [done|]. apply (extract_list N); (done || lia).
      * replace (Z.max s (s + n - 32)) with (s + n - 32) by lia. pose proof (extract_wide_list N rev HN width b s n Hw) as HE. destruct (existsb id _); cbn [negb].
        -- by rewrite HE by lia.
        -- apply (simulates_ask AInt); [done|]. apply HE; lia.
    + unfold extract. pass_assume. rewrite (wrap_small 32 (s + n)) by (split; lia).
      by replace (s + n <=? size b) with false by lia.
  - destruct ((1 <=? size b) && (size b <=? 64)) eqn:E.
    + apply (simulates_ask AInt); [done|]. apply (to_uint64_list N); (done || lia).
    + unfold to_uint64, nof_words_, bits_per_word. by replace (_ =? 1) with false by lia.
  - by apply (simulates_ask AInts), (to_unpacked_bits_list N).
  - by apply (simulates_ask AInts), (get_bit_positions_list N).
  - destruct Hok as [Erev Hok]. split_range b s e Hw.
    apply (simulates_ask AInts); [done|]. rewrite Erev, (for_each_list N HN) by (done || lia). by rewrite for_each_collect.
  - destruct Hok as [HN2 ?]. destruct (valid_range (bits b) s e) eqn:E; [|done]. apply range_valid in E as [? ?]; [|done].
    destruct (Z.leb_spec (e - s) N2).
    + destruct (slice_list N rev HN N2 b s e) as (c & HE & _ & HB); try (done || lia).
      exists b, (ASet c). rewrite HE. cbn [answer_map]. by rewrite HB.
    + unfold slice, create. rewrite (wrap_small 64 (e - s)) by (unfold size in *; lia_fits). by replace (e - s <=? N2) with false by lia.
Qed.

Lemma step_simulates b o : wf N b → op_ok o → simulates (step b o) (spec_step (bits b) (op_map bits o)).
Proof.
  intros Hw Hok. pose proof (update_simulates b o Hw Hok). pose proof (query_simulates b o Hw Hok). by destruct o.
Qed.

End refinement.

(** C39: The class implements lists of booleans.  From any well-formed set, a sequence of
    the calls above, in any order and with any arguments whose sums do not wrap around,
    ends in the state the lists end in, with the same answers, and well formed again; where
    a call fails or misbehaves on lists, it does on words, at the same call and in the same
    way.  Only a slice of a range the set does not have is given no meaning.  The capacity
    is any below 2^31, the bit order either; the visit of a range is for the plain order,
    the only one it compiles for. *)
Theorem bitset_refines_list N rev ops b :
  0 <= N < 2 ^ 31 → wf N b → Forall (op_ok N rev) ops →
  match spec_run N rev (bits_of rev b) (map (op_map (bits_of rev)) ops) with
  | None => True
  | Some (Fault f) => run N rev b ops = Fault f
  | Some (Ok (l, answers)) =>
      ∃ b' answers', run N rev b ops = Ok (b', answers') ∧ wf N b' ∧ bits_of rev b' = l ∧
        map (answer_map (bits_of rev)) answers' = answers
  end.
Proof.
  intros HN Hw Hok. revert b Hw. induction Hok as [|o ops Ho Hok IH]; intros b Hw; cbn [map spec_run run].
  { by exists b, []. }
  pose proof (step_simulates N rev HN b o Hw Ho) as HS. unfold simulates in HS.
  destruct (spec_step _ _ _ _) as [[[l a]|f]|]; [|by rewrite HS|done].
  destruct HS as (b1 & a' & HE & Hw1 & <- & <-). rewrite HE. cbn [mbind result_bind].
  specialize (IH b1 Hw1). destruct (spec_run N rev (bits_of rev b1) _) as [[[l k]|f]|]; [|by rewrite IH|done].
  destruct IH as (b2 & k' & -> & Hw2 & <- & <-). by exists b2, (a' :: k').
Qed.

(** ** The invariant outside the contract *)

(** A call that returns leaves a well-formed set, defined meaning or not. *)
Lemma step_wf N rev b o b' a : 0 <= N < 2 ^ 31 → wf N b → op_ok N rev o → step N rev b o = Ok (b', a) → wf N b'.
Proof.
  intros HN Hw Hok HE. pose proof (step_simulates N rev HN b o Hw Hok) as HS. unfold simulates in HS.
  destruct (spec_step _ _ _ _) as [[[l a']|f]|] eqn:E.
  { destruct HS as (b1 & a1 & HE' & Hw1 & _). rewrite HE in HE'. by injection HE' as -> ->. }
  { by rewrite HE in HS. }
  destruct o; cbn [spec_step op_map step] in *; cbn zeta in *; try (apply bind_Ok in HE as (x & _ & HE); by injection HE as <- _);
    repeat match type of E with (if ?c then _ else _) = None => destruct c end; done.
Qed.

(** So does a sequence of calls. *)
Lemma run_wf N rev ops b b' answers : 0 <= N < 2 ^ 31 → wf N b → Forall (op_ok N rev) ops →
  run N rev b ops = Ok (b', answers) → wf N b'.
Proof.
  intros HN Hw Hok. revert b b' answers Hw.
  induction Hok as [|o ops Ho Hok IH]; intros b b' answers Hw HE; cbn [run] in HE; [by injection HE as <- _|].
  apply bind_Ok in HE as ([b1 a] & HE1 & HE). apply bind_Ok in HE as ([b2 k] & HE2 & [= <- _]).
  apply (IH b1 b2 k); [|done]. by eapply step_wf.
Qed.

(** ** Examples *)
Module bitset_examples.

(** A set of 70 bits used through most of its interface, in both bit orders. *)
Definition calls : list (op t) :=
  [Resize 70; Fill 3 68 true; SetBit 5 false; FindLowest 0 70 true; FindHighest 0 70 true; IsContiguous true;
   Count; Flip; GetBitPositions true; PushBackBits 32 11 4; Extract 32 70 4; Slice 8 66 74; AllRange 6 8; Any].

Definition initial : t := mk (replicate 3 0) 0.

Lemma initial_wf : wf 150 initial.
Proof.
  split; [done|]. split; [by repeat constructor|]. split; [done|]. intros p Hp. unfold bit, word. rewrite nth_lookup.
  destruct (_ !! _) as [x|] eqn:E; [|apply Z.bits_0]. apply (lookup_replicate_1 3) in E as [-> _]. apply Z.bits_0.
Qed.

Lemma bitset_refines_list_witness :
  ∃ b' answers', run 150 false initial calls = Ok (b', answers') ∧ wf 150 b' ∧
    map (answer_map (bits_of false)) answers' =
      [Done; Done; Done; AInt 3; AInt 67; ABool false; AInt 64; Done; AInts [0; 1; 2; 5; 68; 69];
       Done; AInt 11; ASet [false; false; true; true; true; false; true; true]; ABool false; ABool true].
Proof.
  pose proof (bitset_refines_list 150 false calls initial) as H.
  destruct H as (b' & answers' & HE & Hw & _ & HA).
  - done.
  - apply initial_wf.
  - unfold calls. repeat constructor; cbn; lia.
  - exists b', answers'. split; [exact HE|]. split; [exact Hw|exact HA].
Defined.

End bitset_examples.
