(* ===== verification/BitsetProduct.v ===== *)
(** * BitsetProduct: the Kronecker product of bitsets, and packing into integers

    [kronecker_product] and [to_packed_bits] of include/srsran/adt/bounded_bitset.h, the
    representation invariant of the class, and the calls that do not behave as documented. *)

From S2P Require Export BitsetRefinement.
Import bounded_bitset.

(** Every set bit replaced by [o], every clear one by as many clear bits. *)
Definition product (l o : list bool) : list bool :=
  concat (map (λ x : bool, if x then o else replicate (length o) false) l).

Lemma length_product l o : length (product l o) = (length l * length o)%nat.
Proof.
  unfold product. induction l as [|x l IH]; [done|]. cbn. rewrite length_app, IH.
  destruct x; rewrite ?length_replicate; lia.
Qed.

Lemma product_lookup l o i k : (i < length l)%nat → (k < length o)%nat →
  product l o !! (i * length o + k)%nat = Some (nth i l false && nth k o false).
Proof.
  revert i. induction l as [|x l IH]; intros i Hi Hk; [simpl in Hi; lia|].
  assert (HL : length (if x then o else replicate (length o) false) = length o) by (destruct x; by rewrite ?length_replicate).
  change (product (x :: l) o) with ((if x then o else replicate (length o) false) ++ product l o).
  destruct i as [|i]; cbn [nth].
  - rewrite lookup_app_l by lia. simpl. destruct x; cbn [andb].
    + destruct (lookup_lt_is_Some_2 o k Hk) as [y Hy]. by rewrite Hy, (nth_lookup_Some _ _ _ _ Hy).
    + by rewrite lookup_replicate_2 by lia.
  - rewrite lookup_app_r by (rewrite HL; simpl; lia). rewrite HL.
    replace (S i * length o + k - length o)%nat with (i * length o + k)%nat by lia. apply IH; [simpl in Hi; lia|done].
Qed.

Lemma count_product l o : spec.count (product l o) = spec.count l * spec.count o.
Proof.
  induction l as [|x l IH]; [done|].
  change (product (x :: l) o) with ((if x then o else replicate (length o) false) ++ product l o).
  rewrite count_app, IH. change (x :: l) with ([x] ++ l). rewrite count_app. destruct x.
  - change (spec.count [true]) with 1. lia.
  - assert (spec.count (replicate (length o) false) = 0) as ->.
    { unfold spec.count. induction (length o); simpl; done. }
    change (spec.count [false]) with 0. lia.
Qed.

(** Between the first and the last element of a contiguous list all are set. *)
Lemma contiguous_between l i j k : spec.contiguous true l = true → l !! i = Some true → l !! k = Some true →
  (i <= j <= k)%nat → l !! j = Some true.
Proof.
  intros (a & n & c & ->)%contiguous_form Hi Hk Hj. cbn [negb] in *.
  assert (HL : ∀ m, (replicate a false ++ replicate n true ++ replicate c false) !! m = Some true → (a <= m < a + n)%nat).
  { intros m Hm. apply lookup_app_Some in Hm as [Hm|[Ham Hm]]; [by apply lookup_replicate_1 in Hm as []|].
    rewrite length_replicate in *. apply lookup_app_Some in Hm as [Hm|[_ Hm]]; [|by apply lookup_replicate_1 in Hm as []].
    apply lookup_replicate_1 in Hm as [_ Hm]. lia. }
  apply HL in Hi, Hk. rewrite lookup_app_r, lookup_app_l by (rewrite ?length_replicate; lia).
  apply lookup_replicate_2. rewrite length_replicate. lia.
Qed.

(** ** One copy of [other] *)
Section product.
Context (N F : Z) (HF : 1 <= F <= 64) (HN : 0 <= F * N < 2 ^ 31).

Lemma product_capacity : 0 <= N < 2 ^ 31.
Proof. nia. Qed.

Lemma or_word_bits M r n f q x : 0 <= q < zlen (buffer r) → has_bits M r n f → u64 x →
  (∀ p, n <= p → p / 64 = q → Z.testbit x (p mod 64) = false) →
  ∃ r', set_word r q (λ w, Ok (Z.lor w x)) = Ok r' ∧ zlen (buffer r') = zlen (buffer r) ∧
    has_bits M r' n (λ p, f p || ((p / 64 =? q) && Z.testbit x (p mod 64))).
Proof.
  intros Hq (Hr & Hn & Hf) Hx H0. pose proof Hr as (Hz & Hu & Hs & Hz0). unfold size in Hn. subst n.
  rewrite (set_word_spec r q _ (Z.lor (word (buffer r) q) x)) by done. eexists. split; [done|].
  split; [unfold zlen; cbn [buffer]; by rewrite length_insert|].
  apply has_bits_intro; [unfold zlen; by rewrite length_insert| |done|].
  { apply Forall_insert; [done|]. apply u64_lor; [by apply word_u64|done]. }
  intros p Hp. unfold bit at 1. rewrite word_insert by lia. destruct (Z.eqb_spec (p / 64) q) as [<-|]; cbn [andb].
  - rewrite Z.lor_spec. change (Z.testbit (word (buffer r) (p / 64)) (p mod 64)) with (bit (buffer r) p).
    destruct (Z.ltb_spec p (cur_size r)); [by rewrite Hf by lia|]. rewrite Hz0, H0 by done. done.
  - change (Z.testbit (word (buffer r) (p / 64)) (p mod 64)) with (bit (buffer r) p).
    destruct (Z.ltb_spec p (cur_size r)); [rewrite Hf by lia; by rewrite orb_false_r|]. by apply Hz0.
Qed.

Lemma expansion_bits other r n f i : wf F other → size other = F → has_bits (F * N) r n f → n <= F * N → 0 <= i → (i + 1) * F <= n →
  ∃ r', kronecker_expansion F other r i = Ok r' ∧
    has_bits (F * N) r' n (λ p, f p || ((i * F <=? p) && (p <? (i + 1) * F) && bit (buffer other) (p - i * F))).
Proof.
  intros Ho Hso Hr HnN Hi Hle. pose proof Hr as ((Hz & _) & _). pose proof Ho as (Hzo & Huo & _ & Hzo0).
  unfold max_nof_words_, bits_per_word in Hz, Hzo. unfold kronecker_expansion, bits_per_word.
  rewrite vec_at_word by lia. cbn [mbind result_bind]. rewrite Hso.
  assert (HW : ∀ k, 0 <= k → Z.testbit (word (buffer other) 0) k = bit (buffer other) k).
  { intros k Hk. destruct (decide (k < 64)); [by rewrite <- (bit_at _ 0 k) by lia|].
    rewrite (bit_buffer.fits_bit 64) by (by apply word_u64 || lia). symmetry. apply Hzo0. unfold size in Hso. lia. }
  assert (HW0 : ∀ k, F <= k → Z.testbit (word (buffer other) 0) k = false).
  { intros k Hk. rewrite HW by lia. apply Hzo0. unfold size in Hso. lia. }
  pose proof (word_u64 (buffer other) 0 Huo) as Hw. set (w := word (buffer other) 0) in *. clearbody w.
  set (q := i * F / 64). set (o := i * F mod 64). assert (Hqo : i * F = 64 * q + o ∧ 0 <= o < 64) by lia.
  clearbody q o. destruct Hqo as [HiF Ho64].
  assert (Hlow : ∀ k, 0 <= k < 64 → Z.testbit (wrap 64 (w ≪ o)) k = (o <=? k) && Z.testbit w (k - o)).
  { intros k Hk. rewrite bit_buffer.wrap_bit, Z.shiftl_spec by lia. replace (k <? 64) with true by lia. cbn [andb].
    destruct (Z.leb_spec o k); [done|]. by rewrite Z.testbit_neg_r by lia. }
  destruct (or_word_bits (F * N) r n f q (wrap 64 (w ≪ o))) as (r1 & -> & Hz1 & Hr1); [lia|done|by apply wrap_fits| |].
  { intros p Hp Hpq. rewrite Hlow by lia. destruct (Z.leb_spec o (p mod 64)); [|done]. apply HW0. lia. }
  cbn [mbind result_bind].
  assert (Hgoal : ∀ p, 0 <= p < n →
    (f p || ((p / 64 =? q) && Z.testbit (wrap 64 (w ≪ o)) (p mod 64))) || ((p / 64 =? q + 1) && (64 - o <? F) && Z.testbit w (p mod 64 + (64 - o))) =
    f p || ((i * F <=? p) && (p <? (i + 1) * F) && bit (buffer other) (p - i * F))).
  { intros p Hp. rewrite <- orb_assoc. f_equal. rewrite Hlow by lia.
    destruct (Z.eqb_spec (p / 64) q); [|destruct (Z.eqb_spec (p / 64) (q + 1))]; cbn [andb orb].
    - rewrite (proj2 (Z.eqb_neq (p / 64) (q + 1))), orb_false_r by lia.
      replace (p mod 64 - o) with (p - i * F) by lia. replace (o <=? p mod 64) with (i * F <=? p) by lia.
      destruct (Z.leb_spec (i * F) p); [|done]. rewrite HW by lia. cbn [andb].
      destruct (Z.ltb_spec p ((i + 1) * F)); [done|]. rewrite <- HW, HW0 by lia. done.
    - replace (p mod 64 + (64 - o)) with (p - i * F) by lia. replace (i * F <=? p) with true by lia. cbn [andb].
      rewrite HW by lia. destruct (Z.ltb_spec (64 - o) F).
      + destruct (Z.ltb_spec p ((i + 1) * F)); [done|]. rewrite <- HW, HW0 by lia. done.
      + by replace (p <? (i + 1) * F) with false by lia.
    - symmetry. destruct (Z.leb_spec (i * F) p); [|done]. by replace (p <? (i + 1) * F) with false by lia. }
  destruct (negb (o =? 0) && (64 <? o + F)) eqn:Ecarry.
  - destruct (or_word_bits (F * N) r1 n _ (q + 1) (w ≫ (64 - o)) ltac:(lia) Hr1) as (r2 & HE2 & _ & Hr2).
    + apply (fits_mono o); [lia|]. apply fits_shiftr; [lia|lia|]. by replace (o + (64 - o)) with 64 by lia.
    + intros p Hp Hpq. rewrite Z.shiftr_spec by lia. apply HW0. lia.
    + exists r2. split; [exact HE2|]. eapply has_bits_ext; [exact Hr2|]. intros p Hp. cbn beta. rewrite <- Hgoal by done.
      rewrite Z.shiftr_spec by lia. by replace (64 - o <? F) with true by lia; rewrite ?andb_true_r.
  - exists r1. split; [done|]. eapply has_bits_ext; [exact Hr1|]. intros p Hp. cbn beta. rewrite <- Hgoal by done.
    destruct (Z.ltb_spec (64 - o) F); [|by rewrite andb_false_r, orb_false_r]. lia.
Qed.

Lemma expansions_bits other n ps : ∀ r f, wf F other → size other = F → has_bits (F * N) r n f → n <= F * N →
  (∀ i, i ∈ ps → 0 <= i ∧ (i + 1) * F <= n) →
  ∃ r', fold_result (kronecker_expansion F other) r ps = Ok r' ∧
    has_bits (F * N) r' n (λ p, f p || (existsb (Z.eqb (p / F)) ps && bit (buffer other) (p mod F))).
Proof.
  induction ps as [|i ps IH]; intros r f Ho Hso Hr Hn Hps; cbn [fold_result].
  { exists r. split; [done|]. eapply has_bits_ext; [done|]. intros p Hp. by rewrite orb_false_r. }
  destruct (Hps i) as [Hi Hin]; [set_solver|].
  destruct (expansion_bits other r n f i Ho Hso Hr Hn Hi Hin) as (r1 & -> & Hr1). cbn [mbind result_bind].
  destruct (IH r1 _ Ho Hso Hr1 Hn) as (r2 & HE & Hr2); [set_solver|]. exists r2. split; [done|].
  eapply has_bits_ext; [exact Hr2|]. intros p Hp. cbn beta. cbn [existsb].
  replace ((i * F <=? p) && (p <? (i + 1) * F)) with (p / F =? i).
  - destruct (Z.eqb_spec (p / F) i) as [<-|]; cbn [andb orb]; [|by rewrite orb_false_r].
    replace (p - p / F * F) with (p mod F) by (rewrite Z.mod_eq by lia; lia).
    destruct (f p), (bit (buffer other) (p mod F)); cbn [andb orb]; rewrite ?andb_false_r; done.
  - apply eq_true_iff_eq. rewrite andb_true_iff, Z.eqb_eq, Z.leb_le, Z.ltb_lt. split.
    + intros <-. pose proof (Z.div_mod p F). pose proof (Z.mod_pos_bound p F). nia.
    + intros [? ?]. symmetry. apply (Z.div_unique p F i (p - i * F)); lia.
Qed.

(** A set with those bits is the product. *)
Lemma product_list b other r : wf N b → wf F other → size other = F →
  has_bits (F * N) r (size b * F) (λ p, bit (buffer b) (p / F) && bit (buffer other) (p mod F)) →
  bits_of false r = product (bits_of false b) (bits_of false other).
Proof.
  intros Hb Ho Hso Hr. rewrite (has_bits_list _ _ _ _ _ Hr). unfold phys. pose proof (wf_size N b Hb).
  pose proof (length_bits false b). pose proof (length_bits false other).
  apply list_eq. intros i. rewrite lookup_map_seqZ. destruct (decide (Z.of_nat i < size b * F)).
  - assert (Hd : i = (Z.to_nat (Z.of_nat i / F) * length (bits_of false other) + Z.to_nat (Z.of_nat i mod F))%nat).
    { pose proof (Z.div_mod (Z.of_nat i) F). pose proof (Z.mod_pos_bound (Z.of_nat i) F).
      assert (0 <= Z.of_nat i / F) by (apply Z.div_pos; lia). rewrite H1, Hso. nia. }
    rewrite Hd at 3. pose proof (Z.mod_pos_bound (Z.of_nat i) F). pose proof product_capacity.
    assert (0 <= Z.of_nat i / F < size b) by (split; [apply Z.div_pos; lia|apply Z.div_lt_upper_bound; lia]).
    rewrite product_lookup by lia. rewrite (bits_nth N), (bits_nth F) by (done || lia). done.
  - symmetry. apply lookup_ge_None_2. rewrite length_product, H0, H1, Hso. nia.
Qed.

End product.

Section theorem.
Context (N F : Z) (HF : 1 <= F <= 64) (HFN : 0 <= F * N < 2 ^ 31).

(** The assertion on the number of ones holds of the product. *)
Lemma count_check b other r : wf N b → wf F other → wf (F * N) r → 
  bits_of false r = product (bits_of false b) (bits_of false other) →
  (c ← count b; c' ← count other; c'' ← count r; assume (c * c' =? c'') AssertFailed;; Ok r) = Ok r.
Proof.
  intros Hb Ho Hr HB. pose proof (product_capacity N F HF HFN) as HN. assert (HF' : 0 <= F < 2 ^ 31) by lia.
  rewrite (count_list N false HN b Hb), (count_list F false HF' other Ho), (count_list (F * N) false HFN r Hr).
  cbn [mbind result_bind]. rewrite HB, count_product, Z.eqb_refl. done.
Qed.

Lemma existsb_eqb_seqZ i a n : existsb (Z.eqb i) (seqZ a n) = (a <=? i) && (i <? a + n).
Proof.
  apply eq_true_iff_eq. rewrite existsb_seqZ. split.
  - intros (j & Hj & ->%Z.eqb_eq). lia.
  - intros H. exists i. rewrite Z.eqb_refl. lia.
Qed.

Lemma div_in_range b p : wf N b → 0 <= p < size b * F → 0 <= p / F < size b ∧ 0 <= p mod F < F.
Proof.
  intros Hb Hp. split; [|apply Z.mod_pos_bound; lia]. split; [apply Z.div_pos; lia|apply Z.div_lt_upper_bound; lia].
Qed.

(** Both ways of placing copies between the first and the last set bit. *)
Lemma contiguous_product b other r0 lo hi : wf N b → wf F other → size other = F →
  has_bits (F * N) r0 (size b * F) (λ _, false) → 0 <= lo <= hi → hi < size b →
  (∀ i, 0 <= i < size b → bit (buffer b) i = (lo <=? i) && (i <? hi + 1)) →
  ∃ r, (other_all ← all other;
        if (other_all : bool) then fill false r0 (lo * F) ((hi + 1) * F) true
        else fold_result (kronecker_expansion F other) r0 (seqZ lo (hi + 1 - lo))) = Ok r ∧
    has_bits (F * N) r (size b * F) (λ p, bit (buffer b) (p / F) && bit (buffer other) (p mod F)).
Proof.
  intros Hb Ho Hso Hr0 Hlo Hhi HB. pose proof (wf_size N b Hb). pose proof (product_capacity N F HF HFN) as HN.
  destruct (all_bits F ltac:(lia) other Ho) as (v & -> & Hv). cbn [mbind result_bind]. destruct v.
  - pose proof Hr0 as (Hwr & Hsr & _). 
    destruct (fill_bits (F * N) false HFN r0 (lo * F) ((hi + 1) * F) true Hwr) as (r & HE & HR); [nia|rewrite Hsr; nia|].
    exists r. split; [exact HE|]. rewrite Hsr in HR. eapply has_bits_ext; [exact HR|]. intros p Hp. cbn beta.
    destruct (div_in_range b p Hb Hp) as [Hd Hm]. rewrite (proj1 Hv eq_refl), HB, andb_true_r by (lia || rewrite Hso; lia).
    destruct Hr0 as (_ & _ & H0). rewrite (H0 p Hp). unfold within, phys_range. cbn [fst snd].
    pose proof (Z.div_mod p F). apply eq_true_iff_eq. split.
    + destruct (_ && _) eqn:E; [|done]. intros _. rewrite andb_true_iff, Z.leb_le, Z.ltb_lt in *. nia.
    + intros E. replace ((lo * F <=? p) && (p <? (hi + 1) * F)) with true; [done|]. symmetry.
      rewrite andb_true_iff, Z.leb_le, Z.ltb_lt in *. nia.
  - destruct (expansions_bits N F HF HFN other (size b * F) (seqZ lo (hi + 1 - lo)) r0 (λ _, false) Ho Hso Hr0)
      as (r & HE & HR); [nia|intros i Hi%elem_of_seqZ; nia|].
    exists r. split; [done|]. eapply has_bits_ext; [exact HR|]. intros p Hp. cbn [orb].
    destruct (div_in_range b p Hb Hp) as [Hd Hm]. rewrite existsb_eqb_seqZ, HB by done.
    by replace (lo + (hi + 1 - lo)) with (hi + 1) by lia.
Qed.

Lemma kronecker_product_list b other :
  wf N b → wf F other → size other = F → 0 < size b →
  ∃ r, kronecker_product N F b other = Ok r ∧ wf (F * N) r ∧
    bits_of false r = product (bits_of false b) (bits_of false other).
Proof.
  intros Hb Ho Hso Hpos. pose proof (wf_size N b Hb). pose proof (product_capacity N F HF HFN) as HN.
  unfold kronecker_product. rewrite Hso.
  destruct (create_bits (F * N) HFN (size b * F)) as (r0 & -> & Hr0); [nia|]. cbn [mbind result_bind].
  assert (Hfin : ∀ r, has_bits (F * N) r (size b * F) (λ p, bit (buffer b) (p / F) && bit (buffer other) (p mod F)) →
    wf (F * N) r ∧ bits_of false r = product (bits_of false b) (bits_of false other)).
  { intros r Hr. split; [apply Hr|]. by apply (product_list N F). }
  rewrite (is_contiguous_list N) by done. cbn [mbind result_bind].
  destruct (spec.contiguous true (bits_of false b)) eqn:EC.
  - unfold find_lowest, find_highest.
    destruct (find_lowest_spec N false HN b 0 (size b) true Hb) as (lo & -> & Hlo); [lia..|].
    destruct (find_highest_spec N false HN b 0 (size b) true Hb) as (hi & -> & Hhi); [lia..|]. cbn [mbind result_bind].
    destruct Hlo as [[-> Hno]|(Hlo & Hlov & Hlo')].
    { exists r0. split; [done|]. apply Hfin. eapply has_bits_ext; [exact Hr0|]. intros p Hp. cbn beta.
      destruct (div_in_range b p Hb Hp). specialize (Hno (p / F) ltac:(lia)).
      unfold has, phys in Hno. by destruct (bit (buffer b) (p / F)). }
    destruct Hhi as [[-> Hno]|(Hhi & Hhiv & Hhi')]; [by destruct (Hno lo)|].
    replace ((lo <? 0) || (hi + 1 <=? 0)) with false by lia.
    assert (lo <= hi) by (destruct (Z.lt_ge_cases hi lo); [exfalso; apply (Hhi' lo); [lia|done]|done]).
    destruct (contiguous_product b other r0 lo hi Hb Ho Hso Hr0) as (r & HE & HR); [lia|lia| |].
    { intros i Hi. destruct ((lo <=? i) && (i <? hi + 1)) eqn:E.
      - pose proof (contiguous_between (bits_of false b) (Z.to_nat lo) (Z.to_nat i) (Z.to_nat hi) EC) as HC.
        rewrite !bits_lookup, !Z2Nat.id, !decide_True in HC by lia. rewrite Hlov, Hhiv in HC.
        specialize (HC eq_refl eq_refl ltac:(lia)). by injection HC as HC.
      - apply not_true_is_false. destruct (Z.lt_ge_cases i lo); [apply Hlo'; lia|apply Hhi'; lia]. }
    destruct (Hfin r HR) as [Hwr HB]. exists r. split; [|done].
    rewrite <- (count_check b other r) by done. rewrite <- bind_assoc. by rewrite HE.
  - rewrite (for_each_list N HN) by (done || lia).
    destruct (expansions_bits N F HF HFN other (size b * F) (spec.positions 0 (size b) true (bits_of false b)) r0 (λ _, false) Ho Hso Hr0)
      as (r & HE & HR); [nia| |].
    { intros i Hi. unfold spec.positions in Hi. apply list_elem_of_In, filter_In in Hi as [Hi _].
      apply list_elem_of_In, elem_of_seqZ in Hi. nia. }
    rewrite HE. cbn [mbind result_bind]. exists r.
    assert (HR' : has_bits (F * N) r (size b * F) (λ p, bit (buffer b) (p / F) && bit (buffer other) (p mod F))).
    { eapply has_bits_ext; [exact HR|]. intros p Hp. cbn [orb]. f_equal. destruct (div_in_range b p Hb Hp) as [Hd _].
      rewrite (positions_bits N) by (done || lia). apply eq_true_iff_eq. rewrite existsb_exists. split.
      - intros (j & Hj & <-%Z.eqb_eq). apply filter_In in Hj as [_ Hj]. by apply Bool.eqb_prop.
      - intros HBp. exists (p / F). rewrite Z.eqb_refl. split; [|done]. apply filter_In.
        split; [apply list_elem_of_In, elem_of_seqZ; lia|]. by rewrite HBp. }
    destruct (Hfin r HR') as [Hwr HB]. split; [|done]. by rewrite (count_check b other r).
Qed.

(** The Kronecker product with a filter that fills its type is what its documentation
    says, if the set is not empty: every set bit is replaced by the filter, every clear one
    by clear bits.  The fast path for contiguous sets and full filters, the word-wise
    copies and the visit of arbitrary sets agree, and the assertion on the number of ones
    holds.  For an empty set the search for its highest bit reads outside its array. *)
Theorem kronecker_product_correct b other :
  wf N b → wf F other → size other = F →
  if 0 <? size b then
    ∃ r, kronecker_product N F b other = Ok r ∧ wf (F * N) r ∧
      bits_of false r = product (bits_of false b) (bits_of false other)
  else kronecker_product N F b other = Fault OutOfBounds.
Proof.
  intros Hb Ho Hso. pose proof (wf_size N b Hb). pose proof (product_capacity N F HF HFN) as HN.
  destruct (Z.ltb_spec 0 (size b)); [by apply kronecker_product_list|].
  assert (Hs0 : size b = 0) by lia. unfold kronecker_product. rewrite Hso, Hs0.
  destruct (create_bits (F * N) HFN (0 * F)) as (r0 & -> & _); [lia|]. cbn [mbind result_bind].
  rewrite (is_contiguous_list N) by done. cbn [mbind result_bind].
  replace (bits_of false b) with ([] : list bool) by (symmetry; apply length_zero_iff_nil; rewrite length_bits, Hs0; done).
  change (spec.contiguous true []) with true. cbn iota. unfold find_lowest, find_highest. rewrite Hs0.
  rewrite (find_lowest_list N) by (done || lia). cbn [mbind result_bind].
  by rewrite (find_highest_bottom N) by done.
Qed.

End theorem.

(** C40: The representation invariant of the class, that its array has the length its
    capacity needs, holds 64-bit words and no bit past the current size, is established by
    the constructors, kept by every call of [op] that returns, with arguments as in
    [op_ok], and holds of the sets that
    [slice] makes of the ranges of a set and [kronecker_product] of a set that is not empty
    and a filter that fills its type.  A shorter filter breaks it
    ([kronecker_short_filter]). *)
Theorem bitset_invariant N rev :
  0 <= N < 2 ^ 31 →
  (∀ n, 0 <= n <= N → ∃ b, create N n = Ok b ∧ wf N b ∧ bits_of rev b = replicate (Z.to_nat n) false) ∧
  (∀ values, zlen values <= N → ∃ b, of_values N rev values = Ok b ∧ wf N b ∧ bits_of rev b = values) ∧
  (∀ b, wf N b → copy N b = Ok b) ∧
  (∀ ops b b' answers, wf N b → Forall (op_ok N rev) ops → run N rev b ops = Ok (b', answers) → wf N b') ∧
  (∀ N2 b s e, 0 <= N2 < 2 ^ 31 → wf N b → 0 <= s <= e → e <= size b → e - s <= N2 →
    ∃ c, slice N2 rev b s e = Ok c ∧ wf N2 c) ∧
  (∀ F b other, 1 <= F <= 64 → F * N < 2 ^ 31 → wf N b → wf F other → size other = F → 0 < size b →
    ∃ r, kronecker_product N F b other = Ok r ∧ wf (F * N) r).
Proof.
  intros HN. split; [|split; [|split; [|split; [|split]]]].
  - intros n Hn. destruct (create_list N rev HN n Hn) as (b & HE & Hw & _ & HB). by exists b.
  - intros values Hv. by apply of_values_list.
  - intros b Hw. by apply copy_wf.
  - intros ops b b' answers Hw Hok HE. by eapply run_wf.
  - intros N2 b s e HN2 Hw Hs He Hle. destruct (slice_list N rev HN N2 b s e) as (c & HE & Hc & _); try done. by exists c.
  - intros F b other HF HFN Hb Ho Hso Hpos.
    destruct (kronecker_product_list N F HF ltac:(nia) b other) as (r & HE & Hr & _); try done. by exists r.
Qed.

(** ** Packing into bytes *)
Section packing.
Context (N : Z) (HN : 0 <= N < 2 ^ 31).

(** Byte [m] of a set in memory order. *)
Definition byte (b : t) (m : Z) : Z := wrap 8 (Z.land (word (buffer b) (m / 8) ≫ (m mod 8 * 8)) (mask_lsb_ones 64 8)).

Lemma byte_bits b m k : 0 <= m → 0 <= k < 8 → Z.testbit (byte b m) k = bit (buffer b) (8 * m + k).
Proof.
  intros Hm Hk. unfold byte. rewrite bit_buffer.wrap_bit, Z.land_spec, bit_buffer.mask_lsb_ones_bit, Z.shiftr_spec by lia.
  replace (k <? 8) with true by lia. rewrite andb_true_r. cbn [andb]. unfold bit. f_equal; [f_equal; lia|lia].
Qed.

Lemma map_bytes b i n : 0 <= n <= 8 →
  map (λ j, wrap 8 (Z.land (word (buffer b) i ≫ (j * 8)) (mask_lsb_ones 64 8))) (seqZ 0 n) = map (byte b) (seqZ (8 * i) n).
Proof.
  intros Hn. rewrite <- (Z.add_0_r (8 * i)), <- fmap_add_seqZ.
  change (Z.add (8 * i) <$> seqZ 0 n) with (map (Z.add (8 * i)) (seqZ 0 n)). rewrite map_map. apply map_ext_in.
  intros j Hj. apply list_elem_of_In, elem_of_seqZ in Hj. unfold byte.
  replace ((8 * i + j) / 8) with i by lia. by replace ((8 * i + j) mod 8) with j by lia.
Qed.

Lemma packed_words b (steps : Z → Z) n : wf N b → 0 <= n <= nof_words_ b → (∀ i, 0 <= i < n → steps i = 8) →
  fold_result (λ packed i, w ← vec_at (buffer b) i;
    Ok (packed ++ map (λ j, wrap 8 (Z.land (w ≫ (j * 8)) (mask_lsb_ones 64 8))) (seqZ 0 (steps i)))) [] (seqZ 0 n) =
  Ok (map (byte b) (seqZ 0 (8 * n))).
Proof.
  intros Hw [Hn Hle]. pose proof (wf_words N b Hw). revert Hle. pattern n.
  apply natlike_ind; [|clear n Hn; intros n Hn IH|done]; intros Hle Hst; [done|].
  rewrite <- Z.add_1_r, seqZ_app, fold_result_app, IH by (lia || intros; apply Hst; lia). cbn [mbind result_bind].
  rewrite (seqZ_cons _ 1) by lia. rewrite (seqZ_nil _ (Z.pred 1)) by done. cbn [fold_result]. rewrite Z.add_0_l.
  rewrite vec_at_word by lia. cbn [mbind result_bind]. rewrite Hst, map_bytes by lia.
  replace (8 * (n + 1)) with (8 * n + 8) by lia. by rewrite seqZ_app, map_app by lia.
Qed.

(** Packing a non-empty set into bytes, lowest bit first: byte [m] holds the bits from
    [8 m] on, and there is a byte for every eight bits or part of them, unless the size is
    a multiple of 64: then the last 64 bits are missing from the result. *)
Theorem to_packed_bits_bytes b nof_packed :
  wf N b → 0 < size b → (size b + 7) / 8 <= nof_packed →
  let n := if size b mod 64 =? 0 then size b / 8 - 8 else (size b + 7) / 8 in
  ∃ l, to_packed_bits false 8 b nof_packed = Ok l ∧ zlen l = n ∧
    ∀ m k, 0 <= m < n → 0 <= k < 8 →
      Z.testbit (nth (Z.to_nat m) l 0) k = (8 * m + k <? size b) && nth (Z.to_nat (8 * m + k)) (bits_of false b) false.
Proof.
  intros Hw Hpos Hnp n. pose proof (wf_size N b Hw). pose proof (wf_words N b Hw).
  set (last := (size b mod 64 + 7) / 8). set (nw := nof_words_ b) in *.
  assert (Hnw : size b <= 64 * nw < size b + 64) by (unfold nw, nof_words_, bits_per_word; lia).
  assert (Hn : n = 8 * (nw - 1) + last ∧ 0 <= last <= 8).
  { unfold n, last. destruct (Z.eqb_spec (size b mod 64) 0); lia. }
  clearbody n.
  assert (HE : to_packed_bits false 8 b nof_packed = Ok (map (byte b) (seqZ 0 n))).
  { unfold to_packed_bits. fold nw. rewrite (wrap_small 32 nw) by lia_fits. cbn [negb].
    change (64 / 8) with 8. unfold bits_per_word. replace (size b mod 64 + 8 - 1) with (size b mod 64 + 7) by lia. fold last.
    rewrite (wrap_small 32 (nw - 1)), (wrap_small 32 ((nw - 1) * 8 + last)) by lia_fits. pass_assume.
    replace (seqZ 0 nw) with (seqZ 0 ((nw - 1) + 1)) by (f_equal; lia). rewrite seqZ_app, fold_result_app by lia.
    rewrite (packed_words b (λ i, if i =? nw - 1 then last else 8)); [|done|lia|].
    2: { intros i Hi. by rewrite (proj2 (Z.eqb_neq i (nw - 1))) by lia. }
    cbn [mbind result_bind]. rewrite (seqZ_cons _ 1) by lia. rewrite (seqZ_nil _ (Z.pred 1)) by done. cbn [fold_result].
    rewrite Z.add_0_l, vec_at_word by lia. cbn [mbind result_bind]. rewrite Z.eqb_refl, map_bytes by lia.
    rewrite (proj1 Hn), seqZ_app, map_app, Z.add_0_l by lia. done. }
  exists (map (byte b) (seqZ 0 n)). split; [done|]. split; [unfold zlen; rewrite length_map, length_seqZ; lia|].
  intros m k Hm Hk. rewrite (nth_lookup_Some _ _ _ (byte b m)).
  - rewrite byte_bits by lia. rewrite (wf_bit N) by (done || lia). destruct (Z.ltb_spec (8 * m + k) (size b)); [|done].
    by rewrite (bits_nth N) by (done || lia).
  - rewrite lookup_map_seqZ, decide_True by lia. f_equal. f_equal. lia.
Qed.

End packing.

(** ** Examples *)
Module product_examples.

Lemma five_bits_wf : wf 5 (mk [13] 5).
Proof.
  split; [done|]. split; [by repeat constructor|]. split; [done|]. intros p Hp. unfold bit, word. cbn [buffer cur_size] in *.
  destruct (decide (p < 64)) as [Hlt|]; [|rewrite nth_overflow by (cbn [length]; lia); apply Z.bits_0].
  replace (p / 64) with 0 by lia. change (nth (Z.to_nat 0) (?x :: _) 0) with x. by apply (bit_buffer.fits_bit 5); [|lia|].
Qed.

Lemma filter_wf : wf 3 (mk [5] 3).
Proof.
  split; [done|]. split; [by repeat constructor|]. split; [done|]. intros p Hp. unfold bit, word. cbn [buffer cur_size] in *.
  destruct (decide (p < 64)) as [Hlt|]; [|rewrite nth_overflow by (cbn [length]; lia); apply Z.bits_0].
  replace (p / 64) with 0 by lia. change (nth (Z.to_nat 0) (?x :: _) 0) with x. by apply (bit_buffer.fits_bit 3); [|lia|].
Qed.

(** A set of five bits filled and cut, and one spread by a filter of three. *)
Definition cut : list (op t) := [Resize 5; Fill 1 4 true; SetBit 2 false; Slice 4 1 4].

Lemma bitset_invariant_witness :
  run 5 false (mk [13] 5) cut = Ok (mk [11] 5, [Done; Done; Done; ASet (mk [5] 3)]) ∧ wf 5 (mk [11] 5) ∧
  (∃ c, slice 4 false (mk [13] 5) 1 4 = Ok c ∧ wf 4 c) ∧
  (∃ r, kronecker_product 5 3 (mk [13] 5) (mk [5] 3) = Ok r ∧ wf 15 r).
Proof.
  destruct (bitset_invariant 5 false ltac:(done)) as (_ & _ & _ & HR & HS & HK).
  split; [reflexivity|]. split; [|split].
  - apply (HR cut (mk [13] 5) _ [Done; Done; Done; ASet (mk [5] 3)]); [apply five_bits_wf| |reflexivity].
    unfold cut. repeat constructor; cbn; lia.
  - apply HS; [done|apply five_bits_wf|done..].
  - apply (HK 3); [done|done|apply five_bits_wf|apply filter_wf|reflexivity|done].
Defined.

(** Five bits spread by a filter of three, contiguous and not. *)
Lemma kronecker_product_correct_witness :
  ∃ r, kronecker_product 5 3 (mk [13] 5) (mk [5] 3) = Ok r ∧ wf 15 r ∧
    bits_of false r = product (bits_of false (mk [13] 5)) (bits_of false (mk [5] 3)).
Proof.
  apply (kronecker_product_correct 5 3 ltac:(done) ltac:(done) (mk [13] 5) (mk [5] 3)).
  - apply five_bits_wf.
  - apply filter_wf.
  - reflexivity.
Defined.

Lemma to_packed_bits_bytes_witness :
  ∃ l, to_packed_bits false 8 (mk [2 ^ 20 + 5; 0] 70) 9 = Ok l ∧ zlen l = 9.
Proof.
  destruct (to_packed_bits_bytes 128 ltac:(done) (mk [2 ^ 20 + 5; 0] 70) 9) as (l & HE & HZ & _).
  - split; [done|]. split; [repeat constructor; done|]. split; [done|]. intros p Hp. unfold bit, word. cbn [buffer cur_size] in *.
    destruct (decide (p < 128)); [replace (p / 64) with 1 by lia; apply Z.bits_0|].
    rewrite nth_overflow by (cbn [length]; lia). apply Z.bits_0.
  - done.
  - done.
  - exists l. split; [exact HE|exact HZ].
Defined.

(** Calls that do not do what is documented: a bit appended to a set whose lowest bit is
    the highest in memory overwrites the last one; 64-bit sets cannot be loaded from an
    integer; the search for the highest bit of an empty set reads outside the array, as
    does the product of an empty set; a filter shorter than its type is copied to wrong
    positions and past the size; packing into 16-bit integers repeats bits; more than 32
    bits cannot be extracted. *)
Lemma push_back_reversed : (b ← of_values 8 true [true; true]; b ← push_back 8 true b false; Ok (bits_of true b)) =
  Ok [false; true; false].
Proof. reflexivity. Qed.
Lemma from_uint64_full : (b ← create 64 64; from_uint64 b 1) = Fault BadShift.
Proof. reflexivity. Qed.
Lemma find_highest_empty : (b ← create 64 0; find_highest false b true) = Fault OutOfBounds.
Proof. reflexivity. Qed.
Lemma kronecker_empty : (b ← create 8 0; o ← of_values 2 false [true; true]; kronecker_product 8 2 b o) = Fault OutOfBounds.
Proof. reflexivity. Qed.
Lemma kronecker_short_filter :
  (b ← of_values 8 false [false; true; true]; o ← of_values 4 false [true; false];
   r ← kronecker_product 8 4 b o; Ok (bits_of false r, bit (buffer r) 8)) =
  Ok ([false; false; false; false; true; false], true).
Proof. reflexivity. Qed.
Lemma packed_16_bits : (b ← of_values 32 false (replicate 16 false ++ replicate 4 true); to_packed_bits false 16 b 2) =
  Ok [0; 61440].
Proof. reflexivity. Qed.
Lemma extract_33_bits : (b ← of_values 64 false (replicate 33 true); extract false 64 b 0 33) = Fault BadShift.
Proof. reflexivity. Qed.

End product_examples.
