(* ===== verification/ResourceGrid.v ===== *)
(** * ResourceGrid: tensors and the resource grid the fronthaul reads and writes

    Models include/srsran/adt/tensor.h (views of a tensor in one block of memory),
    lib/phy/support/resource_grid_impl.cpp, resource_grid_writer_impl.cpp and
    resource_grid_reader_impl.cpp.  A grid holds one brain-float sample per
    subcarrier, symbol and port, and a bit per port that says whether the port was
    left empty, so that clearing the grid can skip it.

    A view ([span]) into the elements is a [window]: where it starts and how long it
    is.  The elements are shared by all views, so a write through one is seen through
    the others.  [srsvec::convert] is its scalar loop. *)

From S2P Require Import Prelude Bf16 OfhBase BoundedBitset BitsetSpec.

(** [cf_t]: the bit patterns of the two floats. *)
Record cf_t : Type := mk_cf { cf_real : Z; cf_imag : Z }.

Definition to_cbf16 (value : cf_t) : cbf16_t := mk_cbf16 (to_bf16 (cf_real value)) (to_bf16 (cf_imag value)).
Definition to_cf (value : cbf16_t) : cf_t := mk_cf (to_float (real value)) (to_float (imag value)).

Definition NRE : Z := 12.
Definition MAX_RB : Z := 275.
(** The capacity of the masks. *)
Abbreviation mask_capacity := (NRE * MAX_RB).

(** ** Tensors *)
Module tensor.

Record window : Type := mk_window { start : Z; len : Z }.

Definition window_sub (w : window) (offset count : Z) : result window :=
  assume (offset <=? len w) AssertFailed;;
  assume (count <=? len w - offset) AssertFailed;;
  Ok (mk_window (start w + offset) count).

(** [v[i]] for reading and for writing. *)
Definition at_ {A} (els : list A) (w : window) (i : Z) : result A :=
  assume (i <? len w) AssertFailed;; vec_at els (start w + i).

Definition put_at {A} (els : list A) (w : window) (i : Z) (x : A) : result (list A) :=
  assume (i <? len w) AssertFailed;;
  _ ← vec_at els (start w + i);
  Ok (<[Z.to_nat (start w + i) := x]> els).

(** All the elements a view covers, and a copy into it; [srsvec::copy] and
    [srsvec::convert] assert that the sizes agree. *)
Definition load {A} (els : list A) (w : window) : result (list A) := vec_range els (start w) (start w + len w).

Definition store {A} (els : list A) (w : window) (l : list A) : result (list A) :=
  assume (len w =? zlen l) AssertFailed;;
  _ ← load els w;
  Ok (take (Z.to_nat (start w)) els ++ l ++ drop (Z.to_nat (start w) + length l) els).

Record t (A : Type) : Type := mk { dimensions_size : list Z; elements : list A }.
#[global] Arguments mk {A} _ _.
#[global] Arguments dimensions_size {A} _.
#[global] Arguments elements {A} _.

Definition accumulate (sizes : list Z) : Z := foldl (λ acc d, wrap 32 (acc * d)) 1 sizes.

Section ops.
Context {A : Type} (zero : A).

Definition get_data (x : t A) : result window :=
  let all := mk_window 0 (zlen (elements x)) in
  assume (accumulate (dimensions_size x) <=? len all) AssertFailed;;
  window_sub all 0 (accumulate (dimensions_size x)).

(** One turn of the loop: the offset and the stride so far. *)
Definition add_dimension (acc : Z * Z) (index_size : Z * Z) : result (Z * Z) :=
  let '(offset, stride) := acc in
  let '(index, size) := index_size in
  assume (index <? size) AssertFailed;;
  Ok (wrap 32 (offset + stride * index), wrap 32 (stride * size)).

Definition get_view_offset (N : nat) (x : t A) (indices : list Z) : result Z :=
  '(offset, _) ← fold_result add_dimension (0, accumulate (take N (dimensions_size x)))
                   (zip indices (drop N (dimensions_size x)));
  Ok offset.

Definition get_view (N : nat) (x : t A) (indices : list Z) : result window :=
  data ← get_data x;
  let view_size := accumulate (take N (dimensions_size x)) in
  offset ← get_view_offset N x indices;
  window_sub data offset view_size.

Definition resize_elements (l : list A) (n : Z) : list A :=
  take (Z.to_nat n) l ++ replicate (Z.to_nat n - length l) zero.

(** [dynamic_tensor] *)
Definition reserve (x : t A) (dimensions : list Z) : t A :=
  mk dimensions (resize_elements (elements x) (accumulate dimensions)).

Definition resize (x : t A) (dimensions : list Z) : t A :=
  let total_size := accumulate dimensions in
  mk dimensions (if zlen (elements x) <? total_size then resize_elements (elements x) total_size else elements x).
End ops.

End tensor.
Import tensor.

(** ** The grid *)
Module resource_grid.

Record t : Type := mk {
  nof_ports : Z; nof_symb : Z; nof_subc : Z;
  rg_buffer : tensor.t cbf16_t; empty : Z }.

Definition zero : cbf16_t := mk_cbf16 0 0.
Definition with_elements (g : t) (els : list cbf16_t) : t :=
  mk (nof_ports g) (nof_symb g) (nof_subc g) (tensor.mk (dimensions_size (rg_buffer g)) els) (empty g).
Definition with_empty (g : t) (e : Z) : t := mk (nof_ports g) (nof_symb g) (nof_subc g) (rg_buffer g) e.

(** [1U << n] *)
Definition one_at (n : Z) : result Z := assume (n <? 32) BadShift;; Ok (1 ≪ n).
Definition all_empty (nof_ports : Z) : result Z := b ← one_at nof_ports; Ok (wrap 32 (b - 1)).

Definition create (nof_ports_ nof_symb_ nof_subc_ : Z) : result t :=
  let rg_buffer := tensor.reserve zero (tensor.mk [] []) [nof_subc_; nof_symb_; nof_ports_] in
  data ← tensor.get_data rg_buffer;
  els ← tensor.store (elements rg_buffer) data (replicate (Z.to_nat (len data)) zero);
  empty ← all_empty nof_ports_;
  Ok (mk nof_ports_ nof_symb_ nof_subc_ (tensor.mk (dimensions_size rg_buffer) els) empty).

(** The dimensions, as writer and reader ask the tensor for them. *)
Definition dimension (g : t) (i : nat) : Z := nth i (dimensions_size (rg_buffer g)) 0.
Definition get_nof_subc (g : t) : Z := dimension g 0.
Definition get_nof_symbols (g : t) : Z := dimension g 1.
Definition get_nof_ports (g : t) : Z := dimension g 2.

(** *** Which ports are empty *)

Definition is_port_empty (g : t) (i_port : Z) : result bool :=
  b ← one_at i_port; Ok (negb (Z.land (empty g) b =? 0)).

Definition clear_empty (g : t) (i_port : Z) : result t :=
  b ← one_at i_port; Ok (with_empty g (Z.land (empty g) (wrap 32 (Z.lnot b)))).

Definition is_empty_port (g : t) (port : Z) : result bool :=
  assume (port <? get_nof_ports g) AssertFailed;; is_port_empty g port.

Fixpoint is_empty_loop (g : t) (ports : list Z) : result bool :=
  match ports with
  | [] => Ok true
  | i_port :: ports =>
      e ← is_empty_port g i_port;
      if (e : bool) then is_empty_loop g ports else Ok false
  end.
Definition is_empty (g : t) : result bool := is_empty_loop g (seqZ 0 (get_nof_ports g)).

Definition zero_port (g : t) (port : Z) : result t :=
  e ← is_port_empty g port;
  if (e : bool) then Ok g else
  w ← get_view 2 (rg_buffer g) [port];
  els ← store (elements (rg_buffer g)) w (replicate (Z.to_nat (len w)) zero);
  Ok (with_elements g els).

Definition set_all_zero (g : t) : result t :=
  g ← fold_result zero_port g (seqZ 0 (nof_ports g));
  e ← all_empty (nof_ports g);
  Ok (with_empty g e).

(** *** Writer *)

Definition get_view_of (g : t) (port l : Z) : result window :=
  assume (l <? get_nof_symbols g) AssertFailed;;
  assume (port <? get_nof_ports g) AssertFailed;;
  get_view 1 (rg_buffer g) [l; port].

(** The body of the loop over the active subcarriers of a mask: the elements and the
    symbols left. *)
Definition put_one {S} (conv : S → cbf16_t) (symb : window) (st : list cbf16_t * list S) (i_subc : Z)
    : result (list cbf16_t * list S) :=
  let '(els, symbols) := st in
  match symbols with
  | [] => Fault AssertFailed
  | x :: _ =>
      els ← put_at els symb i_subc (conv x);
      symbols ← span_last symbols (zlen symbols - 1);
      Ok (els, symbols)
  end.

(** Both overloads with a mask; [conv] is the conversion to the type of the grid. *)
Definition put_mask {S} (conv : S → cbf16_t) (g : t) (port l k_init : Z) (mask : bounded_bitset.t) (symbols : list S)
    : result (t * list S) :=
  assume (l <? get_nof_symbols g) AssertFailed;;
  assume ((1 <=? bounded_bitset.size mask) && (bounded_bitset.size mask <=? get_nof_subc g)) AssertFailed;;
  assume (port <? get_nof_ports g) AssertFailed;;
  view ← get_view 1 (rg_buffer g) [l; port];
  symb ← window_sub view k_init (bounded_bitset.size mask);
  g ← clear_empty g port;
  count ← bounded_bitset.count mask;
  let mask_count := wrap 32 count in
  assume (mask_count <=? zlen symbols) AssertFailed;;
  contiguous ← (if mask_count =? 0 then Ok false else bounded_bitset.is_contiguous false mask true);
  if (contiguous : bool) then
    lowest ← bounded_bitset.find_lowest false mask true;
    dst ← window_sub symb (wrap 64 lowest) mask_count;
    src ← span_first symbols mask_count;
    els ← store (elements (rg_buffer g)) dst (map conv src);
    rest ← span_last symbols (zlen symbols - mask_count);
    Ok (with_elements g els, rest)
  else
    '(els, rest) ← bounded_bitset.for_each false mask 0 (bounded_bitset.size mask) (put_one conv symb) true
                     (elements (rg_buffer g), symbols);
    Ok (with_elements g els, rest).

Definition put_mask_cf := put_mask to_cbf16.
Definition put_mask_cbf16 := put_mask (λ x : cbf16_t, x).

Definition put (g : t) (port l k_init : Z) (symbols : list cf_t) : result t :=
  assume (k_init + zlen symbols <=? get_nof_subc g) AssertFailed;;
  assume (l <? get_nof_symbols g) AssertFailed;;
  assume (port <? get_nof_ports g) AssertFailed;;
  rg_symbol ← get_view 1 (rg_buffer g) [l; port];
  dst ← window_sub rg_symbol k_init (zlen symbols);
  els ← store (elements (rg_buffer g)) dst (map to_cbf16 symbols);
  clear_empty (with_elements g els) port.

Definition put_stride_one (rg_symbol : window) (stride : Z) (st : list cbf16_t * Z) (x : cbf16_t)
    : result (list cbf16_t * Z) :=
  let '(els, i_re) := st in
  els ← put_at els rg_symbol i_re x;
  Ok (els, wrap 32 (i_re + stride)).

Definition put_stride (g : t) (port l k_init stride : Z) (symbols : list cbf16_t) : result t :=
  let nof_symbols := wrap 32 (zlen symbols) in
  assume (wrap 32 (k_init + (wrap 32 (nof_symbols - 1) * stride + 1)) <=? get_nof_subc g) AssertFailed;;
  assume (l <? get_nof_symbols g) AssertFailed;;
  assume (port <? get_nof_ports g) AssertFailed;;
  rg_symbol ← get_view 1 (rg_buffer g) [l; port];
  '(els, _) ← fold_result (put_stride_one rg_symbol stride) (elements (rg_buffer g), k_init) symbols;
  clear_empty (with_elements g els) port.

(** *** Reader *)

(** The destination is a view of a buffer: what has been written of it, and the rest. *)
Definition get_one {S} (conv : cbf16_t → S) (els : list cbf16_t) (symb : window) (st : list S * list S) (i_subc : Z)
    : result (list S * list S) :=
  let '(done, symbols) := st in
  x ← at_ els symb i_subc;
  assume (negb (zlen symbols =? 0)) AssertFailed;;
  rest ← span_last symbols (zlen symbols - 1);
  Ok (done ++ [conv x], rest).

(** Both overloads with a mask.  Returns the part of the buffer written and the view
    of the rest that the function returns. *)
Definition get_mask {S} (conv : cbf16_t → S) (g : t) (symbols : list S) (port l k_init : Z) (mask : bounded_bitset.t)
    : result (list S * list S) :=
  assume (k_init + bounded_bitset.size mask <=? get_nof_subc g) AssertFailed;;
  assume (l <? get_nof_symbols g) AssertFailed;;
  assume (port <? get_nof_ports g) AssertFailed;;
  view ← get_view 1 (rg_buffer g) [l; port];
  symb ← window_sub view k_init (bounded_bitset.size mask);
  count ← bounded_bitset.count mask;
  assume (count <=? zlen symbols) AssertFailed;;
  let mask_count := wrap 32 count in
  assume (mask_count <=? zlen symbols) AssertFailed;;
  contiguous ← (if mask_count =? 0 then Ok false else bounded_bitset.is_contiguous false mask true);
  if (contiguous : bool) then
    lowest ← bounded_bitset.find_lowest false mask true;
    dst ← span_first symbols mask_count;
    src ← window_sub symb (wrap 64 lowest) mask_count;
    xs ← load (elements (rg_buffer g)) src;
    assume (zlen dst =? zlen xs) AssertFailed;;
    rest ← span_last symbols (zlen symbols - mask_count);
    Ok (map conv xs, rest)
  else bounded_bitset.for_each false mask 0 (bounded_bitset.size mask)
         (get_one conv (elements (rg_buffer g)) symb) true ([], symbols).

Definition get_mask_cf := get_mask to_cf.
Definition get_mask_cbf16 := get_mask (λ x : cbf16_t, x).

(** [std::generate] over the buffer, reading every [stride]-th subcarrier. *)
Definition generate_one (els : list cbf16_t) (rg_symbol : window) (stride : Z) (st : list cf_t * Z) (_ : Z)
    : result (list cf_t * Z) :=
  let '(done, n) := st in
  x ← at_ els rg_symbol n;
  Ok (done ++ [to_cf x], wrap 32 (n + stride)).

(** [nof_symbols] is the size of the buffer to fill. *)
Definition get_stride (g : t) (nof_symbols port l k_init stride : Z) : result (list cf_t) :=
  assume (negb (stride =? 0)) AssertFailed;;
  assume (k_init + stride * nof_symbols <=? get_nof_subc g) AssertFailed;;
  assume (l <? get_nof_symbols g) AssertFailed;;
  assume (port <? get_nof_ports g) AssertFailed;;
  rg_symbol ← get_view 1 (rg_buffer g) [l; port];
  if stride =? 1 then
    src ← window_sub rg_symbol k_init nof_symbols;
    xs ← load (elements (rg_buffer g)) src;
    Ok (map to_cf xs)
  else
    '(done, _) ← fold_result (generate_one (elements (rg_buffer g)) rg_symbol stride) ([], k_init)
                   (seqZ 0 nof_symbols);
    Ok done.

Definition get (g : t) (nof_symbols port l k_init : Z) : result (list cbf16_t) :=
  assume (k_init + nof_symbols <=? get_nof_subc g) AssertFailed;;
  assume (l <? get_nof_symbols g) AssertFailed;;
  assume (port <? get_nof_ports g) AssertFailed;;
  rg_symbol ← get_view 1 (rg_buffer g) [l; port];
  src ← window_sub rg_symbol k_init nof_symbols;
  load (elements (rg_buffer g)) src.

End resource_grid.

(** ** What the operations do to rows

    A row is the samples of one symbol of one port.  [scatter] puts values where a mask
    is set and [gather] takes them from there. *)

Fixpoint scatter {A} (mask : list bool) (values row : list A) : list A :=
  match mask, row, values with
  | true :: mask, _ :: row, v :: values => v :: scatter mask values row
  | false :: mask, x :: row, _ => x :: scatter mask values row
  | _, _, _ => row
  end.

Fixpoint gather {A} (mask : list bool) (row : list A) : list A :=
  match mask, row with
  | true :: mask, x :: row => x :: gather mask row
  | false :: mask, _ :: row => gather mask row
  | _, _ => []
  end.

Lemma length_scatter {A} mask : ∀ (values row : list A), length (scatter mask values row) = length row.
Proof.
  induction mask as [|[] mask IH]; intros values [|x row]; try done; [|cbn; by rewrite IH].
  destruct values; [done|]. cbn. by rewrite IH.
Qed.

Lemma count_cons b l : spec.count (b :: l) = Z.b2z b + spec.count l.
Proof. unfold spec.count. destruct b; cbn; lia. Qed.

Lemma count_nonneg l : 0 <= spec.count l <= zlen l.
Proof.
  induction l as [|b l IH]; [done|]. rewrite count_cons, zlen_cons. destruct b; cbn; lia.
Qed.

(** Reading back through the mask what was written through it. *)
Lemma gather_scatter {A} mask : ∀ (values row : list A), zlen mask <= zlen row → spec.count mask <= zlen values →
  gather mask (scatter mask values row) = take (Z.to_nat (spec.count mask)) values.
Proof.
  induction mask as [|b mask IH]; intros values row Hl Hv; [done|].
  rewrite zlen_cons in Hl. rewrite count_cons in *. pose proof (zlen_nonneg mask). pose proof (count_nonneg mask).
  destruct row as [|x row]; [unfold zlen in *; cbn in *; lia|]. rewrite zlen_cons in Hl.
  destruct b; cbn [Z.b2z] in *.
  - destruct values as [|v values]; [unfold zlen in *; cbn in *; lia|]. rewrite zlen_cons in Hv.
    cbn [scatter gather]. replace (Z.to_nat (1 + spec.count mask)) with (S (Z.to_nat (spec.count mask))) by lia.
    cbn. f_equal. apply IH; lia.
  - apply IH; lia.
Qed.

Lemma positions_cons v b l : spec.positions 0 (zlen (b :: l)) v (b :: l) =
  (if Bool.eqb b v then [0] else []) ++ map (λ i, i + 1) (spec.positions 0 (zlen l) v l).
Proof.
  unfold spec.positions. rewrite zlen_cons, !Z.sub_0_r. pose proof (zlen_nonneg l).
  rewrite seqZ_cons by lia. replace (Z.pred (1 + zlen l)) with (zlen l) by lia. cbn [List.filter].
  assert (HE : List.filter (λ i, Bool.eqb (nth (Z.to_nat i) (b :: l) false) v) (seqZ (Z.succ 0) (zlen l)) =
    map (λ i, i + 1) (List.filter (λ i, Bool.eqb (nth (Z.to_nat i) l false) v) (seqZ 0 (zlen l)))).
  { change (Z.succ 0) with (1 + 0). rewrite <- fmap_add_seqZ. change (Z.add 1 <$> ?l) with (map (Z.add 1) l).
    assert (HP : Forall (λ i, 0 <= i) (seqZ 0 (zlen l))) by (apply Forall_forall; intros i ?%elem_of_seqZ; lia).
    induction HP as [|i k Hi HP IH]; [done|]. cbn [map List.filter].
    replace (nth (Z.to_nat (1 + i)) (b :: l) false) with (nth (Z.to_nat i) l false)
      by (by replace (Z.to_nat (1 + i)) with (S (Z.to_nat i)) by lia).
    rewrite IH. destruct (Bool.eqb _ v); [|done]. cbn [map]. f_equal. lia. }
  rewrite HE. change (nth (Z.to_nat 0) (b :: l) false) with b. by destruct (Bool.eqb b v).
Qed.

Lemma vec_at_middle {A} (u v : list A) x i : i = zlen u → vec_at (u ++ x :: v) i = Ok x.
Proof. intros ->. rewrite vec_at_app_0. done. Qed.

Lemma insert_middle {A} (u v : list A) x y i : i = zlen u → <[Z.to_nat i := y]> (u ++ x :: v) = u ++ y :: v.
Proof. intros ->. unfold zlen. rewrite Nat2Z.id, insert_app_r_alt, Nat.sub_diag by lia. done. Qed.

Section loops.
Import resource_grid.

Lemma put_one_shift {S} (conv : S → cbf16_t) w st i :
  put_one conv w st (i + 1) = put_one conv (mk_window (start w + 1) (len w - 1)) st i.
Proof.
  unfold put_one, put_at. destruct st as [els [|x symbols]]; [done|]. cbn [start len].
  replace (i + 1 <? len w) with (i <? len w - 1) by lia. by replace (start w + (i + 1)) with (start w + 1 + i) by lia.
Qed.

(** The loop over the active subcarriers writes the symbols where the mask is set. *)
Lemma put_loop {S} (conv : S → cbf16_t) mask : ∀ u row v symbols w,
  start w = zlen u → len w <= zlen row → zlen mask <= len w → spec.count mask <= zlen symbols →
  fold_result (put_one conv w) (u ++ row ++ v, symbols) (spec.positions 0 (zlen mask) true mask) =
    Ok (u ++ scatter mask (map conv symbols) row ++ v, drop (Z.to_nat (spec.count mask)) symbols).
Proof.
  induction mask as [|b mask IH]; intros u row v symbols w Hu Hw Hm Hc; [done|].
  rewrite zlen_cons in Hm. pose proof (zlen_nonneg mask). pose proof (count_nonneg mask).
  destruct row as [|x row]; [unfold zlen in *; cbn in *; lia|]. rewrite zlen_cons in Hw.
  rewrite positions_cons, fold_result_app. rewrite count_cons in Hc.
  assert (HI : ∀ y syms, spec.count mask <= zlen syms →
    fold_result (put_one conv w) (u ++ (y :: row) ++ v, syms) (map (λ i, i + 1) (spec.positions 0 (zlen mask) true mask)) =
      Ok (u ++ (y :: scatter mask (map conv syms) row) ++ v, drop (Z.to_nat (spec.count mask)) syms)).
  { intros y syms Hs. rewrite <- fold_result_map.
    rewrite (fold_result_ext _ (put_one conv (mk_window (start w + 1) (len w - 1)))) by (intros; apply put_one_shift).
    specialize (IH (u ++ [y]) row v syms (mk_window (start w + 1) (len w - 1))).
    rewrite <- !app_assoc in IH. apply IH; [|cbn [len]; lia..|done].
    cbn [start]. rewrite zlen_app, Hu. done. }
  destruct b; cbn [Bool.eqb fold_result]; rewrite count_cons.
  - destruct symbols as [|s symbols]; [unfold zlen in *; cbn in *; lia|]. rewrite zlen_cons in Hc. cbn [Z.b2z] in *.
    unfold put_one at 2. cbn [mbind result_bind]. unfold put_at. pass_assume.
    cbn [app]. rewrite Z.add_0_r, (vec_at_middle u) by done. cbn [mbind result_bind].
    rewrite insert_middle, span_last_tail by done. cbn [mbind result_bind].
    change (u ++ conv s :: row ++ v) with (u ++ (conv s :: row) ++ v). rewrite HI by lia. cbn [map scatter].
    by replace (Z.to_nat (1 + spec.count mask)) with (Datatypes.S (Z.to_nat (spec.count mask))) by lia.
  - cbn [mbind result_bind map scatter Z.b2z] in *. apply HI. lia.
Qed.

Lemma get_one_shift {S} (conv : cbf16_t → S) els w st i :
  get_one conv els w st (i + 1) = get_one conv els (mk_window (start w + 1) (len w - 1)) st i.
Proof.
  unfold get_one, at_. destruct st as [done symbols]. cbn [start len].
  replace (i + 1 <? len w) with (i <? len w - 1) by lia. by replace (start w + (i + 1)) with (start w + 1 + i) by lia.
Qed.

Lemma get_loop {S} (conv : cbf16_t → S) mask : ∀ u row v done_ symbols w,
  start w = zlen u → len w <= zlen row → zlen mask <= len w → spec.count mask <= zlen symbols →
  fold_result (get_one conv (u ++ row ++ v) w) (done_, symbols) (spec.positions 0 (zlen mask) true mask) =
    Ok (done_ ++ map conv (gather mask row), drop (Z.to_nat (spec.count mask)) symbols).
Proof.
  induction mask as [|b mask IH]; intros u row v done_ symbols w Hu Hw Hm Hc; [by cbn; rewrite app_nil_r|].
  rewrite zlen_cons in Hm. pose proof (zlen_nonneg mask). pose proof (count_nonneg mask).
  destruct row as [|x row]; [unfold zlen in *; cbn in *; lia|]. rewrite zlen_cons in Hw.
  rewrite positions_cons, fold_result_app. rewrite count_cons in *.
  assert (HI : ∀ done_ syms, spec.count mask <= zlen syms →
    fold_result (get_one conv (u ++ (x :: row) ++ v) w) (done_, syms)
      (map (λ i, i + 1) (spec.positions 0 (zlen mask) true mask)) =
      Ok (done_ ++ map conv (gather mask row), drop (Z.to_nat (spec.count mask)) syms)).
  { intros d syms Hs. rewrite <- fold_result_map.
    rewrite (fold_result_ext _ (get_one conv (u ++ (x :: row) ++ v) (mk_window (start w + 1) (len w - 1))))
      by (intros; apply get_one_shift).
    specialize (IH (u ++ [x]) row v d syms (mk_window (start w + 1) (len w - 1))).
    rewrite <- !app_assoc in IH. apply IH; [|cbn [len]; lia..|done].
    cbn [start]. rewrite zlen_app, Hu. done. }
  destruct b; cbn [Bool.eqb fold_result Z.b2z] in *.
  - destruct symbols as [|s symbols]; [unfold zlen in *; cbn in *; lia|]. rewrite zlen_cons in Hc.
    unfold get_one at 2. cbn [mbind result_bind]. unfold at_. pass_assume.
    cbn [app]. rewrite Z.add_0_r, (vec_at_middle u) by done. cbn [mbind result_bind].
    pose proof (zlen_nonneg symbols). rewrite span_last_tail, zlen_cons. pass_assume. cbn [mbind result_bind].
    change (u ++ x :: row ++ v) with (u ++ (x :: row) ++ v). rewrite HI by lia. cbn [map gather].
    rewrite <- app_assoc. by replace (Z.to_nat (1 + spec.count mask)) with (Datatypes.S (Z.to_nat (spec.count mask))) by lia.
  - cbn [mbind result_bind map gather] in *. apply HI. lia.
Qed.
End loops.

Section rows.
Import resource_grid.

Definition wf (g : t) : Prop :=
  0 <= nof_ports g < 32 ∧ 0 <= nof_symb g ∧ 0 <= nof_subc g ∧
  nof_subc g * nof_symb g < 2 ^ 32 ∧ nof_subc g * nof_symb g * nof_ports g < 2 ^ 32 ∧ nof_subc g < 2 ^ 32 ∧
  dimensions_size (rg_buffer g) = [nof_subc g; nof_symb g; nof_ports g] ∧
  zlen (elements (rg_buffer g)) = nof_subc g * nof_symb g * nof_ports g ∧
  fits (nof_ports g) (empty g).

Definition on_grid (g : t) (port l : Z) : Prop := 0 <= port < nof_ports g ∧ 0 <= l < nof_symb g.

(** The samples of a symbol of a port, and their replacement. *)
Definition row_at (n : nat) (els : list cbf16_t) (j : nat) : list cbf16_t := take n (drop (j * n) els).
Definition set_row_at (n : nat) (els : list cbf16_t) (j : nat) (r : list cbf16_t) : list cbf16_t :=
  take (j * n) els ++ r ++ drop (j * n + n) els.
Definition row_index (g : t) (port l : Z) : nat := Z.to_nat (port * nof_symb g + l).
Definition row (g : t) (port l : Z) : list cbf16_t :=
  row_at (Z.to_nat (nof_subc g)) (elements (rg_buffer g)) (row_index g port l).
Definition with_row (g : t) (port l : Z) (r : list cbf16_t) : t :=
  with_elements g (set_row_at (Z.to_nat (nof_subc g)) (elements (rg_buffer g)) (row_index g port l) r).

Lemma row_index_bound g port l : on_grid g port l →
  Z.of_nat (row_index g port l) = port * nof_symb g + l ∧ port * nof_symb g + l + 1 <= nof_symb g * nof_ports g.
Proof. intros [Hp Hl]. unfold row_index. split; [nia|]. assert (port * nof_symb g <= (nof_ports g - 1) * nof_symb g) by nia. lia. Qed.

Lemma row_index_inj g port l port' l' : on_grid g port l → on_grid g port' l' →
  row_index g port l = row_index g port' l' → port = port' ∧ l = l'.
Proof.
  intros H H'. pose proof (row_index_bound g port l H). pose proof (row_index_bound g port' l' H').
  intros HE. destruct H as [Hp Hl], H' as [Hp' Hl']. assert (HZ : port * nof_symb g + l = port' * nof_symb g + l') by lia.
  destruct (Z.lt_trichotomy port port') as [?|[->|?]]; [nia|lia|nia].
Qed.

Lemma row_split n els j : (j * n + n <= length els)%nat →
  els = take (j * n) els ++ row_at n els j ++ drop (j * n + n) els ∧
  length (take (j * n) els) = (j * n)%nat ∧ length (row_at n els j) = n.
Proof.
  intros H. unfold row_at. split; [|by rewrite !length_take, length_drop; lia].
  rewrite <- drop_drop, take_drop, take_drop. done.
Qed.

Lemma row_at_set n els j j' r : length r = n → (j * n + n <= length els)%nat → (j' * n + n <= length els)%nat →
  row_at n (set_row_at n els j r) j' = if decide (j = j') then r else row_at n els j'.
Proof.
  intros Hr Hj Hj'. unfold set_row_at. destruct (row_split n els j Hj) as (_ & HL & _). case_decide as HE.
  - subst j'. unfold row_at. rewrite drop_app_length' by done. rewrite <- Hr at 1. by rewrite take_app_length.
  - apply list_eq. intros i. unfold row_at. destruct (decide (i < n)%nat); [|by rewrite !lookup_take_ge by lia].
    rewrite !lookup_take_lt, !lookup_drop by done. destruct (decide (j < j')%nat).
    + assert (j * n + n <= j' * n)%nat by nia. rewrite lookup_app_r by lia. rewrite lookup_app_r by lia.
      rewrite lookup_drop, HL. f_equal. lia.
    + assert (j' * n + n <= j * n)%nat by nia. rewrite lookup_app_l by lia. by rewrite lookup_take_lt by lia.
Qed.

Lemma wf_rows g port l : wf g → on_grid g port l →
  (row_index g port l * Z.to_nat (nof_subc g) + Z.to_nat (nof_subc g) <= length (elements (rg_buffer g)))%nat.
Proof.
  intros (Hp & Hs & Hk & _ & _ & _ & _ & Hl & _) H. destruct (row_index_bound g port l H) as [HE HB]. unfold zlen in Hl.
  apply Nat2Z.inj_le. rewrite Nat2Z.inj_add, Nat2Z.inj_mul, HE, Z2Nat.id, Hl by done. nia.
Qed.

Lemma zlen_row g port l : wf g → on_grid g port l → zlen (row g port l) = nof_subc g.
Proof.
  intros Hw H. destruct (row_split _ _ _ (wf_rows g port l Hw H)) as (_ & _ & HL). unfold zlen, row. rewrite HL.
  destruct Hw as (_ & _ & Hk & _). lia.
Qed.

Lemma row_with_row g port l port' l' r : wf g → on_grid g port l → on_grid g port' l' → zlen r = nof_subc g →
  row (with_row g port l r) port' l' = if decide (port = port' ∧ l = l') then r else row g port' l'.
Proof.
  intros Hw H H' Hr.
  change (row (with_row g port l r) port' l') with (row_at (Z.to_nat (nof_subc g))
    (set_row_at (Z.to_nat (nof_subc g)) (elements (rg_buffer g)) (row_index g port l) r) (row_index g port' l')).
  rewrite row_at_set by (by apply wf_rows || (unfold zlen in Hr; lia)).
  destruct (decide (port = port' ∧ l = l')) as [[-> ->]|Hne]; [by rewrite decide_True|].
  rewrite decide_False; [done|]. intros HE. by apply Hne, (row_index_inj g).
Qed.

Lemma with_row_wf g port l r : wf g → on_grid g port l → zlen r = nof_subc g → wf (with_row g port l r).
Proof.
  intros Hw H Hr. pose proof (wf_rows g port l Hw H) as HB. destruct (row_split _ _ _ HB) as (HS & HL & _).
  destruct Hw as (?&?&?&?&?&?&?&Hl&?). do 7 (split; [done|]). split; [|done].
  cbn [with_row with_elements rg_buffer elements nof_subc nof_symb nof_ports]. unfold set_row_at. rewrite <- Hl.
  unfold zlen in *. rewrite !length_app, HL, length_drop. lia.
Qed.

(** *** Views of a well-formed grid *)

Lemma accumulate_1 a : 0 <= a < 2 ^ 32 → accumulate [a] = a.
Proof. intros. unfold accumulate. cbn [foldl]. rewrite Z.mul_1_l. apply wrap_small. lia_fits. Qed.

Lemma accumulate_2 a b : 0 <= a < 2 ^ 32 → 0 <= b → a * b < 2 ^ 32 → accumulate [a; b] = a * b.
Proof.
  intros. unfold accumulate. cbn [foldl]. rewrite Z.mul_1_l, (wrap_small 32 a) by lia_fits. apply wrap_small.
  unfold fits. nia.
Qed.

Lemma accumulate_3 a b c : 0 <= a < 2 ^ 32 → 0 <= b → 0 <= c → a * b < 2 ^ 32 → a * b * c < 2 ^ 32 →
  accumulate [a; b; c] = a * b * c.
Proof.
  intros. change (accumulate [a; b; c]) with (wrap 32 (accumulate [a; b] * c)). rewrite accumulate_2 by done.
  apply wrap_small. unfold fits. nia.
Qed.

Lemma get_data_wf g : wf g → get_data (rg_buffer g) = Ok (mk_window 0 (zlen (elements (rg_buffer g)))).
Proof.
  intros (Hp & Hs & Hk & H1 & H2 & H3 & Hd & Hl & _). unfold get_data. rewrite Hd, accumulate_3 by lia.
  rewrite <- Hl. cbn [len]. pass_assume. unfold window_sub. cbn [len start].
  pose proof (zlen_nonneg (elements (rg_buffer g))). by do 2 pass_assume.
Qed.

Lemma get_view_wf g port l : wf g → on_grid g port l →
  get_view 1 (rg_buffer g) [l; port] = Ok (mk_window ((port * nof_symb g + l) * nof_subc g) (nof_subc g)).
Proof.
  intros Hw H. unfold get_view. rewrite get_data_wf by done.
  pose proof (row_index_bound g port l H) as [_ HB]. pose proof Hw as (Hp & Hs & Hk & H1 & H2 & H3 & Hd & Hl & _).
  destruct H as [Hport Hsym]. unfold get_view_offset. rewrite Hd. cbn [take drop zip zip_with]. rewrite accumulate_1 by lia.
  do 2 (cbn [mbind result_bind fold_result add_dimension]; pass_assume). cbn [mbind result_bind fold_result].
  assert (HO : 0 <= nof_subc g * nof_symb g * port + nof_subc g * l <= nof_subc g * nof_symb g * nof_ports g - nof_subc g).
  { replace (nof_subc g * nof_symb g * port + nof_subc g * l) with (nof_subc g * (port * nof_symb g + l)) by ring.
    split; [nia|]. transitivity (nof_subc g * (nof_symb g * nof_ports g - 1)); [apply Z.mul_le_mono_nonneg_l; lia|]. lia. }
  rewrite !(wrap_small 32 (nof_subc g * _)), (wrap_small 32 (0 + _)), (wrap_small 32 (_ + _)) by (unfold fits; nia).
  unfold window_sub. cbn [len start]. rewrite Hl. do 2 pass_assume. do 2 f_equal. ring.
Qed.
End rows.

(** *** Contiguous masks *)

Lemma count_replicate n b : spec.count (replicate n b) = if b then Z.of_nat n else 0.
Proof. induction n as [|n IH]; [by destruct b|]. cbn [replicate]. rewrite count_cons, IH. destruct b; cbn [Z.b2z]; lia. Qed.

Lemma scatter_false {A} n m (values row : list A) : (n <= length row)%nat →
  scatter (replicate n false ++ m) values row = take n row ++ scatter m values (drop n row).
Proof.
  revert row. induction n as [|n IH]; intros row Hn; [done|]. destruct row as [|x row]; [cbn in Hn; lia|].
  cbn. f_equal. apply IH. cbn in Hn. lia.
Qed.

Lemma scatter_true {A} n m (values row : list A) : (n <= length row)%nat → (n <= length values)%nat →
  scatter (replicate n true ++ m) values row = take n values ++ scatter m (drop n values) (drop n row).
Proof.
  revert values row. induction n as [|n IH]; intros values row Hn Hv; [done|].
  destruct row as [|x row]; [cbn in Hn; lia|]. destruct values as [|y values]; [cbn in Hv; lia|].
  cbn. f_equal. apply IH; cbn in *; lia.
Qed.

Lemma scatter_block {A} a n c (values row : list A) : (a + n + c <= length row)%nat → (n <= length values)%nat →
  scatter (replicate a false ++ replicate n true ++ replicate c false) values row =
    take a row ++ take n values ++ drop (a + n) row.
Proof.
  intros Hl Hv. rewrite scatter_false by lia. rewrite scatter_true by (rewrite ?length_drop; lia).
  rewrite <- (app_nil_r (replicate c false)), scatter_false by (rewrite !length_drop; lia).
  rewrite drop_drop. do 2 f_equal. destruct (drop c (drop (a + n) row)) eqn:E; rewrite <- E at 1; cbn; by rewrite take_drop.
Qed.

Lemma gather_block {A} a n c (row : list A) : (a + n + c <= length row)%nat →
  gather (replicate a false ++ replicate n true ++ replicate c false) row = take n (drop a row).
Proof.
  revert row. induction a as [|a IH]; intros row Hl.
  - cbn [replicate app drop]. revert row Hl. induction n as [|n IHn]; intros row Hl.
    + cbn [replicate app]. revert row Hl. induction c as [|c IHc]; intros [|x row] Hl; try (cbn in Hl; lia); try done.
      cbn. apply IHc. cbn in *. lia.
    + destruct row as [|x row]; [cbn in Hl; lia|]. cbn. f_equal. apply IHn. cbn in Hl. lia.
  - destruct row as [|x row]; [cbn in Hl; lia|]. cbn. apply IH. cbn in Hl. lia.
Qed.

(** What the fast path finds in a contiguous mask. *)
Lemma contiguous_mask m : spec.contiguous true m = true → spec.count m ≠ 0 →
  ∃ a c, m = replicate a false ++ replicate (Z.to_nat (spec.count m)) true ++ replicate c false ∧
    spec.lowest 0 (length m) true m = Z.of_nat a.
Proof.
  intros (a & n & c & ->)%contiguous_form Hc. cbn [negb] in *. exists a, c.
  rewrite !count_app, !count_replicate in *. rewrite Z.add_0_l, Z.add_0_r, Nat2Z.id in *. split; [done|].
  unfold spec.lowest. rewrite sub_all. destruct n as [|n]; [done|].
  rewrite list_find_app_r.
  2: { apply list_find_None, Forall_forall. intros x (-> & _)%elem_of_replicate. done. }
  cbn [replicate app list_find]. rewrite decide_True by done. cbn. rewrite length_replicate. lia.
Qed.

Section effects.
Import resource_grid.

Lemma store_middle {A} (u l row v : list A) k w : start w = zlen u + k → len w = zlen l → 0 <= k → k + zlen l <= zlen row →
  store (u ++ row ++ v) w l =
    Ok (u ++ (take (Z.to_nat k) row ++ l ++ drop (Z.to_nat k + length l) row) ++ v).
Proof.
  intros Hs Hn Hk Hl. unfold store, load. rewrite Hs, Hn, Z.eqb_refl. cbn [assume mbind result_bind].
  unfold vec_range. pose proof (zlen_nonneg l). pose proof (zlen_nonneg u). pose proof (zlen_nonneg v).
  rewrite !zlen_app. test_true. cbn [mbind result_bind]. f_equal. unfold zlen in *.
  replace (Z.to_nat (Z.of_nat (length u) + k)) with (length u + Z.to_nat k)%nat by lia.
  rewrite take_app_add, <- !app_assoc. do 2 f_equal. rewrite take_app_le by lia. f_equal. f_equal.
  rewrite <- Nat.add_assoc, drop_app_add, drop_app_le by lia. done.
Qed.

Lemma load_middle {A} (u row v : list A) k n w : start w = zlen u + k → len w = n → 0 <= k → 0 <= n → k + n <= zlen row →
  load (u ++ row ++ v) w = Ok (take (Z.to_nat n) (drop (Z.to_nat k) row)).
Proof.
  intros Hs Hw Hk Hn Hl. unfold load, vec_range. rewrite Hs, Hw. pose proof (zlen_nonneg u). pose proof (zlen_nonneg v).
  rewrite !zlen_app. test_true. f_equal. unfold zlen in *.
  replace (Z.to_nat (Z.of_nat (length u) + k + n - (Z.of_nat (length u) + k))) with (Z.to_nat n) by lia.
  replace (Z.to_nat (Z.of_nat (length u) + k)) with (length u + Z.to_nat k)%nat by lia.
  rewrite drop_app_add, drop_app_le by lia. rewrite take_app_le by (rewrite length_drop; lia). done.
Qed.
End effects.

Section operations.
Import resource_grid.

Definition clear_port (g : t) (port : Z) : t := with_empty g (Z.clearbit (empty g) port).
(** The row with values put where the mask, placed at [k], is set. *)
Definition scatter_at {A} (k : Z) (m : list bool) (values r : list A) : list A :=
  take (Z.to_nat k) r ++ scatter m values (drop (Z.to_nat k) r).
(** The row with a block of values placed at [k]. *)
Definition patch {A} (k : Z) (values r : list A) : list A :=
  take (Z.to_nat k) r ++ values ++ drop (Z.to_nat k + length values) r.

Lemma clear_empty_spec g port : fits 32 (empty g) → 0 <= port < 32 → clear_empty g port = Ok (clear_port g port).
Proof.
  intros He Hp. unfold clear_empty, one_at. pass_assume. rewrite Z.shiftl_1_l. unfold clear_port. do 2 f_equal.
  apply Z.bits_inj'. intros k Hk. rewrite Z.land_spec, Z.clearbit_eqb by lia. unfold wrap.
  destruct (Z.ltb_spec k 32).
  - rewrite Z.mod_pow2_bits_low, Z.lnot_spec, Z.pow2_bits_eqb by lia. done.
  - rewrite Z.mod_pow2_bits_high, andb_false_r by lia.
    rewrite (bit_buffer.fits_bit 32) by (done || lia). done.
Qed.

Lemma fits_clearbit w x p : fits w x → 0 <= w → 0 <= p → fits w (Z.clearbit x p).
Proof.
  intros Hx Hw Hp. replace (Z.clearbit x p) with (wrap w (Z.clearbit x p)); [by apply wrap_fits|].
  apply Z.bits_inj'. intros k Hk. unfold wrap. destruct (Z.ltb_spec k w); [by apply Z.mod_pow2_bits_low; lia|].
  by rewrite Z.mod_pow2_bits_high, Z.clearbit_eqb, (bit_buffer.fits_bit w) by (done || lia).
Qed.

Lemma clear_port_wf g port : wf g → 0 <= port → wf (clear_port g port).
Proof.
  intros (?&?&?&?&?&?&?&?&He) Hp. do 8 (split; [done|]). cbn [nof_ports clear_port with_empty empty].
  apply fits_clearbit; [done|lia|done].
Qed.

Lemma wf_empty_32 g : wf g → fits 32 (empty g).
Proof. intros (Hp&_&_&_&_&_&_&_&He). by apply (fits_mono (nof_ports g)); [lia|]. Qed.

Lemma clear_empty_wf g port : wf g → 0 <= port < nof_ports g → clear_empty g port = Ok (clear_port g port).
Proof. intros Hw Hp. apply clear_empty_spec; [by apply wf_empty_32|]. destruct Hw as [? _]. lia. Qed.

Lemma dimensions_wf g : wf g → get_nof_subc g = nof_subc g ∧ get_nof_symbols g = nof_symb g ∧ get_nof_ports g = nof_ports g.
Proof. intros (_&_&_&_&_&_&Hd&_). unfold get_nof_subc, get_nof_symbols, get_nof_ports, dimension. by rewrite Hd. Qed.

(** The elements around a row. *)
Lemma row_context g port l : wf g → on_grid g port l →
  ∃ u v, zlen u = (port * nof_symb g + l) * nof_subc g ∧ elements (rg_buffer g) = u ++ row g port l ++ v ∧
    ∀ r, zlen r = nof_subc g → with_row g port l r = with_elements g (u ++ r ++ v).
Proof.
  intros Hw H. destruct (row_split _ _ _ (wf_rows g port l Hw H)) as (HS & HL & _).
  destruct (row_index_bound g port l H) as [HI _]. eexists _, _. split; [|split; [exact HS|done]].
  unfold zlen. rewrite HL, Nat2Z.inj_mul, HI. destruct Hw as (_ & _ & Hk & _). by rewrite Z2Nat.id by lia.
Qed.

Lemma zlen_scatter_at {A} k m (values r : list A) : zlen (scatter_at k m values r) = zlen r.
Proof. unfold scatter_at, zlen. rewrite length_app, length_scatter, <- length_app, take_drop. done. Qed.

Lemma zlen_patch {A} k (values r : list A) : 0 <= k → k + zlen values <= zlen r → zlen (patch k values r) = zlen r.
Proof. intros. unfold patch, zlen in *. rewrite !length_app, length_take, length_drop. lia. Qed.

Lemma drop_zlen_take {A} (l : list A) n : 0 <= n <= zlen l →
  span_last l (zlen l - n) = Ok (drop (Z.to_nat n) l) ∧ span_first l n = Ok (take (Z.to_nat n) l).
Proof.
  intros Hn. unfold span_last, span_first, subspan. split; do 3 pass_assume; [|done].
  f_equal. replace (zlen l - (zlen l - n)) with n by lia. apply take_ge. rewrite length_drop. unfold zlen in *. lia.
Qed.

Lemma window_sub_ok w offset count : offset <= len w → count <= len w - offset →
  window_sub w offset count = Ok (mk_window (start w + offset) count).
Proof. intros. unfold window_sub. by do 2 pass_assume. Qed.

(** What counting and searching a mask gives: the fast path is taken for a mask of one
    block of ones, and starts where the block does. *)
Lemma mask_count mask : bounded_bitset.wf mask_capacity mask →
  let m := bits_of false mask in
  bounded_bitset.count mask = Ok (spec.count m) ∧ 0 <= spec.count m <= bounded_bitset.size mask ∧
  bounded_bitset.size mask <= 3300 ∧ zlen m = bounded_bitset.size mask.
Proof.
  intros Hm m. assert (HN : 0 <= mask_capacity < 2 ^ 31) by done. rewrite (count_list mask_capacity false HN) by done.
  pose proof (wf_size _ _ Hm) as Hms. pose proof (zlen_bits false mask ltac:(lia)) as Hzm.
  pose proof (count_nonneg m) as Hcb. unfold m in *. rewrite Hzm in Hcb. change mask_capacity with 3300 in *. split; [done|]. lia.
Qed.

Lemma mask_contiguous mask : bounded_bitset.wf mask_capacity mask →
  let m := bits_of false mask in
  (if spec.count m =? 0 then Ok false else bounded_bitset.is_contiguous false mask true) =
    Ok (negb (spec.count m =? 0) && spec.contiguous true m).
Proof.
  intros Hm m. destruct (spec.count m =? 0); [done|]. by rewrite (is_contiguous_list mask_capacity) by done.
Qed.

Lemma mask_block mask : bounded_bitset.wf mask_capacity mask →
  let m := bits_of false mask in
  negb (spec.count m =? 0) && spec.contiguous true m = true →
  ∃ a c, bounded_bitset.find_lowest false mask true = Ok (Z.of_nat a) ∧
    m = replicate a false ++ replicate (Z.to_nat (spec.count m)) true ++ replicate c false ∧
    Z.of_nat a + spec.count m + Z.of_nat c = bounded_bitset.size mask.
Proof.
  intros Hm m [Hc0%negb_true_iff%Z.eqb_neq EC]%andb_true_iff. destruct (mask_count mask Hm) as (_ & Hc & Hs & Hzm). fold m in Hc, Hzm.
  destruct (contiguous_mask m EC Hc0) as (a & c & Hma & Hlow). exists a, c.
  unfold bounded_bitset.find_lowest. rewrite (find_lowest_list mask_capacity false) by (done || lia). fold m.
  assert (Hsz : Z.to_nat (bounded_bitset.size mask) = length m) by (unfold zlen in Hzm; lia).
  rewrite Hsz. change (Z.to_nat 0) with 0%nat. rewrite Hlow. do 2 (split; [done|]).
  rewrite <- Hzm. unfold zlen. rewrite Hma at 2. rewrite !length_app, !length_replicate. lia.
Qed.

Context {S : Type}.

Lemma put_mask_spec (conv : S → cbf16_t) g port l k mask symbols :
  wf g → on_grid g port l → bounded_bitset.wf mask_capacity mask → 0 <= k → 1 <= bounded_bitset.size mask →
  k + bounded_bitset.size mask <= nof_subc g → spec.count (bits_of false mask) <= zlen symbols →
  put_mask conv g port l k mask symbols =
    Ok (clear_port (with_row g port l (scatter_at k (bits_of false mask) (map conv symbols) (row g port l))) port,
        drop (Z.to_nat (spec.count (bits_of false mask))) symbols).
Proof.
  intros Hw Hg Hm Hk H1 Hs Hc. unfold put_mask. destruct (dimensions_wf g Hw) as (-> & -> & ->).
  pose proof Hg as [Hp Hl]. do 3 pass_assume. rewrite get_view_wf by done. cbn [mbind result_bind].
  rewrite window_sub_ok by (cbn [len]; lia). cbn [mbind result_bind start]. rewrite clear_empty_wf by done. cbn [mbind result_bind].
  destruct (mask_count mask Hm) as (-> & Hcb & Hms & Hzm). cbn [mbind result_bind].
  pose proof (mask_contiguous mask Hm) as HC. pose proof (mask_block mask Hm) as HB. set (m := bits_of false mask) in *. cbn zeta in HC, HB.
  rewrite (wrap_small 32 (spec.count m)) by lia_fits. pass_assume.
  destruct (row_context g port l Hw Hg) as (u & v & Hu & HE & HR). pose proof (zlen_row g port l Hw Hg) as Hzr.
  rewrite HR by (by rewrite zlen_scatter_at). set (r := row g port l) in *. change (elements (rg_buffer (clear_port g port))) with (elements (rg_buffer g)).
  rewrite HE. unfold scatter_at. set (k' := Z.to_nat k) in *.
  rewrite HC. cbn [mbind result_bind]. destruct (negb (spec.count m =? 0) && spec.contiguous true m) eqn:EC.
  - destruct (HB eq_refl) as (a & c & -> & Hma & Hacn). cbn [mbind result_bind].
    rewrite (wrap_small 64 (Z.of_nat a)) by lia_fits. rewrite window_sub_ok by (cbn [len]; lia). cbn [mbind result_bind start].
    destruct (drop_zlen_take symbols (spec.count m)) as [-> ->]; [lia|]. cbn [mbind result_bind].
    assert (Hzt : zlen (map conv (take (Z.to_nat (spec.count m)) symbols)) = spec.count m).
    { unfold zlen. rewrite length_map, length_take. unfold zlen in Hc. lia. }
    rewrite (store_middle u _ r v (k + Z.of_nat a)) by (cbn [start len]; lia).
    cbn [mbind result_bind].
    assert (HRow : take k' r ++ scatter m (map conv symbols) (drop k' r) = patch (k + Z.of_nat a) (map conv (take (Z.to_nat (spec.count m)) symbols)) r).
    { unfold zlen in *. rewrite Hma at 1. rewrite scatter_block by (rewrite ?length_drop, ?length_map; lia).
      unfold patch. rewrite drop_drop, firstn_map, app_assoc, take_take_drop. unfold k'. f_equal; [f_equal; lia|]. do 2 f_equal. lia. }
    rewrite HRow. done.
  - rewrite (for_each_list mask_capacity) by (done || lia). fold m. rewrite <- Hzm.
    pose proof (put_loop conv m (u ++ take k' r) (drop k' r) v symbols
      (mk_window ((port * nof_symb g + l) * nof_subc g + k) (zlen m))) as HP. cbn [start len] in HP.
    rewrite <- !app_assoc, (app_assoc (take k' r)), take_drop in HP.
    rewrite HP; [by rewrite <- app_assoc|..|done|done].
    + rewrite zlen_app, Hu. unfold zlen in *. rewrite length_take. lia.
    + unfold zlen in *. rewrite length_drop. lia.
Qed.

(** The buffer filled with what the mask selects. *)
Lemma get_mask_spec (conv : cbf16_t → S) g symbols port l k mask :
  wf g → on_grid g port l → bounded_bitset.wf mask_capacity mask → 0 <= k →
  k + bounded_bitset.size mask <= nof_subc g → spec.count (bits_of false mask) <= zlen symbols →
  get_mask conv g symbols port l k mask =
    Ok (map conv (gather (bits_of false mask) (drop (Z.to_nat k) (row g port l))),
        drop (Z.to_nat (spec.count (bits_of false mask))) symbols).
Proof.
  intros Hw Hg Hm Hk Hs Hc. unfold get_mask. destruct (dimensions_wf g Hw) as (-> & -> & ->).
  pose proof Hg as [Hp Hl]. do 3 pass_assume. rewrite get_view_wf by done. cbn [mbind result_bind].
  pose proof (wf_size _ _ Hm) as Hms.
  rewrite window_sub_ok by (cbn [len]; lia). cbn [mbind result_bind start].
  destruct (mask_count mask Hm) as (-> & Hcb & Hms' & Hzm). cbn [mbind result_bind].
  pose proof (mask_contiguous mask Hm) as HC. pose proof (mask_block mask Hm) as HB. set (m := bits_of false mask) in *. cbn zeta in HC, HB.
  pass_assume. rewrite (wrap_small 32 (spec.count m)) by lia_fits. pass_assume.
  destruct (row_context g port l Hw Hg) as (u & v & Hu & HE & _). pose proof (zlen_row g port l Hw Hg) as Hzr.
  rewrite HE. set (r := row g port l) in *. set (k' := Z.to_nat k) in *.
  rewrite HC. cbn [mbind result_bind]. destruct (negb (spec.count m =? 0) && spec.contiguous true m) eqn:EC.
  - destruct (HB eq_refl) as (a & c & -> & Hma & Hacn). cbn [mbind result_bind].
    destruct (drop_zlen_take symbols (spec.count m)) as [-> ->]; [lia|]. cbn [mbind result_bind].
    rewrite (wrap_small 64 (Z.of_nat a)) by lia_fits. rewrite window_sub_ok by (cbn [len]; lia). cbn [mbind result_bind start].
    rewrite (load_middle u r v (k + Z.of_nat a) (spec.count m)) by (cbn [start len]; lia). cbn [mbind result_bind].
    assert (HG : gather m (drop k' r) = take (Z.to_nat (spec.count m)) (drop (Z.to_nat (k + Z.of_nat a)) r)).
    { unfold zlen in *. rewrite Hma at 1. rewrite gather_block by (rewrite length_drop; lia). rewrite drop_drop. f_equal. f_equal. lia. }
    rewrite HG. replace (zlen (take _ symbols)) with (spec.count m) by (unfold zlen in *; rewrite length_take; lia).
    replace (zlen (take _ (drop _ r))) with (spec.count m) by (unfold zlen in *; rewrite length_take, length_drop; lia).
    rewrite Z.eqb_refl. done.
  - rewrite (for_each_list mask_capacity) by (done || lia). fold m. rewrite <- Hzm.
    pose proof (get_loop conv m (u ++ take k' r) (drop k' r) v [] symbols
      (mk_window ((port * nof_symb g + l) * nof_subc g + k) (zlen m))) as HP. cbn [start len] in HP.
    rewrite <- !app_assoc, (app_assoc (take k' r)), take_drop in HP.
    rewrite HP; [done|..|done|done].
    + rewrite zlen_app, Hu. unfold zlen in *. rewrite length_take. lia.
    + unfold zlen in *. rewrite length_drop. lia.
Qed.

Lemma put_spec g port l k symbols : wf g → on_grid g port l → 0 <= k → k + zlen symbols <= nof_subc g →
  put g port l k symbols = Ok (clear_port (with_row g port l (patch k (map to_cbf16 symbols) (row g port l))) port).
Proof.
  intros Hw Hg Hk Hs. unfold put. destruct (dimensions_wf g Hw) as (-> & -> & ->).
  pose proof Hg as [Hp Hl]. pose proof (zlen_nonneg symbols). do 3 pass_assume. rewrite get_view_wf by done. cbn [mbind result_bind].
  rewrite window_sub_ok by (cbn [len]; lia). cbn [mbind result_bind start].
  destruct (row_context g port l Hw Hg) as (u & v & Hu & HE & HR). pose proof (zlen_row g port l Hw Hg) as Hzr.
  assert (Hz : zlen (map to_cbf16 symbols) = zlen symbols) by (unfold zlen; by rewrite length_map).
  rewrite HE, (store_middle u _ (row g port l) v k) by (cbn [start len]; lia). cbn [mbind result_bind].
  fold (patch k (map to_cbf16 symbols) (row g port l)). rewrite <- HR by (rewrite zlen_patch; lia).
  apply clear_empty_wf; [|done]. apply with_row_wf; [done..|]. rewrite zlen_patch; lia.
Qed.

(** The row with values placed at [k], [k + stride], ... *)
Fixpoint spread {A} (k stride : Z) (values r : list A) : list A :=
  match values with
  | [] => r
  | x :: values => spread (k + stride) stride values (<[Z.to_nat k := x]> r)
  end.

Lemma length_spread {A} (values : list A) : ∀ k stride r, length (spread k stride values r) = length r.
Proof. induction values as [|x values IH]; intros; [done|]. cbn. by rewrite IH, length_insert. Qed.

Lemma put_at_middle {A} (u r v : list A) i x w : start w = zlen u → len w = zlen r → 0 <= i < zlen r →
  put_at (u ++ r ++ v) w i x = Ok (u ++ <[Z.to_nat i := x]> r ++ v).
Proof.
  intros Hs Hn Hi. unfold put_at. pass_assume. rewrite Hs, vec_at_app_r by lia. unfold vec_at, zlen in *.
  destruct (lookup_lt_is_Some_2 (r ++ v) (Z.to_nat i)) as [y Hy]; [rewrite length_app; lia|].
  rewrite Hy. test_true. cbn [mbind result_bind]. f_equal.
  replace (Z.to_nat (Z.of_nat (length u) + i)) with (length u + Z.to_nat i)%nat by lia.
  rewrite insert_app_r, insert_app_l by lia. done.
Qed.

Lemma put_stride_loop u v stride w symbols : ∀ r k, start w = zlen u → len w = zlen r → zlen r < 2 ^ 32 → 0 <= k → 0 <= stride →
  (symbols = [] ∨ k + (zlen symbols - 1) * stride < zlen r) →
  ∃ k', fold_result (put_stride_one w stride) (u ++ r ++ v, k) symbols = Ok (u ++ spread k stride symbols r ++ v, k').
Proof.
  induction symbols as [|x symbols IH]; intros r k Hs Hn Hr Hk Hst Hb; [by exists k|].
  destruct Hb as [|Hb]; [done|]. rewrite zlen_cons in Hb. pose proof (zlen_nonneg symbols).
  assert (0 <= zlen symbols * stride) by nia.
  cbn [fold_result]. unfold put_stride_one at 2. rewrite put_at_middle by (done || lia). cbn [mbind result_bind].
  destruct symbols as [|y symbols]; [by eexists|].
  assert (k + stride < zlen r) by (rewrite zlen_cons in *; pose proof (zlen_nonneg symbols); nia).
  rewrite (wrap_small 32 (k + stride)) by lia_fits. apply IH; unfold zlen in *; rewrite ?length_insert; lia.
Qed.

Lemma put_stride_spec g port l k stride symbols : wf g → on_grid g port l → 0 <= k → 0 <= stride → 0 < zlen symbols →
  k + (zlen symbols - 1) * stride + 1 <= nof_subc g → zlen symbols < 2 ^ 32 →
  put_stride g port l k stride symbols =
    Ok (clear_port (with_row g port l (spread k stride symbols (row g port l))) port).
Proof.
  intros Hw Hg Hk Hst H0 Hs H32. unfold put_stride. destruct (dimensions_wf g Hw) as (-> & -> & ->).
  pose proof Hg as [Hp Hl]. rewrite (wrap_small 32 (zlen symbols)) by lia_fits. rewrite (wrap_small 32 (zlen symbols - 1)) by lia_fits.
  assert (0 <= (zlen symbols - 1) * stride) by nia. pose proof Hw as (_&_&_&_&_&H3&_).
  rewrite (wrap_small 32 (k + _)) by lia_fits. do 3 pass_assume. rewrite get_view_wf by done. cbn [mbind result_bind].
  destruct (row_context g port l Hw Hg) as (u & v & Hu & HE & HR). pose proof (zlen_row g port l Hw Hg) as Hzr.
  destruct (put_stride_loop u v stride (mk_window ((port * nof_symb g + l) * nof_subc g) (nof_subc g)) symbols (row g port l) k)
    as [k' HP]; [cbn [start len]; lia..|]. rewrite HE, HP. cbn [mbind result_bind].
  assert (zlen (spread k stride symbols (row g port l)) = nof_subc g) by (unfold zlen in *; by rewrite length_spread).
  rewrite <- HR by done. apply clear_empty_wf; [|done]. by apply with_row_wf.
Qed.

Lemma grid_get_spec g n port l k : wf g → on_grid g port l → 0 <= k → 0 <= n → k + n <= nof_subc g →
  get g n port l k = Ok (take (Z.to_nat n) (drop (Z.to_nat k) (row g port l))).
Proof.
  intros Hw Hg Hk Hn Hs. unfold get. destruct (dimensions_wf g Hw) as (-> & -> & ->).
  pose proof Hg as [Hp Hl]. do 3 pass_assume. rewrite get_view_wf by done. cbn [mbind result_bind].
  rewrite window_sub_ok by (cbn [len]; lia). cbn [mbind result_bind start].
  destruct (row_context g port l Hw Hg) as (u & v & Hu & HE & _). pose proof (zlen_row g port l Hw Hg) as Hzr.
  rewrite HE. apply load_middle; cbn [start len]; lia.
Qed.
End operations.

(** ** Clearing a grid *)

Section clearing.
Import resource_grid.

Lemma is_port_empty_spec g port : 0 <= port < 32 → is_port_empty g port = Ok (Z.testbit (empty g) port).
Proof.
  intros Hp. unfold is_port_empty, one_at. pass_assume. rewrite Z.shiftl_1_l. f_equal.
  destruct (Z.testbit (empty g) port) eqn:E.
  - apply negb_true_iff, Z.eqb_neq. intros H0. assert (HB : Z.testbit (Z.land (empty g) (2 ^ port)) port = true).
    { by rewrite Z.land_spec, E, Z.pow2_bits_true by lia. }
    by rewrite H0, Z.bits_0 in HB.
  - apply negb_false_iff, Z.eqb_eq. apply Z.bits_inj'. intros k Hk. rewrite Z.land_spec, Z.pow2_bits_eqb, Z.bits_0 by lia.
    destruct (Z.eqb_spec port k) as [<-|]; [by rewrite E|by rewrite andb_false_r].
Qed.

Lemma all_empty_spec n : 0 <= n < 32 → all_empty n = Ok (2 ^ n - 1).
Proof.
  intros Hn. unfold all_empty, one_at. pass_assume. rewrite Z.shiftl_1_l. f_equal. apply wrap_small.
  assert (2 ^ n <= 2 ^ 32) by (apply Z.pow_le_mono_r; lia). assert (0 < 2 ^ n) by (apply Z.pow_pos_nonneg; lia). lia_fits.
Qed.

Lemma all_ones_bit n k : 0 <= k < n → Z.testbit (2 ^ n - 1) k = true.
Proof. intros Hk. replace (2 ^ n - 1) with (Z.ones n) by (rewrite Z.ones_equiv; lia). apply Z.ones_spec_low. lia. Qed.

Lemma row_lookup g port l (i : nat) : wf g → on_grid g port l →
  row g port l !! i = if decide (Z.of_nat i < nof_subc g)
    then elements (rg_buffer g) !! Z.to_nat ((port * nof_symb g + l) * nof_subc g + Z.of_nat i) else None.
Proof.
  intros Hw H. destruct (row_index_bound g port l H) as [HI _]. pose proof Hw as (_&_&Hk&_). unfold row, row_at.
  destruct (decide _); [|by rewrite lookup_take_ge by lia].
  rewrite lookup_take_lt, lookup_drop by lia. f_equal. rewrite Z2Nat.inj_add, Z2Nat.inj_mul by nia.
  by rewrite Nat2Z.id.
Qed.

(** The grid with all the samples of a port zero. *)
Definition zeroed (g : t) (port : Z) : t :=
  let n := (Z.to_nat (nof_subc g) * Z.to_nat (nof_symb g))%nat in
  with_elements g (set_row_at n (elements (rg_buffer g)) (Z.to_nat port) (replicate n zero)).

Lemma zeroed_bound g port : wf g → 0 <= port < nof_ports g →
  (Z.to_nat port * (Z.to_nat (nof_subc g) * Z.to_nat (nof_symb g)) + Z.to_nat (nof_subc g) * Z.to_nat (nof_symb g)
    <= length (elements (rg_buffer g)))%nat.
Proof. intros (Hp&Hs&Hk&_&_&_&_&Hl&_) H. unfold zlen in Hl. nia. Qed.

Lemma zeroed_wf g port : wf g → 0 <= port < nof_ports g → wf (zeroed g port).
Proof.
  intros Hw H. pose proof (zeroed_bound g port Hw H). destruct Hw as (?&?&?&?&?&?&?&Hl&?).
  do 7 (split; [done|]). split; [|done].
  cbn [zeroed with_elements rg_buffer elements nof_subc nof_symb nof_ports]. unfold set_row_at. rewrite <- Hl.
  unfold zlen. rewrite !length_app, length_take, length_drop, length_replicate. lia.
Qed.

Lemma row_zeroed g port port' l' : wf g → 0 <= port < nof_ports g → on_grid g port' l' →
  row (zeroed g port) port' l' = if decide (port = port') then replicate (Z.to_nat (nof_subc g)) zero else row g port' l'.
Proof.
  intros Hw H H'. pose proof (zeroed_wf g port Hw H) as Hz. pose proof (zeroed_bound g port Hw H) as HB.
  pose proof Hw as (Hp&Hs&Hk&_&_&_&_&Hl&_). pose proof H' as [Hp' Hl'].
  apply list_eq. intros i. rewrite row_lookup by done. cbn [nof_subc nof_symb zeroed with_elements rg_buffer elements].
  set (n := (Z.to_nat (nof_subc g) * Z.to_nat (nof_symb g))%nat) in *.
  assert (Hn : Z.of_nat n = nof_subc g * nof_symb g) by (unfold n; lia).
  destruct (decide (Z.of_nat i < nof_subc g)) as [Hi|Hi].
  2: { symmetry. destruct (decide (port = port')); [apply lookup_replicate_None; lia|].
       rewrite row_lookup by done. by rewrite decide_False. }
  set (j := Z.to_nat _). assert (Hj : Z.of_nat j = port' * Z.of_nat n + (l' * nof_subc g + Z.of_nat i)) by (unfold j; nia).
  assert (Hoff : 0 <= l' * nof_subc g + Z.of_nat i < Z.of_nat n) by nia.
  unfold set_row_at. assert (HT : length (take (Z.to_nat port * n) (elements (rg_buffer g))) = (Z.to_nat port * n)%nat) by (rewrite length_take; lia).
  destruct (decide (port = port')) as [<-|Hne].
  - rewrite lookup_app_r by lia. rewrite lookup_app_l by (rewrite length_replicate; lia).
    rewrite !lookup_replicate_2 by lia. done.
  - rewrite row_lookup, decide_True by done. fold j. destruct (decide (port < port')).
    + assert (Z.of_nat (Z.to_nat port * n + n)%nat <= Z.of_nat j) by nia.
      rewrite lookup_app_r by lia. rewrite lookup_app_r by (rewrite length_replicate; lia).
      rewrite lookup_drop, length_replicate, HT. f_equal. lia.
    + assert (Z.of_nat j < Z.of_nat (Z.to_nat port * n)%nat) by nia.
      rewrite lookup_app_l by lia. by rewrite lookup_take_lt by lia.
Qed.

Lemma zero_port_spec g port : wf g → 0 <= port < nof_ports g →
  zero_port g port = Ok (if Z.testbit (empty g) port then g else zeroed g port).
Proof.
  intros Hw H. pose proof Hw as (Hp&Hs&Hk&H1&H2&H3&Hd&Hl&_). unfold zero_port.
  rewrite is_port_empty_spec by lia. cbn [mbind result_bind]. destruct (Z.testbit _ _); [done|].
  unfold get_view, get_view_offset. rewrite get_data_wf, Hd by done. cbn [take drop zip zip_with fold_result mbind result_bind].
  rewrite accumulate_2 by lia. cbn [add_dimension mbind result_bind]. pass_assume. cbn [mbind result_bind fold_result].
  rewrite Z.add_0_l, (wrap_small 32 (_ * port)) by (unfold fits; nia).
  rewrite window_sub_ok by (cbn [len]; nia). cbn [mbind result_bind start len].
  pose proof (zeroed_bound g port Hw H) as HB. destruct (row_split _ _ _ HB) as (HE & HT & HR).
  set (n := (Z.to_nat (nof_subc g) * Z.to_nat (nof_symb g))%nat) in *.
  assert (Hn : Z.of_nat n = nof_subc g * nof_symb g) by (unfold n; lia). rewrite <- Hn, Nat2Z.id.
  set (els := elements (rg_buffer g)) in *. rewrite HE.
  rewrite (store_middle _ _ _ _ 0); unfold zlen; cbn [start len]; rewrite ?HT, ?length_replicate, ?HR; try lia.
  cbn [mbind result_bind take app]. rewrite Nat.add_0_l, drop_ge by lia. rewrite app_nil_r. done.
Qed.

Lemma zero_ports_spec g n : wf g → 0 <= n <= nof_ports g →
  ∃ g', fold_result zero_port g (seqZ 0 n) = Ok g' ∧ wf g' ∧
    nof_ports g' = nof_ports g ∧ nof_symb g' = nof_symb g ∧ nof_subc g' = nof_subc g ∧ empty g' = empty g ∧
    ∀ port l, on_grid g port l → row g' port l =
      if (port <? n) && negb (Z.testbit (empty g) port) then replicate (Z.to_nat (nof_subc g)) zero else row g port l.
Proof.
  intros Hw [Hn Hb]. revert Hb. pattern n. apply natlike_ind; [|clear n Hn; intros n Hn IH|done].
  - intros _. exists g. split; [done|]. split; [done|]. do 4 (split; [done|]). intros port l [Hp _].
    by replace (port <? 0) with false by lia.
  - intros Hb. destruct IH as (g1 & HE & Hw1 & Hp1 & Hs1 & Hk1 & He1 & HR1); [lia|].
    rewrite <- Z.add_1_r, seqZ_app, fold_result_app, HE by lia. cbn [mbind result_bind]. rewrite Z.add_0_l.
    rewrite seqZ_cons by lia. rewrite (seqZ_nil _ (Z.pred 1)) by done. cbn [fold_result].
    rewrite zero_port_spec by (done || lia). cbn [mbind result_bind]. rewrite He1. eexists. split; [done|].
    destruct (Z.testbit (empty g) n) eqn:En.
    + split; [done|]. do 4 (split; [done|]). intros port l Hg. rewrite HR1 by done.
      destruct (decide (port = n)) as [->|]; [by rewrite En, !andb_false_r|]. by replace (port <? n + 1) with (port <? n) by lia.
    + split; [by apply zeroed_wf; [|lia]|]. do 4 (split; [done|]). intros port l Hg.
      rewrite row_zeroed by (done || lia || by destruct Hg; split; lia). rewrite Hk1, HR1 by done.
      destruct (decide (n = port)) as [<-|]; [by replace (n <? n + 1) with true by lia; rewrite En|].
      by replace (port <? n + 1) with (port <? n) by lia.
Qed.
End clearing.

(** ** Sequences of writes *)

Section writes.
Import resource_grid.

(** The put operations of the writer, with their arguments; [mask] overloads for both sample
    types.  Writes through a view ([get_view]) leave the flags of the ports as they are and are
    not among them ([view_write_stays]). *)
Inductive write : Type :=
| PutMaskCf (port l k_init : Z) (mask : bounded_bitset.t) (symbols : list cf_t)
| PutMaskCbf16 (port l k_init : Z) (mask : bounded_bitset.t) (symbols : list cbf16_t)
| Put (port l k_init : Z) (symbols : list cf_t)
| PutStride (port l k_init stride : Z) (symbols : list cbf16_t).

Definition write_port (w : write) : Z :=
  match w with PutMaskCf p _ _ _ _ | PutMaskCbf16 p _ _ _ _ | Put p _ _ _ | PutStride p _ _ _ _ => p end.

Definition apply_write (g : t) (w : write) : result t :=
  match w with
  | PutMaskCf port l k mask symbols => '(g, _) ← put_mask_cf g port l k mask symbols; Ok g
  | PutMaskCbf16 port l k mask symbols => '(g, _) ← put_mask_cbf16 g port l k mask symbols; Ok g
  | Put port l k symbols => put g port l k symbols
  | PutStride port l k stride symbols => put_stride g port l k stride symbols
  end.

(** The arguments are unsigned and masks are well formed. *)
Definition write_ok (w : write) : Prop :=
  match w with
  | PutMaskCf p l k m _ | PutMaskCbf16 p l k m _ => 0 <= p ∧ 0 <= l ∧ 0 <= k ∧ bounded_bitset.wf mask_capacity m
  | Put p l k _ => 0 <= p ∧ 0 <= l ∧ 0 <= k
  | PutStride p l k s _ => 0 <= p ∧ 0 <= l ∧ 0 <= k ∧ 0 <= s
  end.

Lemma put_mask_inv {S} (conv : S → cbf16_t) g port l k mask symbols g' rest :
  wf g → 0 <= port → 0 <= l → 0 <= k → bounded_bitset.wf mask_capacity mask →
  put_mask conv g port l k mask symbols = Ok (g', rest) →
  on_grid g port l ∧ 1 <= bounded_bitset.size mask ∧ k + bounded_bitset.size mask <= nof_subc g ∧
  spec.count (bits_of false mask) <= zlen symbols.
Proof.
  intros Hw Hp Hl Hk Hm HE. unfold put_mask in HE. destruct (dimensions_wf g Hw) as (HD1 & HD2 & HD3). rewrite HD1, HD2, HD3 in HE.
  apply bind_Ok in HE as ([] & H1%assume_Ok & HE). apply bind_Ok in HE as ([] & H2%assume_Ok & HE).
  apply bind_Ok in HE as ([] & H3%assume_Ok & HE). assert (Hg : on_grid g port l) by (split; lia).
  rewrite get_view_wf in HE by done. cbn [mbind result_bind] in HE. apply bind_Ok in HE as (w & HW & HE).
  unfold window_sub in HW. cbn [len start] in HW. apply bind_Ok in HW as ([] & H4%assume_Ok & HW).
  apply bind_Ok in HW as ([] & H5%assume_Ok & _). rewrite clear_empty_wf in HE by (done || lia). cbn [mbind result_bind] in HE.
  destruct (mask_count mask Hm) as (HC & Hcb & Hms & _). rewrite HC in HE. cbn [mbind result_bind] in HE.
  rewrite wrap_small in HE by lia_fits. apply bind_Ok in HE as ([] & H6%assume_Ok & _). split; [done|]. lia.
Qed.

Lemma put_stride_loop_inv u v stride w symbols : ∀ r k st, start w = zlen u → len w = zlen r → 0 <= k →
  fold_result (put_stride_one w stride) (u ++ r ++ v, k) symbols = Ok st →
  ∃ r', zlen r' = zlen r ∧ st.1 = u ++ r' ++ v.
Proof.
  induction symbols as [|x symbols IH]; intros r k st Hs Hn Hk HE; cbn [fold_result] in HE.
  { injection HE as <-. by exists r. }
  unfold put_stride_one at 2 in HE. destruct (decide (k < zlen r)).
  - rewrite put_at_middle in HE by (done || lia). cbn [mbind result_bind] in HE.
    apply IH in HE as (r' & Hr' & Hst); [|done|unfold zlen in *; by rewrite length_insert|by apply wrap_fits].
    exists r'. split; [|done]. unfold zlen in *. by rewrite Hr', length_insert.
  - unfold put_at in HE. replace (k <? len w) with false in HE by lia. done.
Qed.

(** Any write that returns replaces one row of its port, and no longer counts the port
    as empty. *)
Lemma apply_write_inv g w g' : wf g → write_ok w → apply_write g w = Ok g' →
  ∃ l r, on_grid g (write_port w) l ∧ zlen r = nof_subc g ∧
    g' = clear_port (with_row g (write_port w) l r) (write_port w).
Proof.
  intros Hw Ho HE. destruct w as [p l k m s|p l k m s|p l k s|p l k st s]; cbn [apply_write write_port write_ok] in *.
  - destruct Ho as (Hp & Hl & Hk & Hm). apply bind_Ok in HE as ([g1 rest] & HE & [= <-]).
    unfold put_mask_cf in HE. destruct (put_mask_inv to_cbf16 g p l k m s g1 rest) as (Hg & H1 & H2 & H3); [done..|].
    rewrite put_mask_spec in HE by done. injection HE as <- _. eexists l, _. split; [done|]. split; [|done].
    by rewrite zlen_scatter_at, zlen_row.
  - destruct Ho as (Hp & Hl & Hk & Hm). apply bind_Ok in HE as ([g1 rest] & HE & [= <-]).
    unfold put_mask_cbf16 in HE. destruct (put_mask_inv (λ x, x) g p l k m s g1 rest) as (Hg & H1 & H2 & H3); [done..|].
    rewrite put_mask_spec in HE by done. injection HE as <- _. eexists l, _. split; [done|]. split; [|done].
    by rewrite zlen_scatter_at, zlen_row.
  - destruct Ho as (Hp & Hl & Hk). pose proof HE as HE'. unfold put in HE'. destruct (dimensions_wf g Hw) as (HD1 & HD2 & HD3).
    rewrite HD1, HD2, HD3 in HE'. apply bind_Ok in HE' as ([] & H1%assume_Ok & HE'). apply bind_Ok in HE' as ([] & H2%assume_Ok & HE').
    apply bind_Ok in HE' as ([] & H3%assume_Ok & _). assert (Hg : on_grid g p l) by (split; lia).
    rewrite put_spec in HE by (done || lia). injection HE as <-. eexists l, _. split; [done|]. split; [|done].
    assert (zlen (map to_cbf16 s) = zlen s) by (unfold zlen; by rewrite length_map).
    rewrite zlen_patch, zlen_row by (rewrite ?zlen_row; done || lia). done.
  - destruct Ho as (Hp & Hl & Hk & Hst). unfold put_stride in HE. destruct (dimensions_wf g Hw) as (HD1 & HD2 & HD3).
    rewrite HD1, HD2, HD3 in HE. apply bind_Ok in HE as ([] & _ & HE). apply bind_Ok in HE as ([] & H2%assume_Ok & HE).
    apply bind_Ok in HE as ([] & H3%assume_Ok & HE). assert (Hg : on_grid g p l) by (split; lia).
    rewrite get_view_wf in HE by done. cbn [mbind result_bind] in HE. apply bind_Ok in HE as ([els k'] & HL & HE).
    destruct (row_context g p l Hw Hg) as (u & v & Hu & HEL & HR). rewrite HEL in HL.
    apply put_stride_loop_inv in HL as (r' & Hr' & Hels); [|cbn [start len]; rewrite ?zlen_row by done; done..].
    cbn [fst] in Hels. subst els. rewrite zlen_row in Hr' by done. rewrite <- HR in HE by done.
    rewrite clear_empty_wf in HE; [|by apply with_row_wf|cbn [nof_ports with_row with_elements]; lia]. injection HE as <-. by exists l, r'.
Qed.

(** Every sample of a port that counts as empty is zero. *)
Definition tracked (g : t) : Prop := ∀ port l, on_grid g port l → Z.testbit (empty g) port = true →
  row g port l = replicate (Z.to_nat (nof_subc g)) zero.

Definition same_shape (g g' : t) : Prop :=
  nof_ports g' = nof_ports g ∧ nof_symb g' = nof_symb g ∧ nof_subc g' = nof_subc g.

Lemma apply_write_tracked g w g' : wf g → tracked g → write_ok w → apply_write g w = Ok g' →
  wf g' ∧ tracked g' ∧ same_shape g g' ∧ empty g' = Z.clearbit (empty g) (write_port w) ∧ 0 <= write_port w < nof_ports g.
Proof.
  intros Hw Ht Ho HE. destruct (apply_write_inv g w g' Hw Ho HE) as (l & r & Hg & Hr & ->).
  pose proof Hg as [Hp Hl]. pose proof (with_row_wf g (write_port w) l r Hw Hg Hr) as Hw'.
  split; [by apply clear_port_wf; [|lia]|]. split; [|done].
  intros port' l' Hg' He. cbn [clear_port with_empty empty with_row with_elements] in He.
  rewrite Z.clearbit_eqb in He by lia. apply andb_true_iff in He as [He Hne%negb_true_iff%Z.eqb_neq].
  change (row (clear_port (with_row g (write_port w) l r) (write_port w)) port' l') with (row (with_row g (write_port w) l r) port' l').
  rewrite row_with_row by done. rewrite decide_False by (intros [E _]; by apply Hne). by apply Ht.
Qed.

Lemma rows_ext g g' : wf g → wf g' → same_shape g g' → empty g' = empty g →
  (∀ port l, on_grid g port l → row g' port l = row g port l) → g' = g.
Proof.
  intros Hw Hw' (Hp & Hs & Hk) He HR. pose proof Hw as (?&?&?&_&_&_&Hd&Hl&_). pose proof Hw' as (_&_&_&_&_&_&Hd'&Hl'&_).
  destruct g as [np ns nk [d els] e], g' as [np' ns' nk' [d' els'] e']. cbn in *. subst.
  f_equal. f_equal. apply list_eq. intros i. destruct (decide (Z.of_nat i < zlen els)) as [Hi|Hi].
  2: { rewrite !lookup_ge_None_2; [done|unfold zlen in *; lia..]. }
  assert (Hns : 0 < nk * ns) by (destruct (decide (nk * ns = 0)) as [E|]; [rewrite E in *; lia|nia]).
  assert (0 < nk ∧ 0 < ns) as [Hk0 Hs0] by nia.
  set (x := Z.of_nat i) in *. set (port := x / (nk * ns)). set (l := (x mod (nk * ns)) / nk). set (k := (x mod (nk * ns)) mod nk).
  assert (Hx : x = (port * ns + l) * nk + k).
  { unfold port, l, k. pose proof (Z.div_mod x (nk * ns)). pose proof (Z.div_mod (x mod (nk * ns)) nk). lia. }
  assert (Hg : 0 <= port < np ∧ 0 <= l < ns).
  { unfold port, l. pose proof (Z.mod_pos_bound x (nk * ns) Hns). split; split.
    - apply Z.div_pos; lia. - apply Z.div_lt_upper_bound; lia. - apply Z.div_pos; lia. - apply Z.div_lt_upper_bound; lia. }
  assert (Hkb : 0 <= k < nk) by (by apply Z.mod_pos_bound).
  pose proof (f_equal (λ r, r !! Z.to_nat k) (HR port l Hg)) as HL. cbn beta in HL.
  rewrite !row_lookup in HL by done. cbn [nof_subc nof_symb rg_buffer elements] in HL. rewrite Z2Nat.id in HL by lia.
  rewrite !decide_True in HL by lia. rewrite <- Hx in HL. unfold x in HL. by rewrite Nat2Z.id in HL.
Qed.

Lemma create_wf ports symb subc : 0 <= ports < 32 → 0 <= symb → 0 <= subc < 2 ^ 32 → subc * symb < 2 ^ 32 →
  subc * symb * ports < 2 ^ 32 →
  ∃ g, create ports symb subc = Ok g ∧ wf g ∧ tracked g ∧ nof_ports g = ports ∧ nof_symb g = symb ∧ nof_subc g = subc ∧
    empty g = 2 ^ ports - 1 ∧ ∀ port l, on_grid g port l → row g port l = replicate (Z.to_nat subc) zero.
Proof.
  intros Hp Hs Hk H1 H2. unfold create, reserve, resize_elements. cbn [elements dimensions_size].
  rewrite accumulate_3 by lia. set (n := subc * symb * ports). assert (0 <= n) by (unfold n; nia).
  rewrite take_nil, app_nil_l, Nat.sub_0_r. unfold get_data. cbn [elements dimensions_size len]. rewrite accumulate_3 by lia. fold n.
  assert (Hz : zlen (replicate (Z.to_nat n) zero) = n) by (unfold zlen; rewrite length_replicate; lia).
  rewrite Hz. pass_assume. rewrite window_sub_ok by (cbn [len]; lia). cbn [mbind result_bind start len].
  pose proof (store_middle [] (replicate (Z.to_nat n) zero) (replicate (Z.to_nat n) zero) [] 0 (mk_window 0 n)) as HS.
  cbn [app start len] in HS. rewrite !app_nil_r in HS. rewrite Z.add_0_l. rewrite HS by (rewrite ?Hz; done || lia).
  cbn [mbind result_bind take Z.to_nat app]. rewrite length_replicate, Nat.add_0_l, drop_ge, app_nil_r by (rewrite length_replicate; lia).
  rewrite all_empty_spec by done. cbn [mbind result_bind]. eexists. split; [done|].
  assert (Hw : wf (mk ports symb subc (tensor.mk [subc; symb; ports] (replicate (Z.to_nat n) zero)) (2 ^ ports - 1))).
  { assert (0 < 2 ^ ports) by (apply Z.pow_pos_nonneg; lia). repeat split; cbn; done || lia. }
  assert (HR : ∀ port l, on_grid (mk ports symb subc (tensor.mk [subc; symb; ports] (replicate (Z.to_nat n) zero)) (2 ^ ports - 1)) port l →
    row (mk ports symb subc (tensor.mk [subc; symb; ports] (replicate (Z.to_nat n) zero)) (2 ^ ports - 1)) port l = replicate (Z.to_nat subc) zero).
  { intros port l Hg. pose proof (zlen_row _ port l Hw Hg) as HL. pose proof (wf_rows _ port l Hw Hg) as HB.
    unfold row, row_at in *. cbn [nof_subc rg_buffer elements] in *. rewrite drop_replicate, take_replicate.
    rewrite length_replicate in HB. f_equal. lia. }
  split; [done|]. split; [|done]. intros port l Hg _. by apply HR.
Qed.

Lemma writes_tracked g ws g' : wf g → tracked g → Forall write_ok ws → fold_result apply_write g ws = Ok g' →
  wf g' ∧ tracked g' ∧ same_shape g g' ∧
  ∀ port, 0 <= port → Z.testbit (empty g') port = Z.testbit (empty g) port && negb (bool_decide (port ∈ map write_port ws)).
Proof.
  intros Hw Ht Ho. revert g Hw Ht. induction Ho as [|w ws Ho Hos IH]; intros g Hw Ht HE; cbn [fold_result] in HE.
  { injection HE as <-. do 3 (split; [done|]). intros port _. rewrite bool_decide_false by set_solver. by rewrite andb_true_r. }
  apply bind_Ok in HE as (g1 & HE1 & HE). destruct (apply_write_tracked g w g1 Hw Ht Ho HE1) as (Hw1 & Ht1 & Hs1 & He1 & Hp).
  destruct (IH g1 Hw1 Ht1 HE) as (Hw' & Ht' & Hs' & He'). do 2 (split; [done|]). split.
  { destruct Hs1 as (?&?&?), Hs' as (?&?&?). repeat split; congruence. }
  intros port Hport. rewrite He', He1, Z.clearbit_eqb, <- andb_assoc by lia. f_equal. cbn [map].
  destruct (Z.eqb_spec (write_port w) port) as [->|Hne].
  - by rewrite (bool_decide_true (port ∈ port :: _)) by set_solver.
  - cbn [negb andb]. f_equal. apply bool_decide_ext. set_solver.
Qed.
(** *** What clearing gives *)

Lemma is_empty_spec g : wf g → is_empty g = Ok (forallb (Z.testbit (empty g)) (seqZ 0 (nof_ports g))).
Proof.
  intros Hw. unfold is_empty. destruct (dimensions_wf g Hw) as (_ & _ & HD). rewrite HD.
  assert (HF : Forall (λ p, 0 <= p < nof_ports g) (seqZ 0 (nof_ports g))) by (apply Forall_forall; intros ? ?%elem_of_seqZ; lia).
  induction HF as [|p k Hpk HF IH]; [done|]. cbn [is_empty_loop forallb]. unfold is_empty_port. rewrite HD. pass_assume.
  rewrite is_port_empty_spec by (destruct Hw as [? _]; lia). cbn [mbind result_bind]. by destruct (Z.testbit _ _).
Qed.

(** A grid as it is created: every sample zero, every port empty. *)
Definition fresh (g : t) : Prop :=
  wf g ∧ empty g = 2 ^ nof_ports g - 1 ∧
  ∀ port l, on_grid g port l → row g port l = replicate (Z.to_nat (nof_subc g)) zero.

Lemma set_all_zero_spec g : wf g →
  ∃ g', set_all_zero g = Ok g' ∧ wf g' ∧ same_shape g g' ∧ empty g' = 2 ^ nof_ports g - 1 ∧
    ∀ port l, on_grid g port l → row g' port l =
      if Z.testbit (empty g) port then row g port l else replicate (Z.to_nat (nof_subc g)) zero.
Proof.
  intros Hw. unfold set_all_zero. pose proof Hw as [Hp _].
  destruct (zero_ports_spec g (nof_ports g) Hw) as (g1 & -> & Hw1 & Hp1 & Hs1 & Hk1 & He1 & HR1); [lia|].
  cbn [mbind result_bind]. rewrite all_empty_spec by lia. cbn [mbind result_bind]. eexists. split; [done|].
  assert (0 < 2 ^ nof_ports g1) by (apply Z.pow_pos_nonneg; lia). split; [|split; [done|]; split; [by rewrite <- Hp1|]].
  - destruct Hw1 as (?&?&?&?&?&?&?&?&_). do 8 (split; [done|]). cbn [nof_ports empty with_empty]. unfold fits. lia.
  - intros port l Hg. change (row (with_empty g1 _) port l) with (row g1 port l). rewrite HR1 by done. destruct Hg as [? _].
    replace (port <? nof_ports g) with true by lia. by destruct (Z.testbit _ _).
Qed.

Lemma tracked_rows g0 g : fresh g0 → tracked g → same_shape g0 g → ∀ port l, on_grid g0 port l →
  Z.testbit (empty g) port = true → row g port l = row g0 port l.
Proof.
  intros (_ & _ & HR) Ht (Sp & Ss & Sk) port l Hg He. rewrite HR, <- Sk by done. apply Ht; [|done]. destruct Hg. split; lia.
Qed.

Lemma set_all_zero_fresh g0 g : fresh g0 → wf g → tracked g → same_shape g0 g → set_all_zero g = Ok g0.
Proof.
  intros HF Hw Ht HS. destruct (set_all_zero_spec g Hw) as (g' & -> & Hw' & HS' & He' & HR'). f_equal.
  pose proof HF as (Hw0 & He0 & HR0). pose proof HS as (Sp & Ss & Sk). pose proof HS' as (Sp' & Ss' & Sk').
  apply rows_ext; [done|done|repeat split; congruence|congruence|]. intros port l Hg.
  assert (Hg' : on_grid g port l) by (destruct Hg; split; lia). rewrite HR' by done.
  destruct (Z.testbit (empty g) port) eqn:E; [by apply tracked_rows|]. by rewrite HR0, Sk.
Qed.

Lemma is_empty_fresh g0 g : fresh g0 → wf g → tracked g → same_shape g0 g → is_empty g = Ok true → g = g0.
Proof.
  intros HF Hw Ht HS HE. rewrite is_empty_spec in HE by done. injection HE as HE. rewrite forallb_forall in HE.
  pose proof HF as (Hw0 & He0 & HR0). pose proof HS as (Sp & Ss & Sk).
  assert (HA : ∀ port, 0 <= port < nof_ports g → Z.testbit (empty g) port = true) by (intros; apply HE, list_elem_of_In, elem_of_seqZ; lia).
  apply rows_ext; [done|done|done| |].
  - rewrite He0. apply Z.bits_inj'. intros k Hk. destruct (decide (k < nof_ports g0)).
    + rewrite HA by lia. symmetry. apply all_ones_bit. lia.
    + destruct Hw as (?&_&_&_&_&_&_&_&Hfe), Hw0 as (?&_&_&_&_&_&_&_&Hfe0). rewrite <- He0.
      rewrite (bit_buffer.fits_bit (nof_ports g)), (bit_buffer.fits_bit (nof_ports g0)) by (done || lia). done.
  - intros port l Hg. apply tracked_rows; [done..|]. apply HA. destruct Hg. lia.
Qed.
End writes.

(** ** Properties *)

Section properties.
Import resource_grid.

Lemma scatter_unset {A} m : ∀ (values r : list A) i, m !! i ≠ Some true → scatter m values r !! i = r !! i.
Proof.
  induction m as [|b m IH]; intros values [|x r] i Hi; [done..|by destruct b|].
  destruct b; [destruct values as [|y values]; [done|]|]; destruct i as [|i]; try done; cbn in *; by apply IH.
Qed.

Lemma drop_scatter_at {A} k m (values r : list A) : (Z.to_nat k <= length r)%nat →
  drop (Z.to_nat k) (scatter_at k m values r) = scatter m values (drop (Z.to_nat k) r).
Proof. intros H. unfold scatter_at. rewrite drop_app_length'; [done|]. rewrite length_take. lia. Qed.

(** Writing samples through a mask of subcarriers and reading them back through the
    same mask gives the samples, converted to brain floats and back, in order; the
    unused rest of the input and of the buffer is returned.  Nothing else of the grid
    changes: neither the subcarriers of that symbol the mask leaves out nor any other
    symbol or port.  This covers the copy of a contiguous block and the loop over the
    bits of the mask, which therefore agree. *)
Theorem grid_put_get {S R} (conv : S → cbf16_t) (conv' : cbf16_t → R) g port l k mask symbols buffer :
  wf g → on_grid g port l → bounded_bitset.wf mask_capacity mask → 0 <= k → 1 <= bounded_bitset.size mask →
  k + bounded_bitset.size mask <= nof_subc g →
  let m := bits_of false mask in let n := Z.to_nat (spec.count m) in
  spec.count m <= zlen symbols → spec.count m <= zlen buffer →
  ∃ g', put_mask conv g port l k mask symbols = Ok (g', drop n symbols) ∧ wf g' ∧
    get_mask conv' g' buffer port l k mask = Ok (map (λ x, conv' (conv x)) (take n symbols), drop n buffer) ∧
    (∀ i : nat, (Z.of_nat i < k ∨ m !! (i - Z.to_nat k)%nat ≠ Some true) → row g' port l !! i = row g port l !! i) ∧
    (∀ port' l', on_grid g port' l' → (port', l') ≠ (port, l) → row g' port' l' = row g port' l').
Proof.
  intros Hw Hg Hm Hk H1 Hs m n Hc Hb. rewrite put_mask_spec by done. fold m n. eexists. split; [done|].
  set (r' := scatter_at k m (map conv symbols) (row g port l)).
  assert (Hr' : zlen r' = nof_subc g) by (unfold r'; by rewrite zlen_scatter_at, zlen_row).
  pose proof (with_row_wf g port l r' Hw Hg Hr') as Hw'. pose proof Hg as [Hp Hl].
  set (g' := clear_port (with_row g port l r') port).
  assert (Hrow : ∀ port' l', on_grid g port' l' → row g' port' l' = if decide (port = port' ∧ l = l') then r' else row g port' l').
  { intros port' l' Hg'. by apply (row_with_row g port l). }
  assert (Hwg : wf g') by (apply clear_port_wf; [done|lia]).
  pose proof (zlen_row g port l Hw Hg) as Hzr. split; [done|]. split; [|split].
  - rewrite get_mask_spec by done. fold m n. rewrite Hrow, decide_True by done. unfold r'.
    destruct (mask_count mask Hm) as (_ & _ & _ & Hzm). fold m in Hzm.
    rewrite drop_scatter_at by (unfold zlen in *; lia). rewrite gather_scatter.
    + fold n. rewrite firstn_map, map_map. done.
    + rewrite Hzm. unfold zlen in *. rewrite length_drop. lia.
    + unfold zlen in *. by rewrite length_map.
  - intros i Hi. rewrite Hrow, decide_True by done. unfold r', scatter_at.
    destruct (decide (Z.of_nat i < k)) as [Hlt|Hge].
    + rewrite lookup_app_l by (rewrite length_take; unfold zlen in *; lia). by rewrite lookup_take_lt by lia.
    + destruct Hi as [|Hi]; [done|]. assert (HT : length (take (Z.to_nat k) (row g port l)) = Z.to_nat k) by (rewrite length_take; unfold zlen in *; lia).
      rewrite lookup_app_r, HT, scatter_unset, lookup_drop by (done || lia). f_equal. lia.
  - intros port' l' Hg' Hne. rewrite Hrow, decide_False by (done || intros [-> ->]; by apply Hne). done.
Qed.

(** Clearing a grid undoes every write of the writer: after any sequence of writes
    that return, [set_all_zero] gives back the grid as it was created, although it
    visits only the ports that were written; and the reader calls the grid empty
    exactly when there was no write. *)
Theorem grid_cleared ports symb subc g0 ws g :
  0 <= ports < 32 → 0 <= symb → 0 <= subc < 2 ^ 32 → subc * symb < 2 ^ 32 → subc * symb * ports < 2 ^ 32 →
  create ports symb subc = Ok g0 → Forall write_ok ws → fold_result apply_write g0 ws = Ok g →
  set_all_zero g = Ok g0 ∧ is_empty g = Ok (bool_decide (ws = [])).
Proof.
  intros Hp Hs Hk H1 H2 HC Ho HE. destruct (create_wf ports symb subc Hp Hs Hk H1 H2) as (g0' & HC' & Hw0 & Ht0 & Hp0 & Hs0 & Hk0 & He0 & HR0).
  rewrite HC in HC'. injection HC' as <-. destruct (writes_tracked g0 ws g Hw0 Ht0 Ho HE) as (Hw & Ht & HS & He). split.
  - apply set_all_zero_fresh; [|done..]. split; [done|]. rewrite Hp0, Hk0. done.
  - rewrite is_empty_spec by done. f_equal. apply eq_true_iff_eq. destruct HS as (Sp & _ & _).
    rewrite forallb_forall, bool_decide_eq_true. split.
    + intros HA. destruct ws as [|w ws]; [done|]. exfalso. cbn [fold_result] in HE. apply bind_Ok in HE as (g1 & HE1 & _).
      destruct (apply_write_tracked g0 w g1) as (_ & _ & _ & _ & Hwp); [done|done|by inversion Ho|done|].
      specialize (HA (write_port w)). rewrite He in HA by lia. rewrite bool_decide_true, andb_false_r in HA by (cbn; set_solver).
      discriminate HA. apply list_elem_of_In, elem_of_seqZ. lia.
    + intros -> p Hpin%list_elem_of_In%elem_of_seqZ. rewrite He by lia. rewrite bool_decide_false by set_solver.
      rewrite andb_true_r, He0. apply all_ones_bit. lia.
Qed.
End properties.

(** ** Examples *)

Module grid_examples.
Import resource_grid.

Definition mask_of (l : list bool) : bounded_bitset.t :=
  match bounded_bitset.of_values mask_capacity false l with Ok b => b | Fault _ => bounded_bitset.mk [] 0 end.

Lemma mask_of_ok l : zlen l <= mask_capacity →
  bounded_bitset.wf mask_capacity (mask_of l) ∧ bits_of false (mask_of l) = l.
Proof.
  intros Hl. unfold mask_of. destruct (of_values_list mask_capacity false ltac:(done) l Hl) as (b & -> & Hb). exact Hb.
Qed.

Definition sample (x : Z) : cf_t := mk_cf (to_float x) (to_float (x + 1)).

(** A mask with a hole, and the fast path. *)
Lemma grid_put_get_witness :
  ∃ g g', create 2 2 6 = Ok g ∧
    put_mask_cf g 1 0 1 (mask_of [true; false; true; true]) (map sample [10; 20; 30; 40]) = Ok (g', [sample 40]) ∧
    get_mask_cf g' (map sample [0; 0; 0]) 1 0 1 (mask_of [true; false; true; true]) = Ok (map sample [10; 20; 30], []).
Proof.
  destruct (create_wf 2 2 6) as (g & HC & Hw & _ & Hp & Hs & Hk & _); [lia..|].
  destruct (mask_of_ok [true; false; true; true]) as [Hm HB]; [done|].
  destruct (grid_put_get to_cbf16 to_cf g 1 0 1 (mask_of [true; false; true; true]) (map sample [10; 20; 30; 40]) (map sample [0; 0; 0]))
    as (g' & HP & _ & HG & _); rewrite ?HB; try done; try (split; lia); try (by rewrite Hk); [done..|].
  exists g, g'. split; [done|]. rewrite HB in HP, HG. split; [exact HP|exact HG].
Defined.

Lemma grid_cleared_witness :
  ∃ g0 g, create 2 2 6 = Ok g0 ∧
    fold_result apply_write g0 [Put 1 0 2 (map sample [7; 8]); PutStride 0 1 0 3 [to_cbf16 (sample 5); to_cbf16 (sample 6)]] = Ok g ∧
    set_all_zero g = Ok g0 ∧ is_empty g = Ok false.
Proof.
  eexists _, _. split; [vm_compute; reflexivity|]. split; [vm_compute; reflexivity|].
  eapply (grid_cleared 2 2 6 _ [Put 1 0 2 (map sample [7; 8]); PutStride 0 1 0 3 [to_cbf16 (sample 5); to_cbf16 (sample 6)]]);
    [lia|lia|lia|lia|lia|vm_compute; reflexivity|repeat constructor; lia|vm_compute; reflexivity].
Defined.

(** Samples written through a view of the writer are not noticed: the port still counts
    as empty, and clearing the grid leaves them there. *)
Example view_write_stays :
  match create 1 1 4 with
  | Ok g =>
      match get_view_of g 0 0 with
      | Ok w =>
          match store (elements (rg_buffer g)) w (map to_cbf16 (map sample [1; 2; 3; 4])) with
          | Ok els => is_empty (with_elements g els) = Ok true ∧ set_all_zero (with_elements g els) = Ok (with_elements g els) ∧
                      els ≠ elements (rg_buffer g)
          | Fault _ => False
          end
      | Fault _ => False
      end
  | Fault _ => False
  end.
Proof. vm_compute. split; [done|]. split; [done|]. discriminate. Qed.

End grid_examples.
