(* ===== verification/GridPool.v ===== *)
(** * GridPool: the pool of resource grids and the counted references to them

    Models lib/phy/support/resource_grid_pool_impl.cpp and
    include/srsran/phy/support/shared_resource_grid.h.  A grid is lent out as a
    [shared_resource_grid]; copies are counted, and the last one to be released gives
    the grid back, after a task of the housekeeping executor has cleared it.

    A reference is a [handle]: the identifier of a grid, or nothing once released or
    moved from.  The atomic operations on the counters are steps; a task handed to the
    executor is in [pending] until it runs, and whether the executor accepts one is an
    argument. *)

From S2P Require Import Prelude Bf16 OfhBase BoundedBitset BitsetSpec ResourceGrid.
Import tensor.

Module grid_pool.

Abbreviation grid := resource_grid.t.

Record t : Type := mk {
  grids : list grid;
  counter : Z;
  grids_scope_count : list Z;
  async_executor : bool;        (* whether there is one *)
  pending : list Z }.           (* identifiers of the grids whose task has not run *)

Abbreviation handle := (option Z).

Definition ref_counter_available : Z := 2 ^ 32 - 1.

Definition with_grids (p : t) (g : list grid) : t := mk g (counter p) (grids_scope_count p) (async_executor p) (pending p).
Definition with_counts (p : t) (c : list Z) : t := mk (grids p) (counter p) c (async_executor p) (pending p).
Definition with_pending (p : t) (q : list Z) : t := mk (grids p) (counter p) (grids_scope_count p) (async_executor p) q.

Definition create (executor : bool) (grids_ : list grid) : t :=
  mk grids_ 0 (replicate (length grids_) ref_counter_available) executor [].

Definition set_count (p : t) (identifier v : Z) : result t :=
  _ ← vec_at (grids_scope_count p) identifier;
  Ok (with_counts p (<[Z.to_nat identifier := v]> (grids_scope_count p))).

Definition allocate_resource_grid (p : t) : result (t * handle) :=
  let identifier := counter p in
  assume (negb (zlen (grids p) =? 0)) DivByZero;;
  let p := mk (grids p) (wrap 32 (counter p + 1) mod zlen (grids p)) (grids_scope_count p) (async_executor p) (pending p) in
  ref_count ← vec_at (grids_scope_count p) identifier;
  if ref_count =? ref_counter_available then
    p ← set_count p identifier 1;
    Ok (p, Some identifier)
  else Ok (p, None).

Definition get_grid (p : t) (identifier : Z) : result grid :=
  assume (identifier <? zlen (grids p)) AssertFailed;; vec_at (grids p) identifier.

(** [accept]: whether the executor takes the task. *)
Definition notify_release_scope (accept : bool) (p : t) (identifier : Z) : result t :=
  assume (identifier <? zlen (grids p)) AssertFailed;;
  g ← vec_at (grids p) identifier;
  e ← resource_grid.is_empty g;
  if (e : bool) then set_count p identifier ref_counter_available else
  if negb (async_executor p) then set_count p identifier ref_counter_available else
  if accept then Ok (with_pending p (pending p ++ [identifier]))
  else set_count p identifier ref_counter_available.

(** The task [set_all_zero_func] of a grid. *)
Definition set_all_zero_func (p : t) (identifier : Z) : result t :=
  g ← vec_at (grids p) identifier;
  g ← resource_grid.set_all_zero g;
  set_count (with_grids p (<[Z.to_nat identifier := g]> (grids p))) identifier ref_counter_available.

(** The executor runs its first task. *)
Definition run_task (p : t) : result t :=
  match pending p with
  | [] => Ok p
  | identifier :: rest => set_all_zero_func (with_pending p rest) identifier
  end.

(** What the destructor checks. *)
Definition all_returned (p : t) : bool := forallb (λ e, e =? ref_counter_available) (grids_scope_count p).

(** ** [shared_resource_grid] *)

Definition is_valid (h : handle) : bool := match h with Some _ => true | None => false end.

Definition get (p : t) (h : handle) : result grid :=
  match h with None => Fault AssertFailed | Some identifier => get_grid p identifier end.

Definition inc_ref_count (p : t) (identifier : Z) : result t :=
  c ← vec_at (grids_scope_count p) identifier; set_count p identifier (wrap 32 (c + 1)).

Definition dec_ref_count (p : t) (identifier : Z) : result (t * bool) :=
  c ← vec_at (grids_scope_count p) identifier;
  p ← set_count p identifier (wrap 32 (c - 1));
  Ok (p, c =? 1).

(** The copy is the same handle. *)
Definition copy (p : t) (h : handle) : result t :=
  match h with None => Ok p | Some identifier => inc_ref_count p identifier end.

(** Releases what the object held; it holds nothing afterwards. *)
Definition release (accept : bool) (p : t) (h : handle) : result t :=
  match h with
  | None => Ok p
  | Some identifier =>
      '(p, last) ← dec_ref_count p identifier;
      if (last : bool) then notify_release_scope accept p identifier else Ok p
  end.

(** The grid behind a handle is changed in place. *)
Definition update (p : t) (h : handle) (f : grid → result grid) : result t :=
  match h with
  | None => Fault AssertFailed
  | Some identifier => g ← get_grid p identifier; g ← f g; Ok (with_grids p (<[Z.to_nat identifier := g]> (grids p)))
  end.

End grid_pool.

(** ** Counting the references *)

Section counting.
Import grid_pool.

(** How many of the handles refer to a grid. *)
Definition holders (id : Z) (hs : list handle) : Z := zlen (filter (λ h, h = Some id) hs).

#[export] Instance holders_permutation id : Proper ((≡ₚ) ==> eq) (holders id).
Proof. intros hs hs' H. unfold holders, zlen. by rewrite H. Qed.

Lemma holders_cons id h hs : holders id (h :: hs) = (if decide (h = Some id) then 1 else 0) + holders id hs.
Proof. unfold holders. rewrite filter_cons. destruct (decide _); [by rewrite zlen_cons|done]. Qed.

Lemma holders_bound id hs : 0 <= holders id hs <= zlen hs.
Proof. unfold holders, zlen. pose proof (length_filter (λ h, h = Some id) hs). lia. Qed.

Lemma holders_elem id hs : Some id ∈ hs → 0 < holders id hs.
Proof.
  intros H. unfold holders. assert (Hf : Some id ∈ filter (λ h, h = Some id) hs) by (by apply list_elem_of_filter).
  destruct (filter _ hs); [by apply elem_of_nil in Hf|]. rewrite zlen_cons. pose proof (zlen_nonneg l). lia.
Qed.

(** What the counter of a grid holds: nothing to count while its task is pending, the
    number of handles, or the mark of an available grid. *)
Definition expected_count (pending : list Z) (hs : list handle) (id : Z) : Z :=
  if bool_decide (id ∈ pending) then 0
  else if holders id hs =? 0 then ref_counter_available else holders id hs.

(** [hs] are all the handles there are. *)
Record counted (p : t) (hs : list handle) : Prop := {
  counted_grids : Forall wf (grids p);
  counted_size : zlen (grids p) < 2 ^ 32;
  counted_counter : 0 <= counter p ∧ (counter p < zlen (grids p) ∨ grids p = []);
  counted_number : zlen hs < ref_counter_available;
  counted_handles : Forall (λ h, ∀ id, h = Some id → 0 <= id < zlen (grids p)) hs;
  counted_pending : NoDup (pending p) ∧ Forall (λ id, 0 <= id < zlen (grids p) ∧ holders id hs = 0) (pending p);
  counted_counts : grids_scope_count p = map (expected_count (pending p) hs) (seqZ 0 (zlen (grids p))) }.

#[export] Instance counted_permutation p : Proper ((≡ₚ) ==> iff) (counted p).
Proof.
  assert (H : ∀ hs hs', hs ≡ₚ hs' → counted p hs → counted p hs').
  { intros hs hs' HP [Hg Hs Hc Hn Hh [Hd Hp] Hv].
    assert (HH : ∀ id, holders id hs' = holders id hs) by (intros; by rewrite HP).
    constructor; [done|done|done|unfold zlen in *; by rewrite <- HP|by rewrite <- HP|..].
    - split; [done|]. eapply Forall_impl; [exact Hp|]. intros id [? ?]. by rewrite HH.
    - rewrite Hv. apply map_ext. intros id. unfold expected_count. by rewrite HH. }
  intros hs hs' HP. split; by apply H.
Qed.

Lemma vec_at_map_seqZ {A} (f : Z → A) n i : 0 <= i < n → vec_at (map f (seqZ 0 n)) i = Ok (f i).
Proof. intros Hi. unfold vec_at. test_true. rewrite lookup_map_seqZ, decide_True by lia. by rewrite Z2Nat.id by lia. Qed.

Lemma insert_map_seqZ {A} (f g : Z → A) n i : 0 <= i < n → (∀ j, 0 <= j < n → j ≠ i → g j = f j) →
  <[Z.to_nat i := g i]> (map f (seqZ 0 n)) = map g (seqZ 0 n).
Proof.
  intros Hi H. apply list_eq. intros j. destruct (decide (j = Z.to_nat i)) as [->|Hne].
  - rewrite list_lookup_insert_eq by (rewrite length_map, length_seqZ; lia). rewrite lookup_map_seqZ, decide_True by lia.
    by rewrite Z2Nat.id by lia.
  - rewrite list_lookup_insert_ne by done. rewrite !lookup_map_seqZ. destruct (decide _); [|done]. f_equal. symmetry. apply H; lia.
Qed.

Lemma vec_at_grids p hs id : counted p hs → 0 <= id < zlen (grids p) → ∃ g, vec_at (grids p) id = Ok g ∧ wf g.
Proof.
  intros HC Hi. unfold vec_at. test_true. destruct (lookup_lt_is_Some_2 (grids p) (Z.to_nat id)) as [g Hg]; [unfold zlen in Hi; lia|].
  exists g. rewrite Hg. split; [done|]. pose proof (counted_grids p hs HC) as HF. rewrite Forall_lookup in HF. by eapply HF.
Qed.

(** Replacing a counter by the value that is expected afterwards. *)
Lemma set_count_map p f g id : 0 <= id < zlen (grids p) → grids_scope_count p = map f (seqZ 0 (zlen (grids p))) →
  (∀ j, 0 <= j < zlen (grids p) → j ≠ id → g j = f j) →
  set_count p id (g id) = Ok (with_counts p (map g (seqZ 0 (zlen (grids p))))).
Proof.
  intros Hi HE HG. unfold set_count. rewrite HE, vec_at_map_seqZ by done. cbn [mbind result_bind]. do 2 f_equal.
  by apply insert_map_seqZ.
Qed.

(** *** Allocation *)

Lemma allocate_counted p hs : counted p hs → grids p ≠ [] → zlen hs + 1 < ref_counter_available →
  ∃ p' h, allocate_resource_grid p = Ok (p', h) ∧ counted p' (h :: hs) ∧ grids p' = grids p ∧
    pending p' = pending p ∧ async_executor p' = async_executor p ∧
    (∀ id, h = Some id → id = counter p ∧ holders id hs = 0 ∧ id ∉ pending p).
Proof.
  intros HC Hne Hn. pose proof HC as [Hg Hs [Hc0 Hc] _ Hh [Hd Hp] Hv]. destruct Hc as [Hc|]; [|done].
  unfold allocate_resource_grid. assert (Hz : 0 < zlen (grids p)) by lia. pass_assume.
  rewrite (wrap_small 32 (counter p + 1)) by lia_fits. set (c' := (counter p + 1) mod zlen (grids p)).
  assert (Hc' : 0 <= c' < zlen (grids p)) by (by apply Z.mod_pos_bound).
  cbn [grids_scope_count]. rewrite Hv, vec_at_map_seqZ by lia. cbn [mbind result_bind].
  set (p1 := mk _ c' _ _ _). pose proof (holders_bound (counter p) hs) as HB. unfold expected_count at 1.
  assert (Hnone : counted p1 (None :: hs)).
  { assert (HH : ∀ id, holders id (None :: hs) = holders id hs) by (intros; by rewrite holders_cons, decide_False by done).
    constructor; cbn [p1 grids counter pending grids_scope_count].
    - done.
    - done.
    - lia.
    - rewrite zlen_cons. lia.
    - by constructor.
    - split; [done|]. eapply Forall_impl; [exact Hp|]. intros id [? ?]. by rewrite HH.
    - apply map_ext. intros id. unfold expected_count. by rewrite HH. }
  case_bool_decide as Hpend; [|destruct (Z.eqb_spec (holders (counter p) hs) 0) as [H0|H0]].
  - exists p1, None. by split.
  - rewrite Z.eqb_refl.
    assert (HH : ∀ j, expected_count (pending p) (Some (counter p) :: hs) j =
      if decide (j = counter p) then 1 else expected_count (pending p) hs j).
    { intros j. unfold expected_count. rewrite holders_cons. destruct (decide (j = counter p)) as [->|Hj].
      - rewrite bool_decide_false, decide_True, H0 by done. done.
      - rewrite decide_False by congruence. done. }
    pose proof (set_count_map p1 (expected_count (pending p) hs) (expected_count (pending p) (Some (counter p) :: hs)) (counter p)) as HS.
    change (grids p1) with (grids p) in HS. rewrite HH, decide_True in HS by done. rewrite HS; [|lia|done|intros; by rewrite HH, decide_False].
    cbn [mbind result_bind]. eexists _, _. split; [done|]. split; [|repeat split; naive_solver].
    constructor; cbn [with_counts p1 grids counter pending grids_scope_count].
    + done.
    + done.
    + lia.
    + rewrite zlen_cons. lia.
    + constructor; [naive_solver|done].
    + split; [done|]. rewrite Forall_forall in *. intros id Hid. destruct (Hp id Hid) as [? Hh0]. split; [done|].
      rewrite holders_cons, decide_False, Hh0 by congruence. done.
    + done.
  - replace (holders (counter p) hs =? ref_counter_available) with false by lia. exists p1, None. by split.
Qed.
End counting.

Section ownership.
Import grid_pool.

Lemma counted_not_pending p hs id : counted p hs → 0 < holders id hs → id ∉ pending p.
Proof.
  intros HC Hh Hin. destruct (counted_pending p hs HC) as [_ Hp]. rewrite Forall_forall in Hp. destruct (Hp id Hin). lia.
Qed.

Lemma counted_valid p hs id : counted p hs → Some id ∈ hs → 0 <= id < zlen (grids p).
Proof. intros HC Hin. pose proof (counted_handles p hs HC) as HF. rewrite Forall_forall in HF. by apply (HF _ Hin). Qed.

(** The counter of a grid somebody refers to. *)
Lemma counted_count p hs id : counted p hs → Some id ∈ hs →
  vec_at (grids_scope_count p) id = Ok (holders id hs) ∧ 0 < holders id hs < ref_counter_available ∧ id ∉ pending p.
Proof.
  intros HC Hin. pose proof (counted_valid p hs id HC Hin) as Hid. pose proof (holders_elem id hs Hin) as H0.
  pose proof (holders_bound id hs). pose proof (counted_number p hs HC). pose proof (counted_not_pending p hs id HC H0) as Hp.
  rewrite (counted_counts p hs HC), vec_at_map_seqZ by done. unfold expected_count.
  rewrite bool_decide_false by done. replace (holders id hs =? 0) with false by lia. split; [done|]. split; [lia|done].
Qed.

Lemma counted_add_none p hs : counted p hs → zlen hs + 1 < ref_counter_available → counted p (None :: hs).
Proof.
  intros [Hg Hs Hc _ Hh [Hd Hp] Hv] Hn.
  assert (HH : ∀ id, holders id (None :: hs) = holders id hs) by (intros; by rewrite holders_cons, decide_False by done).
  constructor; [done|done|done|rewrite zlen_cons; lia|by constructor|..].
  - split; [done|]. eapply Forall_impl; [exact Hp|]. intros id [? ?]. by rewrite HH.
  - rewrite Hv. apply map_ext. intros id. unfold expected_count. by rewrite HH.
Qed.

Lemma copy_counted p hs h : counted p hs → h ∈ hs → zlen hs + 1 < ref_counter_available →
  ∃ p', copy p h = Ok p' ∧ counted p' (h :: hs) ∧ grids p' = grids p ∧ pending p' = pending p ∧
    async_executor p' = async_executor p.
Proof.
  intros HC Hin Hn. pose proof HC as [Hg Hs Hc _ Hh [Hd Hp] Hv].
  assert (HFh : Forall (λ h, ∀ id, h = Some id → 0 <= id < zlen (grids p)) (h :: hs)).
  { constructor; [|done]. rewrite Forall_forall in Hh. by apply Hh. }
  destruct h as [id|]; cbn [copy].
  - destruct (counted_count p hs id HC Hin) as (HV & HB & Hnp). pose proof (counted_valid p hs id HC Hin) as Hid.
    unfold inc_ref_count. rewrite HV. cbn [mbind result_bind].
    assert (HH : ∀ j, expected_count (pending p) (Some id :: hs) j =
      if decide (j = id) then holders id hs + 1 else expected_count (pending p) hs j).
    { intros j. unfold expected_count. rewrite holders_cons. destruct (decide (j = id)) as [->|Hj].
      - rewrite bool_decide_false, decide_True by done. replace (1 + holders id hs =? 0) with false by lia. lia.
      - by rewrite decide_False by congruence. }
    rewrite (wrap_small 32 (holders id hs + 1)) by (unfold ref_counter_available in *; lia_fits).
    pose proof (set_count_map p (expected_count (pending p) hs) (expected_count (pending p) (Some id :: hs)) id Hid Hv) as HS.
    rewrite HH, decide_True in HS by done. rewrite HS by (intros; by rewrite HH, decide_False). eexists. split; [done|].
    split; [|done]. constructor; cbn [with_counts grids counter pending grids_scope_count]; try done; [rewrite zlen_cons; lia|].
    split; [done|]. rewrite Forall_forall in *. intros j Hj. destruct (Hp j Hj) as [? Hj0]. split; [done|].
    rewrite holders_cons, decide_False, Hj0 by congruence. done.
  - exists p. split; [done|]. split; [by apply counted_add_none|done].
Qed.

(** The rest of the invariant when one handle is gone; the counters are left to show. *)
Lemma counted_drop p h hs q c : counted p (h :: hs) →
  (q = pending p ∨ ∃ id, h = Some id ∧ holders id hs = 0 ∧ q = pending p ++ [id]) →
  c = map (expected_count q hs) (seqZ 0 (zlen (grids p))) →
  counted (with_pending (with_counts p c) q) hs.
Proof.
  intros HC Hq ->. pose proof HC as [Hg Hs Hc Hn Hh [Hd Hp] Hv]. rewrite zlen_cons in Hn.
  assert (HP : Forall (λ id, 0 <= id < zlen (grids p) ∧ holders id hs = 0) (pending p)).
  { eapply Forall_impl; [exact Hp|]. intros j [? Hj]. rewrite holders_cons in Hj. pose proof (holders_bound j hs).
    split; [done|]. destruct (decide _); lia. }
  constructor; cbn [with_pending with_counts grids counter pending grids_scope_count]; try done; [lia|by inversion Hh|].
  destruct Hq as [->|(id & -> & H0 & ->)]; [done|].
  assert (Hnp : id ∉ pending p).
  { apply (counted_not_pending p (Some id :: hs)); [done|]. rewrite holders_cons, decide_True by done. lia. }
  split; [apply NoDup_app; split; [done|]; split; [set_solver|apply NoDup_singleton]|].
  apply Forall_app. split; [done|]. constructor; [|done]. split; [|done]. apply (counted_valid p (Some id :: hs)); [done|set_solver].
Qed.

Lemma with_pending_same p c : with_pending (with_counts p c) (pending p) = with_counts p c.
Proof. done. Qed.

Lemma release_counted accept p h hs : counted p (h :: hs) →
  ∃ p', release accept p h = Ok p' ∧ counted p' hs ∧ grids p' = grids p ∧ async_executor p' = async_executor p ∧
    (pending p' = pending p ∧
       (∀ id, h = Some id → holders id hs = 0 → async_executor p = true → accept = true →
          ∃ g, vec_at (grids p) id = Ok g ∧ resource_grid.is_empty g = Ok true) ∨
     ∃ id, h = Some id ∧ pending p' = pending p ++ [id]).
Proof.
  intros HC. destruct h as [id|]; cbn [release].
  2: { exists p. split; [done|]. split; [|split; [done|]; split; [done|]; by left].
       assert (HP : p = with_pending (with_counts p (grids_scope_count p)) (pending p)) by (by destruct p). rewrite HP.
       apply (counted_drop p None); [done|by left|]. rewrite (counted_counts _ _ HC). apply map_ext. intros j. unfold expected_count.
       by rewrite holders_cons, decide_False. }
  destruct (counted_count p (Some id :: hs) id HC) as (HV & HB & Hnp); [set_solver|].
  pose proof (counted_valid p (Some id :: hs) id HC ltac:(set_solver)) as Hid. pose proof (counted_counts _ _ HC) as Hv.
  rewrite holders_cons, decide_True in HV, HB by done. pose proof (holders_bound id hs) as HB'.
  unfold dec_ref_count. rewrite HV. cbn [mbind result_bind]. replace (1 + holders id hs - 1) with (holders id hs) by lia.
  rewrite (wrap_small 32 (holders id hs)) by (unfold ref_counter_available in *; lia_fits).
  set (f := expected_count (pending p) (Some id :: hs)) in *.
  assert (HO : ∀ q (j : Z), j ≠ id → (j ∈ q ↔ j ∈ pending p) → expected_count q hs j = f j).
  { intros q j Hj Hq. unfold f, expected_count. rewrite holders_cons, decide_False, Z.add_0_l by congruence.
    by rewrite (bool_decide_ext _ _ Hq). }
  pose proof (set_count_map p f (λ j, if decide (j = id) then holders id hs else f j) id Hid Hv) as HS.
  cbn beta in HS. rewrite decide_True in HS by done. rewrite HS by (intros; by rewrite decide_False). cbn [mbind result_bind].
  set (f1 := λ j, if decide (j = id) then holders id hs else f j) in *. set (p1 := with_counts p _).
  assert (Hav : ∀ v, v = expected_count (pending p) hs id →
    set_count p1 id v = Ok (with_counts p (map (expected_count (pending p) hs) (seqZ 0 (zlen (grids p)))))).
  { intros v ->. apply (set_count_map p1 f1); [done|done|]. intros j _ Hj. rewrite HO by done. unfold f1. by rewrite decide_False. }
  assert (HD : counted (with_counts p (map (expected_count (pending p) hs) (seqZ 0 (zlen (grids p))))) hs).
  { rewrite <- with_pending_same. apply (counted_drop p (Some id)); [done|by left|done]. }
  destruct (Z.eqb_spec (1 + holders id hs) 1) as [H1|H1].
  - assert (H0 : holders id hs = 0) by lia. unfold notify_release_scope. change (grids p1) with (grids p). pass_assume.
    destruct (vec_at_grids p _ id HC Hid) as (g & HVg & Hwg). rewrite HVg. cbn [mbind result_bind].
    destruct (resource_grid.is_empty g) as [e|] eqn:Ee; [|by rewrite is_empty_spec in Ee]. cbn [mbind result_bind].
    assert (HA : set_count p1 id ref_counter_available = Ok (with_counts p (map (expected_count (pending p) hs) (seqZ 0 (zlen (grids p)))))).
    { apply Hav. unfold expected_count. by rewrite bool_decide_false, H0 by done. }
    change (async_executor p1) with (async_executor p).
    destruct e; [|destruct (async_executor p) eqn:Ea; cbn [negb]; [destruct accept|]]; 
      try (rewrite HA; eexists; split; [done|]; split; [done|]; split; [done|]; split; [done|]; left; split; [done|]).
    { intros ? [= <-] _ _ _. by exists g. }
    2: by intros. 2: by intros.
    eexists. split; [done|]. split; [|split; [done|]; split; [done|]; right; by exists id].
    apply (counted_drop p (Some id) hs (pending p ++ [id]) (map f1 (seqZ 0 (zlen (grids p))))); [done|right; by exists id|].
    apply map_ext. intros j. unfold f1. destruct (decide (j = id)) as [->|Hj].
    + unfold expected_count. rewrite bool_decide_true by set_solver. done.
    + symmetry. apply HO; [done|]. set_solver.
  - eexists. split; [done|]. split; [|split; [done|]; split; [done|]; left; split; [done|]; intros ? [= <-]; lia]. replace p1 with (with_counts p (map (expected_count (pending p) hs) (seqZ 0 (zlen (grids p))))); [done|].
    unfold p1. f_equal. apply map_ext. intros j. unfold f1. destruct (decide (j = id)) as [->|Hj]; [|by rewrite HO].
    unfold expected_count. rewrite bool_decide_false by done. by replace (holders id hs =? 0) with false by lia.
Qed.
End ownership.

(** ** Programs that use the pool *)

Section programs.
Import grid_pool.

Lemma with_grids_counted p hs gs : counted p hs → Forall wf gs → length gs = length (grids p) → counted (with_grids p gs) hs.
Proof.
  intros [Hg Hs Hc Hn Hh Hp Hv] Hw Hl. assert (HZ : zlen gs = zlen (grids p)) by (unfold zlen; lia).
  constructor; cbn [with_grids grids counter pending grids_scope_count]; rewrite ?HZ; try done.
  destruct Hc as [? [?|E]]; [auto|]. split; [done|]. right. apply length_zero_iff_nil. by rewrite Hl, E.
Qed.

Lemma run_task_counted p hs : counted p hs →
  ∃ p', run_task p = Ok p' ∧ counted p' hs ∧ async_executor p' = async_executor p ∧ length (grids p') = length (grids p) ∧
    match pending p with
    | [] => p' = p
    | id :: rest => pending p' = rest ∧ ∃ g g', vec_at (grids p) id = Ok g ∧ wf g ∧ resource_grid.set_all_zero g = Ok g' ∧
        grids p' = <[Z.to_nat id := g']> (grids p)
    end.
Proof.
  intros HC. unfold run_task. destruct (pending p) as [|id rest] eqn:EP; [by exists p|].
  pose proof (counted_pending p hs HC) as [Hd Hp]. rewrite EP in Hd, Hp. apply NoDup_cons in Hd as [Hni Hd].
  inversion_clear Hp as [|? ? [Hid H0] Hp'].
  unfold set_all_zero_func. cbn [with_pending grids]. destruct (vec_at_grids p hs id HC Hid) as (g & HV & Hwg). rewrite HV.
  cbn [mbind result_bind]. destruct (set_all_zero_spec g Hwg) as (g' & HZ & Hw' & _). rewrite HZ. cbn [mbind result_bind].
  set (p1 := with_grids (with_pending p rest) _).
  assert (HL' : zlen (<[Z.to_nat id := g']> (grids p)) = zlen (grids p)) by (unfold zlen; by rewrite length_insert).
  assert (HL : zlen (grids p1) = zlen (grids p)) by done.
  pose proof (set_count_map p1 (expected_count (pending p) hs) (expected_count rest hs) id) as HS. rewrite HL in HS.
  specialize (HS Hid (counted_counts p hs HC)). assert (HX : expected_count rest hs id = ref_counter_available) by (unfold expected_count; by rewrite bool_decide_false, H0 by done).
  rewrite HX in HS. rewrite HS.
  2: { intros j _ Hj. unfold expected_count. rewrite EP. by rewrite (bool_decide_ext (j ∈ rest) (j ∈ id :: rest)) by set_solver. }
  eexists. split; [done|]. split; [|split; [done|]; split; [cbn [with_counts p1 with_grids grids]; by rewrite length_insert|]; split; [done|]; by exists g, g'].
  pose proof HC as [Hg Hs Hc Hn Hh _ _].
  constructor; cbn [with_counts p1 with_grids with_pending grids counter pending grids_scope_count]; rewrite ?HL'; try done.
  - apply Forall_insert; done.
  - destruct Hc as [? [?|E]]; [auto|]. rewrite E in Hid. unfold zlen in Hid. cbn in Hid. lia.
Qed.

Inductive op : Type :=
| Allocate                             (* a new object *)
| Copy (i : Z)                         (* a new object, a copy of object [i] *)
| MoveConstruct (i : Z)                (* a new object takes what [i] held *)
| MoveAssign (i j : Z) (accept : bool) (* object [j] takes what [i] held *)
| Release (i : Z) (accept : bool)
| Write (i : Z) (w : write)            (* a write to the grid of object [i] *)
| RunTask.                             (* the executor runs its first task *)

Definition state : Type := t * list handle.

Definition step (st : state) (o : op) : result state :=
  let '(p, objs) := st in
  match o with
  | Allocate => '(p, h) ← allocate_resource_grid p; Ok (p, objs ++ [h])
  | Copy i => h ← vec_at objs i; p ← copy p h; Ok (p, objs ++ [h])
  | MoveConstruct i => h ← vec_at objs i; Ok (p, <[Z.to_nat i := None]> objs ++ [h])
  | MoveAssign i j accept =>
      hj ← vec_at objs j;
      p ← release accept p hj;
      let objs := <[Z.to_nat j := None]> objs in
      hi ← vec_at objs i;
      Ok (p, <[Z.to_nat i := None]> (<[Z.to_nat j := hi]> objs))
  | Release i accept =>
      h ← vec_at objs i; p ← release accept p h; Ok (p, <[Z.to_nat i := None]> objs)
  | Write i w => h ← vec_at objs i; p ← update p h (λ g, apply_write g w); Ok (p, objs)
  | RunTask => p ← run_task p; Ok (p, objs)
  end.

(** The objects named exist; a write is to a valid one. *)
Definition op_ok (objs : list handle) (o : op) : Prop :=
  match o with
  | Allocate | RunTask => True
  | Copy i | MoveConstruct i | Release i _ => 0 <= i < zlen objs
  | MoveAssign i j _ => 0 <= i < zlen objs ∧ 0 <= j < zlen objs
  | Write i w => write_ok w ∧ ∃ id, objs !! Z.to_nat i = Some (Some id) ∧ 0 <= i
  end.

Lemma insert_permutation {A} (l : list A) i x y : l !! i = Some x → y :: l ≡ₚ x :: <[i := y]> l.
Proof.
  intros H. rewrite insert_take_drop by (by eapply lookup_lt_Some). rewrite <- (take_drop_middle l i x H) at 1.
  solve_Permutation.
Qed.

(** A move between objects keeps the handles there are. *)
Lemma move_permutation (objs : list handle) i j hi : objs !! j = Some None → objs !! i = Some hi →
  <[i := None]> (<[j := hi]> objs) ≡ₚ objs.
Proof.
  intros Hj Hi. destruct (decide (i = j)) as [->|E].
  - assert (hi = None) as -> by congruence. by rewrite (list_insert_id objs), (list_insert_id objs) by done.
  - assert (Hi2 : <[j := hi]> objs !! i = Some hi) by (by rewrite list_lookup_insert_ne).
    pose proof (insert_permutation objs _ None hi Hj) as HP1. pose proof (insert_permutation _ _ hi None Hi2) as HP2.
    rewrite HP2 in HP1. apply Permutation_cons_inv in HP1. by rewrite <- HP1.
Qed.

(** A handle taken out of its object. *)
Lemma take_counted p objs i h : counted p objs → zlen objs + 1 < ref_counter_available → objs !! i = Some h →
  counted p (h :: <[i := None]> objs).
Proof. intros HC Hn Hi. rewrite <- (insert_permutation objs i h None Hi). by apply counted_add_none. Qed.

(** What an operation does to the pool and the objects of a counted state. *)
Lemma step_counted p objs o : counted p objs → grids p ≠ [] → zlen objs + 1 < ref_counter_available → op_ok objs o →
  (∃ p' objs', step (p, objs) o = Ok (p', objs') ∧ counted p' objs' ∧ zlen objs' <= zlen objs + 1 ∧
    length (grids p') = length (grids p)) ∨
  (∃ i w id g f, o = Write i w ∧ objs !! Z.to_nat i = Some (Some id) ∧ vec_at (grids p) id = Ok g ∧
    apply_write g w = Fault f ∧ step (p, objs) o = Fault f).
Proof.
  intros HC Hne Hn Ho. destruct o as [|i|i|i j acc|i acc|i w|]; cbn [step op_ok] in *.
  - left. destruct (allocate_counted p objs HC Hne Hn) as (p' & h & -> & HC' & HG & _). cbn [mbind result_bind].
    eexists _, _. split; [done|]. rewrite HG, zlen_app. split; [|done]. by rewrite <- Permutation_cons_append.
  - left. destruct (vec_at_ok objs i Ho) as (h & -> & Hh). cbn [mbind result_bind].
    destruct (copy_counted p objs h HC) as (p' & -> & HC' & HG & _); [by apply (list_elem_of_lookup_2 _ (Z.to_nat i))|done|]. cbn [mbind result_bind].
    eexists _, _. split; [done|]. rewrite HG, zlen_app. split; [|done]. by rewrite <- Permutation_cons_append.
  - left. destruct (vec_at_ok objs i Ho) as (h & -> & Hh). cbn [mbind result_bind]. eexists _, _. split; [done|].
    rewrite zlen_app. unfold zlen at 1. rewrite length_insert. split; [|done]. rewrite <- Permutation_cons_append.
    by apply take_counted.
  - left. destruct Ho as [Hi Hj]. destruct (vec_at_ok objs j Hj) as (hj & -> & Hhj). cbn [mbind result_bind].
    destruct (release_counted acc p hj (<[Z.to_nat j := None]> objs)) as (p' & -> & HC' & HG & _); [by apply take_counted|].
    cbn [mbind result_bind]. set (objs1 := <[Z.to_nat j := None]> objs) in *.
    assert (HL : length objs1 = length objs) by (apply length_insert).
    destruct (vec_at_ok objs1 i) as (hi & -> & Hhi); [unfold zlen in *; lia|]. cbn [mbind result_bind].
    eexists _, _. split; [done|]. rewrite HG. unfold zlen. rewrite !length_insert, HL. split; [|split; [lia|done]].
    assert (Hj1 : objs1 !! Z.to_nat j = Some None) by (apply list_lookup_insert_eq; unfold zlen in Hj; lia).
    by rewrite move_permutation.
  - left. destruct (vec_at_ok objs i Ho) as (h & -> & Hh). cbn [mbind result_bind].
    destruct (release_counted acc p h (<[Z.to_nat i := None]> objs)) as (p' & -> & HC' & HG & _); [by apply take_counted|].
    cbn [mbind result_bind]. eexists _, _. split; [done|]. rewrite HG. unfold zlen. rewrite length_insert. split; [done|]. split; [lia|done].
  - destruct Ho as [Hw (id & Hid & Hi)]. assert (HVo : vec_at objs i = Ok (Some id)) by (unfold vec_at; replace (0 <=? i) with true by lia; by rewrite Hid).
    rewrite HVo. cbn [mbind result_bind update].
    pose proof (counted_valid p objs id HC ltac:(by eapply list_elem_of_lookup_2)) as Hidr.
    destruct (vec_at_grids p objs id HC Hidr) as (g & HV & Hwg). unfold get_grid. rewrite HV. pass_assume.
    destruct (apply_write g w) as [g'|f] eqn:EA; cbn [mbind result_bind].
    + left. eexists _, _. split; [done|]. split; [|cbn [with_grids grids]; rewrite length_insert; lia].
      destruct (apply_write_inv g w g' Hwg Hw EA) as (l & r & Hg & Hr & ->). pose proof Hg as [? _].
      apply with_grids_counted; [done| |by rewrite length_insert]. apply Forall_insert; [apply HC|].
      apply clear_port_wf; [by apply with_row_wf|lia].
    + right. by exists i, w, id, g, f.
  - left. destruct (run_task_counted p objs HC) as (p' & -> & HC' & _ & HL & _). cbn [mbind result_bind]. eexists _, _.
    split; [done|]. split; [done|]. split; [lia|done].
Qed.

Fixpoint run (st : state) (ops : list op) : result state :=
  match ops with [] => Ok st | o :: ops => st ← step st o; run st ops end.

(** Every operation names objects that exist when it runs. *)
Fixpoint run_ok (st : state) (ops : list op) : Prop :=
  match ops with
  | [] => True
  | o :: ops => op_ok st.2 o ∧ match step st o with Ok st' => run_ok st' ops | Fault _ => True end
  end.

Lemma create_counted executor gs : Forall wf gs → zlen gs < 2 ^ 32 → counted (create executor gs) [].
Proof.
  intros Hw Hs. constructor; cbn [create grids counter pending grids_scope_count]; try done.
  - split; [done|]. destruct gs; [by right|left]. rewrite zlen_cons. pose proof (zlen_nonneg gs). lia.
  - split; [apply NoDup_nil_2|done].
  - apply list_eq. intros i. rewrite lookup_map_seqZ. unfold zlen. destruct (decide _).
    + by rewrite lookup_replicate_2 by lia.
    + by rewrite (proj1 (lookup_replicate_None _ _ _)) by lia.
Qed.

Lemma run_counted ops : ∀ p objs st, counted p objs → grids p ≠ [] → zlen objs + zlen ops < ref_counter_available →
  run_ok (p, objs) ops → run (p, objs) ops = Ok st →
  counted st.1 st.2 ∧ length (grids st.1) = length (grids p) ∧ zlen st.2 <= zlen objs + zlen ops.
Proof.
  induction ops as [|o ops IH]; intros p objs st HC Hne Hn Ho HR; cbn [run] in HR.
  { injection HR as <-. cbn [fst snd]. split; [done|]. split; [done|]. unfold zlen. cbn. lia. }
  rewrite zlen_cons in *. pose proof (zlen_nonneg ops). destruct Ho as [Ho Hos].
  destruct (step_counted p objs o HC Hne) as [(p' & objs' & HS & HC' & HL & HG)|(i & w & id & g & f & _ & _ & _ & _ & HS)]; [lia|done| |].
  - rewrite HS in HR, Hos. cbn [mbind result_bind] in HR. rewrite <- HG.
    destruct (IH p' objs' st) as (? & ? & ?); [done| |lia|done|done|split; [done|]; split; [done|lia]].
    intros E. apply Hne, length_zero_iff_nil. by rewrite <- HG, E.
  - rewrite HS in HR. done.
Qed.
End programs.

(** ** Grids handed out are clear *)

Section clean.
Import grid_pool.
Context (gs : list grid).

(** The grids are as the writer leaves them, and those nobody refers to and no task is
    going to clear are as they were created. *)
Definition pristine (p : t) (hs : list handle) : Prop :=
  length (grids p) = length gs ∧
  ∀ id g0, 0 <= id → gs !! Z.to_nat id = Some g0 →
    ∃ g, grids p !! Z.to_nat id = Some g ∧ wf g ∧ tracked g ∧ same_shape g0 g ∧
      (holders id hs = 0 → id ∉ pending p → g = g0).

Lemma pristine_weaken p hs p' hs' : pristine p hs → grids p' = grids p →
  (∀ id, holders id hs' = 0 → id ∉ pending p' → holders id hs = 0 ∧ id ∉ pending p) → pristine p' hs'.
Proof.
  intros [Hl Hp] HG HW. split; [by rewrite HG|]. intros id g0 Hid Hg0. destruct (Hp id g0 Hid Hg0) as (g & Hg & Hw & Ht & Hs & Hf).
  exists g. rewrite HG. do 4 (split; [done|]). intros H0 Hnp. destruct (HW id H0 Hnp). by apply Hf.
Qed.

Lemma holders_cons_0 id h hs : holders id (h :: hs) = 0 → holders id hs = 0.
Proof. rewrite holders_cons. pose proof (holders_bound id hs). destruct (decide _); lia. Qed.

Lemma release_pristine p h hs p' : Forall fresh gs → counted p (h :: hs) → pristine p (h :: hs) → async_executor p = true →
  release true p h = Ok p' → pristine p' hs.
Proof.
  intros HF HC HP Ha HR. destruct (release_counted true p h hs HC) as (p1 & HR' & _ & HG & _ & HQ). rewrite HR in HR'. injection HR' as <-.
  destruct HP as [Hl HP]. split; [by rewrite HG|]. intros id g0 Hid Hg0.
  destruct (HP id g0 Hid Hg0) as (g & Hg & Hw & Ht & Hs & Hf). exists g. rewrite HG. do 4 (split; [done|]). intros H0 Hnp.
  destruct (decide (h = Some id)) as [->|Hne].
  - destruct HQ as [[HQ HE]|(id' & [= <-] & HQ)]; [|exfalso; apply Hnp; rewrite HQ; set_solver].
    destruct (HE id eq_refl H0 Ha eq_refl) as (g' & HV & HEm). unfold vec_at in HV. replace (0 <=? id) with true in HV by lia.
    rewrite Hg in HV. injection HV as <-. apply (is_empty_fresh g0); [|done..]. rewrite Forall_lookup in HF. by eapply HF.
  - apply Hf; [by rewrite holders_cons, decide_False, H0 by done|]. destruct HQ as [[HQ _]|(id' & _ & HQ)]; rewrite HQ in Hnp; set_solver.
Qed.

Lemma run_task_pristine p hs p' : Forall fresh gs → counted p hs → pristine p hs → run_task p = Ok p' → pristine p' hs.
Proof.
  intros HF HC [Hl HP] HR. destruct (run_task_counted p hs HC) as (p1 & HR' & HC' & _ & HL & HQ). rewrite HR in HR'. injection HR' as <-.
  destruct (pending p) as [|t rest] eqn:EP; [subst p'; split; [done|]; by rewrite EP|]. destruct HQ as (HQ & g1 & g1' & HV & Hw1 & HZ & HG).
  apply vec_at_lookup_eq in HV as [HV Ht0]. split; [congruence|]. intros id g0 Hid Hg0.
  destruct (HP id g0 Hid Hg0) as (g & Hg & Hw & Ht & Hs & Hf). rewrite HG. destruct (decide (id = t)) as [->|Hne].
  - rewrite HV in Hg. injection Hg as ->. assert (Hfr : fresh g0) by (rewrite Forall_lookup in HF; by eapply HF).
    rewrite (set_all_zero_fresh g0 g) in HZ by done. injection HZ as <-. exists g0.
    split; [apply list_lookup_insert_eq; by eapply lookup_lt_Some|]. destruct Hfr as (Hw0 & He0 & HR0).
    split; [done|]. split; [intros port l Hgr _; by apply HR0|]. by repeat split.
  - exists g. rewrite list_lookup_insert_ne by lia. do 4 (split; [done|]). intros H0 Hnp. apply Hf; [done|]. rewrite HQ in Hnp. set_solver.
Qed.

Lemma take_pristine p objs i h : pristine p objs → objs !! i = Some h → pristine p (h :: <[i := None]> objs).
Proof.
  intros HP Hi. apply (pristine_weaken p objs); [done|done|]. intros id. rewrite <- (insert_permutation objs i h None Hi).
  by intros H0%holders_cons_0.
Qed.

Definition accepting (o : op) : Prop :=
  match o with MoveAssign _ _ a | Release _ a => a = true | _ => True end.

Lemma step_pristine p objs o p' objs' : Forall fresh gs → counted p objs → grids p ≠ [] → zlen objs + 1 < ref_counter_available →
  op_ok objs o → accepting o → async_executor p = true → pristine p objs → step (p, objs) o = Ok (p', objs') →
  pristine p' objs' ∧ async_executor p' = true.
Proof.
  intros HF HC Hne Hn Ho Ha Hx HP HS. destruct o as [|i|i|i j acc|i acc|i w|]; cbn [step op_ok accepting] in *; try subst acc.
  - destruct (allocate_counted p objs HC Hne Hn) as (p1 & h & HA & _ & HG & HQ & HX & _). rewrite HA in HS. injection HS as <- <-.
    split; [|by rewrite HX]. apply (pristine_weaken p objs); [done|done|]. intros id. rewrite HQ, <- Permutation_cons_append.
    intros H0%holders_cons_0. done.
  - destruct (vec_at_ok objs i Ho) as (h & HV & Hh). rewrite HV in HS. cbn [mbind result_bind] in HS.
    destruct (copy_counted p objs h HC) as (p1 & HA & _ & HG & HQ & HX); [by apply (list_elem_of_lookup_2 _ (Z.to_nat i))|done|].
    rewrite HA in HS. injection HS as <- <-. split; [|by rewrite HX]. apply (pristine_weaken p objs); [done|done|]. intros id.
    rewrite HQ, <- Permutation_cons_append. intros H0%holders_cons_0. done.
  - destruct (vec_at_ok objs i Ho) as (h & HV & Hh). rewrite HV in HS. injection HS as <- <-. split; [|done].
    apply (pristine_weaken p objs); [done|done|]. intros id. rewrite <- Permutation_cons_append.
    rewrite <- (insert_permutation objs _ h None Hh). intros H0%holders_cons_0. done.
  - destruct Ho as [Hi Hj]. destruct (vec_at_ok objs j Hj) as (hj & HV & Hhj). rewrite HV in HS. cbn [mbind result_bind] in HS.
    apply bind_Ok in HS as (p1 & HR & HS). apply bind_Ok in HS as (hi & HVi & [= <- <-]). apply vec_at_lookup_eq in HVi as [HVi _].
    pose proof (take_counted p objs _ hj HC Hn Hhj) as HCt. destruct (release_counted true p hj _ HCt) as (p2 & HR' & _ & _ & HX & _).
    rewrite HR in HR'. injection HR' as <-. split; [|by rewrite HX].
    apply (pristine_weaken p1 (<[Z.to_nat j := None]> objs)); [|done|].
    + apply (release_pristine p hj); [done|done|by apply take_pristine|done|done].
    + intros id. rewrite move_permutation; [done| |done]. apply list_lookup_insert_eq. by eapply lookup_lt_Some.
  - destruct (vec_at_ok objs i Ho) as (h & HV & Hh). rewrite HV in HS. cbn [mbind result_bind] in HS.
    apply bind_Ok in HS as (p1 & HR & [= <- <-]). pose proof (take_counted p objs _ h HC Hn Hh) as HCt.
    destruct (release_counted true p h _ HCt) as (p2 & HR' & _ & _ & HX & _).
    rewrite HR in HR'. injection HR' as <-. split; [|by rewrite HX]. apply (release_pristine p h); [done|done|by apply take_pristine|done|done].
  - destruct Ho as [Hw (id & Hid & Hi)]. apply bind_Ok in HS as (h & HV & HS). apply vec_at_lookup_eq in HV as [HV _].
    rewrite Hid in HV. injection HV as <-. apply bind_Ok in HS as (p1 & HU & [= <- <-]). cbn [update] in HU.
    apply bind_Ok in HU as (g & HG & HU). unfold get_grid in HG. apply bind_Ok in HG as ([] & _ & HG). apply vec_at_lookup_eq in HG as [HG Hid0].
    apply bind_Ok in HU as (g' & HA & [= <-]). split; [|done]. destruct HP as [Hl HP]. split; [cbn [with_grids grids]; by rewrite length_insert|].
    intros id' g0 Hid' Hg0. destruct (HP id' g0 Hid' Hg0) as (g1 & Hg1 & Hw1 & Ht1 & Hs1 & Hf1). cbn [with_grids grids pending].
    destruct (decide (id' = id)) as [->|Hne'].
    + rewrite HG in Hg1. injection Hg1 as <-. destruct (apply_write_tracked g w g' Hw1 Ht1 Hw HA) as (Hw' & Ht' & Hs' & _).
      exists g'. split; [apply list_lookup_insert_eq; by eapply lookup_lt_Some|]. do 2 (split; [done|]).
      split; [destruct Hs1 as (?&?&?), Hs' as (?&?&?); repeat split; congruence|].
      intros H0. exfalso. pose proof (holders_elem id objs ltac:(by apply (list_elem_of_lookup_2 _ (Z.to_nat i)))). lia.
    + exists g1. rewrite list_lookup_insert_ne by lia. done.
  - apply bind_Ok in HS as (p1 & HR & [= <- <-]). destruct (run_task_counted p objs HC) as (p2 & HR' & _ & HX & _).
    rewrite HR in HR'. injection HR' as <-. split; [by apply (run_task_pristine p)|by rewrite HX].
Qed.

Lemma run_pristine ops : ∀ p objs p' objs', Forall fresh gs → counted p objs → grids p ≠ [] →
  zlen objs + zlen ops < ref_counter_available → run_ok (p, objs) ops → Forall accepting ops → async_executor p = true →
  pristine p objs → run (p, objs) ops = Ok (p', objs') → pristine p' objs'.
Proof.
  induction ops as [|o ops IH]; intros p objs p' objs' HF HC Hne Hn Ho Ha Hx HP HR; cbn [run] in HR; [by injection HR as <- <-|].
  rewrite zlen_cons in Hn. pose proof (zlen_nonneg ops). destruct Ho as [Ho Hos]. inversion_clear Ha as [|? ? Ha1 Ha2].
  apply bind_Ok in HR as ([p1 objs1] & HS & HR). rewrite HS in Hos.
  destruct (step_counted p objs o HC Hne) as [(p2 & objs2 & HS' & HC' & HL & HG)|(i & w & id & g & f & _ & _ & _ & _ & HS')]; [lia|done| |].
  2: { rewrite HS in HS'. done. }
  rewrite HS in HS'. injection HS' as <- <-. destruct (step_pristine p objs o p1 objs1) as [HP1 Hx1]; [done..|lia|done|done|done|done|done|].
  apply (IH p1 objs1); [done|done| |lia|done|done|done|done|done].
  intros E. apply Hne, length_zero_iff_nil. by rewrite <- HG, E.
Qed.
End clean.

(** ** Properties *)

Section properties.
Import grid_pool.

(** C32: The reference counts of the pool are exact.  Whatever objects a program copies,
    moves, assigns and releases, and whenever the executor runs its tasks, the counter of
    a grid is the number of objects that refer to it, or marks it available when there
    are none and no task is pending.  So an object that is valid always finds its grid,
    the pool never lends a grid somebody refers to or a task is about to clear, nothing
    but a write with unsuitable arguments fails, and once all objects are released and
    all tasks have run the pool is complete. *)
Theorem pool_references executor gs ops p objs :
  Forall wf gs → gs ≠ [] → zlen gs < 2 ^ 32 → zlen ops + 1 < ref_counter_available →
  run_ok (create executor gs, []) ops → run (create executor gs, []) ops = Ok (p, objs) →
  (∀ id, 0 <= id < zlen gs → vec_at (grids_scope_count p) id = Ok (expected_count (pending p) objs id)) ∧
  (∀ h, h ∈ objs → is_valid h = true → ∃ g, get p h = Ok g) ∧
  (∃ p' h, allocate_resource_grid p = Ok (p', h) ∧ ∀ id, h = Some id → (h ∉ objs) ∧ (id ∉ pending p)) ∧
  (∀ o, op_ok objs o → (∃ st, step (p, objs) o = Ok st) ∨
     ∃ i w id g f, o = Write i w ∧ objs !! Z.to_nat i = Some (Some id) ∧ get p (Some id) = Ok g ∧ apply_write g w = Fault f) ∧
  (Forall (λ h, h = None) objs → pending p = [] → all_returned p = true).
Proof.
  intros Hw Hne Hs Hn Ho HR. destruct (run_counted ops (create executor gs) [] (p, objs)) as (HC & HL & HN); cbn [fst snd] in *;
    [by apply create_counted|done|unfold zlen in *; cbn in *; lia|done|done|].
  change (zlen []) with 0 in HN. cbn [create grids] in HL.
  assert (HZ : zlen (grids p) = zlen gs) by (unfold zlen; by rewrite HL).
  assert (Hne' : grids p ≠ []) by (intros E; apply Hne, length_zero_iff_nil; by rewrite <- HL, E).
  assert (Hget : ∀ id, Some id ∈ objs → ∃ g, get p (Some id) = Ok g ∧ vec_at (grids p) id = Ok g).
  { intros id Hin. pose proof (counted_valid p objs id HC Hin) as Hid. destruct (vec_at_grids p objs id HC Hid) as (g & HV & _).
    exists g. split; [|done]. cbn [get]. unfold get_grid. by pass_assume. }
  split; [|split; [|split; [|split]]].
  - intros id Hid. rewrite (counted_counts p objs HC), HZ. by apply vec_at_map_seqZ.
  - intros [id|] Hin; [|done]. intros _. destruct (Hget id Hin) as (g & ? & _). by exists g.
  - destruct (allocate_counted p objs HC Hne') as (p' & h & HA & _ & _ & _ & _ & HQ); [lia|]. exists p', h. split; [done|].
    intros id ->. destruct (HQ id eq_refl) as (_ & H0 & Hnp). split; [|done]. intros Hin%holders_elem. lia.
  - intros o Hop. destruct (step_counted p objs o HC Hne') as [(p' & objs' & HS & _)|(i & w & id & g & f & -> & Hi & HV & HA & _)]; [lia|done|by left; eexists|].
    right. exists i, w, id, g, f. destruct (Hget id) as (g' & HG & HV'); [by eapply list_elem_of_lookup_2|].
    rewrite HV in HV'. injection HV' as <-. done.
  - intros HN0 HP. unfold all_returned. rewrite (counted_counts p objs HC), HP. apply forallb_forall. intros x (j & <- & _)%in_map_iff.
    unfold expected_count. rewrite bool_decide_false by set_solver.
    assert (H0 : holders j objs = 0); [|by rewrite H0, Z.eqb_refl].
    unfold holders. clear -HN0. induction HN0 as [|h hs -> _ IH]; [done|]. rewrite filter_cons, decide_False by done. exact IH.
Qed.

(** With an executor that takes every task, and writes that go through the put operations,
    each grid the pool lends out is as it was created, whatever was done to it before. *)
Theorem pool_lends_clean gs ops p objs p' id :
  Forall fresh gs → gs ≠ [] → zlen gs < 2 ^ 32 → zlen ops + 1 < ref_counter_available →
  run_ok (create true gs, []) ops → Forall accepting ops → run (create true gs, []) ops = Ok (p, objs) →
  allocate_resource_grid p = Ok (p', Some id) → grids p' !! Z.to_nat id = gs !! Z.to_nat id.
Proof.
  intros HF Hne Hs Hn Ho Ha HR HA. assert (Hw : Forall wf gs) by (eapply Forall_impl; [exact HF|]; by intros g [? _]).
  pose proof (create_counted true gs Hw Hs) as HC0.
  destruct (run_counted ops (create true gs) [] (p, objs)) as (HC & HL & HN); cbn [fst snd] in *;
    [done|done|unfold zlen in *; cbn in *; lia|done|done|]. change (zlen []) with 0 in HN. cbn [create grids] in HL.
  assert (Hne' : grids p ≠ []) by (intros E; apply Hne, length_zero_iff_nil; by rewrite <- HL, E).
  assert (HP : pristine gs p objs).
  { apply (run_pristine gs ops (create true gs) []); [done|done|done|unfold zlen in *; cbn in *; lia|done|done|done| |done].
    split; [done|]. intros id' g0 _ Hg0. exists g0. cbn [create grids]. rewrite Forall_lookup in HF. destruct (HF _ _ Hg0) as (Hw0 & _ & HR0).
    split; [done|]. split; [done|]. split; [|by repeat split]. intros port l Hg _. by apply HR0. }
  destruct (allocate_counted p objs HC Hne') as (p1 & h & HA' & HC1 & HG & _ & _ & HQ); [lia|]. rewrite HA in HA'. injection HA' as <- <-.
  destruct (HQ id eq_refl) as (Hc & H0 & Hnp). pose proof (counted_valid p' (Some id :: objs) id HC1 ltac:(set_solver)) as Hid.
  rewrite HG in Hid |- *. destruct HP as [_ HP].
  destruct (lookup_lt_is_Some_2 gs (Z.to_nat id)) as [g0 Hg0]; [unfold zlen in Hid; lia|].
  destruct (HP id g0 ltac:(lia) Hg0) as (g & Hg & _ & _ & _ & Hf). rewrite Hg, Hg0. by rewrite (Hf H0 Hnp).
Qed.
End properties.

(** ** Examples *)

Module pool_examples.
Import grid_pool.

Definition small_grid : grid :=
  match resource_grid.create 1 1 4 with Ok g => g | Fault _ => resource_grid.mk 0 0 0 (tensor.mk [] []) 0 end.

Lemma small_grid_fresh : fresh small_grid.
Proof.
  destruct (create_wf 1 1 4) as (g & HC & Hw & _ & Hp & Hs & Hk & He & HR); [lia..|].
  unfold small_grid. rewrite HC. split; [done|]. rewrite Hp, Hk. done.
Qed.

Definition samples : list cf_t := [mk_cf 0x3f800000 0; mk_cf 0 0x3f800000].

(** Two grids; the first is copied, written, released twice and cleared. *)
Definition session : list op :=
  [Allocate; Copy 0; Write 1 (Put 0 0 1 samples); Release 0 true; MoveConstruct 1; Release 2 true; Allocate; RunTask].

Lemma session_ok : run_ok (create true [small_grid; small_grid], []) session.
Proof.
  unfold session. cbn [run_ok]. repeat (split; [vm_compute; first [done | split; [done|]; eexists; done | repeat split; try done; by eexists]|]).
  vm_compute. done.
Qed.

Lemma pool_references_witness :
  ∃ p objs, run (create true [small_grid; small_grid], []) session = Ok (p, objs) ∧
    objs = [None; None; None; Some 1] ∧ vec_at (grids_scope_count p) 0 = Ok ref_counter_available ∧
    vec_at (grids_scope_count p) 1 = Ok 1.
Proof.
  eexists _, _. split; [vm_compute; reflexivity|]. split; [done|].
  match goal with |- vec_at (grids_scope_count ?p) _ = _ ∧ _ => set (q := p) end.
  destruct (pool_references true [small_grid; small_grid] session q [None; None; None; Some 1]) as (H & _).
  - constructor; [apply small_grid_fresh|constructor; [apply small_grid_fresh|constructor]].
  - done.
  - done.
  - done.
  - apply session_ok.
  - vm_compute. reflexivity.
  - split; [exact (H 0 ltac:(done))|exact (H 1 ltac:(done))].
Defined.

Lemma pool_lends_clean_witness :
  ∃ p objs p', run (create true [small_grid; small_grid], []) session = Ok (p, objs) ∧
    allocate_resource_grid p = Ok (p', Some 0) ∧ grids p' !! 0%nat = Some small_grid.
Proof.
  eexists _, _, _. split; [vm_compute; reflexivity|]. split; [vm_compute; reflexivity|].
  eapply (pool_lends_clean [small_grid; small_grid] session _ _ _ 0); [|done|done|done|apply session_ok|repeat constructor|vm_compute; reflexivity|vm_compute; reflexivity].
  constructor; [apply small_grid_fresh|constructor; [apply small_grid_fresh|constructor]].
Defined.

(** An executor that does not take the task leaves what was written in the grid. *)
Example refused_task :
  match run (create true [small_grid], []) [Allocate; Write 0 (Put 0 0 1 samples); Release 0 false] with
  | Ok (p, _) => match allocate_resource_grid p with Ok (p', h) => h = Some 0 ∧ grids p' !! 0%nat ≠ Some small_grid | Fault _ => False end
  | Fault _ => False
  end.
Proof. vm_compute. split; [done|]. discriminate. Qed.

End pool_examples.
