(* ===== verification/OfhCompression.v ===== *)
(** * OfhCompression: the compressors of the fronthaul

    Models lib/ofh/compression: [quantizer] (quantizer.h), the generic block
    floating point and no-compression classes (iq_compression_bfp_impl,
    iq_compression_none_impl), the class for unsupported methods
    (iq_compression_death_impl), the two selectors and the factory
    (compression_factory.cpp) with the implementation type "generic", and the scalar
    loop of [srsvec::convert] from brain floats to 16-bit integers
    (lib/srsvec/conversion.cpp).  The selectors are instances of the interfaces
    [IqCompressor] and [IqDecompressor] of [OfhUplane]. *)

From S2P Require Export OfhUplane BitBuffer Float.

(** ** Conversions *)

(** [std::round]: to the nearest integer, halves away from zero. *)
Definition round_half_away (x : spec_float) : option Z :=
  match x with
  | S754_zero _ => Some 0
  | S754_finite s m e =>
      let a := if 0 <=? e then Zpos m * 2 ^ e else (2 * Zpos m + 2 ^ (- e)) / (2 * 2 ^ (- e)) in
      Some (if s then - a else a)
  | _ => None
  end.

(** [static_cast<int16_t>] of a rounded value: undefined out of range. *)
Definition to_int16 (x : spec_float) : result Z :=
  match round_half_away x with
  | Some z => assume (sfitsb 16 z) SignedOverflow;; Ok z
  | None => Fault SignedOverflow
  end.

(** [srsvec::convert(span<int16_t>, span<const bf16_t>, float)] *)
Definition convert (z_size : Z) (x : list Z) (scale : spec_float) : result (list Z) :=
  assume (zlen x =? z_size) AssertFailed;;
  mapM (λ v, to_int16 (f32_mul (f32_of_bits (Bf16.to_float v)) scale)) x.

Module quantizer.

Record t := mk { bit_width : Z; nbits_shift_sign : Z; gain : spec_float }.

Definition create (bit_width_ : Z) : result t :=
  assume (wrap 32 (bit_width_ - 1) <? 32) BadShift;;
  Ok (mk bit_width_ (wrap 32 (16 - bit_width_))
        (f32_sub (f32_of_Z (swrap 32 (1 ≪ wrap 32 (bit_width_ - 1)))) (f32_of_Z 1))).

(** [to_fixed_point(span<int16_t>, span<const bf16_t>, float)] *)
Definition to_fixed_point (q : t) (z_size : Z) (x : list Z) (in_scale : spec_float) : result (list Z) :=
  convert z_size x (f32_mul (gain q) in_scale).

Definition to_float (q : t) (p : Z) : spec_float := f32_div (f32_of_Z p) (gain q).

Definition sign_extend (q : t) (value : Z) : result Z :=
  assume (nbits_shift_sign q <? 32) BadShift;;
  let shifted := swrap 16 (value ≪ nbits_shift_sign q) in
  Ok (shifted ≫ nbits_shift_sign q).

End quantizer.

Definition Q_BIT_WIDTH : Z := MAX_IQ_WIDTH.
Definition NOF_SAMPLES_PER_PRB : Z := 2 * NOF_SUBCARRIERS_PER_RB.

(** [reinterpret_cast<const bf16_t*>] of a span of samples. *)
Definition float_samples (iq_data : list cbf16_t) : list Z := iq_data ≫= λ s, [real s; imag s].

(** [cbf16_t(float, float)] *)
Definition cbf16_of (re im : spec_float) : cbf16_t :=
  mk_cbf16 (to_bf16 (bits_of_f32 re)) (to_bf16 (bits_of_f32 im)).

(** A pair of samples read from a block: [sign_extend(unpack_bits(...))] twice. *)
Definition read_pair (q : quantizer.t) (r : bit_buffer.t) (read_pos data_width : Z) : result (Z * Z) :=
  v ← packing.unpack_bits r read_pos data_width;
  re ← quantizer.sign_extend q v;
  v ← packing.unpack_bits r (wrap 32 (read_pos + data_width)) data_width;
  im ← quantizer.sign_extend q v;
  Ok (re, im).

(** Samples written through a subspan. *)
Definition span_write {A} (s : list A) (offset : Z) (l : list A) : result (list A) :=
  assume (offset + zlen l <=? zlen s) AssertFailed;;
  Ok (take (Z.to_nat offset) s ++ l ++ drop (Z.to_nat offset + length l) s).

(** ** Block floating point *)
Module iq_compression_bfp_impl.

(** [__builtin_clz] on a positive 32-bit value. *)
Definition clz (x : Z) : Z := 31 - Z.log2 x.

Definition determine_exponent (x data_width : Z) : result Z :=
  assume (negb (data_width =? 0)) AssertFailed;;
  assume (data_width <=? MAX_IQ_WIDTH) AssertFailed;;
  let max_shift := MAX_IQ_WIDTH - data_width in
  let lz_without_sign :=
    if (0 <? x) && (0 <? max_shift) then wrap 32 (clz x - 16 - 1) else max_shift in
  let raw_exp := swrap 32 (Z.min max_shift lz_without_sign) in
  Ok (Z.max 0 (MAX_IQ_WIDTH - data_width - raw_exp)).

Definition quantize_input (iq_scaling : spec_float) (out_size : Z) (inp : list Z) : result (list Z) :=
  assume (zlen inp =? out_size) AssertFailed;;
  q ← quantizer.create Q_BIT_WIDTH;
  quantizer.to_fixed_point q out_size inp iq_scaling.

(** [std::max_element], [std::min_element] of a range that is not empty. *)
Definition max_element (l : list Z) : Z := foldl Z.max (hd 0 l) (tl l).
Definition min_element (l : list Z) : Z := foldl Z.min (hd 0 l) (tl l).

Definition block_exponent (input_quantized : list Z) (data_width : Z) : result Z :=
  let max_abs := wrap 32 (Z.max (Z.abs (max_element input_quantized))
                                (Z.abs (min_element input_quantized) - 1)) in
  e ← determine_exponent (wrap 16 max_abs) data_width;
  Ok (wrap 8 e).

Definition compress_prb_generic (comp_prb_buffer input_quantized : list Z) (data_width : Z)
    : result (list Z) :=
  samples ← vec_range input_quantized 0 NOF_SAMPLES_PER_PRB;
  exponent ← block_exponent samples data_width;
  let compressed_samples := map (λ s, swrap 16 (s ≫ exponent)) samples in
  b ← mem_write comp_prb_buffer 0 [exponent];
  rest ← span_last b (zlen b - 1);
  buffer ← packing.pack_bytes (bit_buffer.from_bytes rest) compressed_samples data_width;
  Ok (take 1 b ++ bit_buffer.buffer buffer).

Definition compress (iq_scaling : spec_float) (buffer : list Z) (iq_data : list cbf16_t)
    (params : ru_compression_params) : result (list Z) :=
  let nof_prbs := wrap 32 (zlen iq_data / NOF_SUBCARRIERS_PER_RB) in
  let prb_size := get_compressed_prb_size params in
  assume (wrap 32 (prb_size * nof_prbs) <=? zlen buffer) AssertFailed;;
  let floats := float_samples iq_data in
  assume (zlen floats <=? NOF_SAMPLES_PER_PRB * uplane.MAX_NOF_PRBS) OutOfBounds;;
  input_quantized ← quantize_input iq_scaling (zlen floats) floats;
  fold_result (λ buffer i,
      inp ← vec_range input_quantized (NOF_SAMPLES_PER_PRB * i) (NOF_SAMPLES_PER_PRB * (i + 1));
      assume (wrap 32 (i * prb_size) <? zlen buffer) AssertFailed;;
      prb ← mem_read buffer (wrap 32 (i * prb_size)) prb_size;
      out ← compress_prb_generic prb inp (data_width params);
      mem_write buffer (wrap 32 (i * prb_size)) out)
    buffer (seqZ 0 nof_prbs).

Definition decompress_prb_generic (comp_prb : list Z) (q_in : quantizer.t) (data_width : Z)
    : result (list cbf16_t) :=
  q_out ← quantizer.create Q_BIT_WIDTH;
  exponent ← span_at comp_prb 0;
  assume (exponent <? 32) BadShift;;
  let scaler := swrap 16 (1 ≪ exponent) in
  rest ← span_last comp_prb (zlen comp_prb - 1);
  bit_buff_reader ← bit_buffer.reader_from_bytes rest;
  mapM (λ i,
      '(re, im) ← read_pair q_in bit_buff_reader (wrap 32 (i * (data_width * 2))) data_width;
      Ok (cbf16_of (quantizer.to_float q_out (re * scaler)) (quantizer.to_float q_out (im * scaler))))
    (seqZ 0 NOF_SUBCARRIERS_PER_RB).

Definition decompress (iq_data : list cbf16_t) (compressed_data : list Z)
    (params : ru_compression_params) : result (list cbf16_t) :=
  q_in ← quantizer.create (data_width params);
  let nof_prbs := wrap 32 (zlen iq_data / NOF_SUBCARRIERS_PER_RB) in
  let prb_size := get_compressed_prb_size params in
  assume (wrap 32 (nof_prbs * prb_size) <=? zlen compressed_data) AssertFailed;;
  fold_result (λ iq_data c_prb_idx,
      assume (wrap 32 (c_prb_idx * prb_size) <? zlen compressed_data) AssertFailed;;
      comp_prb ← mem_read compressed_data (wrap 32 (c_prb_idx * prb_size)) prb_size;
      samples ← decompress_prb_generic comp_prb q_in (data_width params);
      span_write iq_data (c_prb_idx * NOF_SUBCARRIERS_PER_RB) samples)
    iq_data (seqZ 0 nof_prbs).

End iq_compression_bfp_impl.

(** ** No compression *)
Module iq_compression_none_impl.

Definition compress (iq_scaling : spec_float) (buffer : list Z) (iq_data : list cbf16_t)
    (params : ru_compression_params) : result (list Z) :=
  q ← quantizer.create (data_width params);
  let nof_prbs := wrap 32 (zlen iq_data / NOF_SUBCARRIERS_PER_RB) in
  let prb_size := get_compressed_prb_size params in
  assume (wrap 32 (prb_size * nof_prbs) <=? zlen buffer) AssertFailed;;
  let floats := float_samples iq_data in
  fold_result (λ buffer rb,
      inp ← subspan floats (rb * (NOF_SUBCARRIERS_PER_RB * 2)) (NOF_SUBCARRIERS_PER_RB * 2);
      conv_buffer ← quantizer.to_fixed_point q (NOF_SUBCARRIERS_PER_RB * 2) inp iq_scaling;
      assume (wrap 32 (rb * prb_size) <? zlen buffer) AssertFailed;;
      out_compr_prb ← mem_read buffer (wrap 32 (rb * prb_size)) prb_size;
      bit_buf ← packing.pack_bytes (bit_buffer.from_bytes out_compr_prb) conv_buffer (data_width params);
      mem_write buffer (wrap 32 (rb * prb_size)) (bit_buffer.buffer bit_buf))
    buffer (seqZ 0 nof_prbs).

(** The samples of one block. *)
Definition decompress_prb (c_prb : list Z) (q : quantizer.t) (data_width : Z) : result (list cbf16_t) :=
  bits_reader ← bit_buffer.reader_from_bytes c_prb;
  mapM (λ i,
      '(re, im) ← read_pair q bits_reader (wrap 32 (i * (data_width * 2))) data_width;
      Ok (cbf16_of (quantizer.to_float q re) (quantizer.to_float q im)))
    (seqZ 0 NOF_SUBCARRIERS_PER_RB).

Definition decompress (output : list cbf16_t) (input : list Z) (params : ru_compression_params)
    : result (list cbf16_t) :=
  q ← quantizer.create (data_width params);
  let nof_prbs := wrap 32 (zlen output / NOF_SUBCARRIERS_PER_RB) in
  let prb_size := get_compressed_prb_size params in
  assume (wrap 32 (nof_prbs * prb_size) <=? zlen input) AssertFailed;;
  fold_result (λ output c_prb_idx,
      assume (wrap 32 (c_prb_idx * prb_size) <? zlen input) AssertFailed;;
      c_prb ← mem_read input (wrap 32 (c_prb_idx * prb_size)) prb_size;
      samples ← decompress_prb c_prb q (data_width params);
      span_write output (c_prb_idx * NOF_SUBCARRIERS_PER_RB) samples)
    output (seqZ 0 nof_prbs).

End iq_compression_none_impl.

(** ** Selectors and factory *)

(** The objects behind [std::unique_ptr<iq_compressor>], with their scaling. *)
Inductive implementation : Type :=
| generic_none (iq_scaling : spec_float)
| generic_bfp (iq_scaling : spec_float)
| death.

Definition impl_compress (impl : implementation) (buffer : list Z) (iq_data : list cbf16_t)
    (params : ru_compression_params) : result (list Z) :=
  match impl with
  | generic_none iq_scaling => iq_compression_none_impl.compress iq_scaling buffer iq_data params
  | generic_bfp iq_scaling => iq_compression_bfp_impl.compress iq_scaling buffer iq_data params
  | death => Fault FatalError
  end.

Definition impl_decompress (impl : implementation) (iq_data : list cbf16_t) (compressed_data : list Z)
    (params : ru_compression_params) : result (list cbf16_t) :=
  match impl with
  | generic_none _ => iq_compression_none_impl.decompress iq_data compressed_data params
  | generic_bfp _ => iq_compression_bfp_impl.decompress iq_data compressed_data params
  | death => Fault FatalError
  end.

Definition create_iq_compressor (type : compression_type) (iq_scaling : spec_float) : result implementation :=
  match type with
  | none => Ok (generic_none iq_scaling)
  | BFP => Ok (generic_bfp iq_scaling)
  | block_scaling | mu_law | modulation | bfp_selective | mod_selective => Ok death
  | reserved => Fault FatalError
  end.

(** The scaling of a decompressor is the default argument. *)
Definition create_iq_decompressor (type : compression_type) : result implementation :=
  match type with
  | none => Ok (generic_none (f32_of_Z 1))
  | BFP => Ok (generic_bfp (f32_of_Z 1))
  | block_scaling | mu_law | modulation | bfp_selective | mod_selective => Ok death
  | reserved => Fault FatalError
  end.

Definition NOF_COMPRESSION_TYPES_SUPPORTED : Z := 7.

(** The arrays the factories of receiver and transmitter fill. *)
Definition create_decompressors : result (list implementation) :=
  mapM (λ i, create_iq_decompressor (to_compression_type i)) (seqZ 0 NOF_COMPRESSION_TYPES_SUPPORTED).
Definition create_compressors (iq_scaling : spec_float) : result (list implementation) :=
  mapM (λ i, create_iq_compressor (to_compression_type i) iq_scaling)
    (seqZ 0 NOF_COMPRESSION_TYPES_SUPPORTED).

Module iq_compressor_selector.
Definition compress (compressors : list implementation) (buffer : list Z) (iq_data : list cbf16_t)
    (params : ru_compression_params) : result (list Z) :=
  compressor ← vec_at compressors (compression_value (compr_type params));
  impl_compress compressor buffer iq_data params.
End iq_compressor_selector.

Module iq_decompressor_selector.
Definition decompress (decompressors : list implementation) (iq_data : list cbf16_t)
    (compressed_data : list Z) (params : ru_compression_params) : result (list cbf16_t) :=
  decompressor ← vec_at decompressors (compression_value (compr_type params));
  impl_decompress decompressor iq_data compressed_data params.
End iq_decompressor_selector.

(** The selectors behind the interfaces of the message builder and decoder. *)
Definition selector_compressor (compressors : list implementation) : IqCompressor :=
  {| iq_compress := iq_compressor_selector.compress compressors |}.
Definition selector_decompressor (decompressors : list implementation) : IqDecompressor :=
  {| iq_decompress n := iq_decompressor_selector.decompress decompressors
       (replicate (Z.to_nat n) (mk_cbf16 0 0)) |}.

(** ** Samples in a packed block *)

Lemma quantizer_create_spec w : 1 <= w <= 16 → ∃ g, quantizer.create w = Ok (quantizer.mk w (16 - w) g).
Proof.
  intros Hw. unfold quantizer.create. rewrite !(wrap_small 32) by lia_fits. pass_assume. eauto.
Qed.

Lemma sign_extend_spec w g u : 1 <= w <= 16 → fits w u →
  quantizer.sign_extend (quantizer.mk w (16 - w) g) (swrap 16 u) = Ok (swrap w u).
Proof.
  intros Hw Hu. unfold quantizer.sign_extend. cbn [quantizer.nbits_shift_sign]. pass_assume. f_equal.
  rewrite Z.shiftl_mul_pow2, Z.shiftr_div_pow2 by lia.
  replace (swrap 16 (swrap 16 u * 2 ^ (16 - w))) with (swrap w u * 2 ^ (16 - w)).
  { apply Z.div_mul. lia. }
  rewrite <- swrap_scale by lia. replace (w + (16 - w)) with 16 by lia. apply swrap_eq.
  unfold wrap. rewrite <- Z.mul_mod_idemp_l by lia. fold (wrap 16 u).
  rewrite <- (wrap_swrap 16 u) by lia. unfold wrap. by rewrite Z.mul_mod_idemp_l by lia.
Qed.

(** The sample at index [k] of a block of width [w]. *)
Definition packed_sample (w : Z) (l : list Z) (k : Z) : Z :=
  swrap w (bit_buffer.window l (k * w) (Z.to_nat w)).

Lemma read_sample w g l k :
  1 <= w <= 16 → bytes_ok l → zlen l < 2 ^ 29 → 0 <= k → (k + 1) * w <= 8 * zlen l →
  (v ← packing.unpack_bits (bit_buffer.mk l (8 * zlen l)) (k * w) w;
   quantizer.sign_extend (quantizer.mk w (16 - w) g) v) = Ok (packed_sample w l k).
Proof.
  intros Hw Hb Hl Hk Hs. pose proof (zlen_nonneg l).
  rewrite packing.unpack_bits_spec; cbn [bit_buffer.buffer bit_buffer.current_size]; try done; try nia.
  2: split; cbn [bit_buffer.buffer bit_buffer.current_size]; lia.
  cbn [mbind result_bind]. apply sign_extend_spec; [done|].
  pose proof (bit_buffer.window_fits l (k * w) (Z.to_nat w)) as Hf. by rewrite Z2Nat.id in Hf by lia.
Qed.

Lemma read_pair_spec w g l i :
  1 <= w <= 16 → bytes_ok l → 3 * w <= zlen l < 2 ^ 29 → 0 <= i < 12 →
  read_pair (quantizer.mk w (16 - w) g) (bit_buffer.mk l (8 * zlen l)) (wrap 32 (i * (w * 2))) w =
    Ok (packed_sample w l (2 * i), packed_sample w l (2 * i + 1)).
Proof.
  intros Hw Hb Hl Hi. assert (0 <= i * (w * 2) <= 352) by nia. unfold read_pair.
  rewrite (wrap_small 32 (i * (w * 2))) by lia_fits. rewrite wrap_small by lia_fits.
  replace (i * (w * 2)) with (2 * i * w) by ring.
  replace (2 * i * w + w) with ((2 * i + 1) * w) by ring.
  pose proof (read_sample w g l (2 * i) Hw Hb ltac:(lia) ltac:(lia) ltac:(nia)) as H1.
  pose proof (read_sample w g l (2 * i + 1) Hw Hb ltac:(lia) ltac:(lia) ltac:(nia)) as H2.
  destruct (packing.unpack_bits _ (2 * i * w) w); cbn [mbind result_bind] in *; [|done].
  rewrite H1. cbn [mbind result_bind].
  destruct (packing.unpack_bits _ _ w); cbn [mbind result_bind] in *; [|done].
  by rewrite H2.
Qed.

(** The samples of a block: pairs of members, each the float of a fixed point value. *)
Definition restored_block (f : Z → spec_float) (s : Z → Z) : list cbf16_t :=
  map (λ i, cbf16_of (f (s (2 * i))) (f (s (2 * i + 1)))) (seqZ 0 12).

Lemma zlen_restored f s : zlen (restored_block f s) = 12.
Proof. done. Qed.

Lemma none_block_spec w g l :
  1 <= w <= 16 → bytes_ok l → 3 * w <= zlen l < 2 ^ 29 - 1 →
  let q := quantizer.mk w (16 - w) g in
  iq_compression_none_impl.decompress_prb l q w =
    Ok (restored_block (quantizer.to_float q) (packed_sample w l)).
Proof.
  intros Hw Hb Hl q. subst q. unfold iq_compression_none_impl.decompress_prb.
  rewrite bit_buffer.reader_from_bytes_spec by lia. cbn [mbind result_bind].
  apply mapM_Ok. intros i Hi. apply elem_of_seqZ in Hi. unfold NOF_SUBCARRIERS_PER_RB in Hi.
  by rewrite read_pair_spec by (done || lia).
Qed.

Lemma bfp_block_spec w g e l :
  1 <= w <= 16 → bytes_ok l → 3 * w <= zlen l < 2 ^ 29 - 2 → 0 <= e →
  ∃ q16, quantizer.create Q_BIT_WIDTH = Ok q16 ∧
  iq_compression_bfp_impl.decompress_prb_generic (e :: l) (quantizer.mk w (16 - w) g) w =
    if e <? 32 then
      Ok (restored_block (λ p, quantizer.to_float q16 (p * swrap 16 (1 ≪ e))) (packed_sample w l))
    else Fault BadShift.
Proof.
  intros Hw Hb Hl He. unfold iq_compression_bfp_impl.decompress_prb_generic.
  destruct (quantizer_create_spec Q_BIT_WIDTH) as [g16 ->]; [done|]. eexists. split; [done|].
  cbn [mbind result_bind]. change (span_at (e :: l) 0) with (@Ok Z e). cbn [mbind result_bind].
  destruct (Z.ltb_spec e 32); cbn [assume mbind result_bind]; [|done].
  rewrite span_last_tail.
  cbn [mbind result_bind]. rewrite bit_buffer.reader_from_bytes_spec by lia. cbn [mbind result_bind].
  apply mapM_Ok. intros i Hi. apply elem_of_seqZ in Hi. unfold NOF_SUBCARRIERS_PER_RB in Hi.
  by rewrite read_pair_spec by (done || lia).
Qed.

(** ** Buffers processed block by block *)

Lemma zlen_blocks {A} (block : Z → list A) sz n : 0 <= n → (∀ i, 0 <= i < n → zlen (block i) = sz) →
  zlen (concat (map block (seqZ 0 n))) = n * sz.
Proof.
  intros Hn. rewrite <- (Z2Nat.id n Hn). clear Hn. induction (Z.to_nat n) as [|m IH]; intros Hlen; [done|].
  rewrite seqZ_S, map_app, concat_app, zlen_app, IH by (intros; apply Hlen; lia).
  cbn [map concat]. rewrite app_nil_r, Hlen by lia. lia.
Qed.

(** A loop that replaces the [i]-th block of [sz] elements by [block i]. *)
Section block_loops.
Context {A} (body : list A → Z → result (list A)) (block : Z → list A) (sz : Z) (Hsz : 0 <= sz).

(** Iteration [i] does so, wherever the loop runs. *)
Definition replaces (i : Z) : Prop :=
  zlen (block i) = sz ∧ ∀ pre view post, zlen pre = i * sz → zlen view = sz →
    body (pre ++ view ++ post) i = Ok (pre ++ block i ++ post).

Lemma fold_blocks_nat (n : nat) : (∀ i, 0 <= i < Z.of_nat n → replaces i) →
  ∀ buffer, Z.of_nat n * sz <= zlen buffer →
  fold_result body buffer (seqZ 0 (Z.of_nat n)) =
    Ok (concat (map block (seqZ 0 (Z.of_nat n))) ++ drop (Z.to_nat (Z.of_nat n * sz)) buffer).
Proof.
  intros Hbody buffer.
  induction n as [|n IH]; intros Hn; [done|].
  rewrite seqZ_S, fold_result_app, IH; [|intros; apply Hbody; (done || lia)|lia].
  cbn [mbind result_bind fold_result].
  assert (HC : zlen (concat (map block (seqZ 0 (Z.of_nat n)))) = Z.of_nat n * sz).
  { apply zlen_blocks; [lia|]. intros i Hi. apply Hbody. lia. }
  rewrite <- (take_drop (Z.to_nat sz) (drop (Z.to_nat (Z.of_nat n * sz)) buffer)), drop_drop.
  rewrite (proj2 (Hbody (0 + Z.of_nat n) ltac:(lia)));
    [|lia|unfold zlen in *; rewrite length_take, length_drop; nia].
  cbn [mbind result_bind]. rewrite map_app, concat_app. cbn [map concat]. rewrite app_nil_r, app_assoc.
  do 2 f_equal. f_equal. nia.
Qed.

Lemma fold_blocks n : 0 <= n → (∀ i, 0 <= i < n → replaces i) →
  ∀ buffer, n * sz <= zlen buffer →
  fold_result body buffer (seqZ 0 n) =
    Ok (concat (map block (seqZ 0 n)) ++ drop (Z.to_nat (n * sz)) buffer).
Proof. intros Hn. rewrite <- (Z2Nat.id n Hn). apply fold_blocks_nat. Qed.

(** A fault of the [k]-th iteration ends the loop. *)
Lemma fold_blocks_fault n k f :
  (∀ i, 0 <= i < k → replaces i) → (∀ buffer, body buffer k = Fault f) → 0 <= k < n →
  ∀ buffer, n * sz <= zlen buffer → fold_result body buffer (seqZ 0 n) = Fault f.
Proof.
  intros Hbody Hf Hk buffer Hn.
  replace n with (k + (n - k)) by lia. rewrite seqZ_app, fold_result_app by lia.
  rewrite fold_blocks; [|lia|done|nia].
  cbn [mbind result_bind]. rewrite (seqZ_cons (0 + _)) by lia. cbn [fold_result].
  by rewrite Z.add_0_l, Hf.
Qed.

End block_loops.

Lemma span_write_app {A} (pre view post l : list A) : zlen view = zlen l →
  span_write (pre ++ view ++ post) (zlen pre) l = Ok (pre ++ l ++ post).
Proof.
  intros Hl. unfold span_write. assert (length view = length l) as Hl' by (unfold zlen in Hl; lia).
  assert (zlen pre + zlen l <= zlen (pre ++ view ++ post)).
  { rewrite !zlen_app. unfold zlen. lia. }
  pass_assume. f_equal. unfold zlen. rewrite Nat2Z.id, take_app_length, <- Hl', drop_app_add.
  by rewrite drop_app_length.
Qed.

(** The [i]-th block of [sz] elements. *)
Definition nth_block {A} (sz : Z) (l : list A) (i : Z) : list A :=
  take (Z.to_nat sz) (drop (Z.to_nat (i * sz)) l).

Lemma nth_block_spec {A} sz (l : list A) n i : 0 <= sz → 0 <= i < n → n * sz <= zlen l →
  zlen (nth_block sz l i) = sz.
Proof.
  intros Hs Hi Hl. unfold nth_block, zlen in *. rewrite length_take, length_drop. nia.
Qed.

Lemma read_block (l : list Z) n sz i : 0 < sz → 0 <= i < n → n * sz <= zlen l → n * sz < 2 ^ 32 →
  assume (wrap 32 (i * sz) <? zlen l) AssertFailed = Ok tt ∧
  mem_read l (wrap 32 (i * sz)) sz = Ok (nth_block sz l i).
Proof.
  intros Hs Hi Hl Hn. rewrite wrap_small by (unfold fits; nia). split.
  - replace (_ <? _) with true by nia. done.
  - unfold mem_read, nth_block. by replace ((0 <=? i * sz) && (0 <=? sz) && (i * sz + sz <=? zlen l)) with true by nia.
Qed.

Section decompress_loops.
Context (w n : Z) (Hw : 1 <= w <= 16) (Hn : 0 <= n <= 275).

Lemma prbs_of {A} (out : list A) : zlen out = n * 12 → wrap 32 (zlen out / NOF_SUBCARRIERS_PER_RB) = n.
Proof. intros ->. unfold NOF_SUBCARRIERS_PER_RB. rewrite Z.div_mul by lia. apply wrap_small. lia_fits. Qed.

Lemma none_decompress_spec out data :
  zlen out = n * 12 → bytes_ok data → zlen data = n * (3 * w) →
  ∃ q, quantizer.create w = Ok q ∧
    iq_compression_none_impl.decompress out data (mk_compr none w) =
    Ok (concat (map (λ i, restored_block (quantizer.to_float q) (packed_sample w (nth_block (3 * w) data i)))
                  (seqZ 0 n))).
Proof.
  intros Ho Hb Hd. destruct (quantizer_create_spec w Hw) as [g Hq]. eexists. split; [exact Hq|].
  unfold iq_compression_none_impl.decompress. cbn [data_width]. rewrite Hq. cbn [mbind result_bind].
  rewrite prbs_of by done. rewrite uplane.prb_size_value by (cbn [data_width]; lia).
  cbn [compr_type is_compression_param_present data_width]. rewrite Z.add_0_r.
  rewrite (wrap_small 32 (n * _)) by (unfold_fits; nia). pass_assume.
  rewrite (fold_blocks _ (λ i, restored_block (quantizer.to_float (quantizer.mk w (16 - w) g))
      (packed_sample w (nth_block (3 * w) data i))) 12); [|done|lia| |lia].
  - rewrite drop_ge by (unfold zlen in *; lia). by rewrite app_nil_r.
  - intros i Hi. split; [done|]. intros pre view post Hp Hv. destruct (read_block data n (3 * w) i) as [-> ->]; [unfold_fits; nia..|].
    cbn [mbind result_bind]. pose proof (nth_block_spec (3 * w) data n i).
    rewrite none_block_spec; [|done|by apply Forall_take, Forall_drop|unfold_fits; lia].
    cbn [mbind result_bind]. unfold NOF_SUBCARRIERS_PER_RB.
    replace (i * 12) with (zlen pre) by lia. by apply span_write_app.
Qed.

Definition block_exponent_at (data : list Z) (i : Z) : Z := nth 0 (nth_block (3 * w + 1) data i) 0.

(** What a block of a received view stands for. *)
Definition bfp_restored (q16 : quantizer.t) (data : list Z) (i : Z) : list cbf16_t :=
  restored_block (λ p, quantizer.to_float q16 (p * swrap 16 (1 ≪ block_exponent_at data i)))
    (packed_sample w (tl (nth_block (3 * w + 1) data i))).

(** One iteration of the loop of [decompress]. *)
Lemma bfp_decompress_step data g q16 i :
  quantizer.create Q_BIT_WIDTH = Ok q16 → bytes_ok data → zlen data = n * (3 * w + 1) → 0 <= i < n →
  iq_compression_bfp_impl.decompress_prb_generic (nth_block (3 * w + 1) data i)
      (quantizer.mk w (16 - w) g) w =
    if block_exponent_at data i <? 32 then Ok (bfp_restored q16 data i) else Fault BadShift.
Proof.
  intros Hq16 Hb Hd Hi. unfold bfp_restored, block_exponent_at.
  pose proof (nth_block_spec (3 * w + 1) data n i ltac:(lia) Hi ltac:(lia)) as Hz.
  assert (Hbb : bytes_ok (nth_block (3 * w + 1) data i)) by by apply Forall_take, Forall_drop.
  destruct (nth_block (3 * w + 1) data i) as [|e l]; [unfold zlen in Hz; simpl in Hz; lia|].
  rewrite zlen_cons in Hz. inversion_clear Hbb as [|?? He Hl]. cbn [nth tl].
  destruct (bfp_block_spec w g e l) as (q & Hq & HB); [done..|unfold_fits; lia|lia_fits|].
  rewrite Hq16 in Hq. injection Hq as <-. exact HB.
Qed.

Lemma first_false (f : Z → bool) (k : Z) : 0 <= k → forallb f (seqZ 0 k) = false →
  ∃ j, 0 <= j < k ∧ f j = false ∧ ∀ i, 0 <= i < j → f i = true.
Proof.
  intros Hk. rewrite <- (Z2Nat.id k Hk). clear Hk. induction (Z.to_nat k) as [|m IH]; [done|].
  rewrite seqZ_S, forallb_app, andb_false_iff. intros H.
  destruct (forallb f (seqZ 0 (Z.of_nat m))) eqn:E.
  - destruct H as [H|H]; [done|].
    exists (Z.of_nat m). split; [lia|]. cbn [forallb] in H. rewrite andb_true_r in H.
    split; [by rewrite <- H; f_equal; lia|]. intros i Hi. rewrite forallb_forall in E. apply E.
    apply list_elem_of_In, elem_of_seqZ. lia.
  - destruct (IH eq_refl) as (j & Hj & Hf & Hi). exists j. split; [lia|]. done.
Qed.

(** Decompression is total but for exponents of 32 and more. *)
Lemma bfp_decompress_spec out data :
  zlen out = n * 12 → bytes_ok data → zlen data = n * (3 * w + 1) →
  ∃ q16, quantizer.create Q_BIT_WIDTH = Ok q16 ∧
    iq_compression_bfp_impl.decompress out data (mk_compr BFP w) =
    if forallb (λ i, block_exponent_at data i <? 32) (seqZ 0 n)
    then Ok (concat (map (bfp_restored q16 data) (seqZ 0 n))) else Fault BadShift.
Proof.
  intros Ho Hb Hd. destruct (quantizer_create_spec w Hw) as [g Hq]. destruct (quantizer_create_spec Q_BIT_WIDTH) as [g16 Hq16]; [done|].
  eexists. split; [exact Hq16|].
  unfold iq_compression_bfp_impl.decompress. cbn [data_width]. rewrite Hq. cbn [mbind result_bind].
  rewrite prbs_of by done. rewrite uplane.prb_size_value by (cbn [data_width]; lia).
  cbn [compr_type is_compression_param_present data_width].
  rewrite (wrap_small 32 (n * _)) by (unfold_fits; nia). pass_assume.
  set (q16 := quantizer.mk _ _ g16) in *.
  assert (Hstep : ∀ i pre view post, 0 <= i < n → (block_exponent_at data i <? 32) = true →
    zlen pre = i * 12 → zlen view = 12 →
    (assume (wrap 32 (i * (3 * w + 1)) <? zlen data) AssertFailed;;
     comp_prb ← mem_read data (wrap 32 (i * (3 * w + 1))) (3 * w + 1);
     samples ← iq_compression_bfp_impl.decompress_prb_generic comp_prb (quantizer.mk w (16 - w) g) w;
     span_write (pre ++ view ++ post) (i * NOF_SUBCARRIERS_PER_RB) samples) =
    Ok (pre ++ bfp_restored q16 data i ++ post)).
  { intros i pre view post Hi He Hp Hv. destruct (read_block data n (3 * w + 1) i) as [-> ->]; [unfold_fits; nia..|].
    cbn [mbind result_bind]. rewrite (bfp_decompress_step data g q16), He by done.
    cbn [mbind result_bind]. unfold NOF_SUBCARRIERS_PER_RB. rewrite <- Hp. by apply span_write_app. }
  destruct (forallb _ _) eqn:E.
  - rewrite (fold_blocks _ (bfp_restored q16 data) 12); [|done|lia| |lia].
    + rewrite drop_ge by (unfold zlen in *; lia). by rewrite app_nil_r.
    + intros i Hi. split; [done|]. intros pre view post Hp Hv. apply Hstep; try done.
      rewrite forallb_forall in E. apply E, list_elem_of_In, elem_of_seqZ. lia.
  - destruct (first_false _ n (proj1 Hn) E) as (k & Hk & He & Hbefore).
    apply (fold_blocks_fault _ (bfp_restored q16 data) 12 ltac:(done) n k); try done; [| |lia].
    + intros i Hi. split; [done|]. intros pre view post Hp Hv. apply Hstep; try done; [lia|]. by apply Hbefore.
    + intros buffer. destruct (read_block data n (3 * w + 1) k) as [-> ->]; [unfold_fits; nia..|].
      cbn [mbind result_bind]. rewrite (bfp_decompress_step data g q16), He by (done || lia). done.
Qed.

End decompress_loops.

(** ** The exponent of a block *)
Module bfp_exponent.
Import iq_compression_bfp_impl.

Lemma foldl_max l : ∀ a, let m := foldl Z.max a l in a <= m ∧ (∀ x, x ∈ l → x <= m) ∧ (m = a ∨ m ∈ l).
Proof.
  induction l as [|x l IH]; intros a; cbn [foldl]; [split_and!; [lia| |by left]; by intros x Hx%elem_of_nil|].
  destruct (IH (Z.max a x)) as (H1 & H2 & H3). split; [lia|]. split.
  - intros y [->|Hy]%elem_of_cons; [lia|]. by apply H2.
  - destruct H3 as [->|H3]; [|right; by right].
    destruct (Z.max_spec a x) as [[_ ->]|[_ ->]]; [right; by left|by left].
Qed.

Lemma max_element_spec l : l ≠ [] → (∀ x, x ∈ l → x <= max_element l) ∧ max_element l ∈ l.
Proof.
  destruct l as [|a l]; [done|]. intros _. unfold max_element. cbn [hd tl].
  destruct (foldl_max l a) as (H1 & H2 & H3). split.
  - intros x [->|Hx]%elem_of_cons; [done|by apply H2].
  - destruct H3 as [->|H3]; [by left|by right].
Qed.

(** The minimum is the opposite of the maximum of the opposites. *)
Lemma foldl_min_opp l : ∀ a, foldl Z.min a l = - foldl Z.max (- a) (map Z.opp l).
Proof.
  induction l as [|x l IH]; intros a; cbn [foldl map]; [lia|].
  rewrite IH. do 2 f_equal. lia.
Qed.

Lemma min_element_opp l : min_element l = - max_element (map Z.opp l).
Proof.
  unfold min_element, max_element. destruct l as [|a l]; [done|]. cbn [hd tl map]. apply foldl_min_opp.
Qed.

Lemma min_element_spec l : l ≠ [] → (∀ x, x ∈ l → min_element l <= x) ∧ min_element l ∈ l.
Proof.
  intros Hl. destruct (max_element_spec (map Z.opp l)) as [H1 H2]; [by destruct l|].
  rewrite min_element_opp. split.
  - intros x Hx. assert (- x <= max_element (map Z.opp l)); [|lia]. apply H1, list_elem_of_fmap. eauto.
  - apply list_elem_of_fmap in H2 as (y & -> & Hy). by rewrite Z.opp_involutive.
Qed.

(** The magnitude the exponent is computed from. *)
Definition magnitude (l : list Z) : Z := Z.max (Z.abs (max_element l)) (Z.abs (min_element l) - 1).

(** The least exponent [e] with [m < 2^(w - 1 + e)]. *)
Definition least_exponent (m w : Z) : Z := if m =? 0 then 0 else Z.max 0 (Z.log2 m + 2 - w).

Lemma determine_exponent_spec x w : 1 <= w <= 16 → 0 <= x < 2 ^ 15 →
  determine_exponent x w = Ok (least_exponent x w).
Proof.
  intros Hw Hx. unfold determine_exponent, least_exponent, MAX_IQ_WIDTH, clz. do 2 pass_assume. f_equal.
  destruct (Z.eqb_spec x 0) as [->|Hx0].
  { cbn [Z.ltb Z.compare andb]. unfold swrap. rewrite Z.mod_small by lia. lia. }
  assert (0 <= Z.log2 x < 15).
  { split; [apply Z.log2_nonneg|]. apply Z.log2_lt_pow2; lia. }
  replace (0 <? x) with true by lia. cbn [andb].
  rewrite wrap_small by lia_fits. rewrite swrap_small by (try lia; case_Z; unfold_fits; lia).
  case_Z; lia.
Qed.

(** The magnitude [2^15] is not seen: the exponent is 0. *)
Lemma determine_exponent_overflow w : 1 <= w <= 16 → determine_exponent (2 ^ 15) w = Ok 0.
Proof.
  intros Hw. unfold determine_exponent, MAX_IQ_WIDTH. do 2 pass_assume. f_equal.
  change (wrap 32 (clz (2 ^ 15) - 16 - 1)) with (2 ^ 32 - 1). change (0 <? 2 ^ 15) with true. cbn [andb].
  rewrite swrap_small by (try lia; case_Z; unfold_fits; lia). case_Z; lia.
Qed.

Lemma least_exponent_fits m w : 1 <= w → 0 <= m → m < 2 ^ (w - 1 + least_exponent m w).
Proof.
  intros Hw Hm. unfold least_exponent. destruct (Z.eqb_spec m 0) as [->|].
  { apply Z.pow_pos_nonneg; lia. }
  apply Z.log2_lt_pow2; [lia|]. lia.
Qed.

Lemma least_exponent_least m w : 1 <= w → 0 <= m → 0 < least_exponent m w →
  2 ^ (w - 1 + (least_exponent m w - 1)) <= m.
Proof.
  intros Hw Hm. unfold least_exponent. destruct (Z.eqb_spec m 0) as [->|]; [lia|]. intros He.
  replace (w - 1 + (Z.max 0 (Z.log2 m + 2 - w) - 1)) with (Z.log2 m) by lia.
  apply Z.log2_spec. lia.
Qed.

Lemma magnitude_spec l : l ≠ [] → Forall (sfits 16) l → (∃ s, s ∈ l ∧ s ≠ - 2 ^ 15) →
  0 <= magnitude l < 2 ^ 15 ∧ ∀ s, s ∈ l → - (magnitude l + 1) <= s <= magnitude l.
Proof.
  intros Hl Hf (s0 & Hs0 & Hne). destruct (max_element_spec l Hl) as [H1 H2].
  destruct (min_element_spec l Hl) as [H3 H4]. rewrite Forall_forall in Hf.
  pose proof (Hf _ H2) as F2. pose proof (Hf _ H4) as F4. pose proof (Hf _ Hs0) as F0.
  pose proof (H1 _ Hs0) as M0. unfold magnitude. unfold_fits. split; [lia|].
  intros s Hs. specialize (H1 s Hs). specialize (H3 s Hs). lia.
Qed.

Lemma block_exponent_spec l w : 1 <= w <= 16 → l ≠ [] → Forall (sfits 16) l → (∃ s, s ∈ l ∧ s ≠ - 2 ^ 15) →
  block_exponent l w = Ok (least_exponent (magnitude l) w) ∧ 0 <= least_exponent (magnitude l) w <= 16 - w.
Proof.
  intros Hw Hl Hf Hne. destruct (magnitude_spec l Hl Hf Hne) as [Hm _].
  assert (He : 0 <= least_exponent (magnitude l) w <= 16 - w).
  { unfold least_exponent. destruct (Z.eqb_spec (magnitude l) 0); [lia|].
    assert (Z.log2 (magnitude l) < 15) by (apply Z.log2_lt_pow2; lia).
    pose proof (Z.log2_nonneg (magnitude l)). lia. }
  split; [|done]. unfold block_exponent. fold (magnitude l).
  rewrite (wrap_small 32), (wrap_small 16) by (rewrite ?wrap_small; lia_fits).
  rewrite determine_exponent_spec by done. cbn [mbind result_bind]. by rewrite wrap_small by lia_fits.
Qed.

(** A sample shifted by the exponent fits the width. *)
Lemma shifted_fits s m w e : 1 <= w → 0 <= e → m < 2 ^ (w - 1 + e) → - (m + 1) <= s <= m → sfits w (s ≫ e).
Proof.
  intros Hw He Hm Hs. rewrite Z.pow_add_r in Hm by lia. rewrite Z.shiftr_div_pow2 by lia. unfold sfits.
  assert (0 < 2 ^ e) by (apply Z.pow_pos_nonneg; lia). split.
  - apply Z.div_le_lower_bound; [done|]. nia.
  - apply Z.div_lt_upper_bound; [done|]. nia.
Qed.

Lemma shift_too_big s w k e : 1 <= w → 0 <= e → k = w - 1 + e → 2 ^ k <= s ∨ s < - 2 ^ k → ¬ sfits w (s ≫ e).
Proof.
  intros Hw He -> Hs. rewrite Z.pow_add_r in Hs by lia. rewrite Z.shiftr_div_pow2 by lia. unfold sfits.
  assert (0 < 2 ^ e) by (apply Z.pow_pos_nonneg; lia). intros [H1 H2]. destruct Hs.
  - assert (2 ^ (w - 1) <= s / 2 ^ e) by (apply Z.div_le_lower_bound; nia). lia.
  - assert (s / 2 ^ e < - 2 ^ (w - 1)) by (apply Z.div_lt_upper_bound; nia). lia.
Qed.

Lemma exponent_needed l w : 1 <= w → l ≠ [] → let e := least_exponent (magnitude l) w in
  0 <= magnitude l → 0 < e →
  (∃ s, s ∈ l ∧ ¬ sfits w (s ≫ (e - 1))) ∨ (∀ s, s ∈ l → s = - 2 ^ (w - 1 + (e - 1))).
Proof.
  intros Hw Hl e Hm He. pose proof (least_exponent_least _ w Hw Hm He) as Hle. fold e in Hle.
  destruct (max_element_spec l Hl) as [H1 H2]. destruct (min_element_spec l Hl) as [H3 H4].
  set (k := w - 1 + (e - 1)) in *. assert (0 < 2 ^ k) by (apply Z.pow_pos_nonneg; lia).
  unfold magnitude in Hle.
  destruct (decide (2 ^ k <= max_element l)) as [Hmax|Hmax];
    [left; exists (max_element l); split; [done|]; apply (shift_too_big _ w k); lia|].
  destruct (decide (min_element l < - 2 ^ k)) as [Hmin|Hmin];
    [left; exists (min_element l); split; [done|]; apply (shift_too_big _ w k); lia|].
  right. intros s Hs. specialize (H1 s Hs). specialize (H3 s Hs). lia.
Qed.

End bfp_exponent.

(** ** Properties of blocks *)

(** C36: The exponent chosen for a block of 24 quantized samples makes every sample fit
    the width after the shift, and what the shift drops is less than one step of the
    exponent.  The exponent is the least one with that property, except for a block
    that is constantly minus a power of two, which could do with one less.  One block
    is mistreated: when all samples are -32768 the exponent is 0, whatever the
    width. *)
Theorem bfp_block_exponent l w :
  1 <= w <= 16 → zlen l = 24 → Forall (sfits 16) l →
  ((∃ s, s ∈ l ∧ s ≠ - 2 ^ 15) →
   ∃ e, iq_compression_bfp_impl.block_exponent l w = Ok e ∧ 0 <= e <= 16 - w ∧
     (∀ s, s ∈ l → sfits w (s ≫ e) ∧ 0 <= s - (s ≫ e) * 2 ^ e < 2 ^ e) ∧
     (0 < e → (∃ s, s ∈ l ∧ ¬ sfits w (s ≫ (e - 1))) ∨ (∀ s, s ∈ l → s = - 2 ^ (w - 1 + (e - 1))))) ∧
  ((∀ s, s ∈ l → s = - 2 ^ 15) → iq_compression_bfp_impl.block_exponent l w = Ok 0).
Proof.
  intros Hw Hl Hf. assert (Hne : l ≠ []) by (intros ->; done). split.
  - intros Hs. destruct (bfp_exponent.block_exponent_spec l w Hw Hne Hf Hs) as [HE He].
    destruct (bfp_exponent.magnitude_spec l Hne Hf Hs) as [Hm Hin].
    eexists. split; [exact HE|]. split; [done|]. split.
    + intros s Hsl. split.
      * apply (bfp_exponent.shifted_fits s (bfp_exponent.magnitude l)); [lia..| |by apply Hin].
        apply bfp_exponent.least_exponent_fits; lia.
      * rewrite Z.shiftr_div_pow2 by lia.
        pose proof (Z.mod_pos_bound s (2 ^ bfp_exponent.least_exponent (bfp_exponent.magnitude l) w)).
        rewrite Z.mod_eq in H by lia. lia.
    + intros Hpos. apply bfp_exponent.exponent_needed; (done || lia).
  - intros Hs. unfold iq_compression_bfp_impl.block_exponent.
    destruct (bfp_exponent.max_element_spec l Hne) as [_ ->%Hs].
    destruct (bfp_exponent.min_element_spec l Hne) as [_ ->%Hs].
    change (wrap 16 _) with (2 ^ 15). by rewrite bfp_exponent.determine_exponent_overflow.
Qed.

(** ** Compressing a block *)

Lemma pack_block w l : 1 <= w <= 16 → zlen l = 24 → forallb (packing.packable w) l = true →
  ∃ out, bytes_ok out ∧ zlen out = 3 * w ∧
    (∀ k, 0 <= k < 24 → packed_sample w out k = swrap w (nth (Z.to_nat k) l 0)) ∧
    ∀ view, zlen view = 3 * w →
      packing.pack_bytes (bit_buffer.from_bytes view) l w = Ok (bit_buffer.mk out (8 * (3 * w))).
Proof.
  intros Hw Hl Hok. destruct (packing.pack_bytes_full w l (Z.to_nat (3 * w)) Hw) as (out & HB & HL & HW & HP);
    [lia_fits|lia|done|].
  exists out. split; [done|]. split; [unfold zlen; lia|]. split.
  - intros k Hk. unfold packed_sample.
    destruct (lookup_lt_is_Some_2 l (Z.to_nat k)) as [s Hs]; [unfold zlen in Hl; lia|].
    pose proof (HW _ _ Hs) as HWk. rewrite Z2Nat.id in HWk by lia.
    by rewrite HWk, swrap_wrap, (nth_lookup_Some _ _ _ _ Hs).
  - intros view Hv. rewrite HP by (unfold zlen in Hv; lia). by rewrite Z2Nat.id by lia.
Qed.

Lemma packable_wide w l : 8 <= w → forallb (packing.packable w) l = true.
Proof.
  intros Hw. apply forallb_forall. intros s _. unfold packing.packable.
  by replace (8 <=? w) with true by lia.
Qed.

(** The exponent computed for a block. *)
Definition exponent_of (w : Z) (l : list Z) : Z :=
  match iq_compression_bfp_impl.block_exponent l w with Ok e => e | Fault _ => 0 end.

Lemma exponent_of_spec w l : 1 <= w <= 16 → l ≠ [] → Forall (sfits 16) l →
  iq_compression_bfp_impl.block_exponent l w = Ok (exponent_of w l) ∧ 0 <= exponent_of w l <= 16 - w.
Proof.
  intros Hw Hne Hf. unfold exponent_of. destruct (decide (Forall (λ s, s = - 2 ^ 15) l)) as [Hall|Hnot].
  - rewrite Forall_forall in Hall. unfold iq_compression_bfp_impl.block_exponent.
    destruct (bfp_exponent.max_element_spec l Hne) as [_ ->%Hall].
    destruct (bfp_exponent.min_element_spec l Hne) as [_ ->%Hall].
    change (wrap 16 _) with (2 ^ 15). rewrite bfp_exponent.determine_exponent_overflow by done.
    cbn [mbind result_bind]. change (wrap 8 0) with 0. split; [done|lia].
  - destruct (bfp_exponent.block_exponent_spec l w Hw Hne Hf) as [-> He]; [|done].
    apply not_Forall_Exists, Exists_exists in Hnot; [|apply _]. done.
Qed.

(** The bytes of a compressed block: the exponent, then the shifted samples. *)
Lemma compress_prb_spec w l : 8 <= w <= 16 → zlen l = 24 → Forall (sfits 16) l →
  ∃ out, bytes_ok out ∧ zlen out = 3 * w ∧
    (∀ k, 0 <= k < 24 → packed_sample w out k = swrap w (nth (Z.to_nat k) l 0 ≫ exponent_of w l)) ∧
    ∀ view, zlen view = 3 * w + 1 →
      iq_compression_bfp_impl.compress_prb_generic view l w = Ok (exponent_of w l :: out).
Proof.
  intros Hw Hl Hf. assert (Hne : l ≠ []) by (intros ->; done).
  destruct (exponent_of_spec w l ltac:(lia) Hne Hf) as [HE He]. set (e := exponent_of w l) in *.
  set (c := map (λ s, swrap 16 (s ≫ e)) l).
  assert (Hc : zlen c = 24) by (unfold c, zlen in *; by rewrite length_map).
  destruct (pack_block w c) as (out & HB & HL & HW & HP); [lia|done|apply packable_wide; lia|].
  exists out. split; [done|]. split; [done|]. split.
  - intros k Hk. rewrite HW by done. f_equal.
    destruct (lookup_lt_is_Some_2 l (Z.to_nat k)) as [s Hs]; [unfold zlen in Hl; lia|].
    assert (Hck : c !! Z.to_nat k = Some (swrap 16 (s ≫ e))).
    { change c with ((λ s, swrap 16 (s ≫ e)) <$> l). by rewrite list_lookup_fmap, Hs. }
    rewrite (nth_lookup_Some _ _ _ _ Hs), (nth_lookup_Some _ _ _ _ Hck).
    apply swrap_small; [done|]. pose proof (Forall_lookup_1 _ _ _ _ Hf Hs) as Fs. cbv beta in Fs.
    apply (bfp_exponent.shifted_fits s (2 ^ 15 - 1)); [lia|lia| |unfold sfits in Fs; lia].
    apply (Z.lt_le_trans _ (2 ^ 15)); [done|]. apply Z.pow_le_mono_r; lia.
  - intros [|v view] Hv; [unfold zlen in Hv; simpl in Hv; lia|]. rewrite zlen_cons in Hv.
    unfold iq_compression_bfp_impl.compress_prb_generic, NOF_SAMPLES_PER_PRB, NOF_SUBCARRIERS_PER_RB.
    assert (vec_range l 0 (2 * 12) = Ok l) as ->.
    { unfold vec_range. rewrite Hl. cbn [Z.leb Z.mul Z.compare Pos.compare Pos.compare_cont andb].
      rewrite drop_0, take_ge; [done|]. unfold zlen in Hl. lia. }
    cbn [mbind result_bind]. rewrite HE. cbn [mbind result_bind]. fold c.
    assert (mem_write (v :: view) 0 [e] = Ok (e :: view)) as ->
      by exact (mem_write_app [] [v] view [e] eq_refl).
    cbn [mbind result_bind].
    assert (span_last (e :: view) (zlen (e :: view) - 1) = Ok view) as -> by apply span_last_tail.
    cbn [mbind result_bind]. by rewrite HP by lia.
Qed.

(** ** Compressing all blocks *)

Lemma nth_block_concat {A} (block : Z → list A) sz n i : 0 <= sz → 0 <= i < n →
  (∀ j, 0 <= j < n → zlen (block j) = sz) →
  nth_block sz (concat (map block (seqZ 0 n))) i = block i.
Proof.
  intros Hs Hi Hb. replace n with (i + (1 + (n - i - 1))) by lia.
  rewrite !seqZ_app, !map_app, !concat_app, Z.add_0_l by lia.
  pose proof (zlen_blocks block sz i ltac:(lia) ltac:(intros; apply Hb; lia)) as HP.
  unfold nth_block. rewrite drop_app_length' by (unfold zlen in HP; lia).
  rewrite (seqZ_cons i 1) by lia. cbn [map concat]. rewrite <- app_assoc.
  apply take_app_length'. specialize (Hb i Hi). unfold zlen in Hb. lia.
Qed.

Lemma bytes_ok_concat (block : Z → list Z) n :
  (∀ i, 0 <= i < n → bytes_ok (block i)) → bytes_ok (concat (map block (seqZ 0 n))).
Proof.
  intros H. apply Forall_concat, Forall_fmap, Forall_forall. intros i Hi%elem_of_seqZ. apply H. lia.
Qed.

Lemma float_samples_length iq : zlen (float_samples iq) = 2 * zlen iq.
Proof.
  unfold float_samples, zlen. induction iq as [|s iq IH]; [done|]. rewrite bind_cons. simpl. lia.
Qed.

Lemma convert_inv n x scale qs : convert n x scale = Ok qs →
  zlen x = n ∧ zlen qs = n ∧ Forall (sfits 16) qs ∧
  Forall2 (λ v z, to_int16 (f32_mul (f32_of_bits (Bf16.to_float v)) scale) = Ok z) x qs.
Proof.
  unfold convert. intros ([] & Hn%assume_Ok & HM%mapM_Ok_Forall2)%bind_Ok.
  pose proof (Forall2_length _ _ _ HM). split; [lia|]. split; [unfold zlen in *; lia|]. split; [|done].
  eapply Forall2_Forall_r; [exact HM|]. apply Forall_forall. intros v _ z Hz.
  unfold to_int16 in Hz. destruct (round_half_away _) as [z'|]; [|done].
  apply bind_Ok in Hz as ([] & Ha%assume_Ok & [= <-]). by apply sfitsb_spec.
Qed.

Lemma Forall_nth_block {A} (P : A → Prop) sz l i : Forall P l → Forall P (nth_block sz l i).
Proof. intros. by apply Forall_take, Forall_drop. Qed.

(** Quantizing a block alone. *)
Lemma convert_block n x scale qs sz i : 0 <= sz → 0 <= i → (i + 1) * sz <= n →
  convert n x scale = Ok qs → convert sz (nth_block sz x i) scale = Ok (nth_block sz qs i).
Proof.
  intros Hs Hi Hn (Hx & Hq & _ & HF)%convert_inv. unfold convert.
  rewrite (nth_block_spec sz x (i + 1)), Z.eqb_refl by lia. cbn [assume mbind result_bind].
  apply mapM_Ok_Forall2. unfold nth_block. by apply Forall2_take, Forall2_drop.
Qed.

(** The view of the [i]-th block of a buffer. *)
Lemma region_at (pre vw post : list Z) i sz n :
  zlen pre = i * sz → zlen vw = sz → 0 < sz → 0 <= i < n → n * sz < 2 ^ 32 →
  assume (wrap 32 (i * sz) <? zlen (pre ++ vw ++ post)) AssertFailed = Ok tt ∧
  mem_read (pre ++ vw ++ post) (wrap 32 (i * sz)) sz = Ok vw ∧
  ∀ out, zlen out = sz → mem_write (pre ++ vw ++ post) (wrap 32 (i * sz)) out = Ok (pre ++ out ++ post).
Proof.
  intros Hp Hv Hs Hi Hn. rewrite wrap_small, <- Hp by (unfold fits; nia). split_and!.
  - rewrite !zlen_app. pose proof (zlen_nonneg post).
    by replace (zlen pre <? zlen pre + (zlen vw + zlen post)) with true by lia.
  - rewrite <- Hv. apply mem_read_app.
  - intros out Ho. apply mem_write_app. unfold zlen in *. lia.
Qed.

Section compress_loops.
Context (w n : Z) (Hw : 8 <= w <= 16) (Hn : 0 <= n <= 275).
Context (iq : list cbf16_t) (Hiq : zlen iq = n * 12) (iq_scaling : spec_float).

Definition bfp_block (qs : list Z) (i : Z) : list Z :=
  match iq_compression_bfp_impl.compress_prb_generic (replicate (Z.to_nat (3 * w + 1)) 0)
          (nth_block 24 qs i) w with
  | Ok b => b | Fault _ => []
  end.

Lemma bfp_block_at qs i : 0 <= i < n → zlen qs = n * 24 → Forall (sfits 16) qs →
  bytes_ok (bfp_block qs i) ∧ zlen (bfp_block qs i) = 3 * w + 1 ∧
  nth 0 (bfp_block qs i) 0 = exponent_of w (nth_block 24 qs i) ∧
  (∀ k, 0 <= k < 24 → packed_sample w (tl (bfp_block qs i)) k =
     swrap w (nth (Z.to_nat k) (nth_block 24 qs i) 0 ≫ exponent_of w (nth_block 24 qs i))) ∧
  ∀ view, zlen view = 3 * w + 1 →
    iq_compression_bfp_impl.compress_prb_generic view (nth_block 24 qs i) w = Ok (bfp_block qs i).
Proof.
  intros Hi Hq Hf. pose proof (nth_block_spec 24 qs n i ltac:(lia) Hi ltac:(lia)) as Hz.
  destruct (compress_prb_spec w (nth_block 24 qs i) Hw Hz) as (out & HB & HL & HW & HC);
    [by apply Forall_nth_block|].
  assert (bfp_block qs i = exponent_of w (nth_block 24 qs i) :: out) as ->.
  { unfold bfp_block. rewrite HC; [done|]. unfold zlen. rewrite length_replicate. lia. }
  destruct (exponent_of_spec w (nth_block 24 qs i)) as [_ He];
    [lia|by intros E; rewrite E in Hz|by apply Forall_nth_block|].
  split; [constructor; [lia_fits|done]|]. split; [rewrite zlen_cons; lia|]. done.
Qed.

Lemma ofh_bfp_compress_spec view qs :
  zlen view = n * (3 * w + 1) →
  iq_compression_bfp_impl.quantize_input iq_scaling (n * 24) (float_samples iq) = Ok qs →
  zlen qs = n * 24 ∧ Forall (sfits 16) qs ∧
  iq_compression_bfp_impl.compress iq_scaling view iq (mk_compr BFP w) =
    Ok (concat (map (bfp_block qs) (seqZ 0 n))).
Proof.
  intros Hv HQ. pose proof HQ as HQ'. unfold iq_compression_bfp_impl.quantize_input in HQ'.
  apply bind_Ok in HQ' as (? & _ & (q & _ & HQ')%bind_Ok). apply convert_inv in HQ' as (_ & Hzq & Hfq & _).
  split; [done|]. split; [done|].
  unfold iq_compression_bfp_impl.compress. cbn [data_width]. rewrite (prbs_of n Hn) by done.
  rewrite uplane.prb_size_value by (cbn [data_width]; lia).
  cbn [compr_type is_compression_param_present data_width].
  rewrite (wrap_small 32 (_ * n)) by (unfold_fits; nia). pass_assume.
  rewrite float_samples_length, Hiq.
  unfold NOF_SAMPLES_PER_PRB, NOF_SUBCARRIERS_PER_RB, uplane.MAX_NOF_PRBS. pass_assume.
  replace (2 * (n * 12)) with (n * 24) by lia. rewrite HQ. cbn [mbind result_bind].
  rewrite (fold_blocks _ (bfp_block qs) (3 * w + 1)); [|lia|lia| |lia].
  { rewrite drop_ge by (unfold zlen in *; lia). by rewrite app_nil_r. }
  intros i Hi. destruct (bfp_block_at qs i Hi Hzq Hfq) as (_ & HL & _ & _ & HC).
  split; [done|]. intros pre vw post Hp Hvw.
  assert (vec_range qs (2 * 12 * i) (2 * 12 * (i + 1)) = Ok (nth_block 24 qs i)) as ->.
  { unfold vec_range, nth_block.
    replace ((0 <=? 2 * 12 * i) && (2 * 12 * i <=? 2 * 12 * (i + 1)) && (2 * 12 * (i + 1) <=? zlen qs))
      with true by lia. do 3 f_equal; lia. }
  cbn [mbind result_bind].
  destruct (region_at pre vw post i (3 * w + 1) n) as (-> & -> & HMW); [done|done|lia|done|unfold_fits; nia|].
  cbn [mbind result_bind]. rewrite HC by done. cbn [mbind result_bind]. by apply HMW.
Qed.

Definition none_block (qs : list Z) (i : Z) : list Z :=
  match packing.pack_bytes (bit_buffer.from_bytes (replicate (Z.to_nat (3 * w)) 0)) (nth_block 24 qs i) w with
  | Ok b => bit_buffer.buffer b | Fault _ => []
  end.

Lemma none_block_at qs i : 0 <= i < n → zlen qs = n * 24 →
  bytes_ok (none_block qs i) ∧ zlen (none_block qs i) = 3 * w ∧
  (∀ k, 0 <= k < 24 → packed_sample w (none_block qs i) k = swrap w (nth (Z.to_nat k) (nth_block 24 qs i) 0)) ∧
  ∀ view, zlen view = 3 * w →
    packing.pack_bytes (bit_buffer.from_bytes view) (nth_block 24 qs i) w =
      Ok (bit_buffer.mk (none_block qs i) (8 * (3 * w))).
Proof.
  intros Hi Hq. pose proof (nth_block_spec 24 qs n i ltac:(lia) Hi ltac:(lia)) as Hz.
  destruct (pack_block w (nth_block 24 qs i) ltac:(lia) Hz) as (out & HB & HL & HW & HC);
    [apply packable_wide; lia|].
  assert (none_block qs i = out) as ->; [|done].
  unfold none_block. rewrite HC; [done|]. unfold zlen. rewrite length_replicate. lia.
Qed.

Lemma none_compress_spec view qs q :
  zlen view = n * (3 * w) → quantizer.create w = Ok q →
  quantizer.to_fixed_point q (n * 24) (float_samples iq) iq_scaling = Ok qs →
  zlen qs = n * 24 ∧
  iq_compression_none_impl.compress iq_scaling view iq (mk_compr none w) =
    Ok (concat (map (none_block qs) (seqZ 0 n))).
Proof.
  intros Hv Hq HQ. pose proof HQ as HQ'. apply convert_inv in HQ' as (_ & Hzq & _ & _).
  split; [done|]. unfold iq_compression_none_impl.compress. cbn [data_width]. rewrite Hq.
  cbn [mbind result_bind]. rewrite (prbs_of n Hn) by done.
  rewrite uplane.prb_size_value by (cbn [data_width]; lia).
  cbn [compr_type is_compression_param_present data_width]. rewrite Z.add_0_r.
  rewrite (wrap_small 32 (_ * n)) by (unfold_fits; nia). pass_assume.
  unfold NOF_SUBCARRIERS_PER_RB.
  rewrite (fold_blocks _ (none_block qs) (3 * w)); [|lia|lia| |lia].
  { rewrite drop_ge by (unfold zlen in *; lia). by rewrite app_nil_r. }
  intros i Hi. destruct (none_block_at qs i Hi Hzq) as (_ & HL & _ & HC).
  split; [done|]. intros pre vw post Hp Hvw.
  assert (subspan (float_samples iq) (i * (12 * 2)) (12 * 2) = Ok (nth_block 24 (float_samples iq) i)) as ->.
  { unfold subspan, nth_block. rewrite float_samples_length. by do 2 pass_assume. }
  cbn [mbind result_bind]. unfold quantizer.to_fixed_point in *.
  rewrite (convert_block (n * 24) _ _ qs (12 * 2) i) by (done || lia). cbn [mbind result_bind].
  destruct (region_at pre vw post i (3 * w) n) as (-> & -> & HMW); [done|done|lia|done|unfold_fits; nia|].
  cbn [mbind result_bind]. rewrite HC by done. cbn [mbind result_bind bit_buffer.buffer]. by apply HMW.
Qed.

End compress_loops.

(** ** The contract of the selectors *)

Definition supported (t : compression_type) : bool :=
  match t with none | BFP => true | _ => false end.

(** The width samples are quantized to: block floating point shortens them later. *)
Definition quantizer_width (c : ru_compression_params) : Z :=
  match compr_type c with BFP => Q_BIT_WIDTH | _ => data_width c end.

(** The samples a block stands for after a round trip. *)
Definition reference_block (c : ru_compression_params) (q : quantizer.t) (qs : list Z) (i : Z) : list cbf16_t :=
  let b := nth_block 24 qs i in
  let w := data_width c in
  match compr_type c with
  | BFP =>
      let e := exponent_of w b in
      restored_block (quantizer.to_float q) (λ k, swrap w (nth (Z.to_nat k) b 0 ≫ e) * 2 ^ e)
  | _ => restored_block (quantizer.to_float q) (λ k, swrap w (nth (Z.to_nat k) b 0))
  end.

Lemma restored_ext f f' s s' : (∀ k, 0 <= k < 24 → f (s k) = f' (s' k)) → restored_block f s = restored_block f' s'.
Proof.
  intros H. unfold restored_block. apply map_ext_in. intros i Hi%list_elem_of_In%elem_of_seqZ.
  by rewrite !H by lia.
Qed.

Lemma concat_map_ext {A} (f g : Z → list A) n :
  (∀ i, 0 <= i < n → f i = g i) → concat (map f (seqZ 0 n)) = concat (map g (seqZ 0 n)).
Proof.
  intros H. f_equal. apply map_ext_in. intros i Hi%list_elem_of_In%elem_of_seqZ. apply H. lia.
Qed.

Section contract.
Context (iq_scaling : spec_float) (w n : Z) (iq : list cbf16_t) (q : quantizer.t) (qs : list Z).
Context (Hw : 8 <= w <= 16) (Hn : 0 <= n <= 275) (Hiq : zlen iq = n * 12).
Context (HQ : quantizer.to_fixed_point q (n * 24) (float_samples iq) iq_scaling = Ok qs).

Lemma quantized_spec : zlen qs = n * 24 ∧ Forall (sfits 16) qs.
Proof. apply convert_inv in HQ as (_ & Hzq & Hfq & _). done. Qed.

Lemma none_contract : quantizer.create w = Ok q →
  ∃ payload, bytes_ok payload ∧ zlen payload = n * (3 * w) ∧
    (∀ view, zlen view = n * (3 * w) →
       iq_compression_none_impl.compress iq_scaling view iq (mk_compr none w) = Ok payload) ∧
    (∀ out, zlen out = n * 12 →
       iq_compression_none_impl.decompress out payload (mk_compr none w) =
         Ok (concat (map (reference_block (mk_compr none w) q qs) (seqZ 0 n)))).
Proof.
  intros Hq. destruct quantized_spec as [Hzq Hfq].
  set (payload := concat (map (none_block w qs) (seqZ 0 n))). exists payload.
  assert (HL : ∀ i, 0 <= i < n → zlen (none_block w qs i) = 3 * w)
    by (intros i Hi; by apply (none_block_at w n)).
  assert (HB : bytes_ok payload) by (apply bytes_ok_concat; intros i Hi; by apply (none_block_at w n)).
  assert (HZp : zlen payload = n * (3 * w)) by (by apply zlen_blocks; [lia|]).
  split; [done|]. split; [done|]. split.
  - intros view Hv. by apply (none_compress_spec w n Hw Hn iq Hiq iq_scaling view qs q).
  - intros out Ho. destruct (none_decompress_spec w n ltac:(lia) Hn out payload) as (q' & Hq' & ->); [done..|].
    rewrite Hq in Hq'. injection Hq' as <-. f_equal.
    apply concat_map_ext. intros i Hi. unfold payload. rewrite nth_block_concat by (done || lia).
    apply restored_ext. intros k Hk. f_equal. by apply (none_block_at w n).
Qed.

(** The exponents of a compressed payload are small. *)
Lemma payload_exponent i : 0 <= i < n →
  let payload := concat (map (bfp_block w qs) (seqZ 0 n)) in
  nth_block (3 * w + 1) payload i = bfp_block w qs i ∧
  block_exponent_at w payload i = exponent_of w (nth_block 24 qs i) ∧
  0 <= exponent_of w (nth_block 24 qs i) <= 8.
Proof.
  intros Hi payload. destruct quantized_spec as [Hzq Hfq].
  assert (HE : nth_block (3 * w + 1) payload i = bfp_block w qs i).
  { apply nth_block_concat; [lia|done|]. intros j Hj. by apply (bfp_block_at w n). }
  split; [done|]. unfold block_exponent_at. rewrite HE. split; [by apply (bfp_block_at w n)|].
  pose proof (nth_block_spec 24 qs n i ltac:(lia) Hi ltac:(lia)) as Hz.
  destruct (exponent_of_spec w (nth_block 24 qs i)) as [_ He];
    [lia|by intros E; rewrite E in Hz|by apply Forall_nth_block|]. lia.
Qed.

Lemma bfp_contract : quantizer.create Q_BIT_WIDTH = Ok q →
  ∃ payload, bytes_ok payload ∧ zlen payload = n * (3 * w + 1) ∧
    (∀ view, zlen view = n * (3 * w + 1) →
       iq_compression_bfp_impl.compress iq_scaling view iq (mk_compr BFP w) = Ok payload) ∧
    (∀ out, zlen out = n * 12 →
       iq_compression_bfp_impl.decompress out payload (mk_compr BFP w) =
         Ok (concat (map (reference_block (mk_compr BFP w) q qs) (seqZ 0 n)))).
Proof.
  intros Hq. destruct quantized_spec as [Hzq Hfq].
  set (payload := concat (map (bfp_block w qs) (seqZ 0 n))). exists payload.
  assert (HB : bytes_ok payload) by (apply bytes_ok_concat; intros i Hi; by apply (bfp_block_at w n)).
  assert (HZp : zlen payload = n * (3 * w + 1)).
  { apply zlen_blocks; [lia|]. intros i Hi. by apply (bfp_block_at w n). }
  split; [done|]. split; [done|]. split.
  - intros view Hv. apply (ofh_bfp_compress_spec w n Hw Hn iq Hiq iq_scaling view qs); [done|].
    unfold iq_compression_bfp_impl.quantize_input. rewrite float_samples_length, Hiq.
    replace (2 * (n * 12) =? n * 24) with true by lia. cbn [assume mbind result_bind]. by rewrite Hq.
  - intros out Ho. destruct (bfp_decompress_spec w n ltac:(lia) Hn out payload) as (q' & Hq' & ->); [done..|].
    rewrite Hq in Hq'. injection Hq' as <-.
    assert (forallb (λ i, block_exponent_at w payload i <? 32) (seqZ 0 n) = true) as ->.
    { apply forallb_forall. intros i Hi%list_elem_of_In%elem_of_seqZ.
      destruct (payload_exponent i ltac:(lia)) as (_ & HE & He). fold payload in HE. rewrite HE. lia. }
    f_equal. apply concat_map_ext. intros i Hi. unfold bfp_restored.
    destruct (payload_exponent i Hi) as (HN & HE & He). fold payload in HN, HE. rewrite HN, HE.
    apply restored_ext. intros k Hk. f_equal. cbn [data_width].
    rewrite Z.shiftl_1_l, swrap_small.
    + f_equal. by apply (bfp_block_at w n).
    + done.
    + set (e := exponent_of _ _) in *. assert (2 ^ e <= 2 ^ 8) by (apply Z.pow_le_mono_r; lia).
      assert (0 < 2 ^ e) by (apply Z.pow_pos_nonneg; lia). unfold sfits. lia.
Qed.

End contract.

Lemma selector_roundtrip sc sd iq_scaling c iq q qs n :
  create_compressors iq_scaling = Ok sc → create_decompressors = Ok sd →
  supported (compr_type c) = true → 8 <= data_width c <= 16 → 0 <= n <= 275 → zlen iq = n * 12 →
  quantizer.create (quantizer_width c) = Ok q →
  quantizer.to_fixed_point q (n * 24) (float_samples iq) iq_scaling = Ok qs →
  ∃ payload, bytes_ok payload ∧ zlen payload = n * get_compressed_prb_size c ∧
    (∀ view, zlen view = n * get_compressed_prb_size c →
       iq_compressor_selector.compress sc view iq c = Ok payload) ∧
    (∀ out, zlen out = n * 12 →
       iq_decompressor_selector.decompress sd out payload c =
         Ok (concat (map (reference_block c q qs) (seqZ 0 n)))).
Proof.
  intros HC HD Ht Hw Hn Hiq Hq HQ. injection HC as <-. injection HD as <-.
  rewrite uplane.prb_size_value by lia. destruct c as [ty w]. cbn [data_width compr_type] in *.
  destruct ty; try done.
  - cbn [is_compression_param_present]. rewrite Z.add_0_r. by apply none_contract.
  - by apply bfp_contract.
Qed.

(** The exponent of a block is its first octet. *)
Lemma exponent_octet c data i : compr_type c = BFP → 1 <= data_width c <= 16 → 0 <= i →
  block_exponent_at (data_width c) data i = nth (Z.to_nat (i * get_compressed_prb_size c)) data 0.
Proof.
  intros Ht Hw Hi. rewrite uplane.prb_size_value, Ht by lia. cbn [is_compression_param_present]. unfold block_exponent_at, nth_block.
  set (k := Z.to_nat (i * (3 * data_width c + 1))). destruct (drop k data) as [|x l] eqn:E.
  - rewrite take_nil. cbn [nth]. symmetry. apply nth_overflow. assert (HL : length (drop k data) = 0%nat) by (by rewrite E). rewrite length_drop in HL. lia.
  - destruct (Z.to_nat (3 * data_width c + 1)) as [|m] eqn:Em; [lia|]. cbn [take nth]. assert (HN : data !! k = Some x) by (rewrite <- (Nat.add_0_r k), <- lookup_drop, E; done).
    by rewrite (nth_lookup_Some _ _ _ _ HN).
Qed.

(** What the selector can answer to a view that holds the blocks announced. *)
Lemma selector_outcome sd n data c out :
  create_decompressors = Ok sd → compr_type c ≠ reserved → 1 <= data_width c <= 16 → 0 <= n <= 275 →
  bytes_ok data → zlen data = n * get_compressed_prb_size c → zlen out = n * 12 →
  let r := iq_decompressor_selector.decompress sd out data c in
  (∃ samples, r = Ok samples) ∨ (r = Fault FatalError ∧ supported (compr_type c) = false) ∨
  (r = Fault BadShift ∧ compr_type c = BFP ∧
   ∃ i, 0 <= i < n ∧ 32 <= block_exponent_at (data_width c) data i).
Proof.
  intros HD Ht Hw Hn Hb Hd Ho. injection HD as <-. rewrite uplane.prb_size_value in Hd by lia.
  destruct c as [ty w]. cbn [data_width compr_type] in *.
  destruct ty; try done; try (right; left; done); cbn [is_compression_param_present] in Hd.
  - left. rewrite Z.add_0_r in Hd. destruct (none_decompress_spec w n Hw Hn out data Ho Hb Hd) as (q & _ & HN).
    eexists. exact HN.
  - destruct (bfp_decompress_spec w n Hw Hn out data Ho Hb Hd) as (q & _ & HB). cbv zeta.
    change (iq_decompressor_selector.decompress _ out data _)
      with (iq_compression_bfp_impl.decompress out data (mk_compr BFP w)). rewrite HB.
    destruct (forallb _ _) eqn:E; [left; by eexists|]. right. right. split; [done|]. split; [done|].
    destruct (first_false _ n (proj1 Hn) E) as (k & Hk & He & _). exists k. split; [done|]. lia.
Qed.

(** ** Properties *)

(** C35: Packing samples of 1 to 16 bits and reading them back.  From eight bits on any
    samples can be packed; below, packing fails its assertion exactly when the low
    byte of a sample needs more bits than the width, which is so for every negative
    sample.  After packing, reading at a multiple of the width and extending the sign
    gives each sample reduced to the width, the sample itself when it fits; the bits
    after the last sample are zero up to the end of its byte and the bytes after it
    are untouched. *)
Theorem bit_packing_roundtrip w samples bytes :
  1 <= w <= 16 → bytes_ok bytes → zlen bytes < 2 ^ 29 - 1 → zlen samples * w <= 8 * zlen bytes →
  let r := packing.pack_bytes (bit_buffer.from_bytes bytes) samples w in
  (8 <= w → forallb (packing.packable w) samples = true) ∧
  (w < 8 → ∀ s, s ∈ samples → - 2 ^ (w - 1) <= s < 0 → forallb (packing.packable w) samples = false) ∧
  if forallb (packing.packable w) samples then
    ∃ out q, r = Ok (bit_buffer.mk out (8 * zlen bytes)) ∧ bytes_ok out ∧ zlen out = zlen bytes ∧
      quantizer.create w = Ok q ∧
      (∀ k s, samples !! k = Some s →
         (rd ← bit_buffer.reader_from_bytes out;
          v ← packing.unpack_bits rd (Z.of_nat k * w) w; quantizer.sign_extend q v) = Ok (swrap w s) ∧
         (sfits w s → swrap w s = s)) ∧
      (∀ i, zlen samples * w <= i →
         bit_buffer.bit out i =
           if i <? (zlen samples * w + 7) / 8 * 8 then false else bit_buffer.bit bytes i)
  else r = Fault AssertFailed.
Proof.
  intros Hw Hb Hl Hs r. split; [intros; by apply packable_wide|]. split.
  - intros Hw8 s Hin Hneg. apply not_true_iff_false. rewrite forallb_forall. intros H.
    apply list_elem_of_In, H in Hin. unfold packing.packable in Hin.
    assert (2 ^ (w - 1) <= 2 ^ 6) by (apply Z.pow_le_mono_r; lia).
    assert (2 ^ w <= 2 ^ 7) by (apply Z.pow_le_mono_r; lia).
    change (2 ^ 6) with 64 in *. change (2 ^ 7) with 128 in *. lia.
  - destruct (forallb _ samples) eqn:E; [|by apply packing.pack_bytes_fault].
    destruct (packing.pack_bytes_spec w samples bytes Hw Hl Hs E) as (out & HP & HL & HW & HU & HT).
    destruct (quantizer_create_spec w Hw) as [g Hq].
    assert (HZ : zlen out = zlen bytes) by (unfold zlen; lia).
    assert (HB : bytes_ok out).
    { apply packing.bytes_ok_nth. intros i Hi. apply HU; [lia|]. left. by apply bit_buffer.word_ok. }
    eexists out, _. split; [exact HP|]. split; [done|]. split; [done|]. split; [exact Hq|]. split; [|done].
    intros k s Hk. split; [|intros; apply swrap_small; (done || lia)].
    rewrite bit_buffer.reader_from_bytes_spec by lia. cbn [mbind result_bind].
    pose proof (lookup_lt_Some _ _ _ Hk). rewrite read_sample; [|done|done|lia|lia|unfold zlen in *; nia].
    unfold packed_sample. by rewrite (HW _ _ Hk), swrap_wrap.
Qed.

(** ** Messages with the real compressors *)
Section fronthaul.
Import uplane.

(** C33: A User-Plane message built with the no-compression or block floating point
    compressor, whatever the width from 8 to 16, the number of blocks and the header
    variant, is written within its size, and the octets with the direction bit cleared
    decode, with the decompressors of the receiver, to the slot, symbol, blocks and
    parameters given and to samples that are those quantized: reduced to the width
    without compression, and with block floating point cut to a multiple of the step of
    their block's exponent. *)
Theorem fronthaul_roundtrip mode support self p iq buffer iq_scaling sc sd q qs r :
  create_compressors iq_scaling = Ok sc → create_decompressors = Ok sd →
  message_ok mode support self p → decoder_ok self → sect_type p = type_1 → zlen iq = nof_prb p * 12 →
  let c := compression_params p in
  supported (compr_type c) = true → 8 <= data_width c → quantizer.create (quantizer_width c) = Ok q →
  quantizer.to_fixed_point q (nof_prb p * 24) (float_samples iq) iq_scaling = Ok qs →
  let n := get_header_size mode c + nof_prb p * get_compressed_prb_size c in
  n <= zlen buffer →
  let samples := concat (map (reference_block c q qs) (seqZ 0 (nof_prb p))) in
  ∃ tail s, build_message (compressor := selector_compressor sc) mode support buffer iq p =
      Ok (n, (144 :: tail) ++ drop (Z.to_nat n) buffer) ∧
    decode (decompressor := selector_decompressor sd) self (mk_results r []) (16 :: tail) =
      Ok (true, mk_results (mk_decoded uplink s standard_channel_filter (symbol_id p))
                  [expected_section p samples]) ∧
    slot_point.wf s ∧ slot_point.numerology s = to_numerology_value (scs self) ∧
    slot_point.sfn s = slot_point.sfn (slot p) mod 256 ∧
    slot_point.subframe_index s = slot_point.subframe_index (slot p) ∧
    slot_point.subframe_slot_index s = slot_point.subframe_slot_index (slot p).
Proof.
  intros HC HD Hm Hok Ht Hiq c Hsup Hw Hq HQ n Hn samples.
  pose proof Hm as (_ & _ & _ & _ & _ & Hp & _ & Hw' & _). fold c in Hw'.
  destruct (selector_roundtrip sc sd iq_scaling c iq q qs (nof_prb p)) as (payload & HB & HZ & HCP & HDP);
    try done; try lia.
  destruct (uplane_roundtrip (compressor := selector_compressor sc) (decompressor := selector_decompressor sd)
    mode support self p iq buffer payload samples r) as (tail & HBuild & _ & s & HDec & Hs);
    try done.
  - apply HDP. unfold zlen. rewrite length_replicate. lia.
  - fold c. rewrite HZ. done.
  - exists tail, s. split; [|done]. unfold n. by rewrite <- HZ.
Qed.

(** C34: Whatever octets arrive, a decoder with the decompressors of the receiver returns,
    and accepts only a message with one section under an accepted header, or the header is
    accepted and one of the sections the message holds is the cause: its compression
    header, or the configuration, names a method that is not implemented and the application
    exits, or it is compressed with block floating point and the exponent octet of one of
    its blocks is 32 or more, which the decompressor shifts by.  With static parameters and no
    compression it always returns. *)
Theorem fronthaul_decode sd self p message :
  create_decompressors = Ok sd → decoder_ok self → bytes_ok message → zlen message < 2 ^ 32 →
  (∀ c, static_params self = Some c → compr_type c ≠ reserved ∧ 1 <= data_width c) →
  let h := cplane.wire_header_of message in
  let r := decode (decompressor := selector_decompressor sd) self (mk_results p []) message in
  ((∃ valid res, r = Ok (valid, res) ∧ (valid = true → accepted_as self h res)) ∨
   (header_accepted self h ∧ ∃ blocks c data, section_in self (drop 4 message) blocks c data ∧
      ((r = Fault FatalError ∧ supported (compr_type c) = false) ∨
       (r = Fault BadShift ∧ compr_type c = BFP ∧
        ∃ i, 0 <= i < blocks ∧ 32 <= nth (Z.to_nat (i * get_compressed_prb_size c)) data 0)))) ∧
  (∀ w, static_params self = Some (mk_compr none w) → ∃ valid res, r = Ok (valid, res)).
Proof.
  intros HD Hok Hb Hl Hst h r.
  destruct (uplane_decode_total (decompressor := selector_decompressor sd) self p message Hok Hb Hl)
    as [Hret|(Hacc & f & n & data & c & HR & HF & HZ & Hn & HB & Hfrom & HI)].
  { split; [by left|]. intros w _. destruct Hret as (v & res & HR & _). eauto. }
  assert (Hc : compr_type c ≠ reserved ∧ 1 <= data_width c <= 16).
  { unfold params_from in Hfrom. destruct Hok as (_ & _ & Hs).
    destruct (static_params self) as [c'|] eqn:E; [|done]. subst c'. destruct (Hst c eq_refl).
    split; [done|lia]. }
  assert (Hnone : supported (compr_type c) = false ∨ compr_type c = BFP →
    ∀ w, static_params self = Some (mk_compr none w) → ∃ valid res, r = Ok (valid, res)).
  { intros H w Hw. unfold params_from in Hfrom. rewrite Hw in Hfrom. subst c. by destruct H. }
  destruct (selector_outcome sd n data c (replicate (Z.to_nat (n * 12)) (mk_cbf16 0 0))
    HD (proj1 Hc) (proj2 Hc) Hn HB HZ) as [(s & HO)|[[HO Hs]|(HO & Hs & i & Hi & He)]].
  { unfold zlen. rewrite length_replicate. lia. }
  all: change (iq_decompressor_selector.decompress sd _ data c)
    with (iq_decompress (IqDecompressor := selector_decompressor sd) (n * 12) data c) in HO; rewrite HF in HO.
  - done.
  - injection HO as ->. split; [|by apply Hnone; left]. right. split; [exact Hacc|]. exists n, c, data. split; [exact HI|]. left. by split.
  - injection HO as ->. split; [|by apply Hnone; right]. right. split; [exact Hacc|]. exists n, c, data. split; [exact HI|]. right. split; [exact HR|]. split; [done|].
    exists i. split; [done|]. by rewrite <- exponent_octet by (done || lia).
Qed.

End fronthaul.

(** ** Examples *)
Module compression_examples.
Import uplane.

Lemma bfp_block_exponent_witness :
  (∃ e, iq_compression_bfp_impl.block_exponent (seqZ (-700) 24) 9 = Ok e ∧ sfits 9 ((-700) ≫ e)) ∧
  iq_compression_bfp_impl.block_exponent (replicate 24 (-32768)) 9 = Ok 0.
Proof.
  destruct (bfp_block_exponent (seqZ (-700) 24) 9) as [H1 _];
    [lia|reflexivity|apply Forall_forall; intros s Hs%elem_of_seqZ; unfold_fits; lia|].
  destruct (bfp_block_exponent (replicate 24 (-32768)) 9) as [_ H2];
    [lia|reflexivity|apply Forall_replicate; unfold_fits; lia|].
  split.
  - destruct H1 as (e & HE & _ & HF & _).
    + exists (-700). split; [apply elem_of_seqZ; lia|lia].
    + exists e. split; [exact HE|]. apply (HF (-700)), elem_of_seqZ. lia.
  - apply H2. intros s Hs%elem_of_replicate_inv. exact Hs.
Defined.

Lemma bit_packing_roundtrip_witness :
  ∃ out q, packing.pack_bytes (bit_buffer.from_bytes (replicate 4 255)) [-3; 200; -256] 9 =
      Ok (bit_buffer.mk out 32) ∧
    (rd ← bit_buffer.reader_from_bytes out;
     v ← packing.unpack_bits rd 18 9; quantizer.sign_extend q v) = Ok (-256).
Proof.
  destruct (bit_packing_roundtrip 9 [-3; 200; -256] (replicate 4 255)) as (_ & _ & H);
    [lia|repeat constructor; vm_compute; discriminate|vm_compute; reflexivity|vm_compute; discriminate|].
  destruct H as (out & q & HP & _ & _ & _ & HR & _). exists out, q. split; [exact HP|].
  exact (proj1 (HR 2%nat (-256) eq_refl)).
Defined.

(** One block of halves and quarters, 9 bits. *)
Definition example_iq : list cbf16_t := replicate 12 (mk_cbf16 0x3f00 0xbe80).
Definition example_bfp : uplane_message_params :=
  mk_params downlink (slot_point.mk 1 10275) standard_channel_filter 5 1 9 type_1 (mk_compr BFP 9).
Definition q16 : quantizer.t := quantizer.mk 16 0 (f32_sub (f32_of_Z (2 ^ 15)) (f32_of_Z 1)).
Definition example_qs : list Z := concat (replicate 12 [16384; -8192]).
Definition example_compressors : list implementation :=
  [generic_none (f32_of_Z 1); generic_bfp (f32_of_Z 1); death; death; death; death; death].

Lemma fronthaul_roundtrip_witness :
  ∃ tail s, build_message (compressor := selector_compressor example_compressors)
      cplane.dynamic_compression true (replicate 40 0) example_iq example_bfp =
      Ok (38, (144 :: tail) ++ [0; 0]) ∧
    decode (decompressor := selector_decompressor example_compressors)
      raw_samples.example_decoder (mk_results raw_samples.no_params []) (16 :: tail) =
      Ok (true, mk_results (mk_decoded uplink s standard_channel_filter 9)
                  [expected_section example_bfp example_iq]).
Proof.
  destruct (fronthaul_roundtrip cplane.dynamic_compression true raw_samples.example_decoder example_bfp
    example_iq (replicate 40 0) (f32_of_Z 1) example_compressors example_compressors q16 example_qs
    raw_samples.no_params) as (tail & s & HB & HD & _).
  - vm_compute. reflexivity.
  - vm_compute. reflexivity.
  - split; [slot_point.solve_wf|]. split; [reflexivity|]. simpl. split_and!; (lia || done).
  - split; [reflexivity|]. simpl. split; [lia|exact I].
  - reflexivity.
  - reflexivity.
  - reflexivity.
  - vm_compute. discriminate.
  - vm_compute. reflexivity.
  - vm_compute. reflexivity.
  - vm_compute. discriminate.
  - exists tail, s. split; [exact HB|]. exact HD.
Defined.

(** A block floating point section of one block: with an exponent of 3 the message is accepted,
    with one of 32 the section is the cause of the fault. *)
Definition one_block (exponent : Z) : list Z := [16; 1; 0; 0; 0; 0; 0; 1; 0x11; 0; exponent; 0; 0; 0].
Lemma fronthaul_decode_witness :
  let r message := decode (decompressor := selector_decompressor example_compressors) raw_samples.example_decoder (mk_results raw_samples.no_params []) message in
  (∃ res, r (one_block 3) = Ok (true, res) ∧ accepted_as raw_samples.example_decoder (cplane.wire_header_of (one_block 3)) res) ∧
  r (one_block 32) = Fault BadShift ∧
  ∃ blocks c data i, section_in raw_samples.example_decoder (drop 4 (one_block 32)) blocks c data ∧ compr_type c = BFP ∧
    0 <= i < blocks ∧ 32 <= nth (Z.to_nat (i * get_compressed_prb_size c)) data 0.
Proof.
  intros r.
  assert (H3 : match r (one_block 3) with Ok (v, _) => v | Fault _ => false end = true) by (vm_compute; reflexivity).
  assert (H32 : r (one_block 32) = Fault BadShift) by (vm_compute; reflexivity).
  split; [|split; [exact H32|]].
  - destruct (fronthaul_decode example_compressors raw_samples.example_decoder raw_samples.no_params (one_block 3)) as [[(v & res & HR & HA)|(_ & b & c & d & _ & [[HR _]|[HR _]])] _].
    + vm_compute. reflexivity.
    + split; [reflexivity|]. simpl. split; [lia|exact I].
    + repeat constructor; vm_compute; discriminate.
    + reflexivity.
    + intros c [=].
    + fold (r (one_block 3)) in HR. rewrite HR in H3. subst v. exists res. split; [exact HR|exact (HA eq_refl)].
    + fold (r (one_block 3)) in HR. rewrite HR in H3. discriminate H3.
    + fold (r (one_block 3)) in HR. rewrite HR in H3. discriminate H3.
  - destruct (fronthaul_decode example_compressors raw_samples.example_decoder raw_samples.no_params (one_block 32)) as [[(v & res & HR & _)|(_ & b & c & d & HI & [[HR _]|(_ & HB & i & Hi & He)])] _].
    + vm_compute. reflexivity.
    + split; [reflexivity|]. simpl. split; [lia|exact I].
    + repeat constructor; vm_compute; discriminate.
    + reflexivity.
    + intros c [=].
    + fold (r (one_block 32)) in HR. rewrite HR in H32. discriminate H32.
    + fold (r (one_block 32)) in HR. rewrite HR in H32. discriminate H32.
    + exists b, c, d, i. split; [exact HI|]. split; [exact HB|]. split; [exact Hi|exact He].
Defined.

(** Both faults are reached by a message of a few octets: one that announces block
    scaling, and one block floating point block with exponent 32. *)
Example received_unsupported_method :
  decode (decompressor := selector_decompressor example_compressors) raw_samples.example_decoder
    (mk_results raw_samples.no_params []) [16; 1; 0; 0; 0; 0; 0; 1; 0x12; 0; 0; 0; 0] = Fault FatalError.
Proof. vm_compute. reflexivity. Qed.

Example received_large_exponent :
  decode (decompressor := selector_decompressor example_compressors) raw_samples.example_decoder
    (mk_results raw_samples.no_params []) [16; 1; 0; 0; 0; 0; 0; 1; 0x11; 0; 32; 0; 0; 0] = Fault BadShift.
Proof. vm_compute. reflexivity. Qed.

(** A block at negative full scale is compressed to zeros. *)
Example full_scale_block_lost :
  iq_compression_bfp_impl.compress_prb_generic (replicate 28 255) (replicate 24 (-32768)) 9 =
    Ok (replicate 28 0).
Proof. vm_compute. reflexivity. Qed.

End compression_examples.
