(* ===== verification/Ecpri.v ===== *)
(** * Ecpri: eCPRI packet builder and decoders

    Models lib/ofh/ecpri/ecpri_packet_builder_impl.cpp and
    ecpri_packet_decoder_impl.cpp, with the two decoders that use and ignore the
    payload size of the header, and the structures of
    include/srsran/ofh/ecpri/ecpri_packet_properties.h. *)

From S2P Require Export OfhBase.

Module ecpri.

Definition ECPRI_PROTOCOL_REVISION : Z := 1.
Definition ECPRI_COMMON_HEADER_SIZE : Z := 4.
Definition ECPRI_IQ_DATA_PACKET_FIELDS_SIZE : Z := 4.
Definition ECPRI_REALTIME_CONTROL_PACKET_FIELDS_SIZE : Z := 4.

Inductive message_type : Type := iq_data | rt_control_data.
Definition message_type_value (m : message_type) : Z :=
  match m with iq_data => 0x00 | rt_control_data => 0x02 end.

(** [msg_type] is the octet received: the cast to the enumeration accepts any. *)
Record common_header := mk_header {
  revision : Z; is_last_packet : bool; msg_type : Z; payload_size : Z }.
Record realtime_control_parameters := mk_rt { rtc_id : Z; rt_seq_id : Z }.
Record iq_data_parameters := mk_iq { pc_id : Z; seq_id : Z }.

(** [std::variant<realtime_control_parameters, iq_data_parameters>] *)
Inductive type_parameters : Type :=
| rt_parameters (p : realtime_control_parameters)
| iq_parameters (p : iq_data_parameters).

Record packet_parameters := mk_packet { header : common_header; type_params : type_parameters }.

(** ** The builder *)

Definition get_header_size (m : message_type) : Z :=
  match m with
  | rt_control_data => ECPRI_COMMON_HEADER_SIZE + ECPRI_REALTIME_CONTROL_PACKET_FIELDS_SIZE
  | iq_data => ECPRI_COMMON_HEADER_SIZE + ECPRI_IQ_DATA_PACKET_FIELDS_SIZE
  end.

Definition get_first_byte_in_common_header (concatenate : bool) : result Z :=
  assume (negb concatenate) AssertFailed;;
  let header := wrap 8 (Z.lor 0 (wrap 8 ECPRI_PROTOCOL_REVISION ≪ 4)) in
  Ok (wrap 8 (Z.lor header (if concatenate then 1 else 0))).

(** Both packets: the type and the two identifiers differ. *)
Definition build_packet (ty : message_type) (id seq : Z) (buffer : list Z) : result (list Z) :=
  let payload_size := wrap 32 (wrap 32 (zlen buffer) - ECPRI_COMMON_HEADER_SIZE) in
  serializer.on_buffer buffer (λ s,
    first ← get_first_byte_in_common_header false;
    s ← serializer.write_u8 s first;
    s ← serializer.write_u8 s (message_type_value ty);
    s ← serializer.write_u16 s (wrap 16 payload_size);
    s ← serializer.write_u16 s id;
    serializer.write_u16 s seq).

Definition build_control_packet (buffer : list Z) (p : realtime_control_parameters) : result (list Z) :=
  build_packet rt_control_data (rtc_id p) (rt_seq_id p) buffer.
Definition build_data_packet (buffer : list Z) (p : iq_data_parameters) : result (list Z) :=
  build_packet iq_data (pc_id p) (seq_id p) buffer.

(** ** The decoders *)

Definition deserialize_header (d : deserializer.t) : result (common_header * deserializer.t) :=
  '(value, d) ← deserializer.read_u8 d;
  '(ty, d) ← deserializer.read_u8 d;
  '(size, d) ← deserializer.read_u16 d;
  Ok (mk_header (value ≫ 4) (Z.land value 1 =? 0) ty size, d).

Definition is_header_valid (h : common_header) : bool :=
  if negb (revision h =? ECPRI_PROTOCOL_REVISION) then false
  else if negb (is_last_packet h) then false
  else true.

Definition deserialize_iq_data_parameters (d : deserializer.t) : result (iq_data_parameters * deserializer.t) :=
  '(pc, d) ← deserializer.read_u16 d;
  '(seq, d) ← deserializer.read_u16 d;
  Ok (mk_iq pc seq, d).

Definition deserialize_rt_control_parameters (d : deserializer.t)
    : result (realtime_control_parameters * deserializer.t) :=
  '(rtc, d) ← deserializer.read_u16 d;
  '(seq, d) ← deserializer.read_u16 d;
  Ok (mk_rt rtc seq, d).

Definition decode_header (packet : list Z) (params : packet_parameters)
    : result (list Z * packet_parameters) :=
  if wrap 32 (zlen packet) <? ECPRI_COMMON_HEADER_SIZE then Ok ([], params) else
  '(h, d) ← deserialize_header (deserializer.init packet);
  let params := mk_packet h (type_params params) in
  if negb (is_header_valid h) then Ok ([], params) else
  payload ← subspan packet (deserializer.get_offset d) (deserializer.remaining_bytes d);
  Ok (payload, params).

(** The two overriders of [decode_payload]. *)
Inductive payload_size_policy : Type := use_header_payload_size | ignore_header_payload_size.

Definition payload_count (policy : payload_size_policy) (h : common_header) (fields : Z)
    (d : deserializer.t) : Z :=
  match policy with
  | use_header_payload_size => wrap 32 (payload_size h - fields)
  | ignore_header_payload_size => deserializer.remaining_bytes d
  end.

Definition decode_payload (policy : payload_size_policy) (packet : list Z) (params : packet_parameters)
    : result (list Z * packet_parameters) :=
  let h := header params in
  if match policy with
     | use_header_payload_size => wrap 32 (zlen packet) <? payload_size h
     | ignore_header_payload_size => false
     end
  then Ok ([], params) else
  let d := deserializer.init packet in
  if msg_type h =? message_type_value iq_data then
    '(p, d) ← deserialize_iq_data_parameters d;
    payload ← subspan packet (deserializer.get_offset d)
                (payload_count policy h ECPRI_IQ_DATA_PACKET_FIELDS_SIZE d);
    Ok (payload, mk_packet h (iq_parameters p))
  else if msg_type h =? message_type_value rt_control_data then
    '(p, d) ← deserialize_rt_control_parameters d;
    payload ← subspan packet (deserializer.get_offset d)
                (payload_count policy h ECPRI_REALTIME_CONTROL_PACKET_FIELDS_SIZE d);
    Ok (payload, mk_packet h (rt_parameters p))
  else Ok ([], params).

Definition decode (policy : payload_size_policy) (packet : list Z) (params : packet_parameters)
    : result (list Z * packet_parameters) :=
  '(payload, params) ← decode_header packet params;
  match payload with
  | [] => Ok ([], params)
  | _ => decode_payload policy payload params
  end.

(** ** Lemmas *)

(** The eight octets in front of the payload. *)
Definition header_octets (ty : message_type) (size id seq : Z) : list Z :=
  [16] ++ [message_type_value ty] ++ be_bytes 2 (wrap 16 size) ++ be_bytes 2 id ++ be_bytes 2 seq.

Lemma length_header_octets ty size id seq : length (header_octets ty size id seq) = 8%nat.
Proof. unfold header_octets. by rewrite !be_bytes_2. Qed.

Lemma build_packet_spec ty id seq buffer :
  8 <= zlen buffer < 2 ^ 32 →
  build_packet ty id seq buffer =
    Ok (header_octets ty (zlen buffer - 4) id seq ++ drop 8 buffer).
Proof.
  intros Hb. unfold build_packet, ECPRI_COMMON_HEADER_SIZE.
  rewrite (wrap_small 32 (zlen buffer)), (wrap_small 32 (_ - 4)) by (rewrite ?wrap_small; lia_fits).
  apply serializer.on_buffer_emits; [|apply length_header_octets|lia|lia].
  unfold serializer.write_u8, serializer.write_u16.
  change (get_first_byte_in_common_header false) with (Ok 16 : result Z). cbn [mbind result_bind].
  unfold header_octets. solve_emits.
Qed.

(** ** What the decoders compute *)

Definition header_of (a ty c e : Z) : common_header :=
  mk_header (a / 16) (a mod 2 =? 0) ty (256 * c + e).

Lemma ecpri_header_spec a ty c e l params :
  u8 a → zlen (a :: ty :: c :: e :: l) < 2 ^ 32 →
  decode_header (a :: ty :: c :: e :: l) params =
    Ok (if is_header_valid (header_of a ty c e) then l else [],
        mk_packet (header_of a ty c e) (type_params params)).
Proof.
  intros Ha Hl. pose proof (zlen_nonneg l). rewrite !zlen_cons in Hl.
  unfold decode_header, ECPRI_COMMON_HEADER_SIZE.
  rewrite wrap_small by (rewrite !zlen_cons; lia_fits).
  rewrite (proj2 (Z.ltb_ge _ _)) by (rewrite !zlen_cons; lia).
  destruct (deserializer.reader_init_wf (a :: ty :: c :: e :: l)) as [Hw Hr]; [rewrite !zlen_cons; lia|].
  unfold deserialize_header. do 3 read_field.
  assert (HH : mk_header (a ≫ 4) (Z.land a 1 =? 0) ty (256 * c + e) = header_of a ty c e).
  { unfold header_of. assert (Z.land a 1 = a mod 2) as -> by exact (land_mask 1 a ltac:(lia)).
    by rewrite Z.shiftr_div_pow2 by lia. }
  rewrite HH. destruct (is_header_valid (header_of a ty c e)); [|done]. cbn [negb].
  change (a :: ty :: c :: e :: l) with (deserializer.data (deserializer.init (a :: ty :: c :: e :: l))).
  rewrite <- Hdata, <- Hdata0, <- Hdata1, deserializer.subspan_remaining by done.
  by rewrite Hr0.
Qed.

(** The two identifiers and the payload. *)
Definition payload_of (policy : payload_size_policy) (h : common_header) (l : list Z) : result (list Z) :=
  match policy with
  | use_header_payload_size =>
      if payload_size h <? 4 then Fault AssertFailed else Ok (take (Z.to_nat (payload_size h - 4)) l)
  | ignore_header_payload_size => Ok l
  end.

Definition too_large (policy : payload_size_policy) (h : common_header) (l : list Z) : bool :=
  match policy with use_header_payload_size => zlen l <? payload_size h | _ => false end.

Definition supported_type (ty : Z) : bool := (ty =? 0) || (ty =? 2).

Definition parameters_of (ty id seq : Z) : type_parameters :=
  if ty =? 0 then iq_parameters (mk_iq id seq) else rt_parameters (mk_rt id seq).

Lemma decode_payload_spec policy i j k m l params :
  let packet := i :: j :: k :: m :: l in
  let h := header params in
  zlen packet < 2 ^ 32 → u16 (payload_size h) →
  decode_payload policy packet params =
    if too_large policy h packet || negb (supported_type (msg_type h)) then Ok ([], params) else
    payload ← payload_of policy h l;
    Ok (payload, mk_packet h (parameters_of (msg_type h) (256 * i + j) (256 * k + m))).
Proof.
  intros packet h Hl Hs. unfold decode_payload. fold h. pose proof (zlen_nonneg packet).
  rewrite wrap_small by lia_fits.
  fold (too_large policy h packet). destruct (too_large policy h packet) eqn:HT; [done|]. cbn [orb].
  destruct (deserializer.reader_init_wf packet Hl) as [Hw Hr].
  assert (HV : ∀ d, deserializer.wf d → deserializer.rest d = l → deserializer.data d = packet →
    subspan packet (deserializer.get_offset d) (payload_count policy h 4 d) = payload_of policy h l).
  { intros d Hd Hrd Hdd. unfold payload_count, payload_of, packet in *. rewrite !zlen_cons in *. destruct policy.
    - rewrite <- Hdd. pose proof (wrap_fits 32 (payload_size h - 4) ltac:(lia)) as HF.
      rewrite deserializer.subspan_rest by (done || (unfold_fits; lia)). rewrite Hrd.
      unfold too_large in HT. rewrite !zlen_cons in HT.
      destruct (Z.ltb_spec (payload_size h) 4).
      + unfold wrap. unfold_fits. rewrite (proj2 (Z.leb_gt _ _)) by lia. done.
      + rewrite wrap_small by lia_fits. by rewrite (proj2 (Z.leb_le _ _)) by lia.
    - rewrite <- Hdd, deserializer.subspan_remaining by done. by rewrite Hrd. }
  unfold packet in Hr at 2.
  unfold supported_type, parameters_of, deserialize_iq_data_parameters, deserialize_rt_control_parameters.
  cbn [message_type_value]. destruct (Z.eqb_spec (msg_type h) 0); [|destruct (Z.eqb_spec (msg_type h) 2); [|done]].
  all: do 2 read_field; cbn [orb negb]; rewrite HV; (done || by rewrite Hdata0, Hdata).
Qed.

(** Fewer than the four octets of the identifiers: the reads run past the end. *)
Lemma decode_payload_short policy packet params :
  zlen packet < 4 →
  decode_payload policy packet params =
    if too_large policy (header params) packet || negb (supported_type (msg_type (header params)))
    then Ok ([], params) else Fault OutOfBounds.
Proof.
  intros Hl. unfold decode_payload. set (h := header params). pose proof (zlen_nonneg packet).
  rewrite wrap_small by lia_fits.
  fold (too_large policy h packet). destruct (too_large policy h packet); [done|]. cbn [orb].
  unfold supported_type, deserialize_iq_data_parameters, deserialize_rt_control_parameters.
  cbn [message_type_value]. destruct (Z.eqb_spec (msg_type h) 0); [|destruct (Z.eqb_spec (msg_type h) 2); [|done]].
  all: cbn [orb negb]; destruct packet as [|i [|j [|k [|m l]]]]; try reflexivity;
    rewrite !zlen_cons in Hl; pose proof (zlen_nonneg l); lia.
Qed.

(** A packet both decoders can make something of. *)
Definition supported (packet : list Z) : Prop :=
  nth 0 packet 0 / 16 = 1 ∧ nth 0 packet 0 mod 2 = 0 ∧ supported_type (nth 1 packet 0) = true.
Definition size_field (packet : list Z) : Z := 256 * nth 2 packet 0 + nth 3 packet 0.

Lemma valid_header_iff a ty c e :
  is_header_valid (header_of a ty c e) = true ↔ a / 16 = 1 ∧ a mod 2 = 0.
Proof.
  unfold is_header_valid, header_of, ECPRI_PROTOCOL_REVISION. cbn [revision is_last_packet].
  destruct (Z.eqb_spec (a / 16) 1), (Z.eqb_spec (a mod 2) 0); cbn [negb]; naive_solver.
Qed.

(** Decoding what the builder wrote. *)
Lemma packet_decoded policy ty id seq buffer params :
  8 <= zlen buffer < 2 ^ 32 → (policy = use_header_payload_size → zlen buffer - 4 < 2 ^ 16) →
  u16 id → u16 seq →
  let packet := header_octets ty (zlen buffer - 4) id seq ++ drop 8 buffer in
  zlen packet = zlen buffer ∧ drop 8 packet = drop 8 buffer ∧
  decode policy packet params =
    Ok (drop 8 buffer, mk_packet (mk_header 1 true (message_type_value ty) ((zlen buffer - 4) mod 2 ^ 16))
                         (parameters_of (message_type_value ty) id seq)).
Proof.
  intros Hb Hp Hi Hs packet.
  assert (Hz : zlen packet = zlen buffer).
  { unfold packet, zlen in *. rewrite length_app, length_header_octets, length_drop. lia. }
  split; [done|]. split; [by apply drop_app_length'; rewrite length_header_octets|].
  unfold decode, packet, header_octets in *. rewrite !be_bytes_2 in *. cbn [app] in *.
  rewrite ecpri_header_spec by (lia_fits || lia). cbn [mbind result_bind].
  rewrite (proj2 (valid_header_iff _ _ _ _)) by (split; reflexivity).
  cbn iota. rewrite decode_payload_spec by
    (cbn [header payload_size header_of]; rewrite ?zlen_cons in *; unfold wrap; unfold_fits; lia).
  cbn [header].
  assert (too_large policy (header_of 16 (message_type_value ty) (wrap 16 (zlen buffer - 4) / 256 mod 256)
    (wrap 16 (zlen buffer - 4) mod 256)) ((id / 256) mod 256 :: id mod 256 :: (seq / 256) mod 256 ::
    seq mod 256 :: drop 8 buffer) = false) as ->.
  { unfold too_large. destruct policy; [|done]. cbn [payload_size header_of]. rewrite !zlen_cons in *.
    rewrite wrap_small by (specialize (Hp eq_refl); lia_fits). lia. }
  assert (supported_type (message_type_value ty) = true) as HS by by destruct ty.
  cbn [msg_type header_of]. rewrite HS. cbn [orb negb].
  assert (HP : payload_of policy (header_of 16 (message_type_value ty) ((wrap 16 (zlen buffer - 4) / 256) mod 256)
    (wrap 16 (zlen buffer - 4) mod 256)) (drop 8 buffer) = Ok (drop 8 buffer)).
  { unfold payload_of. destruct policy; [|done]. cbn [payload_size header_of].
    rewrite wrap_small by (specialize (Hp eq_refl); lia_fits). specialize (Hp eq_refl).
    rewrite (proj2 (Z.ltb_ge _ _)) by lia. rewrite take_ge; [done|].
    rewrite length_drop. unfold zlen in *. lia. }
  rewrite HP. cbn [mbind result_bind]. unfold_fits.
  replace (256 * ((id / 256) mod 256) + id mod 256) with id by lia.
  replace (256 * ((seq / 256) mod 256) + seq mod 256) with seq by lia.
  do 3 f_equal. unfold header_of, wrap. change (2 ^ 16) with 65536. f_equal; lia.
Qed.

(** An eCPRI packet built around any payload is decoded to that payload and
    the identifiers it was built with, whatever the rest of the buffer held.  The
    decoder that ignores the size field does so for every length; the one that
    uses it does as long as the size fits the 16 bits of the field. *)
Theorem ecpri_roundtrip policy buffer d c params :
  8 <= zlen buffer < 2 ^ 32 → (policy = use_header_payload_size → zlen buffer - 4 < 2 ^ 16) →
  u16 (pc_id d) → u16 (seq_id d) → u16 (rtc_id c) → u16 (rt_seq_id c) →
  (∃ packet, build_data_packet buffer d = Ok packet ∧ zlen packet = zlen buffer ∧
     drop 8 packet = drop 8 buffer ∧
     decode policy packet params =
       Ok (drop 8 buffer, mk_packet (mk_header 1 true 0 ((zlen buffer - 4) mod 2 ^ 16)) (iq_parameters d))) ∧
  (∃ packet, build_control_packet buffer c = Ok packet ∧ zlen packet = zlen buffer ∧
     drop 8 packet = drop 8 buffer ∧
     decode policy packet params =
       Ok (drop 8 buffer, mk_packet (mk_header 1 true 2 ((zlen buffer - 4) mod 2 ^ 16)) (rt_parameters c))).
Proof.
  intros Hb Hp D1 D2 C1 C2. unfold build_data_packet, build_control_packet.
  rewrite !build_packet_spec by done. split; eexists; (split; [done|]).
  - destruct d. by apply packet_decoded.
  - destruct c. by apply packet_decoded.
Qed.

Lemma ecpri_roundtrip_witness :
  ∃ packet, build_data_packet (replicate 8 0 ++ [1; 2; 3]) (mk_iq 5 256) = Ok packet ∧
    decode use_header_payload_size packet (mk_packet (mk_header 0 false 9 9) (rt_parameters (mk_rt 0 0))) =
      Ok ([1; 2; 3], mk_packet (mk_header 1 true 0 7) (iq_parameters (mk_iq 5 256))).
Proof.
  destruct (ecpri_roundtrip use_header_payload_size (replicate 8 0 ++ [1; 2; 3]) (mk_iq 5 256) (mk_rt 0 0)
    (mk_packet (mk_header 0 false 9 9) (rt_parameters (mk_rt 0 0)))) as [(packet & HB & _ & _ & HD) _].
  - vm_compute. split; [discriminate|reflexivity].
  - intros _. reflexivity.
  - vm_compute. split; [discriminate|reflexivity].
  - vm_compute. split; [discriminate|reflexivity].
  - vm_compute. split; [discriminate|reflexivity].
  - vm_compute. split; [discriminate|reflexivity].
  - exists packet. split; [exact HB|exact HD].
Defined.

(** The first four octets decide, then the rest. *)
Lemma ecpri_decode_spec policy a ty c e l params :
  bytes_ok [a; ty; c; e] → zlen (a :: ty :: c :: e :: l) < 2 ^ 32 →
  let h := header_of a ty c e in
  decode policy (a :: ty :: c :: e :: l) params =
    if negb (is_header_valid h) then Ok ([], mk_packet h (type_params params))
    else match l with
         | [] => Ok ([], mk_packet h (type_params params))
         | _ => if too_large policy h l || negb (supported_type ty) then Ok ([], mk_packet h (type_params params))
                else match l with
                     | i :: j :: k :: m :: rest =>
                         payload ← payload_of policy h rest;
                         Ok (payload, mk_packet h (parameters_of ty (256 * i + j) (256 * k + m)))
                     | _ => Fault OutOfBounds
                     end
         end.
Proof.
  intros Hb Hl h. assert (Ha : u8 a) by by inversion Hb.
  assert (Hs : u16 (payload_size h)).
  { unfold h, header_of. cbn [payload_size]. apply (Forall_app _ [a; ty] [c; e]) in Hb as [_ Hb].
    inversion_clear Hb as [|?? Hc Hb']. inversion_clear Hb'. unfold_fits. lia. }
  unfold decode. rewrite ecpri_header_spec by done. fold h. cbn [mbind result_bind].
  destruct (is_header_valid h); [|done]. cbn [negb]. rewrite !zlen_cons in Hl.
  destruct l as [|i [|j [|k [|m rest]]]]; [done|..];
    first [rewrite decode_payload_short by done; done | rewrite decode_payload_spec by (done || lia); done].
Qed.

(** The common header and the two identifiers, as the octets of a packet give them. *)
Definition packet_header (packet : list Z) : common_header := header_of (nth 0 packet 0) (nth 1 packet 0) (nth 2 packet 0) (nth 3 packet 0).
Definition packet_ids (packet : list Z) : type_parameters :=
  parameters_of (nth 1 packet 0) (256 * nth 4 packet 0 + nth 5 packet 0) (256 * nth 6 packet 0 + nth 7 packet 0).

(** C37: Decoding arbitrary octets, case by case.  Fewer than four octets are refused and the
    parameters are left alone.  A packet of another revision, one that is not the last of its
    message or of another type, one without an octet behind the common header and, for the
    decoder that uses it, one with a larger size field than there are octets, are refused with
    the header noted.  Any other packet of eight octets or more gives its header, its two
    identifiers and its payload: all octets behind the eighth, or the size field less four of
    them.  Two kinds of packet are not survived: one that ends inside the identifiers is read
    past its end, and one whose size field is below four makes the decoder that uses the field
    fail an assertion. *)
Theorem ecpri_decode_outcomes policy packet params :
  bytes_ok packet → zlen packet < 2 ^ 32 →
  (zlen packet < 4 → decode policy packet params = Ok ([], params)) ∧
  (4 <= zlen packet → ¬ supported packet ∨ zlen packet = 4 ∨ (policy = use_header_payload_size ∧ zlen packet - 4 < size_field packet) →
     decode policy packet params = Ok ([], mk_packet (packet_header packet) (type_params params))) ∧
  (supported packet → 8 <= zlen packet → (policy = use_header_payload_size → 4 <= size_field packet <= zlen packet - 4) →
     decode policy packet params =
       Ok (match policy with
           | ignore_header_payload_size => drop 8 packet
           | use_header_payload_size => take (Z.to_nat (size_field packet - 4)) (drop 8 packet)
           end, mk_packet (packet_header packet) (packet_ids packet))) ∧
  (decode policy packet params = Fault OutOfBounds ↔
     supported packet ∧ 4 < zlen packet < 8 ∧
     (policy = use_header_payload_size → size_field packet <= zlen packet - 4)) ∧
  (decode policy packet params = Fault AssertFailed ↔
     supported packet ∧ 8 <= zlen packet ∧ policy = use_header_payload_size ∧ size_field packet < 4).
Proof.
  intros Hb Hl. unfold supported, size_field, packet_header, packet_ids.
  destruct packet as [|a [|ty [|c [|e l]]]].
  1-4: change (decode policy _ params) with (Ok ([] : list Z, params)); unfold zlen; simpl;
    split_and!; (naive_solver lia).
  apply (Forall_app _ [a; ty; c; e] l) in Hb as [Hb _]. cbn [nth].
  rewrite ecpri_decode_spec by done. cbv zeta. pose proof (valid_header_iff a ty c e) as HV.
  pose proof (zlen_nonneg l) as H0. rewrite !zlen_cons in *. split; [intros; lia|].
  destruct (is_header_valid (header_of a ty c e)); cbn [negb];
    [|split_and!; [done|naive_solver|split; [done|naive_solver]..]].
  destruct (proj1 HV eq_refl) as [V1 V2]. clear HV.
  change (drop 8 (a :: ty :: c :: e :: l)) with (drop 4 l).
  destruct (supported_type ty) eqn:HS; cbn [negb]; [rewrite orb_false_r|rewrite orb_true_r].
  2: { destruct l; split_and!; naive_solver. }
  unfold too_large.
  destruct policy; cbn [payload_size header_of].
  - destruct (Z.ltb_spec (zlen l) (256 * c + e)).
    { destruct l; split_and!; naive_solver lia. }
    destruct l as [|i [|j [|k [|m rest]]]]; rewrite ?zlen_cons in *; change (@zlen Z []) with 0 in *;
      [split_and!; naive_solver lia..|]. pose proof (zlen_nonneg rest).
    unfold payload_of. cbn [payload_size header_of drop nth].
    destruct (Z.ltb_spec (256 * c + e) 4); cbn [mbind result_bind]; split_and!; naive_solver lia.
  - destruct l as [|i [|j [|k [|m rest]]]]; rewrite ?zlen_cons in *; change (@zlen Z []) with 0 in *;
      [split_and!; naive_solver lia..|]. pose proof (zlen_nonneg rest).
    unfold payload_of. cbn [mbind result_bind drop nth]. split_and!; naive_solver lia.
Qed.

(** A packet of three payload octets and one more behind it, one whose size field is 2, and one
    that ends inside its identifiers. *)
Lemma ecpri_decode_outcomes_witness :
  let before := mk_packet (mk_header 0 false 9 9) (rt_parameters (mk_rt 0 0)) in
  decode use_header_payload_size [16; 0; 0; 7; 1; 2; 3; 4; 7; 8; 9; 10] before = Ok ([7; 8; 9], mk_packet (mk_header 1 true 0 7) (iq_parameters (mk_iq 258 772))) ∧
  decode use_header_payload_size [16; 0; 0; 2; 0; 1; 0; 0; 7] before = Fault AssertFailed ∧
  decode ignore_header_payload_size [16; 0; 0; 2; 0; 1] before = Fault OutOfBounds.
Proof.
  intros before. split; [|split].
  - apply (ecpri_decode_outcomes use_header_payload_size [16; 0; 0; 7; 1; 2; 3; 4; 7; 8; 9; 10] before).
    + repeat constructor; vm_compute; discriminate.
    + reflexivity.
    + unfold supported. split_and!; vm_compute; reflexivity.
    + vm_compute. discriminate.
    + intros _. vm_compute. split; discriminate.
  - apply (ecpri_decode_outcomes use_header_payload_size [16; 0; 0; 2; 0; 1; 0; 0; 7]).
    + repeat constructor; vm_compute; discriminate.
    + reflexivity.
    + unfold supported. split_and!; vm_compute; (reflexivity || discriminate).
  - apply (ecpri_decode_outcomes ignore_header_payload_size [16; 0; 0; 2; 0; 1]).
    + repeat constructor; vm_compute; discriminate.
    + reflexivity.
    + unfold supported. split_and!; try discriminate; vm_compute; reflexivity.
Defined.

End ecpri.
