(* ===== verification/Ethernet.v ===== *)
(** * Ethernet: frame builders, frame decoder and the pool of receive buffers

    Models lib/ofh/ethernet/ethernet_frame_builder_impl.cpp,
    vlan_ethernet_frame_builder_impl.cpp, vlan_ethernet_frame_decoder_impl.cpp,
    ethernet_rx_buffer_impl.cpp and ethernet_rx_buffer_pool.h. *)

From S2P Require Export OfhBase.

Module ethernet.

Definition ETH_ADDR_LEN : Z := 6.
Definition VLAN_TPID : Z := 0x8100.
Definition ETH_HEADER_SIZE : Z := ETH_ADDR_LEN * 2 + 2.
Definition ETH_VLAN_TAG_SIZE : Z := 2 * 2.
Definition MIN_ETH_LEN : Z := 64.

Record vlan_frame_params := mk_params {
  mac_dst_address : list Z; mac_src_address : list Z; tci : option Z; eth_type : Z }.

(** ** The builders *)

Definition get_header_size : Z := ETH_HEADER_SIZE.

Definition build_frame (eth_params : vlan_frame_params) (buffer : list Z) : result (list Z) :=
  serializer.on_buffer buffer (λ s,
    s ← serializer.write_bytes s (mac_dst_address eth_params);
    s ← serializer.write_bytes s (mac_src_address eth_params);
    serializer.write_u16 s (eth_type eth_params)).

Definition vlan_get_header_size : Z := ETH_HEADER_SIZE + ETH_VLAN_TAG_SIZE.

(** [tci.value()] throws when the field is not set. *)
Definition vlan_build_frame (eth_params : vlan_frame_params) (buffer : list Z) : result (list Z) :=
  serializer.on_buffer buffer (λ s,
    s ← serializer.write_bytes s (mac_dst_address eth_params);
    s ← serializer.write_bytes s (mac_src_address eth_params);
    s ← serializer.write_u16 s VLAN_TPID;
    t ← (match tci eth_params with Some t => Ok t | None => Fault BadOptionalAccess end);
    s ← serializer.write_u16 s t;
    serializer.write_u16 s (eth_type eth_params)).

(** ** The decoder *)

Definition decode (frame : list Z) (eth_params : vlan_frame_params) : result (list Z * vlan_frame_params) :=
  if zlen frame <? MIN_ETH_LEN then Ok ([], eth_params) else
  let d := deserializer.init frame in
  '(dst, d) ← deserializer.read_bytes d ETH_ADDR_LEN;
  '(src, d) ← deserializer.read_bytes d ETH_ADDR_LEN;
  '(ty, d) ← deserializer.read_u16 d;
  payload ← span_last frame (wrap 64 (zlen frame - deserializer.get_offset d));
  Ok (payload, mk_params dst src (tci eth_params) ty).

(** ** Lemmas *)

Definition params_ok (p : vlan_frame_params) : Prop :=
  zlen (mac_dst_address p) = 6 ∧ zlen (mac_src_address p) = 6 ∧ u16 (eth_type p).

Definition header_octets (p : vlan_frame_params) (tag : list Z) : list Z :=
  mac_dst_address p ++ mac_src_address p ++ tag ++ be_bytes 2 (eth_type p).

Lemma build_frame_spec p buffer : params_ok p → 14 <= zlen buffer →
  build_frame p buffer = Ok (header_octets p [] ++ drop 14 buffer).
Proof.
  intros (Hd & Hs & _) Hb. apply serializer.on_buffer_emits; [| |lia|lia].
  - unfold serializer.write_u16, header_octets. cbn [app]. solve_emits.
  - unfold header_octets, zlen in *. rewrite !length_app, be_bytes_2. simpl. lia.
Qed.

Lemma vlan_build_frame_spec p t buffer : params_ok p → tci p = Some t → 18 <= zlen buffer →
  vlan_build_frame p buffer =
    Ok (header_octets p (be_bytes 2 VLAN_TPID ++ be_bytes 2 t) ++ drop 18 buffer).
Proof.
  intros (Hd & Hs & _) Ht Hb. apply serializer.on_buffer_emits; [| |lia|lia].
  - unfold serializer.write_u16, header_octets. rewrite Ht, <- app_assoc. cbn [mbind result_bind]. solve_emits.
  - unfold header_octets, zlen in *. rewrite !length_app, !be_bytes_2. simpl. lia.
Qed.

Lemma vlan_no_tci p buffer : params_ok p → tci p = None → 14 <= zlen buffer →
  vlan_build_frame p buffer = Fault BadOptionalAccess.
Proof.
  intros (Hd & Hs & _) Hn Hb. unfold vlan_build_frame, serializer.on_buffer, serializer.write_u16.
  pose proof (serializer.emits_run (λ s, s ← serializer.write_bytes s (mac_dst_address p);
    s ← serializer.write_bytes s (mac_src_address p); serializer.write_bytes s (be_bytes 2 VLAN_TPID))
    (mac_dst_address p ++ mac_src_address p ++ be_bytes 2 VLAN_TPID) buffer) as HE.
  assert (Hz : zlen (mac_dst_address p ++ mac_src_address p ++ be_bytes 2 VLAN_TPID) = 14)
    by (rewrite !zlen_app, be_bytes_2; change (zlen [_; _]) with 2; lia).
  rewrite Hz in HE. specialize (HE ltac:(solve_emits) Hb ltac:(lia)).
  apply bind_Ok in HE as (s1 & -> & HE). cbn [mbind result_bind].
  apply bind_Ok in HE as (s2 & -> & HE). cbn [mbind result_bind]. rewrite HE. cbn [mbind result_bind].
  by rewrite Hn.
Qed.

(** What the decoder makes of any frame of the minimum length. *)
Lemma frame_decode_spec frame q dst src a b payload :
  frame = dst ++ src ++ a :: b :: payload → zlen dst = 6 → zlen src = 6 → 50 <= zlen payload →
  zlen frame < 2 ^ 32 →
  decode frame q = Ok (payload, mk_params dst src (tci q) (256 * a + b)).
Proof.
  intros Hf Hd Hs Hp Hl. destruct (deserializer.reader_init_wf frame Hl) as [Hw Hr].
  assert (Hz : zlen frame = 14 + zlen payload) by (rewrite Hf, !zlen_app, !zlen_cons; lia).
  unfold decode, MIN_ETH_LEN. rewrite (proj2 (Z.ltb_ge _ _)) by lia.
  assert (Hdl : Z.to_nat 6 = length dst) by (unfold zlen in *; lia).
  assert (Hsl : Z.to_nat 6 = length src) by (unfold zlen in *; lia).
  destruct (deserializer.read_bytes_rest _ 6 Hw) as (d1 & H1 & Hw1 & Hr1 & Hd1 & Ho1); [rewrite Hr; lia|].
  unfold ETH_ADDR_LEN. rewrite H1. cbn [mbind result_bind].
  rewrite Hr, Hf, Hdl, drop_app_length in Hr1.
  destruct (deserializer.read_bytes_rest d1 6 Hw1) as (d2 & H2 & Hw2 & Hr2 & Hd2 & Ho2);
    [rewrite Hr1, zlen_app; pose proof (zlen_nonneg (a :: b :: payload)); lia|].
  rewrite H2. cbn [mbind result_bind]. rewrite Hr1, Hsl, drop_app_length in Hr2.
  destruct (deserializer.read_u16_rest d2 a b payload Hw2 Hr2) as (d3 & H3 & Hw3 & Hr3 & Hd3 & Ho3).
  rewrite H3. cbn [mbind result_bind]. unfold deserializer.get_offset. rewrite Ho3, Ho2, Ho1.
  cbn [deserializer.init deserializer.offset]. rewrite wrap_small by lia_fits.
  unfold span_last, subspan. do 3 pass_assume. cbn [mbind result_bind].
  rewrite Hr1, Hr. do 2 f_equal.
  - replace (Z.to_nat (zlen frame - (zlen frame - (0 + 6 + 6 + 2)))) with (length (dst ++ src ++ [a; b]))
      by (rewrite !length_app; cbn [length]; lia).
    rewrite Hf at 2. replace (dst ++ src ++ a :: b :: payload) with ((dst ++ src ++ [a; b]) ++ payload)
      by (by rewrite <- !app_assoc).
    rewrite drop_app_length. apply take_ge. unfold zlen in *. lia.
  - rewrite Hsl at 2. rewrite Hdl, Hf, !take_app_length. done.
Qed.

Lemma decode_built dst src ty payload q :
  zlen dst = 6 → zlen src = 6 → u16 ty → 50 <= zlen payload < 2 ^ 32 - 14 →
  decode (dst ++ src ++ be_bytes 2 ty ++ payload) q = Ok (payload, mk_params dst src (tci q) ty).
Proof.
  intros Hd Hs Ht Hp. unfold_fits. rewrite be_bytes_2. cbn [app].
  rewrite (frame_decode_spec _ q dst src ((ty / 256) mod 256) (ty mod 256) payload);
    [|done..|lia|rewrite !zlen_app, !zlen_cons; lia].
  do 3 f_equal. lia.
Qed.

(** A frame as the network card hands it over, its VLAN tag stripped. *)
Definition strip_tag (frame : list Z) : list Z := take 12 frame ++ drop 16 frame.

(** Ethernet frames.  Both builders write a header in front of the payload
    and nothing else.  A frame that reaches the minimum length is decoded to its
    payload, addresses and type, directly when it has no VLAN tag and after the
    network card stripped it when it has one; a tag that is still there is taken
    for the type.  Without tag control information the VLAN builder throws. *)
Theorem ethernet_roundtrip p t buffer q :
  params_ok p → 64 <= zlen buffer < 2 ^ 32 →
  (∃ frame, build_frame p buffer = Ok frame ∧ zlen frame = zlen buffer ∧
     decode frame q = Ok (drop 14 buffer, mk_params (mac_dst_address p) (mac_src_address p) (tci q) (eth_type p))) ∧
  (tci p = None → vlan_build_frame p buffer = Fault BadOptionalAccess) ∧
  (tci p = Some t → ∃ frame, vlan_build_frame p buffer = Ok frame ∧ zlen frame = zlen buffer ∧
     (68 <= zlen buffer →
      decode (strip_tag frame) q =
        Ok (drop 18 buffer, mk_params (mac_dst_address p) (mac_src_address p) (tci q) (eth_type p))) ∧
     ∃ payload, decode frame q = Ok (payload, mk_params (mac_dst_address p) (mac_src_address p) (tci q) VLAN_TPID)).
Proof.
  intros Hok Hb. pose proof Hok as (Hd & Hs & Ht).
  assert (Hlen : ∀ n, (n <= 64)%nat → zlen (drop n buffer) = zlen buffer - Z.of_nat n)
    by (intros n Hn; unfold zlen in *; rewrite length_drop; lia).
  pose proof (Hlen 14%nat ltac:(lia)) as L14. pose proof (Hlen 18%nat ltac:(lia)) as L18. clear Hlen.
  split; [|split].
  - rewrite build_frame_spec by (done || lia). unfold header_octets. cbn [app]. rewrite <- !app_assoc.
    eexists. split; [done|]. rewrite decode_built by (done || lia).
    rewrite !zlen_app, be_bytes_2. change (zlen [_; _]) with 2. split; [lia|done].
  - intros Hn. apply vlan_no_tci; (done || lia).
  - intros Htci. rewrite (vlan_build_frame_spec p t) by (done || lia). unfold header_octets.
    rewrite <- !app_assoc. eexists. split; [done|]. split.
    { rewrite !zlen_app, !be_bytes_2. change (zlen [_; _]) with 2. lia. }
    split.
    + intros H68. unfold strip_tag. rewrite !be_bytes_2. cbn [app].
      replace (take 12 _) with (mac_dst_address p ++ mac_src_address p); [|symmetry].
      2: { rewrite app_assoc. apply take_app_length'. rewrite length_app. unfold zlen in *. lia. }
      rewrite (app_assoc _ (mac_src_address p)).
      rewrite (drop_app_ge _ _ 16) by (rewrite length_app; unfold zlen in *; lia).
      replace (16 - length (mac_dst_address p ++ mac_src_address p))%nat with 4%nat
        by (rewrite length_app; unfold zlen in *; lia).
      cbn [drop]. rewrite <- app_assoc. rewrite <- (decode_built _ _ _ _ q Hd Hs Ht) by lia.
      by rewrite be_bytes_2.
    + eexists. rewrite <- (decode_built _ _ VLAN_TPID _ q Hd Hs); [done|vm_compute; split; [discriminate|done]|].
      rewrite !zlen_app, !be_bytes_2. change (zlen [_; _]) with 2. lia.
Qed.

Lemma ethernet_roundtrip_witness :
  ∃ frame, vlan_build_frame (mk_params [1;2;3;4;5;6] [7;8;9;10;11;12] (Some 33) 0xaefe) (replicate 70 1) = Ok frame ∧
    decode (strip_tag frame) (mk_params [] [] None 0) =
      Ok (replicate 52 1, mk_params [1;2;3;4;5;6] [7;8;9;10;11;12] None 0xaefe).
Proof.
  destruct (ethernet_roundtrip (mk_params [1;2;3;4;5;6] [7;8;9;10;11;12] (Some 33) 0xaefe) 33 (replicate 70 1)
    (mk_params [] [] None 0)) as (_ & _ & H).
  - split; [reflexivity|]. split; [reflexivity|]. vm_compute. split; [discriminate|reflexivity].
  - vm_compute. split; [discriminate|reflexivity].
  - destruct (H eq_refl) as (frame & HB & _ & HD & _). exists frame. split; [exact HB|].
    apply HD. vm_compute. discriminate.
Defined.

End ethernet.

(** ** The pool of receive buffers

    The lock-free queue of free identifiers is a bounded first-in first-out queue;
    its operations are atomic. *)
Module rx_pool.

Definition ETH_BUFFER_POOL_SIZE : Z := 4096000.

Record pool := mk_pool { number_of_buffers : Z; entries : list (list Z); free_list : list Z }.

Definition try_push (p : pool) (id : Z) : option pool :=
  if zlen (free_list p) <? number_of_buffers p
  then Some (mk_pool (number_of_buffers p) (entries p) (free_list p ++ [id])) else None.

(** [while (!free_list.try_push(id))]: with nobody else popping, the fuel bounds
    the attempts. *)
Fixpoint push_loop (fuel : nat) (p : pool) (id : Z) : result pool :=
  match try_push p id, fuel with
  | Some p', _ => Ok p'
  | None, O => Fault OutOfFuel
  | None, S fuel => push_loop fuel p id
  end.

(** The constructor; [divide_ceil] in 32 bits. *)
Definition create (buffer_size : Z) : result pool :=
  if buffer_size =? 0 then Fault DivByZero else
  let n := wrap 32 (ETH_BUFFER_POOL_SIZE + wrap 32 (buffer_size - 1)) / buffer_size in
  let p := mk_pool n (replicate (Z.to_nat n) []) [] in
  fold_result (λ p i,
    push_loop 0 (mk_pool n (<[Z.to_nat i := replicate (Z.to_nat buffer_size) 0]> (entries p)) (free_list p)) i)
    p (seqZ 0 n).

Definition get_data (p : pool) (id : Z) : result (list Z) :=
  assume (id <? zlen (entries p)) AssertFailed;;
  vec_at (entries p) id.

Definition free (p : pool) (buffer_id : Z) : result pool := push_loop 0 p buffer_id.

(** [ethernet_rx_buffer_impl]; an identifier of -1 marks a moved-from object. *)
Record rx_buffer := mk_buffer { id : Z; size : Z }.

Definition new_buffer (p : pool) (buffer_id : Z) : result rx_buffer :=
  d ← get_data p buffer_id; Ok (mk_buffer buffer_id (wrap 32 (zlen d))).

(** [None] for the error value. *)
Definition reserve (p : pool) : result (option rx_buffer * pool) :=
  match free_list p with
  | [] => Ok (None, p)
  | i :: l =>
      let p := mk_pool (number_of_buffers p) (entries p) l in
      b ← new_buffer p i; Ok (Some b, p)
  end.

Definition moved_from : rx_buffer := mk_buffer (-1) 0.

(** Constructor and assignment from an rvalue: the object and what is left of the
    other one. *)
Definition move_construct (other : rx_buffer) : rx_buffer * rx_buffer := (other, moved_from).
Definition move_assign (self other : rx_buffer) : rx_buffer * rx_buffer := (mk_buffer (id other) (size other), moved_from).

Definition data (p : pool) (b : rx_buffer) : result (list Z) :=
  assume (0 <=? id b) AssertFailed;;
  d ← get_data p (id b); span_first d (size b).

Definition storage (p : pool) (b : rx_buffer) : result (list Z) :=
  assume (0 <=? id b) AssertFailed;; get_data p (id b).

Definition resize (p : pool) (b : rx_buffer) (used_size : Z) : result rx_buffer :=
  assume (0 <=? id b) AssertFailed;;
  d ← get_data p (id b);
  assume (used_size <=? zlen d) AssertFailed;;
  Ok (mk_buffer (id b) used_size).

Definition destroy (p : pool) (b : rx_buffer) : result pool :=
  if 0 <=? id b then free p (id b) else Ok p.

(** ** The pool and its users

    The objects alive, in the order of their creation, and what a program can do
    with them.  A reception ([recvfrom] with the size of the storage) writes to the
    storage and sets the used size. *)
Record system := mk_system { the_pool : pool; buffers : list rx_buffer }.

Inductive operation : Type :=
| op_reserve
| op_receive (i : nat) (bytes : list Z)
| op_move_construct (i : nat)
| op_move_assign (i j : nat)
| op_destroy (i : nat).

Definition step (s : system) (o : operation) : result system :=
  let p := the_pool s in
  let bs := buffers s in
  match o with
  | op_reserve =>
      '(b, p) ← reserve p;
      Ok (mk_system p (match (b : option rx_buffer) with Some b => bs ++ [b] | None => bs end))
  | op_receive i bytes =>
      match bs !! i with
      | Some b =>
          d ← storage p b;
          let bytes := take (length d) bytes in
          d' ← mem_write d 0 bytes;
          let p := mk_pool (number_of_buffers p) (<[Z.to_nat (id b) := d']> (entries p)) (free_list p) in
          b' ← resize p b (wrap 32 (zlen bytes));
          Ok (mk_system p (<[i := b']> bs))
      | None => Ok s
      end
  | op_move_construct i =>
      match bs !! i with
      | Some b => let '(n, o) := move_construct b in Ok (mk_system p (<[i := o]> bs ++ [n]))
      | None => Ok s
      end
  | op_move_assign i j =>
      match bs !! i, bs !! j with
      | Some a, Some b => let '(n, o) := move_assign a b in Ok (mk_system p (<[j := o]> (<[i := n]> bs)))
      | _, _ => Ok s
      end
  | op_destroy i =>
      match bs !! i with
      | Some b => p ← destroy p b; Ok (mk_system p (delete i bs))
      | None => Ok s
      end
  end.

Definition run (s : system) (ops : list operation) : result system := fold_result step s ops.

(** The identifiers held by the objects alive. *)
Definition live_ids (bs : list rx_buffer) : list Z := filter (λ i, 0 <= i) (map id bs).

Definition buffer_ok (n sz : Z) (b : rx_buffer) : Prop :=
  b = moved_from ∨ 0 <= id b < n ∧ 0 <= size b <= sz.

Record inv (n sz : Z) (leaked : list Z) (s : system) : Prop := {
  inv_number : number_of_buffers (the_pool s) = n;
  inv_entries : zlen (entries (the_pool s)) = n;
  inv_size : Forall (λ d, zlen d = sz) (entries (the_pool s));
  inv_ids : free_list (the_pool s) ++ live_ids (buffers s) ++ leaked ≡ₚ seqZ 0 n;
  inv_buffers : Forall (buffer_ok n sz) (buffers s) }.

Lemma live_ids_app a b : live_ids (a ++ b) = live_ids a ++ live_ids b.
Proof. unfold live_ids. by rewrite map_app, filter_app. Qed.

Lemma live_ids_one b : live_ids [b] = if decide (0 <= id b) then [id b] else [].
Proof. unfold live_ids. cbn [map]. unfold filter. simpl. by case_decide. Qed.

Lemma split_at (bs : list rx_buffer) i b : bs !! i = Some b →
  ∃ l r, bs = l ++ b :: r ∧ delete i bs = l ++ r ∧ ∀ x, <[i := x]> bs = l ++ x :: r.
Proof.
  intros H. exists (take i bs), (drop (S i) bs). split; [by rewrite take_drop_middle|].
  split; [by rewrite delete_take_drop|]. intros x. rewrite insert_take_drop; [done|].
  by apply lookup_lt_Some in H.
Qed.

Lemma get_data_ok n sz leaked s i : inv n sz leaked s → 0 <= i < n →
  ∃ d, get_data (the_pool s) i = Ok d ∧ entries (the_pool s) !! Z.to_nat i = Some d ∧ zlen d = sz.
Proof.
  intros [? He Hs _ _] Hi. unfold get_data. pass_assume. unfold vec_at.
  rewrite (proj2 (Z.leb_le _ _)) by lia.
  destruct (lookup_lt_is_Some_2 (entries (the_pool s)) (Z.to_nat i)) as [d Hd]; [unfold zlen in He; lia|].
  rewrite Hd. exists d. split; [done|]. split; [done|]. by apply (Forall_lookup_1 _ _ _ _ Hs Hd).
Qed.

(** No object that holds a buffer is assigned to. *)
Definition keeps_buffers (s : system) (o : operation) : Prop :=
  match o with op_move_assign i j => i ≠ j ∧ ∀ b, buffers s !! i = Some b → b = moved_from | _ => True end.

(** The object used has been moved from. *)
Definition uses_moved (s : system) (o : operation) : Prop :=
  match o with op_receive i _ => buffers s !! i = Some moved_from | _ => False end.

Definition step_outcome (n sz : Z) (leaked : list Z) (s : system) (o : operation) : Prop :=
  (∃ s' leaked', step s o = Ok s' ∧ inv n sz leaked' s' ∧ (keeps_buffers s o → leaked' = leaked)) ∨
  (step s o = Fault AssertFailed ∧ uses_moved s o).

Lemma inv_zlen n sz leaked s : inv n sz leaked s →
  zlen (free_list (the_pool s)) + zlen (live_ids (buffers s)) + zlen leaked = n.
Proof.
  intros [_ He _ HP _]. pose proof (zlen_nonneg (entries (the_pool s))).
  apply Permutation_length in HP. rewrite !length_app, length_seqZ in HP. unfold zlen in *. lia.
Qed.

Lemma reserve_step n sz leaked s : 0 <= sz < 2 ^ 32 → inv n sz leaked s → step_outcome n sz leaked s op_reserve.
Proof.
  intros Hsz Hi. left. cbn [step]. unfold reserve.
  destruct (free_list (the_pool s)) as [|i l] eqn:Hf; cbn [mbind result_bind].
  { exists s, leaked. split; [by destruct s|]. done. }
  pose proof Hi as [Hn He Hs HP Hb]. rewrite Hf in HP.
  assert (Hi' : 0 <= i < n).
  { assert (HI : i ∈ seqZ 0 n) by (rewrite <- HP; set_solver). apply elem_of_seqZ in HI. lia. }
  destruct (get_data_ok _ _ _ _ i Hi Hi') as (d & HD & _ & Hd).
  unfold new_buffer, get_data in *. cbn [entries]. rewrite HD. cbn [mbind result_bind].
  eexists _, leaked. split; [done|]. split; [|done]. split; cbn [the_pool buffers number_of_buffers entries free_list]; try done.
  - rewrite live_ids_app, live_ids_one. cbn [id]. rewrite decide_True by lia.
    rewrite <- HP. solve_Permutation.
  - apply Forall_app. split; [done|]. apply Forall_singleton. right. cbn [id size].
    rewrite Hd, wrap_small by lia_fits. lia.
Qed.

Lemma zlen_insert {A} (l : list A) i x : zlen (<[i := x]> l) = zlen l.
Proof. unfold zlen. by rewrite length_insert. Qed.

Lemma live_ids_middle l b r :
  live_ids (l ++ b :: r) = live_ids l ++ (if decide (0 <= id b) then [id b] else []) ++ live_ids r.
Proof. change (b :: r) with ([b] ++ r). by rewrite !live_ids_app, live_ids_one. Qed.

Lemma receive_step n sz leaked s i bytes :
  0 <= sz < 2 ^ 32 → inv n sz leaked s → step_outcome n sz leaked s (op_receive i bytes).
Proof.
  intros Hsz Hi. unfold step_outcome. cbn [step]. destruct (buffers s !! i) as [b|] eqn:Hb.
  2: { left. by exists s, leaked. }
  pose proof Hi as [Hn He Hs HP Hbs]. destruct (split_at _ _ _ Hb) as (l & r & El & _ & Ei).
  pose proof (Forall_lookup_1 _ _ _ _ Hbs Hb) as [->|[Hid Hbsz]].
  { right. split; [reflexivity|exact Hb]. }
  left. destruct (get_data_ok _ _ _ _ (id b) Hi Hid) as (d & HD & Hl & Hd).
  unfold storage. pass_assume. rewrite HD. cbn [mbind result_bind].
  assert (Htk : (length (take (length d) bytes) <= length d)%nat) by (rewrite length_take; lia).
  unfold mem_write. rewrite (proj2 (Z.leb_le 0 0)), (proj2 (Z.leb_le _ _)) by (unfold zlen in *; lia).
  cbn [andb mbind result_bind]. change (Z.to_nat 0) with 0%nat. rewrite take_0, app_nil_l.
  set (d' := take (length d) bytes ++ drop _ d).
  assert (Hd' : zlen d' = sz) by (unfold d', zlen in *; rewrite length_app, length_drop; lia).
  unfold resize, get_data. cbn [entries]. pass_assume.
  rewrite zlen_insert. pass_assume. unfold vec_at. rewrite (proj2 (Z.leb_le _ _)) by lia.
  rewrite list_lookup_insert_eq by (by apply lookup_lt_Some in Hl). cbn [mbind result_bind].
  assert (Hw : 0 <= wrap 32 (zlen (take (length d) bytes)) <= sz).
  { rewrite wrap_small by (unfold zlen in *; lia_fits). unfold zlen in *. lia. }
  pass_assume. eexists _, leaked. split; [done|]. split; [|done].
  split; cbn [the_pool buffers number_of_buffers entries free_list]; try done.
  - by rewrite zlen_insert.
  - by apply Forall_insert.
  - rewrite Ei, live_ids_middle. cbn [id]. by rewrite <- HP, El, live_ids_middle.
  - apply Forall_insert; [done|]. by right.
Qed.

Lemma move_construct_step n sz leaked s i :
  inv n sz leaked s → step_outcome n sz leaked s (op_move_construct i).
Proof.
  intros Hi. left. cbn [step]. destruct (buffers s !! i) as [b|] eqn:Hb; [|by exists s, leaked].
  destruct (split_at _ _ _ Hb) as (l & r & El & _ & Ei). pose proof Hi as [Hn He Hs HP Hbs].
  eexists _, leaked. split; [done|]. split; [|done]. split; cbn [the_pool buffers]; try done.
  - rewrite Ei, live_ids_app, live_ids_one, live_ids_middle. rewrite El, live_ids_middle in HP.
    rewrite (decide_False (P := 0 <= id moved_from)) by (cbn; lia). rewrite <- HP. solve_Permutation.
  - apply Forall_app. split; [apply Forall_insert; [done|by left]|]. apply Forall_singleton.
    by apply (Forall_lookup_1 _ _ _ _ Hbs Hb).
Qed.

Lemma destroy_step n sz leaked s i :
  inv n sz leaked s → step_outcome n sz leaked s (op_destroy i).
Proof.
  intros Hi. left. cbn [step]. destruct (buffers s !! i) as [b|] eqn:Hb; [|by exists s, leaked].
  destruct (split_at _ _ _ Hb) as (l & r & El & Ed & _). pose proof Hi as [Hn He Hs HP Hbs].
  pose proof (inv_zlen _ _ _ _ Hi) as Hz. rewrite El, live_ids_middle in HP, Hz.
  unfold destroy, free. destruct (Z.leb_spec 0 (id b)) as [H0|H0].
  - rewrite decide_True in HP, Hz by done. rewrite !zlen_app in Hz. change (zlen [_]) with 1 in Hz.
    pose proof (zlen_nonneg (live_ids l)). pose proof (zlen_nonneg (live_ids r)). pose proof (zlen_nonneg leaked).
    cbn [push_loop]. unfold try_push. rewrite (proj2 (Z.ltb_lt _ _)) by lia. cbn [mbind result_bind].
    eexists _, leaked. split; [done|]. split; [|done].
    split; cbn [the_pool buffers number_of_buffers entries free_list]; try done.
    + rewrite Ed, live_ids_app, <- HP. solve_Permutation.
    + by apply Forall_delete.
  - rewrite decide_False in HP by lia. cbn [mbind result_bind]. eexists _, leaked. split; [done|]. split; [|done].
    split; cbn [the_pool buffers]; try done.
    + by rewrite Ed, live_ids_app.
    + by apply Forall_delete.
Qed.

Lemma live_ids_insert bs i a x : bs !! i = Some a →
  live_ids [a] ++ live_ids (<[i := x]> bs) ≡ₚ live_ids [x] ++ live_ids bs.
Proof.
  intros Hb. destruct (split_at _ _ _ Hb) as (l & r & El & _ & Ei). rewrite Ei, El, !live_ids_middle, !live_ids_one.
  solve_Permutation.
Qed.

Lemma move_assign_step n sz leaked s i j :
  inv n sz leaked s → step_outcome n sz leaked s (op_move_assign i j).
Proof.
  intros Hi. left. cbn [step]. destruct (buffers s !! i) as [a|] eqn:Ha; [|by exists s, leaked].
  destruct (buffers s !! j) as [b|] eqn:Hb; [|by exists s, leaked].
  pose proof Hi as [Hn He Hs HP Hbs]. unfold move_assign. replace (mk_buffer (id b) (size b)) with b by by destruct b.
  assert (live_ids [moved_from] = []) as Hm by done.
  assert (∃ c, <[i := b]> (buffers s) !! j = Some c ∧ live_ids [c] ≡ₚ live_ids [b]) as (c & Hc & HC).
  { destruct (decide (i = j)) as [->|Hij]; [|exists b; by rewrite list_lookup_insert_ne].
    exists b. rewrite list_lookup_insert_eq by (by apply lookup_lt_Some in Hb). done. }
  pose proof (live_ids_insert _ _ _ b Ha) as H1. pose proof (live_ids_insert _ _ _ moved_from Hc) as H2.
  rewrite Hm, HC in H2. cbn [app] in H2.
  eexists _, (live_ids [a] ++ leaked). split; [done|]. split.
  - split; cbn [the_pool buffers]; try done.
    + assert (HX : live_ids [a] ++ live_ids (<[j:=moved_from]> (<[i:=b]> (buffers s))) ≡ₚ live_ids (buffers s)).
      { apply (Permutation_app_inv_l (live_ids [b])). rewrite <- H1, <- H2. solve_Permutation. }
      rewrite <- HP, <- HX. solve_Permutation.
    + apply Forall_insert; [|by left]. apply Forall_insert; [done|]. by apply (Forall_lookup_1 _ _ _ _ Hbs Hb).
  - intros [_ Hk]. rewrite (Hk a Ha). done.
Qed.

Lemma step_inv n sz leaked s o : 0 <= sz < 2 ^ 32 → inv n sz leaked s → step_outcome n sz leaked s o.
Proof.
  intros Hsz Hi. destruct o; [by apply reserve_step|by apply receive_step|by apply move_construct_step|
    by apply move_assign_step|by apply destroy_step].
Qed.

(** ** The constructor *)

Lemma create_loop n F : ∀ m k, (k + m = n)%nat →
  fold_result (λ p i,
    push_loop 0 (mk_pool (Z.of_nat n) (<[Z.to_nat i := F]> (entries p)) (free_list p)) i)
    (mk_pool (Z.of_nat n) (replicate k F ++ replicate m []) (seqZ 0 (Z.of_nat k))) (seqZ (Z.of_nat k) (Z.of_nat m)) =
  Ok (mk_pool (Z.of_nat n) (replicate n F) (seqZ 0 (Z.of_nat n))).
Proof.
  induction m as [|m IH]; intros k Hk.
  - replace k with n by lia. rewrite app_nil_r. by rewrite (seqZ_nil _ (Z.of_nat 0)) by lia.
  - rewrite (seqZ_cons _ (Z.of_nat (S m))) by lia. cbn [fold_result entries free_list push_loop].
    unfold try_push. cbn [free_list number_of_buffers entries].
    rewrite (proj2 (Z.ltb_lt _ _)) by (unfold zlen; rewrite length_seqZ; lia). cbn [mbind result_bind].
    rewrite Nat2Z.id. replace (<[k:=F]> (replicate k F ++ replicate (S m) []))
      with (replicate (S k) F ++ replicate m ([] : list Z)).
    2: { rewrite insert_app_r_alt by (rewrite length_replicate; lia).
         rewrite length_replicate, Nat.sub_diag. cbn [replicate insert list_insert].
         change (F :: replicate m []) with ([F] ++ replicate m ([] : list Z)).
         by rewrite app_assoc, <- replicate_cons_app. }
    replace (seqZ 0 (Z.of_nat k) ++ [Z.of_nat k]) with (seqZ 0 (Z.of_nat (S k))).
    2: { replace (Z.of_nat (S k)) with (Z.of_nat k + 1) by lia. rewrite seqZ_app by lia. f_equal. }
    replace (Z.succ (Z.of_nat k)) with (Z.of_nat (S k)) by lia.
    replace (Z.pred (Z.of_nat (S m))) with (Z.of_nat m) by lia. apply IH. lia.
Qed.

Lemma create_spec sz : 0 < sz <= ETH_BUFFER_POOL_SIZE →
  let n := (4096000 + sz - 1) / sz in
  ∃ p, create sz = Ok p ∧ inv n sz [] (mk_system p []).
Proof.
  unfold ETH_BUFFER_POOL_SIZE. intros Hsz. unfold create, ETH_BUFFER_POOL_SIZE.
  rewrite (proj2 (Z.eqb_neq _ _)) by lia. rewrite (wrap_small 32 (sz - 1)), wrap_small by lia_fits.
  replace (4096000 + (sz - 1)) with (4096000 + sz - 1) by lia. set (n := (4096000 + sz - 1) / sz).
  assert (Hn : 0 <= n) by (apply Z.div_pos; lia).
  pose proof (create_loop (Z.to_nat n) (replicate (Z.to_nat sz) 0) (Z.to_nat n) 0 eq_refl) as HL.
  rewrite Z2Nat.id in HL by done. cbn [replicate app Z.of_nat] in HL.
  eexists. split; [exact HL|]. split; cbn [the_pool buffers number_of_buffers entries free_list]; try done.
  - unfold zlen. rewrite length_replicate. lia.
  - apply Forall_replicate. unfold zlen. rewrite length_replicate. lia.
  - by rewrite !app_nil_r.
Qed.

Definition no_assign (o : operation) : Prop := match o with op_move_assign _ _ => False | _ => True end.

(** A program stops where it uses an object that has been moved from. *)
Definition stops_moved (s : system) (ops : list operation) : Prop :=
  ∃ pre i bytes post s', ops = pre ++ op_receive i bytes :: post ∧ run s pre = Ok s' ∧ buffers s' !! i = Some moved_from.

Lemma stops_cons s o s' ops : step s o = Ok s' → stops_moved s' ops → stops_moved s (o :: ops).
Proof.
  intros HS (pre & i & bytes & post & s2 & -> & HR & Hb). exists (o :: pre), i, bytes, post, s2. split; [done|]. split; [|done].
  unfold run in *. cbn [fold_result]. by rewrite HS.
Qed.

Lemma run_inv n sz : 0 <= sz < 2 ^ 32 → ∀ ops leaked s, inv n sz leaked s →
  (∃ s' leaked', run s ops = Ok s' ∧ inv n sz leaked' s' ∧ (Forall no_assign ops → leaked' = leaked)) ∨
  (run s ops = Fault AssertFailed ∧ stops_moved s ops).
Proof.
  intros Hsz. induction ops as [|o ops IH]; intros leaked s Hi; [left; eexists _, _; by split|].
  unfold run. cbn [fold_result]. destruct (step_inv n sz leaked s o Hsz Hi) as [(s' & l' & HS & Hi' & Hk)|[-> Hu]].
  - rewrite HS. cbn [mbind result_bind]. destruct (IH l' s' Hi') as [(s2 & l2 & HR & Hi2 & Hk2)|[HF HM]]; [left|right; split; [done|by eapply stops_cons]].
    exists s2, l2. split; [done|]. split; [done|]. intros HA. inversion_clear HA as [|?? HA1 HA2].
    rewrite Hk2 by done. apply Hk. by destruct o.
  - right. split; [done|]. destruct o; try done. by exists [], i, bytes, ops, s.
Qed.

(** The next buffer of the free list is lent, with its whole storage. *)
Lemma reserve_gives n sz leaked s : 0 <= sz < 2 ^ 32 → inv n sz leaked s →
  match free_list (the_pool s) with
  | [] => step s op_reserve = Ok s
  | i :: l => step s op_reserve = Ok (mk_system (mk_pool (number_of_buffers (the_pool s)) (entries (the_pool s)) l) (buffers s ++ [mk_buffer i sz]))
  end.
Proof.
  intros Hsz Hi. cbn [step]. unfold reserve. destruct (free_list (the_pool s)) as [|i l] eqn:Hf; cbn [mbind result_bind]; [by destruct s|].
  pose proof Hi as [Hn He Hs HP Hb]. rewrite Hf in HP.
  assert (Hi' : 0 <= i < n) by (assert (HI : i ∈ seqZ 0 n) by (rewrite <- HP; set_solver); apply elem_of_seqZ in HI; lia).
  destruct (get_data_ok _ _ _ _ i Hi Hi') as (d & HD & _ & Hd). unfold new_buffer, get_data in *. cbn [entries]. rewrite HD. cbn [mbind result_bind].
  by rewrite Hd, wrap_small by lia_fits.
Qed.

(** C38: The pool of receive buffers, for any buffer size and any program that
    reserves, fills, moves, assigns and destroys buffers.  The run only stops where
    the program fills an object that has been moved from; returning a buffer never
    waits for room in the queue.  Whenever it has not stopped, the buffers in use are
    distinct and not in the free list, each object in use gives access to as many octets
    as its size says, inside its own storage, and the next request is given the first free
    buffer with its whole storage, or nothing if none is free.  No buffer is ever lost as
    long as no object is assigned to. *)
Theorem rx_pool_safe sz ops :
  0 < sz <= ETH_BUFFER_POOL_SIZE →
  ∃ p, create sz = Ok p ∧ number_of_buffers p = (ETH_BUFFER_POOL_SIZE + sz - 1) / sz ∧
    ((run (mk_system p []) ops = Fault AssertFailed ∧ stops_moved (mk_system p []) ops) ∨
     ∃ s, run (mk_system p []) ops = Ok s ∧
       NoDup (free_list (the_pool s) ++ live_ids (buffers s)) ∧
       zlen (free_list (the_pool s)) + zlen (live_ids (buffers s)) <= number_of_buffers p ∧
       (Forall no_assign ops →
          zlen (free_list (the_pool s)) + zlen (live_ids (buffers s)) = number_of_buffers p) ∧
       (∀ b, b ∈ buffers s → b ≠ moved_from →
         ∃ whole d, storage (the_pool s) b = Ok whole ∧ data (the_pool s) b = Ok d ∧
           zlen whole = sz ∧ zlen d = size b ∧ d `prefix_of` whole) ∧
       ∃ s', step s op_reserve = Ok s' ∧
         match free_list (the_pool s) with
         | [] => s' = s
         | i :: l => free_list (the_pool s') = l ∧ buffers s' = buffers s ++ [mk_buffer i sz]
         end).
Proof.
  intros Hsz. destruct (create_spec sz Hsz) as (p & HC & Hi). exists p. split; [done|].
  unfold ETH_BUFFER_POOL_SIZE in *. pose proof (inv_number _ _ _ _ Hi) as HX. cbn [the_pool] in HX. split; [done|].
  destruct (run_inv _ sz ltac:(lia) ops _ _ Hi) as [(s & leaked & HR & Hs & Hk)|HF]; [right|by left].
  exists s. split; [done|]. pose proof Hs as [Hn He Hsz' HP Hb]. pose proof (inv_zlen _ _ _ _ Hs) as HZ.
  pose proof (zlen_nonneg leaked). split; [|split; [lia|split; [|split]]].
  - assert (HN : NoDup ((free_list (the_pool s) ++ live_ids (buffers s)) ++ leaked)).
    { rewrite <- app_assoc, HP. apply NoDup_seqZ. }
    by apply NoDup_app in HN as (HN & _).
  - intros HA. rewrite (Hk HA) in HZ. change (zlen []) with 0 in HZ. lia.
  - intros b Hin Hne. rewrite Forall_forall in Hb. destruct (Hb b Hin) as [->|[Hid Hbs]]; [done|].
    destruct (get_data_ok _ _ _ _ (id b) Hs Hid) as (whole & HD & _ & Hw).
    exists whole, (take (Z.to_nat (size b)) whole). unfold storage, data. rewrite HD.
    pass_assume. split; [done|]. cbn [mbind result_bind]. unfold span_first, subspan. do 3 pass_assume.
    split; [done|]. split; [done|]. split; [unfold zlen in *; rewrite length_take; lia|]. apply prefix_take.
  - pose proof (reserve_gives _ sz leaked s ltac:(lia) Hs) as HG. destruct (free_list (the_pool s)); [by exists s|]. eexists. split; [exact HG|done].
Qed.

(** Two buffers are reserved, the second is filled and moved, the first returned: one of the 427
    is in use, with the two octets received, and the next request is given another. *)
Definition reception : list operation := [op_reserve; op_reserve; op_receive 1 [5; 6]; op_move_construct 1; op_destroy 0].
Lemma reception_runs : match (p ← create 9600; run (mk_system p []) reception) with
  | Ok s => map id (buffers s) = [-1; 1] ∧ map size (buffers s) = [0; 2] ∧ take 1 (free_list (the_pool s)) = [2]
  | Fault _ => False end.
Proof. vm_compute. repeat split. Qed.

Lemma rx_pool_safe_witness :
  ∃ p s s', create 9600 = Ok p ∧ run (mk_system p []) reception = Ok s ∧
    NoDup (free_list (the_pool s) ++ live_ids (buffers s)) ∧ zlen (free_list (the_pool s)) + zlen (live_ids (buffers s)) = 427 ∧
    live_ids (buffers s) = [1] ∧ step s op_reserve = Ok s' ∧ live_ids (buffers s') = [1; 2].
Proof.
  destruct (rx_pool_safe 9600 reception) as (p & HC & HN & HX).
  - unfold ETH_BUFFER_POOL_SIZE. lia.
  - pose proof reception_runs as HR. rewrite HC in HR. cbn [mbind result_bind] in HR. destruct HX as [[HF _]|(s & HS & HD & _ & HE & _ & s' & HS' & HG)].
    + exfalso. rewrite HF in HR. exact HR.
    + rewrite HS in HR. destruct HR as (HI & _ & HL). exists p, s, s'. split; [exact HC|]. split; [exact HS|]. split; [exact HD|].
      split; [rewrite HE; [rewrite HN; reflexivity|repeat (apply Forall_cons_2; [exact I|]); apply Forall_nil_2]|]. unfold live_ids at 1 2. rewrite HI. split; [reflexivity|]. split; [exact HS'|].
      destruct (free_list (the_pool s)) as [|i l]; [discriminate HL|]. injection HL as ->. destruct HG as [_ ->]. rewrite map_app, HI. reflexivity.
Defined.

(** A pool of two four-octet buffers: reserving, filling, moving and destroying. *)
Example small_run :
  let p := mk_pool 2 [[0; 0; 0; 0]; [0; 0; 0; 0]] [0; 1] in
  run (mk_system p []) [op_reserve; op_reserve; op_reserve; op_receive 1 [5; 6]; op_move_construct 1; op_destroy 0] =
    Ok (mk_system (mk_pool 2 [[0; 0; 0; 0]; [5; 6; 0; 0]] [0]) [moved_from; mk_buffer 1 2]).
Proof. vm_compute. reflexivity. Qed.

(** Assigning to an object that holds a buffer loses it. *)
Example assign_leaks :
  let p := mk_pool 2 [[0; 0; 0; 0]; [0; 0; 0; 0]] [0; 1] in
  run (mk_system p []) [op_reserve; op_reserve; op_move_assign 0 1; op_destroy 0; op_destroy 0] =
    Ok (mk_system (mk_pool 2 [[0; 0; 0; 0]; [0; 0; 0; 0]] [1]) []).
Proof. vm_compute. reflexivity. Qed.

End rx_pool.
