(* ===== verification/OfhReceiver.v ===== *)
(** * OfhReceiver: the uplink receive path of the Open Fronthaul

    Models lib/ofh/receiver/ofh_sequence_id_checker_impl.h,
    ofh_rx_window_checker.cpp and ofh_message_receiver.cpp: a frame goes through
    the Ethernet and eCPRI decoders, the sequence identifier check, the reception
    window statistics and the peekers, and ends in one of the two data flows or is
    dropped. *)

From S2P Require Export OfhUplane Ecpri Ethernet.

(** ** Sequence identifiers *)
Module sequence_id_checker.

Definition MAX_SUPPORTED_EAXC_ID_VALUE : Z := 32.
Definition NOF_SEQUENCES_IDENTIFIERS : Z := 1 ≪ 8.
Definition HALF_NOF_SEQUENCES_IDENTIFIERS : Z := Z.quot NOF_SEQUENCES_IDENTIFIERS 2.

(** The bitset and the counters, one per eAxC. *)
Record t := mk { initialized : list bool; counters : list Z }.

Definition init : t := mk (replicate 32 false) (replicate 32 0).

Definition get_nof_skipped_sequence_id (seq_id expected_seq_id : Z) : Z :=
  let a := seq_id - expected_seq_id in
  if HALF_NOF_SEQUENCES_IDENTIFIERS <=? a then a - NOF_SEQUENCES_IDENTIFIERS
  else if a <? - HALF_NOF_SEQUENCES_IDENTIFIERS then a + NOF_SEQUENCES_IDENTIFIERS
  else a.

Definition set_counter (s : t) (eaxc x : Z) : t := mk (initialized s) (<[Z.to_nat eaxc := x]> (counters s)).

Definition update_and_compare_seq_id (s : t) (eaxc seq_id : Z) : result (Z * t) :=
  assume (eaxc <? MAX_SUPPORTED_EAXC_ID_VALUE) AssertFailed;;
  is_set ← vec_at (initialized s) eaxc;
  if negb is_set then
    Ok (0, set_counter (mk (<[Z.to_nat eaxc := true]> (initialized s)) (counters s)) eaxc seq_id)
  else
  c ← vec_at (counters s) eaxc;
  let expected_seq_id := wrap 8 (c + 1) in
  if seq_id =? expected_seq_id then Ok (0, set_counter s eaxc (wrap 8 (c + 1))) else
  let nof_skipped_seq_id := get_nof_skipped_sequence_id seq_id expected_seq_id in
  Ok (nof_skipped_seq_id, if 0 <? nof_skipped_seq_id then set_counter s eaxc seq_id else s).

(** The two implementations: the dummy one reports nothing and keeps no state. *)
Inductive implementation : Type := sequence_id_checker_impl | sequence_id_checker_dummy_impl.
Definition compare_with (i : implementation) (s : t) (eaxc seq_id : Z) : result (Z * t) :=
  match i with
  | sequence_id_checker_impl => update_and_compare_seq_id s eaxc seq_id
  | sequence_id_checker_dummy_impl => Ok (0, s)
  end.

Definition wf (s : t) : Prop :=
  length (initialized s) = 32%nat ∧ length (counters s) = 32%nat ∧ Forall (λ c, u8 c) (counters s).

(** The last identifier accepted of an eAxC. *)
Definition last (s : t) (eaxc : Z) : option Z :=
  match initialized s !! Z.to_nat eaxc with
  | Some true => counters s !! Z.to_nat eaxc
  | _ => None
  end.

Lemma skipped_spec c k seq : u8 c → -127 <= k <= 128 → seq = (c + k) mod 256 →
  get_nof_skipped_sequence_id seq (wrap 8 (c + 1)) = k - 1.
Proof.
  intros Hc Hk ->. unfold get_nof_skipped_sequence_id, HALF_NOF_SEQUENCES_IDENTIFIERS, NOF_SEQUENCES_IDENTIFIERS, wrap.
  change (Z.quot (1 ≪ 8) 2) with 128. change (1 ≪ 8) with 256. change (2 ^ 8) with 256. unfold_fits.
  repeat case_Z; lia.
Qed.

Lemma set_counter_wf s e x : wf s → u8 x → wf (set_counter s e x).
Proof.
  intros (H1 & H2 & H3) Hx. split; [done|]. cbn. split; [by rewrite length_insert|]. by apply Forall_insert.
Qed.

Lemma set_counter_last s e e' x : wf s → 0 <= e < 32 → 0 <= e' →
  last (set_counter s e x) e' =
    if decide (e' = e) then (if decide (last s e = None) then None else Some x) else last s e'.
Proof.
  intros (H1 & H2 & _) He He'. unfold last, set_counter. cbn [initialized counters].
  destruct (decide (e' = e)) as [->|Hne].
  - destruct (lookup_lt_is_Some_2 (counters s) (Z.to_nat e)) as [c Hc]; [lia|].
    rewrite list_lookup_insert_eq by lia. rewrite Hc. by destruct (initialized s !! Z.to_nat e) as [[]|].
  - by rewrite list_lookup_insert_ne by lia.
Qed.

Lemma update_total s eaxc x : wf s → 0 <= eaxc < 32 → u8 x →
  ∃ d s', update_and_compare_seq_id s eaxc x = Ok (d, s') ∧ wf s'.
Proof.
  intros Hw He Hx. pose proof Hw as (H1 & H2 & H3).
  unfold update_and_compare_seq_id, MAX_SUPPORTED_EAXC_ID_VALUE. pass_assume.
  destruct (lookup_lt_is_Some_2 (initialized s) (Z.to_nat eaxc)) as [b Hb]; [lia|].
  rewrite (vec_at_lookup _ _ b) by (done || lia). cbn [mbind result_bind].
  destruct (lookup_lt_is_Some_2 (counters s) (Z.to_nat eaxc)) as [c Hc]; [lia|]. destruct b; cbn [negb].
  - rewrite (vec_at_lookup _ _ c) by (done || lia). cbn [mbind result_bind].
    destruct (x =? _); [|destruct (0 <? _)]; eexists _, _; (split; [done|]); try done;
      apply set_counter_wf; try done. by apply wrap_fits.
  - eexists _, _. split; [done|]. apply set_counter_wf; [|done]. split; [cbn; by rewrite length_insert|done].
Qed.

Lemma compare_total i s eaxc x : wf s → 0 <= eaxc < 32 → u8 x →
  ∃ d s', compare_with i s eaxc x = Ok (d, s') ∧ wf s'.
Proof. destruct i; [apply update_total|]. intros Hw _ _. by eexists _, _. Qed.

(** Sequence identifiers, for every eAxC on its own.  The first identifier is
    accepted.  After [c] was the last accepted, the identifier [k] packets later
    ([k] up to 128, modulo 256) is accepted and reported as [k - 1] lost, and one
    from the same packet or up to 127 packets earlier is reported as negative and
    changes nothing.  The other eAxC values never notice. *)
Theorem sequence_ids s eaxc c k e :
  wf s → 0 <= eaxc < 32 → u8 c → -127 <= k <= 128 → 0 <= e →
  (last s eaxc = None → ∃ s', update_and_compare_seq_id s eaxc c = Ok (0, s') ∧ wf s' ∧
     last s' eaxc = Some c ∧ (e ≠ eaxc → last s' e = last s e)) ∧
  (last s eaxc = Some c → ∃ s', update_and_compare_seq_id s eaxc ((c + k) mod 256) = Ok (k - 1, s') ∧ wf s' ∧
     last s' eaxc = Some (if 1 <=? k then (c + k) mod 256 else c) ∧ (e ≠ eaxc → last s' e = last s e)).
Proof.
  intros Hw He Hc Hk He'. pose proof Hw as (H1 & H2 & H3).
  unfold update_and_compare_seq_id, MAX_SUPPORTED_EAXC_ID_VALUE. pass_assume.
  destruct (lookup_lt_is_Some_2 (initialized s) (Z.to_nat eaxc)) as [b Hb]; [lia|].
  rewrite (vec_at_lookup _ _ b) by (done || lia). cbn [mbind result_bind].
  destruct (lookup_lt_is_Some_2 (counters s) (Z.to_nat eaxc)) as [x Hx]; [lia|].
  assert (HL : last s eaxc = if b then Some x else None) by (unfold last; rewrite Hb; by destruct b).
  rewrite HL. split; intros HE; destruct b; simplify_eq; cbn [negb].
  - set (s1 := mk _ _). assert (Hw1 : wf s1) by (split; [cbn; by rewrite length_insert|done]).
    assert (L1 : last s1 eaxc = Some x).
    { unfold last, s1. cbn [initialized counters]. by rewrite list_lookup_insert_eq by lia. }
    assert (L2 : e ≠ eaxc → last s1 e = last s e).
    { intros Hne. unfold last, s1. cbn [initialized counters]. by rewrite list_lookup_insert_ne by lia. }
    eexists. split; [done|]. split; [by apply set_counter_wf|]. rewrite !set_counter_last by (done || lia).
    rewrite decide_True, L1 by done. split; [done|]. intros Hne. rewrite decide_False by done. by apply L2.
  - rewrite (vec_at_lookup _ _ c) by (done || lia). cbn [mbind result_bind].
    assert (Hset : ∀ y, last (set_counter s eaxc y) eaxc = Some y ∧ (e ≠ eaxc → last (set_counter s eaxc y) e = last s e)).
    { intros y. rewrite !set_counter_last by (done || lia). rewrite decide_True, HL by done. split; [done|].
      intros Hne. by rewrite decide_False. }
    rewrite (skipped_spec c k) by done.
    assert (Hu : u8 ((c + k) mod 256)) by (unfold_fits; lia).
    destruct (Z.eqb_spec ((c + k) mod 256) (wrap 8 (c + 1))) as [E|E].
    + assert (k = 1) as -> by (unfold wrap in E; unfold_fits; lia). rewrite <- E.
      eexists. split; [done|]. split; [by apply set_counter_wf|]. apply Hset.
    + destruct (Z.ltb_spec 0 (k - 1)); eexists; (split; [done|]).
      * split; [by apply set_counter_wf|]. rewrite (proj2 (Z.leb_le _ _)) by lia. apply Hset.
      * rewrite (proj2 (Z.leb_gt _ _)); [by rewrite HL|]. unfold wrap in E. unfold_fits. destruct (decide (k = 1)) as [->|]; [done|lia].
Qed.

Lemma sequence_ids_witness : ∃ s', update_and_compare_seq_id
    (mk (<[3%nat := true]> (replicate 32 false)) (<[3%nat := 254]> (replicate 32 0))) 3 1 = Ok (2, s') ∧ last s' 3 = Some 1.
Proof.
  destruct (sequence_ids (mk (<[3%nat := true]> (replicate 32 false)) (<[3%nat := 254]> (replicate 32 0))) 3 254 3 0)
    as (_ & H).
  - split; [reflexivity|]. split; [reflexivity|]. repeat constructor; vm_compute; discriminate.
  - lia.
  - vm_compute. split; [discriminate|reflexivity].
  - lia.
  - lia.
  - destruct (H eq_refl) as (s' & HU & _ & HL & _). exists s'. split; [exact HU|exact HL].
Defined.

End sequence_id_checker.

(** ** Reception window statistics *)
Module rx_window_checker.

Definition OFH_MAX_NOF_SFN : Z := 256.

(** The members; [printed] collects what [print_statistics] logs: total, early,
    on time and late since the previous line. *)
Record t := mk {
  sym_start : Z; sym_end : Z; nof_symbols_in_one_second : Z; is_disabled : bool; nof_symbols : Z;
  on_time_counter : Z; early_counter : Z; late_counter : Z;
  last_on_time_value_printed : Z; last_early_value_printed : Z; last_late_value_printed : Z;
  count_val : Z; printed : list (Z * Z * Z * Z) }.

Definition with_counters (s : t) (on_time early late : Z) : t :=
  mk (sym_start s) (sym_end s) (nof_symbols_in_one_second s) (is_disabled s) (nof_symbols s)
    on_time early late (last_on_time_value_printed s) (last_early_value_printed s)
    (last_late_value_printed s) (count_val s) (printed s).

Definition increment_on_time_counter (s : t) : t :=
  with_counters s (wrap 64 (on_time_counter s + 1)) (early_counter s) (late_counter s).
Definition increment_early_counter (s : t) : t :=
  with_counters s (on_time_counter s) (wrap 64 (early_counter s + 1)) (late_counter s).
Definition increment_late_counter (s : t) : t :=
  with_counters s (on_time_counter s) (early_counter s) (wrap 64 (late_counter s + 1)).

Definition calculate_ofh_slot_symbol_point (p : slot_symbol_point.t) : result slot_symbol_point.t :=
  ota_slot ← slot_symbol_point.get_slot p;
  ofh_slot ← slot_point.of_slot (slot_point.numerology ota_slot)
               (slot_point.sfn ota_slot mod OFH_MAX_NOF_SFN) (slot_point.slot_index ota_slot);
  i ← slot_symbol_point.get_symbol_index p;
  slot_symbol_point.of_slot ofh_slot i (slot_symbol_point.get_nof_symbols p).

Definition calculate_slot_symbol_point_distance (lhs rhs : slot_symbol_point.t) : result Z :=
  assume (slot_symbol_point.get_numerology rhs =? slot_symbol_point.get_numerology lhs) AssertFailed;;
  assume (slot_symbol_point.get_nof_symbols rhs =? slot_symbol_point.get_nof_symbols lhs) AssertFailed;;
  let n := swrap 32 (wrap 64 (OFH_MAX_NOF_SFN * NOF_SUBFRAMES_PER_FRAME
                              * get_nof_slots_per_subframe (slot_symbol_point.get_numerology rhs)
                              * slot_symbol_point.get_nof_symbols rhs)) in
  a ← sadd 32 (slot_symbol_point.to_uint lhs) (- slot_symbol_point.to_uint rhs);
  if Z.quot n 2 <=? a then sadd 32 a (- n)
  else if a <? Z.quot (- n) 2 then sadd 32 a n
  else Ok a.

(** [rx_window_checker_statistics::print_statistics] *)
Definition log_statistics (s : t) : t :=
  let nof_on_time := wrap 64 (on_time_counter s - last_on_time_value_printed s) in
  let nof_early := wrap 64 (early_counter s - last_early_value_printed s) in
  let nof_late := wrap 64 (late_counter s - last_late_value_printed s) in
  mk (sym_start s) (sym_end s) (nof_symbols_in_one_second s) (is_disabled s) (nof_symbols s)
    (on_time_counter s) (early_counter s) (late_counter s)
    (on_time_counter s) (early_counter s) (late_counter s) (count_val s)
    (printed s ++ [(wrap 64 (nof_on_time + nof_late + nof_early), nof_early, nof_on_time, nof_late)]).

Definition with_nof_symbols (s : t) (n : Z) : t :=
  mk (sym_start s) (sym_end s) (nof_symbols_in_one_second s) (is_disabled s) n
    (on_time_counter s) (early_counter s) (late_counter s) (last_on_time_value_printed s)
    (last_early_value_printed s) (last_late_value_printed s) (count_val s) (printed s).

Definition print_statistics (s : t) : t :=
  let s := with_nof_symbols s (wrap 32 (nof_symbols s + 1)) in
  if negb (nof_symbols s =? nof_symbols_in_one_second s) then s
  else log_statistics (with_nof_symbols s 0).

Definition store_count (s : t) (c : Z) : t :=
  mk (sym_start s) (sym_end s) (nof_symbols_in_one_second s) (is_disabled s) (nof_symbols s)
    (on_time_counter s) (early_counter s) (late_counter s) (last_on_time_value_printed s)
    (last_early_value_printed s) (last_late_value_printed s) c (printed s).

Definition on_new_symbol (s : t) (symbol_point : slot_symbol_point.t) : result t :=
  if is_disabled s then Ok s else
  ota_symbol_point ← calculate_ofh_slot_symbol_point symbol_point;
  Ok (print_statistics (store_count s (slot_symbol_point.to_uint ota_symbol_point))).

Definition update_rx_window_statistics (s : t) (symbol_point : slot_symbol_point.t) : result t :=
  if is_disabled s then Ok s else
  ota_point ← slot_symbol_point.of_count (slot_symbol_point.get_numerology symbol_point) (count_val s)
                (slot_symbol_point.get_nof_symbols symbol_point);
  diff ← calculate_slot_symbol_point_distance ota_point symbol_point;
  if swrap 32 (sym_end s) <? diff then Ok (increment_late_counter s)
  else if diff <? swrap 32 (sym_start s) then Ok (increment_early_counter s)
  else Ok (increment_on_time_counter s).

(** ** Lemmas *)

(** Symbols in 256 frames. *)
Definition window_period (p : slot_symbol_point.t) : Z :=
  2560 * 2 ^ slot_symbol_point.numerology p * slot_symbol_point.nof_symbols p.

(** The same slot with the frame number modulo 256. *)
Definition ofh_slot (s : slot_point.t) : slot_point.t :=
  slot_point.mk (slot_point.numerology_val s)
    (slot_point.count_val s mod (2560 * 2 ^ slot_point.numerology_val s)).

Lemma ofh_slot_spec s : slot_point.wf s →
  slot_point.wf (ofh_slot s) ∧
  slot_point.of_slot (slot_point.numerology s) (slot_point.sfn s mod 256) (slot_point.slot_index s) = Ok (ofh_slot s).
Proof.
  intros Hs.
  assert (Hw : slot_point.wf (ofh_slot s)).
  { pose proof Hs as [Hm Hc]. split; [exact Hm|]. unfold slot_point.period, ofh_slot in *.
    cbn [slot_point.numerology_val slot_point.count_val].
    destruct (slot_point.numerology_cases _ Hm) as [E|[E|[E|[E|E]]]]; rewrite E in *; lia. }
  split; [done|]. rewrite <- (slot_point.of_slot_spec (ofh_slot s) Hw). clear Hw.
  unfold ofh_slot. slot_point.slot_cases s Hs; f_equal; lia.
Qed.

Lemma ofh_point_spec slot i n :
  slot_point.wf slot → 0 < n < 16 → 0 <= i < n →
  let p := slot_symbol_point.mk n (slot_point.numerology_val slot) (slot_point.count_val slot * n + i) in
  ∃ q, calculate_ofh_slot_symbol_point p = Ok q ∧
    slot_symbol_point.count_val q = slot_symbol_point.count_val p mod window_period p.
Proof.
  intros Hs Hn Hi p. destruct (slot_symbol_point.symbol_of_slot_spec slot i n Hs Hn Hi) as (_ & _ & HS & HI).
  fold p in HS, HI. unfold calculate_ofh_slot_symbol_point. rewrite HS. cbn [mbind result_bind].
  destruct (ofh_slot_spec slot Hs) as [Hw HO]. unfold OFH_MAX_NOF_SFN. rewrite HO. cbn [mbind result_bind].
  rewrite HI. cbn [mbind result_bind].
  destruct (slot_symbol_point.symbol_of_slot_spec (ofh_slot slot) i n Hw Hn Hi) as (HB & _).
  eexists. split; [exact HB|]. unfold ofh_slot, window_period, p.
  cbn [slot_point.count_val slot_point.numerology_val slot_symbol_point.count_val
       slot_symbol_point.numerology slot_symbol_point.nof_symbols].
  set (M := 2560 * 2 ^ slot_point.numerology_val slot). set (c := slot_point.count_val slot).
  assert (HM : 0 < M) by (unfold M; pose proof (Z.pow_pos_nonneg 2 (slot_point.numerology_val slot) ltac:(lia)
    (proj1 (proj1 Hs))); lia).
  pose proof (Z.div_mod c M ltac:(lia)). pose proof (Z.mod_pos_bound c M HM).
  apply (Z.mod_unique_pos _ _ (c / M)); nia.
Qed.

Lemma window_period_range m n : 0 < n < 16 → 0 <= m < 5 →
  let W := 2560 * 2 ^ m * n in
  swrap 32 (wrap 64 (OFH_MAX_NOF_SFN * NOF_SUBFRAMES_PER_FRAME * get_nof_slots_per_subframe m * n)) = W ∧
  2 * (W / 2) = W ∧ 2560 <= W <= 614400.
Proof.
  intros Hn Hm. unfold get_nof_slots_per_subframe, OFH_MAX_NOF_SFN, NOF_SUBFRAMES_PER_FRAME.
  destruct (slot_point.numerology_cases _ Hm) as [E|[E|[E|[E|E]]]]; rewrite E;
    match goal with |- context [wrap 32 (1 ≪ ?k)] =>
      let v := eval vm_compute in (wrap 32 (1 ≪ k)) in change (wrap 32 (1 ≪ k)) with v end;
    rewrite wrap_small by lia_fits; unfold swrap; unfold_fits; lia.
Qed.

(** The distance is taken modulo 256 frames, in the half-open middle range. *)
Lemma distance_spec m n a b : 0 < n < 16 → 0 <= m < 5 →
  let W := 2560 * 2 ^ m * n in
  0 <= a < W → 0 <= b < W →
  calculate_slot_symbol_point_distance (slot_symbol_point.mk n m a) (slot_symbol_point.mk n m b) =
    Ok ((a - b + W / 2) mod W - W / 2).
Proof.
  intros Hn Hm W Ha Hb. destruct (window_period_range m n Hn Hm) as (HW & He & Hr). fold W in HW, He, Hr.
  unfold calculate_slot_symbol_point_distance, slot_symbol_point.get_numerology, slot_symbol_point.get_nof_symbols,
    slot_symbol_point.to_uint.
  cbn [slot_symbol_point.numerology slot_symbol_point.nof_symbols slot_symbol_point.count_val].
  do 2 pass_assume. rewrite HW, sadd_Ok by lia_fits. cbn [mbind result_bind]. clearbody W.
  assert (HM : (a - b + W / 2) mod W =
    if W / 2 <=? a - b then a - b + W / 2 - W else if a - b <? - (W / 2) then a - b + W / 2 + W else a - b + W / 2).
  { symmetry. destruct (Z.leb_spec (W / 2) (a - b)); [apply (Z.mod_unique_pos _ _ 1); lia|].
    destruct (Z.ltb_spec (a - b) (- (W / 2))); [apply (Z.mod_unique_pos _ _ (-1))|apply (Z.mod_unique_pos _ _ 0)]; lia. }
  rewrite HM, Z.quot_div_nonneg by lia. replace (Z.quot (- W) 2) with (- (W / 2)).
  2: { rewrite Z.quot_opp_l, Z.quot_div_nonneg by lia. done. }
  destruct (Z.leb_spec (W / 2) (a + - b)), (Z.leb_spec (W / 2) (a - b)); try (exfalso; lia).
  { rewrite sadd_Ok by lia_fits. f_equal. lia. }
  destruct (Z.ltb_spec (a + - b) (- (W / 2))), (Z.ltb_spec (a - b) (- (W / 2))); try (exfalso; lia).
  - rewrite sadd_Ok by lia_fits. f_equal. lia.
  - f_equal. lia.
Qed.

Lemma print_statistics_keeps s :
  let s' := print_statistics s in
  on_time_counter s' = on_time_counter s ∧ early_counter s' = early_counter s ∧
  late_counter s' = late_counter s ∧ count_val s' = count_val s ∧ is_disabled s' = is_disabled s ∧
  sym_start s' = sym_start s ∧ sym_end s' = sym_end s.
Proof. unfold print_statistics. by destruct (negb _). Qed.

(** One update, from the stored count. *)
Lemma update_spec s m n c b :
  is_disabled s = false → 0 <= sym_start s < 2 ^ 31 → 0 <= sym_end s < 2 ^ 31 →
  0 < n < 16 → 0 <= m < 5 →
  let W := 2560 * 2 ^ m * n in
  count_val s = c mod W → 0 <= b < W →
  let d := (c - b + W / 2) mod W - W / 2 in
  update_rx_window_statistics s (slot_symbol_point.mk n m b) =
    Ok (if sym_end s <? d then increment_late_counter s
        else if d <? sym_start s then increment_early_counter s else increment_on_time_counter s).
Proof.
  intros Hd H1 H2 Hn Hm W Hc Hb. destruct (window_period_range m n Hn Hm) as (_ & He & Hr). fold W in He, Hr.
  pose proof (Z.mod_pos_bound c W ltac:(lia)) as Hcw.
  unfold update_rx_window_statistics, slot_symbol_point.of_count, slot_symbol_point.get_numerology,
    slot_symbol_point.get_nof_symbols, NOF_NUMEROLOGIES.
  cbn [slot_symbol_point.numerology slot_symbol_point.nof_symbols]. rewrite Hd, Hc.
  rewrite (wrap_small 4), (wrap_small 3), (wrap_small 25) by lia_fits. pass_assume.
  rewrite distance_spec by done. cbn [mbind result_bind]. fold W.
  replace ((c mod W - b + W / 2) mod W) with ((c - b + W / 2) mod W).
  2: { rewrite <- (Z.add_mod_idemp_l (c mod W - b)), Zminus_mod_idemp_l, Z.add_mod_idemp_l by lia. done. }
  replace (swrap 32 (sym_end s)) with (sym_end s) by (unfold swrap; unfold_fits; lia).
  replace (swrap 32 (sym_start s)) with (sym_start s) by (unfold swrap; unfold_fits; lia).
  destruct (sym_end s <? _); [done|]. by destruct (_ <? sym_start s).
Qed.

(** A point of the first 256 frames lies in the first window period. *)
Lemma received_range rx j n : slot_point.wf rx → slot_point.sfn rx < 256 → 0 < n → 0 <= j < n →
  0 <= slot_point.count_val rx * n + j < 2560 * 2 ^ slot_point.numerology_val rx * n.
Proof.
  intros Hr Hf Hn Hj.
  assert (0 <= slot_point.count_val rx < 2560 * 2 ^ slot_point.numerology_val rx)
    by (revert Hf; slot_point.slot_cases rx Hr; lia).
  nia.
Qed.

(** The reception window.  After the over-the-air clock reached symbol [i] of a
    slot, a message for symbol [j] of a slot received in Open Fronthaul numbering
    (frames modulo 256) adds one to exactly one counter: late when the clock is more
    than the end of the window ahead of it, early when it is less than the start of
    the window ahead, on time otherwise.  The distance is that of the two points
    modulo 256 frames, so the comparison is right across every wrap of the frame
    number, and no assertion fails. *)
Theorem rx_window_statistics s ota i rx j n :
  is_disabled s = false → 0 <= sym_start s < 2 ^ 31 → 0 <= sym_end s < 2 ^ 31 →
  slot_point.wf ota → slot_point.wf rx → slot_point.numerology rx = slot_point.numerology ota →
  slot_point.sfn rx < 256 → 0 < n < 16 → 0 <= i < n → 0 <= j < n →
  ∃ P Q s1 s2, slot_symbol_point.of_slot ota i n = Ok P ∧ slot_symbol_point.of_slot rx j n = Ok Q ∧
    on_new_symbol s P = Ok s1 ∧ update_rx_window_statistics s1 Q = Ok s2 ∧
    let W := window_period P in
    let d := (slot_symbol_point.count_val P - slot_symbol_point.count_val Q + W / 2) mod W - W / 2 in
    (on_time_counter s2, early_counter s2, late_counter s2) =
      if sym_end s <? d then (on_time_counter s, early_counter s, wrap 64 (late_counter s + 1))
      else if d <? sym_start s then (on_time_counter s, wrap 64 (early_counter s + 1), late_counter s)
      else (wrap 64 (on_time_counter s + 1), early_counter s, late_counter s).
Proof.
  intros Hd H1 H2 Ho Hr Hm Hf Hn Hi Hj.
  destruct (slot_symbol_point.symbol_of_slot_spec ota i n Ho Hn Hi) as (HP & _).
  destruct (slot_symbol_point.symbol_of_slot_spec rx j n Hr Hn Hj) as (HQ & _).
  destruct (ofh_point_spec ota i n Ho Hn Hi) as (q & HO & Hq). unfold slot_point.numerology in Hm.
  set (P := slot_symbol_point.mk n _ (slot_point.count_val ota * n + i)) in *. rewrite Hm in HQ.
  set (Q := slot_symbol_point.mk n _ (slot_point.count_val rx * n + j)) in *.
  eexists P, Q, _, _. split; [done|]. split; [done|]. unfold on_new_symbol. rewrite Hd, HO. cbn [mbind result_bind].
  split; [done|]. destruct (print_statistics_keeps (store_count s (slot_symbol_point.to_uint q)))
    as (K1 & K2 & K3 & K4 & K5 & K6 & K7).
  set (s1 := print_statistics _) in *. cbn [store_count on_time_counter early_counter late_counter count_val
    is_disabled sym_start sym_end] in K1, K2, K3, K4, K5, K6, K7.
  pose proof (update_spec s1 (slot_point.numerology_val ota) n (slot_symbol_point.count_val P)
    (slot_point.count_val rx * n + j)) as HU. cbv zeta in HU. fold Q in HU.
  rewrite K6, K7 in HU. rewrite HU; [|congruence|done|done|done|apply Ho|by rewrite K4|].
  2: { rewrite <- Hm. apply received_range; (done || lia). }
  split; [done|]. cbv zeta. unfold window_period. cbn [P slot_symbol_point.numerology slot_symbol_point.nof_symbols].
  unfold increment_late_counter, increment_early_counter, increment_on_time_counter, with_counters.
  destruct (sym_end s <? _); [|destruct (_ <? sym_start s)];
    cbn [on_time_counter early_counter late_counter]; fold s1; by rewrite K1, K2, K3.
Qed.

Definition example_checker : t := mk 2 9 28000 false 0 5 6 7 0 0 0 0 [].

(** The clock at symbol 3 of frame 256, a message for the last symbol of the frame
    before: four symbols late, inside the window. *)
Lemma rx_window_statistics_witness :
  ∃ P Q s1 s2, slot_symbol_point.of_slot (slot_point.mk 1 5120) 3 14 = Ok P ∧
    slot_symbol_point.of_slot (slot_point.mk 1 5119) 13 14 = Ok Q ∧
    on_new_symbol example_checker P = Ok s1 ∧ update_rx_window_statistics s1 Q = Ok s2 ∧
    on_time_counter s2 = 6.
Proof.
  destruct (rx_window_statistics example_checker (slot_point.mk 1 5120) 3 (slot_point.mk 1 5119) 13 14)
    as (P & Q & s1 & s2 & H1 & H2 & H3 & H4 & H5).
  - reflexivity.
  - simpl; lia.
  - simpl; lia.
  - slot_point.solve_wf.
  - slot_point.solve_wf.
  - reflexivity.
  - reflexivity.
  - lia.
  - lia.
  - lia.
  - exists P, Q, s1, s2. split; [exact H1|]. split; [exact H2|]. split; [exact H3|]. split; [exact H4|].
    vm_compute in H1, H2. injection H1 as <-. injection H2 as <-. exact (f_equal (λ x, x.1.1) H5).
Defined.

End rx_window_checker.

(** ** The message receiver *)
Module message_receiver.

(** The two data flows; what they do with a message is not modelled here. *)
Inductive flow : Type := uplink_data | uplink_prach.

(** The configuration, with the eCPRI decoder and the checker that were injected. *)
Record config := mk_config {
  nof_symbols : Z; scs : subcarrier_spacing; vlan_params : ethernet.vlan_frame_params;
  ul_prach_eaxc : list Z; ul_eaxc : list Z; ecpri_policy : ecpri.payload_size_policy;
  seq_id_impl : sequence_id_checker.implementation }.

(** The parts that change, and the messages handed to the flows so far. *)
Record state := mk_state {
  seq_id_checker : sequence_id_checker.t; window_checker : rx_window_checker.t;
  delivered : list (flow * Z * list Z) }.

Definition should_ethernet_frame_be_filtered (cfg : config) (p : ethernet.vlan_frame_params) : bool :=
  if negb (bool_decide (ethernet.mac_src_address p = ethernet.mac_src_address (vlan_params cfg))) then true
  else if negb (bool_decide (ethernet.mac_dst_address p = ethernet.mac_dst_address (vlan_params cfg))) then true
  else if negb (ethernet.eth_type p =? ethernet.eth_type (vlan_params cfg)) then true
  else false.

(** [std::get<iq_data_parameters>] throws when the other alternative is held. *)
Definition get_iq_parameters (p : ecpri.packet_parameters) : result ecpri.iq_data_parameters :=
  match ecpri.type_params p with
  | ecpri.iq_parameters q => Ok q
  | ecpri.rt_parameters _ => Fault BadVariantAccess
  end.

Definition should_ecpri_packet_be_filtered (cfg : config) (p : ecpri.packet_parameters) : result bool :=
  if negb (ecpri.msg_type (ecpri.header p) =? ecpri.message_type_value ecpri.iq_data) then Ok true else
  q ← get_iq_parameters p;
  Ok (bool_decide (ecpri.pc_id q ∉ ul_eaxc cfg) && bool_decide (ecpri.pc_id q ∉ ul_prach_eaxc cfg)).

(** From the sequence identifier check to the end. *)
Definition process_message (cfg : config) (st : state) (iq : ecpri.iq_data_parameters) (ofh_pdu : list Z)
    : result state :=
  let eaxc := ecpri.pc_id iq in
  '(nof_skipped_seq_id, sc) ←
    sequence_id_checker.compare_with (seq_id_impl cfg) (seq_id_checker st) eaxc (wrap 8 (ecpri.seq_id iq ≫ 8));
  let st := mk_state sc (window_checker st) (delivered st) in
  if nof_skipped_seq_id <? 0 then Ok st else
  point ← uplane.peek_slot_symbol_point ofh_pdu (nof_symbols cfg) (scs cfg);
  slot ← slot_symbol_point.get_slot point;
  if negb (slot_point.valid slot) then Ok st else
  wc ← rx_window_checker.update_rx_window_statistics (window_checker st) point;
  let st := mk_state (seq_id_checker st) wc (delivered st) in
  let filter_type := uplane.peek_filter_index ofh_pdu in
  if decide (filter_type = filter_reserved) then Ok st else
  let target := if is_a_prach_message filter_type then uplink_prach else uplink_data in
  Ok (mk_state (seq_id_checker st) (window_checker st) (delivered st ++ [(target, eaxc, ofh_pdu)])).

(** From the eCPRI decoder on.  The parameters are default-constructed and read
    only after they were decoded. *)
Definition process_packet (cfg : config) (st : state) (ecpri_pdu : list Z) : result state :=
  let ecpri_params := ecpri.mk_packet (ecpri.mk_header 0 false 0 0) (ecpri.rt_parameters (ecpri.mk_rt 0 0)) in
  '(ofh_pdu, ecpri_params) ← ecpri.decode (ecpri_policy cfg) ecpri_pdu ecpri_params;
  if bool_decide (ofh_pdu = []) then Ok st else
  filtered ← should_ecpri_packet_be_filtered cfg ecpri_params;
  if (filtered : bool) then Ok st else
  iq ← get_iq_parameters ecpri_params;
  process_message cfg st iq ofh_pdu.

Definition process_new_frame (cfg : config) (st : state) (payload : list Z) : result state :=
  let eth_params := ethernet.mk_params [] [] None 0 in
  '(ecpri_pdu, eth_params) ← ethernet.decode payload eth_params;
  if bool_decide (ecpri_pdu = []) || should_ethernet_frame_be_filtered cfg eth_params then Ok st
  else process_packet cfg st ecpri_pdu.

(** ** Lemmas *)

(** Any frame of the minimum length. *)
Lemma ethernet_any frame q : 64 <= zlen frame < 2 ^ 32 →
  ethernet.decode frame q =
    Ok (drop 14 frame, ethernet.mk_params (take 6 frame) (take 6 (drop 6 frame)) (ethernet.tci q)
                         (256 * nth 12 frame 0 + nth 13 frame 0)).
Proof.
  intros Hz. do 14 (destruct frame as [|? frame]; [unfold zlen in Hz; cbn [length] in Hz; lia|]).
  rewrite !zlen_cons in Hz.
  match goal with |- ethernet.decode (?b0 :: ?b1 :: ?b2 :: ?b3 :: ?b4 :: ?b5 :: ?b6 :: ?b7 :: ?b8 :: ?b9 ::
      ?b10 :: ?b11 :: ?x :: ?y :: frame) q = _ =>
    apply (ethernet.frame_decode_spec _ q [b0; b1; b2; b3; b4; b5] [b6; b7; b8; b9; b10; b11] x y frame) end;
    [done..|lia|rewrite !zlen_cons; lia].
Qed.

Definition id_field (packet : list Z) : Z := 256 * nth 4 packet 0 + nth 5 packet 0.
Definition seq_field (packet : list Z) : Z := 256 * nth 6 packet 0 + nth 7 packet 0.

(** Any eCPRI packet that holds the identifiers. *)
Lemma ecpri_any policy packet params : bytes_ok packet → 8 <= zlen packet < 2 ^ 32 →
  (∃ params', ecpri.decode policy packet params = Ok ([], params')) ∨
  (ecpri.decode policy packet params = Fault AssertFailed ∧
     policy = ecpri.use_header_payload_size ∧ ecpri.size_field packet < 4) ∨
  (∃ payload params', ecpri.decode policy packet params = Ok (payload, params') ∧
     payload `prefix_of` drop 8 packet ∧ ecpri.supported packet ∧
     ecpri.msg_type (ecpri.header params') = nth 1 packet 0 ∧
     (nth 1 packet 0 = 0 →
      ecpri.type_params params' = ecpri.iq_parameters (ecpri.mk_iq (id_field packet) (seq_field packet)))).
Proof.
  intros Hb Hz. do 8 (destruct packet as [|? packet]; [unfold zlen in Hz; cbn [length] in Hz; lia|]).
  match goal with H : bytes_ok (?a :: ?ty :: ?c :: ?e :: ?l) |- _ => apply (Forall_app _ [a; ty; c; e] l) in H as [Hb4 _] end.
  rewrite ecpri.ecpri_decode_spec by (done || lia). cbv zeta. cbn [nth drop].
  destruct (ecpri.is_header_valid _) eqn:HV; cbn [negb]; [|left; eauto].
  destruct (_ || negb _) eqn:HT; [left; eauto|]. apply orb_false_iff in HT as [_ HT]. apply negb_false_iff in HT.
  unfold ecpri.payload_of, ecpri.size_field, ecpri.header_of. cbn [ecpri.payload_size nth].
  assert (HS : ∀ l, ecpri.supported (z :: z0 :: l)).
  { intros l. apply ecpri.valid_header_iff in HV as [V1 V2]. split_and!; done. }
  destruct policy; cbn [mbind result_bind].
  - destruct (Z.ltb_spec (256 * z1 + z2) 4); cbn [mbind result_bind]; [right; left; done|].
    right; right. eexists _, _. split; [done|]. split; [apply prefix_take|]. split; [apply HS|]. split; [done|].
    intros ->. done.
  - right; right. eexists _, _. split; [done|]. split; [done|]. split; [apply HS|]. split; [done|]. intros ->. done.
Qed.

(** What the slot peeker can say of any octets. *)
Lemma peek_outcome pdu cfg : bytes_ok pdu → is_scs_valid (scs cfg) = true → 0 < nof_symbols cfg < 16 →
  let h := cplane.wire_header_of pdu in
  let peeked := uplane.peek_slot_symbol_point pdu (nof_symbols cfg) (scs cfg) in
  (∃ p, peeked = Ok p ∧ slot_symbol_point.get_slot p = Ok slot_point.invalid) ∨
  (peeked = Fault AssertFailed ∧ nof_symbols cfg <= cplane.w_symbol h) ∨
  (∃ p slot, peeked = Ok p ∧ slot_symbol_point.wf p ∧ slot_symbol_point.get_slot p = Ok slot ∧
     slot_point.wf slot ∧ cplane.w_subframe h < 10 ∧ cplane.w_slot h < 2 ^ to_numerology_value (scs cfg) ∧
     cplane.w_symbol h < nof_symbols cfg).
Proof.
  intros Hb Hscs Hn. cbv zeta.
  assert (Hm : 0 <= to_numerology_value (scs cfg) < 5) by (destruct (scs cfg); done).
  assert (Hinv : ∃ p, slot_symbol_point.of_slot slot_point.invalid 0 (nof_symbols cfg) = Ok p ∧
    slot_symbol_point.get_slot p = Ok slot_point.invalid).
  { unfold slot_symbol_point.of_slot. pass_assume. eexists. by split. }
  destruct pdu as [|b0 [|b1 [|b2 [|b3 l]]]]; [left; exact Hinv..|].
  pose proof (uplane.peek_value (scs cfg) (nof_symbols cfg) b0 b1 b2 b3 l Hm) as HP. cbv zeta in HP.
  assert (Hb123 : u8 b1 ∧ u8 b2 ∧ u8 b3).
  { inversion_clear Hb as [|?? _ Hb1]. inversion_clear Hb1 as [|??? Hb2]. inversion_clear Hb2 as [|??? Hb3].
    by inversion_clear Hb3. }
  destruct Hb123 as (B1 & B2 & B3). specialize (HP B2 B3).
  set (h := cplane.wire_header_of (b0 :: b1 :: b2 :: b3 :: l)) in *.
  assert (Hh : 0 <= cplane.w_frame h < 1024 ∧ 0 <= cplane.w_subframe h ∧ 0 <= cplane.w_slot h ∧ 0 <= cplane.w_symbol h).
  { unfold h, cplane.wire_header_of, cplane.octet.
    cbn [nth cplane.w_frame cplane.w_subframe cplane.w_slot cplane.w_symbol]. unfold_fits. lia. }
  destruct (decide (10 <= cplane.w_subframe h ∨ 2 ^ to_numerology_value (scs cfg) <= cplane.w_slot h)) as [Hx|Hx].
  { left. pose proof (uplane.peek_value_invalid (scs cfg) (nof_symbols cfg) b0 b1 b2 b3 l Hm B2 B3 Hx) as HI.
    cbv zeta in HI. by rewrite HI. }
  rewrite HP by lia.
  destruct (slot_point.of_subframe_parts (to_numerology_value (scs cfg)) (cplane.w_frame h) (cplane.w_subframe h)
    (cplane.w_slot h) Hm) as (s & -> & Hs & _); [lia..|]. cbn [mbind result_bind].
  destruct (decide (nof_symbols cfg <= cplane.w_symbol h)) as [Hy|Hy].
  { right; left. unfold slot_symbol_point.of_slot. by rewrite (proj2 (Z.ltb_ge _ _)). }
  destruct (slot_symbol_point.symbol_of_slot_spec s (cplane.w_symbol h) (nof_symbols cfg) Hs Hn) as (-> & Hw & HS & _);
    [lia|].
  right; right. eexists _, s. split; [done|]. split; [done|]. split; [done|]. split; [done|]. lia.
Qed.

(** The statistics can always be updated. *)
Lemma window_update_total s p : slot_symbol_point.wf p →
  ∃ s', rx_window_checker.update_rx_window_statistics s p = Ok s'.
Proof.
  intros (Hn & Hm & Hc). destruct (slot_symbol_point.period_range p Hn Hm) as (_ & _ & HP).
  unfold rx_window_checker.update_rx_window_statistics, slot_symbol_point.of_count, slot_symbol_point.get_numerology,
    slot_symbol_point.get_nof_symbols, NOF_NUMEROLOGIES.
  destruct (rx_window_checker.is_disabled s); [eauto|].
  cbn [slot_symbol_point.numerology]. rewrite (wrap_small 3), (wrap_small 4) by lia_fits. pass_assume.
  pose proof (wrap_fits 25 (rx_window_checker.count_val s) ltac:(lia)) as Hw.
  set (c := wrap 25 _) in *.
  assert (HD : ∃ d, rx_window_checker.calculate_slot_symbol_point_distance
    (slot_symbol_point.mk (slot_symbol_point.nof_symbols p) (slot_symbol_point.numerology p) c) p = Ok d).
  { destruct (rx_window_checker.window_period_range _ _ Hn Hm) as (HW & _ & Hr).
    unfold rx_window_checker.calculate_slot_symbol_point_distance, slot_symbol_point.get_numerology,
      slot_symbol_point.get_nof_symbols, slot_symbol_point.to_uint.
    cbn [slot_symbol_point.numerology slot_symbol_point.nof_symbols slot_symbol_point.count_val].
    do 2 pass_assume. rewrite HW. set (W := 2560 * _ * _) in *. clearbody W. unfold_fits.
    rewrite sadd_Ok by lia_fits. cbn [mbind result_bind].
    destruct (_ <=? _); [rewrite sadd_Ok by lia_fits; eauto|].
    destruct (_ <? _); [rewrite sadd_Ok by lia_fits; eauto|eauto]. }
  destruct HD as [d ->]. cbn [mbind result_bind].
  destruct (_ <? _); [eauto|]. destruct (_ <? _); eauto.
Qed.

Definition config_ok (cfg : config) : Prop :=
  is_scs_valid (scs cfg) = true ∧ 0 < nof_symbols cfg < 16 ∧
  Forall (λ e, 0 <= e < 32) (ul_eaxc cfg ++ ul_prach_eaxc cfg).

Lemma peek_filter_spec pdu : bytes_ok pdu → pdu ≠ [] →
  let f := cplane.w_filter (cplane.wire_header_of pdu) in
  0 <= f ∧ (uplane.peek_filter_index pdu = filter_reserved ↔ 8 <= f) ∧
  (f < 8 → is_a_prach_message (uplane.peek_filter_index pdu) = negb (f =? 0)).
Proof.
  intros Hb Hne. destruct pdu as [|b l]; [done|]. assert (u8 b) by by inversion Hb.
  cbn [uplane.peek_filter_index]. rewrite cplane.land_15.
  unfold cplane.wire_header_of, cplane.octet. cbn [nth cplane.w_filter]. unfold_fits.
  split; [lia|]. split; [apply uplane.filter_reserved_iff; lia|]. intros Hf.
  set (f := b mod 16) in *. assert (f = 0 ∨ f = 1 ∨ f = 2 ∨ f = 3 ∨ f = 4 ∨ f = 5 ∨ f = 6 ∨ f = 7) as HH by lia.
  destruct HH as [->|[->|[->|[->|[->|[->|[->| ->]]]]]]]; reflexivity.
Qed.

(** A message that is handed to a flow. *)
Definition message_accepted (cfg : config) (pdu : list Z) : Prop :=
  let h := cplane.wire_header_of pdu in
  cplane.w_subframe h < 10 ∧ cplane.w_slot h < 2 ^ to_numerology_value (scs cfg) ∧
  cplane.w_symbol h < nof_symbols cfg ∧ cplane.w_filter h < 8.

Definition flow_of (pdu : list Z) : flow :=
  if cplane.w_filter (cplane.wire_header_of pdu) =? 0 then uplink_data else uplink_prach.

Lemma process_message_outcome cfg st iq pdu :
  config_ok cfg → sequence_id_checker.wf (seq_id_checker st) → 0 <= ecpri.pc_id iq < 32 → bytes_ok pdu → pdu ≠ [] →
  (∃ st', process_message cfg st iq pdu = Ok st' ∧ sequence_id_checker.wf (seq_id_checker st') ∧
     (delivered st' = delivered st ∨
      message_accepted cfg pdu ∧ delivered st' = delivered st ++ [(flow_of pdu, ecpri.pc_id iq, pdu)])) ∨
  (process_message cfg st iq pdu = Fault AssertFailed ∧ nof_symbols cfg <= cplane.w_symbol (cplane.wire_header_of pdu)).
Proof.
  intros (Hscs & Hn & _) Hw He Hb Hne. unfold process_message.
  destruct (sequence_id_checker.compare_total (seq_id_impl cfg) (seq_id_checker st) (ecpri.pc_id iq) (wrap 8 (ecpri.seq_id iq ≫ 8)) Hw He
    (wrap_fits 8 _ ltac:(lia))) as (d & sc & -> & Hsc). cbn [mbind result_bind].
  destruct (d <? 0); [left; eexists; split; [done|]; by auto|].
  destruct (peek_outcome pdu cfg Hb Hscs Hn) as [(p & -> & HS)|[[-> HF]|(p & slot & -> & Hp & HS & Hsl & A1 & A2 & A3)]];
    cbn [mbind result_bind].
  - rewrite HS. cbn [mbind result_bind]. left. eexists. split; [done|]. by auto.
  - by right.
  - rewrite HS. cbn [mbind result_bind]. left.
    assert (slot_point.valid slot = true) as -> by (unfold slot_point.valid; apply Z.ltb_lt, Hsl). cbn [negb].
    destruct (window_update_total (window_checker st) p Hp) as [wc HW]. cbn [window_checker].
    rewrite HW. cbn [mbind result_bind]. destruct (peek_filter_spec pdu Hb Hne) as (F0 & F1 & F2).
    case_decide as HR; [eexists; split; [done|]; by auto|]. rewrite F1 in HR.
    eexists. split; [done|]. split; [done|]. right. cbn [delivered]. split; [split_and!; (done || lia)|].
    rewrite F2 by lia. unfold flow_of. by destruct (_ =? 0).
Qed.

(** The frame is for this receiver. *)
Definition addressed (cfg : config) (frame : list Z) : Prop :=
  64 <= zlen frame ∧ take 6 frame = ethernet.mac_dst_address (vlan_params cfg) ∧
  take 6 (drop 6 frame) = ethernet.mac_src_address (vlan_params cfg) ∧
  256 * nth 12 frame 0 + nth 13 frame 0 = ethernet.eth_type (vlan_params cfg).

Definition known_eaxc (cfg : config) (e : Z) : Prop := e ∈ ul_eaxc cfg ++ ul_prach_eaxc cfg.

Lemma filtered_iff cfg dst src q ty :
  should_ethernet_frame_be_filtered cfg (ethernet.mk_params dst src q ty) = false ↔
    dst = ethernet.mac_dst_address (vlan_params cfg) ∧ src = ethernet.mac_src_address (vlan_params cfg) ∧
    ty = ethernet.eth_type (vlan_params cfg).
Proof.
  unfold should_ethernet_frame_be_filtered. cbn [ethernet.mac_dst_address ethernet.mac_src_address ethernet.eth_type].
  repeat case_bool_decide; destruct (Z.eqb_spec ty (ethernet.eth_type (vlan_params cfg))); cbn [negb]; naive_solver.
Qed.

Lemma process_packet_outcome cfg st packet :
  config_ok cfg → sequence_id_checker.wf (seq_id_checker st) → bytes_ok packet → 8 <= zlen packet < 2 ^ 32 →
  (∃ st', process_packet cfg st packet = Ok st' ∧ sequence_id_checker.wf (seq_id_checker st') ∧
     (delivered st' = delivered st ∨
      ∃ pdu, ecpri.supported packet ∧ nth 1 packet 0 = 0 ∧ known_eaxc cfg (id_field packet) ∧
        pdu ≠ [] ∧ pdu `prefix_of` drop 8 packet ∧ message_accepted cfg pdu ∧
        delivered st' = delivered st ++ [(flow_of pdu, id_field packet, pdu)])) ∨
  (process_packet cfg st packet = Fault AssertFailed ∧
     (ecpri_policy cfg = ecpri.use_header_payload_size ∧ ecpri.size_field packet < 4 ∨
      ∃ pdu, pdu `prefix_of` drop 8 packet ∧ nof_symbols cfg <= cplane.w_symbol (cplane.wire_header_of pdu))).
Proof.
  intros Hcfg Hst Hpb Hpz. unfold process_packet.
  match goal with |- context [ecpri.decode _ packet ?p] =>
    destruct (ecpri_any (ecpri_policy cfg) packet p Hpb Hpz)
      as [(p' & ->)|[(-> & HX)|(pdu & p' & -> & Hpre & Hsup & HT & HI)]] end; cbn [mbind result_bind].
  { left. eexists. split; [done|]. by auto. }
  { right. split; [done|]. by left. }
  destruct (decide (pdu = [])) as [->|Hne].
  { rewrite bool_decide_eq_true_2 by done. left. eexists. split; [done|]. by auto. }
  rewrite bool_decide_eq_false_2 by done. unfold should_ecpri_packet_be_filtered. cbn [ecpri.message_type_value].
  rewrite HT. destruct (Z.eqb_spec (nth 1 packet 0) 0) as [E|E]; cbn [negb mbind result_bind].
  2: { left. eexists. split; [done|]. by auto. }
  unfold get_iq_parameters. rewrite (HI E). cbn [mbind result_bind ecpri.pc_id].
  destruct (bool_decide _ && bool_decide _) eqn:HK; [left; eexists; split; [done|]; by auto|].
  assert (Hk : known_eaxc cfg (id_field packet)).
  { unfold known_eaxc. apply elem_of_app. apply andb_false_iff in HK as [HK|HK]; apply bool_decide_eq_false in HK;
      [left|right]; by apply dec_stable. }
  destruct (process_message_outcome cfg st (ecpri.mk_iq (id_field packet) (seq_field packet)) pdu Hcfg Hst)
    as [(st' & -> & Hw & HD)|[-> HD]]; try done.
  - destruct Hcfg as (_ & _ & HA). rewrite Forall_forall in HA. by apply HA.
  - destruct Hpre as [rest Hrest]. assert (Hb8 : bytes_ok (drop 8 packet)) by by apply Forall_drop.
    rewrite Hrest in Hb8. by apply Forall_app in Hb8 as [? _].
  - left. exists st'. split; [done|]. split; [done|]. destruct HD as [HD|[HM HD]]; [by left|]. right. by exists pdu.
  - right. split; [done|]. right. by exists pdu.
Qed.

(** What any frame leads to. *)
Lemma process_new_frame_outcome cfg st frame :
  config_ok cfg → sequence_id_checker.wf (seq_id_checker st) → bytes_ok frame → zlen frame < 2 ^ 32 →
  let packet := drop 14 frame in
  (∃ st', process_new_frame cfg st frame = Ok st' ∧ sequence_id_checker.wf (seq_id_checker st') ∧
     (delivered st' = delivered st ∨
      ∃ pdu, addressed cfg frame ∧ ecpri.supported packet ∧ nth 1 packet 0 = 0 ∧ known_eaxc cfg (id_field packet) ∧
        pdu ≠ [] ∧ pdu `prefix_of` drop 22 frame ∧ message_accepted cfg pdu ∧
        delivered st' = delivered st ++ [(flow_of pdu, id_field packet, pdu)])) ∨
  (process_new_frame cfg st frame = Fault AssertFailed ∧ addressed cfg frame ∧
     (ecpri_policy cfg = ecpri.use_header_payload_size ∧ ecpri.size_field packet < 4 ∨
      ∃ pdu, pdu `prefix_of` drop 22 frame ∧ nof_symbols cfg <= cplane.w_symbol (cplane.wire_header_of pdu))).
Proof.
  intros Hcfg Hst Hb Hl packet. unfold process_new_frame.
  destruct (decide (zlen frame < 64)) as [Hs|Hs].
  { unfold ethernet.decode, ethernet.MIN_ETH_LEN. rewrite (proj2 (Z.ltb_lt _ _)) by done. cbn [mbind result_bind].
    rewrite bool_decide_eq_true_2 by done. left. eexists. split; [done|]. by auto. }
  rewrite ethernet_any by lia. cbn [mbind result_bind]. fold packet.
  assert (Hpz : 50 <= zlen packet < 2 ^ 32) by (unfold packet, zlen in *; rewrite length_drop; lia).
  assert (Hpb : bytes_ok packet) by by apply Forall_drop.
  rewrite bool_decide_eq_false_2 by (intros E; rewrite E in Hpz; vm_compute in Hpz; naive_solver). cbn [orb].
  destruct (should_ethernet_frame_be_filtered _ _) eqn:HF; [left; eexists; split; [done|]; by auto|].
  assert (Ha : addressed cfg frame) by (split; [lia|]; by apply filtered_iff in HF as (-> & -> & ->)). clear HF.
  assert (H22 : drop 22 frame = drop 8 packet) by (unfold packet; by rewrite drop_drop). rewrite H22.
  destruct (process_packet_outcome cfg st packet Hcfg Hst Hpb ltac:(lia)) as [(st' & HP & Hw & HD)|[HP HD]].
  - left. exists st'. split; [done|]. split; [done|].
    destruct HD as [HD|(pdu & HD)]; [by left|]. right. by exists pdu.
  - by right.
Qed.

(** C14: Receiving arbitrary frames.  Whatever is received, the receiver drops the
    frame or hands one message to one data flow, keeping the sequence counters well
    formed, and nothing is read outside the frame.  A message is handed over only if
    the frame has the configured addresses and type, the eCPRI packet carries IQ data
    of a configured eAxC, and the message header has subframe, slot, symbol and
    filter in range; it is the part of the frame behind the headers, and goes to the
    PRACH flow exactly when its filter is not the standard one.  The only frames not
    survived are addressed to the receiver and either have an eCPRI size below four
    where the size is used, or a symbol number beyond the symbols of a slot. *)
Theorem receive_outcomes cfg st frame :
  config_ok cfg → sequence_id_checker.wf (seq_id_checker st) → bytes_ok frame → zlen frame < 2 ^ 32 →
  let packet := drop 14 frame in
  (∃ st', process_new_frame cfg st frame = Ok st' ∧ sequence_id_checker.wf (seq_id_checker st') ∧
     (delivered st' = delivered st ∨
      ∃ pdu, addressed cfg frame ∧ ecpri.supported packet ∧ nth 1 packet 0 = 0 ∧ known_eaxc cfg (id_field packet) ∧
        pdu ≠ [] ∧ pdu `prefix_of` drop 22 frame ∧ message_accepted cfg pdu ∧
        delivered st' = delivered st ++ [(flow_of pdu, id_field packet, pdu)])) ∨
  (process_new_frame cfg st frame = Fault AssertFailed ∧ addressed cfg frame ∧
     (ecpri_policy cfg = ecpri.use_header_payload_size ∧ ecpri.size_field packet < 4 ∨
      ∃ pdu, pdu `prefix_of` drop 22 frame ∧ nof_symbols cfg <= cplane.w_symbol (cplane.wire_header_of pdu))).
Proof. apply process_new_frame_outcome. Qed.

(** An IQ data packet for eAxC 2, slot 1 of subframe 3, symbol 20 of 14. *)
Definition example_config : config :=
  mk_config 14 kHz30 (ethernet.mk_params [1; 1; 1; 1; 1; 1] [2; 2; 2; 2; 2; 2] None 0xaefe) [] [2]
    ecpri.ignore_header_payload_size sequence_id_checker.sequence_id_checker_impl.
Definition example_frame (symbol_octet : Z) : list Z :=
  replicate 6 1 ++ replicate 6 2 ++ [0xae; 0xfe] ++ [16; 0; 0; 0; 0; 2; 7; 128] ++
  [16; 5; 48; symbol_octet] ++ replicate 40 0.
Definition example_state : state :=
  mk_state sequence_id_checker.init rx_window_checker.example_checker [].

Lemma receive_outcomes_witness :
  (∃ st', process_new_frame example_config example_state (example_frame 71) = Ok st' ∧
     delivered st' = [(uplink_data, 2, drop 22 (example_frame 71))]) ∧
  process_new_frame example_config example_state (example_frame 84) = Fault AssertFailed ∧
  addressed example_config (example_frame 84).
Proof.
  split.
  - eexists. split; [vm_compute; reflexivity|vm_compute; reflexivity].
  - destruct (receive_outcomes example_config example_state (example_frame 84)) as [(st' & HF & _)|(HF & HA & _)].
    + split; [reflexivity|]. split; [simpl; lia|]. repeat constructor; simpl; lia.
    + split; [reflexivity|]. split; [reflexivity|]. repeat constructor; vm_compute; discriminate.
    + repeat constructor; vm_compute; discriminate.
    + reflexivity.
    + vm_compute in HF. discriminate HF.
    + split; [exact HF|exact HA].
Defined.

End message_receiver.
