(* ===== verification/UplinkContext.v ===== *)
(** * UplinkContext: what the fronthaul remembers of the uplink symbols it expects

    Models lib/ofh/support/uplink_context_repository.h (the grid an uplink symbol is to
    be written to, and the resource elements already written) and
    lib/ofh/support/uplink_cplane_context_repository.h (what was requested from the
    radio unit per eAxC).  The transmitter adds contexts; the receiver writes samples and
    takes out the symbols that are complete, or whose reception window has closed.

    The grids live in the pool of [GridPool]: all the symbols added at once share one
    grid, each with a counted reference of its own, and the functions thread the pool.
    Every public function of the repositories runs under their mutex, so it is one step.
    Where an object is released, [accept] says whether the housekeeping executor takes
    the clearing task. *)

From S2P Require Import Prelude Bf16 SlotPoint OfhBase OfhCplane BoundedBitset BitsetSpec ResourceGrid GridPool OfhReceiver.
Import tensor.

Definition MAX_NOF_PRBS : Z := 275.
Definition MAX_NOF_SUPPORTED_EAXC : Z := 4.
Definition MAX_SUPPORTED_EAXC_ID_VALUE : Z := 32.
Definition MAX_NSYMB_PER_SLOT : Z := 14.
Definition SFN_MAX_VALUE : Z := 1 ≪ 8.
(** The capacity of the sets of resource elements. *)
Abbreviation re_capacity := (MAX_NOF_PRBS * NRE).

(** The index both repositories keep a slot at. *)
Definition entry_index (size : Z) (slot : slot_point.t) : result Z :=
  entry_slot ← slot_point.of_slot (slot_point.numerology slot) (slot_point.sfn slot mod SFN_MAX_VALUE) (slot_point.slot_index slot);
  assume (negb (size =? 0)) DivByZero;;
  Ok (slot_point.system_slot entry_slot mod size).

Record resource_grid_context : Type := mk_context { ctx_slot : slot_point.t; ctx_sector : Z }.

(** ** One symbol *)
Module uplink_context.

Record info : Type := mk_info { context : resource_grid_context; grid : grid_pool.handle }.
Record t : Type := mk { symbol : Z; grid_info : info; re_written : list bounded_bitset.t }.

Definition default_context : resource_grid_context := mk_context slot_point.invalid 0.
(** [uplink_context{}] *)
Definition default : t := mk 0 (mk_info default_context None) [].

Definition empty (c : t) : bool := negb (grid_pool.is_valid (grid (grid_info c))).

(** [copy()]: the same members, with a reference of its own. *)
Definition copy (p : grid_pool.t) (c : t) : result (grid_pool.t * t) :=
  p ← grid_pool.copy p (grid (grid_info c));
  Ok (p, mk (symbol c) (mk_info (context (grid_info c)) (grid (grid_info c))) (re_written c)).

Definition create (p : grid_pool.t) (symbol_ : Z) (context_ : resource_grid_context) (grid_ : grid_pool.handle)
    : result (grid_pool.t * t) :=
  p ← grid_pool.copy p grid_;
  g ← grid_pool.get p grid_;
  b ← bounded_bitset.create re_capacity (resource_grid.get_nof_subc g);
  assume (resource_grid.get_nof_ports g <=? MAX_NOF_SUPPORTED_EAXC) AssertFailed;;
  Ok (p, mk symbol_ (mk_info context_ grid_) (replicate (Z.to_nat (resource_grid.get_nof_ports g)) b)).

(** Assignment of a temporary: what the context held is released. *)
Definition assign (accept : bool) (p : grid_pool.t) (c other : t) : result (grid_pool.t * t) :=
  p ← grid_pool.release accept p (grid (grid_info c)); Ok (p, other).

Definition get_grid_nof_prbs (p : grid_pool.t) (c : t) : result Z :=
  if grid_pool.is_valid (grid (grid_info c)) then
    g ← grid_pool.get p (grid (grid_info c)); Ok (resource_grid.get_nof_subc g / NOF_SUBCARRIERS_PER_RB)
  else Ok 0.

Definition get_grid_context (c : t) : resource_grid_context := context (grid_info c).
Definition get_re_written_mask (c : t) : list bounded_bitset.t := re_written c.

(** The samples are written through a view of the grid. *)
Definition write_view (port symbol_ start_re : Z) (re_iq_buffer : list cbf16_t) (g : resource_grid.t) : result resource_grid.t :=
  view ← resource_grid.get_view_of g port symbol_;
  grid_view ← window_sub view start_re (zlen re_iq_buffer);
  els ← store (elements (resource_grid.rg_buffer g)) grid_view re_iq_buffer;
  Ok (resource_grid.with_elements g els).

Definition write_grid (p : grid_pool.t) (c : t) (port start_re : Z) (re_iq_buffer : list cbf16_t) : result (grid_pool.t * t) :=
  assume (grid_pool.is_valid (grid (grid_info c))) AssertFailed;;
  g ← grid_pool.get p (grid (grid_info c));
  if resource_grid.get_nof_ports g <=? port then Ok (p, c) else
  p ← grid_pool.update p (grid (grid_info c)) (write_view port (symbol c) start_re re_iq_buffer);
  assume (port <? zlen (re_written c)) AssertFailed;;
  b ← vec_at (re_written c) port;
  b ← bounded_bitset.fill false b start_re (start_re + zlen re_iq_buffer) true;
  Ok (p, mk (symbol c) (grid_info c) (<[Z.to_nat port := b]> (re_written c))).

Fixpoint all_of (bs : list bounded_bitset.t) : result bool :=
  match bs with
  | [] => Ok true
  | b :: bs => x ← bounded_bitset.all b; if (x : bool) then all_of bs else Ok false
  end.
Definition have_all_prbs_been_written (c : t) : result bool := all_of (re_written c).

(** [None] is the error; otherwise the information with a reference of its own. *)
Definition try_getting_complete_resource_grid (p : grid_pool.t) (c : t) : result (grid_pool.t * option info) :=
  if negb (grid_pool.is_valid (grid (grid_info c))) then Ok (p, None) else
  w ← have_all_prbs_been_written c;
  if negb w then Ok (p, None) else
  p ← grid_pool.copy p (grid (grid_info c));
  Ok (p, Some (mk_info (context (grid_info c)) (grid (grid_info c)))).

(** The information is moved out; the context keeps everything but the reference. *)
Definition pop_uplink_context_resource_grid_info (c : t) : t * info :=
  (mk (symbol c) (mk_info (context (grid_info c)) None) (re_written c), grid_info c).

End uplink_context.

(** ** The repository *)
Module uplink_context_repository.
Import uplink_context.

(** The pool, and a row of contexts per index. *)
Record t : Type := mk_repo { pool : grid_pool.t; buffer : list (list uplink_context.t) }.

Definition create (p : grid_pool.t) (size_ : Z) : t :=
  mk_repo p (replicate (Z.to_nat size_) (replicate (Z.to_nat MAX_NSYMB_PER_SLOT) default)).

Definition entry (r : t) (slot : slot_point.t) (symbol : Z) : result (Z * uplink_context.t) :=
  assume (symbol <? MAX_NSYMB_PER_SLOT) AssertFailed;;
  index ← entry_index (zlen (buffer r)) slot;
  row ← vec_at (buffer r) index;
  c ← vec_at row symbol;
  Ok (index, c).

Definition set_entry (r : t) (p : grid_pool.t) (index symbol : Z) (c : uplink_context.t) : t :=
  mk_repo p (alter (λ row, <[Z.to_nat symbol := c]> row) (Z.to_nat index) (buffer r)).

(** One turn of the loop of [add]. *)
Definition add_symbol (accept : bool) (context : resource_grid_context) (grid : grid_pool.handle) (r : t) (symbol_id : Z) : result t :=
  '(p, fresh) ← uplink_context.create (pool r) symbol_id context grid;
  '(index, c) ← entry (mk_repo p (buffer r)) (ctx_slot context) symbol_id;
  '(p, c) ← assign accept p c fresh;
  Ok (set_entry r p index symbol_id c).

(** The range of symbols starts at [start] and stops before [stop]. *)
Definition add (accept : bool) (r : t) (context : resource_grid_context) (grid : grid_pool.handle) (start stop : Z) : result t :=
  fold_result (add_symbol accept context grid) r (seqZ start (stop - start)).

Definition write_grid (r : t) (slot : slot_point.t) (port symbol start_re : Z) (re_iq_buffer : list cbf16_t) : result t :=
  '(index, c) ← entry r slot symbol;
  '(p, c) ← uplink_context.write_grid (pool r) c port start_re re_iq_buffer;
  Ok (set_entry r p index symbol c).

Definition get (r : t) (slot : slot_point.t) (symbol : Z) : result (t * uplink_context.t) :=
  '(_, c) ← entry r slot symbol;
  '(p, c) ← copy (pool r) c;
  Ok (mk_repo p (buffer r), c).

Definition try_popping_complete_resource_grid_symbol (accept : bool) (r : t) (slot : slot_point.t) (symbol : Z)
    : result (t * option info) :=
  '(index, c) ← entry r slot symbol;
  '(p, result_) ← try_getting_complete_resource_grid (pool r) c;
  match result_ with
  | None => Ok (mk_repo p (buffer r), None)
  | Some i =>
      '(p, c) ← assign accept p c default;
      Ok (set_entry r p index symbol c, Some i)
  end.

Definition pop_resource_grid_symbol (r : t) (slot : slot_point.t) (symbol : Z) : result (t * option info) :=
  '(index, c) ← entry r slot symbol;
  if empty c then Ok (r, None) else
  let '(c, i) := pop_uplink_context_resource_grid_info c in
  Ok (set_entry r (pool r) index symbol c, Some i).

Definition clear (accept : bool) (r : t) (slot : slot_point.t) (symbol : Z) : result t :=
  '(index, c) ← entry r slot symbol;
  '(p, c) ← assign accept (pool r) c default;
  Ok (set_entry r p index symbol c).

End uplink_context_repository.

(** ** What was requested from the radio unit *)
Module uplink_cplane_context_repository.

Record ul_cplane_context : Type := mk_cplane {
  radio_hdr : cplane.cplane_radio_application_header; prb_start : Z; nof_prb : Z; nof_symbols : Z }.

(** A value-initialised context. *)
Definition default : ul_cplane_context :=
  mk_cplane (cplane.mk_header uplink standard_channel_filter 0 slot_point.invalid) 0 0 0.

Abbreviation t := (list (list ul_cplane_context)).

Definition create (size_ : Z) : t := replicate (Z.to_nat size_) (replicate (Z.to_nat MAX_SUPPORTED_EAXC_ID_VALUE) default).

Definition entry (r : t) (slot : slot_point.t) (eaxc : Z) : result (Z * ul_cplane_context) :=
  index ← entry_index (zlen r) slot;
  row ← vec_at r index;
  c ← vec_at row eaxc;
  Ok (index, c).

Definition add (r : t) (slot : slot_point.t) (eaxc : Z) (context : ul_cplane_context) : result t :=
  '(index, _) ← entry r slot eaxc;
  Ok (alter (λ row, <[Z.to_nat eaxc := context]> row) (Z.to_nat index) r).

Definition get (r : t) (slot : slot_point.t) (symbol : Z) (filter : filter_index_type) (eaxc : Z)
    : result (option ul_cplane_context) :=
  '(_, cp_param) ← entry r slot eaxc;
  let start_symbol := cplane.start_symbol (radio_hdr cp_param) in
  if (start_symbol <=? symbol) && (symbol <? start_symbol + nof_symbols cp_param) &&
     bool_decide (filter = cplane.filter_index (radio_hdr cp_param))
  then Ok (Some cp_param) else Ok None.

End uplink_cplane_context_repository.

(** ** The repository as a table of cells *)

Section table.
Import uplink_context uplink_context_repository.
(** All the grids of the pool have the same dimensions. *)
Context (ports symb subc size : Z).

Definition shaped (g : resource_grid.t) : Prop :=
  wf g ∧ resource_grid.nof_ports g = ports ∧ resource_grid.nof_symb g = symb ∧ resource_grid.nof_subc g = subc.

Definition handle_of (c : uplink_context.t) : grid_pool.handle := grid (grid_info c).
Definition handles (r : uplink_context_repository.t) : list grid_pool.handle := map handle_of (concat (buffer r)).

(** A context in column [s] that refers to a grid has a mark per resource element. *)
Definition context_ok (s : nat) (c : uplink_context.t) : Prop :=
  handle_of c ≠ None →
  symbol c = Z.of_nat s ∧ Z.of_nat s < symb ∧ zlen (re_written c) = ports ∧
  Forall (λ b, bounded_bitset.wf re_capacity b ∧ bounded_bitset.size b = subc) (re_written c).

Definition context_at (r : uplink_context_repository.t) (i s : nat) : option uplink_context.t := buffer r !! i ≫= (.!! s).

(** [out]: the references held outside of the repository. *)
Record represents (r : uplink_context_repository.t) (out : list grid_pool.handle) : Prop := {
  rep_counted : counted (pool r) (handles r ++ out);
  rep_shape : Forall shaped (grid_pool.grids (pool r));
  rep_size : zlen (buffer r) = size;
  rep_rows : Forall (λ row, length row = Z.to_nat MAX_NSYMB_PER_SLOT) (buffer r);
  rep_contexts : ∀ i s c, context_at r i s = Some c → context_ok s c }.

(** What a context stands for: the symbol expected, its grid, and per port which
    resource elements have arrived. *)
Record cell : Type := mk_cell { cell_context : resource_grid_context; cell_grid : Z; cell_written : list (list bool) }.
Definition cell_of (c : uplink_context.t) : option cell :=
  id ← handle_of c; Some (mk_cell (context (grid_info c)) id (map (bits_of false) (re_written c))).
Definition table (r : uplink_context_repository.t) (i s : nat) : option cell := context_at r i s ≫= cell_of.

#[export] Instance represents_permutation r : Proper ((≡ₚ) ==> iff) (represents r).
Proof.
  assert (H : ∀ o o', o ≡ₚ o' → represents r o → represents r o').
  { intros o o' HP [HC Hs Hz Hr Hc]. constructor; [by rewrite <- HP|done..]. }
  intros o o' HP. split; by apply H.
Qed.

Lemma concat_replace {A} (l : list (list A)) i s row c c' : l !! i = Some row → row !! s = Some c →
  c' :: concat l ≡ₚ c :: concat (alter (λ row, <[s := c']> row) i l).
Proof.
  intros Hi Hs. assert (HA : alter (λ row, <[s := c']> row) i l = <[i := <[s := c']> row]> l).
  { apply list_eq. intros j. destruct (decide (i = j)) as [<-|Hne].
    - rewrite list_lookup_alter_eq, Hi, list_lookup_insert_eq by (by eapply lookup_lt_Some). done.
    - by rewrite list_lookup_alter_ne, list_lookup_insert_ne by done. }
  rewrite HA, insert_take_drop by (by eapply lookup_lt_Some).
  rewrite <- (take_drop_middle l i row Hi) at 1. rewrite !concat_app. cbn [concat].
  rewrite !(Permutation_app_comm (concat (take i l))), <- !app_assoc, !app_comm_cons.
  by rewrite (insert_permutation row s c c' Hs).
Qed.

Lemma context_at_set r p i s c i' s' row : buffer r !! i = Some row → (s < length row)%nat →
  context_at (set_entry r p (Z.of_nat i) (Z.of_nat s) c) i' s' =
    if decide (i = i' ∧ s = s') then Some c else context_at r i' s'.
Proof.
  intros Hi Hs. unfold context_at, set_entry. cbn [buffer]. rewrite !Nat2Z.id.
  destruct (decide (i = i')) as [<-|Hne].
  - rewrite list_lookup_alter_eq, Hi. cbn. destruct (decide (s = s')) as [<-|Hne'].
    + rewrite decide_True by done. by apply list_lookup_insert_eq.
    + rewrite decide_False by naive_solver. by apply list_lookup_insert_ne.
  - rewrite list_lookup_alter_ne by done. by rewrite decide_False by naive_solver.
Qed.

Lemma handles_set r i s c : context_at r i s = Some c →
  ∃ hs, handles r ≡ₚ handle_of c :: hs ∧ ∀ p c', handles (set_entry r p (Z.of_nat i) (Z.of_nat s) c') ≡ₚ handle_of c' :: hs.
Proof.
  unfold context_at. destruct (buffer r !! i) as [row|] eqn:Hi; [|done]. cbn. intros Hs.
  pose proof (concat_replace (buffer r) i s row c default Hi Hs) as H0.
  assert (Hin : c ∈ concat (buffer r)).
  { apply list_elem_of_In, in_concat. exists row. split; apply list_elem_of_In; by eapply list_elem_of_lookup_2. }
  apply elem_of_Permutation in Hin as [l Hl]. exists (map handle_of l). unfold handles. split; [by rewrite Hl|].
  intros p c'. cbn [set_entry buffer]. rewrite !Nat2Z.id. pose proof (concat_replace (buffer r) i s row c c' Hi Hs) as H1.
  rewrite Hl in H1. assert (H2 : c :: c' :: l ≡ₚ c :: concat (alter (λ row0, <[s := c']> row0) i (buffer r))) by (rewrite <- H1; solve_Permutation).
  apply Permutation_cons_inv in H2. by rewrite <- H2.
Qed.

(** Replacing a context, with the pool that goes with it. *)
Lemma represents_set r out out' p i s c c' : represents r out → context_at r i s = Some c →
  Forall shaped (grid_pool.grids p) → context_ok s c' →
  (∀ hs, handles r ≡ₚ handle_of c :: hs → counted p (handle_of c' :: hs ++ out')) →
  represents (set_entry r p (Z.of_nat i) (Z.of_nat s) c') out' ∧
  ∀ i' s', context_at (set_entry r p (Z.of_nat i) (Z.of_nat s) c') i' s' = if decide (i = i' ∧ s = s') then Some c' else context_at r i' s'.
Proof.
  intros HR Hc Hsh Hok HC. destruct (handles_set r i s c Hc) as (hs & Hh & Hh').
  assert (HL : ∃ row, buffer r !! i = Some row ∧ (s < length row)%nat).
  { unfold context_at in Hc. destruct (buffer r !! i) as [row|]; [|done]. cbn in Hc. exists row. split; [done|by eapply lookup_lt_Some]. }
  destruct HL as (row & Hi & Hs).
  assert (HX : ∀ i' s', context_at (set_entry r p (Z.of_nat i) (Z.of_nat s) c') i' s' = if decide (i = i' ∧ s = s') then Some c' else context_at r i' s')
    by (intros; by eapply context_at_set).
  split; [|done]. destruct HR as [_ _ Hz Hr Hcx]. constructor.
  - rewrite Hh'. apply (HC hs Hh).
  - done.
  - cbn [set_entry buffer]. unfold zlen in *. by rewrite length_alter.
  - cbn [set_entry buffer]. rewrite !Nat2Z.id. apply Forall_alter; [done|]. intros row' Hrow' Hl. by rewrite length_insert.
  - intros i' s' c''. rewrite HX. destruct (decide _) as [[_ <-]|]; [by intros [= <-]|apply Hcx].
Qed.

(** The index of a slot: its number within 256 frames, modulo the size. *)
Definition index_of (slot : slot_point.t) : nat :=
  Z.to_nat (slot_point.count_val (rx_window_checker.ofh_slot slot) mod size).

Context (Hsize : 0 < size).

Lemma index_of_bound slot : Z.of_nat (index_of slot) < size.
Proof.
  unfold index_of. pose proof (Z.mod_pos_bound (slot_point.count_val (rx_window_checker.ofh_slot slot)) size Hsize). lia.
Qed.

Lemma entry_index_spec slot : slot_point.wf slot → entry_index size slot = Ok (Z.of_nat (index_of slot)).
Proof.
  intros Hs. unfold entry_index. change SFN_MAX_VALUE with 256.
  destruct (rx_window_checker.ofh_slot_spec slot Hs) as [_ ->]. cbn [mbind result_bind]. pass_assume.
  f_equal. unfold index_of. rewrite Z2Nat.id; [done|]. by apply Z.mod_pos_bound.
Qed.

Lemma context_at_exists r out i s : represents r out → Z.of_nat i < size → Z.of_nat s < MAX_NSYMB_PER_SLOT →
  ∃ row c, buffer r !! i = Some row ∧ row !! s = Some c ∧ length row = Z.to_nat MAX_NSYMB_PER_SLOT.
Proof.
  intros HR Hi Hs. pose proof (rep_size r out HR) as HZ. pose proof (rep_rows r out HR) as HF.
  destruct (lookup_lt_is_Some_2 (buffer r) i) as [row Hrow]; [unfold zlen in HZ; lia|].
  rewrite Forall_lookup in HF. pose proof (HF _ _ Hrow) as HL. cbn beta in HL.
  destruct (lookup_lt_is_Some_2 row s) as [c Hc]; [lia|]. by exists row, c.
Qed.

Lemma entry_spec r out slot s : represents r out → slot_point.wf slot → Z.of_nat s < MAX_NSYMB_PER_SLOT →
  ∃ c, entry r slot (Z.of_nat s) = Ok (Z.of_nat (index_of slot), c) ∧ context_at r (index_of slot) s = Some c.
Proof.
  intros HR Hs Hsym. destruct (context_at_exists r out (index_of slot) s HR) as (row & c & Hrow & Hc & _); [apply index_of_bound|done|].
  exists c. unfold entry, context_at. pass_assume. rewrite (rep_size r out HR), entry_index_spec by done. cbn [mbind result_bind].
  unfold vec_at. rewrite !(proj2 (Z.leb_le 0 _)) by lia. rewrite !Nat2Z.id, Hrow. cbn [mbind result_bind]. by rewrite Hc.
Qed.
End table.

(** ** What the operations do to the table *)

(** The dimensions of the grids and the number of slots the repository holds. *)
Class Dimensions (ports symb subc size : Z) : Prop := {
  dim_ports : 0 <= ports <= MAX_NOF_SUPPORTED_EAXC;
  dim_symb : 0 <= symb;
  dim_subc : 0 <= subc <= re_capacity;
  dim_size : 0 < size }.

Section operations.
Import uplink_context uplink_context_repository.
Context (ports symb subc size : Z).
Context {Hdim : Dimensions ports symb subc size}.
Let Hports : 0 <= ports <= MAX_NOF_SUPPORTED_EAXC := dim_ports.
Let Hsymb : 0 <= symb := dim_symb.
Let Hsubc : 0 <= subc <= re_capacity := dim_subc.
Let Hsize : 0 < size := dim_size.

Abbreviation rep := (represents ports symb subc size).
Abbreviation idx := (index_of size).

(** The marks of a cell with a range of resource elements of a port set. *)
Definition mark (port k n : Z) (c : cell) : cell :=
  mk_cell (cell_context c) (cell_grid c) (alter (spec.fill (Z.to_nat k) (Z.to_nat (k + n)) true) (Z.to_nat port) (cell_written c)).
Definition complete (c : cell) : bool := forallb (forallb id) (cell_written c).

(** There is room in the counters for one more reference. *)
Definition roomy (r : uplink_context_repository.t) (out : list grid_pool.handle) : Prop :=
  zlen (handles r) + zlen out + 1 < grid_pool.ref_counter_available.

Lemma write_view_spec port s k buf g : wf g → on_grid g port s → 0 <= k → k + zlen buf <= resource_grid.nof_subc g →
  write_view port s k buf g = Ok (with_row g port s (patch k buf (row g port s))).
Proof.
  intros Hw Hg Hs Hb. unfold write_view, resource_grid.get_view_of. destruct (dimensions_wf g Hw) as (_ & -> & ->).
  pose proof Hg as [Hp Hl]. do 2 pass_assume. rewrite get_view_wf by done. cbn [mbind result_bind]. pose proof (zlen_nonneg buf).
  rewrite window_sub_ok by (cbn [len]; lia). cbn [mbind result_bind tensor.start].
  destruct (row_context g port s Hw Hg) as (u & v & Hu & HE & HR). pose proof (zlen_row g port s Hw Hg) as Hzr.
  rewrite HE, (store_middle u _ (row g port s) v k) by (cbn [tensor.start len]; lia). cbn [mbind result_bind].
  by rewrite HR by (rewrite zlen_patch; lia).
Qed.

Lemma table_lookup r i s c : context_at r i s = Some c → table r i s = cell_of c.
Proof. unfold table. by intros ->. Qed.

Lemma cell_of_Some c cl : cell_of c = Some cl → handle_of c = Some (cell_grid cl).
Proof. unfold cell_of. destruct (handle_of c) as [id|]; [|done]. by intros [= <-]. Qed.

Lemma rep_grid r out i s cl : rep r out → table r i s = Some cl →
  ∃ g, grid_pool.get (pool r) (Some (cell_grid cl)) = Ok g ∧ shaped ports symb subc g ∧
    grid_pool.grids (pool r) !! Z.to_nat (cell_grid cl) = Some g ∧ 0 <= cell_grid cl ∧ Some (cell_grid cl) ∈ handles r.
Proof.
  intros HR HT. unfold table in HT. destruct (context_at r i s) as [c|] eqn:Hc; [|done]. cbn in HT. apply cell_of_Some in HT as Hh.
  destruct (handles_set r i s c Hc) as (hs & HP & _). assert (Hin : Some (cell_grid cl) ∈ handles r) by (rewrite HP, Hh; set_solver).
  pose proof (rep_counted _ _ _ _ _ _ HR) as HC. pose proof (counted_valid _ _ _ HC ltac:(apply elem_of_app; by left)) as Hv.
  destruct (vec_at_grids _ _ _ HC Hv) as (g & HV & _). exists g. pose proof HV as HV'. apply vec_at_lookup_eq in HV' as [HL H0].
  split; [cbn [grid_pool.get]; unfold grid_pool.get_grid; by pass_assume|]. split; [|done].
  pose proof (rep_shape _ _ _ _ _ _ HR) as HF. rewrite Forall_lookup in HF. by eapply HF.
Qed.

Lemma set_entry_same r i s c : context_at r i s = Some c → set_entry r (pool r) (Z.of_nat i) (Z.of_nat s) c = r.
Proof.
  intros Hc. unfold set_entry. destruct r as [p b]. cbn [pool buffer] in *. f_equal. rewrite !Nat2Z.id.
  unfold context_at in Hc. cbn [buffer] in Hc. destruct (b !! i) as [row|] eqn:Hi; [|done]. cbn in Hc. apply list_eq. intros j.
  destruct (decide (i = j)) as [<-|]; [|by rewrite list_lookup_alter_ne]. rewrite list_lookup_alter_eq, Hi. cbn. by rewrite list_insert_id.
Qed.

Lemma map_alter_insert (f : list bool → list bool) (bs : list bounded_bitset.t) i b b' :
  bs !! i = Some b → bits_of false b' = f (bits_of false b) →
  alter f i (map (bits_of false) bs) = map (bits_of false) (<[i := b']> bs).
Proof.
  intros Hb HE. change (map ?g ?l) with (g <$> l). rewrite list_fmap_insert, HE. apply list_eq. intros j.
  destruct (decide (i = j)) as [<-|]; [|by rewrite list_lookup_alter_ne, list_lookup_insert_ne].
  rewrite list_lookup_alter_eq, list_lookup_fmap, Hb, list_lookup_insert_eq; [done|]. rewrite length_fmap. by eapply lookup_lt_Some.
Qed.

Lemma write_grid_spec r out slot s cl port k buf :
  rep r out → slot_point.wf slot → Z.of_nat s < MAX_NSYMB_PER_SLOT → table r (idx slot) s = Some cl →
  0 <= port < ports → 0 <= k → k + zlen buf <= subc →
  ∃ r' g, write_grid r slot port (Z.of_nat s) k buf = Ok r' ∧ rep r' out ∧
    (∀ i' s', table r' i' s' = upd (idx slot) s (Some (mark port k (zlen buf) cl)) (table r) i' s') ∧
    grid_pool.grids (pool r) !! Z.to_nat (cell_grid cl) = Some g ∧ shaped ports symb subc g ∧ Z.of_nat s < symb ∧
    grid_pool.grids (pool r') = <[Z.to_nat (cell_grid cl) := with_row g port (Z.of_nat s) (patch k buf (row g port (Z.of_nat s)))]> (grid_pool.grids (pool r)) ∧
    handles r' ≡ₚ handles r ∧ grid_pool.pending (pool r') = grid_pool.pending (pool r).
Proof.
  intros HR Hslot Hs HT Hp H0 Hb. destruct (entry_spec ports symb subc size Hsize r out slot s HR Hslot Hs) as (c & HE & Hc).
  unfold write_grid. rewrite HE. cbn [mbind result_bind]. rewrite (table_lookup _ _ _ _ Hc) in HT.
  destruct (rep_grid r out (idx slot) s cl HR ltac:(by rewrite (table_lookup _ _ _ _ Hc))) as (g & HG & Hsh & HL & Hid & Hin).
  pose proof (cell_of_Some c cl HT) as Hh. unfold handle_of in Hh. unfold uplink_context.write_grid. rewrite Hh. cbn [grid_pool.is_valid assume mbind result_bind].
  rewrite HG. cbn [mbind result_bind]. pose proof Hsh as (Hw & Hgp & Hgs & Hgk). destruct (dimensions_wf g Hw) as (_ & _ & ->). rewrite Hgp.
  replace (ports <=? port) with false by lia.
  destruct (rep_contexts _ _ _ _ _ _ HR _ _ _ Hc) as (Hsym & Hssy & Hzr & HF); [unfold handle_of; by rewrite Hh|].
  assert (Hog : on_grid g port (Z.of_nat s)) by (split; lia).
  cbn [grid_pool.update]. cbn [grid_pool.get] in HG. rewrite HG. cbn [mbind result_bind]. rewrite Hsym, write_view_spec by (done || lia). cbn [mbind result_bind].
  pass_assume. destruct (vec_at_ok (re_written c) port) as (b & HVb & HLb); [lia|]. rewrite HVb. cbn [mbind result_bind].
  rewrite Forall_lookup in HF. destruct (HF _ _ HLb) as [Hwb Hszb]. pose proof (zlen_nonneg buf).
  destruct (fill_list re_capacity false ltac:(done) b k (k + zlen buf) true Hwb) as (b' & HFb & Hwb' & Hsb' & HBb'); [lia|lia|].
  rewrite HFb. cbn [mbind result_bind]. set (p' := grid_pool.with_grids _ _). set (c' := mk _ _ _).
  assert (HH : handle_of c' = handle_of c) by done.
  assert (Hr' : zlen (patch k buf (row g port (Z.of_nat s))) = resource_grid.nof_subc g) by (rewrite zlen_patch; rewrite ?zlen_row by done; lia).
  destruct (represents_set ports symb subc size r out out p' (idx slot) s c c') as [HR' HX]; [done|done| | | |].
  - cbn [p' grid_pool.with_grids grid_pool.grids]. apply Forall_insert; [by apply HR|]. split; [by apply with_row_wf|done].
  - intros _. split; [done|]. split; [done|]. cbn [c' re_written]. split; [unfold zlen in *; by rewrite length_insert|].
    apply Forall_insert; [by apply Forall_lookup|]. by rewrite Hsb'.
  - intros hs HP. rewrite HH. apply with_grids_counted; [|apply Forall_insert; [|by apply with_row_wf]|by rewrite length_insert].
    + change (counted (pool r) ((handle_of c :: hs) ++ out)). rewrite <- HP. apply HR.
    + apply (counted_grids _ _ (rep_counted _ _ _ _ _ _ HR)).
  - eexists _, g. split; [done|]. split; [done|]. split; [|do 4 (split; [done|]); split; [|done]].
    + intros i' s'. unfold table, upd. rewrite HX. destruct (decide _) as [[<- <-]|]; [|done]. cbn.
      unfold cell_of in HT |- *. rewrite HH. unfold handle_of in *. rewrite Hh in HT |- *. injection HT as <-. cbn. f_equal. unfold mark. cbn [cell_context cell_grid cell_written].
      f_equal. symmetry. by apply map_alter_insert with b.
    + destruct (handles_set r (idx slot) s c Hc) as (hs & HP & HP'). by rewrite HP', HP, HH.
Qed.

(** A port the grid does not have is ignored; a symbol nobody expects fails the
    assertion. *)
Lemma write_grid_other r out slot s port k buf :
  rep r out → slot_point.wf slot → Z.of_nat s < MAX_NSYMB_PER_SLOT →
  match table r (idx slot) s with
  | None => write_grid r slot port (Z.of_nat s) k buf = Fault AssertFailed
  | Some _ => ports <= port → write_grid r slot port (Z.of_nat s) k buf = Ok r
  end.
Proof.
  intros HR Hslot Hs. destruct (entry_spec ports symb subc size Hsize r out slot s HR Hslot Hs) as (c & HE & Hc).
  rewrite (table_lookup _ _ _ _ Hc). destruct (cell_of c) as [cl|] eqn:HT; unfold write_grid; rewrite HE; cbn [mbind result_bind].
  - intros Hp. destruct (rep_grid r out (idx slot) s cl HR ltac:(by rewrite (table_lookup _ _ _ _ Hc))) as (g & HG & Hsh & _).
    pose proof (cell_of_Some c cl HT) as Hh. unfold handle_of in Hh. unfold uplink_context.write_grid. rewrite Hh. cbn [grid_pool.is_valid assume mbind result_bind].
    rewrite HG. cbn [mbind result_bind]. destruct Hsh as (Hw & Hgp & _). destruct (dimensions_wf g Hw) as (_ & _ & ->). rewrite Hgp.
    replace (ports <=? port) with true by lia. cbn [mbind result_bind]. by rewrite set_entry_same.
  - unfold cell_of, handle_of in HT. unfold uplink_context.write_grid. by destruct (grid (grid_info c)).
Qed.

(** [get] hands out a copy, with a reference of its own. *)
Lemma get_spec r out slot s : rep r out → slot_point.wf slot → Z.of_nat s < MAX_NSYMB_PER_SLOT → roomy r out →
  ∃ r' c, get r slot (Z.of_nat s) = Ok (r', c) ∧ cell_of c = table r (idx slot) s ∧ rep r' (handle_of c :: out) ∧
    buffer r' = buffer r ∧ grid_pool.grids (pool r') = grid_pool.grids (pool r) ∧
    grid_pool.pending (pool r') = grid_pool.pending (pool r).
Proof.
  intros HR Hslot Hs Hroom. destruct (entry_spec ports symb subc size Hsize r out slot s HR Hslot Hs) as (c & HE & Hc).
  unfold get. rewrite HE. cbn [mbind result_bind]. unfold copy. fold (handle_of c).
  destruct (handles_set r (idx slot) s c Hc) as (hs & HP & _).
  destruct (copy_counted (pool r) (handles r ++ out) (handle_of c)) as (p' & -> & HC' & HG' & HQ' & _).
  { apply HR. } { rewrite HP. set_solver. } { rewrite zlen_app. unfold roomy in Hroom. lia. }
  cbn [mbind result_bind]. eexists _, _. split; [done|]. split; [by rewrite (table_lookup _ _ _ _ Hc); destruct c as [? [? ?] ?]|].
  split; [|done]. destruct HR as [_ Hsh Hz Hr Hcx]. constructor; cbn [pool buffer]; [|by rewrite HG'|done..].
  change (handles (mk_repo p' (buffer r))) with (handles r). change (handle_of (mk _ _ _)) with (handle_of c). by rewrite <- Permutation_middle.
Qed.

(** A reference held outside is given back. *)
Lemma release_spec accept r out h : rep r (h :: out) →
  ∃ p', grid_pool.release accept (pool r) h = Ok p' ∧ rep (mk_repo p' (buffer r)) out ∧
    grid_pool.grids p' = grid_pool.grids (pool r).
Proof.
  intros HR. destruct (release_counted accept (pool r) h (handles r ++ out)) as (p' & -> & HC' & HG' & _).
  { rewrite Permutation_middle. apply HR. }
  exists p'. split; [done|]. split; [|done]. destruct HR as [_ Hsh Hz Hr Hcx]. constructor; cbn [pool buffer]; [done|by rewrite HG'|done..].
Qed.

Lemma all_of_bits N bs : 0 <= N < 2 ^ 31 → Forall (bounded_bitset.wf N) bs → all_of bs = Ok (forallb (forallb id) (map (bits_of false) bs)).
Proof.
  intros HN. induction 1 as [|b bs Hb Hbs IH]; [done|]. cbn [all_of map forallb].
  rewrite (all_list N false HN b Hb). cbn [mbind result_bind]. by destruct (forallb id _).
Qed.

Lemma all_of_spec bs : Forall (λ b, bounded_bitset.wf re_capacity b ∧ bounded_bitset.size b = subc) bs →
  all_of bs = Ok (forallb (forallb id) (map (bits_of false) bs)).
Proof. intros HF. apply (all_of_bits re_capacity); [done|]. eapply Forall_impl; [exact HF|]. by intros b [Hb _]. Qed.

Lemma default_ok s : context_ok ports symb subc s default.
Proof. by intros []. Qed.

(** The context of a symbol is replaced by an empty one, and what it held released. *)
Lemma discard_spec accept r out p slot s c : rep r out → context_at r (idx slot) s = Some c →
  (∀ hs, handles r ≡ₚ handle_of c :: hs → counted p (handle_of c :: hs ++ out)) → Forall (shaped ports symb subc) (grid_pool.grids p) →
  ∃ p', assign accept p c default = Ok (p', default) ∧ rep (set_entry r p' (Z.of_nat (idx slot)) (Z.of_nat s) default) out ∧
    (∀ i' s', table (set_entry r p' (Z.of_nat (idx slot)) (Z.of_nat s) default) i' s' = upd (idx slot) s None (table r) i' s') ∧
    grid_pool.grids p' = grid_pool.grids p.
Proof.
  intros HR Hc HC HS. unfold assign. fold (handle_of c). destruct (handles_set r (idx slot) s c Hc) as (hs & HP & _).
  destruct (release_counted accept p (handle_of c) (hs ++ out)) as (p' & HE & HC' & HG' & _); [by apply HC|].
  rewrite HE. cbn [mbind result_bind]. exists p'. split; [done|].
  destruct (represents_set ports symb subc size r out out p' (idx slot) s c default) as [HR' HX]; [done|done|by rewrite HG'|apply default_ok| |].
  - intros hs' HP'. rewrite HP in HP'. apply Permutation_cons_inv in HP'. cbn [handle_of default grid_info grid].
    assert (HZ : zlen (hs' ++ out) + 1 < grid_pool.ref_counter_available).
    { pose proof (counted_number _ _ (HC hs HP)) as HN. rewrite zlen_cons in HN. unfold zlen in *. rewrite <- HP'. lia. }
    apply counted_add_none; [by rewrite <- HP'|done].
  - split; [done|]. split; [|done]. intros i' s'. unfold table, upd. rewrite HX. by destruct (decide _).
Qed.

Lemma clear_spec accept r out slot s : rep r out → slot_point.wf slot → Z.of_nat s < MAX_NSYMB_PER_SLOT →
  ∃ r', clear accept r slot (Z.of_nat s) = Ok r' ∧ rep r' out ∧
    (∀ i' s', table r' i' s' = upd (idx slot) s None (table r) i' s') ∧
    grid_pool.grids (pool r') = grid_pool.grids (pool r).
Proof.
  intros HR Hslot Hs. destruct (entry_spec ports symb subc size Hsize r out slot s HR Hslot Hs) as (c & HE & Hc).
  unfold clear. rewrite HE. cbn [mbind result_bind].
  destruct (discard_spec accept r out (pool r) slot s c HR Hc) as (p' & -> & HR' & HT' & HG').
  { intros hs HP. change (counted (pool r) ((handle_of c :: hs) ++ out)). rewrite <- HP. apply HR. } { apply HR. }
  cbn [mbind result_bind]. eexists. done.
Qed.

(** A symbol is taken out when all its resource elements have arrived, and only then. *)
Lemma try_pop_spec accept r out slot s : rep r out → slot_point.wf slot → Z.of_nat s < MAX_NSYMB_PER_SLOT → roomy r out →
  match table r (idx slot) s with
  | Some cl =>
      if complete cl then
        ∃ r', try_popping_complete_resource_grid_symbol accept r slot (Z.of_nat s) =
                Ok (r', Some (mk_info (cell_context cl) (Some (cell_grid cl)))) ∧
          rep r' (Some (cell_grid cl) :: out) ∧ (∀ i' s', table r' i' s' = upd (idx slot) s None (table r) i' s') ∧
          grid_pool.grids (pool r') = grid_pool.grids (pool r)
      else try_popping_complete_resource_grid_symbol accept r slot (Z.of_nat s) = Ok (r, None)
  | None => try_popping_complete_resource_grid_symbol accept r slot (Z.of_nat s) = Ok (r, None)
  end.
Proof.
  intros HR Hslot Hs Hroom. destruct (entry_spec ports symb subc size Hsize r out slot s HR Hslot Hs) as (c & HE & Hc).
  rewrite (table_lookup _ _ _ _ Hc). unfold try_popping_complete_resource_grid_symbol. rewrite HE. cbn [mbind result_bind].
  unfold try_getting_complete_resource_grid. destruct (cell_of c) as [cl|] eqn:HT.
  2: { unfold cell_of, handle_of in HT. destruct (grid (grid_info c)); [done|]. cbn. by destruct r. }
  pose proof (cell_of_Some c cl HT) as Hh. pose proof Hh as Hh'. unfold handle_of in Hh'. rewrite Hh'. cbn [grid_pool.is_valid negb].
  destruct (rep_contexts _ _ _ _ _ _ HR _ _ _ Hc) as (Hsym & Hssy & Hzr & HF); [by rewrite Hh|].
  unfold have_all_prbs_been_written. rewrite all_of_spec by done. cbn [mbind result_bind].
  assert (HCL : cl = mk_cell (context (grid_info c)) (cell_grid cl) (map (bits_of false) (re_written c))).
  { unfold cell_of in HT. rewrite Hh in HT. injection HT as <-. done. }
  assert (HCC : complete cl = forallb (forallb id) (map (bits_of false) (re_written c))) by (unfold complete; by rewrite HCL).
  rewrite <- HCC. destruct (complete cl); cbn [negb]; [|by destruct r].
  destruct (handles_set r (idx slot) s c Hc) as (hs & HP & _).
  destruct (copy_counted (pool r) (handles r ++ out) (Some (cell_grid cl))) as (p' & HCp & HC' & HG' & _).
  { apply HR. } { rewrite HP, Hh. set_solver. } { rewrite zlen_app. unfold roomy in Hroom. lia. }
  rewrite HCp. cbn [mbind result_bind].
  assert (HR1 : rep (mk_repo p' (buffer r)) (Some (cell_grid cl) :: out)).
  { destruct HR as [_ Hsh Hz Hr Hcx]. constructor; cbn [pool buffer]; [|by rewrite HG'|done..]. by rewrite <- Permutation_middle. }
  destruct (discard_spec accept (mk_repo p' (buffer r)) (Some (cell_grid cl) :: out) p' slot s c HR1 Hc) as (p2 & -> & HR2 & HT2 & HG2).
  { intros hs' HP'. change (counted p' ((handle_of c :: hs') ++ Some (cell_grid cl) :: out)). rewrite <- HP', <- Permutation_middle. exact HC'. }
  { rewrite HG'. apply HR. }
  cbn [mbind result_bind]. eexists. split; [by rewrite HCL|]. split; [done|]. split; [done|]. cbn [set_entry pool]. by rewrite HG2, HG'.
Qed.

(** When the window closes, what is there is taken out, complete or not. *)
Lemma pop_spec r out slot s : rep r out → slot_point.wf slot → Z.of_nat s < MAX_NSYMB_PER_SLOT → roomy r out →
  match table r (idx slot) s with
  | Some cl =>
      ∃ r', pop_resource_grid_symbol r slot (Z.of_nat s) = Ok (r', Some (mk_info (cell_context cl) (Some (cell_grid cl)))) ∧
        rep r' (Some (cell_grid cl) :: out) ∧ (∀ i' s', table r' i' s' = upd (idx slot) s None (table r) i' s') ∧ pool r' = pool r
  | None => pop_resource_grid_symbol r slot (Z.of_nat s) = Ok (r, None)
  end.
Proof.
  intros HR Hslot Hs Hroom. destruct (entry_spec ports symb subc size Hsize r out slot s HR Hslot Hs) as (c & HE & Hc).
  rewrite (table_lookup _ _ _ _ Hc). unfold pop_resource_grid_symbol. rewrite HE. cbn [mbind result_bind]. unfold empty.
  destruct (cell_of c) as [cl|] eqn:HT; [|unfold cell_of, handle_of in HT; by destruct (grid (grid_info c))].
  pose proof (cell_of_Some c cl HT) as Hh. pose proof Hh as Hh'. unfold handle_of in Hh'. rewrite Hh'. cbn [grid_pool.is_valid negb].
  assert (HI : grid_info c = mk_info (cell_context cl) (Some (cell_grid cl))).
  { unfold cell_of in HT. rewrite Hh in HT. injection HT as <-. destruct c as [? [? ?] ?]. cbn in *. by rewrite Hh'. }
  unfold pop_uplink_context_resource_grid_info. set (c' := mk _ _ _).
  destruct (represents_set ports symb subc size r out (Some (cell_grid cl) :: out) (pool r) (idx slot) s c c') as [HR' HX]; [done|done|apply HR|by intros []| |].
  - intros hs HP. cbn [handle_of c' grid_info grid]. apply counted_add_none.
    + rewrite <- Permutation_middle. change (counted (pool r) ((Some (cell_grid cl) :: hs) ++ out)). rewrite <- Hh, <- HP. apply HR.
    + unfold roomy in Hroom. assert (zlen (handles r) = 1 + zlen hs) by (unfold zlen; by rewrite HP; cbn; lia).
      rewrite zlen_app, zlen_cons. lia.
  - eexists. split; [by rewrite HI|]. split; [done|]. split; [|done]. intros i' s'. unfold table, upd. rewrite HX. by destruct (decide _).
Qed.

(** The number of references in the repository never changes. *)
Lemma zlen_handles r out : rep r out → zlen (handles r) = size * MAX_NSYMB_PER_SLOT.
Proof.
  intros HR. pose proof (rep_rows _ _ _ _ _ _ HR) as HF. rewrite <- (rep_size _ _ _ _ _ _ HR). unfold handles, zlen. rewrite length_map.
  induction HF as [|row b Hrow HF IH]; [done|]. cbn [concat length]. rewrite length_app, Hrow. change (Z.to_nat MAX_NSYMB_PER_SLOT) with 14%nat.
  change MAX_NSYMB_PER_SLOT with 14 in *. lia.
Qed.

Definition fresh_cell (context : resource_grid_context) (gid : Z) : cell :=
  mk_cell context gid (replicate (Z.to_nat ports) (replicate (Z.to_nat subc) false)).

Lemma add_symbol_spec accept r out context gid s :
  rep r out → Some gid ∈ out → slot_point.wf (ctx_slot context) → Z.of_nat s < MAX_NSYMB_PER_SLOT → Z.of_nat s < symb → roomy r out →
  ∃ r', add_symbol accept context (Some gid) r (Z.of_nat s) = Ok r' ∧ rep r' out ∧
    (∀ i' s', table r' i' s' = upd (idx (ctx_slot context)) s (Some (fresh_cell context gid)) (table r) i' s') ∧
    grid_pool.grids (pool r') = grid_pool.grids (pool r).
Proof.
  intros HR Hin Hslot Hs Hsy Hroom. pose proof (rep_counted _ _ _ _ _ _ HR) as HC0. unfold add_symbol, uplink_context.create.
  destruct (copy_counted (pool r) (handles r ++ out) (Some gid)) as (p1 & -> & HC1 & HG1 & _); [done|set_solver|rewrite zlen_app; unfold roomy in Hroom; lia|].
  cbn [mbind result_bind]. pose proof (counted_valid _ _ gid HC1 ltac:(set_solver)) as Hv. destruct (vec_at_grids _ _ _ HC1 Hv) as (g & HV & _).
  assert (HGet : grid_pool.get p1 (Some gid) = Ok g) by (cbn [grid_pool.get]; unfold grid_pool.get_grid; by pass_assume).
  rewrite HGet. cbn [mbind result_bind]. pose proof (rep_shape _ _ _ _ _ _ HR) as HSh. apply vec_at_lookup_eq in HV as [HV _]. rewrite HG1 in HV.
  assert (Hg : shaped ports symb subc g) by (rewrite Forall_lookup in HSh; by eapply HSh). destruct Hg as (Hw & Hgp & Hgs & Hgk).
  destruct (dimensions_wf g Hw) as (-> & _ & ->). rewrite Hgk, Hgp.
  destruct (create_list re_capacity false ltac:(done) subc) as (b & -> & Hwb & Hsb & HBb); [lia|]. cbn [mbind result_bind]. pass_assume.
  set (c' := mk _ _ _).
  assert (HR1 : rep (mk_repo p1 (buffer r)) (Some gid :: out)).
  { destruct HR as [_ Hsh Hz Hr Hcx]. constructor; cbn [pool buffer]; [|by rewrite HG1|done..]. by rewrite <- Permutation_middle. }
  destruct (entry_spec ports symb subc size Hsize (mk_repo p1 (buffer r)) _ _ s HR1 Hslot Hs) as (c & -> & Hc). cbn [mbind result_bind].
  unfold assign. fold (handle_of c). destruct (handles_set (mk_repo p1 (buffer r)) _ s c Hc) as (hs & HP & _).
  destruct (release_counted accept p1 (handle_of c) (hs ++ Some gid :: out)) as (p2 & -> & HC2 & HG2 & _).
  { change (counted p1 ((handle_of c :: hs) ++ Some gid :: out)). rewrite <- HP. apply HR1. }
  cbn [mbind result_bind]. change (set_entry r p2) with (set_entry (mk_repo p1 (buffer r)) p2).
  destruct (represents_set ports symb subc size (mk_repo p1 (buffer r)) (Some gid :: out) out p2 (idx (ctx_slot context)) s c c') as [HR' HX]; [done|done|by rewrite HG2, HG1| | |].
  - intros _. split; [done|]. split; [done|]. cbn [c' re_written]. split; [unfold zlen; rewrite length_replicate; lia|].
    apply Forall_replicate. done.
  - intros hs' HP'. rewrite HP in HP'. apply Permutation_cons_inv in HP'. cbn [handle_of c' grid_info grid].
    rewrite Permutation_middle, <- HP'. done.
  - eexists. split; [done|]. split; [done|]. split; [|by cbn [set_entry pool]; rewrite HG2].
    intros i' s'. unfold table, upd. rewrite HX. destruct (decide _); [|done]. cbn. unfold fresh_cell. do 2 f_equal.
    change (map ?f ?l) with (f <$> l). rewrite fmap_replicate. by rewrite HBb.
Qed.

Lemma add_spec accept r out context gid start stop :
  rep r out → Some gid ∈ out → slot_point.wf (ctx_slot context) → 0 <= start <= stop → stop <= MAX_NSYMB_PER_SLOT → stop <= symb → roomy r out →
  ∃ r', add accept r context (Some gid) start stop = Ok r' ∧ rep r' out ∧
    (∀ i' s', table r' i' s' = if decide (i' = idx (ctx_slot context) ∧ start <= Z.of_nat s' < stop)
                               then Some (fresh_cell context gid) else table r i' s') ∧
    grid_pool.grids (pool r') = grid_pool.grids (pool r).
Proof.
  intros HR Hin Hslot [H0 Hle] Hm Hs Hroom. unfold add. remember (Z.to_nat (stop - start)) as n eqn:En.
  assert (Hn : stop = start + Z.of_nat n) by lia. clear En Hle. subst stop. replace (start + Z.of_nat n - start) with (Z.of_nat n) by lia.
  revert r start HR H0 Hm Hs Hroom. induction n as [|n IH]; intros r start HR H0 Hm Hs Hroom.
  - rewrite seqZ_nil by lia. exists r. split; [done|]. split; [done|]. split; [|done]. intros i' s'. by rewrite decide_False by lia.
  - rewrite seqZ_cons by lia. cbn [fold_result].
    destruct (add_symbol_spec accept r out context gid (Z.to_nat start) HR Hin Hslot) as (r1 & HA & HR1 & HT1 & HG1); [lia|lia|done|].
    rewrite Z2Nat.id in HA by lia. rewrite HA. cbn [mbind result_bind].
    destruct (IH r1 (Z.succ start)) as (r2 & HE2 & HR2 & HT2 & HG2); [done|lia|lia|lia| |].
    { unfold roomy in *. by rewrite (zlen_handles r1 out), <- (zlen_handles r out) by done. }
    replace (Z.pred (Z.of_nat (S n))) with (Z.of_nat n) by lia. rewrite HE2. exists r2. split; [done|]. split; [done|]. split; [|congruence].
    intros i' s'. rewrite HT2, HT1. unfold upd. repeat case_decide; try done; exfalso; lia.
Qed.
End operations.

(** ** Sequences of operations *)

Section refinement.
Import uplink_context uplink_context_repository.

Inductive op : Type :=
| Add (accept : bool) (context : resource_grid_context) (gid start stop : Z)
| Write (slot : slot_point.t) (port : Z) (s : nat) (k : Z) (buf : list cbf16_t)
| TryPop (accept : bool) (slot : slot_point.t) (s : nat)
| Pop (slot : slot_point.t) (s : nat)
| Clear (accept : bool) (slot : slot_point.t) (s : nat).

(** An operation, and what it takes out of the repository. *)
Definition step (r : uplink_context_repository.t) (o : op) : result (uplink_context_repository.t * list info) :=
  match o with
  | Add accept context gid start stop => r ← add accept r context (Some gid) start stop; Ok (r, [])
  | Write slot port s k buf => r ← write_grid r slot port (Z.of_nat s) k buf; Ok (r, [])
  | TryPop accept slot s =>
      '(r, i) ← try_popping_complete_resource_grid_symbol accept r slot (Z.of_nat s); Ok (r, option_list i)
  | Pop slot s => '(r, i) ← pop_resource_grid_symbol r slot (Z.of_nat s); Ok (r, option_list i)
  | Clear accept slot s => r ← clear accept r slot (Z.of_nat s); Ok (r, [])
  end.

Fixpoint run (r : uplink_context_repository.t) (ops : list op) : result (uplink_context_repository.t * list info) :=
  match ops with
  | [] => Ok (r, [])
  | o :: ops => '(r, i) ← step r o; '(r, is') ← run r ops; Ok (r, i ++ is')
  end.

Context (ports symb subc size : Z).
Context {Hdim : Dimensions ports symb subc size}.
Let Hports : 0 <= ports <= MAX_NOF_SUPPORTED_EAXC := dim_ports.
Let Hsymb : 0 <= symb := dim_symb.
Let Hsubc : 0 <= subc <= re_capacity := dim_subc.
Let Hsize : 0 < size := dim_size.

(** What is promised: cells that are filled, marked and emptied, and the samples of
    every grid, port and symbol. *)
Record abstract : Type := mk_abstract { cells : nat → nat → option cell; samples : Z → Z → Z → list cbf16_t }.

Definition spec_step (a : abstract) (o : op) : option (abstract * list info) :=
  match o with
  | Add _ context gid start stop =>
      Some (mk_abstract (λ i s, if decide (i = index_of size (ctx_slot context) ∧ start <= Z.of_nat s < stop)
                                then Some (fresh_cell ports subc context gid) else cells a i s) (samples a), [])
  | Write slot port s k buf =>
      c ← cells a (index_of size slot) s;
      if ports <=? port then Some (a, []) else
      Some (mk_abstract (upd (index_of size slot) s (Some (mark port k (zlen buf) c)) (cells a))
              (λ gid port' s', if decide (gid = cell_grid c ∧ port' = port ∧ s' = Z.of_nat s)
                               then patch k buf (samples a gid port' s') else samples a gid port' s'), [])
  | TryPop _ slot s =>
      match cells a (index_of size slot) s with
      | Some c => if complete c then Some (mk_abstract (upd (index_of size slot) s None (cells a)) (samples a),
                                           [mk_info (cell_context c) (Some (cell_grid c))])
                  else Some (a, [])
      | None => Some (a, [])
      end
  | Pop slot s =>
      match cells a (index_of size slot) s with
      | Some c => Some (mk_abstract (upd (index_of size slot) s None (cells a)) (samples a),
                        [mk_info (cell_context c) (Some (cell_grid c))])
      | None => Some (a, [])
      end
  | Clear _ slot s => Some (mk_abstract (upd (index_of size slot) s None (cells a)) (samples a), [])
  end.

Fixpoint spec_run (a : abstract) (ops : list op) : option (abstract * list info) :=
  match ops with
  | [] => Some (a, [])
  | o :: ops => '(a, i) ← spec_step a o; '(a, is') ← spec_run a ops; Some (a, i ++ is')
  end.

(** The arguments are in range; the caller of [add] holds the grid. *)
Definition op_ok (out : list grid_pool.handle) (o : op) : Prop :=
  match o with
  | Add _ context gid start stop =>
      Some gid ∈ out ∧ slot_point.wf (ctx_slot context) ∧ 0 <= start <= stop ∧ stop <= MAX_NSYMB_PER_SLOT ∧ stop <= symb
  | Write slot port s k buf => slot_point.wf slot ∧ Z.of_nat s < MAX_NSYMB_PER_SLOT ∧ 0 <= port ∧ 0 <= k ∧ k + zlen buf <= subc
  | TryPop _ slot s | Pop slot s | Clear _ slot s => slot_point.wf slot ∧ Z.of_nat s < MAX_NSYMB_PER_SLOT
  end.

Record implements (r : uplink_context_repository.t) (out : list grid_pool.handle) (a : abstract) : Prop := {
  impl_rep : represents ports symb subc size r out;
  impl_cells : ∀ i s, table r i s = cells a i s;
  impl_samples : ∀ gid g port s, 0 <= gid → grid_pool.grids (pool r) !! Z.to_nat gid = Some g → 0 <= port < ports → 0 <= s < symb →
    row g port s = samples a gid port s }.

#[export] Instance implements_permutation r : Proper ((≡ₚ) ==> eq ==> iff) (implements r).
Proof.
  intros o o' HP a ? <-. split; intros [HR HC HS]; constructor; [by rewrite <- HP|done|done|by rewrite HP|done|done].
Qed.

(** An operation takes out at most one symbol. *)
Lemma spec_step_taken a o a' i : spec_step a o = Some (a', i) → zlen i <= 1.
Proof.
  intros H. assert (HN : zlen (@nil info) <= 1) by done. assert (HO : ∀ x : info, zlen [x] <= 1) by done.
  destruct o; cbn [spec_step] in H; repeat case_match; simplify_option_eq; done.
Qed.

Lemma step_implements r out a o : implements r out a → op_ok out o → roomy r out →
  match spec_step a o with
  | None => step r o = Fault AssertFailed
  | Some (a', i) => ∃ r', step r o = Ok (r', i) ∧ implements r' (map grid i ++ out) a'
  end.
Proof.
  intros [HR HC HS] Ho Hroom. destruct o as [acc context gid start stop|slot port s k buf|acc slot s|slot s|acc slot s]; cbn [spec_step step op_ok] in *.
  - destruct Ho as (Hin & Hslot & Hr & Hm & Hs).
    destruct (add_spec ports symb subc size acc r out context gid start stop) as (r' & -> & HR' & HT' & HG'); [done..|].
    exists r'. split; [done|]. constructor; [done| |by rewrite HG']. intros i s. cbn [cells]. rewrite HT'. by destruct (decide _).
  - destruct Ho as (Hslot & Hs & Hp & Hk & Hb).
    pose proof (write_grid_other ports symb subc size r out slot s port k buf HR Hslot Hs) as HO.
    rewrite HC in HO. destruct (cells a (index_of size slot) s) as [c|] eqn:Ec; cbn [mbind option_bind]; [|by rewrite HO].
    destruct (Z.leb_spec ports port) as [Hge|Hlt]; [rewrite HO by done; by exists r|].
    destruct (write_grid_spec ports symb subc size r out slot s c port k buf) as (r' & g & -> & HR' & HT' & HL & Hsh & Hss & HG' & _); [done|done|done|by rewrite HC|lia|done|done|].
    exists r'. split; [done|]. cbn [map app]. constructor; [done| |].
    + intros i' s'. rewrite HT'. unfold upd. cbn [cells]. unfold upd. by destruct (decide _).
    + intros gid g' port' s' H0 Hg' Hp' Hs'. cbn [samples]. rewrite HG' in Hg'. destruct Hsh as (Hw & Hgp & Hgs & Hgk).
      assert (Hog : on_grid g port (Z.of_nat s)) by (split; lia).
      assert (Hzp : zlen (patch k buf (row g port (Z.of_nat s))) = resource_grid.nof_subc g) by (rewrite zlen_patch; rewrite ?zlen_row by done; lia).
      destruct (rep_grid ports symb subc size r out (index_of size slot) s c HR ltac:(by rewrite HC)) as (_ & _ & _ & _ & Hid & _).
      destruct (decide (gid = cell_grid c)) as [->|Hne].
      * rewrite list_lookup_insert_eq in Hg' by (by eapply lookup_lt_Some). injection Hg' as <-.
        rewrite row_with_row by (done || (split; lia)). rewrite <- (HS _ _ _ _ H0 HL Hp' Hs').
        destruct (decide (port = port' ∧ Z.of_nat s = s')) as [[-> <-]|Hn]; [by rewrite decide_True|]. rewrite decide_False by naive_solver. done.
      * rewrite list_lookup_insert_ne in Hg' by lia. rewrite decide_False by naive_solver. by apply HS.
  - destruct Ho as [Hslot Hs]. pose proof (try_pop_spec ports symb subc size acc r out slot s HR Hslot Hs Hroom) as HP. rewrite HC in HP.
    destruct (cells a (index_of size slot) s) as [c|]; [destruct (complete c)|]; try (rewrite HP; by exists r).
    destruct HP as (r' & -> & HR' & HT' & HG'). exists r'. split; [done|]. constructor; [done| |by rewrite HG'].
    intros i' s'. rewrite HT'. cbn [cells]. unfold upd. by destruct (decide _).
  - destruct Ho as [Hslot Hs]. pose proof (pop_spec ports symb subc size r out slot s HR Hslot Hs Hroom) as HP. rewrite HC in HP.
    destruct (cells a (index_of size slot) s) as [c|]; [|rewrite HP; by exists r].
    destruct HP as (r' & -> & HR' & HT' & HG'). exists r'. split; [done|]. constructor; [done| |by rewrite HG'].
    intros i' s'. rewrite HT'. cbn [cells]. unfold upd. by destruct (decide _).
  - destruct Ho as [Hslot Hs]. destruct (clear_spec ports symb subc size acc r out slot s HR Hslot Hs) as (r' & -> & HR' & HT' & HG').
    exists r'. split; [done|]. constructor; [done| |by rewrite HG']. intros i' s'. rewrite HT'. cbn [cells]. unfold upd. by destruct (decide _).
Qed.

(** The uplink repository implements a table of expected symbols.  Every sequence of
    additions, writes, and removals (of complete symbols, of symbols whose window has
    closed, of any symbol) takes out the same grids with the same contexts as the table
    does, in the same order, marks the same resource elements, and leaves the same
    samples in every grid; a write for a symbol nobody expects fails the assertion in
    both.  Throughout, the repository and the receivers of what was taken out hold
    counted references. *)
Theorem uplink_repository_refines ops : ∀ r out a,
  implements r out a → Forall (op_ok out) ops → zlen (handles r) + zlen out + zlen ops + 1 < grid_pool.ref_counter_available →
  match spec_run a ops with
  | None => run r ops = Fault AssertFailed
  | Some (a', taken) => ∃ r', run r ops = Ok (r', taken) ∧ implements r' (map grid taken ++ out) a'
  end.
Proof.
  induction ops as [|o ops IH]; intros r out a HI Ho Hn; cbn [spec_run run]; [by exists r|].
  inversion_clear Ho as [|? ? Ho1 Hos]. rewrite zlen_cons in Hn. pose proof (zlen_nonneg ops).
  pose proof (step_implements r out a o HI Ho1 ltac:(unfold roomy; lia)) as HS.
  destruct (spec_step a o) as [[a1 i]|] eqn:Es; cbn [mbind option_bind]; [|by rewrite HS].
  pose proof (spec_step_taken a o a1 i Es) as Hi. destruct HS as (r1 & -> & HI1). cbn [mbind result_bind].
  assert (HZ : zlen (handles r1) = zlen (handles r)).
  { rewrite (zlen_handles ports symb subc size r out), (zlen_handles ports symb subc size r1 (map grid i ++ out)); [done|by destruct HI1|by destruct HI]. }
  specialize (IH r1 (map grid i ++ out) a1 HI1). destruct (spec_run a1 ops) as [[a2 taken]|]; cbn [mbind option_bind].
  - destruct IH as (r2 & -> & HI2); [|unfold zlen in *; rewrite length_app, length_map; lia|].
    + eapply Forall_impl; [exact Hos|]. intros [] Hk; cbn [op_ok] in *; set_solver.
    + cbn [mbind result_bind]. exists r2. split; [done|]. rewrite map_app, <- app_assoc. by rewrite (Permutation_app_swap_app (map grid i)).
  - rewrite IH; [done| |unfold zlen in *; rewrite length_app, length_map; lia].
    eapply Forall_impl; [exact Hos|]. intros [] Hk; cbn [op_ok] in *; set_solver.
Qed.
End refinement.

(** ** A new repository *)
Section created.
Import uplink_context uplink_context_repository.
Context (ports symb subc size : Z) {Hdim : Dimensions ports symb subc size}.

Lemma counted_replicate_none p n : ∀ hs, counted p hs → zlen hs + Z.of_nat n < grid_pool.ref_counter_available → counted p (replicate n None ++ hs).
Proof.
  induction n as [|n IH]; intros hs HC Hn; [done|]. cbn [replicate app]. apply counted_add_none; [apply IH; [done|lia]|].
  rewrite zlen_app. unfold zlen at 1. rewrite length_replicate. lia.
Qed.

(** Nothing is expected yet; the grids are as the pool has them. *)
Definition nothing_expected (p : grid_pool.t) : abstract :=
  mk_abstract (λ _ _, None) (λ gid port s, match grid_pool.grids p !! Z.to_nat gid with Some g => row g port s | None => [] end).

Lemma create_implements p out : counted p out → Forall (shaped ports symb subc) (grid_pool.grids p) →
  size * MAX_NSYMB_PER_SLOT + zlen out < grid_pool.ref_counter_available →
  implements ports symb subc size (uplink_context_repository.create p size) out (nothing_expected p).
Proof.
  intros HC HS Hn. pose proof (dim_size (Dimensions := Hdim)) as Hsz. unfold uplink_context_repository.create.
  assert (HX : ∀ i s c, context_at (mk_repo p (replicate (Z.to_nat size) (replicate (Z.to_nat MAX_NSYMB_PER_SLOT) default))) i s = Some c → c = default).
  { intros i s c. unfold context_at. cbn [buffer]. destruct (replicate (Z.to_nat size) _ !! i) as [row|] eqn:Hi; [|done]. cbn.
    apply lookup_replicate_1 in Hi as [-> _]. intros Hs. by apply lookup_replicate_1 in Hs as [-> _]. }
  constructor; [constructor| |].
  - cbn [pool]. unfold handles. cbn [buffer].
    assert (HE : map handle_of (concat (replicate (Z.to_nat size) (replicate (Z.to_nat MAX_NSYMB_PER_SLOT) default))) = replicate (Z.to_nat size * Z.to_nat MAX_NSYMB_PER_SLOT) None).
    { clear. induction (Z.to_nat size) as [|n IH]; [done|]. cbn [replicate concat]. rewrite map_app, IH. change (map ?f ?l) with (f <$> l).
      rewrite fmap_replicate, <- replicate_add. done. }
    rewrite HE. apply counted_replicate_none; [done|]. change MAX_NSYMB_PER_SLOT with 14 in *. lia.
  - done.
  - cbn [buffer]. unfold zlen. rewrite length_replicate. lia.
  - cbn [buffer]. apply Forall_replicate. by rewrite length_replicate.
  - intros i s c Hc. apply HX in Hc as ->. by intros [].
  - intros i s. unfold table. destruct (context_at _ i s) as [c|] eqn:Hc; [|done]. by apply HX in Hc as ->.
  - intros gid g port s _ Hg _ _. cbn [pool] in Hg. cbn [samples nothing_expected]. by rewrite Hg.
Qed.
End created.

(** ** Examples *)
Module uplink_examples.
Import uplink_context uplink_context_repository.

(** Two grids of one port, two symbols and one block; the first is lent. *)
Definition block_grid : resource_grid.t :=
  match resource_grid.create 1 2 12 with Ok g => g | Fault _ => resource_grid.mk 0 0 0 (tensor.mk [] []) 0 end.
Definition lent_pool : grid_pool.t :=
  match grid_pool.allocate_resource_grid (grid_pool.create true [block_grid; block_grid]) with Ok (p, _) => p | Fault _ => grid_pool.create true [] end.

#[export] Instance block_dimensions : Dimensions 1 2 12 5.
Proof. split; change re_capacity with 3300; change MAX_NOF_SUPPORTED_EAXC with 4; lia. Qed.

Lemma block_grid_shaped : shaped 1 2 12 block_grid.
Proof.
  destruct (create_wf 1 2 12) as (g & HC & Hw & _ & Hp & Hs & Hk & _); [lia..|]. unfold block_grid. by rewrite HC.
Qed.

Lemma lent_pool_counted : counted lent_pool [Some 0] ∧ Forall (shaped 1 2 12) (grid_pool.grids lent_pool).
Proof.
  pose proof block_grid_shaped as Hg. assert (HC : counted (grid_pool.create true [block_grid; block_grid]) []).
  { apply create_counted; [|done]. constructor; [apply Hg|]. constructor; [apply Hg|constructor]. }
  destruct (allocate_counted _ _ HC) as (p & h & HE & HC' & HG & _); [done|done|]. unfold lent_pool. rewrite HE.
  assert (h = Some 0) as ->.
  { assert (HX : match grid_pool.allocate_resource_grid (grid_pool.create true [block_grid; block_grid]) with Ok (_, x) => x = Some 0 | Fault _ => False end)
      by (vm_compute; reflexivity). by rewrite HE in HX. }
  split; [done|]. rewrite HG. constructor; [done|]. constructor; [done|constructor].
Qed.

Lemma created_implements : implements 1 2 12 5 (uplink_context_repository.create lent_pool 5) [Some 0] (nothing_expected lent_pool).
Proof. destruct lent_pool_counted as [HC HS]. by apply create_implements. Qed.

Definition example_slot : slot_point.t := slot_point.mk 1 10275.
Definition example_context : resource_grid_context := mk_context example_slot 0.
Definition example_block : list cbf16_t := replicate 12 (mk_cbf16 0x3f00 0xbe80).

(** Two symbols are expected; the first arrives, the second does not. *)
Definition session : list op :=
  [Add true example_context 0 0 2; TryPop true example_slot 0; Write example_slot 0 0 0 example_block; TryPop true example_slot 0;
   TryPop true example_slot 1; Pop example_slot 0; Pop example_slot 1].

Lemma uplink_repository_refines_witness :
  ∃ r', run (uplink_context_repository.create lent_pool 5) session =
    Ok (r', [mk_info example_context (Some 0); mk_info example_context (Some 0)]) ∧
    counted (pool r') (handles r' ++ [Some 0; Some 0; Some 0]).
Proof.
  pose proof (uplink_repository_refines 1 2 12 5 session _ _ _ created_implements) as H.
  assert (HT : option_map snd (spec_run 1 12 5 (nothing_expected lent_pool) session) = Some [mk_info example_context (Some 0); mk_info example_context (Some 0)])
    by (vm_compute; reflexivity).
  destruct (spec_run 1 12 5 (nothing_expected lent_pool) session) as [[a' taken]|]; [|discriminate]. injection HT as ->.
  destruct H as (r' & HE & HI).
  - repeat constructor; try (cbn; lia); try (by slot_point.solve_wf); try done.
  - vm_compute. reflexivity.
  - exists r'. split; [exact HE|]. apply HI.
Defined.

(** A write for a symbol that is not expected stops the program. *)
Example unexpected_write :
  write_grid (uplink_context_repository.create lent_pool 5) example_slot 0 0 0 example_block = Fault AssertFailed.
Proof. vm_compute. reflexivity. Qed.

End uplink_examples.
