(* ===== verification/UplinkFlow.v ===== *)
(** * UplinkFlow: received User-Plane messages become symbols of a resource grid

    Models lib/ofh/receiver/ofh_data_flow_uplane_uplink_data_impl.cpp,
    ofh_uplane_rx_symbol_data_flow_writer.cpp, ofh_uplane_rx_symbol_data_flow_notifier.cpp
    and the uplink part of ofh_closed_rx_window_handler.cpp: a message that was requested
    is decoded, its samples are written to the grid expected for its slot and symbol, and
    the symbol is notified when it is complete or when its reception window has closed.

    The notifier is the consumer of the symbols; what it is given is recorded, and the
    grids it holds are references outside of the repository. *)

From S2P Require Import Prelude Bf16 SlotPoint OfhBase OfhCplane OfhUplane BoundedBitset BitsetSpec ResourceGrid GridPool OfhCompression OfhReceiver UplinkContext.

(** [uplane_rx_symbol_context] and the grid that comes with it. *)
Record notification : Type := mk_notification { n_slot : slot_point.t; n_symbol : Z; n_sector : Z; n_grid : grid_pool.handle }.

Module uplink_data_flow.
Import uplane uplink_context_repository.
Abbreviation cplane_context := uplink_cplane_context_repository.ul_cplane_context.

(** The parts that change. *)
Record state : Type := mk_state {
  ul_context_repo : uplink_context_repository.t;
  ul_cplane_context_repo : uplink_cplane_context_repository.t;
  notified : list notification }.

Definition with_repo (st : state) (r : uplink_context_repository.t) : state :=
  mk_state r (ul_cplane_context_repo st) (notified st).

(** ** [data_flow_uplane_uplink_data_impl] *)

(** The predicate of [std::any_of]. *)
Definition section_filtered (cp_context : cplane_context) (up_section : uplane_section_params) : bool :=
  if negb (is_every_rb_used up_section) then true
  else if negb (use_current_symbol_number up_section) then true
  else (sec_start_prb up_section <? uplink_cplane_context_repository.prb_start cp_context) ||
       (uplink_cplane_context_repository.prb_start cp_context + uplink_cplane_context_repository.nof_prb cp_context <?
        sec_start_prb up_section + sec_nof_prbs up_section).

Definition should_uplane_packet_be_filtered (repo : uplink_cplane_context_repository.t) (eaxc : Z)
    (results : uplane_message_decoder_results) : result bool :=
  let p := params results in
  if decide (d_filter_index p = filter_reserved) then Ok true
  else if is_a_prach_message (d_filter_index p) then Ok true else
  ex_cp_context ← uplink_cplane_context_repository.get repo (d_slot p) (d_symbol_id p) (d_filter_index p) eaxc;
  match ex_cp_context with
  | None => Ok true
  | Some cp_context => Ok (existsb (section_filtered cp_context) (sections results))
  end.

(** ** [uplane_rx_symbol_data_flow_writer] *)

(** [std::distance(begin, std::find(begin, end, eaxc))] *)
Definition find_port (ul_eaxc : list Z) (eaxc : Z) : Z :=
  match list_find (λ x, x = eaxc) ul_eaxc with Some (i, _) => Z.of_nat i | None => zlen ul_eaxc end.

Definition write_section (slot : slot_point.t) (symbol rg_port du_nof_prbs : Z) (r : uplink_context_repository.t)
    (section : uplane_section_params) : result uplink_context_repository.t :=
  if du_nof_prbs <=? sec_start_prb section then Ok r else
  let nof_prbs_to_write := du_nof_prbs - sec_start_prb section in
  let nof_prbs_to_write :=
    if sec_start_prb section + sec_nof_prbs section <? du_nof_prbs then sec_nof_prbs section else nof_prbs_to_write in
  samples ← span_first (iq_samples section) (nof_prbs_to_write * NOF_SUBCARRIERS_PER_RB);
  write_grid r slot rg_port symbol (sec_start_prb section * NOF_SUBCARRIERS_PER_RB) samples.

(** The context is a copy that lives until the function returns. *)
Definition write_to_resource_grid (accept : bool) (ul_eaxc : list Z) (r : uplink_context_repository.t) (eaxc : Z)
    (results : uplane_message_decoder_results) : result uplink_context_repository.t :=
  let slot := d_slot (params results) in
  let symbol := d_symbol_id (params results) in
  '(r, ul_context) ← uplink_context_repository.get r slot symbol;
  r ← (if uplink_context.empty ul_context then Ok r else
         let rg_port := find_port ul_eaxc eaxc in
         assume (rg_port <? zlen ul_eaxc) AssertFailed;;
         du_nof_prbs ← uplink_context.get_grid_nof_prbs (pool r) ul_context;
         fold_result (write_section slot symbol rg_port du_nof_prbs) r (sections results));
  p ← grid_pool.release accept (pool r) (uplink_context.grid (uplink_context.grid_info ul_context));
  Ok (mk_repo p (buffer r)).

(** ** [uplane_rx_symbol_data_flow_notifier] *)

Definition notify (symbol : Z) (i : uplink_context.info) : notification :=
  mk_notification (ctx_slot (uplink_context.context i)) symbol (ctx_sector (uplink_context.context i)) (uplink_context.grid i).

Definition notify_received_symbol (accept : bool) (st : state) (slot : slot_point.t) (symbol : Z) : result state :=
  '(r, context) ← try_popping_complete_resource_grid_symbol accept (ul_context_repo st) slot symbol;
  match context with
  | None => Ok (with_repo st r)
  | Some i => Ok (mk_state r (ul_cplane_context_repo st) (notified st ++ [notify symbol i]))
  end.

Section flow.
Context {decompressor : IqDecompressor} (uplane_decoder : decoder) (ul_eaxc : list Z).

Definition no_results : uplane_message_decoder_results :=
  mk_results (mk_decoded uplink slot_point.invalid standard_channel_filter 0) [].

Definition decode_type1_message (accept : bool) (st : state) (eaxc : Z) (message : list Z) : result state :=
  '(valid, results) ← decode uplane_decoder no_results message;
  if negb valid then Ok st else
  filtered ← should_uplane_packet_be_filtered (ul_cplane_context_repo st) eaxc results;
  if (filtered : bool) then Ok st else
  r ← write_to_resource_grid accept ul_eaxc (ul_context_repo st) eaxc results;
  notify_received_symbol accept (with_repo st r) (d_slot (params results)) (d_symbol_id (params results)).
End flow.

(** ** [closed_rx_window_handler] *)

Definition notification_delay_in_symbols (nof_symbols_to_process_uplink sym_end : Z) : Z :=
  wrap 32 (nof_symbols_to_process_uplink + sym_end + 1).

Definition handle_uplink_context (st : state) (symbol_point : slot_symbol_point.t) : result state :=
  slot ← slot_symbol_point.get_slot symbol_point;
  symbol ← slot_symbol_point.get_symbol_index symbol_point;
  '(r, context) ← pop_resource_grid_symbol (ul_context_repo st) slot symbol;
  match context with
  | None => Ok (with_repo st r)
  | Some i => Ok (mk_state r (ul_cplane_context_repo st) (notified st ++ [notify symbol i]))
  end.

End uplink_data_flow.

(** ** What the decoder hands over *)

(** A decompressor fills the buffer it is given. *)
Class DecompressorFills (D : IqDecompressor) : Prop :=
  decompress_fills : ∀ n data c samples, 0 <= n → iq_decompress n data c = Ok samples → zlen samples = n.

Section decoded.
Import uplane.
Context {decompressor : IqDecompressor} {fills : DecompressorFills decompressor}.

(** The values of a decoded section. *)
Definition section_value (sec : uplane_section_params) : Prop :=
  0 <= sec_start_prb sec < 1024 ∧ 0 <= sec_nof_prbs sec <= 275 ∧ zlen (iq_samples sec) = sec_nof_prbs sec * 12.
(** No section is empty unless the radio unit has no blocks: an announced 0 stands for all of them. *)
Definition section_from (self : decoder) (sec : uplane_section_params) : Prop :=
  section_value sec ∧ (0 < ru_nof_prbs self → 0 < sec_nof_prbs sec).

Lemma on_ok_inv secs r k secs' d' : on_ok secs r k = Ok (ok, secs', d') → ∃ sec d, r = Ok (ok, sec, d) ∧ k sec d = Ok (ok, secs', d').
Proof.
  unfold on_ok. intros ([[st sec] d] & -> & H)%bind_Ok. destruct st; [|done|done]. by exists sec, d.
Qed.

Lemma decode_section_value self secs d secs' d' :
  decoder_ok self → deserializer.wf d → bytes_ok (deserializer.data d) →
  decode_section self secs d = Ok (ok, secs', d') → ∃ sec, secs' = secs ++ [sec] ∧ section_from self sec.
Proof.
  intros (_ & Hru & _) Hw Hb HE. unfold decode_section in HE.
  apply on_ok_inv in HE as (sec1 & d1 & H1 & HE). apply on_ok_inv in HE as (sec2 & d2 & H2 & HE). apply on_ok_inv in HE as (sec3 & d3 & H3 & HE).
  assert (Hbr : bytes_ok (deserializer.rest d)) by by apply Forall_drop.
  assert (HV1 : 0 <= sec_start_prb sec1 < 1024 ∧ 0 <= sec_nof_prbs sec1 <= 275 ∧ (0 < ru_nof_prbs self → 0 < sec_nof_prbs sec1)).
  { destruct (deserializer.rest d) as [|b0 [|b1 [|b2 [|b3 l]]]] eqn:Hr;
      try (destruct (section_header_short self d Hw) as (sec & HS); [by rewrite Hr|by rewrite HS in H1]).
    apply (Forall_app _ [b0; b1; b2; b3] l) in Hbr as [Hb4 _].
    destruct (section_header_spec self d b0 b1 b2 b3 l Hw Hr Hb4) as (d1' & HS & _). rewrite HS in H1. injection H1 as <- _.
    cbn [sec_start_prb sec_nof_prbs]. inversion_clear Hb4 as [|?? B0 Hb1]. inversion_clear Hb1 as [|?? B1 Hb2].
    inversion_clear Hb2 as [|?? B2 Hb3]. inversion_clear Hb3 as [|?? B3 _]. unfold_fits. destruct (Z.eqb_spec b3 0); lia. }
  assert (HV2 : sec_start_prb sec2 = sec_start_prb sec1 ∧ sec_nof_prbs sec2 = sec_nof_prbs sec1).
  { unfold decode_compression_header in H2. destruct (static_params self); [by injection H2 as <- _|]. destruct (_ <? 2); [done|].
    apply bind_Ok in H2 as ([v dv] & _ & H2). destruct (decide _); [done|]. by injection H2 as <- _. }
  assert (HV3 : sec_start_prb sec3 = sec_start_prb sec2 ∧ sec_nof_prbs sec3 = sec_nof_prbs sec2).
  { unfold decode_compression_length in H3.
    destruct (compr_type _); first [by injection H3 as <- _ | destruct (_ <? 2); [done|]; apply bind_Ok in H3 as ([v dv] & _ & H3); by injection H3 as <- _]. }
  unfold decode_section_samples in HE. destruct (negb _); [done|]. apply bind_Ok in HE as ([] & _ & HE). apply bind_Ok in HE as ([sec4 d4] & H4 & [= <- _]).
  exists sec4. split; [done|]. unfold decode_iq_data in H4. apply bind_Ok in H4 as ([cd dv] & _ & H4). apply bind_Ok in H4 as ([] & _ & H4).
  apply bind_Ok in H4 as (samples & HD & [= <- _]). destruct HV2 as [E1 E2], HV3 as [E3 E4]. unfold section_from, section_value. cbn [sec_start_prb sec_nof_prbs iq_samples].
  split; [|lia]. split; [lia|]. split; [lia|]. unfold NOF_SUBCARRIERS_PER_RB in HD. rewrite wrap_small in HD by lia_fits. eapply fills in HD; [done|lia].
Qed.

Lemma decode_loop_values self fuel : ∀ secs d valid secs',
  decoder_ok self → deserializer.wf d → bytes_ok (deserializer.data d) → zlen secs < 2 → Forall (section_from self) secs →
  decode_sections_loop fuel self secs d = Ok (valid, secs') → Forall (section_from self) secs'.
Proof.
  induction fuel as [|fuel IH]; intros secs d valid secs' Hok Hw Hb Hs HF HE; cbn [decode_sections_loop] in HE.
  { destruct (_ =? 0); [by injection HE as _ <-|done]. }
  destruct (_ =? 0); [by injection HE as _ <-|]. apply bind_Ok in HE as ([[st secs1] d1] & HD & HE).
  pose proof (decode_section_total self secs d Hok Hw Hb Hs) as HT. rewrite HD in HT.
  destruct HT as [(st' & secs2 & d2 & [= <- <- <-] & Hw1 & Hd1 & Hr1 & Hn1 & _)|(? & ? & ? & ? & HX & _)]; [|done].
  destruct st.
  - destruct (decode_section_value self secs d secs1 d1 Hok Hw Hb HD) as (sec & -> & Hsec).
    assert (HF' : Forall (section_from self) (secs ++ [sec])) by (apply Forall_app; by split; [|constructor]).
    unfold RESULTS_MAX_NOF_SUPPORTED_SECTIONS in HE. destruct (Z.eqb_spec (zlen (secs ++ [sec])) 2); [by injection HE as _ <-|].
    apply (IH (secs ++ [sec]) d1 valid); try done; [by rewrite Hd1|]. destruct (Hr1 eq_refl). lia.
  - rewrite Hn1 in HE by done. by injection HE as _ <-.
  - rewrite Hn1 in HE by done. by injection HE as _ <-.
Qed.

(** An accepted message: slot and symbol are in range and the sections hold the samples
    they announce. *)
Lemma decode_from self message res :
  decoder_ok self → bytes_ok message → zlen message < 2 ^ 32 → decode self uplink_data_flow.no_results message = Ok (true, res) →
  slot_point.wf (d_slot (params res)) ∧ 0 <= d_symbol_id (params res) < nof_symbols self ∧ Forall (section_from self) (sections res).
Proof.
  intros Hok Hb Hl HE. destruct (deserializer.reader_init_wf message Hl) as [Hw Hr]. unfold decode in HE. cbn [params sections uplink_data_flow.no_results] in HE.
  destruct message as [|b0 [|b1 [|b2 [|b3 l]]]];
    try (rewrite header_short in HE by done; done).
  pose proof Hb as Hb'. apply (Forall_app _ [b0; b1; b2; b3] l) in Hb' as [Hb4 _].
  destruct (decode_header_spec self (mk_decoded uplink slot_point.invalid standard_channel_filter 0) _ b0 b1 b2 b3 l Hw Hr Hb4 (proj1 Hok))
    as (valid & p' & d' & HH & Hw' & Hr' & Hd' & Hv & Hs).
  rewrite HH in HE. cbn [mbind result_bind] in HE. destruct valid; cbn [negb] in HE; [|done].
  apply bind_Ok in HE as ([v secs] & HL & [= -> <-]). cbn [params sections].
  destruct (Hs eq_refl) as (_ & E1 & _ & Hwf & _). destruct (proj1 Hv eq_refl) as (_ & _ & _ & _ & _ & Hsym).
  split; [done|]. rewrite E1. split.
  - split; [|done]. unfold cplane.wire_header_of, cplane.octet. cbn [cplane.w_symbol nth].
    apply (Forall_lookup_1 _ _ 3 b3) in Hb4; [|done]. unfold_fits. lia.
  - unfold decode_all_sections in HL. eapply (decode_loop_values self _ [] d'); [done|done|by rewrite Hd'|done|done|exact HL].
Qed.

Lemma decode_values self message res :
  decoder_ok self → bytes_ok message → zlen message < 2 ^ 32 → decode self uplink_data_flow.no_results message = Ok (true, res) →
  slot_point.wf (d_slot (params res)) ∧ 0 <= d_symbol_id (params res) < nof_symbols self ∧ Forall section_value (sections res).
Proof.
  intros Hok Hb Hl HE. destruct (decode_from self message res Hok Hb Hl HE) as (Hs & Hy & HF). split; [done|]. split; [done|].
  eapply Forall_impl; [exact HF|]. by intros sec [H _].
Qed.
End decoded.

(** ** A message against the table of expected symbols *)

Section flow.
Import uplane uplink_data_flow uplink_context_repository.
Context (ports symb subc size : Z) {Hdim : Dimensions ports symb subc size}.
Abbreviation idx := (index_of size).
Abbreviation impl := (implements ports symb subc size).

(** The part of a section that lies in the grid, as a write to the repository. *)
Definition written_prbs (sec : uplane_section_params) : Z :=
  let prbs := subc / 12 in
  if sec_start_prb sec + sec_nof_prbs sec <? prbs then sec_nof_prbs sec else prbs - sec_start_prb sec.
Definition written_samples (sec : uplane_section_params) : list cbf16_t :=
  take (Z.to_nat (written_prbs sec * 12)) (iq_samples sec).
Definition section_write (slot : slot_point.t) (s : nat) (port : Z) (sec : uplane_section_params) : option op :=
  if subc / 12 <=? sec_start_prb sec then None
  else Some (Write slot port s (sec_start_prb sec * 12) (written_samples sec)).

Lemma written_value sec : section_value sec → sec_start_prb sec < subc / 12 →
  span_first (iq_samples sec) (written_prbs sec * NOF_SUBCARRIERS_PER_RB) = Ok (written_samples sec) ∧
  zlen (written_samples sec) = written_prbs sec * 12 ∧ 0 <= written_prbs sec ∧
  sec_start_prb sec * 12 + zlen (written_samples sec) <= subc.
Proof.
  intros (Hs & Hn & Hz) Hlt. unfold written_samples, NOF_SUBCARRIERS_PER_RB.
  assert (Hw : 0 <= written_prbs sec <= sec_nof_prbs sec ∧ sec_start_prb sec + written_prbs sec <= subc / 12) by (unfold written_prbs; case_Z; lia).
  destruct (drop_zlen_take (iq_samples sec) (written_prbs sec * 12)) as [_ ->]; [lia|]. split; [done|].
  assert (HZ : zlen (take (Z.to_nat (written_prbs sec * 12)) (iq_samples sec)) = written_prbs sec * 12)
    by (unfold zlen in *; rewrite length_take; lia). rewrite HZ. lia.
Qed.

(** A write keeps the cell, its context and its grid. *)
Lemma spec_write_keeps a slot s c port k buf a' i : cells a (idx slot) s = Some c →
  spec_step ports subc size a (Write slot port s k buf) = Some (a', i) →
  i = [] ∧ (∃ c', cells a' (idx slot) s = Some c' ∧ cell_context c' = cell_context c ∧ cell_grid c' = cell_grid c) ∧
  ∀ i' s', (i', s') ≠ (idx slot, s) → cells a' i' s' = cells a i' s'.
Proof.
  intros Hc HS. cbn [spec_step] in HS. rewrite Hc in HS. cbn [mbind option_bind] in HS. destruct (ports <=? port); injection HS as <- <-.
  - split; [done|]. split; [by exists c|done].
  - split; [done|]. cbn [cells]. unfold upd. rewrite decide_True by done. split; [by eexists|]. intros i' s' Hne. rewrite decide_False; [done|naive_solver].
Qed.

Lemma write_sections_spec slot s port secs : slot_point.wf slot → Z.of_nat s < MAX_NSYMB_PER_SLOT → 0 <= port → Forall section_value secs →
  ∀ r out a c, impl r out a → roomy r out → cells a (idx slot) s = Some c →
  ∃ r' a', fold_result (write_section slot (Z.of_nat s) port (subc / 12)) r secs = Ok r' ∧
    spec_run ports subc size a (omap (section_write slot s port) secs) = Some (a', []) ∧ impl r' out a' ∧ roomy r' out ∧
    (∃ c', cells a' (idx slot) s = Some c' ∧ cell_context c' = cell_context c ∧ cell_grid c' = cell_grid c) ∧
    (∀ i' s', (i', s') ≠ (idx slot, s) → cells a' i' s' = cells a i' s').
Proof.
  intros Hslot Hs Hp HF. induction HF as [|sec secs Hsec HF IH]; intros r out a c HI Hroom Hc.
  { exists r, a. do 4 (split; [done|]). split; [by exists c|done]. }
  cbn [fold_result omap list_omap]. unfold write_section at 2, section_write at 1.
  destruct (Z.leb_spec (subc / 12) (sec_start_prb sec)) as [Hge|Hlt]; [by apply (IH r out a c)|].
  destruct (written_value sec Hsec Hlt) as (HW & HZ & Hw0 & Hle). fold (written_prbs sec). rewrite HW. cbn [mbind result_bind].
  set (o := Write slot port s (sec_start_prb sec * 12) (written_samples sec)).
  pose proof (step_implements ports symb subc size r out a o HI) as HS.
  assert (Hok : op_ok symb subc out o) by (destruct Hsec as (? & _); cbn [op_ok o]; split; [done|]; lia). specialize (HS Hok Hroom).
  destruct (spec_step ports subc size a o) as [[a1 i]|] eqn:E.
  2: { exfalso. cbn [spec_step o] in E. rewrite Hc in E. cbn in E. by destruct (ports <=? port). }
  destruct (spec_write_keeps a slot s c port _ _ a1 i Hc E) as (-> & (c1 & Hc1 & Hx1 & Hg1) & Hk1).
  destruct HS as (r1 & HS & HI1). cbn [step o] in HS. apply bind_Ok in HS as (r1' & HWr & [= ->]).
  unfold NOF_SUBCARRIERS_PER_RB. rewrite HWr. cbn [mbind result_bind map app] in *.
  assert (Hroom1 : roomy r1 out).
  { unfold roomy in *. rewrite (zlen_handles ports symb subc size r1 out), <- (zlen_handles ports symb subc size r out); [done|by destruct HI|by destruct HI1]. }
  destruct (IH r1 out a1 c1 HI1 Hroom1 Hc1) as (r2 & a2 & HF2 & HS2 & HI2 & Hr2 & (c2 & Hc2 & Hx2 & Hg2) & Hk2).
  exists r2, a2. split; [exact HF2|]. split; [cbn [spec_run]; rewrite E; cbn [mbind option_bind]; by rewrite HS2|].
  split; [done|]. split; [done|]. split; [exists c2; by rewrite Hx2, Hg2|]. intros i' s' Hne. by rewrite Hk2, Hk1.
Qed.

Lemma table_buffer r r' : buffer r' = buffer r → ∀ i s, table r' i s = table r i s.
Proof. intros HB i s. unfold table, context_at. by rewrite HB. Qed.

(** The writer: the sections are written if somebody expects the symbol. *)
Lemma write_to_grid_spec accept ul_eaxc r out a eaxc results s :
  impl r out a → zlen (handles r) + zlen out + 3 < grid_pool.ref_counter_available →
  slot_point.wf (d_slot (params results)) → d_symbol_id (params results) = Z.of_nat s → Z.of_nat s < MAX_NSYMB_PER_SLOT →
  Forall section_value (sections results) → eaxc ∈ ul_eaxc →
  let slot := d_slot (params results) in
  ∃ r' a', write_to_resource_grid accept ul_eaxc r eaxc results = Ok r' ∧ impl r' out a' ∧
    match cells a (idx slot) s with
    | None => a' = a
    | Some c => spec_run ports subc size a (omap (section_write slot s (find_port ul_eaxc eaxc)) (sections results)) = Some (a', []) ∧
        (∃ c', cells a' (idx slot) s = Some c' ∧ cell_context c' = cell_context c ∧ cell_grid c' = cell_grid c)
    end ∧
    (∀ i' s', (i', s') ≠ (idx slot, s) → cells a' i' s' = cells a i' s').
Proof.
  intros HI Hroom Hslot Hsym Hs HF Hin slot. pose proof HI as [HR HC HSm]. unfold write_to_resource_grid. fold slot. rewrite Hsym.
  destruct (get_spec ports symb subc size r out slot s HR Hslot Hs) as (r1 & c & -> & Hcell & HR1 & HB1 & HG1 & _); [unfold roomy; lia|].
  cbn [mbind result_bind]. fold (handle_of c). rewrite HC in Hcell.
  assert (HI1 : impl r1 (handle_of c :: out) a) by (constructor; [done|intros; by rewrite (table_buffer r)|by rewrite HG1]).
  assert (HZ1 : zlen (handles r1) = zlen (handles r)) by (unfold handles; by rewrite HB1).
  set (w := if uplink_context.empty c then _ else _).
  assert (HW : ∃ r2 a2, w = Ok r2 ∧ impl r2 (handle_of c :: out) a2 ∧
    match cells a (idx slot) s with
    | None => a2 = a
    | Some c => spec_run ports subc size a (omap (section_write slot s (find_port ul_eaxc eaxc)) (sections results)) = Some (a2, []) ∧
        (∃ c', cells a2 (idx slot) s = Some c' ∧ cell_context c' = cell_context c ∧ cell_grid c' = cell_grid c)
    end ∧ (∀ i' s', (i', s') ≠ (idx slot, s) → cells a2 i' s' = cells a i' s')).
  { unfold w, uplink_context.empty. fold (handle_of c). unfold cell_of in Hcell. rewrite <- Hcell.
    destruct (handle_of c) as [gid|] eqn:Hh; cbn [grid_pool.is_valid negb mbind option_bind] in *; [|by exists r1, a].
    assert (Hport : 0 <= find_port ul_eaxc eaxc < zlen ul_eaxc).
    { unfold find_port. destruct (list_find_elem_of (λ x, x = eaxc) ul_eaxc eaxc Hin eq_refl) as [[i x] Hf]. rewrite Hf.
      apply list_find_Some in Hf as (Hl & _ & _). apply lookup_lt_Some in Hl. unfold zlen. lia. }
    pass_assume. unfold uplink_context.get_grid_nof_prbs. fold (handle_of c). rewrite Hh. cbn [grid_pool.is_valid].
    assert (HT1 : table r1 (idx slot) s = cells a (idx slot) s) by (by rewrite (table_buffer r)). rewrite <- Hcell in HT1.
    destruct (rep_grid ports symb subc size r1 _ _ s _ HR1 HT1) as (g & HGet & (Hw & _ & _ & Hgk) & _). cbn [cell_grid] in HGet. rewrite HGet. cbn [mbind result_bind].
    destruct (dimensions_wf g Hw) as (-> & _ & _). rewrite Hgk. unfold NOF_SUBCARRIERS_PER_RB at 1.
    destruct (write_sections_spec slot s (find_port ul_eaxc eaxc) (sections results) Hslot Hs (proj1 Hport) HF r1 (Some gid :: out) a
      (mk_cell (uplink_context.context (uplink_context.grid_info c)) gid (map (bits_of false) (uplink_context.re_written c))) HI1) as (r2 & a2 & HE2 & HS2 & HI2 & _ & Hc2 & Hk2);
      [unfold roomy; rewrite zlen_cons; lia|by symmetry|].
    exists r2, a2. done. }
  destruct HW as (r2 & a2 & -> & HI2 & HM & HK). cbn [mbind result_bind].
  destruct (release_spec ports symb subc size accept r2 out (handle_of c) (impl_rep _ _ _ _ _ _ _ HI2)) as (p3 & -> & HR3 & HG3). cbn [mbind result_bind].
  exists (mk_repo p3 (buffer r2)), a2. split; [done|]. split; [|done]. destruct HI2 as [_ HC2 HS2].
  constructor; [done|intros; by rewrite (table_buffer r2)|cbn [pool]; by rewrite HG3].
Qed.
End flow.

(** ** The flow against what it promises *)

Section events.
Import uplane uplink_data_flow uplink_context_repository.
(** [heard]: the eAxCs whose messages the receiver lets through. *)
Context {decompressor : IqDecompressor} (self : decoder) (ul_eaxc heard : list Z).

(** What reaches the repositories and the flow: a request for a slot and the commands
    sent for it, a received message, and the end of a reception window. *)
Inductive event : Type :=
| Request (accept : bool) (context : resource_grid_context) (gid start stop : Z)
| Command (slot : slot_point.t) (eaxc : Z) (context : cplane_context)
| Message (accept : bool) (eaxc : Z) (message : list Z)
| Closed (symbol_point : slot_symbol_point.t).

Definition flow_step (st : state) (e : event) : result state :=
  match e with
  | Request accept context gid start stop => r ← add accept (ul_context_repo st) context (Some gid) start stop; Ok (with_repo st r)
  | Command slot eaxc context =>
      c ← uplink_cplane_context_repository.add (ul_cplane_context_repo st) slot eaxc context;
      Ok (mk_state (ul_context_repo st) c (notified st))
  | Message accept eaxc message => decode_type1_message self ul_eaxc accept st eaxc message
  | Closed symbol_point => handle_uplink_context st symbol_point
  end.
Definition flow_run : state → list event → result state := fold_result flow_step.

Context (ports symb subc size cp_size : Z).

(** The table of expected symbols, the commands per slot and eAxC, and what the notifier
    was told. *)
Record promise : Type := mk_promise { expected : abstract; requested : nat → nat → cplane_context; told : list notification }.

(** The operations on the table; every symbol taken out is told. *)
Definition taking (q : promise) (s : nat) (ops : list op) : promise :=
  match spec_run ports subc size (expected q) ops with
  | Some (a, taken) => mk_promise a (requested q) (told q ++ map (notify (Z.of_nat s)) taken)
  | None => q
  end.

(** A message is used if it answers the last command for its slot and eAxC. *)
Definition admitted (q : promise) (eaxc : Z) (results : uplane_message_decoder_results) : bool :=
  let p := params results in
  let cp := requested q (index_of cp_size (d_slot p)) (Z.to_nat eaxc) in
  let start_symbol := cplane.start_symbol (uplink_cplane_context_repository.radio_hdr cp) in
  negb (bool_decide (d_filter_index p = filter_reserved)) && negb (is_a_prach_message (d_filter_index p)) &&
  ((start_symbol <=? d_symbol_id p) && (d_symbol_id p <? start_symbol + uplink_cplane_context_repository.nof_symbols cp) &&
   bool_decide (d_filter_index p = cplane.filter_index (uplink_cplane_context_repository.radio_hdr cp))) &&
  negb (existsb (section_filtered cp) (sections results)).

Definition message_ops (accept : bool) (eaxc : Z) (results : uplane_message_decoder_results) : list op :=
  let slot := d_slot (params results) in
  let s := Z.to_nat (d_symbol_id (params results)) in
  omap (section_write subc slot s (find_port ul_eaxc eaxc)) (sections results) ++ [TryPop accept slot s].

Definition promise_step (q : promise) (e : event) : result promise :=
  match e with
  | Request accept context gid start stop => Ok (taking q 0 [Add accept context gid start stop])
  | Command slot eaxc context =>
      Ok (mk_promise (expected q) (upd (index_of cp_size slot) (Z.to_nat eaxc) context (requested q)) (told q))
  | Message accept eaxc message =>
      '(valid, results) ← decode self no_results message;
      let s := Z.to_nat (d_symbol_id (params results)) in
      if valid && admitted q eaxc results && bool_decide (is_Some (cells (expected q) (index_of size (d_slot (params results))) s))
      then Ok (taking q s (message_ops accept eaxc results)) else Ok q
  | Closed symbol_point =>
      slot ← slot_symbol_point.get_slot symbol_point;
      symbol ← slot_symbol_point.get_symbol_index symbol_point;
      Ok (taking q (Z.to_nat symbol) [Pop slot (Z.to_nat symbol)])
  end.
Definition promise_run : promise → list event → result promise := fold_result promise_step.

(** A command that asks for user data. *)
Definition asks_data (cp : cplane_context) : Prop :=
  0 < uplink_cplane_context_repository.nof_symbols cp ∧
  is_a_prach_message (cplane.filter_index (uplink_cplane_context_repository.radio_hdr cp)) = false ∧
  cplane.filter_index (uplink_cplane_context_repository.radio_hdr cp) ≠ filter_reserved.

(** The arguments are in range: the requesting side holds the grid of a request, the eAxCs
    that are heard and asked for user data are those of the uplink, frames are of octets. *)
Definition event_ok (held : list grid_pool.handle) (e : event) : Prop :=
  match e with
  | Request accept context gid start stop => op_ok symb subc held (Add accept context gid start stop)
  | Command slot eaxc context => slot_point.wf slot ∧ 0 <= eaxc < MAX_SUPPORTED_EAXC_ID_VALUE ∧ (asks_data context → eaxc ∈ heard → eaxc ∈ ul_eaxc)
  | Message _ eaxc message => 0 <= eaxc < MAX_SUPPORTED_EAXC_ID_VALUE ∧ eaxc ∈ heard ∧ bytes_ok message ∧ zlen message < 2 ^ 32
  | Closed symbol_point => slot_symbol_point.wf symbol_point ∧ slot_symbol_point.nof_symbols symbol_point <= MAX_NSYMB_PER_SLOT
  end.

Record cplane_realizes (c : uplink_cplane_context_repository.t) (f : nat → nat → cplane_context) : Prop := {
  cr_size : zlen c = cp_size;
  cr_rows : Forall (λ row, length row = Z.to_nat MAX_SUPPORTED_EAXC_ID_VALUE) c;
  cr_at : ∀ i e x, c !! i ≫= (.!! e) = Some x → f i e = x;
  cr_data : ∀ i e, asks_data (f i e) → Z.of_nat e ∈ heard → Z.of_nat e ∈ ul_eaxc }.

Record realizes (st : state) (held : list grid_pool.handle) (q : promise) : Prop := {
  re_impl : implements ports symb subc size (ul_context_repo st) (map n_grid (notified st) ++ held) (expected q);
  re_cplane : cplane_realizes (ul_cplane_context_repo st) (requested q);
  re_told : notified st = told q;
  re_placed : ∀ i s c, cells (expected q) i s = Some c → index_of size (ctx_slot (cell_context c)) = i }.

Lemma cplane_entry c f slot eaxc : 0 < cp_size → cplane_realizes c f → slot_point.wf slot → 0 <= eaxc < MAX_SUPPORTED_EAXC_ID_VALUE →
  uplink_cplane_context_repository.entry c slot eaxc = Ok (Z.of_nat (index_of cp_size slot), f (index_of cp_size slot) (Z.to_nat eaxc)).
Proof.
  intros H0 [Hz HF Hat _] Hslot He. unfold uplink_cplane_context_repository.entry. rewrite Hz, entry_index_spec by done. cbn [mbind result_bind].
  pose proof (index_of_bound cp_size H0 slot). destruct (lookup_lt_is_Some_2 c (index_of cp_size slot)) as [row Hrow]; [unfold zlen in Hz; lia|].
  rewrite Forall_lookup in HF. pose proof (HF _ _ Hrow) as HL. cbn beta in HL.
  destruct (lookup_lt_is_Some_2 row (Z.to_nat eaxc)) as [x Hx]; [lia|].
  unfold vec_at. rewrite !(proj2 (Z.leb_le 0 _)) by lia. rewrite Nat2Z.id, Hrow. cbn [mbind result_bind]. rewrite Hx. cbn [mbind result_bind].
  rewrite (Hat (index_of cp_size slot) (Z.to_nat eaxc) x); [done|]. by rewrite Hrow.
Qed.

Lemma cplane_add c f slot eaxc x : 0 < cp_size → cplane_realizes c f → slot_point.wf slot → 0 <= eaxc < MAX_SUPPORTED_EAXC_ID_VALUE → (asks_data x → eaxc ∈ heard → eaxc ∈ ul_eaxc) →
  ∃ c', uplink_cplane_context_repository.add c slot eaxc x = Ok c' ∧ cplane_realizes c' (upd (index_of cp_size slot) (Z.to_nat eaxc) x f).
Proof.
  intros H0 HR Hslot He Hx. unfold uplink_cplane_context_repository.add. rewrite (cplane_entry c f) by done. cbn [mbind result_bind].
  eexists. split; [done|]. destruct HR as [Hz HF Hat Hd]. rewrite Nat2Z.id. constructor.
  - unfold zlen in *. by rewrite length_alter.
  - apply Forall_alter; [done|]. intros row Hrow Hl. by rewrite length_insert.
  - intros i e y. unfold upd. destruct (decide (index_of cp_size slot = i)) as [<-|Hne].
    + rewrite list_lookup_alter_eq. destruct (c !! index_of cp_size slot) as [row|] eqn:Hrow; [|done]. cbn.
      destruct (decide (Z.to_nat eaxc = e)) as [<-|Hne'].
      * rewrite decide_True by done. intros Hl. rewrite list_lookup_insert_eq in Hl; [by injection Hl|]. apply lookup_lt_Some in Hl. by rewrite length_insert in Hl.
      * rewrite decide_False by naive_solver. rewrite list_lookup_insert_ne by done. intros Hl. apply Hat. by rewrite Hrow.
    + rewrite list_lookup_alter_ne by done. rewrite decide_False by naive_solver. apply Hat.
  - intros i e. unfold upd. destruct (decide _) as [[<- <-]|]; [|apply Hd]. intros Ha. rewrite Z2Nat.id by lia. by apply Hx.
Qed.

Context {Hdim : Dimensions ports symb subc size} {fills : DecompressorFills decompressor}.
Context (Hself : decoder_ok self) (Hsymbols : nof_symbols self <= MAX_NSYMB_PER_SLOT) (Hcp : 0 < cp_size).

Definition placed (a : abstract) : Prop := ∀ i s c, cells a i s = Some c → index_of size (ctx_slot (cell_context c)) = i.

Lemma spec_step_placed a o a' taken : placed a → spec_step ports subc size a o = Some (a', taken) → placed a'.
Proof.
  intros HP HS. assert (HU : ∀ i s v f, placed (mk_abstract f (samples a)) → (∀ c, v = Some c → index_of size (ctx_slot (cell_context c)) = i) →
    ∀ smp, placed (mk_abstract (upd i s v f) smp)).
  { intros i s v f Hf Hv smp i' s' c. cbn [cells]. unfold upd. destruct (decide _) as [[<- <-]|]; [apply Hv|apply Hf]. }
  destruct o; cbn [spec_step] in HS; repeat case_match; simplify_option_eq; try done.
  - intros i' s' c. cbn [cells]. destruct (decide _) as [[-> _]|]; [by intros [= <-]|apply HP].
  - apply HU; [done|]. intros c0 [= <-]. unfold mark. cbn [cell_context]. by eapply (HP _ s).
  - by apply HU.
  - by apply HU.
  - by apply HU.
Qed.

Lemma spec_run_placed ops : ∀ a a' taken, placed a → spec_run ports subc size a ops = Some (a', taken) → placed a'.
Proof.
  induction ops as [|o ops IH]; intros a a' taken HP; cbn [spec_run]; [by intros [= <- _]|].
  destruct (spec_step ports subc size a o) as [[a1 i]|] eqn:E; [|done]. cbn [mbind option_bind].
  destruct (spec_run ports subc size a1 ops) as [[a2 t2]|] eqn:E2; [|done]. intros [= <- _]. eapply IH; [|done]. by eapply spec_step_placed.
Qed.

Lemma spec_run_last ops o : ∀ a a1 a2 taken, spec_run ports subc size a ops = Some (a1, []) → spec_step ports subc size a1 o = Some (a2, taken) →
  spec_run ports subc size a (ops ++ [o]) = Some (a2, taken).
Proof.
  induction ops as [|o' ops IH]; intros a a1 a2 taken; cbn [spec_run app].
  - intros [= <-] ->. cbn [mbind option_bind]. by rewrite app_nil_r.
  - destruct (spec_step ports subc size a o') as [[a' i]|]; [|done]. cbn [mbind option_bind].
    destruct (spec_run ports subc size a' ops) as [[a'' t'']|] eqn:E; [|done]. intros [= -> HN] HS.
    apply app_eq_nil in HN as [-> ->]. by rewrite (IH a' a1 a2 taken E HS).
Qed.

(** What is taken out leaves the repository with its reference. *)
Lemma grids_told s taken ns held : map n_grid (ns ++ map (notify s) taken) ++ held ≡ₚ map uplink_context.grid taken ++ map n_grid ns ++ held.
Proof.
  rewrite map_app, map_map. cbn [n_grid notify]. rewrite <- app_assoc. apply Permutation_app_swap_app.
Qed.

Definition room (st : state) (held : list grid_pool.handle) : Prop :=
  size * MAX_NSYMB_PER_SLOT + zlen (notified st) + zlen held + 3 < grid_pool.ref_counter_available.

Lemma room_out st held q : realizes st held q → room st held →
  zlen (handles (ul_context_repo st)) + zlen (map n_grid (notified st) ++ held) + 3 < grid_pool.ref_counter_available.
Proof.
  intros HQ HR. rewrite (zlen_handles ports symb subc size _ _ (impl_rep _ _ _ _ _ _ _ (re_impl _ _ _ HQ))). unfold room, zlen in *.
  rewrite length_app, length_map. lia.
Qed.

(** A step of the repository is a step of the promise. *)
Lemma taking_realizes st held q r1 a1 o s : realizes st held q →
  implements ports symb subc size r1 (map n_grid (notified st) ++ held) a1 → placed a1 →
  op_ok symb subc (map n_grid (notified st) ++ held) o → roomy r1 (map n_grid (notified st) ++ held) →
  ∀ a2 taken, spec_step ports subc size a1 o = Some (a2, taken) →
  ∃ r2, step r1 o = Ok (r2, taken) ∧
    realizes (mk_state r2 (ul_cplane_context_repo st) (notified st ++ map (notify s) taken)) held
             (mk_promise a2 (requested q) (told q ++ map (notify s) taken)).
Proof.
  intros [_ HC HT _] HI HP Ho HR a2 taken HS. pose proof (step_implements ports symb subc size r1 _ a1 o HI Ho HR) as HX.
  rewrite HS in HX. destruct HX as (r2 & HE & HI2). exists r2. split; [done|].
  constructor; cbn [ul_context_repo ul_cplane_context_repo notified expected requested told]; [|done|by rewrite HT|by eapply spec_step_placed].
  by rewrite grids_told.
Qed.

Lemma filter_value c q eaxc results : cplane_realizes c (requested q) → slot_point.wf (d_slot (params results)) → 0 <= eaxc < MAX_SUPPORTED_EAXC_ID_VALUE → eaxc ∈ heard →
  should_uplane_packet_be_filtered c eaxc results = Ok (negb (admitted q eaxc results)) ∧ (admitted q eaxc results = true → eaxc ∈ ul_eaxc).
Proof.
  intros HC Hslot He Hh. unfold should_uplane_packet_be_filtered, admitted, uplink_cplane_context_repository.get. rewrite (cplane_entry c (requested q)) by done.
  cbn [mbind result_bind]. set (cp := requested q _ _). set (p := params results). destruct (decide (d_filter_index p = filter_reserved)) as [Hr|Hr].
  { rewrite (bool_decide_true (d_filter_index p = filter_reserved)) by done. cbn. split; [done|by intros]. }
  rewrite (bool_decide_false (d_filter_index p = filter_reserved)) by done. destruct (is_a_prach_message (d_filter_index p)) eqn:Hpr; cbn [negb andb]; [split; [done|by intros]|].
  case_bool_decide as Hf; [|rewrite !andb_false_r; cbn; split; [done|by intros]]. rewrite !andb_true_r.
  destruct (Z.leb_spec (cplane.start_symbol (uplink_cplane_context_repository.radio_hdr cp)) (d_symbol_id p)); cbn [andb mbind result_bind]; [|split; [done|by intros]].
  destruct (Z.ltb_spec (d_symbol_id p) (cplane.start_symbol (uplink_cplane_context_repository.radio_hdr cp) + uplink_cplane_context_repository.nof_symbols cp));
    cbn [andb mbind result_bind]; [|split; [done|by intros]].
  split; [by rewrite negb_involutive|]. intros _. rewrite <- (Z2Nat.id eaxc) by lia. apply (cr_data _ _ HC (index_of cp_size (d_slot p))); [|by rewrite Z2Nat.id by lia]. change (asks_data cp).
  split; [lia|]. rewrite <- Hf. by split.
Qed.

Lemma message_realizes st held q accept eaxc message : realizes st held q → room st held → event_ok held (Message accept eaxc message) →
  match promise_step q (Message accept eaxc message) with
  | Ok q' => ∃ st', flow_step st (Message accept eaxc message) = Ok st' ∧ realizes st' held q'
  | Fault f => flow_step st (Message accept eaxc message) = Fault f
  end.
Proof.
  intros HQ HR (He & Hh & Hb & Hl). cbn [flow_step promise_step]. unfold decode_type1_message.
  destruct (decode self no_results message) as [[valid results]|f] eqn:HD; cbn [mbind result_bind]; [|done].
  destruct valid; cbn [negb andb]; [|by exists st].
  destruct (decode_values self message results Hself Hb Hl HD) as (Hslot & Hsym & HF).
  destruct (filter_value (ul_cplane_context_repo st) q eaxc results (re_cplane _ _ _ HQ) Hslot He Hh) as [-> Hin]. cbn [mbind result_bind].
  destruct (admitted q eaxc results) eqn:HA; cbn [negb andb]; [|by exists st].
  set (s := Z.to_nat (d_symbol_id (params results))). assert (Hs : d_symbol_id (params results) = Z.of_nat s) by lia.
  assert (Hs14 : Z.of_nat s < MAX_NSYMB_PER_SLOT) by lia. pose proof (room_out st held q HQ HR) as Hroom.
  destruct (write_to_grid_spec ports symb subc size accept ul_eaxc (ul_context_repo st) _ (expected q) eaxc results s (re_impl _ _ _ HQ) Hroom Hslot Hs Hs14 HF (Hin eq_refl))
    as (r1 & a1 & -> & HI1 & HM & HK). cbn [mbind result_bind]. rewrite Hs.
  assert (HR1 : roomy r1 (map n_grid (notified st) ++ held)).
  { unfold roomy. rewrite (zlen_handles ports symb subc size _ _ (impl_rep _ _ _ _ _ _ _ HI1)).
    rewrite (zlen_handles ports symb subc size _ _ (impl_rep _ _ _ _ _ _ _ (re_impl _ _ _ HQ))) in Hroom. lia. }
  assert (HN : ∀ r2 taken, step r1 (TryPop accept (d_slot (params results)) s) = Ok (r2, taken) →
    notify_received_symbol accept (with_repo st r1) (d_slot (params results)) (Z.of_nat s) =
      Ok (mk_state r2 (ul_cplane_context_repo st) (notified st ++ map (notify (Z.of_nat s)) taken))).
  { intros r2 taken HE. unfold notify_received_symbol. cbn [ul_context_repo with_repo step] in *. apply bind_Ok in HE as ([r' i] & -> & [= -> <-]). cbn [mbind result_bind].
    destruct i; [done|]. cbn [option_list map]. by rewrite app_nil_r. }
  destruct (cells (expected q) (index_of size (d_slot (params results))) s) as [c|] eqn:Hc.
  - rewrite bool_decide_true by done. destruct HM as (HS1 & c1 & Hc1 & _). pose proof (spec_run_placed _ _ _ _ (re_placed _ _ _ HQ) HS1) as HP1.
    destruct (spec_step ports subc size a1 (TryPop accept (d_slot (params results)) s)) as [[a2 taken]|] eqn:HS2.
    2: { cbn [spec_step] in HS2. rewrite Hc1 in HS2. by destruct (complete c1). }
    destruct (taking_realizes st held q r1 a1 (TryPop accept (d_slot (params results)) s) (Z.of_nat s) HQ HI1 HP1 ltac:(by split) HR1 a2 taken HS2) as (r2 & HE & HRe).
    rewrite (HN r2 taken HE). eexists. split; [done|]. unfold taking, message_ops. fold s. by rewrite (spec_run_last _ _ _ a1 a2 taken HS1 HS2).
  - rewrite bool_decide_false by (by intros [? ?]). subst a1.
    assert (HS2 : spec_step ports subc size (expected q) (TryPop accept (d_slot (params results)) s) = Some (expected q, [])) by (cbn [spec_step]; by rewrite Hc).
    destruct (taking_realizes st held q r1 (expected q) (TryPop accept (d_slot (params results)) s) (Z.of_nat s) HQ HI1 (re_placed _ _ _ HQ) ltac:(by split) HR1 _ _ HS2) as (r2 & HE & HRe).
    rewrite (HN r2 [] HE). eexists. split; [done|]. cbn [map] in *. rewrite !app_nil_r in *. by destruct q.
Qed.

Lemma told_grows st held q e q' : realizes st held q → promise_step q e = Ok q' →
  ∃ new, told q' = told q ++ new ∧ zlen new <= 1.
Proof.
  assert (HT : ∀ s ops, (∀ a' taken, spec_run ports subc size (expected q) ops = Some (a', taken) → zlen taken <= 1) →
    ∃ new, told (taking q s ops) = told q ++ new ∧ zlen new <= 1).
  { intros s ops Hops. unfold taking. destruct (spec_run _ _ _ _ _) as [[a' taken]|] eqn:E; [|by exists []; rewrite app_nil_r].
    exists (map (notify (Z.of_nat s)) taken). split; [done|]. unfold zlen. rewrite length_map. by apply (Hops a'). }
  assert (H1 : ∀ a o a' taken, spec_run ports subc size a [o] = Some (a', taken) → zlen taken <= 1).
  { intros a o a' taken. cbn [spec_run]. destruct (spec_step _ _ _ a o) as [[a1 i]|] eqn:E; [|done]. cbn. intros [= _ <-]. rewrite app_nil_r.
    by eapply spec_step_taken. }
  intros HQ HE. destruct e; cbn [promise_step] in HE.
  - injection HE as <-. apply HT. intros; by eapply H1.
  - injection HE as <-. by exists []; rewrite app_nil_r.
  - apply bind_Ok in HE as ([valid results] & _ & HE). destruct (_ && _) in HE; injection HE as <-; [|by exists []; rewrite app_nil_r].
    apply HT. unfold message_ops. intros a' taken. generalize (expected q). induction (sections results) as [|sec secs IH]; intros a; [apply H1|].
    cbn [omap list_omap]. destruct (section_write _ _ _ _ _) as [o|] eqn:Eo; [|apply IH]. cbn [app spec_run]. unfold section_write in Eo. case_match; [done|].
    injection Eo as <-. cbn [spec_step]. destruct (cells a _ _) as [c|]; [|done]. cbn [mbind option_bind].
    assert (HX : ∀ a1, (spec_run ports subc size a1 (omap (section_write subc (d_slot (params results)) (Z.to_nat (d_symbol_id (params results))) (find_port ul_eaxc eaxc)) secs ++
      [TryPop accept (d_slot (params results)) (Z.to_nat (d_symbol_id (params results)))]) ≫= λ '(a2, is'), Some (a2, [] ++ is')) = Some (a', taken) → zlen taken <= 1).
    { intros a1. destruct (spec_run _ _ _ a1 _) as [[a2 t2]|] eqn:E2; [|done]. cbn. intros [= <- <-]. by apply (IH a1). }
    destruct (ports <=? _); cbn [mbind option_bind]; apply HX.
  - apply bind_Ok in HE as (slot & _ & HE). apply bind_Ok in HE as (symbol & _ & [= <-]). apply HT. intros; by eapply H1.
Qed.

Lemma flow_step_realizes st held q e : realizes st held q → room st held → event_ok held e →
  match promise_step q e with
  | Ok q' => ∃ st', flow_step st e = Ok st' ∧ realizes st' held q'
  | Fault f => flow_step st e = Fault f
  end.
Proof.
  intros HQ HR He. destruct e as [accept context gid start stop|slot eaxc cp|accept eaxc message|point]; [| |by apply message_realizes|].
  all: pose proof (room_out st held q HQ HR) as Hroom.
  - cbn [promise_step flow_step event_ok] in *. unfold taking. cbn [spec_run]. cbn [spec_step mbind option_bind app map].
    assert (Ho : op_ok symb subc (map n_grid (notified st) ++ held) (Add accept context gid start stop)) by (cbn [op_ok] in *; set_solver).
    destruct (taking_realizes st held q _ _ (Add accept context gid start stop) 0 HQ (re_impl _ _ _ HQ) (re_placed _ _ _ HQ) Ho ltac:(unfold roomy; lia) _ _ eq_refl) as (r2 & HE & HRe).
    cbn [step] in HE. apply bind_Ok in HE as (r' & -> & [= ->]). cbn [mbind result_bind map] in *. eexists. split; [done|]. rewrite !app_nil_r in *. done.
  - destruct He as (Hslot & He & Hx). destruct HQ as [HI HC HT HP]. cbn [promise_step flow_step].
    destruct (cplane_add _ _ slot eaxc cp Hcp HC Hslot He Hx) as (c' & -> & HC'). cbn [mbind result_bind]. eexists. split; [done|]. by constructor.
  - destruct He as [Hw Hn]. destruct (slot_symbol_point.point_values point Hw) as (slot & s & Hg & Hslot & Hi & Hs). cbn [promise_step flow_step]. unfold handle_uplink_context.
    rewrite Hg. cbn [mbind result_bind]. rewrite Hi. cbn [mbind result_bind]. rewrite Nat2Z.id. unfold taking. cbn [spec_run].
    destruct (spec_step ports subc size (expected q) (Pop slot s)) as [[a2 taken]|] eqn:HS; [|cbn [spec_step] in HS; by destruct (cells _ _ _)].
    destruct (taking_realizes st held q _ _ (Pop slot s) (Z.of_nat s) HQ (re_impl _ _ _ HQ) (re_placed _ _ _ HQ) ltac:(split; [done|lia]) ltac:(unfold roomy; lia) _ _ HS) as (r2 & HE & HRe).
    cbn [step] in HE. apply bind_Ok in HE as ([r' i] & -> & [= -> <-]). cbn [mbind option_bind result_bind]. rewrite app_nil_r.
    destruct i; eexists; (split; [done|]); [done|]. cbn [option_list map] in *. by rewrite !app_nil_r in *.
Qed.

Lemma flow_run_realizes es : ∀ st held q, realizes st held q → Forall (event_ok held) es →
  size * MAX_NSYMB_PER_SLOT + zlen (notified st) + zlen held + zlen es + 3 < grid_pool.ref_counter_available →
  match promise_run q es with
  | Ok q' => ∃ st', flow_run st es = Ok st' ∧ realizes st' held q'
  | Fault f => flow_run st es = Fault f
  end.
Proof.
  induction es as [|e es IH]; intros st held q HQ HF HR; cbn [promise_run flow_run fold_result]; [by exists st|].
  inversion_clear HF as [|? ? He Hes]. rewrite zlen_cons in HR. pose proof (zlen_nonneg es).
  pose proof (flow_step_realizes st held q e HQ ltac:(unfold room; lia) He) as HS. destruct (promise_step q e) as [q1|f] eqn:E; cbn [mbind result_bind]; [|by rewrite HS].
  destruct HS as (st1 & -> & HQ1). cbn [mbind result_bind]. destruct (told_grows st held q e q1 HQ E) as (new & Hnew & Hz).
  apply (IH st1 held q1 HQ1 Hes). rewrite (re_told _ _ _ HQ1), Hnew. rewrite (re_told _ _ _ HQ) in HR. rewrite zlen_app. lia.
Qed.

(** The only fault is that of the decoder. *)
Lemma promise_run_fault es held f : ∀ q, Forall (event_ok held) es → promise_run q es = Fault f →
  ∃ accept eaxc message, Message accept eaxc message ∈ es ∧ decode self no_results message = Fault f.
Proof.
  intros q HF. revert q. induction HF as [|e es He HF IH]; intros q E; [done|]. unfold promise_run in E. cbn [fold_result] in E.
  destruct (promise_step q e) as [q1|f1] eqn:E1; cbn [mbind result_bind] in E.
  { destruct (IH q1 E) as (acc & eaxc & m & Hin & HD). exists acc, eaxc, m. split; [set_solver|done]. }
  injection E as <-. destruct e as [| |acc eaxc m|point]; cbn [promise_step] in E1; try done.
  - exists acc, eaxc, m. split; [set_solver|]. destruct (decode self no_results m) as [[v rs]|]; cbn [mbind result_bind] in E1; [by destruct (_ && _) in E1|congruence].
  - destruct He as [Hw _]. destruct (slot_symbol_point.point_values point Hw) as (slot & s & Hg & _ & Hi & _). rewrite Hg in E1. cbn [mbind result_bind] in E1. by rewrite Hi in E1.
Qed.

(** C21: The uplink flow keeps what it promises.  Whatever sequence of requests, commands,
    received messages (of any octets) and closing windows occurs, the flow tells the
    notifier the same symbols, with the same slots, sectors and grids and in the same
    order, as a table of expected symbols in which an admitted message writes its
    sections' samples, cut to the width of the grid, to the grid of the symbol it
    answers, marks them, and takes the symbol out once every resource element of every
    port has arrived; a message not commanded, or for a symbol nobody expects, does
    nothing, and the only fault is that of the decoder. *)
Theorem uplink_flow_refines es st held q : realizes st held q → Forall (event_ok held) es →
  size * MAX_NSYMB_PER_SLOT + zlen (notified st) + zlen held + zlen es + 3 < grid_pool.ref_counter_available →
  match promise_run q es with
  | Ok q' => ∃ st', flow_run st es = Ok st' ∧ notified st' = told q' ∧ realizes st' held q'
  | Fault f => flow_run st es = Fault f ∧ ∃ accept eaxc message, Message accept eaxc message ∈ es ∧ decode self no_results message = Fault f
  end.
Proof.
  intros HQ HF HR. pose proof (flow_run_realizes es st held q HQ HF HR) as HX. destruct (promise_run q es) as [q'|f] eqn:E.
  { destruct HX as (st' & -> & HQ'). exists st'. split; [done|]. split; [apply HQ'|done]. }
  split; [done|by eapply promise_run_fault].
Qed.

(** ** One symbol, from its request to the end of its window *)

(** The notifications for a place of the table. *)
Definition told_at (i s : nat) : list notification → list notification :=
  filter (λ n, index_of size (n_slot n) = i ∧ n_symbol n = Z.of_nat s).
Definition the_notification (s : nat) (context : resource_grid_context) (gid : Z) : notification :=
  mk_notification (ctx_slot context) (Z.of_nat s) (ctx_sector context) (Some gid).

(** A symbol that stays expected is not told; one that leaves is told once. *)
Definition evolves (i s : nat) (v v' : option cell) (ns : list notification) : Prop :=
  match v with
  | None => v' = None ∧ told_at i s ns = []
  | Some c =>
      (∃ c', v' = Some c' ∧ cell_context c' = cell_context c ∧ cell_grid c' = cell_grid c ∧ told_at i s ns = []) ∨
      (v' = None ∧ told_at i s ns = [the_notification s (cell_context c) (cell_grid c)])
  end.

Lemma evolves_refl i s v : evolves i s v v [].
Proof. destruct v as [c|]; [left; by exists c|done]. Qed.

Lemma evolves_app i s v v1 v2 ns1 ns2 : evolves i s v v1 ns1 → evolves i s v1 v2 ns2 → evolves i s v v2 (ns1 ++ ns2).
Proof.
  unfold evolves, told_at. intros H1 H2. rewrite filter_app. destruct v as [c|].
  - destruct H1 as [(c1 & -> & Hx & Hg & ->)|[-> ->]].
    + rewrite <- Hx, <- Hg. destruct H2 as [(c2 & -> & Hx2 & Hg2 & ->)|[-> ->]]; [left; by exists c2|by right].
    + destruct H2 as [-> ->]. by right.
  - destruct H1 as [-> ->]. by destruct H2 as [-> ->].
Qed.

(** Operations, for symbol [s0] of some slot, that do not ask for the symbol again. *)
Definition keeps (i s s0 : nat) (o : op) : Prop :=
  match o with
  | Add _ context _ start stop => ¬ (index_of size (ctx_slot context) = i ∧ start <= Z.of_nat s < stop)
  | Write _ _ s' _ _ | TryPop _ _ s' | Pop _ s' => s' = s0
  | Clear _ _ _ => False
  end.

(** Taking a cell out tells exactly that cell. *)
Lemma evolves_taken a i s slot s0 c : placed a → cells a (index_of size slot) s0 = Some c →
  evolves i s (cells a i s) (upd (index_of size slot) s0 None (cells a) i s)
    (map (notify (Z.of_nat s0)) [uplink_context.mk_info (cell_context c) (Some (cell_grid c))]).
Proof.
  intros HP Hc. pose proof (HP _ _ _ Hc) as Hi. unfold upd, told_at, evolves. cbn [map]. unfold notify. cbn [uplink_context.context uplink_context.grid].
  destruct (decide (index_of size slot = i ∧ s0 = s)) as [[<- <-]|Hne].
  - rewrite Hc. right. split; [done|]. unfold told_at. by rewrite filter_cons_True.
  - unfold told_at. rewrite filter_cons_False by (cbn [n_slot n_symbol]; naive_solver lia). destruct (cells a i s) as [c'|]; [left; by exists c'|done].
Qed.

Lemma spec_step_evolves a o a' taken i s s0 : placed a → keeps i s s0 o → spec_step ports subc size a o = Some (a', taken) →
  evolves i s (cells a i s) (cells a' i s) (map (notify (Z.of_nat s0)) taken).
Proof.
  intros HP Hk HS. destruct o as [acc context gid start stop|slot port s' k buf|acc slot s'|slot s'|acc slot s']; cbn [keeps spec_step] in *; [| | | |done]; subst.
  - injection HS as <- <-. cbn [cells map]. rewrite decide_False by naive_solver. apply evolves_refl.
  - destruct (cells a (index_of size slot) s0) as [c|] eqn:Hc; [|done]. cbn [mbind option_bind] in HS. destruct (ports <=? port); injection HS as <- <-; cbn [cells map]; [apply evolves_refl|].
    unfold upd. destruct (decide _) as [[<- <-]|]; [|apply evolves_refl]. rewrite Hc. left. by eexists.
  - destruct (cells a (index_of size slot) s0) as [c|] eqn:Hc; [|injection HS as <- <-; apply evolves_refl].
    destruct (complete c); injection HS as <- <-; [|apply evolves_refl]. by apply evolves_taken.
  - destruct (cells a (index_of size slot) s0) as [c|] eqn:Hc; injection HS as <- <-; [by apply evolves_taken|apply evolves_refl].
Qed.

Lemma spec_run_evolves ops i s s0 : ∀ a a' taken, placed a → Forall (keeps i s s0) ops → spec_run ports subc size a ops = Some (a', taken) →
  evolves i s (cells a i s) (cells a' i s) (map (notify (Z.of_nat s0)) taken).
Proof.
  induction ops as [|o ops IH]; intros a a' taken HP HF; cbn [spec_run]; [intros [= <- <-]; apply evolves_refl|].
  inversion_clear HF as [|? ? Ho Hos]. destruct (spec_step ports subc size a o) as [[a1 t1]|] eqn:E1; [|done]. cbn [mbind option_bind].
  destruct (spec_run ports subc size a1 ops) as [[a2 t2]|] eqn:E2; [|done]. intros [= <- <-]. rewrite map_app.
  eapply evolves_app; [by eapply spec_step_evolves|]. apply (IH a1); [by eapply spec_step_placed|done|done].
Qed.

(** No request asks for the symbol again. *)
Definition quiet (i s : nat) (e : event) : Prop :=
  match e with Request _ context _ start stop => ¬ (index_of size (ctx_slot context) = i ∧ start <= Z.of_nat s < stop) | _ => True end.

Lemma taking_evolves q i s s0 ops : placed (expected q) → Forall (keeps i s s0) ops →
  ∃ new, told (taking q s0 ops) = told q ++ new ∧ placed (expected (taking q s0 ops)) ∧
    evolves i s (cells (expected q) i s) (cells (expected (taking q s0 ops)) i s) new.
Proof.
  intros HP HF. unfold taking. destruct (spec_run _ _ _ _ _) as [[a' taken]|] eqn:E.
  - eexists. split; [done|]. split; [by eapply spec_run_placed|by eapply spec_run_evolves].
  - exists []. rewrite app_nil_r. split; [done|]. split; [done|apply evolves_refl].
Qed.

Lemma promise_step_evolves q e q' i s : placed (expected q) → quiet i s e → promise_step q e = Ok q' →
  ∃ new, told q' = told q ++ new ∧ placed (expected q') ∧ evolves i s (cells (expected q) i s) (cells (expected q') i s) new.
Proof.
  intros HP Hq HE. assert (HN : ∃ new, told q = told q ++ new ∧ placed (expected q) ∧ evolves i s (cells (expected q) i s) (cells (expected q) i s) new).
  { exists []. rewrite app_nil_r. split; [done|]. split; [done|apply evolves_refl]. }
  destruct e as [acc context gid start stop|slot eaxc cp|acc eaxc m|point]; cbn [promise_step quiet] in *.
  - injection HE as <-. apply taking_evolves; [done|]. by repeat constructor.
  - by injection HE as <-.
  - apply bind_Ok in HE as ([valid results] & _ & HE). destruct (_ && _) in HE; injection HE as <-; [|done]. apply taking_evolves; [done|].
    unfold message_ops. apply Forall_app. split; [|by repeat constructor]. apply Forall_forall. intros o Ho.
    apply list_elem_of_omap in Ho as (sec & _ & Hsec). unfold section_write in Hsec. case_match; [done|]. by injection Hsec as <-.
  - apply bind_Ok in HE as (slot & _ & HE). apply bind_Ok in HE as (symbol & _ & [= <-]). apply taking_evolves; [done|]. by repeat constructor.
Qed.

Lemma promise_run_evolves es i s : ∀ q q', placed (expected q) → Forall (quiet i s) es → promise_run q es = Ok q' →
  ∃ new, told q' = told q ++ new ∧ placed (expected q') ∧ evolves i s (cells (expected q) i s) (cells (expected q') i s) new.
Proof.
  induction es as [|e es IH]; intros q q' HP HF HE; unfold promise_run in HE; cbn [fold_result] in HE.
  { injection HE as <-. exists []. rewrite app_nil_r. split; [done|]. split; [done|apply evolves_refl]. }
  inversion_clear HF as [|? ? Hq Hes]. apply bind_Ok in HE as (q1 & H1 & HE).
  destruct (promise_step_evolves q e q1 i s HP Hq H1) as (n1 & E1 & HP1 & V1). destruct (IH q1 q' HP1 Hes HE) as (n2 & E2 & HP2 & V2).
  exists (n1 ++ n2). rewrite E2, E1, app_assoc. split; [done|]. split; [done|by eapply evolves_app].
Qed.

(** A requested symbol, from its request to the end of its window. *)
Lemma request_told es q q3 accept context gid start stop point slot s : placed (expected q) →
  slot_symbol_point.get_slot point = Ok slot → slot_symbol_point.get_symbol_index point = Ok (Z.of_nat s) →
  start <= Z.of_nat s < stop → index_of size slot = index_of size (ctx_slot context) → Forall (quiet (index_of size slot) s) es →
  promise_run q (Request accept context gid start stop :: es ++ [Closed point]) = Ok q3 →
  ∃ new, told q3 = told q ++ new ∧ told_at (index_of size slot) s new = [the_notification s context gid].
Proof.
  intros HP Hg Hi Hs Hslot HQt E. set (i := index_of size slot) in *. set (q1 := taking q 0 [Add accept context gid start stop]).
  assert (Hc1 : cells (expected q1) i s = Some (fresh_cell ports subc context gid)) by (cbn; by rewrite decide_True).
  assert (Ht1 : told q1 = told q) by (cbn; by rewrite app_nil_r).
  assert (HP1 : placed (expected q1)) by (exact (spec_run_placed [Add accept context gid start stop] _ _ _ HP eq_refl)).
  unfold promise_run in E. cbn [fold_result promise_step mbind result_bind] in E. fold q1 in E. rewrite fold_result_app in E.
  apply bind_Ok in E as (q2 & E2 & E3). destruct (promise_run_evolves es i s q1 q2 HP1 HQt E2) as (n1 & T1 & HP2 & V1).
  assert (HE3 : promise_run q2 [Closed point] = Ok q3) by done.
  destruct (promise_run_evolves [Closed point] i s q2 q3 HP2 ltac:(by repeat constructor) HE3) as (n2 & T2 & _ & V2).
  exists (n1 ++ n2). rewrite T2, T1, Ht1, app_assoc. split; [done|].
  pose proof (evolves_app i s _ _ _ n1 n2 V1 V2) as V. rewrite Hc1 in V. destruct V as [(c' & HN & _)|[_ HV]]; [|exact HV].
  exfalso. cbn [fold_result promise_step] in E3. rewrite Hg in E3. cbn [mbind result_bind] in E3. rewrite Hi in E3. cbn [mbind result_bind] in E3. injection E3 as <-.
  rewrite Nat2Z.id in HN. unfold taking in HN. cbn [spec_run spec_step] in HN. fold i in HN.
  destruct (cells (expected q2) i s) eqn:Hc2; cbn [mbind option_bind expected cells] in HN; [|congruence]. unfold upd in HN. by rewrite decide_True in HN.
Qed.

(** Every requested symbol is told once.  After a request for a range of symbols of a
    slot, whatever messages arrive, are lost or are repeated, and whatever other
    requests and windows occur, when the window of a symbol of the range has closed and
    no later request has asked for its place again, the notifier has been given that
    symbol exactly once, with the slot and sector of the request and a reference to its
    grid. *)
Theorem uplink_notified_once es st held q accept context gid start stop point slot s :
  realizes st held q → Forall (event_ok held) (Request accept context gid start stop :: es ++ [Closed point]) →
  size * MAX_NSYMB_PER_SLOT + zlen (notified st) + zlen held + zlen es + 5 < grid_pool.ref_counter_available →
  slot_symbol_point.get_slot point = Ok slot → slot_symbol_point.get_symbol_index point = Ok (Z.of_nat s) →
  start <= Z.of_nat s < stop → index_of size slot = index_of size (ctx_slot context) →
  Forall (quiet (index_of size slot) s) es →
  (∀ acc eaxc m, Message acc eaxc m ∈ es → ∃ r, decode self no_results m = Ok r) →
  ∃ st' new, flow_run st (Request accept context gid start stop :: es ++ [Closed point]) = Ok st' ∧
    notified st' = notified st ++ new ∧ told_at (index_of size slot) s new = [the_notification s context gid].
Proof.
  intros HQ HF HR Hg Hi Hs Hslot HQt HD. pose proof (flow_run_realizes _ st held q HQ HF) as HX. rewrite zlen_cons, zlen_app in HX. change (zlen [Closed point]) with 1 in HX.
  specialize (HX ltac:(lia)). destruct (promise_run q _) as [q3|f] eqn:E.
  2: { destruct (promise_run_fault _ held f q HF E) as (acc & eaxc & m & Hin & Hm). destruct (HD acc eaxc m) as [r Hr]; [set_solver|congruence]. }
  destruct HX as (st' & HE & HQ'). destruct (request_told es q q3 accept context gid start stop point slot s (re_placed _ _ _ HQ) Hg Hi Hs Hslot HQt E) as (new & HT & HN).
  exists st', new. split; [exact HE|]. by rewrite (re_told _ _ _ HQ'), (re_told _ _ _ HQ), HT.
Qed.
End events.

(** ** The decompressors of the receiver fill the buffer *)

Lemma span_write_zlen {A} (l w l' : list A) off : 0 <= off → span_write l off w = Ok l' → zlen l' = zlen l.
Proof.
  intros H0 ([] & Hb%assume_Ok%Z.leb_le & [= <-])%bind_Ok. unfold zlen in *. rewrite !length_app, length_take, length_drop. lia.
Qed.

#[export] Instance selector_fills sd : DecompressorFills (selector_decompressor sd).
Proof.
  intros n data c samples Hn HD. cbn [iq_decompress selector_decompressor] in HD. unfold iq_decompressor_selector.decompress in HD.
  apply bind_Ok in HD as (d & _ & HD).
  assert (HW : ∀ g n' (buf : list cbf16_t), (∀ a i a', g a i = Ok a' → ∃ w, span_write a (i * NOF_SUBCARRIERS_PER_RB) w = Ok a') →
    fold_result g buf (seqZ 0 n') = Ok samples → zlen samples = zlen buf).
  { intros g n' buf Hg HF. eapply (fold_result_invariant (λ x, zlen x = zlen buf)); [|done|exact HF].
    intros a i a' Hi%elem_of_seqZ Ha (w & Hw)%Hg. apply span_write_zlen in Hw; [lia|]. unfold NOF_SUBCARRIERS_PER_RB. lia. }
  rewrite <- (Z2Nat.id n) by done. rewrite <- (length_replicate (Z.to_nat n) (mk_cbf16 0 0)). fold (zlen (replicate (Z.to_nat n) (mk_cbf16 0 0))).
  destruct d; cbn [impl_decompress] in HD; [| |done].
  all: unfold iq_compression_none_impl.decompress, iq_compression_bfp_impl.decompress in HD.
  all: apply bind_Ok in HD as (q & _ & HD); apply bind_Ok in HD as ([] & _ & HD); eapply HW; [|exact HD].
  all: intros a i a' ([] & _ & (p & _ & (w & _ & Hw)%bind_Ok)%bind_Ok)%bind_Ok; by exists w.
Qed.

(** ** Examples *)
Module flow_examples.
Import uplane uplink_data_flow uplink_context_repository uplink_examples.

#[local] Instance example_decompressor : IqDecompressor := selector_decompressor compression_examples.example_compressors.
#[local] Instance example_fills : DecompressorFills example_decompressor := selector_fills _.

(** One block of symbol 0, 9 bits, as the radio unit sends it. *)
Definition example_params : uplane_message_params :=
  mk_params downlink example_slot standard_channel_filter 0 1 0 type_1 (mk_compr BFP 9).
Definition example_message : list Z :=
  match build_message (compressor := selector_compressor compression_examples.example_compressors)
          cplane.dynamic_compression true (replicate 38 0) example_block example_params with
  | Ok (_, b) => 16 :: tl b
  | Fault _ => []
  end.
Definition example_command : cplane_context :=
  uplink_cplane_context_repository.mk_cplane (cplane.mk_header uplink standard_channel_filter 0 example_slot) 0 1 2.
Definition example_closed (symbol : Z) : slot_symbol_point.t := slot_symbol_point.mk 14 1 (10275 * 14 + symbol).

Definition initial : state := mk_state (uplink_context_repository.create lent_pool 5) (uplink_cplane_context_repository.create 5) [].
Definition promised : promise := mk_promise (nothing_expected lent_pool) (λ _ _, uplink_cplane_context_repository.default) [].

Lemma initial_realizes ul_eaxc heard : realizes ul_eaxc heard 1 2 12 5 5 initial [Some 0] promised.
Proof.
  constructor; [exact created_implements| |done|done]. constructor; cbn [initial ul_cplane_context_repo requested promised].
  - done.
  - apply Forall_replicate. by rewrite length_replicate.
  - intros i e x. unfold uplink_cplane_context_repository.create. destruct (replicate (Z.to_nat 5) _ !! i) as [row|] eqn:Hi; [|done]. cbn.
    apply lookup_replicate_1 in Hi as [-> _]. intros Hs. by apply lookup_replicate_1 in Hs as [-> _].
  - intros i e (H & _). cbn in H. lia.
Qed.

(** Symbol 0 arrives twice; symbol 1 is lost. *)
Definition session : list event :=
  [Command example_slot 3 example_command; Message true 3 example_message; Message true 3 example_message;
   Message true 4 example_message; Closed (example_closed 0)].
Definition request : event := Request true example_context 0 0 2.

Lemma heard_both e : e = 3 ∨ e = 4 → e ∈ [3; 4].
Proof. intros [-> | ->]; set_solver. Qed.

Lemma events_ok : Forall (event_ok [3] [3; 4] 2 12 [Some 0]) (request :: session ++ [Closed (example_closed 1)]).
Proof.
  assert (HB : bytes_ok example_message) by (vm_compute; repeat constructor; vm_compute; congruence).
  assert (HC : ∀ s, 0 <= s < 14 → event_ok [3] [3; 4] 2 12 [Some 0] (Closed (example_closed s))).
  { intros s Hs. split; [|done]. unfold slot_symbol_point.wf, slot_symbol_point.period, example_closed. cbn [slot_symbol_point.nof_symbols slot_symbol_point.numerology slot_symbol_point.count_val]. lia. }
  assert (HM : ∀ e, e = 3 ∨ e = 4 → event_ok [3] [3; 4] 2 12 [Some 0] (Message true e example_message))
    by (intros e He; split; [by destruct He as [-> | ->]|]; split; [by apply heard_both|]; by split).
  unfold session, request. cbn [app]. constructor; [|constructor; [|constructor; [|constructor; [|constructor; [|constructor; [|constructor; [|constructor]]]]]]];
    try (apply HM; auto); try (apply HC; lia).
  - cbn [event_ok op_ok ctx_slot example_context]. split; [apply elem_of_cons; by left|]. split; [slot_point.solve_wf|]. change MAX_NSYMB_PER_SLOT with 14. lia.
  - cbn [event_ok]. split; [slot_point.solve_wf|]. split; [done|]. intros _ _. apply elem_of_cons. by left.
Qed.

Lemma uplink_flow_refines_witness :
  ∃ st', flow_run raw_samples.example_decoder [3] initial (request :: session ++ [Closed (example_closed 1)]) = Ok st' ∧
    notified st' = [the_notification 0 example_context 0; the_notification 1 example_context 0].
Proof.
  pose proof (uplink_flow_refines raw_samples.example_decoder [3] [3; 4] 1 2 12 5 5 ltac:(split; [done|split; [done|done]]) ltac:(done) ltac:(lia) (request :: session ++ [Closed (example_closed 1)])
    initial [Some 0] promised (initial_realizes [3] [3; 4]) events_ok ltac:(vm_compute; reflexivity)) as H.
  assert (HT : match promise_run raw_samples.example_decoder [3] 1 12 5 5 promised (request :: session ++ [Closed (example_closed 1)]) with
    | Ok q' => told q' = [the_notification 0 example_context 0; the_notification 1 example_context 0] | Fault _ => False end) by (vm_compute; reflexivity).
  destruct (promise_run _ _ _ _ _ _ _ _) as [q'|]; [|contradiction]. destruct H as (st' & HE & HN & _). exists st'. split; [exact HE|]. by rewrite HN.
Defined.

Lemma uplink_notified_once_witness :
  ∃ st' new, flow_run raw_samples.example_decoder [3] initial (request :: session ++ [Closed (example_closed 1)]) = Ok st' ∧
    notified st' = [] ++ new ∧ told_at 5 (index_of 5 example_slot) 1 new = [the_notification 1 example_context 0].
Proof.
  apply (uplink_notified_once raw_samples.example_decoder [3] [3; 4] 1 2 12 5 5 ltac:(split; [done|split; [done|done]]) ltac:(done) ltac:(lia) session initial [Some 0] promised
    true example_context 0 0 2 (example_closed 1) example_slot 1 (initial_realizes [3] [3; 4]) events_ok).
  - vm_compute. reflexivity.
  - vm_compute. reflexivity.
  - vm_compute. reflexivity.
  - split; vm_compute; congruence.
  - reflexivity.
  - repeat constructor.
  - assert (HD : ∃ r, decode raw_samples.example_decoder no_results example_message = Ok r) by (eexists; vm_compute; reflexivity).
    intros acc eaxc m Hm%list_elem_of_In.
    assert (HX : ∀ m0, In (Message acc eaxc m) [Command example_slot 3 example_command; Message true 3 m0; Message true 3 m0; Message true 4 m0; Closed (example_closed 0)] → m = m0)
      by (intros m0 [H|[H|[H|[H|[H|[]]]]]]; first [discriminate H|by injection H]).
    rewrite (HX example_message Hm). exact HD.
Defined.
End flow_examples.
