(* ===== verification/FramePool.v ===== *)
(** * FramePool: the Ethernet frames waiting to be transmitted

    Models include/srsran/ofh/ethernet/ethernet_frame_pool.h.  For every symbol of twenty
    slots the pool has three arrays of frame buffers (downlink Control-Plane, uplink
    Control-Plane, User-Plane).  A data flow reserves some consecutive buffers of an
    array, fills them and pushes them; the transmitter reads what was pushed for an
    interval of symbols, sends it, and gives the buffers back.

    A [span<frame_buffer>] handed out is the position of its first buffer, its length
    being that of every span of the array; a [frame_buffer*] is the position of the
    buffer.  The public functions run under the mutex of the pool, so each is one step.
    Log messages are left out. *)

From S2P Require Import Prelude SlotPoint OfhBase.

Definition MAX_ETH_FRAME_LENGTH : Z := 9600.
Definition MIN_ETH_FRAME_LENGTH : Z := 64.

(** ** [frame_buffer] *)
Module frame_buffer.

Inductive frame_buffer_status : Type := free | reserved | used | marked_to_send.
#[export] Instance status_eq_dec : EqDecision frame_buffer_status.
Proof. solve_decision. Defined.

Record t : Type := mk { sz : Z; status : frame_buffer_status; buffer : list Z }.

Definition create (size : Z) : t := mk 0 free (replicate (Z.to_nat size) 0).
Definition empty (b : t) : bool := sz b =? 0.
Definition size (b : t) : Z := sz b.
Definition with_status (s : frame_buffer_status) (b : t) : t := mk (sz b) s (buffer b).
Definition is_status (s : frame_buffer_status) (b : t) : bool := bool_decide (status b = s).

(** Short frames are filled up with zeros. *)
Definition set_size (b : t) (new_size : Z) : result t :=
  assume (new_size <=? MAX_ETH_FRAME_LENGTH) AssertFailed;;
  let written_size := if new_size <? MIN_ETH_FRAME_LENGTH then MIN_ETH_FRAME_LENGTH else new_size in
  buf ← (if new_size <? MIN_ETH_FRAME_LENGTH
         then mem_write (buffer b) new_size (replicate (Z.to_nat (MIN_ETH_FRAME_LENGTH - new_size)) 0)
         else Ok (buffer b));
  Ok (mk written_size (status b) buf).

Definition clear (b : t) : t := mk 0 (status b) (buffer b).

(** [data() const] *)
Definition data (b : t) : result (list Z) := mem_read (buffer b) 0 (sz b).

End frame_buffer.

Inductive message_type : Type := control_plane | user_plane.
Definition message_type_value (t : message_type) : Z := match t with control_plane => 0 | user_plane => 1 end.

Record ofh_pool_message_type : Type := mk_type { type : message_type; direction : data_direction }.
Record frame_pool_context : Type := mk_pool_context { pc_type : ofh_pool_message_type; pc_symbol_point : slot_symbol_point.t }.
Record frame_pool_interval : Type := mk_interval { pi_type : ofh_pool_message_type; pi_start : slot_symbol_point.t; pi_end : slot_symbol_point.t }.

(** ** [frame_buffer_array] *)
Module frame_buffer_array.
Import frame_buffer.

Definition NUM_OF_ENTRIES : Z := 2.
(** The capacity of the vector of used buffers. *)
Definition used_capacity : Z := 128.

Record used_buffer : Type := mk_used { ub_buffer : Z; timestamp : slot_symbol_point.t }.

Record t : Type := mk {
  increment_quant : Z; storage_nof_buffers : Z;
  buffers_array : list frame_buffer.t; used_buffers : list used_buffer; write_count : Z }.

Definition create (nof_buffers_to_return buffer_size nof_antennas : Z) : t :=
  let storage := wrap 32 (wrap 32 (nof_buffers_to_return * nof_antennas) * NUM_OF_ENTRIES) in
  mk nof_buffers_to_return storage (replicate (Z.to_nat storage) (frame_buffer.create buffer_size)) [] 0.

Definition with_buffers (a : t) (l : list frame_buffer.t) : t :=
  mk (increment_quant a) (storage_nof_buffers a) l (used_buffers a) (write_count a).
Definition with_used (a : t) (u : list used_buffer) : t :=
  mk (increment_quant a) (storage_nof_buffers a) (buffers_array a) u (write_count a).

(** [rd_wr_counter::value] *)
Definition write_value (a : t) : result Z :=
  assume (negb (storage_nof_buffers a =? 0)) DivByZero;; Ok (write_count a mod storage_nof_buffers a).

(** The buffers of a span changed one by one. *)
Definition update_span (f : frame_buffer.t → frame_buffer.t) (a : t) (pos : Z) : result t :=
  w ← vec_range (buffers_array a) pos (pos + increment_quant a);
  Ok (with_buffers a (take (Z.to_nat pos) (buffers_array a) ++ map f w ++ drop (Z.to_nat (pos + increment_quant a)) (buffers_array a))).

(** [None] is the empty span. *)
Definition reserve_buffers (a : t) : result (t * option Z) :=
  pos ← write_value a;
  wr_buffers ← vec_range (buffers_array a) pos (pos + increment_quant a);
  if forallb (is_status free) wr_buffers then
    a ← update_span (with_status reserved) a pos;
    Ok (mk (increment_quant a) (storage_nof_buffers a) (buffers_array a) (used_buffers a)
           (wrap 32 (write_count a + increment_quant a)), Some pos)
  else Ok (a, None).

Definition push_buffer (symbol_point : slot_symbol_point.t) (a : t) (i : Z) : result t :=
  buffer ← vec_at (buffers_array a) i;
  if empty buffer then Ok (with_buffers a (<[Z.to_nat i := with_status free buffer]> (buffers_array a)))
  else
    let a := with_buffers a (<[Z.to_nat i := with_status used buffer]> (buffers_array a)) in
    assume (zlen (used_buffers a) <? used_capacity) AssertFailed;;
    Ok (with_used a (used_buffers a ++ [mk_used i symbol_point])).

Definition push_buffers (a : t) (prepared_buffers : Z) (symbol_point : slot_symbol_point.t) : result t :=
  fold_result (push_buffer symbol_point) a (seqZ prepared_buffers (increment_quant a)).

Definition clear_buffers (a : t) : t :=
  with_buffers a (map (λ b, if is_status marked_to_send b then with_status free b else b) (buffers_array a)).

Definition reset_buffers (a : t) : t :=
  with_used (with_buffers a (map (λ b, if negb (is_status marked_to_send b) && negb (is_status reserved b)
                                       then with_status free b else b) (buffers_array a))) [].

Definition mark_buffer (st : t * list Z) (u : used_buffer) : result (t * list Z) :=
  let '(a, aux_array) := st in
  b ← vec_at (buffers_array a) (ub_buffer u);
  Ok (with_buffers a (<[Z.to_nat (ub_buffer u) := with_status marked_to_send b]> (buffers_array a)), aux_array ++ [ub_buffer u]).

Definition find_buffers_ready_for_sending (a : t) : result (t * list Z) :=
  '(a, aux_array) ← fold_result mark_buffer (a, []) (used_buffers a);
  Ok (with_used a [], aux_array).

Definition get_prepared_buffers (a : t) : list used_buffer := used_buffers a.

End frame_buffer_array.

(** ** [pool_entry] *)
Module pool_entry.
Import frame_buffer_array.

Abbreviation t := (list frame_buffer_array.t).
Definition NUM_CP_MESSAGES_TO_RETURN : Z := 1.
Definition MAX_NOF_SUPPORTED_EAXC : Z := 4.

Definition create (mtu num_of_frames : Z) : t :=
  [frame_buffer_array.create NUM_CP_MESSAGES_TO_RETURN mtu MAX_NOF_SUPPORTED_EAXC;
   frame_buffer_array.create NUM_CP_MESSAGES_TO_RETURN mtu (MAX_NOF_SUPPORTED_EAXC * 2);
   frame_buffer_array.create num_of_frames mtu MAX_NOF_SUPPORTED_EAXC].

Definition type_index (ty : ofh_pool_message_type) : Z :=
  let index := message_type_value (type ty) * 2 in
  match direction ty with uplink => index + 1 | downlink => index end.

Definition get_ofh_type_buffers (e : t) (ty : ofh_pool_message_type) : result frame_buffer_array.t := vec_at e (type_index ty).
Definition set_ofh_type_buffers (e : t) (ty : ofh_pool_message_type) (a : frame_buffer_array.t) : t := <[Z.to_nat (type_index ty) := a]> e.

(** The sizes of the buffers are reset before they are handed out. *)
Definition reserve_buffers (e : t) (context : ofh_pool_message_type) : result (t * option Z) :=
  entry_buf ← get_ofh_type_buffers e context;
  '(entry_buf, buffs) ← frame_buffer_array.reserve_buffers entry_buf;
  entry_buf ← match buffs with Some pos => update_span frame_buffer.clear entry_buf pos | None => Ok entry_buf end;
  Ok (set_ofh_type_buffers e context entry_buf, buffs).

Definition push_buffers (e : t) (context : frame_pool_context) (prepared_buffers : Z) : result t :=
  entry_buf ← get_ofh_type_buffers e (pc_type context);
  entry_buf ← frame_buffer_array.push_buffers entry_buf prepared_buffers (pc_symbol_point context);
  Ok (set_ofh_type_buffers e (pc_type context) entry_buf).

Definition clear_buffers (e : t) (context : ofh_pool_message_type) : result t :=
  entry_buf ← get_ofh_type_buffers e context;
  Ok (set_ofh_type_buffers e context (frame_buffer_array.clear_buffers entry_buf)).

Definition reset_buffers (e : t) (context : ofh_pool_message_type) : result t :=
  entry_buf ← get_ofh_type_buffers e context;
  Ok (set_ofh_type_buffers e context (frame_buffer_array.reset_buffers entry_buf)).

Definition get_prepared_buffers (e : t) (context : ofh_pool_message_type) : result (list used_buffer) :=
  entry_buf ← get_ofh_type_buffers e context; Ok (frame_buffer_array.get_prepared_buffers entry_buf).

Definition read_buffers (e : t) (context : ofh_pool_message_type) : result (t * list Z) :=
  entry_buf ← get_ofh_type_buffers e context;
  '(entry_buf, bufs) ← find_buffers_ready_for_sending entry_buf;
  Ok (set_ofh_type_buffers e context entry_buf, bufs).

End pool_entry.

(** ** [eth_frame_pool] *)
Module eth_frame_pool.

Definition NUM_SLOTS : Z := 20.
Definition NOF_OFDM_SYM_PER_SLOT_NORMAL_CP : Z := 14.
Definition NUM_ENTRIES : Z := NOF_OFDM_SYM_PER_SLOT_NORMAL_CP * NUM_SLOTS.

Abbreviation t := (list pool_entry.t).

Definition create (mtu num_of_frames : Z) : t := replicate (Z.to_nat NUM_ENTRIES) (pool_entry.create mtu num_of_frames).

Definition sym_index (slot : slot_point.t) (symbol : Z) : Z :=
  (slot_point.slot_index slot * NOF_OFDM_SYM_PER_SLOT_NORMAL_CP + symbol) mod NUM_ENTRIES.
Definition point_index (p : slot_symbol_point.t) : result Z :=
  slot ← slot_symbol_point.get_slot p;
  symbol ← slot_symbol_point.get_symbol_index p;
  Ok (sym_index slot symbol).

(** A [frame_buffer*]: entry, kind and position. *)
Record pointer : Type := mk_pointer { ptr_entry : Z; ptr_type : ofh_pool_message_type; ptr_buffer : Z }.

Definition get_frame_buffers (pool : t) (context : frame_pool_context) : result (t * option Z) :=
  i ← point_index (pc_symbol_point context);
  p_entry ← vec_at pool i;
  '(p_entry, buffs) ← pool_entry.reserve_buffers p_entry (pc_type context);
  Ok (<[Z.to_nat i := p_entry]> pool, buffs).

Definition push_frame_buffers (pool : t) (context : frame_pool_context) (prepared_buffers : Z) : result t :=
  i ← point_index (pc_symbol_point context);
  p_entry ← vec_at pool i;
  p_entry ← pool_entry.push_buffers p_entry context prepared_buffers;
  Ok (<[Z.to_nat i := p_entry]> pool).

(** For one symbol. *)
Definition read_frame_buffers (pool : t) (context : frame_pool_context) : result (t * list pointer) :=
  i ← point_index (pc_symbol_point context);
  p_entry ← vec_at pool i;
  '(p_entry, bufs) ← pool_entry.read_buffers p_entry (pc_type context);
  Ok (<[Z.to_nat i := p_entry]> pool, map (mk_pointer i (pc_type context)) bufs).

(** For an interval of symbols, both ends included. *)
Definition read_symbol (interval : frame_pool_interval) (st : t * list pointer) (i : Z) : result (t * list pointer) :=
  let '(pool, aux_array) := st in
  tmp_symbol ← slot_symbol_point.add (pi_start interval) i;
  '(pool, symbol_buffers) ← read_frame_buffers pool (mk_pool_context (pi_type interval) tmp_symbol);
  Ok (pool, aux_array ++ symbol_buffers).

Definition interval_distance (interval : frame_pool_interval) : result Z :=
  d ← slot_symbol_point.diff (pi_end interval) (pi_start interval);
  d ← sadd 32 d 1; Ok (wrap 32 d).

Definition read_frame_buffers_interval (pool : t) (interval : frame_pool_interval) : result (t * list pointer) :=
  empty ← slot_symbol_point.gtb (pi_start interval) (pi_end interval);
  if (empty : bool) then Ok (pool, []) else
  distance ← interval_distance interval;
  fold_result (read_symbol interval) (pool, []) (seqZ 0 distance).

Definition clear_sent_frame_buffers (pool : t) (context : frame_pool_context) : result t :=
  i ← point_index (pc_symbol_point context);
  p_entry ← vec_at pool i;
  p_entry ← pool_entry.clear_buffers p_entry (pc_type context);
  Ok (<[Z.to_nat i := p_entry]> pool).

Definition clear_symbol (interval : frame_pool_interval) (pool : t) (i : Z) : result t :=
  tmp_symbol ← slot_symbol_point.add (pi_start interval) i;
  clear_sent_frame_buffers pool (mk_pool_context (pi_type interval) tmp_symbol).

Definition clear_sent_frame_buffers_interval (pool : t) (interval : frame_pool_interval) : result t :=
  empty ← slot_symbol_point.gtb (pi_start interval) (pi_end interval);
  if (empty : bool) then Ok pool else
  distance ← interval_distance interval;
  fold_result (clear_symbol interval) pool (seqZ 0 distance).

(** Whether one of the buffers was prepared for another slot. *)
Fixpoint find_late (slot : slot_point.t) (l : list frame_buffer_array.used_buffer) : result bool :=
  match l with
  | [] => Ok false
  | u :: l =>
      s ← slot_symbol_point.get_slot (frame_buffer_array.timestamp u);
      if slot_point.eqb s slot then find_late slot l else Ok true
  end.

Definition clear_late (ty : ofh_pool_message_type) (slot : slot_point.t) (pool : t) (symbol : Z) : result t :=
  let i := sym_index slot symbol in
  entry ← vec_at pool i;
  buffers ← pool_entry.get_prepared_buffers entry ty;
  late ← find_late slot buffers;
  if (late : bool) then entry ← pool_entry.reset_buffers entry ty; Ok (<[Z.to_nat i := entry]> pool) else Ok pool.

Definition clear_downlink_slot (pool : t) (slot : slot_point.t) : result t :=
  pool ← clear_late (mk_type control_plane downlink) slot pool 0;
  fold_result (clear_late (mk_type user_plane downlink) slot) pool (seqZ 0 NOF_OFDM_SYM_PER_SLOT_NORMAL_CP).

Definition clear_uplink_slot (pool : t) (slot : slot_point.t) : result t :=
  clear_late (mk_type control_plane uplink) slot pool 0.

Definition pool_size_in_slots : Z := NUM_SLOTS.

(** What a pointer leads to. *)
Definition frame_at (pool : t) (p : pointer) : result frame_buffer.t :=
  e ← vec_at pool (ptr_entry p);
  a ← pool_entry.get_ofh_type_buffers e (ptr_type p);
  vec_at (frame_buffer_array.buffers_array a) (ptr_buffer p).
Definition frame_data (pool : t) (p : pointer) : result (list Z) := b ← frame_at pool p; frame_buffer.data b.

End eth_frame_pool.

(** ** [scoped_frame_buffer] *)
Module scoped_frame_buffer.
Import frame_buffer_array.

(** The context and the frames retrieved; the frames are pushed when the object is
    destroyed. *)
Record t : Type := mk_scoped { context : frame_pool_context; frames : option Z }.

Definition create (pool : eth_frame_pool.t) (symbol_point : slot_symbol_point.t) (ty : message_type) (dir : data_direction)
    : result (eth_frame_pool.t * t) :=
  let context := mk_pool_context (mk_type ty dir) symbol_point in
  '(pool, frames) ← eth_frame_pool.get_frame_buffers pool context;
  Ok (pool, mk_scoped context frames).

(** The first frame of a span that is empty; the program terminates if there is none. *)
Definition next_frame (a : frame_buffer_array.t) (pos : Z) : result Z :=
  w ← vec_range (buffers_array a) pos (pos + increment_quant a);
  match list_find (λ b, frame_buffer.empty b = true) w with
  | Some (k, _) => Ok (pos + Z.of_nat k)
  | None => Fault FatalError
  end.

(** A frame of an array changed through the reference. *)
Definition set_frame (a : frame_buffer_array.t) (i : Z) (f : frame_buffer.t → result frame_buffer.t) : result frame_buffer_array.t :=
  b ← vec_at (buffers_array a) i;
  b ← f b;
  Ok (with_buffers a (<[Z.to_nat i := b]> (buffers_array a))).

(** The array a context refers to. *)
Definition array_of (pool : eth_frame_pool.t) (context : frame_pool_context) : result frame_buffer_array.t :=
  i ← eth_frame_pool.point_index (pc_symbol_point context);
  e ← vec_at pool i;
  pool_entry.get_ofh_type_buffers e (pc_type context).
Definition set_array (pool : eth_frame_pool.t) (context : frame_pool_context) (a : frame_buffer_array.t) : result eth_frame_pool.t :=
  i ← eth_frame_pool.point_index (pc_symbol_point context);
  e ← vec_at pool i;
  Ok (<[Z.to_nat i := pool_entry.set_ofh_type_buffers e (pc_type context) a]> pool).

Definition empty (s : t) : bool := match frames s with None => true | Some _ => false end.

Definition get_next_frame (pool : eth_frame_pool.t) (s : t) : result Z :=
  match frames s with
  | None => Fault FatalError
  | Some pos => a ← array_of pool (context s); next_frame a pos
  end.

(** What a frame handed out holds. *)
Definition read_frame (pool : eth_frame_pool.t) (s : t) (i : Z) : result frame_buffer.t :=
  a ← array_of pool (context s); vec_at (buffers_array a) i.

Definition update_frame (pool : eth_frame_pool.t) (s : t) (i : Z) (f : frame_buffer.t → result frame_buffer.t) : result eth_frame_pool.t :=
  a ← array_of pool (context s); a ← set_frame a i f; set_array pool (context s) a.

Definition destroy (pool : eth_frame_pool.t) (s : t) : result eth_frame_pool.t :=
  match frames s with
  | None => Ok pool
  | Some pos => eth_frame_pool.push_frame_buffers pool (context s) pos
  end.

End scoped_frame_buffer.

(** ** An array as a ring of windows *)

(** *** Lists cut into windows of one length *)
Section windows.
Context {A : Type} (q : nat).

Abbreviation windowed ws := (Forall (λ row : list A, length row = q) ws).

Lemma length_concat_windows ws : windowed ws → length (concat ws) = (length ws * q)%nat.
Proof. induction 1 as [|row ws Hr HF IH]; [done|]. cbn [concat length]. rewrite length_app, Hr, IH. lia. Qed.

Lemma concat_split ws w row : windowed ws → ws !! w = Some row →
  concat ws = concat (take w ws) ++ row ++ concat (drop (S w) ws) ∧ length (concat (take w ws)) = (w * q)%nat.
Proof.
  intros HF Hw. split.
  - rewrite <- (take_drop_middle ws w row Hw) at 1. by rewrite concat_app.
  - rewrite length_concat_windows by (by apply Forall_take). rewrite length_take. apply lookup_lt_Some in Hw. f_equal. lia.
Qed.

Lemma concat_window ws w row row' : windowed ws → ws !! w = Some row →
  take q (drop (w * q) (concat ws)) = row ∧
  take (w * q) (concat ws) ++ row' ++ drop (w * q + q) (concat ws) = concat (<[w := row']> ws).
Proof.
  intros HF Hw. destruct (concat_split ws w row HF Hw) as [HE HL]. pose proof (Forall_lookup_1 _ _ _ _ HF Hw) as Hr. cbn in Hr.
  rewrite !HE. split.
  - rewrite drop_app_ge by lia. rewrite HL, Nat.sub_diag, drop_0, take_app_le by lia. apply take_ge. lia.
  - rewrite take_app_le, take_ge by lia. rewrite drop_app_ge by lia. rewrite drop_app_ge by lia.
    replace (w * q + q - length (concat (take w ws)) - length row)%nat with 0%nat by lia. rewrite drop_0.
    rewrite insert_take_drop by (by eapply lookup_lt_Some). by rewrite concat_app.
Qed.

Lemma concat_lookup ws w k row : windowed ws → ws !! w = Some row → (k < q)%nat → concat ws !! (w * q + k)%nat = row !! k.
Proof.
  intros HF Hw Hk. destruct (concat_split ws w row HF Hw) as [HE HL]. pose proof (Forall_lookup_1 _ _ _ _ HF Hw) as Hr. cbn in Hr.
  rewrite HE, lookup_app_r by lia. rewrite HL. replace (w * q + k - w * q)%nat with k by lia. by rewrite lookup_app_l by lia.
Qed.

(** The place of an index. *)
Lemma concat_place ws i x : windowed ws → concat ws !! i = Some x →
  ∃ w k row, ws !! w = Some row ∧ row !! k = Some x ∧ (k < q)%nat ∧ i = (w * q + k)%nat.
Proof.
  intros HF Hi. apply lookup_lt_Some in Hi as Hlt. rewrite length_concat_windows in Hlt by done.
  assert (Hq : (0 < q)%nat) by lia. pose proof (Nat.div_mod_eq i q) as Hdm. pose proof (Nat.mod_upper_bound i q ltac:(lia)) as Hm.
  destruct (lookup_lt_is_Some_2 ws (i / q)) as [row Hrow]; [apply Nat.Div0.div_lt_upper_bound; lia|].
  exists (i / q)%nat, (i mod q)%nat, row. split; [done|]. split; [|lia].
  rewrite <- Hi. rewrite <- (concat_lookup ws (i / q) (i mod q) row HF Hrow Hm). f_equal. lia.
Qed.
End windows.

(** *** What the ring promises *)

(** A window of buffers: free, lent with the frames put into it so far, waiting to be
    sent, or being sent. *)
Inductive wstate : Type := WFree | WLent (fs : list (list Z)) | WWaiting | WSending.
#[export] Instance wstate_eq_dec : EqDecision wstate.
Proof. solve_decision. Defined.

Record ring : Type := mk_ring { granted : Z; windows : list wstate; queue : list (slot_symbol_point.t * list Z) }.

(** A frame on the wire: filled up with zeros to 64 octets. *)
Definition framed (content : list Z) (n : Z) : list Z :=
  take (Z.to_nat n) content ++ replicate (Z.to_nat (MIN_ETH_FRAME_LENGTH - n)) 0.

Definition ring_reserve (g : ring) : ring * option nat :=
  let w := Z.to_nat (granted g mod zlen (windows g)) in
  if decide (windows g !! w = Some WFree)
  then (mk_ring (granted g + 1) (<[w := WLent []]> (windows g)) (queue g), Some w) else (g, None).
Definition ring_fill (q : nat) (g : ring) (w : nat) (content : list Z) (n : Z) : result ring :=
  match windows g !! w with
  | Some (WLent fs) => if (length fs <? q)%nat then Ok (mk_ring (granted g) (<[w := WLent (fs ++ [framed content n])]> (windows g)) (queue g)) else Fault FatalError
  | _ => Fault FatalError
  end.
Definition ring_push (g : ring) (w : nat) (stamp : slot_symbol_point.t) : result ring :=
  match windows g !! w with
  | Some (WLent fs) =>
      if zlen (queue g) + zlen fs <=? frame_buffer_array.used_capacity then
        Ok (mk_ring (granted g) (<[w := match fs with [] => WFree | _ => WWaiting end]> (windows g)) (queue g ++ map (pair stamp) fs))
      else Fault AssertFailed
  | _ => Fault FatalError
  end.
Definition ring_read (g : ring) : ring :=
  mk_ring (granted g) (map (λ s, if decide (s = WWaiting) then WSending else s) (windows g)) [].
Definition ring_clear (g : ring) : ring :=
  mk_ring (granted g) (map (λ s, if decide (s = WSending) then WFree else s) (windows g)) (queue g).
Definition ring_reset (g : ring) : ring :=
  mk_ring (granted g) (map (λ s, if decide (s = WWaiting) then WFree else s) (windows g)) [].

(** *** The array implements the ring *)
Section array.
Import frame_buffer frame_buffer_array.
Context (q : nat) (bsz : Z).

Definition window_ok (s : wstate) (row : list frame_buffer.t) : Prop :=
  match s with
  | WFree => Forall (λ b, status b = free) row
  | WLent fs => Forall (λ b, status b = reserved) row ∧ (length fs <= q)%nat ∧
      ∀ k b, row !! k = Some b → match fs !! k with Some f => sz b ≠ 0 ∧ data b = Ok f | None => sz b = 0 end
  | WWaiting => Forall (λ b, status b = free ∨ status b = used) row ∧ Exists (λ b, status b = used) row
  | WSending => Forall (λ b, status b = free ∨ status b = marked_to_send) row ∧ Exists (λ b, status b = marked_to_send) row
  end.

Definition queued (l : list frame_buffer.t) (u : used_buffer) (e : slot_symbol_point.t * list Z) : Prop :=
  timestamp u = e.1 ∧ 0 <= ub_buffer u ∧ ∃ b, l !! Z.to_nat (ub_buffer u) = Some b ∧ status b = used ∧ data b = Ok e.2.

Record array_rep (a : frame_buffer_array.t) (g : ring) (ws : list (list frame_buffer.t)) : Prop := {
  ar_quant : increment_quant a = Z.of_nat q;
  ar_some : (0 < q)%nat ∧ windows g ≠ [];
  ar_array : buffers_array a = concat ws;
  ar_windowed : Forall (λ row, length row = q) ws;
  ar_storage : storage_nof_buffers a = Z.of_nat q * zlen ws;
  ar_sizes : Forall (λ b, zlen (buffer b) = bsz) (concat ws);
  ar_windows : Forall2 window_ok (windows g) ws;
  ar_count : write_count a = Z.of_nat q * granted g ∧ 0 <= granted g;
  ar_queue : Forall2 (queued (concat ws)) (used_buffers a) (queue g);
  ar_nodup : NoDup (map ub_buffer (used_buffers a));
  ar_used : ∀ i b, concat ws !! i = Some b → status b = used → Z.of_nat i ∈ map ub_buffer (used_buffers a);
  ar_capacity : zlen (used_buffers a) <= used_capacity }.

Definition array_implements (a : frame_buffer_array.t) (g : ring) : Prop := ∃ ws, array_rep a g ws.

(** Changing one window. *)
Lemma update_window a ws w row (f : frame_buffer.t → frame_buffer.t) :
  increment_quant a = Z.of_nat q → buffers_array a = concat ws → Forall (λ row, length row = q) ws → ws !! w = Some row →
  vec_range (buffers_array a) (Z.of_nat (w * q)) (Z.of_nat (w * q) + increment_quant a) = Ok row ∧
  update_span f a (Z.of_nat (w * q)) = Ok (with_buffers a (concat (<[w := map f row]> ws))).
Proof.
  intros HQ HA HW Hrow. destruct (concat_window q ws w row (map f row) HW Hrow) as [HT HC].
  assert (HV : vec_range (buffers_array a) (Z.of_nat (w * q)) (Z.of_nat (w * q) + increment_quant a) = Ok row).
  { unfold vec_range. rewrite HQ, HA. pose proof (length_concat_windows q ws HW) as HL. apply lookup_lt_Some in Hrow.
    assert ((w * q + q <= length (concat ws))%nat) by (rewrite HL; nia). unfold zlen.
    rewrite !(proj2 (Z.leb_le _ _)) by lia. cbn [andb]. f_equal. rewrite <- HT. f_equal; [lia|]. f_equal. lia. }
  split; [done|]. unfold update_span. rewrite HV. cbn [mbind result_bind]. do 2 f_equal. rewrite HQ, HA, <- HC. f_equal; [f_equal; lia|]. f_equal. f_equal. lia.
Qed.

(** What holds of a buffer outside of a window is not touched by a change of it. *)
Lemma insert_other (P : frame_buffer.t → Prop) ws w row row' i b :
  Forall (λ r, length r = q) ws → ws !! w = Some row → length row' = q → Forall (λ x, ¬ P x) row →
  concat ws !! i = Some b → P b → concat (<[w := row']> ws) !! i = Some b.
Proof.
  intros HF Hw Hl Hn Hi HP. destruct (concat_place q ws i b HF Hi) as (w' & k & r & Hr & Hk & Hkq & ->).
  assert (w' ≠ w) as Hne.
  { intros ->. rewrite Hw in Hr. injection Hr as <-. by apply (Forall_lookup_1 _ _ _ _ Hn Hk). }
  rewrite (concat_lookup q _ w' k r); [done|by apply Forall_insert|by rewrite list_lookup_insert_ne|done].
Qed.

Lemma array_rep_window a g ws w row s row' s' n' :
  array_rep a g ws → ws !! w = Some row → windows g !! w = Some s → length row' = q → Forall (λ b, zlen (buffer b) = bsz) row' →
  window_ok s' row' → Forall (λ b, status b ≠ used) row → Forall (λ b, status b ≠ used) row' → 0 <= n' →
  array_rep (mk (increment_quant a) (storage_nof_buffers a) (concat (<[w := row']> ws)) (used_buffers a) (Z.of_nat q * n'))
    (mk_ring n' (<[w := s']> (windows g)) (queue g)) (<[w := row']> ws).
Proof.
  intros [HQ [Hq Hg] HA HW HS HZ HWs HC HU HN HUs HCap] Hrow Hs Hl Hz Hok Hu Hu' Hn'.
  assert (HW' : Forall (λ r, length r = q) (<[w := row']> ws)) by (by apply Forall_insert).
  constructor; cbn [increment_quant storage_nof_buffers buffers_array used_buffers write_count windows granted queue]; try done.
  - split; [done|]. intros HE. apply Hg. apply length_zero_iff_nil. apply (f_equal length) in HE. by rewrite length_insert in HE.
  - rewrite HS. unfold zlen. by rewrite length_insert.
  - apply Forall_concat. apply Forall_insert; [|done]. by apply Forall_concat.
  - by apply Forall2_insert.
  - eapply Forall2_impl; [exact HU|]. intros u [st by'] (H1 & H2 & b & Hb & Hst & Hd). split; [done|]. split; [done|]. exists b. split; [|done].
    eapply (insert_other (λ b, status b = used)); [done|done|done|done|done|done].
  - intros i b Hi Hst. apply (HUs i b); [|done].
    assert (HE : concat (<[w := row]> (<[w := row']> ws)) !! i = Some b).
    { eapply (insert_other (λ b, status b = used)); [done| |by apply (Forall_lookup_1 _ _ _ _ HW Hrow)| |done|done]; [|done].
      apply list_lookup_insert_eq. by eapply lookup_lt_Some. }
    rewrite list_insert_insert_eq, list_insert_id in HE; done.
Qed.

Lemma rep_window a g ws w s : array_rep a g ws → windows g !! w = Some s →
  ∃ row, ws !! w = Some row ∧ length row = q ∧ Forall (λ b, zlen (buffer b) = bsz) row ∧ window_ok s row.
Proof.
  intros [HQ Hq HA HW HS HZ HWs _ _ _ _ _] Hs. destruct (Forall2_lookup_l _ _ _ _ _ HWs Hs) as (row & Hrow & Hok). exists row.
  split; [done|]. split; [by apply (Forall_lookup_1 _ _ _ _ HW Hrow)|]. split; [|done].
  apply Forall_concat in HZ. by apply (Forall_lookup_1 _ _ _ _ HZ Hrow).
Qed.

Lemma zlen_windows a g ws : array_rep a g ws → zlen (windows g) = zlen ws ∧ 0 < zlen ws.
Proof.
  intros [_ [_ Hg] _ _ _ _ HWs _ _ _ _ _]. pose proof (Forall2_length _ _ _ HWs) as HL. unfold zlen. rewrite HL. split; [done|].
  destruct (windows g); [done|]. cbn [length] in HL. lia.
Qed.

(** Whether a window is free. *)
Lemma window_free s row : length row = q → (0 < q)%nat → window_ok s row → forallb (is_status free) row = bool_decide (s = WFree).
Proof.
  intros Hl Hq Hok. assert (HE : ∀ st, st ≠ free → Exists (λ b, status b = st) row → forallb (is_status free) row = false).
  { intros st Hst HX. apply not_true_iff_false. intros HA. rewrite forallb_forall in HA. apply Exists_exists in HX as (b & Hb & <-).
    specialize (HA b (proj1 (list_elem_of_In _ _) Hb)). unfold is_status in HA. by apply bool_decide_eq_true in HA. }
  destruct s as [|fs| |]; cbn [window_ok] in Hok.
  - rewrite bool_decide_true by done. apply forallb_forall. intros b Hb%list_elem_of_In. rewrite Forall_forall in Hok. unfold is_status. by rewrite bool_decide_true by (by apply Hok).
  - rewrite bool_decide_false by done. apply (HE reserved); [done|]. destruct row as [|b row]; [cbn in Hl; lia|]. left. by apply (Forall_inv (proj1 Hok)).
  - rewrite bool_decide_false by done. apply (HE used); [done|apply Hok].
  - rewrite bool_decide_false by done. apply (HE marked_to_send); [done|apply Hok].
Qed.

Lemma length_map_window (f : frame_buffer.t → frame_buffer.t) row : length row = q → length (map f row) = q.
Proof. intros <-. apply length_map. Qed.

(** [reserve_buffers], with the sizes reset. *)
Definition lend (a : frame_buffer_array.t) : result (frame_buffer_array.t * option Z) :=
  '(a, buffs) ← reserve_buffers a;
  a ← match buffs with Some pos => update_span frame_buffer.clear a pos | None => Ok a end;
  Ok (a, buffs).

Lemma lend_spec a g : array_implements a g → Z.of_nat q * (granted g + 1) < 2 ^ 32 →
  ∃ a', lend a = Ok (a', option_map (λ w, Z.of_nat (w * q)) (ring_reserve g).2) ∧ array_implements a' (ring_reserve g).1.
Proof.
  intros [ws HR] Hbound. destruct (zlen_windows a g ws HR) as [Hzw Hzp]. pose proof HR as [HQ [Hq _] _ _ HS _ _ [HC H0] _ _ _ _].
  unfold lend, reserve_buffers, write_value, ring_reserve. rewrite HC, HS, Hzw.
  set (w := Z.to_nat (granted g mod zlen ws)). pose proof (Z.mod_pos_bound (granted g) (zlen ws) Hzp) as Hmod.
  assert (HP : Z.of_nat q * granted g mod (Z.of_nat q * zlen ws) = Z.of_nat (w * q)) by (rewrite Z.mul_mod_distr_l by lia; unfold w; lia).
  pass_assume. rewrite HP. destruct (lookup_lt_is_Some_2 (windows g) w) as [s Hs]; [unfold zlen in *; lia|].
  destruct (rep_window a g ws w s HR Hs) as (row & Hrow & Hl & Hz & Hok).
  pose proof HR as [_ _ HA HW _ _ _ _ _ _ _ _].
  destruct (update_window a ws w row (with_status reserved) HQ HA HW Hrow) as [HV HU]. rewrite HV. cbn [mbind result_bind].
  rewrite (window_free s row Hl Hq Hok). case_bool_decide as Hf.
  2: { cbn [mbind result_bind]. rewrite decide_False by congruence. exists a. split; [done|]. by exists ws. }
  subst s. rewrite decide_True by done. rewrite HU. cbn [mbind result_bind fst snd option_map increment_quant storage_nof_buffers buffers_array used_buffers write_count with_buffers].
  rewrite HC, (wrap_small 32) by lia_fits. replace (Z.of_nat q * granted g + increment_quant a) with (Z.of_nat q * (granted g + 1)) by lia.
  set (row1 := map (with_status reserved) row). set (row2 := map frame_buffer.clear row1).
  destruct (update_window (mk (increment_quant a) (storage_nof_buffers a) (concat (<[w := row1]> ws)) (used_buffers a) (Z.of_nat q * (granted g + 1)))
    (<[w := row1]> ws) w row1 frame_buffer.clear HQ eq_refl) as [_ HU2].
  { apply Forall_insert; [done|]. by apply length_map_window. }
  { apply list_lookup_insert_eq. by eapply lookup_lt_Some. }
  rewrite HU2. cbn [mbind result_bind]. eexists. split; [done|]. exists (<[w := row2]> ws).
  unfold with_buffers. cbn [increment_quant storage_nof_buffers used_buffers write_count]. rewrite list_insert_insert_eq. fold row2.
  assert (H2 : ∀ b, b ∈ row2 → status b = reserved ∧ sz b = 0 ∧ zlen (buffer b) = bsz).
  { intros b Hb. unfold row2, row1 in Hb. rewrite map_map in Hb. apply list_elem_of_fmap in Hb as (b0 & -> & Hb0). split; [done|]. split; [done|].
    rewrite Forall_forall in Hz. exact (Hz b0 Hb0). }
  apply (array_rep_window a g ws w row WFree row2 (WLent []) (granted g + 1) HR Hrow Hs).
  - by do 2 apply length_map_window.
  - apply Forall_forall. intros b Hb. by apply H2.
  - cbn [window_ok]. split; [apply Forall_forall; intros b Hb; by apply H2|]. split; [cbn; lia|]. intros k b Hb. rewrite lookup_nil. by apply H2, list_elem_of_lookup_2 with k.
  - eapply Forall_impl; [exact Hok|]. by intros b ->.
  - apply Forall_forall. intros b Hb. destruct (H2 b Hb) as (-> & _). done.
  - lia.
Qed.

(** *** Filling a lent window *)

Lemma framed_value content n b : zlen content = bsz → MIN_ETH_FRAME_LENGTH <= bsz → 0 <= n <= bsz → n <= MAX_ETH_FRAME_LENGTH →
  ∃ b', set_size (frame_buffer.mk (sz b) (status b) content) n = Ok b' ∧ status b' = status b ∧ sz b' ≠ 0 ∧ zlen (buffer b') = bsz ∧ data b' = Ok (framed content n).
Proof.
  intros Hc Hm Hn Hx. unfold set_size, framed, MIN_ETH_FRAME_LENGTH, MAX_ETH_FRAME_LENGTH in *. pass_assume. cbn [buffer]. unfold zlen in Hc.
  destruct (Z.ltb_spec n 64) as [Hlt|Hge].
  - assert (HL : zlen (replicate (Z.to_nat (64 - n)) 0) = 64 - n) by (unfold zlen; rewrite length_replicate; lia).
    unfold mem_write. rewrite HL. unfold zlen. rewrite !(proj2 (Z.leb_le _ _)) by lia. cbn [andb mbind result_bind].
    eexists. split; [done|]. cbn [status sz buffer]. split; [done|]. split; [done|].
    split; [rewrite !length_app, length_take, length_replicate, length_drop; lia|].
    unfold data, mem_read. cbn [sz buffer]. unfold zlen. rewrite !length_app, length_take, length_replicate, length_drop.
    rewrite !(proj2 (Z.leb_le _ _)) by lia. cbn [andb]. f_equal. rewrite drop_0, app_assoc. apply take_app_length'.
    rewrite length_app, length_take, length_replicate. lia.
  - cbn [mbind result_bind]. eexists. split; [done|]. cbn [status sz buffer]. split; [done|]. split; [lia|]. split; [done|].
    unfold data, mem_read. cbn [sz buffer]. unfold zlen. rewrite !(proj2 (Z.leb_le _ _)) by lia. cbn [andb]. f_equal. rewrite drop_0.
    replace (Z.to_nat (64 - n)) with 0%nat by lia. by rewrite app_nil_r.
Qed.

Lemma array_fill_spec a g w fs content n : array_implements a g → windows g !! w = Some (WLent fs) →
  zlen content = bsz → MIN_ETH_FRAME_LENGTH <= bsz → 0 <= n <= bsz → n <= MAX_ETH_FRAME_LENGTH →
  if (length fs <? q)%nat then
    scoped_frame_buffer.next_frame a (Z.of_nat (w * q)) = Ok (Z.of_nat (w * q + length fs)) ∧
    ∃ a' g' b, vec_at (buffers_array a) (Z.of_nat (w * q + length fs)) = Ok b ∧ zlen (buffer b) = bsz ∧
      scoped_frame_buffer.set_frame a (Z.of_nat (w * q + length fs)) (λ b, set_size (frame_buffer.mk (sz b) (status b) content) n) = Ok a' ∧
      ring_fill q g w content n = Ok g' ∧ array_implements a' g'
  else scoped_frame_buffer.next_frame a (Z.of_nat (w * q)) = Fault FatalError.
Proof.
  intros [ws HR] Hw Hc Hm Hn Hx. destruct (rep_window a g ws w _ HR Hw) as (row & Hrow & Hl & Hz & Hst & Hfl & Hk).
  pose proof HR as [HQ [Hq Hg] HA HW HS HZ HWs HC HU HN HUs HCap].
  destruct (update_window a ws w row id HQ HA HW Hrow) as [HV _]. unfold scoped_frame_buffer.next_frame. rewrite HV. cbn [mbind result_bind].
  destruct (Nat.ltb_spec (length fs) q) as [Hlt|Hge].
  2: { destruct (list_find _ row) as [[k b]|] eqn:HF; [|done]. apply list_find_Some in HF as (Hb & He & _). unfold frame_buffer.empty in He. apply Z.eqb_eq in He.
       specialize (Hk k b Hb). destruct (lookup_lt_is_Some_2 fs k) as [f Hf]; [apply lookup_lt_Some in Hb; lia|]. rewrite Hf in Hk. by destruct Hk. }
  destruct (lookup_lt_is_Some_2 row (length fs)) as [b Hb]; [lia|].
  assert (HF : list_find (λ b, frame_buffer.empty b = true) row = Some (length fs, b)).
  { apply list_find_Some. split; [done|]. split.
    - specialize (Hk _ _ Hb). rewrite lookup_ge_None_2 in Hk by lia. unfold frame_buffer.empty. by apply Z.eqb_eq.
    - intros j y Hy Hj He. unfold frame_buffer.empty in He. apply Z.eqb_eq in He. specialize (Hk _ _ Hy). destruct (lookup_lt_is_Some_2 fs j) as [f Hf]; [lia|].
      rewrite Hf in Hk. by destruct Hk. }
  rewrite HF. split; [f_equal; lia|].
  assert (Hv : vec_at (buffers_array a) (Z.of_nat (w * q + length fs)) = Ok b).
  { unfold vec_at. rewrite (proj2 (Z.leb_le 0 _)) by lia. rewrite Nat2Z.id, HA, (concat_lookup q ws w (length fs) row) by done. by rewrite Hb. }
  destruct (framed_value content n b Hc Hm Hn Hx) as (b' & HSz & Hst' & Hsz' & Hz' & Hd').
  unfold scoped_frame_buffer.set_frame. rewrite Hv. cbn [mbind result_bind]. rewrite HSz. cbn [mbind result_bind].
  unfold ring_fill. rewrite Hw. rewrite (proj2 (Nat.ltb_lt _ _)) by done.
  eexists _, _, b. split; [done|]. split; [rewrite Forall_forall in Hz; by apply Hz, list_elem_of_lookup_2 with (length fs)|]. split; [done|]. split; [done|].
  set (row' := <[length fs := b']> row). exists (<[w := row']> ws).
  assert (HI : <[Z.to_nat (Z.of_nat (w * q + length fs)) := b']> (buffers_array a) = concat (<[w := row']> ws)).
  { rewrite Nat2Z.id, HA. destruct (concat_window q ws w row row' HW Hrow) as [_ <-]. destruct (concat_split q ws w row HW Hrow) as [HE HL].
    rewrite HE. rewrite insert_app_r_alt by lia. rewrite HL. replace (w * q + length fs - w * q)%nat with (length fs) by lia. rewrite insert_app_l by lia. fold row'.
    rewrite <- HL, take_app_length, drop_app_ge by lia. rewrite drop_app_ge by lia.
    replace (length (concat (take w ws)) + q - length (concat (take w ws)) - length row)%nat with 0%nat by lia. by rewrite drop_0. }
  unfold with_buffers. rewrite HI. destruct HC as [HC0 HC1]. rewrite HC0.
  apply (array_rep_window a g ws w row (WLent fs) row' (WLent (fs ++ [framed content n])) (granted g) HR Hrow Hw).
  - unfold row'. by rewrite length_insert.
  - by apply Forall_insert.
  - cbn [window_ok]. assert (Hsb : status b = reserved) by (rewrite Forall_forall in Hst; by apply Hst, list_elem_of_lookup_2 with (length fs)).
    split; [apply Forall_insert; [done|congruence]|]. split; [rewrite length_app; cbn; lia|].
    intros k x Hx'. unfold row' in Hx'. destruct (decide (k = length fs)) as [->|Hne].
    + rewrite list_lookup_insert_eq in Hx' by lia. injection Hx' as <-. rewrite lookup_app_r, Nat.sub_diag by lia. done.
    + rewrite list_lookup_insert_ne in Hx' by done. specialize (Hk k x Hx'). destruct (decide (k < length fs)%nat).
      * by rewrite lookup_app_l by lia.
      * rewrite lookup_ge_None_2 in Hk by lia. rewrite lookup_ge_None_2; [done|]. rewrite length_app. cbn. lia.
  - eapply Forall_impl; [exact Hst|]. by intros x ->.
  - apply Forall_insert; [eapply Forall_impl; [exact Hst|]; by intros x ->|]. rewrite Hst'. rewrite Forall_forall in Hst.
    rewrite (Hst b); [done|]. by apply list_elem_of_lookup_2 with (length fs).
  - done.
Qed.

(** *** Pushing *)

Fixpoint pushed (stamp : slot_symbol_point.t) (pos : Z) (row : list frame_buffer.t) : list used_buffer :=
  match row with
  | [] => []
  | b :: row => (if empty b then [] else [mk_used pos stamp]) ++ pushed stamp (pos + 1) row
  end.
Definition push_status (b : frame_buffer.t) : frame_buffer.t := with_status (if empty b then free else used) b.

Lemma push_row stamp row : ∀ pre post a, buffers_array a = pre ++ row ++ post → zlen (used_buffers a) <= used_capacity →
  fold_result (push_buffer stamp) a (seqZ (zlen pre) (zlen row)) =
    if zlen (used_buffers a) + zlen (pushed stamp (zlen pre) row) <=? used_capacity
    then Ok (with_used (with_buffers a (pre ++ map push_status row ++ post)) (used_buffers a ++ pushed stamp (zlen pre) row))
    else Fault AssertFailed.
Proof.
  induction row as [|b row IH]; intros pre post a HA Hu.
  - rewrite seqZ_nil by done. cbn [fold_result pushed map app]. change (zlen (@nil used_buffer)) with 0. rewrite (proj2 (Z.leb_le _ _)) by lia. rewrite app_nil_r.
    f_equal. destruct a. unfold with_used, with_buffers. cbn in *. by rewrite HA.
  - pose proof (zlen_nonneg row). rewrite zlen_cons. rewrite seqZ_cons by lia. replace (Z.pred (1 + zlen row)) with (zlen row) by lia. cbn [fold_result pushed]. unfold push_buffer at 2.
    assert (HV : vec_at (buffers_array a) (zlen pre) = Ok b).
    { unfold vec_at, zlen. rewrite (proj2 (Z.leb_le 0 _)) by lia. by rewrite Nat2Z.id, HA, lookup_app_r, Nat.sub_diag by lia. }
    rewrite HV. cbn [mbind result_bind].
    assert (HI : ∀ b', <[Z.to_nat (zlen pre) := b']> (buffers_array a) = (pre ++ [b']) ++ row ++ post).
    { intros b'. unfold zlen. rewrite Nat2Z.id, HA, insert_app_r_alt, Nat.sub_diag by lia. by rewrite <- app_assoc. }
    assert (HZ : Z.succ (zlen pre) = zlen (pre ++ [push_status b])) by (rewrite zlen_app; change (zlen [push_status b]) with 1; lia).
    cbn [map]. unfold push_status at 1. destruct (empty b) eqn:Eb; cbn [app].
    + cbn [mbind result_bind]. rewrite HZ. unfold push_status in IH |- *.
      rewrite (IH (pre ++ [with_status (if empty b then free else used) b]) post); [|by cbn [buffers_array with_buffers]; rewrite HI, Eb|done].
      cbn [with_buffers used_buffers]. replace (zlen pre + 1) with (zlen (pre ++ [with_status (if empty b then free else used) b])) by (rewrite zlen_app; reflexivity).
      destruct (_ <=? _); [|done]. do 2 f_equal. rewrite Eb. unfold with_used, with_buffers. cbn. by rewrite <- app_assoc.
    + cbn [with_buffers used_buffers]. rewrite zlen_cons. pose proof (zlen_nonneg (pushed stamp (zlen pre + 1) row)).
      destruct (Z.ltb_spec (zlen (used_buffers a)) used_capacity) as [Hlt|Hge]; cbn [assume mbind result_bind].
      2: { by rewrite (proj2 (Z.leb_gt _ _)) by lia. }
      rewrite HZ. unfold push_status in IH |- *.
      rewrite (IH (pre ++ [with_status (if empty b then free else used) b]) post); [|by cbn [buffers_array with_buffers with_used]; rewrite HI, Eb|cbn [used_buffers with_used]; rewrite zlen_app; change (zlen [_]) with 1; lia].
      cbn [with_buffers used_buffers with_used]. replace (zlen pre + 1) with (zlen (pre ++ [with_status (if empty b then free else used) b])) by (rewrite zlen_app; reflexivity).
      rewrite zlen_app. change (zlen [mk_used (zlen pre) stamp]) with 1. rewrite Z.add_assoc.
      destruct (_ <=? _); [|done]. f_equal. rewrite Eb. unfold with_used, with_buffers. cbn. by rewrite <- !app_assoc.
Qed.

Definition lent_row (fs : list (list Z)) (row : list frame_buffer.t) : Prop :=
  ∀ k b, row !! k = Some b → match fs !! k with Some f => sz b ≠ 0 ∧ data b = Ok f | None => sz b = 0 end.

Lemma pushed_lent stamp row : ∀ fs pos, lent_row fs row → (length fs <= length row)%nat →
  pushed stamp pos row = map (λ i, mk_used i stamp) (seqZ pos (zlen fs)).
Proof.
  induction row as [|b row IH]; intros fs pos HL Hle.
  - destruct fs; [by rewrite seqZ_nil by done|cbn in Hle; lia].
  - pose proof (HL 0%nat b eq_refl) as H0. cbn [pushed]. unfold empty.
    destruct fs as [|f fs]; cbn [lookup] in H0.
    + rewrite seqZ_nil by done. cbn in H0. rewrite H0. cbn [Z.eqb app map]. rewrite (IH [] (pos + 1)); [by rewrite seqZ_nil by done| |cbn; lia].
      intros k x Hx. exact (HL (S k) x Hx).
    + cbn in H0. destruct H0 as [H0 _]. rewrite (proj2 (Z.eqb_neq _ _)) by done. rewrite zlen_cons. pose proof (zlen_nonneg fs). rewrite seqZ_cons by lia.
      cbn [app map]. replace (Z.pred (1 + zlen fs)) with (zlen fs) by lia. f_equal. apply IH; [|cbn in Hle; lia]. intros k x Hx. exact (HL (S k) x Hx).
Qed.

Lemma array_push_spec a g w fs stamp : array_implements a g → windows g !! w = Some (WLent fs) →
  match ring_push g w stamp with
  | Ok g' => ∃ a', push_buffers a (Z.of_nat (w * q)) stamp = Ok a' ∧ array_implements a' g'
  | Fault f => push_buffers a (Z.of_nat (w * q)) stamp = Fault f
  end.
Proof.
  intros [ws HR] Hw. destruct (rep_window a g ws w _ HR Hw) as (row & Hrow & Hl & Hz & Hst & Hfl & Hk). fold (lent_row fs row) in Hk.
  pose proof HR as [HQ [Hq Hg] HA HW HS HZ HWs [HC HC0] HU HN HUs HCap]. unfold ring_push. rewrite Hw. unfold push_buffers.
  destruct (concat_split q ws w row HW Hrow) as [HE HL]. rewrite HE in HA.
  assert (Hpos : zlen (concat (take w ws)) = Z.of_nat (w * q)) by (unfold zlen; lia).
  pose proof (push_row stamp row (concat (take w ws)) _ a HA HCap) as HP. rewrite Hpos in HP.
  replace (zlen row) with (increment_quant a) in HP by (unfold zlen; lia). rewrite HP. clear HP.
  rewrite (pushed_lent stamp row fs) by (done || lia). set (new := map (λ i, mk_used i stamp) (seqZ (Z.of_nat (w * q)) (zlen fs))).
  assert (Hnew : zlen new = zlen fs) by (unfold new, zlen; rewrite length_map, length_seqZ; lia).
  assert (Hqu : zlen (used_buffers a) = zlen (queue g)) by (unfold zlen; f_equal; by eapply Forall2_length). rewrite Hnew, Hqu.
  destruct (Z.leb_spec (zlen (queue g) + zlen fs) used_capacity) as [Hcap|]; [|done]. eexists. split; [done|].
  set (row' := map push_status row). exists (<[w := row']> ws). assert (Hl' : length row' = q) by (by apply length_map_window).
  assert (HW' : Forall (λ r, length r = q) (<[w := row']> ws)) by (by apply Forall_insert).
  assert (HA' : concat (take w ws) ++ row' ++ concat (drop (S w) ws) = concat (<[w := row']> ws)).
  { destruct (concat_window q ws w row row' HW Hrow) as [_ <-]. rewrite HE at 1 2. rewrite <- HL, take_app_length, drop_app_ge, drop_app_ge by lia.
    replace (length (concat (take w ws)) + q - length (concat (take w ws)) - length row)%nat with 0%nat by lia. by rewrite drop_0. }
  rewrite HA'. assert (Hr' : ∀ k, (k < q)%nat → concat (<[w := row']> ws) !! (w * q + k)%nat = push_status <$> row !! k).
  { intros k Hkq. rewrite (concat_lookup q _ w k row'); [apply list_lookup_fmap|done|apply list_lookup_insert_eq; by eapply lookup_lt_Some|done]. }
  assert (Hno : Forall (λ b, status b ≠ used) row) by (eapply Forall_impl; [exact Hst|]; by intros b ->).
  assert (Hzr : Forall (λ b, zlen (buffer b) = bsz) row') by (apply Forall_map; eapply Forall_impl; [exact Hz|]; done).
  assert (Hsr : ∀ k b, row !! k = Some b → status (push_status b) = if decide (k < length fs)%nat then used else free).
  { intros k b Hb. specialize (Hk k b Hb). unfold push_status, empty. cbn [status with_status]. destruct (decide _) as [Hlt|Hge].
    - destruct (lookup_lt_is_Some_2 fs k Hlt) as [f Hf]. rewrite Hf in Hk. destruct Hk as [Hk _]. by rewrite (proj2 (Z.eqb_neq _ _)).
    - rewrite lookup_ge_None_2 in Hk by lia. by rewrite Hk. }
  constructor; cbn [increment_quant storage_nof_buffers buffers_array used_buffers write_count windows granted queue with_used with_buffers]; try done.
  - split; [done|]. intros HE0. apply Hg, length_zero_iff_nil. apply (f_equal length) in HE0. by rewrite length_insert in HE0.
  - rewrite HS. unfold zlen. by rewrite length_insert.
  - apply Forall_concat, Forall_insert; [by apply Forall_concat|done].
  - apply Forall2_insert; [done|]. destruct fs as [|f fs].
    + cbn [window_ok]. apply Forall_forall. intros b' Hb'. apply list_elem_of_lookup_1 in Hb' as [k Hb']. unfold row' in Hb'. rewrite list_lookup_fmap in Hb'.
      destruct (row !! k) as [b|] eqn:Hb; [|done]. injection Hb' as <-. rewrite (Hsr k b Hb). by rewrite decide_False by (cbn; lia).
    + cbn [window_ok]. split.
      * apply Forall_forall. intros b' Hb'. apply list_elem_of_lookup_1 in Hb' as [k Hb']. unfold row' in Hb'. rewrite list_lookup_fmap in Hb'.
        destruct (row !! k) as [b|] eqn:Hb; [|done]. injection Hb' as <-. rewrite (Hsr k b Hb). destruct (decide _); [by right|by left].
      * destruct row as [|b row0]; [cbn in Hl; lia|]. cbn [row' map]. left. rewrite (Hsr 0%nat b eq_refl). by rewrite decide_True by (cbn; lia).
  - apply Forall2_app.
    + eapply Forall2_impl; [exact HU|]. intros u [sp by'] (H1 & H2 & b & Hb & Hstb & Hd). split; [done|]. split; [done|]. exists b. split; [|done].
      eapply (insert_other (λ b, status b = used)); done.
    + apply Forall2_same_length_lookup_2.
      { unfold zlen in Hnew. rewrite length_map. lia. }
      intros k u e Hu He. unfold new in Hu. rewrite list_lookup_fmap in Hu. rewrite list_lookup_fmap in He.
      destruct (fs !! k) as [f|] eqn:Hf; [|done]. injection He as <-. apply lookup_lt_Some in Hf as Hlt.
      rewrite lookup_seqZ_lt in Hu by (unfold zlen; lia). injection Hu as <-. cbn [timestamp ub_buffer fst snd].
      destruct (lookup_lt_is_Some_2 row k) as [b Hb]; [lia|]. split; [done|]. split; [cbn; lia|]. exists (push_status b). cbn [ub_buffer].
      replace (Z.to_nat (Z.of_nat (w * q) + Z.of_nat k)) with (w * q + k)%nat by lia. rewrite Hr', Hb by lia. split; [done|].
      split; [by rewrite (Hsr k b Hb), decide_True|]. specialize (Hk k b Hb). rewrite Hf in Hk. apply Hk.
  - rewrite map_app. apply NoDup_app. split; [done|]. split.
    + intros x Hx Hn. unfold new in Hn. rewrite map_map in Hn. apply list_elem_of_fmap in Hn as (i & -> & Hi%elem_of_seqZ). cbn [ub_buffer] in *.
      apply list_elem_of_fmap in Hx as (u & -> & Hu%list_elem_of_lookup_1). destruct Hu as [j Hj]. destruct (Forall2_lookup_l _ _ _ _ _ HU Hj) as (e & _ & _ & _ & b & Hb & Hsb & _).
      set (k := (Z.to_nat (ub_buffer u) - w * q)%nat). assert (Hkq : (k < q)%nat) by (unfold k, zlen in *; lia).
      replace (Z.to_nat (ub_buffer u)) with (w * q + k)%nat in Hb by (unfold k; lia). rewrite (concat_lookup q ws w k row HW Hrow Hkq) in Hb.
      rewrite Forall_lookup in Hst. rewrite (Hst k b Hb) in Hsb. done.
    + unfold new. rewrite map_map. change (map (λ x, ub_buffer (mk_used x stamp)) ?l) with (map id l). rewrite map_id. apply NoDup_seqZ.
  - intros i b Hi Hsb. rewrite map_app. apply elem_of_app. destruct (concat_place q _ i b HW' Hi) as (w' & k & r & Hr0 & Hb & Hkq & ->).
    destruct (decide (w' = w)) as [->|Hne].
    + right. rewrite list_lookup_insert_eq in Hr0 by (by eapply lookup_lt_Some). injection Hr0 as <-. unfold row' in Hb. rewrite list_lookup_fmap in Hb.
      destruct (row !! k) as [b0|] eqn:Hb0; [|done]. injection Hb as <-. rewrite (Hsr k b0 Hb0) in Hsb. destruct (decide (k < length fs)%nat) as [Hlt|]; [|done].
      unfold new. rewrite map_map. change (map (λ x, ub_buffer (mk_used x stamp)) ?l) with (map id l). rewrite map_id. apply elem_of_seqZ. unfold zlen. lia.
    + left. rewrite list_lookup_insert_ne in Hr0 by done. apply (HUs _ b); [|done]. by rewrite (concat_lookup q ws w' k r).
  - rewrite zlen_app, Hnew, Hqu. done.
Qed.

(** *** Reading, clearing, resetting *)

Definition restatus (h : frame_buffer_status → frame_buffer_status) (b : frame_buffer.t) : frame_buffer.t := with_status (h (status b)) b.

Lemma concat_map_map (f : frame_buffer.t → frame_buffer.t) ws : map f (concat ws) = concat (map (map f) ws).
Proof. apply concat_map. Qed.

(** All the buffers change status in the same way. *)
Lemma array_rep_map a g ws h (k : wstate → wstate) us qs :
  array_rep a g ws → (∀ s row, s ∈ windows g → length row = q → window_ok s row → window_ok (k s) (map (restatus h) row)) →
  (∀ st, h st = used → st = used) →
  Forall2 (queued (map (restatus h) (concat ws))) us qs → NoDup (map ub_buffer us) →
  (∀ i b, map (restatus h) (concat ws) !! i = Some b → status b = used → Z.of_nat i ∈ map ub_buffer us) → zlen us <= used_capacity →
  array_implements (with_used (with_buffers a (map (restatus h) (buffers_array a))) us) (mk_ring (granted g) (map k (windows g)) qs).
Proof.
  intros [HQ [Hq Hg] HA HW HS HZ HWs HC HU HN HUs HCap] Hok Hh HU' HN' HUs' HCap'. exists (map (map (restatus h)) ws).
  constructor; cbn [increment_quant storage_nof_buffers buffers_array used_buffers write_count windows granted queue with_used with_buffers]; try done.
  - split; [done|]. by destruct (windows g).
  - by rewrite HA, concat_map_map.
  - apply Forall_map. eapply Forall_impl; [exact HW|]. intros row Hr. cbn beta in *. by rewrite length_map.
  - rewrite HS. unfold zlen. by rewrite length_map.
  - rewrite <- concat_map_map. apply Forall_map. eapply Forall_impl; [exact HZ|]. done.
  - apply Forall2_fmap. rewrite Forall2_same_length_lookup in HWs |- *. destruct HWs as [HWl HWs]. split; [done|]. intros i s row Hs Hr.
    apply Hok; [by eapply list_elem_of_lookup_2|by apply (Forall_lookup_1 _ _ _ _ HW Hr)|by eapply HWs].
  - by rewrite <- concat_map_map.
  - by rewrite <- concat_map_map.
Qed.

Lemma restatus_row h row : (∀ b, b ∈ row → h (status b) = status b) → map (restatus h) row = row.
Proof.
  intros H. apply list_eq. intros i. change (map ?f ?l) with (f <$> l). rewrite list_lookup_fmap. destruct (row !! i) as [b|] eqn:Hb; [|done]. cbn. f_equal.
  unfold restatus. rewrite H by (by eapply list_elem_of_lookup_2). by destruct b.
Qed.

Lemma map_status (P Q : frame_buffer_status → Prop) h row : (∀ st, P st → Q (h st)) →
  Forall (λ b, P (status b)) row → Forall (λ b, Q (status b)) (map (restatus h) row).
Proof. intros H HF. apply Forall_map. eapply Forall_impl; [exact HF|]. intros b. apply H. Qed.

Lemma exists_status (P Q : frame_buffer_status → Prop) h row : (∀ st, P st → Q (h st)) →
  Exists (λ b, P (status b)) row → Exists (λ b, Q (status b)) (map (restatus h) row).
Proof.
  intros H. induction 1 as [b row Hb|b row HE IH]; cbn [map]; [left; by apply H|by right].
Qed.

Definition clear_status (s : frame_buffer_status) := if decide (s = marked_to_send) then free else s.
Definition reset_status (s : frame_buffer_status) := if decide (s = used) then free else s.
Definition read_status (s : frame_buffer_status) := if decide (s = used) then marked_to_send else s.

Lemma array_clear_spec a g : array_implements a g → array_implements (clear_buffers a) (ring_clear g).
Proof.
  intros [ws HR]. pose proof HR as [HQ Hq HA HW HS HZ HWs HC HU HN HUs HCap].
  assert (HE : clear_buffers a = with_used (with_buffers a (map (restatus clear_status) (buffers_array a))) (used_buffers a)).
  { unfold clear_buffers, with_used, with_buffers. cbn. f_equal. apply map_ext. intros b. unfold is_status, restatus, clear_status, with_status.
    case_bool_decide as Hb; [by rewrite decide_True|]. rewrite decide_False by done. by destruct b. }
  assert (Hkeep : ∀ b : frame_buffer.t, status b = used → restatus clear_status b = b) by (intros b Hb; unfold restatus, clear_status; rewrite Hb; rewrite decide_False by done; rewrite <- Hb; by destruct b).
  rewrite HE. apply (array_rep_map a g ws); try done.
  - intros s row Hin Hl Hok. assert (HI : ∀ st', st' ≠ marked_to_send → clear_status st' = st') by (intros; unfold clear_status; by rewrite decide_False).
    destruct s as [|fs| |]; cbn [window_ok] in *.
    + rewrite decide_False by done. rewrite restatus_row; [done|]. intros b Hb. rewrite Forall_forall in Hok. rewrite Hok by done. by apply HI.
    + rewrite decide_False by done. rewrite restatus_row; [done|]. intros b Hb. destruct Hok as [Hok _]. rewrite Forall_forall in Hok. rewrite Hok by done. by apply HI.
    + rewrite decide_False by done. rewrite restatus_row; [done|]. intros b Hb. destruct Hok as [Hok _]. rewrite Forall_forall in Hok. destruct (Hok b Hb) as [-> | ->]; by apply HI.
    + rewrite decide_True by done. cbn [window_ok]. apply (map_status (λ st, st = free ∨ st = marked_to_send) (λ st, st = free)); [|apply Hok]. by intros st [-> | ->].
  - intros st. unfold clear_status. by destruct (decide _).
  - eapply Forall2_impl; [exact HU|]. intros u e (H1 & H2 & b & Hb & Hst & Hd). split; [done|]. split; [done|]. exists b. split; [|done].
    change (map ?f ?l) with (f <$> l). rewrite list_lookup_fmap, Hb. cbn. by rewrite Hkeep.
  - intros i b Hi Hst. change (map ?f ?l) with (f <$> l) in Hi. rewrite list_lookup_fmap in Hi. destruct (concat ws !! i) as [b0|] eqn:Hb0; [|done]. injection Hi as <-.
    apply (HUs i b0 Hb0). unfold restatus, clear_status in Hst. cbn in Hst. by destruct (decide _).
Qed.

Lemma array_reset_spec a g : array_implements a g → array_implements (reset_buffers a) (ring_reset g).
Proof.
  intros [ws HR]. pose proof HR as [HQ Hq HA HW HS HZ HWs HC HU HN HUs HCap].
  assert (HE : reset_buffers a = with_used (with_buffers a (map (restatus reset_status) (buffers_array a))) []).
  { unfold reset_buffers, with_used, with_buffers. cbn. f_equal. apply map_ext. intros [z st b]. unfold is_status, restatus, reset_status, with_status. cbn. by destruct st. }
  rewrite HE. apply (array_rep_map a g ws); try done.
  - intros s row Hin Hl Hok. assert (HI : ∀ st', st' ≠ used → reset_status st' = st') by (intros; unfold reset_status; by rewrite decide_False).
    destruct s as [|fs| |]; cbn [window_ok] in *.
    + rewrite decide_False by done. rewrite restatus_row; [done|]. intros b Hb. rewrite Forall_forall in Hok. rewrite Hok by done. by apply HI.
    + rewrite decide_False by done. rewrite restatus_row; [done|]. intros b Hb. destruct Hok as [Hok _]. rewrite Forall_forall in Hok. rewrite Hok by done. by apply HI.
    + rewrite decide_True by done. cbn [window_ok]. apply (map_status (λ st, st = free ∨ st = used) (λ st, st = free)); [|apply Hok]. by intros st [-> | ->].
    + rewrite decide_False by done. rewrite restatus_row; [done|]. intros b Hb. destruct Hok as [Hok _]. rewrite Forall_forall in Hok. destruct (Hok b Hb) as [-> | ->]; by apply HI.
  - intros st. unfold reset_status. by destruct (decide _).
  - constructor.
  - intros i b Hi Hst. change (map ?f ?l) with (f <$> l) in Hi. rewrite list_lookup_fmap in Hi. destruct (concat ws !! i) as [b0|]; [|done]. injection Hi as <-.
    unfold restatus, reset_status in Hst. cbn in Hst. by destruct (decide _).
Qed.

Lemma mark_fold us : ∀ a aux, Forall (λ u, 0 <= ub_buffer u ∧ is_Some (buffers_array a !! Z.to_nat (ub_buffer u))) us →
  ∃ l, fold_result mark_buffer (a, aux) us = Ok (with_buffers a l, aux ++ map ub_buffer us) ∧
    ∀ i, l !! i = (λ b, if decide (Z.of_nat i ∈ map ub_buffer us) then with_status marked_to_send b else b) <$> buffers_array a !! i.
Proof.
  induction us as [|u us IH]; intros a aux HF.
  - exists (buffers_array a). cbn [fold_result map]. rewrite app_nil_r. split; [by destruct a|]. intros i. destruct (buffers_array a !! i) as [b|]; [|done]. done.
  - inversion_clear HF as [|? ? [H0 [b Hb]] HF']. cbn [fold_result map]. unfold mark_buffer at 2. unfold vec_at at 1. rewrite (proj2 (Z.leb_le 0 _)) by done. rewrite Hb. cbn [mbind result_bind].
    set (l1 := <[Z.to_nat (ub_buffer u) := with_status marked_to_send b]> (buffers_array a)).
    destruct (IH (with_buffers a l1) (aux ++ [ub_buffer u])) as (l2 & HE & Hl).
    { eapply Forall_impl; [exact HF'|]. intros u' [H0' Hs]. split; [done|]. cbn [buffers_array with_buffers]. unfold l1.
      destruct (decide (Z.to_nat (ub_buffer u) = Z.to_nat (ub_buffer u'))) as [<-|Hne]; [|by rewrite list_lookup_insert_ne].
      rewrite list_lookup_insert_eq; [done|by eapply lookup_lt_Some]. }
    exists l2. rewrite HE, <- app_assoc. split; [done|]. intros i. rewrite Hl. cbn [buffers_array with_buffers]. unfold l1.
    destruct (decide (Z.to_nat (ub_buffer u) = i)) as [<-|Hne].
    + rewrite list_lookup_insert_eq by (by eapply lookup_lt_Some). rewrite Hb. cbn. f_equal. rewrite Z2Nat.id by done.
      repeat case_decide; [done|exfalso; set_solver|done|exfalso; set_solver].
    + rewrite list_lookup_insert_ne by done. destruct (buffers_array a !! i) as [y|]; [|done]. cbn. f_equal.
      assert (HI : Z.of_nat i ∈ ub_buffer u :: map ub_buffer us ↔ Z.of_nat i ∈ map ub_buffer us) by (rewrite elem_of_cons; split; [intros [HX|HX]; [lia|done]|by right]).
      by rewrite (decide_ext _ _ _ _ HI).
Qed.

Lemma array_read_spec a g : array_implements a g →
  ∃ a' ptrs, find_buffers_ready_for_sending a = Ok (a', ptrs) ∧ array_implements a' (ring_read g) ∧
    Forall2 (λ p e, ∃ b, vec_at (buffers_array a') p = Ok b ∧ data b = Ok e.2) ptrs (queue g) ∧
    (∀ j b, vec_at (buffers_array a) j = Ok b → ∃ b', vec_at (buffers_array a') j = Ok b' ∧ data b' = data b).
Proof.
  intros [ws HR]. pose proof HR as [HQ Hq HA HW HS HZ HWs HC HU HN HUs HCap]. unfold find_buffers_ready_for_sending.
  destruct (mark_fold (used_buffers a) a []) as (l & HE & Hl).
  { apply Forall_forall. intros u [j Hj]%list_elem_of_lookup_1. destruct (Forall2_lookup_l _ _ _ _ _ HU Hj) as (e & _ & _ & H0 & b & Hb & _). split; [done|]. by rewrite HA, Hb. }
  rewrite HE. cbn [mbind result_bind app].
  assert (HM : l = map (restatus read_status) (buffers_array a)).
  { apply list_eq. intros i. rewrite Hl, HA. change (map ?f ?l) with (f <$> l). rewrite list_lookup_fmap. destruct (concat ws !! i) as [b|] eqn:Hb; [|done]. cbn. f_equal.
    unfold restatus, read_status. case_decide as Hin.
    - apply list_elem_of_fmap in Hin as (u & Hu & [j Hj]%list_elem_of_lookup_1). destruct (Forall2_lookup_l _ _ _ _ _ HU Hj) as (e & _ & _ & H0 & b' & Hb' & Hst & _).
      rewrite <- Hu, Nat2Z.id, Hb in Hb'. injection Hb' as <-. by rewrite Hst.
    - rewrite decide_False; [by destruct b|]. intros Hst. apply Hin. exact (HUs i b Hb Hst). }
  subst l. eexists _, _. split; [done|]. split; [|split].
  - apply (array_rep_map a g ws); try done.
    + intros s row Hin Hl' Hok. assert (HI : ∀ st', st' ≠ used → read_status st' = st') by (intros; unfold read_status; by rewrite decide_False).
      destruct s as [|fs| |]; cbn [window_ok] in *.
      * rewrite decide_False by done. rewrite restatus_row; [done|]. intros b Hb. rewrite Forall_forall in Hok. rewrite Hok by done. by apply HI.
      * rewrite decide_False by done. rewrite restatus_row; [done|]. intros b Hb. destruct Hok as [Hok _]. rewrite Forall_forall in Hok. rewrite Hok by done. by apply HI.
      * rewrite decide_True by done. cbn [window_ok]. destruct Hok as [Hf He]. split.
        -- apply (map_status (λ st, st = free ∨ st = used) (λ st, st = free ∨ st = marked_to_send)); [|done]. intros st [-> | ->]; [by left|by right].
        -- apply (exists_status (λ st, st = used) (λ st, st = marked_to_send)); [|done]. by intros st ->.
      * rewrite decide_False by done. rewrite restatus_row; [done|]. intros b Hb. destruct Hok as [Hok _]. rewrite Forall_forall in Hok. destruct (Hok b Hb) as [-> | ->]; by apply HI.
    + intros st. unfold read_status. by destruct (decide _).
    + constructor.
    + intros i b Hi Hst. change (map ?f ?l) with (f <$> l) in Hi. rewrite list_lookup_fmap in Hi. destruct (concat ws !! i) as [b0|]; [|done]. injection Hi as <-.
      unfold restatus, read_status in Hst. cbn in Hst. by destruct (decide _).
  - apply Forall2_fmap_l. eapply Forall2_impl; [exact HU|]. intros u e (_ & H0 & b & Hb & Hst & Hd). exists (restatus read_status b). split; [|done].
    cbn [buffers_array with_used with_buffers]. unfold vec_at. rewrite (proj2 (Z.leb_le 0 _)) by done. change (map ?f ?l) with (f <$> l). by rewrite list_lookup_fmap, HA, Hb.
  - intros j b. cbn [buffers_array with_used with_buffers]. unfold vec_at. destruct (0 <=? j); [|done]. change (map ?f ?l) with (f <$> l). rewrite list_lookup_fmap.
    destruct (buffers_array a !! Z.to_nat j) as [b0|]; [|done]. intros [= <-]. by eexists.
Qed.
End array.

(** ** The pool as rings *)

Section pool.
Import eth_frame_pool.
(** The number of frames per symbol and the size of a frame. *)
Context (Q : nat) (mtu : Z).

Abbreviation rings := (nat → nat → ring).
Definition quant (k : nat) : nat := if decide (k = 2%nat) then Q else 1%nat.
Definition kind (ty : ofh_pool_message_type) : nat := Z.to_nat (pool_entry.type_index ty).
Definition place (p : slot_symbol_point.t) : nat := match point_index p with Ok i => Z.to_nat i | Fault _ => 0%nat end.
Definition slot_of (p : slot_symbol_point.t) : slot_point.t := match slot_symbol_point.get_slot p with Ok s => s | Fault _ => slot_point.invalid end.

Record pool_implements (pool : eth_frame_pool.t) (G : rings) : Prop := {
  pl_entries : length pool = Z.to_nat NUM_ENTRIES;
  pl_kinds : Forall (λ e : pool_entry.t, length e = 3%nat) pool;
  pl_arrays : ∀ i k a, pool !! i ≫= (.!! k) = Some a → array_implements (quant k) mtu a (G i k);
  pl_stamps : ∀ i k, Forall (λ e, slot_symbol_point.wf e.1) (queue (G i k)) }.

(** Every kind but uplink User-Plane has an array. *)
Definition sent_type (ty : ofh_pool_message_type) : Prop := type ty = user_plane → direction ty = downlink.
Definition context_ok (c : frame_pool_context) : Prop := sent_type (pc_type c) ∧ slot_symbol_point.wf (pc_symbol_point c).

Lemma kind_spec ty : sent_type ty → (kind ty < 3)%nat ∧ pool_entry.type_index ty = Z.of_nat (kind ty).
Proof.
  unfold sent_type, kind, pool_entry.type_index. destruct ty as [[] []]; cbn; intros H; try (split; [lia|done]). by specialize (H eq_refl).
Qed.

Lemma sym_index_range slot symbol : 0 <= slot_point.slot_index slot → 0 <= symbol → 0 <= sym_index slot symbol < NUM_ENTRIES.
Proof. intros. unfold sym_index. apply Z.mod_pos_bound. done. Qed.

Lemma place_spec p : slot_symbol_point.wf p → point_index p = Ok (Z.of_nat (place p)) ∧ (place p < Z.to_nat NUM_ENTRIES)%nat ∧
  slot_symbol_point.get_slot p = Ok (slot_of p).
Proof.
  intros Hw. destruct (slot_symbol_point.point_values p Hw) as (slot & s & Hg & Hslot & Hi & _). unfold place, slot_of, point_index. rewrite Hg. cbn [mbind result_bind]. rewrite Hi. cbn [mbind result_bind].
  assert (H0 : 0 <= sym_index slot (Z.of_nat s) < NUM_ENTRIES) by (apply Z.mod_pos_bound; done).
  split; [by rewrite Z2Nat.id by lia|]. split; [lia|done].
Qed.

(** An array and its ring. *)
Lemma pool_array pool G i k : pool_implements pool G → (i < Z.to_nat NUM_ENTRIES)%nat → (k < 3)%nat →
  ∃ e a, vec_at pool (Z.of_nat i) = Ok e ∧ vec_at e (Z.of_nat k) = Ok a ∧ array_implements (quant k) mtu a (G i k) ∧
    ∀ a' g', array_implements (quant k) mtu a' g' → Forall (λ e, slot_symbol_point.wf e.1) (queue g') →
      pool_implements (<[i := <[k := a']> e]> pool) (upd i k g' G).
Proof.
  intros [HL HK HA HS] Hi Hk. destruct (lookup_lt_is_Some_2 pool i) as [e He]; [lia|]. pose proof (Forall_lookup_1 _ _ _ _ HK He) as Hle. cbn in Hle.
  destruct (lookup_lt_is_Some_2 e k) as [a Ha]; [lia|]. exists e, a. unfold vec_at. rewrite !(proj2 (Z.leb_le 0 _)) by lia. rewrite !Nat2Z.id, He, Ha.
  split; [done|]. split; [done|]. split; [apply HA; by rewrite He|]. intros a' g' Ha' Hg'. constructor.
  - by rewrite length_insert.
  - apply Forall_insert; [done|]. by rewrite length_insert.
  - intros i' k' x. unfold upd. destruct (decide (i = i')) as [<-|Hne].
    + rewrite list_lookup_insert_eq by lia. cbn. destruct (decide (k = k')) as [<-|Hne'].
      * rewrite list_lookup_insert_eq by lia. rewrite decide_True by done. by intros [= <-].
      * rewrite list_lookup_insert_ne by done. rewrite decide_False by naive_solver. intros Hx. apply HA. by rewrite He.
    + rewrite list_lookup_insert_ne by done. rewrite decide_False by naive_solver. apply HA.
  - intros i' k'. unfold upd. by destruct (decide _).
Qed.

(** *** What the pool promises *)

Definition shift (p : slot_symbol_point.t) (i : Z) : slot_symbol_point.t :=
  slot_symbol_point.mk (slot_symbol_point.nof_symbols p) (slot_symbol_point.numerology p)
    ((slot_symbol_point.count_val p + i) mod slot_symbol_point.period p).
Definition interval_points (iv : frame_pool_interval) : list slot_symbol_point.t :=
  let P := slot_symbol_point.period (pi_start iv) in
  let d := (slot_symbol_point.count_val (pi_end iv) - slot_symbol_point.count_val (pi_start iv)) mod P in
  if d <? P / 2 then map (shift (pi_start iv)) (seqZ 0 (d + 1)) else [].
Definition interval_ok (iv : frame_pool_interval) : Prop :=
  sent_type (pi_type iv) ∧ slot_symbol_point.wf (pi_start iv) ∧ slot_symbol_point.wf (pi_end iv) ∧
  slot_symbol_point.numerology (pi_start iv) = slot_symbol_point.numerology (pi_end iv) ∧
  slot_symbol_point.nof_symbols (pi_start iv) = slot_symbol_point.nof_symbols (pi_end iv).

Inductive answer : Type := Granted (frames : option Z) | Sent (frames : list (list Z)) | Done.

Inductive pool_op : Type :=
| Get (c : frame_pool_context)
| Fill (c : frame_pool_context) (w : nat) (content : list Z) (n : Z)
| Push (c : frame_pool_context) (w : nat)
| ReadInterval (iv : frame_pool_interval)
| ClearInterval (iv : frame_pool_interval)
| ClearDownlink (slot : slot_point.t)
| ClearUplink (slot : slot_point.t).

Definition read_point (k : nat) (st : rings * list (list Z)) (p : slot_symbol_point.t) : rings * list (list Z) :=
  (upd (place p) k (ring_read (st.1 (place p) k)) st.1, st.2 ++ map snd (queue (st.1 (place p) k))).
Definition clear_point (k : nat) (G : rings) (p : slot_symbol_point.t) : rings := upd (place p) k (ring_clear (G (place p) k)) G.
Definition late (g : ring) (slot : slot_point.t) : bool := existsb (λ e, negb (slot_point.eqb (slot_of e.1) slot)) (queue g).
Definition drop_late (k : nat) (slot : slot_point.t) (G : rings) (symbol : Z) : rings :=
  let i := Z.to_nat (sym_index slot symbol) in
  if late (G i k) slot then upd i k (ring_reset (G i k)) G else G.

Definition spec_pool_step (G : rings) (o : pool_op) : result (rings * answer) :=
  match o with
  | Get c =>
      let i := place (pc_symbol_point c) in let k := kind (pc_type c) in
      Ok (upd i k (ring_reserve (G i k)).1 G, Granted (option_map (λ w, Z.of_nat (w * quant k)) (ring_reserve (G i k)).2))
  | Fill c w content n =>
      let i := place (pc_symbol_point c) in let k := kind (pc_type c) in
      g ← ring_fill (quant k) (G i k) w content n; Ok (upd i k g G, Done)
  | Push c w =>
      let i := place (pc_symbol_point c) in let k := kind (pc_type c) in
      g ← ring_push (G i k) w (pc_symbol_point c); Ok (upd i k g G, Done)
  | ReadInterval iv => let st := foldl (read_point (kind (pi_type iv))) (G, []) (interval_points iv) in Ok (st.1, Sent st.2)
  | ClearInterval iv => Ok (foldl (clear_point (kind (pi_type iv))) G (interval_points iv), Done)
  | ClearDownlink slot => Ok (foldl (drop_late 2 slot) (drop_late 0 slot G 0) (seqZ 0 NOF_OFDM_SYM_PER_SLOT_NORMAL_CP), Done)
  | ClearUplink slot => Ok (drop_late 1 slot G 0, Done)
  end.

(** The functions of the pool and of [scoped_frame_buffer]. *)
Definition pool_step (pool : eth_frame_pool.t) (o : pool_op) : result (eth_frame_pool.t * answer) :=
  match o with
  | Get c => '(pool, f) ← get_frame_buffers pool c; Ok (pool, Granted f)
  | Fill c w content n =>
      let s := scoped_frame_buffer.mk_scoped c (Some (Z.of_nat (w * quant (kind (pc_type c))))) in
      i ← scoped_frame_buffer.get_next_frame pool s;
      pool ← scoped_frame_buffer.update_frame pool s i (λ b, frame_buffer.set_size (frame_buffer.mk (frame_buffer.sz b) (frame_buffer.status b) content) n);
      Ok (pool, Done)
  | Push c w =>
      let s := scoped_frame_buffer.mk_scoped c (Some (Z.of_nat (w * quant (kind (pc_type c))))) in
      pool ← scoped_frame_buffer.destroy pool s; Ok (pool, Done)
  | ReadInterval iv =>
      '(pool, ptrs) ← read_frame_buffers_interval pool iv;
      frames ← mapM (frame_data pool) ptrs; Ok (pool, Sent frames)
  | ClearInterval iv => pool ← clear_sent_frame_buffers_interval pool iv; Ok (pool, Done)
  | ClearDownlink slot => pool ← clear_downlink_slot pool slot; Ok (pool, Done)
  | ClearUplink slot => pool ← clear_uplink_slot pool slot; Ok (pool, Done)
  end.

(** Windows are filled and pushed by those they were lent to, and there are not so many
    reservations that their count wraps around. *)
Definition pool_op_ok (G : rings) (o : pool_op) : Prop :=
  match o with
  | Get c => context_ok c ∧ let g := G (place (pc_symbol_point c)) (kind (pc_type c)) in Z.of_nat (quant (kind (pc_type c))) * (granted g + 1) < 2 ^ 32
  | Fill c w content n => context_ok c ∧ (∃ fs, windows (G (place (pc_symbol_point c)) (kind (pc_type c))) !! w = Some (WLent fs)) ∧
      zlen content = mtu ∧ MIN_ETH_FRAME_LENGTH <= mtu ∧ 0 <= n <= mtu ∧ n <= MAX_ETH_FRAME_LENGTH
  | Push c w => context_ok c ∧ ∃ fs, windows (G (place (pc_symbol_point c)) (kind (pc_type c))) !! w = Some (WLent fs)
  | ReadInterval iv | ClearInterval iv => interval_ok iv
  | ClearDownlink slot | ClearUplink slot => slot_point.wf slot
  end.

(** *** One symbol *)

Lemma entry_reserve e ty : pool_entry.reserve_buffers e ty =
  a ← pool_entry.get_ofh_type_buffers e ty; '(a, buffs) ← lend a; Ok (pool_entry.set_ofh_type_buffers e ty a, buffs).
Proof.
  unfold pool_entry.reserve_buffers, lend. destruct (pool_entry.get_ofh_type_buffers e ty) as [a|]; [|done]. cbn [mbind result_bind].
  destruct (frame_buffer_array.reserve_buffers a) as [[a' [pos|]]|]; cbn [mbind result_bind]; [|done|done].
  by destruct (frame_buffer_array.update_span _ _ _).
Qed.

(** The array of a context. *)
Lemma pool_context pool G c : pool_implements pool G → context_ok c →
  let i := place (pc_symbol_point c) in let k := kind (pc_type c) in
  ∃ e a, point_index (pc_symbol_point c) = Ok (Z.of_nat i) ∧ vec_at pool (Z.of_nat i) = Ok e ∧ pool_entry.get_ofh_type_buffers e (pc_type c) = Ok a ∧
    array_implements (quant k) mtu a (G i k) ∧
    ∀ a' g', array_implements (quant k) mtu a' g' → Forall (λ e, slot_symbol_point.wf e.1) (queue g') →
      pool_implements (<[Z.to_nat (Z.of_nat i) := pool_entry.set_ofh_type_buffers e (pc_type c) a']> pool) (upd i k g' G).
Proof.
  intros HP [Ht Hw] i k. destruct (place_spec (pc_symbol_point c) Hw) as (Hi & Hlt & _). destruct (kind_spec (pc_type c) Ht) as [Hk Hti].
  destruct (pool_array pool G i k HP Hlt Hk) as (e & a & He & Ha & Himp & Hup). exists e, a. split; [done|]. split; [done|].
  unfold pool_entry.get_ofh_type_buffers, pool_entry.set_ofh_type_buffers. rewrite Hti, !Nat2Z.id. done.
Qed.

Lemma get_frames_spec pool G c : pool_implements pool G → pool_op_ok G (Get c) →
  ∃ pool', get_frame_buffers pool c = Ok (pool', option_map (λ w, Z.of_nat (w * quant (kind (pc_type c)))) (ring_reserve (G (place (pc_symbol_point c)) (kind (pc_type c)))).2) ∧
    pool_implements pool' (upd (place (pc_symbol_point c)) (kind (pc_type c)) (ring_reserve (G (place (pc_symbol_point c)) (kind (pc_type c)))).1 G).
Proof.
  intros HP [Hc Hb]. destruct (pool_context pool G c HP Hc) as (e & a & Hi & He & Ha & Himp & Hup). unfold get_frame_buffers. rewrite Hi. cbn [mbind result_bind]. rewrite He. cbn [mbind result_bind].
  rewrite entry_reserve, Ha. cbn [mbind result_bind]. destruct (lend_spec _ mtu a _ Himp Hb) as (a' & -> & Himp'). cbn [mbind result_bind].
  eexists. split; [done|]. apply Hup; [done|]. pose proof (pl_stamps _ _ HP (place (pc_symbol_point c)) (kind (pc_type c))) as HS. unfold ring_reserve. by destruct (decide _).
Qed.

Lemma fill_frame_spec pool G c w content n : pool_implements pool G → pool_op_ok G (Fill c w content n) →
  match spec_pool_step G (Fill c w content n) with
  | Ok (G', x) => ∃ pool', pool_step pool (Fill c w content n) = Ok (pool', x) ∧ pool_implements pool' G'
  | Fault f => pool_step pool (Fill c w content n) = Fault f
  end.
Proof.
  intros HP (Hc & [fs Hw] & Hz & Hm & Hn & Hx). destruct (pool_context pool G c HP Hc) as (e & a & Hi & He & Ha & Himp & Hup). cbn [spec_pool_step pool_step].
  unfold scoped_frame_buffer.get_next_frame, scoped_frame_buffer.update_frame, scoped_frame_buffer.array_of, scoped_frame_buffer.set_array. cbn [scoped_frame_buffer.frames scoped_frame_buffer.context].
  rewrite Hi. cbn [mbind result_bind]. rewrite He. cbn [mbind result_bind]. rewrite Ha. cbn [mbind result_bind].
  pose proof (array_fill_spec _ mtu a _ w fs content n Himp Hw Hz Hm Hn Hx) as HF.
  destruct (Nat.ltb_spec (length fs) (quant (kind (pc_type c)))) as [Hlt|Hge].
  - destruct HF as (-> & a' & g' & b & _ & _ & HS & HG & Himp'). cbn [mbind result_bind]. rewrite HS. cbn [mbind result_bind]. rewrite HG. cbn [mbind result_bind].
    eexists. split; [done|]. apply Hup; [done|]. unfold ring_fill in HG. rewrite Hw in HG. rewrite (proj2 (Nat.ltb_lt _ _)) in HG by done. injection HG as <-. apply (pl_stamps _ _ HP).
  - rewrite HF. unfold ring_fill. rewrite Hw. by rewrite (proj2 (Nat.ltb_ge _ _)) by done.
Qed.

Lemma push_frames_spec pool G c w : pool_implements pool G → pool_op_ok G (Push c w) →
  match spec_pool_step G (Push c w) with
  | Ok (G', x) => ∃ pool', pool_step pool (Push c w) = Ok (pool', x) ∧ pool_implements pool' G'
  | Fault f => pool_step pool (Push c w) = Fault f
  end.
Proof.
  intros HP (Hc & [fs Hw]). destruct (pool_context pool G c HP Hc) as (e & a & Hi & He & Ha & Himp & Hup). cbn [spec_pool_step pool_step].
  unfold scoped_frame_buffer.destroy, push_frame_buffers, pool_entry.push_buffers. cbn [scoped_frame_buffer.frames scoped_frame_buffer.context].
  rewrite Hi. cbn [mbind result_bind]. rewrite He. cbn [mbind result_bind]. rewrite Ha. cbn [mbind result_bind].
  pose proof (array_push_spec _ mtu a _ w fs (pc_symbol_point c) Himp Hw) as HF. destruct (ring_push _ _ _) as [g'|f] eqn:HG; cbn [mbind result_bind]; [|by rewrite HF].
  destruct HF as (a' & -> & Himp'). cbn [mbind result_bind]. eexists. split; [done|]. apply Hup; [done|].
  unfold ring_push in HG. rewrite Hw in HG. destruct (_ <=? _); [|done]. injection HG as <-. cbn [queue]. apply Forall_app. split; [apply (pl_stamps _ _ HP)|].
  apply Forall_map, Forall_true. intros x. cbn. apply Hc.
Qed.

(** The frames behind pointers. *)
Definition leads (pool : eth_frame_pool.t) (p : pointer) (frame : list Z) : Prop := frame_data pool p = Ok frame.

Lemma read_point_spec pool G c : pool_implements pool G → context_ok c →
  let i := place (pc_symbol_point c) in let k := kind (pc_type c) in
  ∃ pool' ptrs, read_frame_buffers pool c = Ok (pool', ptrs) ∧ pool_implements pool' (upd i k (ring_read (G i k)) G) ∧
    Forall2 (leads pool') ptrs (map snd (queue (G i k))) ∧ (∀ p f, leads pool p f → leads pool' p f).
Proof.
  intros HP Hc i k. destruct (pool_context pool G c HP Hc) as (e & a & Hi & He & Ha & Himp & Hup). fold i k in Hi, He, Himp, Hup |- *. unfold read_frame_buffers, pool_entry.read_buffers.
  rewrite Hi. cbn [mbind result_bind]. rewrite He. cbn [mbind result_bind]. rewrite Ha. cbn [mbind result_bind].
  destruct (array_read_spec _ mtu a _ Himp) as (a' & ptrs & -> & Himp' & HF & HK). cbn [mbind result_bind]. eexists _, _. split; [done|]. split; [apply Hup; [done|constructor]|].
  destruct (kind_spec (pc_type c) (proj1 Hc)) as [Hk Hti]. fold k in Hk, Hti.
  pose proof (proj1 (vec_at_nat _ _ _) He) as Hei. apply lookup_lt_Some in Hei.
  unfold pool_entry.get_ofh_type_buffers, pool_entry.set_ofh_type_buffers in Ha |- *. rewrite Hti in Ha |- *. rewrite !Nat2Z.id.
  pose proof (proj1 (vec_at_nat _ _ _) Ha) as Hai. apply lookup_lt_Some in Hai.
  assert (HX : ∀ j b pt, pool_entry.type_index pt = Z.of_nat k → vec_at (frame_buffer_array.buffers_array a') j = Ok b →
    frame_data (<[i := <[k := a']> e]> pool) (mk_pointer (Z.of_nat i) pt j) = frame_buffer.data b).
  { intros j b pt Hpt Hj. unfold frame_data, frame_at, pool_entry.get_ofh_type_buffers. cbn [ptr_entry ptr_type ptr_buffer].
    rewrite vec_at_insert by done. cbn [mbind result_bind]. rewrite Hpt, vec_at_insert by done. cbn [mbind result_bind]. by rewrite Hj. }
  split.
  - apply Forall2_fmap. eapply Forall2_impl; [exact HF|]. intros j ent (b & Hj & Hd). unfold leads. by rewrite (HX j b).
  - intros [pe pt pb] f Hl. unfold leads in *. destruct (decide (pe = Z.of_nat i ∧ pool_entry.type_index pt = Z.of_nat k)) as [[-> Hpt]|Hne].
    + unfold frame_data, frame_at, pool_entry.get_ofh_type_buffers in Hl. cbn [ptr_entry ptr_type ptr_buffer] in Hl. rewrite He in Hl. cbn [mbind result_bind] in Hl.
      rewrite Hpt, Ha in Hl. cbn [mbind result_bind] in Hl. destruct (vec_at (frame_buffer_array.buffers_array a) pb) as [b|] eqn:Hb; [|done]. cbn [mbind result_bind] in Hl.
      destruct (HK pb b Hb) as (b' & Hb' & Hd). rewrite (HX pb b' pt Hpt Hb'). congruence.
    + unfold frame_data, frame_at, pool_entry.get_ofh_type_buffers in *. cbn [ptr_entry ptr_type ptr_buffer] in *. destruct (decide (pe = Z.of_nat i)) as [->|Hpe].
      * rewrite He in Hl. rewrite vec_at_insert by done. cbn [mbind result_bind] in *. by rewrite vec_at_insert_ne by naive_solver.
      * by rewrite vec_at_insert_ne.
Qed.

Lemma clear_point_spec pool G c : pool_implements pool G → context_ok c →
  ∃ pool', clear_sent_frame_buffers pool c = Ok pool' ∧ pool_implements pool' (clear_point (kind (pc_type c)) G (pc_symbol_point c)).
Proof.
  intros HP Hc. destruct (pool_context pool G c HP Hc) as (e & a & Hi & He & Ha & Himp & Hup). unfold clear_sent_frame_buffers, pool_entry.clear_buffers.
  rewrite Hi. cbn [mbind result_bind]. rewrite He. cbn [mbind result_bind]. rewrite Ha. cbn [mbind result_bind]. eexists. split; [done|].
  apply Hup; [by apply array_clear_spec|]. apply (pl_stamps _ _ HP).
Qed.

(** *** Intervals and slots *)

Lemma interval_walk iv : interval_ok iv →
  (slot_symbol_point.gtb (pi_start iv) (pi_end iv) = Ok true ∧ interval_points iv = []) ∨
  ∃ d, slot_symbol_point.gtb (pi_start iv) (pi_end iv) = Ok false ∧ interval_distance iv = Ok (d + 1) ∧ 0 <= d < 2 ^ 30 ∧
    interval_points iv = map (shift (pi_start iv)) (seqZ 0 (d + 1)).
Proof.
  intros (_ & Ha & Hb & E1 & E2). set (a := pi_start iv) in *. set (b := pi_end iv) in *.
  pose proof Ha as (Hn & Hm & Hc). destruct (slot_symbol_point.period_range a Hn Hm) as (_ & _ & HP).
  assert (Hp : slot_symbol_point.period b = slot_symbol_point.period a) by (unfold slot_symbol_point.period; by rewrite E1, E2).
  pose proof Hb as (_ & _ & Hc'). rewrite Hp in Hc'. unfold interval_points, interval_distance. fold a b.
  set (d := (slot_symbol_point.count_val b - slot_symbol_point.count_val a) mod slot_symbol_point.period a).
  assert (Hd : d = slot_symbol_point.count_val b - slot_symbol_point.count_val a ∨ d = slot_symbol_point.count_val b - slot_symbol_point.count_val a + slot_symbol_point.period a)
    by (unfold d; rewrite slot_symbol_point.mod_near by lia; case_Z; lia).
  assert (Hr : 0 <= d < slot_symbol_point.period a) by (apply Z.mod_pos_bound; lia).
  assert (HG : slot_symbol_point.gtb a b = Ok (negb (d <? slot_symbol_point.period a / 2))).
  { unfold slot_symbol_point.gtb, slot_symbol_point.geb, slot_symbol_point.eqb. rewrite slot_symbol_point.symbol_ltb_spec by done. fold d. cbn [mbind result_bind].
    rewrite E1, E2, !Z.eqb_refl. cbn [andb]. destruct (Z.eqb_spec (slot_symbol_point.count_val b) (slot_symbol_point.count_val a)) as [He|Hne]; cbn [negb andb].
    - rewrite (proj2 (Z.ltb_lt _ _)) by lia. done.
    - do 2 f_equal. case_bool_decide; symmetry; [apply Z.ltb_lt|apply Z.ltb_ge]; lia. }
  rewrite HG. destruct (Z.ltb_spec d (slot_symbol_point.period a / 2)) as [Hlt|Hge]; cbn [negb]; [right|by left].
  exists d. split; [done|]. destruct (slot_symbol_point.symbol_diff_spec b a Hb Ha) as (d' & -> & Hd' & Hcase); [done..|]. rewrite Hp in *.
  assert (d' = d) as -> by lia. cbn [mbind result_bind]. rewrite sadd_Ok by lia_fits. cbn [mbind result_bind]. rewrite (wrap_small 32) by lia_fits. split; [done|]. split; [lia|done].
Qed.

Lemma shift_step iv i : interval_ok iv → 0 <= i < 2 ^ 30 →
  slot_symbol_point.add (pi_start iv) i = Ok (shift (pi_start iv) i) ∧ context_ok (mk_pool_context (pi_type iv) (shift (pi_start iv) i)).
Proof.
  intros (Ht & Ha & _) Hi. split; [apply slot_symbol_point.symbol_add_spec; [done|lia]|]. split; [done|]. by apply slot_symbol_point.symbol_add_wf.
Qed.

Lemma read_symbols_spec iv l : interval_ok iv → Forall (λ i, 0 <= i < 2 ^ 30) l → ∀ pool G ptrs frames, pool_implements pool G → Forall2 (leads pool) ptrs frames →
  ∃ pool' ptrs', fold_result (read_symbol iv) (pool, ptrs) l = Ok (pool', ptrs') ∧
    let st := foldl (read_point (kind (pi_type iv))) (G, frames) (map (shift (pi_start iv)) l) in
    pool_implements pool' st.1 ∧ Forall2 (leads pool') ptrs' st.2.
Proof.
  intros Hiv. induction 1 as [|i l Hi Hl IH]; intros pool G ptrs frames HP HF; [by eexists _, _|]. cbn [fold_result map foldl].
  destruct (shift_step iv i Hiv Hi) as [Hadd Hc]. unfold read_symbol at 2. rewrite Hadd. cbn [mbind result_bind].
  destruct (read_point_spec pool G _ HP Hc) as (pool1 & new & -> & HP1 & HN & HK). cbn [mbind result_bind]. cbn [pc_type pc_symbol_point] in *.
  unfold read_point at 2 4. cbn [fst snd]. apply IH; [done|]. apply Forall2_app; [|done]. eapply Forall2_impl; [exact HF|]. intros. by apply HK.
Qed.

Lemma clear_symbols_spec iv l : interval_ok iv → Forall (λ i, 0 <= i < 2 ^ 30) l → ∀ pool G, pool_implements pool G →
  ∃ pool', fold_result (clear_symbol iv) pool l = Ok pool' ∧ pool_implements pool' (foldl (clear_point (kind (pi_type iv))) G (map (shift (pi_start iv)) l)).
Proof.
  intros Hiv. induction 1 as [|i l Hi Hl IH]; intros pool G HP; [by eexists|]. cbn [fold_result map foldl].
  destruct (shift_step iv i Hiv Hi) as [Hadd Hc]. unfold clear_symbol at 2. rewrite Hadd. cbn [mbind result_bind].
  destruct (clear_point_spec pool G _ HP Hc) as (pool1 & -> & HP1). cbn [mbind result_bind]. by apply IH.
Qed.

Lemma walk_range d : 0 <= d < 2 ^ 30 → Forall (λ i, 0 <= i < 2 ^ 30) (seqZ 0 (d + 1)).
Proof. intros Hd. apply Forall_forall. intros i Hi%elem_of_seqZ. lia. Qed.

Lemma read_interval_spec pool G iv : pool_implements pool G → interval_ok iv →
  match spec_pool_step G (ReadInterval iv) with
  | Ok (G', x) => ∃ pool', pool_step pool (ReadInterval iv) = Ok (pool', x) ∧ pool_implements pool' G'
  | Fault f => pool_step pool (ReadInterval iv) = Fault f
  end.
Proof.
  intros HP Hiv. cbn [spec_pool_step pool_step]. unfold read_frame_buffers_interval. destruct (interval_walk iv Hiv) as [[-> ->]|(d & -> & -> & Hd & ->)]; cbn [mbind result_bind].
  { eexists. split; [done|done]. }
  destruct (read_symbols_spec iv (seqZ 0 (d + 1)) Hiv (walk_range d Hd) pool G [] [] HP) as (pool' & ptrs & -> & HP' & HF); [constructor|]. cbn [mbind result_bind].
  rewrite (proj2 (mapM_Ok_Forall2 _ _ _) HF). cbn [mbind result_bind]. by eexists.
Qed.

Lemma clear_interval_spec pool G iv : pool_implements pool G → interval_ok iv →
  match spec_pool_step G (ClearInterval iv) with
  | Ok (G', x) => ∃ pool', pool_step pool (ClearInterval iv) = Ok (pool', x) ∧ pool_implements pool' G'
  | Fault f => pool_step pool (ClearInterval iv) = Fault f
  end.
Proof.
  intros HP Hiv. cbn [spec_pool_step pool_step]. unfold clear_sent_frame_buffers_interval. destruct (interval_walk iv Hiv) as [[-> ->]|(d & -> & -> & Hd & ->)]; cbn [mbind result_bind].
  { by eexists. }
  destruct (clear_symbols_spec iv (seqZ 0 (d + 1)) Hiv (walk_range d Hd) pool G HP) as (pool' & -> & HP'). by eexists.
Qed.

Lemma find_late_spec (q : nat) a g slot : array_implements q mtu a g → Forall (λ e, slot_symbol_point.wf e.1) (queue g) →
  find_late slot (frame_buffer_array.used_buffers a) = Ok (late g slot).
Proof.
  intros [ws HR] HS. pose proof (ar_queue _ _ _ _ _ HR) as HU. unfold late. revert HS. induction HU as [|u e us es (Hst & _) HU IH]; intros HS; [done|].
  inversion_clear HS as [|? ? Hw HS']. cbn [find_late existsb]. rewrite Hst. destruct (place_spec e.1 Hw) as (_ & _ & ->). cbn [mbind result_bind].
  destruct (slot_point.eqb (slot_of e.1) slot); cbn [negb orb]; [by apply IH|done].
Qed.

Lemma clear_late_spec pool G ty slot symbol : pool_implements pool G → sent_type ty → slot_point.wf slot → 0 <= symbol →
  ∃ pool', clear_late ty slot pool symbol = Ok pool' ∧ pool_implements pool' (drop_late (kind ty) slot G symbol).
Proof.
  intros HP Ht Hslot Hs. destruct (kind_spec ty Ht) as [Hk Hti]. unfold clear_late, drop_late.
  assert (HI : 0 <= sym_index slot symbol < NUM_ENTRIES) by (unfold sym_index; by apply Z.mod_pos_bound).
  set (i := Z.to_nat (sym_index slot symbol)). assert (Hi : sym_index slot symbol = Z.of_nat i) by (unfold i; lia). rewrite Hi.
  destruct (pool_array pool G i (kind ty) HP) as (e & a & He & Ha & Himp & Hup); [lia|done|]. rewrite He. cbn [mbind result_bind].
  unfold pool_entry.get_prepared_buffers, pool_entry.reset_buffers, pool_entry.get_ofh_type_buffers, pool_entry.set_ofh_type_buffers. rewrite Hti, Ha. cbn [mbind result_bind].
  unfold frame_buffer_array.get_prepared_buffers. rewrite (find_late_spec (quant (kind ty)) a (G i (kind ty)) slot Himp (pl_stamps _ _ HP _ _)). cbn [mbind result_bind].
  destruct (late (G i (kind ty)) slot); [|by eexists]. eexists. split; [done|]. rewrite !Nat2Z.id. apply Hup; [by apply array_reset_spec|constructor].
Qed.

Lemma clear_lates_spec slot l : slot_point.wf slot → Forall (λ s, 0 <= s) l → ∀ pool G, pool_implements pool G →
  ∃ pool', fold_result (clear_late (mk_type user_plane downlink) slot) pool l = Ok pool' ∧ pool_implements pool' (foldl (drop_late 2 slot) G l).
Proof.
  intros Hslot. induction 1 as [|s l Hs Hl IH]; intros pool G HP; [by eexists|]. cbn [fold_result foldl].
  destruct (clear_late_spec pool G (mk_type user_plane downlink) slot s HP) as (pool1 & -> & HP1); [done..|]. cbn [mbind result_bind]. by apply IH.
Qed.

(** *** A client between reservation and push *)

#[export] Instance pool_implements_proper :
  Proper (eq ==> pointwise_relation nat (pointwise_relation nat eq) ==> iff) pool_implements.
Proof.
  intros pool ? <- G G' HG. assert (HE : ∀ i k, G i k = G' i k) by (intros; apply HG).
  split; intros [HL HK HA HS]; constructor; try done; intros.
  - rewrite <- HE. by apply HA.
  - rewrite <- HE. by apply HS.
  - rewrite HE. by apply HA.
  - rewrite HE. by apply HS.
Qed.

(** What a data flow does to a ring when it reserves, puts [frames] and pushes: nothing if
    the next window is in use. *)
Definition ring_send (g : ring) (stamp : slot_symbol_point.t) (frames : list (list Z)) : result (option ring) :=
  match ring_reserve g with
  | (_, None) => Ok None
  | (g', Some w) =>
      assume (zlen (queue g) + zlen frames <=? frame_buffer_array.used_capacity) AssertFailed;;
      Ok (Some (mk_ring (granted g + 1) (<[w := match frames with [] => WFree | _ => WWaiting end]> (windows g)) (queue g ++ map (pair stamp) frames)))
  end.

(** The window [w] is lent for the context [c] and holds [fs]. *)
Definition lending (pool : eth_frame_pool.t) (G : rings) (c : frame_pool_context) (w : nat) (fs : list (list Z)) : Prop :=
  let i := place (pc_symbol_point c) in let k := kind (pc_type c) in
  pool_implements pool (upd i k (mk_ring (granted (G i k) + 1) (<[w := WLent fs]> (windows (G i k))) (queue (G i k))) G) ∧
  (w < length (windows (G i k)))%nat ∧ context_ok c.

Definition scope (c : frame_pool_context) (w : nat) : scoped_frame_buffer.t :=
  scoped_frame_buffer.mk_scoped c (Some (Z.of_nat (w * quant (kind (pc_type c))))).

Lemma upd_same {A} i k (v : A) (f : nat → nat → A) : upd i k v f i k = v.
Proof. unfold upd. by rewrite decide_True. Qed.

Lemma upd_twice {A} i k (v v' : A) (f : nat → nat → A) i' k' : upd i k v (upd i k v' f) i' k' = upd i k v f i' k'.
Proof. unfold upd. by destruct (decide _). Qed.

Lemma scoped_lend pool G c : pool_implements pool G → pool_op_ok G (Get c) →
  ∃ pool', scoped_frame_buffer.create pool (pc_symbol_point c) (type (pc_type c)) (direction (pc_type c)) =
      Ok (pool', scoped_frame_buffer.mk_scoped c (option_map (λ w, Z.of_nat (w * quant (kind (pc_type c)))) (ring_reserve (G (place (pc_symbol_point c)) (kind (pc_type c)))).2)) ∧
    match (ring_reserve (G (place (pc_symbol_point c)) (kind (pc_type c)))).2 with None => pool_implements pool' G | Some w => lending pool' G c w [] end.
Proof.
  intros HP Ho. destruct (get_frames_spec pool G c HP Ho) as (pool' & HE & HP'). exists pool'. unfold scoped_frame_buffer.create. destruct c as [[ty dir] p]. cbn [pc_symbol_point pc_type type direction] in *.
  rewrite HE. cbn [mbind result_bind]. split; [done|]. unfold ring_reserve in HP' |- *. set (g := G _ _) in *. destruct (decide _) as [Hw|Hw]; cbn [fst snd] in *.
  - split; [done|]. cbn [pc_symbol_point pc_type]. fold g. split; [by eapply lookup_lt_Some|apply Ho].
  - revert HP'. apply pool_implements_proper; [done|]. intros i k. unfold upd. destruct (decide _) as [[<- <-]|]; done.
Qed.

Lemma lending_window pool G c w fs : lending pool G c w fs →
  windows (upd (place (pc_symbol_point c)) (kind (pc_type c)) (mk_ring (granted (G (place (pc_symbol_point c)) (kind (pc_type c))) + 1)
    (<[w := WLent fs]> (windows (G (place (pc_symbol_point c)) (kind (pc_type c))))) (queue (G (place (pc_symbol_point c)) (kind (pc_type c))))) G
    (place (pc_symbol_point c)) (kind (pc_type c))) !! w = Some (WLent fs).
Proof. intros (_ & Hw & _). rewrite upd_same. cbn [windows]. by apply list_lookup_insert_eq. Qed.

Lemma lending_fill pool G c w fs : lending pool G c w fs → (length fs < quant (kind (pc_type c)))%nat → MIN_ETH_FRAME_LENGTH <= mtu →
  ∃ j b, scoped_frame_buffer.get_next_frame pool (scope c w) = Ok j ∧ scoped_frame_buffer.read_frame pool (scope c w) j = Ok b ∧ zlen (frame_buffer.buffer b) = mtu ∧
    ∀ content n, zlen content = mtu → 0 <= n <= mtu → n <= MAX_ETH_FRAME_LENGTH →
    ∃ pool', scoped_frame_buffer.update_frame pool (scope c w) j (λ b, frame_buffer.set_size (frame_buffer.mk (frame_buffer.sz b) (frame_buffer.status b) content) n) = Ok pool' ∧
      lending pool' G c w (fs ++ [framed content n]).
Proof.
  intros HL Hlt Hm. pose proof (lending_window pool G c w fs HL) as Hw. destruct HL as (HP & Hwl & Hc). destruct (pool_context pool _ c HP Hc) as (e & a & Hi & He & Ha & Himp & Hup).
  pose proof (λ content n, array_fill_spec _ mtu a _ w fs content n Himp Hw) as HF. rewrite (proj2 (Nat.ltb_lt _ _)) in HF by done.
  exists (Z.of_nat (w * quant (kind (pc_type c)) + length fs)). unfold MIN_ETH_FRAME_LENGTH in *.
  destruct (HF (replicate (Z.to_nat mtu) 0) 0) as (HN & _ & _ & b & Hb & Hbz & _); [unfold zlen; rewrite length_replicate; lia|lia|lia|done|]. exists b.
  unfold scoped_frame_buffer.get_next_frame, scoped_frame_buffer.read_frame, scoped_frame_buffer.update_frame, scoped_frame_buffer.array_of, scoped_frame_buffer.set_array, scope. cbn [scoped_frame_buffer.frames scoped_frame_buffer.context].
  rewrite Hi. cbn [mbind result_bind]. rewrite He. cbn [mbind result_bind]. rewrite Ha. cbn [mbind result_bind]. split; [done|]. split; [done|]. split; [done|].
  intros content n Hz Hn Hx. destruct (HF content n Hz ltac:(lia) Hn Hx) as (_ & a' & g' & b' & _ & _ & HS & HG & Himp'). rewrite HS. cbn [mbind result_bind]. eexists. split; [done|].
  split; [|done]. unfold ring_fill in HG. rewrite Hw, (proj2 (Nat.ltb_lt _ _)) in HG by done. injection HG as <-. rewrite upd_same in *. cbn [granted windows queue] in *. rewrite list_insert_insert_eq in Himp'.
  specialize (Hup _ _ Himp'). cbn [queue] in Hup. assert (HPu : pool_implements _ _) by (apply Hup; pose proof (pl_stamps _ _ HP (place (pc_symbol_point c)) (kind (pc_type c))) as HS'; rewrite upd_same in HS'; exact HS').
  revert HPu. apply pool_implements_proper; [done|]. intros i k. symmetry. apply upd_twice.
Qed.

Lemma lending_push pool G c w frames : lending pool G c w frames → (ring_reserve (G (place (pc_symbol_point c)) (kind (pc_type c)))).2 = Some w →
  match ring_send (G (place (pc_symbol_point c)) (kind (pc_type c))) (pc_symbol_point c) frames with
  | Ok (Some g) => ∃ pool', scoped_frame_buffer.destroy pool (scope c w) = Ok pool' ∧ pool_implements pool' (upd (place (pc_symbol_point c)) (kind (pc_type c)) g G)
  | Ok None => False
  | Fault f => scoped_frame_buffer.destroy pool (scope c w) = Fault f
  end.
Proof.
  intros HL Hres. pose proof (lending_window pool G c w frames HL) as Hw. destruct HL as (HP & Hwl & Hc).
  pose proof (push_frames_spec pool _ c w HP (conj Hc (ex_intro _ frames Hw))) as HS. cbn [spec_pool_step pool_step] in HS. fold (scope c w) in HS.
  unfold ring_send. destruct (ring_reserve _) as [g' o] eqn:HR. cbn in Hres. subst o. unfold ring_push in HS. rewrite Hw in HS. rewrite upd_same in HS. cbn [queue granted windows] in HS.
  destruct (_ <=? _); cbn [assume mbind result_bind] in *.
  - rewrite list_insert_insert_eq in HS. destruct HS as (pool' & HE & HP'). destruct (scoped_frame_buffer.destroy pool (scope c w)) as [pool1|]; [|done]. injection HE as ->.
    exists pool'. split; [done|]. revert HP'. apply pool_implements_proper; [done|]. intros i k. symmetry. apply upd_twice.
  - destruct (scoped_frame_buffer.destroy pool (scope c w)) as [|f]; [done|by injection HS as ->].
Qed.

(** Every operation does on the pool what it promises on the rings. *)
Lemma pool_step_spec pool G o : pool_implements pool G → pool_op_ok G o →
  match spec_pool_step G o with
  | Ok (G', x) => ∃ pool', pool_step pool o = Ok (pool', x) ∧ pool_implements pool' G'
  | Fault f => pool_step pool o = Fault f
  end.
Proof.
  intros HP Ho. destruct o as [c|c w content n|c w|iv|iv|slot|slot].
  - destruct (get_frames_spec pool G c HP Ho) as (pool' & HE & HP'). cbn [spec_pool_step pool_step]. rewrite HE. by eexists.
  - by apply fill_frame_spec.
  - by apply push_frames_spec.
  - by apply read_interval_spec.
  - by apply clear_interval_spec.
  - cbn [spec_pool_step pool_step]. unfold clear_downlink_slot. destruct (clear_late_spec pool G (mk_type control_plane downlink) slot 0 HP) as (pool1 & -> & HP1); [done..|]. cbn [mbind result_bind].
    destruct (clear_lates_spec slot (seqZ 0 NOF_OFDM_SYM_PER_SLOT_NORMAL_CP) Ho) with (pool := pool1) (G := drop_late 0 slot G 0) as (pool' & -> & HP'); [|done|by eexists].
    apply Forall_forall. intros s Hs%elem_of_seqZ. lia.
  - cbn [spec_pool_step pool_step]. unfold clear_uplink_slot. destruct (clear_late_spec pool G (mk_type control_plane uplink) slot 0 HP) as (pool1 & -> & HP1); [done..|]. by eexists.
Qed.
End pool.

(** ** Runs of a pool from its creation *)

(** All windows free: two spans of frames per supported eAxC, twice as many for the uplink
    commands, which include those of PRACH. *)
Definition initial_rings (_ k : nat) : ring := mk_ring 0 (replicate (if decide (k = 1%nat) then 16 else 8) WFree) [].

Section creation.
Import frame_buffer frame_buffer_array.
Context (Q : nat) (mtu : Z) (HQ : (0 < Q)%nat) (Hmtu : 0 <= mtu).

Lemma create_array (q n : nat) : (0 < q)%nat → (0 < n)%nat → Z.of_nat q * Z.of_nat n * 2 < 2 ^ 32 →
  array_implements q mtu (frame_buffer_array.create (Z.of_nat q) mtu (Z.of_nat n)) (mk_ring 0 (replicate (n * 2) WFree) []).
Proof.
  intros Hq Hn Hb. set (b := frame_buffer.create mtu). exists (replicate (n * 2) (replicate q b)).
  assert (HW : Forall (λ row : list frame_buffer.t, length row = q) (replicate (n * 2) (replicate q b))) by (apply Forall_replicate, length_replicate).
  assert (HC : concat (replicate (n * 2) (replicate q b)) = replicate (n * 2 * q) b).
  { generalize (n * 2)%nat. intros m. induction m as [|m IH]; [done|]. cbn [replicate concat]. rewrite IH, <- replicate_add. done. }
  unfold frame_buffer_array.create, NUM_OF_ENTRIES. rewrite (wrap_small 32 (Z.of_nat q * Z.of_nat n)) by lia_fits. rewrite (wrap_small 32) by lia_fits.
  constructor; cbn [increment_quant storage_nof_buffers buffers_array used_buffers write_count windows granted queue map]; try done.
  - split; [done|]. destruct n; [lia|done].
  - rewrite HC. f_equal. lia.
  - unfold zlen. rewrite length_replicate. lia.
  - rewrite HC. apply Forall_replicate. cbn. unfold zlen. rewrite length_replicate. lia.
  - apply Forall2_replicate. cbn. by apply Forall_replicate.
  - split; [lia|done].
  - constructor.
  - intros i x Hi. rewrite HC in Hi. apply lookup_replicate in Hi as [-> _]. done.
Qed.

Lemma pool_create_implements : Z.of_nat Q * 8 < 2 ^ 32 → pool_implements Q mtu (eth_frame_pool.create mtu (Z.of_nat Q)) initial_rings.
Proof.
  intros Hb. unfold eth_frame_pool.create. constructor; [apply length_replicate|by apply Forall_replicate| |intros; constructor].
  intros i k a Ha. apply bind_Some in Ha as (e & [-> _]%lookup_replicate & Ha). unfold initial_rings, quant.
  destruct k as [|[|[|k]]]; cbn in Ha; [injection Ha as <-..|done]; cbn [decide].
  - exact (create_array 1 4 ltac:(lia) ltac:(lia) ltac:(lia)).
  - exact (create_array 1 8 ltac:(lia) ltac:(lia) ltac:(lia)).
  - exact (create_array Q 4 HQ ltac:(lia) ltac:(lia)).
Qed.
End creation.

Section runs.
Context (Q : nat) (mtu : Z).

Fixpoint spec_pool_run (G : nat → nat → ring) (ops : list pool_op) : result (list answer) :=
  match ops with
  | [] => Ok []
  | o :: ops => '(G, x) ← spec_pool_step Q G o; xs ← spec_pool_run G ops; Ok (x :: xs)
  end.
Fixpoint pool_run (pool : eth_frame_pool.t) (ops : list pool_op) : result (list answer) :=
  match ops with
  | [] => Ok []
  | o :: ops => '(pool, x) ← pool_step Q pool o; xs ← pool_run pool ops; Ok (x :: xs)
  end.

(** Every operation is suitable when it runs. *)
Fixpoint pool_run_ok (G : nat → nat → ring) (ops : list pool_op) : Prop :=
  match ops with
  | [] => True
  | o :: ops => pool_op_ok Q mtu G o ∧ match spec_pool_step Q G o with Ok (G, _) => pool_run_ok G ops | Fault _ => True end
  end.

Lemma pool_run_spec ops : ∀ pool G, pool_implements Q mtu pool G → pool_run_ok G ops → pool_run pool ops = spec_pool_run G ops.
Proof.
  induction ops as [|o ops IH]; intros pool G HP HO; [done|]. destruct HO as [Ho HO]. cbn [pool_run spec_pool_run].
  pose proof (pool_step_spec Q mtu pool G o HP Ho) as HS. destruct (spec_pool_step Q G o) as [[G' x]|f]; cbn [mbind result_bind] in *; [|by rewrite HS].
  destruct HS as (pool' & -> & HP'). cbn [mbind result_bind]. by rewrite (IH pool' G').
Qed.

(** C25: a frame pool refines rings of frame windows, one ring per symbol and kind of
    message: for every sequence of reservations, fills, pushes, reads and clears of intervals,
    and removals of late frames in which frames are filled and pushed only by the holder of a
    reservation and the reservations of a ring number less than 2^32 buffers, the pool
    answers as the rings do: a reservation is refused exactly when the next window is in
    use, the frames read for an interval are the frames pushed for its symbols and not yet read
    or dropped, in the order they were pushed, unchanged but for padding to 64 octets, and
    a fill without an empty frame and a push over the capacity fail. *)
Theorem frame_pool_refines ops : (0 < Q)%nat → 0 <= mtu → Z.of_nat Q * 8 < 2 ^ 32 → pool_run_ok initial_rings ops →
  pool_run (eth_frame_pool.create mtu (Z.of_nat Q)) ops = spec_pool_run initial_rings ops.
Proof. intros HQ Hm Hb HO. apply pool_run_spec; [by apply pool_create_implements|done]. Qed.
End runs.

Module frame_pool_examples.
Import eth_frame_pool.

Definition point (count : Z) : slot_symbol_point.t := slot_symbol_point.mk 14 1 count.
Definition data_type : ofh_pool_message_type := mk_type user_plane downlink.
Definition data_context (count : Z) : frame_pool_context := mk_pool_context data_type (point count).
Definition content (x : Z) : list Z := replicate 70 x.

(** Two symbols are prepared, the second with two frames; an interval over both is read
    and cleared; a frame is prepared for the slot 20 slots later, which is a late one for the
    slot after that. *)
Definition session : list pool_op :=
  [Get (data_context 13); Fill (data_context 13) 0 (content 5) 66; Push (data_context 13) 0;
   Get (data_context 14); Fill (data_context 14) 0 (content 6) 66; Fill (data_context 14) 0 (content 7) 3; Push (data_context 14) 0;
   ReadInterval (mk_interval data_type (point 12) (point 14)); ClearInterval (mk_interval data_type (point 12) (point 14));
   Get (data_context 293); Fill (data_context 293) 1 (content 8) 65; Push (data_context 293) 1; ClearDownlink (slot_point.mk 1 40);
   ReadInterval (mk_interval data_type (point 573) (point 573))].

Definition answers : list answer :=
  [Granted (Some 0); Done; Done; Granted (Some 0); Done; Done; Done;
   Sent [replicate 66 5; replicate 66 6; replicate 3 7 ++ replicate 61 0]; Done; Granted (Some 2); Done; Done; Done; Sent []].

Lemma session_runs : spec_pool_run 2 initial_rings session = Ok answers.
Proof. vm_compute. reflexivity. Qed.

Lemma frame_pool_refines_witness : pool_run 2 (create 70 2) session = Ok answers.
Proof.
  rewrite <- session_runs. apply (frame_pool_refines 2 70 session); [lia|lia|lia|].
  vm_compute. repeat first [exact I | discriminate | split | eexists; reflexivity | intros [=]].
Defined.

(** The count of buffers wraps around at 2^32, which is not a multiple of the number of
    buffers: with three frames per symbol the window after the wrap-around starts in the middle
    of another, and the last of the array reaches beyond its end. *)
Definition wrapping (count : Z) : frame_buffer_array.t :=
  let a := frame_buffer_array.create 3 64 4 in
  frame_buffer_array.mk (frame_buffer_array.increment_quant a) (frame_buffer_array.storage_nof_buffers a)
    (frame_buffer_array.buffers_array a) (frame_buffer_array.used_buffers a) count.

Example counter_wraps :
  (∃ a, frame_buffer_array.reserve_buffers (wrapping (2 ^ 32 - 1)) = Ok (a, Some 15) ∧ frame_buffer_array.write_count a = 2) ∧
  frame_buffer_array.reserve_buffers (wrapping 23) = Fault OutOfBounds.
Proof. split; [eexists; split; vm_compute; reflexivity|vm_compute; reflexivity]. Qed.

End frame_pool_examples.
