(* ===== verification/TxSupport.v ===== *)
(** * TxSupport: fragments of a symbol, sequence identifiers and the transmission window

    Models lib/ofh/transmitter/ofh_uplane_fragment_size_calculator.cpp,
    sequence_identifier_generator.h, ofh_tx_window_checker.h and the helpers of helpers.h. *)

From S2P Require Import Prelude Float SlotPoint OfhBase OfhUplane BitBuffer.

(** ** Ceiling and floor of a floating-point number *)

Definition sf_floor (x : spec_float) : option Z :=
  match x with
  | S754_zero _ => Some 0
  | S754_finite s m e =>
      let v := if s then Zneg m else Zpos m in
      Some (if 0 <=? e then v * 2 ^ e else v / 2 ^ (- e))
  | _ => None
  end.
Definition sf_ceil (x : spec_float) : option Z := option_map Z.opp (sf_floor (SFopp x)).

(** Conversion to [unsigned] of a value without a fraction: undefined out of range. *)
Definition to_unsigned (x : option Z) : result Z :=
  match x with
  | Some z => assume (fitsb 32 z) SignedOverflow;; Ok z
  | None => Fault SignedOverflow
  end.

(** ** [ofh_uplane_fragment_size_calculator] *)
Module fragment_size_calculator.

Definition build_prb_data_size_lut_index (bitwidth : Z) : Z :=
  round_up_to_bytes (wrap 32 (bitwidth * NOF_SUBCARRIERS_PER_RB * 2)).

Definition prb_data_size : list Z := map build_prb_data_size_lut_index (seqZ 0 17).

Definition get_prb_data_size (compr_params : ru_compression_params) : result Z :=
  assume (data_width compr_params <? zlen prb_data_size) AssertFailed;;
  size ← vec_at prb_data_size (data_width compr_params);
  Ok (match compr_type compr_params with none | modulation => size | _ => wrap 32 (size + 1) end).

Record t : Type := mk { start_prb : Z; nof_prbs : Z; prb_size : Z; next_fragment_start_prb_index : Z }.

Definition create (start_prb_ nof_prbs_ : Z) (compr_params : ru_compression_params) : result t :=
  size ← get_prb_data_size compr_params;
  Ok (mk start_prb_ nof_prbs_ size start_prb_).

Definition with_next (c : t) (next : Z) : t := mk (start_prb c) (nof_prbs c) (prb_size c) next.

(** First block, number of blocks, and whether it is the last fragment. *)
Definition calculate_fragment_size (c : t) (frame_size : Z) : result (t * (Z * Z * bool)) :=
  if frame_size <? prb_size c then Ok (c, (next_fragment_start_prb_index c, 0, false)) else
  assume (negb (prb_size c =? 0)) DivByZero;;
  let nof_prbs_fit_in_frame := frame_size / prb_size c in
  let fragment_start_prb := next_fragment_start_prb_index c in
  let remaining_prbs := wrap 32 (nof_prbs c - wrap 32 (next_fragment_start_prb_index c - start_prb c)) in
  if remaining_prbs <=? nof_prbs_fit_in_frame then
    Ok (with_next c (wrap 32 (next_fragment_start_prb_index c + remaining_prbs)), (fragment_start_prb, remaining_prbs, true))
  else
    Ok (with_next c (wrap 32 (next_fragment_start_prb_index c + nof_prbs_fit_in_frame)), (fragment_start_prb, nof_prbs_fit_in_frame, false)).

(** The quotient is rounded up in single precision. *)
Definition calculate_nof_segments (frame_size nof_prbs : Z) (compr_params : ru_compression_params) (headers_size : Z) : result Z :=
  prb_size ← get_prb_data_size compr_params;
  let frame_size_data := wrap 32 (frame_size - headers_size) in
  assume (negb (prb_size =? 0)) DivByZero;;
  let nof_prbs_fit_in_frame := frame_size_data / prb_size in
  to_unsigned (sf_ceil (f32_div (f32_of_Z nof_prbs) (f32_of_Z nof_prbs_fit_in_frame))).

(** *** What the calculator computes *)

(** [n] blocks in pieces of [k]. *)
Definition nof_fragments (k n : Z) : Z := (n + k - 1) / k.
Definition fragment (k n j : Z) : Z * Z := (j * k, Z.min k (n - j * k)).
Definition fragments (k n : Z) : list (Z * Z) := map (fragment k n) (seqZ 0 (nof_fragments k n)).

Lemma prb_data_size_spec c : 0 <= data_width c <= 16 →
  get_prb_data_size c = Ok (3 * data_width c + match compr_type c with none | modulation => 0 | _ => 1 end).
Proof.
  intros Hw. unfold get_prb_data_size. change (zlen prb_data_size) with 17. pass_assume. cbn [mbind result_bind].
  assert (HV : vec_at prb_data_size (data_width c) = Ok (3 * data_width c)).
  { assert (data_width c ∈ seqZ 0 17) as Hin by (apply elem_of_seqZ; lia). generalize dependent (data_width c). intros w _ Hin.
    assert (HF : Forall (λ w, vec_at prb_data_size w = Ok (3 * w)) (seqZ 0 17)) by (vm_compute; repeat constructor).
    rewrite Forall_forall in HF. by apply HF. }
  rewrite HV. cbn [mbind result_bind]. destruct (compr_type c); try (rewrite wrap_small by lia_fits); do 2 f_equal; lia.
Qed.

(** The size is that of the builder, except for the method without an implementation whose
    parameter the builder leaves out. *)
Lemma prb_data_size_compressed c : 0 <= data_width c <= 16 → compr_type c ≠ block_scaling → compr_type c ≠ reserved →
  get_prb_data_size c = Ok (get_compressed_prb_size c).
Proof.
  intros Hw H1 H2. rewrite prb_data_size_spec by done. rewrite uplane.prb_size_value by done. f_equal. destruct (compr_type c); simpl; done || lia.
Qed.

(** A call in the middle of a range. *)
Lemma calculate_step n size frame_size j : 0 < size → 0 <= n < 2 ^ 31 → size <= frame_size < 2 ^ 32 →
  let k := frame_size / size in 0 <= j → j * k <= n →
  calculate_fragment_size (mk 0 n size (j * k)) frame_size =
    let last := n - j * k <=? k in
    Ok (mk 0 n size (if last then n else (j + 1) * k), (fragment k n j, last)).
Proof.
  intros Hs Hn Hf k Hj Hjk. assert (Hk : 1 <= k) by (apply Z.div_le_lower_bound; lia). assert (Hk' : k < 2 ^ 32) by (apply Z.div_lt_upper_bound; nia).
  unfold calculate_fragment_size. cbn [prb_size start_prb nof_prbs next_fragment_start_prb_index]. rewrite (proj2 (Z.ltb_ge _ _)) by lia. pass_assume. fold k.
  rewrite Z.sub_0_r. rewrite (wrap_small 32 (j * k)) by lia_fits. rewrite (wrap_small 32 (n - j * k)) by lia_fits. unfold with_next, fragment. cbn [prb_size start_prb nof_prbs].
  destruct (Z.leb_spec (n - j * k) k).
  - rewrite (wrap_small 32) by lia_fits. rewrite Z.min_r by lia. do 3 f_equal; lia.
  - rewrite (wrap_small 32) by (unfold_fits; nia). rewrite Z.min_l by lia. do 3 f_equal; lia.
Qed.

Lemma nof_fragments_step k n j : 0 < k → 0 < n → 0 <= j → j * k < n →
  (n - j * k <=? k) = (nof_fragments k n =? j + 1) ∧ j < nof_fragments k n.
Proof.
  intros Hk Hn Hj Hjk. unfold nof_fragments. pose proof (Z.div_mod (n + k - 1) k ltac:(lia)) as HD. pose proof (Z.mod_pos_bound (n + k - 1) k Hk).
  set (f := (n + k - 1) / k) in *. split; [|nia].
  destruct (Z.leb_spec (n - j * k) k); symmetry; [apply Z.eqb_eq|apply Z.eqb_neq]; nia.
Qed.

Lemma length_fragments k n : 0 < k → 0 < n → Z.of_nat (length (fragments k n)) = nof_fragments k n ∧ 0 < nof_fragments k n <= n.
Proof.
  intros Hk Hn. unfold fragments. rewrite length_map, length_seqZ. pose proof (Z.div_mod (n + k - 1) k ltac:(lia)) as HD.
  pose proof (Z.mod_pos_bound (n + k - 1) k Hk). unfold nof_fragments in *. nia.
Qed.

(** The fragments are consecutive and cover the blocks. *)
Lemma fragments_cover k n {A} (b : Z) (l : list A) : 0 < k → 0 < n → 0 < b → zlen l = n * b →
  concat (map (λ f, take (Z.to_nat (f.2 * b)) (drop (Z.to_nat (f.1 * b)) l)) (fragments k n)) = l.
Proof.
  intros Hk Hn Hb Hl.
  assert (HP : ∀ m : nat, Z.of_nat m <= nof_fragments k n →
    concat (map (λ f, take (Z.to_nat (f.2 * b)) (drop (Z.to_nat (f.1 * b)) l)) (map (fragment k n) (seqZ 0 (Z.of_nat m)))) = take (Z.to_nat (Z.of_nat m * k * b)) l).
  { induction m as [|m IH]; intros Hm; [done|]. assert (Hlt : Z.of_nat m * k < n).
    { pose proof (Z.div_mod (n + k - 1) k ltac:(lia)). pose proof (Z.mod_pos_bound (n + k - 1) k Hk). unfold nof_fragments in Hm. nia. }
    replace (Z.of_nat (S m)) with (Z.of_nat m + 1) by lia. rewrite seqZ_app by lia. rewrite !map_app, concat_app, IH by lia. rewrite Z.add_0_l.
    change (map ?f (seqZ ?i 1)) with [f i]. cbn [map concat fragment fst snd]. rewrite app_nil_r.
    destruct (Z.le_gt_cases k (n - Z.of_nat m * k)) as [Hc|Hc].
    - rewrite Z.min_l by lia. replace (Z.to_nat ((Z.of_nat m + 1) * k * b)) with (Z.to_nat (Z.of_nat m * k * b) + Z.to_nat (k * b))%nat by nia. by rewrite take_take_drop.
    - rewrite Z.min_r by lia. rewrite (take_ge (drop _ _)) by (rewrite length_drop; unfold zlen in Hl; nia). rewrite take_drop. symmetry. apply take_ge. unfold zlen in Hl. nia. }
  destruct (length_fragments k n Hk Hn) as [_ HL]. specialize (HP (Z.to_nat (nof_fragments k n))). rewrite Z2Nat.id in HP by lia. unfold fragments. rewrite HP by lia.
  apply take_ge. pose proof (Z.div_mod (n + k - 1) k ltac:(lia)). pose proof (Z.mod_pos_bound (n + k - 1) k Hk). unfold nof_fragments, zlen in *. nia.
Qed.
End fragment_size_calculator.

(** ** The bandwidth in blocks ([get_max_Nprb]) *)

Inductive frequency_range : Type := FR1 | FR2.

(** [None] is the maximum of [size_t]. *)
Definition channel_bw_mhz_to_index_fr1 (dl_bw_mhz : Z) : option nat :=
  fst <$> list_find (λ x, x = dl_bw_mhz) [5; 10; 15; 20; 25; 30; 40; 50; 60; 70; 80; 90; 100].
Definition channel_bw_mhz_to_index_fr2 (dl_bw_mhz : Z) : option nat :=
  fst <$> list_find (λ x, x = dl_bw_mhz) [50; 100; 200; 400].

Definition rb_table_fr1 : list (list Z) :=
  [[25; 11; 0]; [52; 24; 11]; [79; 38; 18]; [106; 51; 24]; [133; 65; 31]; [160; 78; 38]; [216; 106; 51]; [270; 133; 65];
   [0; 162; 79]; [0; 189; 93]; [0; 217; 107]; [0; 245; 121]; [0; 273; 135]].
Definition rb_table_fr2 : list (list Z) := [[66; 32]; [132; 66]; [264; 132]; [0; 264]].

Definition get_max_Nprb (dl_bw_mhz : Z) (scs : subcarrier_spacing) (fr : frequency_range) : result Z :=
  match fr with
  | FR1 => match channel_bw_mhz_to_index_fr1 dl_bw_mhz with
           | None => Ok 0
           | Some bw_idx => row ← vec_at rb_table_fr1 (Z.of_nat bw_idx); vec_at row (to_numerology_value scs)
           end
  | FR2 => match channel_bw_mhz_to_index_fr2 dl_bw_mhz with
           | None => Ok 0
           | Some bw_idx => row ← vec_at rb_table_fr2 (Z.of_nat bw_idx);
                            vec_at row (wrap 32 (to_numerology_value scs - to_numerology_value kHz60))
           end
  end.

Definition fr1_widths : list Z :=
  [25; 52; 79; 106; 133; 160; 216; 270; 11; 24; 38; 51; 65; 78; 162; 189; 217; 245; 273; 18; 31; 93; 107; 121; 135].

Lemma fr1_width bw scs n : get_max_Nprb bw scs FR1 = Ok n → n ≠ 0 → n ∈ fr1_widths.
Proof.
  unfold get_max_Nprb. destruct (channel_bw_mhz_to_index_fr1 bw) as [i|]; [|by intros [= <-]]. intros (row & Hrow & Hn)%bind_Ok Hnz.
  apply vec_at_nat, list_elem_of_lookup_2 in Hrow. apply vec_at_lookup_eq in Hn as [Hn _]. apply list_elem_of_lookup_2 in Hn.
  assert (HF : Forall (Forall (λ n, n ≠ 0 → n ∈ fr1_widths)) rb_table_fr1) by (apply (bool_decide_eq_true_1 _); vm_compute; reflexivity).
  rewrite Forall_forall in HF. specialize (HF _ Hrow). rewrite Forall_forall in HF. by apply HF.
Qed.

(** ** The number of segments *)

(** Single precision rounds the quotient of such small numbers to one with the same
    ceiling. *)
Definition ceil_exact (fk : spec_float) (k : Z) (n : Z * spec_float) : bool :=
  match sf_ceil (f32_div n.2 fk) with Some z => z =? fragment_size_calculator.nof_fragments k n.1 | None => false end.
Definition width_floats : list (Z * spec_float) := map (λ n, (n, f32_of_Z n)) fr1_widths.

Lemma ceil_exact_all : forallb (λ k, let fk := f32_of_Z k in forallb (ceil_exact fk k) width_floats) (seqZ 1 400) = true.
Proof. vm_compute. reflexivity. Qed.

Lemma float_ceil n k : n ∈ fr1_widths → 0 < k <= 400 →
  sf_ceil (f32_div (f32_of_Z n) (f32_of_Z k)) = Some (fragment_size_calculator.nof_fragments k n).
Proof.
  intros Hn Hk. pose proof ceil_exact_all as HA. rewrite forallb_forall in HA.
  specialize (HA k (proj1 (list_elem_of_In _ _) (proj2 (elem_of_seqZ 1 400 k) ltac:(lia)))). rewrite forallb_forall in HA.
  specialize (HA (n, f32_of_Z n) (in_map (λ n, (n, f32_of_Z n)) _ _ (proj1 (list_elem_of_In _ _) Hn))). unfold ceil_exact in HA. cbn [fst snd] in HA.
  destruct (sf_ceil _); [|done]. f_equal. by apply Z.eqb_eq.
Qed.

Lemma fr1_widths_range n : n ∈ fr1_widths → 0 < n <= 275.
Proof.
  intros Hn. assert (HF : Forall (λ n, 0 < n <= 275) fr1_widths) by (apply (bool_decide_eq_true_1 _); vm_compute; reflexivity). rewrite Forall_forall in HF. by apply HF.
Qed.

Module fragment_count.
Import fragment_size_calculator.

Lemma nof_segments_spec mtu n c h : 8 <= data_width c <= 16 → n ∈ fr1_widths → 0 <= h → mtu <= 9600 →
  let size := 3 * data_width c + match compr_type c with none | modulation => 0 | _ => 1 end in
  h + size <= mtu →
  calculate_nof_segments mtu n c h = Ok (nof_fragments ((mtu - h) / size) n).
Proof.
  intros Hw Hin Hh Hm size Hfit. pose proof (fr1_widths_range n Hin) as Hn. assert (Hs : 24 <= size) by (unfold size; case_match; lia).
  unfold calculate_nof_segments. rewrite prb_data_size_spec by lia. fold size. cbn [mbind result_bind]. rewrite (wrap_small 32) by lia_fits. pass_assume.
  assert (Hk : 0 < (mtu - h) / size <= 400).
  { split; [apply Z.div_str_pos; lia|]. assert ((mtu - h) / size <= 9600 / 24); [|done]. etransitivity; [apply Z.div_le_mono; [lia|]|apply Z.div_le_compat_l; lia]. lia. }
  rewrite float_ceil by done. unfold to_unsigned. destruct (length_fragments ((mtu - h) / size) n) as [_ HL]; [lia|lia|].
  rewrite (proj2 (fitsb_spec 32 _)) by lia_fits. done.
Qed.
End fragment_count.

(** ** [sequence_identifier_generator] *)
Module sequence_identifier_generator.

Definition MAX_SUPPORTED_EAXC_ID_VALUE : Z := 32.

(** One counter of eight bits per eAxC. *)
Definition create (init_value : Z) : list Z := replicate (Z.to_nat MAX_SUPPORTED_EAXC_ID_VALUE) (wrap 8 init_value).

Definition generate (counters : list Z) (eaxc : Z) : result (list Z * Z) :=
  assume (eaxc <? MAX_SUPPORTED_EAXC_ID_VALUE) AssertFailed;;
  value ← vec_at counters eaxc;
  Ok (<[Z.to_nat eaxc := wrap 8 (value + 1)]> counters, value).

Definition wf (counters : list Z) : Prop := zlen counters = MAX_SUPPORTED_EAXC_ID_VALUE ∧ bytes_ok counters.

(** The counter of an eAxC after [n] more identifiers. *)
Definition next (counters : list Z) (eaxc : Z) : Z := nth (Z.to_nat eaxc) counters 0.
Definition advance (counters : list Z) (eaxc n : Z) : list Z := <[Z.to_nat eaxc := wrap 8 (next counters eaxc + n)]> counters.

Lemma counters_wf : wf (create 0).
Proof. split; [done|]. by apply Forall_replicate. Qed.

Lemma generate_spec counters eaxc : wf counters → 0 <= eaxc < 32 →
  generate counters eaxc = Ok (advance counters eaxc 1, next counters eaxc) ∧ u8 (next counters eaxc) ∧
  wf (advance counters eaxc 1).
Proof.
  intros [Hl Hb] He. unfold MAX_SUPPORTED_EAXC_ID_VALUE in *. unfold generate, advance, next, MAX_SUPPORTED_EAXC_ID_VALUE. pass_assume.
  destruct (vec_at_ok counters eaxc) as (v & -> & Hv); [lia|]. cbn [mbind result_bind]. rewrite (nth_lookup_Some _ _ 0 _ Hv). split; [done|].
  split; [by apply (Forall_lookup_1 _ _ _ _ Hb Hv)|]. split; [unfold zlen; by rewrite length_insert|].
  apply Forall_insert; [done|]. apply wrap_fits. lia.
Qed.

Lemma advance_wf counters eaxc n : wf counters → wf (advance counters eaxc n).
Proof. intros [Hl Hb]. split; [unfold advance, zlen; by rewrite length_insert|]. apply Forall_insert; [done|]. apply wrap_fits. lia. Qed.

Lemma advance_next counters eaxc n : wf counters → 0 <= eaxc < 32 → next (advance counters eaxc n) eaxc = wrap 8 (next counters eaxc + n).
Proof.
  intros [Hl _] He. unfold next at 1, advance. apply nth_lookup_Some. apply list_lookup_insert_eq. unfold zlen, MAX_SUPPORTED_EAXC_ID_VALUE in Hl. lia.
Qed.

Lemma advance_other counters eaxc eaxc' n : 0 <= eaxc → 0 <= eaxc' → eaxc ≠ eaxc' → next (advance counters eaxc n) eaxc' = next counters eaxc'.
Proof. intros. unfold next, advance. rewrite !nth_lookup. by rewrite list_lookup_insert_ne by lia. Qed.

Lemma advance_zero counters eaxc : wf counters → 0 <= eaxc < 32 → advance counters eaxc 0 = counters.
Proof.
  intros Hw He. destruct (generate_spec counters eaxc Hw He) as (_ & Hu & _). unfold advance. rewrite Z.add_0_r, (wrap_small 8) by exact Hu.
  apply list_insert_id. unfold next. destruct Hw as [Hlen _]. unfold zlen, MAX_SUPPORTED_EAXC_ID_VALUE in Hlen.
  destruct (lookup_lt_is_Some_2 counters (Z.to_nat eaxc)) as [x Hx]; [lia|]. by rewrite (nth_lookup_Some _ _ 0 _ Hx).
Qed.

Lemma advance_add counters eaxc n m : wf counters → 0 <= eaxc < 32 →
  advance (advance counters eaxc n) eaxc m = advance counters eaxc (n + m).
Proof.
  intros Hw He. unfold advance at 1. rewrite advance_next by done. unfold advance. rewrite list_insert_insert_eq. f_equal.
  unfold wrap. rewrite Zplus_mod_idemp_l. f_equal. lia.
Qed.
End sequence_identifier_generator.

(** ** [tx_window_checker] *)
Module tx_window_checker.

(** [count_val] has no initial value. *)
Record t : Type := mk { advance_time_in_symbols : Z; nof_symbols : Z; numerology : Z; count_val : Z }.

Definition on_new_symbol (w : t) (symbol_point : slot_symbol_point.t) : t :=
  mk (advance_time_in_symbols w) (nof_symbols w) (numerology w) (slot_symbol_point.to_uint symbol_point).

Definition is_late (w : t) (slot : slot_point.t) : result bool :=
  ota_symbol_point ← slot_symbol_point.of_count (numerology w) (count_val w) (nof_symbols w);
  rg_point ← slot_symbol_point.of_slot slot 0 (nof_symbols w);
  rg_point ← slot_symbol_point.sub rg_point (swrap 32 (advance_time_in_symbols w));
  early ← slot_symbol_point.ltb ota_symbol_point rg_point;
  Ok (negb early).

(** A checker that has seen a symbol of its numerology. *)
Definition wf (w : t) : Prop :=
  0 < nof_symbols w < 16 ∧ 0 <= numerology w < 5 ∧ 0 <= advance_time_in_symbols w < 2 ^ 30 ∧
  0 <= count_val w < 10240 * 2 ^ numerology w * nof_symbols w.

(** The symbols left from the current one until the last moment for the slot, modulo the
    system frame. *)
Definition time_left (w : t) (slot : slot_point.t) : Z :=
  (slot_point.count_val slot * nof_symbols w - advance_time_in_symbols w - count_val w) mod (10240 * 2 ^ numerology w * nof_symbols w).

Lemma is_late_spec w slot : wf w → slot_point.wf slot → slot_point.numerology slot = numerology w →
  is_late w slot = Ok (negb (bool_decide (0 < time_left w slot < 10240 * 2 ^ numerology w * nof_symbols w / 2))).
Proof.
  intros (Hn & Hm & Ha & Hc) Hs He. unfold is_late.
  set (ota := slot_symbol_point.mk (nof_symbols w) (numerology w) (count_val w)).
  assert (Hota : slot_symbol_point.wf ota) by done.
  assert (HO : slot_symbol_point.of_count (numerology w) (count_val w) (nof_symbols w) = Ok ota).
  { destruct (slot_symbol_point.period_range ota Hn Hm) as (_ & _ & HP). unfold slot_symbol_point.period in HP. cbn in HP.
    unfold slot_symbol_point.of_count, NOF_NUMEROLOGIES. rewrite (wrap_small 4), (wrap_small 3), (wrap_small 25) by lia_fits. cbn [slot_symbol_point.numerology].
    pass_assume. done. }
  rewrite HO. cbn [mbind result_bind].
  destruct (slot_symbol_point.symbol_of_slot_spec slot 0 (nof_symbols w) Hs Hn ltac:(lia)) as (HP & Hwp & _). cbn zeta in *. rewrite HP. cbn [mbind result_bind].
  unfold slot_symbol_point.sub. rewrite swrap_small by (unfold_fits; lia). rewrite sadd_Ok by (unfold_fits; lia). cbn [mbind result_bind].
  rewrite slot_symbol_point.symbol_add_spec by (done || lia). cbn [mbind result_bind].
  rewrite slot_symbol_point.symbol_ltb_spec; [|done|by apply slot_symbol_point.symbol_add_wf|cbn; by rewrite <- He|done]. cbn [mbind result_bind].
  do 2 f_equal. unfold time_left, slot_symbol_point.period. cbn [slot_symbol_point.numerology slot_symbol_point.nof_symbols slot_symbol_point.count_val ota].
  unfold slot_point.numerology in He. rewrite He, Zminus_mod_idemp_l. apply bool_decide_ext. by replace (slot_point.count_val slot * nof_symbols w + 0 + (0 + - advance_time_in_symbols w) - count_val w)
    with (slot_point.count_val slot * nof_symbols w - advance_time_in_symbols w - count_val w) by lia.
Qed.
End tx_window_checker.

(** The transmission window in symbols. *)
Record tx_window_timing_parameters : Type := mk_timing {
  sym_cp_dl_start : Z; sym_cp_dl_end : Z; sym_cp_ul_start : Z; sym_cp_ul_end : Z; sym_up_dl_start : Z; sym_up_dl_end : Z }.

Definition get_biggest_min_tx_parameter (p : tx_window_timing_parameters) : Z :=
  Z.max (Z.max (sym_cp_dl_end p) (sym_cp_ul_end p)) (sym_up_dl_end p).

(** The processing time is a number of microseconds; the quotient of the durations is taken
    in double precision, in nanoseconds. *)
Definition calculate_nof_symbols_before_ota (nof_symbols numerology dl_processing_time : Z) (p : tx_window_timing_parameters) : result Z :=
  let symbol_duration_ns := f64_div (f64_of_Z 1000000) (f64_of_Z (wrap 32 (nof_symbols * get_nof_slots_per_subframe numerology))) in
  let processing_ns := f64_mul (f64_of_Z dl_processing_time) (f64_of_Z 1000) in
  dl_processing_time_in_symbols ← to_unsigned (sf_floor (f64_div processing_ns symbol_duration_ns));
  Ok (wrap 32 (dl_processing_time_in_symbols + get_biggest_min_tx_parameter p)).
