(* ===== verification/Tdd.v ===== *)
(** * Tdd: which symbols of a slot are downlink and which are uplink

    Models include/srsran/ran/tdd/tdd_ul_dl_config.h and lib/ran/tdd_ul_dl_config.cpp, which the
    fronthaul handlers ask for the symbols to request, and of include/srsran/adt/interval.h and
    cyclic_prefix.h what they use.  The specification is that of TS 38.213, clause 11.1: of the
    symbols of a pattern, in order, the first ones are downlink and the last ones uplink. *)

From S2P Require Import Prelude SlotPoint.

(** The range of symbols, stop excluded: [interval<uint8_t>]. *)
Record ofdm_symbol_range : Type := mk_range { range_start : Z; range_stop : Z }.
Definition range_length (r : ofdm_symbol_range) : Z := wrap 32 (range_stop r - range_start r).
(** The constructor: the bounds are narrowed before they are compared. *)
Definition range_make (start_point stop_point : Z) : result ofdm_symbol_range :=
  let r := mk_range (wrap 8 start_point) (wrap 8 stop_point) in
  assume (range_start r <=? range_stop r) AssertFailed;; Ok r.
Definition range_default : ofdm_symbol_range := mk_range 0 0.

Inductive cyclic_prefix : Type := NORMAL | EXTENDED.
Definition get_nsymb_per_slot (cp : cyclic_prefix) : Z := match cp with EXTENDED => 12 | NORMAL => 14 end.

Module tdd.

Record tdd_ul_dl_pattern : Type := mk_pattern {
  dl_ul_tx_period_nof_slots : Z; nof_dl_slots : Z; nof_dl_symbols : Z; nof_ul_slots : Z; nof_ul_symbols : Z }.
Record tdd_ul_dl_config_common : Type := mk_tdd { ref_scs : subcarrier_spacing; pattern1 : tdd_ul_dl_pattern; pattern2 : option tdd_ul_dl_pattern }.

Definition nof_slots_per_tdd_period (cfg : tdd_ul_dl_config_common) : Z :=
  wrap 32 (dl_ul_tx_period_nof_slots (pattern1 cfg) + from_option dl_ul_tx_period_nof_slots 0 (pattern2 cfg)).
Definition nof_full_dl_slots_per_tdd_period (cfg : tdd_ul_dl_config_common) : Z :=
  wrap 32 (nof_dl_slots (pattern1 cfg) + from_option nof_dl_slots 0 (pattern2 cfg)).
Definition nof_full_ul_slots_per_tdd_period (cfg : tdd_ul_dl_config_common) : Z :=
  wrap 32 (nof_ul_slots (pattern1 cfg) + from_option nof_ul_slots 0 (pattern2 cfg)).

Definition nof_active_symbols (cfg : tdd_ul_dl_config_common) (slot_index : Z) (cp : cyclic_prefix) (is_dl : bool) : result Z :=
  let period_slots := nof_slots_per_tdd_period cfg in
  assume (negb (period_slots =? 0)) DivByZero;;
  let slot_idx_period := slot_index mod period_slots in
  '(pattern, slot_idx_period) ←
    (if dl_ul_tx_period_nof_slots (pattern1 cfg) <=? slot_idx_period then
       match pattern2 cfg with
       | Some p => Ok (p, wrap 32 (slot_idx_period - dl_ul_tx_period_nof_slots (pattern1 cfg)))
       | None => Fault BadOptionalAccess
       end
     else Ok (pattern1 cfg, slot_idx_period));
  if is_dl then
    Ok (if slot_idx_period <? nof_dl_slots pattern then get_nsymb_per_slot cp
        else if slot_idx_period =? nof_dl_slots pattern then nof_dl_symbols pattern else 0)
  else
    let ul_pattern_start := wrap 32 (dl_ul_tx_period_nof_slots pattern - nof_ul_slots pattern) in
    Ok (if ul_pattern_start <=? slot_idx_period then get_nsymb_per_slot cp
        else if slot_idx_period =? wrap 32 (ul_pattern_start - 1) then nof_ul_symbols pattern else 0).

Definition has_active_tdd_dl_symbols (cfg : tdd_ul_dl_config_common) (slot_index : Z) : result bool :=
  n ← nof_active_symbols cfg slot_index NORMAL true; Ok (0 <? n).
Definition has_active_tdd_ul_symbols (cfg : tdd_ul_dl_config_common) (slot_index : Z) : result bool :=
  n ← nof_active_symbols cfg slot_index NORMAL false; Ok (0 <? n).
Definition is_tdd_full_dl_slot (cfg : tdd_ul_dl_config_common) (slot_index : Z) : result bool :=
  n ← nof_active_symbols cfg slot_index NORMAL true; Ok (n =? 14).
Definition is_tdd_full_ul_slot (cfg : tdd_ul_dl_config_common) (slot_index : Z) : result bool :=
  n ← nof_active_symbols cfg slot_index NORMAL false; Ok (n =? 14).
Definition is_tdd_partial_ul_slot (cfg : tdd_ul_dl_config_common) (slot_index : Z) : result bool :=
  nof_symbols ← nof_active_symbols cfg slot_index NORMAL false; Ok (negb (nof_symbols =? 0) && negb (nof_symbols =? 14)).

Definition get_active_tdd_dl_symbols (cfg : tdd_ul_dl_config_common) (slot_index : Z) (cp : cyclic_prefix) : result ofdm_symbol_range :=
  nof_symbols ← nof_active_symbols cfg slot_index cp true; range_make 0 nof_symbols.
Definition get_active_tdd_ul_symbols (cfg : tdd_ul_dl_config_common) (slot_index : Z) (cp : cyclic_prefix) : result ofdm_symbol_range :=
  nof_symbols ← nof_active_symbols cfg slot_index cp false;
  let symbols_per_slot := get_nsymb_per_slot cp in
  if 0 <? nof_symbols then range_make (wrap 32 (symbols_per_slot - nof_symbols)) symbols_per_slot else Ok range_default.

(** The loop of the four searches: the first slot from [i] on that passes the test. *)
Fixpoint find_slot (n : nat) (i : Z) (test : Z → result bool) : result (option Z) :=
  match n with
  | O => Ok None
  | S n => b ← test i; if (b : bool) then Ok (Some i) else find_slot n (i + 1) test
  end.
Definition find_next (cfg : tdd_ul_dl_config_common) (start_slot_index : Z) (test : Z → result bool) : result (option Z) :=
  find_slot (Z.to_nat (nof_slots_per_tdd_period cfg - start_slot_index)) start_slot_index test.
Definition find_next_tdd_dl_slot (cfg : tdd_ul_dl_config_common) (start_slot_index : Z) : result (option Z) :=
  find_next cfg start_slot_index (has_active_tdd_dl_symbols cfg).
Definition find_next_tdd_full_dl_slot (cfg : tdd_ul_dl_config_common) (start_slot_index : Z) : result (option Z) :=
  find_next cfg start_slot_index (λ i, r ← get_active_tdd_dl_symbols cfg i NORMAL; Ok (range_length r =? 14)).
Definition find_next_tdd_ul_slot (cfg : tdd_ul_dl_config_common) (start_slot_index : Z) : result (option Z) :=
  find_next cfg start_slot_index (has_active_tdd_ul_symbols cfg).
Definition find_next_tdd_full_ul_slot (cfg : tdd_ul_dl_config_common) (start_slot_index : Z) : result (option Z) :=
  find_next cfg start_slot_index (λ i, r ← get_active_tdd_ul_symbols cfg i NORMAL; Ok (range_length r =? 14)).

(** ** The patterns of TS 38.213 *)
Section patterns.
Context (cp : cyclic_prefix).
Let n : Z := get_nsymb_per_slot cp.

(** The downlink and the uplink part of a pattern do not overlap. *)
Definition pattern_ok (p : tdd_ul_dl_pattern) : Prop :=
  0 < dl_ul_tx_period_nof_slots p <= 320 ∧ 0 <= nof_dl_slots p ∧ 0 <= nof_dl_symbols p < n ∧ 0 <= nof_ul_slots p ∧ 0 <= nof_ul_symbols p < n ∧
  n * nof_dl_slots p + nof_dl_symbols p + n * nof_ul_slots p + nof_ul_symbols p <= n * dl_ul_tx_period_nof_slots p.
Definition tdd_ok (cfg : tdd_ul_dl_config_common) : Prop := pattern_ok (pattern1 cfg) ∧ from_option pattern_ok True (pattern2 cfg).

(** The pattern a slot falls into, and its index there: the patterns alternate for ever. *)
Definition period (cfg : tdd_ul_dl_config_common) : Z := dl_ul_tx_period_nof_slots (pattern1 cfg) + from_option dl_ul_tx_period_nof_slots 0 (pattern2 cfg).
Definition pattern_of (cfg : tdd_ul_dl_config_common) (slot : Z) : tdd_ul_dl_pattern * Z :=
  let i := slot mod period cfg in
  if i <? dl_ul_tx_period_nof_slots (pattern1 cfg) then (pattern1 cfg, i)
  else (default (pattern1 cfg) (pattern2 cfg), i - dl_ul_tx_period_nof_slots (pattern1 cfg)).

(** A symbol by its number within the pattern. *)
Definition downlink_symbol (cfg : tdd_ul_dl_config_common) (slot symbol : Z) : Prop :=
  let '(p, i) := pattern_of cfg slot in n * i + symbol < n * nof_dl_slots p + nof_dl_symbols p.
Definition uplink_symbol (cfg : tdd_ul_dl_config_common) (slot symbol : Z) : Prop :=
  let '(p, i) := pattern_of cfg slot in n * dl_ul_tx_period_nof_slots p - (n * nof_ul_slots p + nof_ul_symbols p) <= n * i + symbol.
Definition in_range (r : ofdm_symbol_range) (symbol : Z) : Prop := range_start r <= symbol < range_stop r.

Definition dl_count (p : tdd_ul_dl_pattern) (i : Z) : Z := if i <? nof_dl_slots p then n else if i =? nof_dl_slots p then nof_dl_symbols p else 0.
Definition ul_count (p : tdd_ul_dl_pattern) (i : Z) : Z :=
  let s := dl_ul_tx_period_nof_slots p - nof_ul_slots p in if s <=? i then n else if i =? s - 1 then nof_ul_symbols p else 0.

Lemma n_range : 12 <= n <= 14.
Proof. unfold n. destruct cp; cbn; lia. Qed.

Lemma parts_fit p : pattern_ok p → nof_dl_slots p <= dl_ul_tx_period_nof_slots p ∧ nof_ul_slots p <= dl_ul_tx_period_nof_slots p.
Proof. intros (Hp & Hd & Hds & Hu & Hus & Hsum). pose proof n_range as Hn. clearbody n. split; nia. Qed.

Lemma pattern_of_ok cfg slot : tdd_ok cfg → 0 <= slot → let '(p, i) := pattern_of cfg slot in pattern_ok p ∧ 0 <= i < dl_ul_tx_period_nof_slots p.
Proof.
  intros [H1 H2] Hs. unfold pattern_of, period. pose proof H1 as (Hp & _). destruct (pattern2 cfg) as [p2|]; cbn [from_option id] in *.
  - pose proof H2 as (Hp2 & _). pose proof (Z.mod_pos_bound slot (dl_ul_tx_period_nof_slots (pattern1 cfg) + dl_ul_tx_period_nof_slots p2) ltac:(lia)). case_Z; (split; [done|lia]).
  - rewrite Z.add_0_r. pose proof (Z.mod_pos_bound slot (dl_ul_tx_period_nof_slots (pattern1 cfg)) ltac:(lia)). case_Z; (split; [done|lia]).
Qed.

Lemma active_symbols cfg slot is_dl : tdd_ok cfg → 0 <= slot →
  nof_active_symbols cfg slot cp is_dl = Ok (let '(p, i) := pattern_of cfg slot in (if is_dl then dl_count else ul_count) p i).
Proof.
  intros HC Hs. pose proof (pattern_of_ok cfg slot HC Hs) as HP. destruct HC as [(Hp1 & _) H2]. unfold nof_active_symbols, nof_slots_per_tdd_period, pattern_of in *. fold (period cfg).
  assert (HR : 0 < period cfg <= 640).
  { unfold period. destruct (pattern2 cfg) as [p2|]; cbn in *; [destruct H2 as (? & _)|]; lia. }
  rewrite (wrap_small 32 (period cfg)) by lia_fits. pass_assume. pose proof (Z.mod_pos_bound slot (period cfg) ltac:(lia)) as Hm. set (j := slot mod period cfg) in *.
  pose proof n_range as Hn. destruct (Z.ltb_spec j (dl_ul_tx_period_nof_slots (pattern1 cfg))) as [Hlt|Hge]; [rewrite (proj2 (Z.leb_gt _ _)) by lia|rewrite (proj2 (Z.leb_le _ _)) by lia].
  2: destruct (pattern2 cfg) as [p2|] eqn:E2; [|unfold period in Hm; rewrite E2 in Hm; cbn in Hm; lia].
  all: cbn [mbind result_bind default from_option id] in *; destruct HP as [HP Hi]; destruct (parts_fit _ HP) as [_ Hfit]; destruct HP as (Hq & Hd & _ & Hu & _).
  2: rewrite (wrap_small 32) by lia_fits.
  all: destruct is_dl; [done|]; unfold ul_count; cbn zeta; rewrite (wrap_small 32 (_ - nof_ul_slots _)) by lia_fits.
  all: match goal with |- Ok (if ?s <=? ?i then _ else _) = _ => destruct (Z.leb_spec s i); [done|] end; by rewrite (wrap_small 32) by lia_fits.
Qed.

Lemma dl_count_spec p i s : pattern_ok p → 0 <= i < dl_ul_tx_period_nof_slots p → 0 <= s < n →
  0 <= dl_count p i <= n ∧ (s < dl_count p i ↔ n * i + s < n * nof_dl_slots p + nof_dl_symbols p).
Proof. intros (Hp & Hd & Hds & Hu & Hus & Hsum) Hi Hs. unfold dl_count. pose proof n_range. clearbody n. repeat case_Z; split; nia. Qed.

Lemma ul_count_spec p i s : pattern_ok p → 0 <= i < dl_ul_tx_period_nof_slots p → 0 <= s < n →
  0 <= ul_count p i <= n ∧ (n - ul_count p i <= s ↔ n * dl_ul_tx_period_nof_slots p - (n * nof_ul_slots p + nof_ul_symbols p) <= n * i + s).
Proof. intros (Hp & Hd & Hds & Hu & Hus & Hsum) Hi Hs. unfold ul_count. cbn zeta. pose proof n_range. clearbody n. repeat case_Z; split; nia. Qed.

(** The ranges of a slot are those of the patterns. *)
Lemma ranges_spec cfg slot : tdd_ok cfg → 0 <= slot →
  let '(p, i) := pattern_of cfg slot in
  get_active_tdd_dl_symbols cfg slot cp = Ok (mk_range 0 (dl_count p i)) ∧
  get_active_tdd_ul_symbols cfg slot cp = Ok (if 0 <? ul_count p i then mk_range (n - ul_count p i) n else range_default).
Proof.
  intros HC Hs. pose proof (pattern_of_ok cfg slot HC Hs) as HP. unfold get_active_tdd_dl_symbols, get_active_tdd_ul_symbols. rewrite !active_symbols by done. destruct (pattern_of cfg slot) as [p i]. destruct HP as [HP Hi].
  pose proof n_range as Hn. destruct (dl_count_spec p i 0 HP Hi) as [Hd _]; [lia|]. destruct (ul_count_spec p i 0 HP Hi) as [Hu _]; [lia|]. cbn [mbind result_bind]. fold n. unfold range_make.
  split; [|case_Z; [|done]]; [rewrite !(wrap_small 8) by lia_fits|rewrite (wrap_small 32) by lia_fits; rewrite !(wrap_small 8) by lia_fits]; cbn [range_start range_stop]; by pass_assume.
Qed.

(** C31: the symbols the fronthaul asks for follow the configured patterns: for every slot and
    symbol, the range of downlink symbols starts at the first symbol of the slot and holds
    exactly those that come before the end of the downlink part of the pattern, the range of
    uplink symbols ends at the last one and holds exactly those from the start of its uplink
    part on; no symbol is both, and the patterns repeat with their period. *)
Theorem tdd_symbols cfg slot s : tdd_ok cfg → 0 <= slot → 0 <= s < n →
  ∃ rd ru, get_active_tdd_dl_symbols cfg slot cp = Ok rd ∧ get_active_tdd_ul_symbols cfg slot cp = Ok ru ∧
    range_start rd = 0 ∧ 0 <= range_length rd <= n ∧ 0 <= range_start ru <= range_stop ru ∧ range_stop ru <= n ∧
    (in_range rd s ↔ downlink_symbol cfg slot s) ∧ (in_range ru s ↔ uplink_symbol cfg slot s) ∧ ¬ (in_range rd s ∧ in_range ru s) ∧
    get_active_tdd_dl_symbols cfg (slot + period cfg) cp = Ok rd ∧ get_active_tdd_ul_symbols cfg (slot + period cfg) cp = Ok ru.
Proof.
  intros HC Hs Hsy. pose proof (ranges_spec cfg slot HC Hs) as HR. pose proof (pattern_of_ok cfg slot HC Hs) as HP.
  assert (Hper : 0 < period cfg) by (destruct HC as [(Hp & _) H2]; unfold period; destruct (pattern2 cfg); cbn in *; [destruct H2 as (? & _)|]; lia).
  pose proof (ranges_spec cfg (slot + period cfg) HC ltac:(lia)) as HR'. assert (HE : pattern_of cfg (slot + period cfg) = pattern_of cfg slot).
  { unfold pattern_of. by rewrite <- (Zplus_mod_idemp_r (period cfg)), Z_mod_same_full, Z.add_0_r. }
  rewrite HE in HR'. unfold downlink_symbol, uplink_symbol. destruct (pattern_of cfg slot) as [p i]. destruct HP as [HP Hi], HR as [Hd Hu], HR' as [Hd' Hu'].
  destruct (dl_count_spec p i s HP Hi Hsy) as [Bd Ed], (ul_count_spec p i s HP Hi Hsy) as [Bu Eu]. pose proof n_range as Hn. destruct HP as (_ & H1 & H2 & H3 & H4 & Hsum).
  eexists _, _. split; [exact Hd|]. split; [exact Hu|]. unfold range_length, in_range. cbn [range_start range_stop]. rewrite (wrap_small 32) by lia_fits. clearbody n.
  split; [done|]. split; [lia|]. destruct (Z.ltb_spec 0 (ul_count p i)) as [Hc|Hc]; cbn [range_default range_start range_stop] in *; repeat (split; [done || lia|]); done.
Qed.

End patterns.

(** ** The searches *)

Lemma find_slot_spec test (b : Z → bool) n : ∀ i, (∀ j, i <= j < i + Z.of_nat n → test j = Ok (b j)) →
  ∃ r, find_slot n i test = Ok r ∧
    match r with
    | Some j => i <= j < i + Z.of_nat n ∧ b j = true ∧ ∀ k, i <= k < j → b k = false
    | None => ∀ k, i <= k < i + Z.of_nat n → b k = false
    end.
Proof.
  induction n as [|n IH]; intros i Ht; cbn [find_slot]; [eexists; split; [done|]; intros ? ?; exfalso; lia|]. rewrite (Ht i) by lia. cbn [mbind result_bind].
  destruct (b i) eqn:Hb; [eexists; split; [done|]; split; [lia|]; split; [done|intros ? ?; exfalso; lia]|].
  destruct (IH (i + 1)) as (r & HE & HR); [intros j Hj; apply Ht; lia|]. exists r. split; [done|].
  assert (HX : ∀ k, i <= k → k = i ∨ i + 1 <= k) by lia. destruct r as [j|].
  - destruct HR as (Hj & Hbj & HL). split; [lia|]. split; [done|]. intros k Hk. destruct (HX k) as [->|]; [lia|done|]. apply HL. lia.
  - intros k Hk. destruct (HX k) as [->|]; [lia|done|]. apply HR. lia.
Qed.

(** The slot found by a search is the first one of the rest of the period. *)
Definition first_slot (cfg : tdd_ul_dl_config_common) (start : Z) (P : Z → Prop) (r : option Z) : Prop :=
  match r with
  | Some j => start <= j < period cfg ∧ P j ∧ ∀ k, start <= k < j → ¬ P k
  | None => ∀ k, start <= k < period cfg → ¬ P k
  end.

Lemma find_next_spec cfg start test (b : Z → bool) (P : Z → Prop) : tdd_ok NORMAL cfg → 0 <= start →
  (∀ j, 0 <= j → test j = Ok (b j) ∧ (b j = true ↔ P j)) → ∃ r, find_next cfg start test = Ok r ∧ first_slot cfg start P r.
Proof.
  intros HC Hs HT. unfold find_next. assert (HP : nof_slots_per_tdd_period cfg = period cfg).
  { unfold nof_slots_per_tdd_period. fold (period cfg). apply wrap_small. destruct HC as [(? & _) H2]. unfold period. destruct (pattern2 cfg); cbn in *; [destruct H2 as (? & _)|]; lia_fits. }
  rewrite HP. destruct (find_slot_spec test b (Z.to_nat (period cfg - start)) start) as (r & HE & HR); [intros j Hj; apply HT; lia|]. exists r. split; [done|].
  assert (HF : ∀ k, 0 <= k → b k = false → ¬ P k) by (intros k Hk Hb HPk; apply HT in HPk; [congruence|done]).
  destruct r as [j|]; cbn [first_slot].
  - destruct HR as (Hj & Hb & HL). split; [lia|]. split; [apply HT; [lia|done]|]. intros k Hk. apply HF; [lia|]. apply HL. lia.
  - intros k Hk. apply HF; [lia|]. apply HR. lia.
Qed.

(** A slot with downlink symbols has its first one, a slot with uplink symbols its last. *)
Theorem tdd_searches cfg start : tdd_ok NORMAL cfg → 0 <= start →
  (∃ r, find_next_tdd_dl_slot cfg start = Ok r ∧ first_slot cfg start (λ i, downlink_symbol NORMAL cfg i 0) r) ∧
  (∃ r, find_next_tdd_full_dl_slot cfg start = Ok r ∧ first_slot cfg start (λ i, downlink_symbol NORMAL cfg i 13) r) ∧
  (∃ r, find_next_tdd_ul_slot cfg start = Ok r ∧ first_slot cfg start (λ i, uplink_symbol NORMAL cfg i 13) r) ∧
  (∃ r, find_next_tdd_full_ul_slot cfg start = Ok r ∧ first_slot cfg start (λ i, uplink_symbol NORMAL cfg i 0) r).
Proof.
  intros HC Hs. set (D j := let '(p, i) := pattern_of cfg j in dl_count NORMAL p i). set (U j := let '(p, i) := pattern_of cfg j in ul_count NORMAL p i).
  assert (HD : ∀ j s, 0 <= j → 0 <= s < 14 → 0 <= D j <= 14 ∧ (s < D j ↔ downlink_symbol NORMAL cfg j s)).
  { intros j s Hj Hsy. unfold D, downlink_symbol. pose proof (pattern_of_ok NORMAL cfg j HC Hj) as HP. destruct (pattern_of cfg j) as [p i]. destruct HP as [HP Hi]. exact (dl_count_spec NORMAL p i s HP Hi Hsy). }
  assert (HU : ∀ j s, 0 <= j → 0 <= s < 14 → 0 <= U j <= 14 ∧ (14 - U j <= s ↔ uplink_symbol NORMAL cfg j s)).
  { intros j s Hj Hsy. unfold U, uplink_symbol. pose proof (pattern_of_ok NORMAL cfg j HC Hj) as HP. destruct (pattern_of cfg j) as [p i]. destruct HP as [HP Hi]. exact (ul_count_spec NORMAL p i s HP Hi Hsy). }
  split; [|split; [|split]].
  - apply (find_next_spec cfg start _ (λ j, 0 <? D j)); [done..|]. intros j Hj. destruct (HD j 0 Hj ltac:(lia)) as [Hb <-]. split; [|apply Z.ltb_lt].
    unfold has_active_tdd_dl_symbols. rewrite active_symbols by done. unfold D. by destruct (pattern_of cfg j).
  - apply (find_next_spec cfg start _ (λ j, D j =? 14)); [done..|]. intros j Hj. destruct (HD j 13 Hj ltac:(lia)) as [Hb <-]. split; [|rewrite Z.eqb_eq; lia].
    pose proof (ranges_spec NORMAL cfg j HC Hj) as HR. unfold D in *. destruct (pattern_of cfg j) as [p i]. destruct HR as [-> _]. cbn [mbind result_bind]. unfold range_length. cbn [range_start range_stop].
    by rewrite Z.sub_0_r, (wrap_small 32) by lia_fits.
  - apply (find_next_spec cfg start _ (λ j, 0 <? U j)); [done..|]. intros j Hj. destruct (HU j 13 Hj ltac:(lia)) as [Hb <-]. split; [|rewrite Z.ltb_lt; lia].
    unfold has_active_tdd_ul_symbols. rewrite active_symbols by done. unfold U. by destruct (pattern_of cfg j).
  - apply (find_next_spec cfg start _ (λ j, U j =? 14)); [done..|]. intros j Hj. destruct (HU j 0 Hj ltac:(lia)) as [Hb <-]. split; [|rewrite Z.eqb_eq; lia].
    pose proof (ranges_spec NORMAL cfg j HC Hj) as HR. unfold U in *. destruct (pattern_of cfg j) as [p i]. destruct HR as [_ ->]. cbn [mbind result_bind]. unfold range_length.
    case_Z; cbn [range_default range_start range_stop]; rewrite (wrap_small 32) by (cbn; lia_fits); f_equal; cbn; lia.
Qed.

(** Seven slots of downlink, one of six downlink and four uplink symbols, two of uplink. *)
Definition example_tdd : tdd_ul_dl_config_common := mk_tdd kHz30 (mk_pattern 10 7 6 2 4) None.

Lemma example_tdd_ok : tdd_ok NORMAL example_tdd.
Proof. split; [|done]. vm_compute. repeat split; discriminate || reflexivity. Qed.

Lemma tdd_symbols_witness : get_active_tdd_ul_symbols example_tdd 17 NORMAL = Ok (mk_range 10 14) ∧ uplink_symbol NORMAL example_tdd 17 11.
Proof.
  destruct (tdd_symbols NORMAL example_tdd 17 11 example_tdd_ok) as (rd & ru & _ & HU & _ & _ & _ & _ & _ & HE & _); [lia|cbn; lia|].
  assert (HX : get_active_tdd_ul_symbols example_tdd 17 NORMAL = Ok (mk_range 10 14)) by (vm_compute; reflexivity). split; [exact HX|].
  rewrite HX in HU. injection HU as <-. apply (proj1 HE). split; vm_compute; [discriminate|reflexivity].
Defined.

(** With the extended prefix a pattern of 13 uplink symbols, which the comment on the member
    allows, does not fit the slot. *)
Example extended_prefix : get_active_tdd_ul_symbols (mk_tdd kHz60 (mk_pattern 10 7 0 2 13) None) 7 EXTENDED = Fault AssertFailed.
Proof. vm_compute. reflexivity. Qed.
End tdd.
