(* ===== verification/Timing.v ===== *)
(** * Timing: the clock that drives the fronthaul

    Models lib/ofh/timing/realtime_timing_worker.cpp: a thread reads the system clock, turns it
    into GPS time and tells its notifiers every symbol that has begun since it last looked.  A
    reading of the clock is an argument; sleeping and log messages are left out.

    Polled off the boundaries of slots and at least twice a second, the worker tells every symbol
    once and in order ([symbols_told_once]).  Exactly at a boundary of a slot the quotient in
    double precision may fall just short, and the symbol told is then a slot ahead
    ([poll_tells]). *)

From S2P Require Import Prelude Float Rounding SlotPoint BitBuffer TxSupport Tdd.

(** Conversion of a [double] to an integer drops the fraction. *)
Definition sf_trunc (x : spec_float) : option Z :=
  match x with S754_finite true _ _ => option_map Z.opp (sf_floor (SFopp x)) | _ => sf_floor x end.

(** [std::round]: to the nearest, halves away from zero. *)
Definition sf_round (x : spec_float) : option Z :=
  match x with
  | S754_finite s m e => Some ((if s then Z.opp else id) (if 0 <=? e then Zpos m * 2 ^ e else (2 * Zpos m + 2 ^ (- e)) / (2 * 2 ^ (- e))))
  | _ => sf_floor x
  end.

Module realtime_timing_worker.

Definition UNIX_TO_GPS_SECONDS_OFFSET : Z := 315964800 - 18.

Record realtime_worker_cfg : Type := mk_cfg { cp : cyclic_prefix; cfg_scs : subcarrier_spacing; gps_Alpha : Z; gps_Beta : Z }.

(** The constants of a worker; durations in nanoseconds. *)
Record worker : Type := mk_worker { scs : subcarrier_spacing; nof_symbols_per_slot : Z; nof_symbols_per_sec : Z; symbol_duration : spec_float; gps_offset : Z }.

Definition create (cfg : realtime_worker_cfg) : result worker :=
  let nsymb := get_nsymb_per_slot (cp cfg) in
  let per_sec := wrap 32 (nsymb * get_nof_slots_per_subframe (to_numerology_value (cfg_scs cfg)) * NOF_SUBFRAMES_PER_FRAME * 100) in
  alpha ← to_unsigned (sf_round (f64_div (f64_of_Z (gps_Alpha cfg)) (f64_lit 12288 10000)));
  assume (sfitsb 32 (gps_Beta cfg * 10)) SignedOverflow;;
  Ok (mk_worker (cfg_scs cfg) nsymb per_sec (f64_div (f64_of_Z 1000000000) (f64_of_Z per_sec))
        (alpha + gps_Beta cfg * 10 * 1000000 + UNIX_TO_GPS_SECONDS_OFFSET * 1000000000)).

(** [gps_clock::now], from the [timespec]. *)
Definition gps_now (w : worker) (tv_sec tv_nsec : Z) : Z := tv_sec * 1000000000 + tv_nsec - gps_offset w.

(** [time_point_cast] drops the fraction. *)
Definition seconds_of (tp : Z) : Z := Z.quot tp 1000000000.
Definition calculate_ns_fraction_from (tp : Z) : Z := tp - seconds_of tp * 1000000000.

Definition get_symbol_index (fractional_ns : Z) (duration : spec_float) : result Z := to_unsigned (sf_trunc (f64_div (f64_of_Z fractional_ns) duration)).

Definition circular_distance (cur prev size : Z) : Z := if prev <=? cur then wrap 32 (cur - prev) else wrap 32 (size + cur - prev).

Definition calculate_slot_point (scs : subcarrier_spacing) (gps_seconds fractional_us slot_duration_us : Z) : result slot_point.t :=
  let n := get_nof_slots_per_subframe (to_numerology_value scs) in
  assume (negb (slot_duration_us =? 0)) DivByZero;;
  let subframe_index := (fractional_us / 1000) mod NOF_SUBFRAMES_PER_FRAME in
  let slot_subframe_index := (fractional_us / slot_duration_us) mod n in
  let sfn := wrap 64 (wrap 64 (gps_seconds * 100) + fractional_us / 10000) mod NOF_SFNS in
  slot_point.of_subframe (to_numerology_value scs) sfn subframe_index slot_subframe_index.

(** A look at the clock: the new [previous_symb_index] and the symbols to tell, the oldest
    first. *)
Definition poll (w : worker) (now previous_symb_index : Z) : result (Z * list slot_symbol_point.t) :=
  let ns_fraction := calculate_ns_fraction_from now in
  current_symbol_index ← get_symbol_index ns_fraction (symbol_duration w);
  let delta := circular_distance current_symbol_index previous_symb_index (nof_symbols_per_sec w) in
  if delta =? 0 then Ok (current_symbol_index, []) else
  slot ← calculate_slot_point (scs w) (wrap 64 (seconds_of now)) (wrap 32 (Z.quot ns_fraction 1000)) (1000 / get_nof_slots_per_subframe (to_numerology_value (scs w)));
  symbol_point ← slot_symbol_point.of_slot slot (current_symbol_index mod nof_symbols_per_slot w) (nof_symbols_per_slot w);
  points ← mapM (λ i, slot_symbol_point.sub symbol_point (swrap 32 (wrap 32 (delta - 1 - i)))) (seqZ 0 delta);
  Ok (current_symbol_index, points).

(** ** The thread *)

Inductive worker_status : Type := idle | running | stop_requested | stopped.

#[export] Instance worker_status_eq_dec : EqDecision worker_status.
Proof. solve_decision. Defined.

(** Notifiers are named by numbers; what each was told, in order.  [looping]: the thread is in
    [timing_loop]. *)
Record state : Type := mk_state { ota_notifiers : list nat; previous_symb_index : Z; status : worker_status; looping : bool; told : list (nat * slot_symbol_point.t) }.

Definition initial : state := mk_state [] 0 idle false [].

Definition notify_slot_symbol_point (notifiers : list nat) (slot : slot_symbol_point.t) : list (nat * slot_symbol_point.t) := map (λ n, (n, slot)) notifiers.

(** The task of [subscribe], the beginning of the task of [start], one turn of the loop, and
    the request of [stop]. *)
Inductive event : Type :=
| Subscribe (notifiers : list nat)
| Start (now : Z)
| Turn (now : Z)
| Stop.

(** The loop keeps the thread of the executor: no other task runs until it has ended. *)
Definition enabled (st : state) (e : event) : bool :=
  match e with Subscribe _ | Start _ => negb (looping st) | Turn _ => looping st | Stop => true end.

Definition step (w : worker) (st : state) (e : event) : result state :=
  match e with
  | Subscribe notifiers => Ok (mk_state notifiers (previous_symb_index st) (status st) (looping st) (told st))
  | Start now =>
      index ← get_symbol_index (calculate_ns_fraction_from now) (symbol_duration w);
      Ok (mk_state (ota_notifiers st) index running true (told st))
  | Turn now =>
      if decide (status st = stop_requested) then Ok (mk_state [] (previous_symb_index st) stopped false (told st)) else
      '(index, points) ← poll w now (previous_symb_index st);
      Ok (mk_state (ota_notifiers st) index (status st) (looping st) (told st ++ concat (map (notify_slot_symbol_point (ota_notifiers st)) points)))
  | Stop => Ok (mk_state (ota_notifiers st) (previous_symb_index st) stop_requested (looping st) (told st))
  end.

(** Runs of the machine. *)
Inductive runs (w : worker) : state → list event → state → Prop :=
| runs_nil st : runs w st [] st
| runs_cons st e st' es st'' : enabled st e = true → step w st e = Ok st' → runs w st' es st'' → runs w st (e :: es) st''.
End realtime_timing_worker.

(** ** The index of a symbol in its second *)
Section index.
Import realtime_timing_worker.

(** The quotient [V / T] of what the division yields, where [m2 / 2 ^ E] is the duration. *)
Lemma quotient_floor N m2 E T V ns : 0 < N → 0 < T → 0 < m2 → 0 <= E → 0 <= ns < 10 ^ 9 → - (2 * m2) <= V * m2 - ns * T * 2 ^ E <= 2 * m2 → - N <= m2 * N - 10 ^ 9 * 2 ^ E <= N →
  2 * m2 * N + N * N * T < T * 2 ^ E →
  V / T = ns * N / 10 ^ 9 ∨ (V / T = ns * N / 10 ^ 9 - 1 ∧ (ns * N) mod 10 ^ 9 = 0).
Proof.
  intros HN HT Hm HE Hns HV HD HS. pose proof (Z.div_mod (ns * N) (10 ^ 9) ltac:(lia)) as HQ. pose proof (Z.mod_pos_bound (ns * N) (10 ^ 9) ltac:(lia)) as Hf.
  set (j := ns * N / 10 ^ 9) in *. set (f := (ns * N) mod 10 ^ 9) in *. set (P := 2 ^ E) in *. assert (HP : 0 < P) by (apply Z.pow_pos_nonneg; lia).
  assert (Hj : 0 <= j < N) by (split; [apply Z.div_pos; nia|apply Z.div_lt_upper_bound; [done|]; apply Z.mul_lt_mono_pos_r; lia]).
  (* all in units of [m2 * N] *)
  assert (E1 : V * m2 * N <= (10 ^ 9 * j + f) * (T * P) + 2 * m2 * N).
  { rewrite <- HQ. assert ((V * m2) * N <= (ns * T * P + 2 * m2) * N) by (apply Z.mul_le_mono_nonneg_r; lia). lia. }
  assert (E2 : (10 ^ 9 * j + f) * (T * P) - 2 * m2 * N <= V * m2 * N).
  { rewrite <- HQ. assert ((ns * T * P - 2 * m2) * N <= (V * m2) * N) by (apply Z.mul_le_mono_nonneg_r; lia). lia. }
  assert (D1 : 10 ^ 9 * P - N <= m2 * N) by lia. assert (D2 : m2 * N <= 10 ^ 9 * P + N) by lia. change (10 ^ 9) with 1000000000 in *.
  assert (Hpos : 0 < m2 * N) by nia.
  assert (U : V < (j + 1) * T).
  { destruct (Z.lt_ge_cases V ((j + 1) * T)) as [|Hge]; [done|]. exfalso. assert ((j + 1) * T * (m2 * N) <= V * (m2 * N)) by (apply Z.mul_le_mono_nonneg_r; lia).
    assert ((j + 1) * T * (1000000000 * P - N) <= (j + 1) * T * (m2 * N)) by (apply Z.mul_le_mono_nonneg_l; nia).
    assert ((j + 1) * T * N <= N * T * N) by (apply Z.mul_le_mono_nonneg_r; [lia|]; apply Z.mul_le_mono_nonneg_r; lia).
    assert (f * (T * P) <= (1000000000 - 1) * (T * P)) by (apply Z.mul_le_mono_nonneg_r; nia). lia. }
  assert (L : (j - 1) * T <= V ∧ (0 < f → j * T <= V)).
  { assert (B : ∀ i, 0 <= i <= j → i * T * (m2 * N) <= i * T * (1000000000 * P) + N * T * N).
    { intros i Hi. assert (i * T * (m2 * N) <= i * T * (1000000000 * P + N)) by (apply Z.mul_le_mono_nonneg_l; nia). assert (i * T * N <= N * T * N) by (apply Z.mul_le_mono_nonneg_r; nia). lia. }
    assert (F0 : 0 <= f * (T * P)) by nia. split; [|intros Hf0]; apply (Z.mul_le_mono_pos_r _ _ (m2 * N)); try done.
    - destruct (Z.eq_dec j 0) as [Hz|Hz]; [|pose proof (B (j - 1) ltac:(lia)); lia]. rewrite Hz in *.
      assert (T * (m2 * N) >= 2 * (m2 * N)) by (assert (2 <= T) by nia; nia). lia.
    - pose proof (B j ltac:(lia)). assert (T * P <= f * (T * P)) by nia. lia. }
  destruct L as [L1 L2]. destruct (Z.le_gt_cases (j * T) V) as [Hl|Hl].
  - left. symmetry. apply (Z.div_unique_pos V T j (V - T * j)); lia.
  - right. split; [|destruct (Z.eq_dec f 0); lia]. symmetry. apply (Z.div_unique_pos V T (j - 1) (V - T * (j - 1))); lia.
Qed.

(** The rates of the two cyclic prefixes and five numerologies, and the duration of a symbol. *)
Definition rates : list Z := n ← [12; 14]; mu ← [0; 1; 2; 3; 4]; [n * 2 ^ mu * 1000].
Definition duration (N : Z) : spec_float := f64_div (f64_of_Z 1000000000) (f64_of_Z N).
Definition duration_near (N : Z) : bool :=
  match duration N with
  | S754_finite false m e =>
      (2 ^ 52 <=? Zpos m) && (Zpos m <? 2 ^ 53) && (36 <=? - e) && (- e <=? 40) && (- N <=? Zpos m * N - 10 ^ 9 * 2 ^ (- e)) && (Zpos m * N - 10 ^ 9 * 2 ^ (- e) <=? N) &&
      (0 <? N) && (N <? 2 ^ 18) && (2 * N * N <=? 2 ^ (- e))
  | _ => false
  end.
Lemma rates_near : forallb duration_near rates = true.
Proof. vm_compute. reflexivity. Qed.

Lemma small_digits p : Zpos p < 10 ^ 9 → Zpos (digits2_pos p) <= 30.
Proof.
  intros Hp. pose proof (digits2_bounds p) as [B _]. destruct (Z.le_gt_cases (Zpos (digits2_pos p)) 30); [done|]. assert (2 ^ 30 <= 2 ^ (Zpos (digits2_pos p) - 1)) by (apply Z.pow_le_mono_r; lia). lia.
Qed.

(** The index is that of the current symbol, or at the first instant of a symbol possibly the
    one before. *)
Definition current (N ns j : Z) : Prop := j = ns * N / 10 ^ 9 ∨ (j = ns * N / 10 ^ 9 - 1 ∧ (ns * N) mod 10 ^ 9 = 0).

Lemma symbol_index_spec N ns : N ∈ rates → 0 <= ns < 10 ^ 9 → ∃ j, get_symbol_index ns (duration N) = Ok j ∧ current N ns j ∧ 0 <= j < N.
Proof.
  intros HN Hns. pose proof rates_near as HF. rewrite forallb_forall in HF. specialize (HF N (proj1 (list_elem_of_In _ _) HN)). unfold duration_near in HF.
  destruct (duration N) as [| | |[] m2 e2]; try done. repeat rewrite andb_true_iff in HF. destruct HF as [[[[[[[[H1 H2] H3] H4] H5] H6] H7] H8] H9].
  apply Z.leb_le in H1, H3, H4, H5, H6, H9. apply Z.ltb_lt in H2, H7, H8. set (E := - e2) in *. replace e2 with (- E) in * by lia. unfold get_symbol_index. destruct ns as [|p|p]; [| |lia].
  { exists 0. split; [done|]. split; [left; rewrite Z.mul_0_l; done|lia]. }
  destruct (normalize_exact 53 1024 ltac:(lia) p ltac:(lia) ltac:(done) ltac:(done)) as (m1 & e & HE & He & Hs & Hm & He').
  unfold f64_of_Z. rewrite HE. pose proof (small_digits p ltac:(lia)) as Hd.
  destruct (div_near 53 1024 ltac:(lia) m1 (- e) m2 (- E) Hs ltac:(done) ltac:(unfold emin; lia) ltac:(lia)) as (m & k & -> & Hk & _ & HV). cbn [sf_trunc sf_floor].
  set (x := - e - - E - 53 + k) in *. rewrite (proj2 (Z.leb_gt _ _)) by lia. set (T := 2 ^ (53 + e - E)).
  assert (HT : 2 ^ (- x) * 2 ^ k = T) by (unfold T; rewrite <- Z.pow_add_r by lia; f_equal; lia). assert (HP : 0 < 2 ^ k) by (apply Z.pow_pos_nonneg; lia). assert (HX : 0 < 2 ^ (- x)) by (apply Z.pow_pos_nonneg; lia).
  assert (HQ : Zpos m / 2 ^ (- x) = Zpos m * 2 ^ k / T) by (rewrite <- HT; rewrite Z.div_mul_cancel_r by lia; done). rewrite HQ.
  assert (HTE : T * 2 ^ E = 2 ^ (53 + e)) by (unfold T; rewrite <- Z.pow_add_r by lia; f_equal; lia).
  assert (Hbig : 2 ^ 76 <= 2 ^ (53 + e)) by (apply Z.pow_le_mono_r; lia). assert (Hm1 : Zpos m1 * 2 ^ 53 = Zpos p * T * 2 ^ E) by (rewrite <- Z.mul_assoc, HTE, Hm, <- Z.mul_assoc, <- Z.pow_add_r by lia; do 2 f_equal; lia).
  assert (HC : current N (Zpos p) (Zpos m * 2 ^ k / T)).
  { apply (quotient_floor N (Zpos m2) E T); [done|unfold T; apply Z.pow_pos_nonneg; lia|done|lia|lia|by rewrite <- Hm1|done|].
    assert (2 * (N * N * T) <= T * 2 ^ E) by (assert (0 < T) by nia; nia). assert (Zpos m2 * N < 2 ^ 53 * 2 ^ 18) by nia. lia. }
  assert (H0 : 0 <= Zpos m * 2 ^ k / T) by (apply Z.div_pos; nia). assert (HB : Zpos p * N / 10 ^ 9 < N) by (apply Z.div_lt_upper_bound; [done|]; nia).
  exists (Zpos m * 2 ^ k / T). unfold to_unsigned. assert (Hr : 0 <= Zpos m * 2 ^ k / T < N) by (unfold current in HC; lia). rewrite (proj2 (fitsb_spec 32 _)) by lia_fits. done.
Qed.
End index.

(** ** From the time to the symbol *)

(** A worker for [n] symbols per slot and numerology [mu]. *)
Record worker_ok (w : realtime_timing_worker.worker) (n mu : Z) : Prop := {
  wo_n : realtime_timing_worker.nof_symbols_per_slot w = n;
  wo_prefix : n = 12 ∨ n = 14;
  wo_mu : to_numerology_value (realtime_timing_worker.scs w) = mu;
  wo_range : 0 <= mu <= 3;
  wo_rate : realtime_timing_worker.nof_symbols_per_sec w = n * 2 ^ mu * 1000;
  wo_duration : realtime_timing_worker.symbol_duration w = duration (n * 2 ^ mu * 1000) }.

Section symbols.
Import realtime_timing_worker.
Context (w : worker) (n mu : Z) (HW : worker_ok w n mu).
Abbreviation N := (n * 2 ^ mu * 1000).
Abbreviation M := (2 ^ mu).

(** A slot in nanoseconds, the number of the slot and of the symbol at a time. *)
Definition slot_ns : Z := 10 ^ 6 / M.
Definition symbol_at (t : Z) : Z := t * N / 10 ^ 9.
Definition on_boundary (t : Z) : Prop := t mod slot_ns = 0.
#[global] Instance on_boundary_dec t : Decision (on_boundary t).
Proof. unfold on_boundary. apply _. Defined.
Definition point (c : Z) : slot_symbol_point.t := slot_symbol_point.mk n mu (c mod (10240 * M * n)).

(** The symbol the worker takes the time for: the current one, or the one before at its last
    instant. *)
Definition taken (t r : Z) : Prop := r = symbol_at t ∨ (r = symbol_at t - 1 ∧ (t * N) mod 10 ^ 9 = 0).

Lemma rate_range : n * M * 1000 ∈ rates ∧ 0 < n <= 14 ∧ 1 <= M <= 8 ∧ slot_ns * (1000 * M) = 10 ^ 9 ∧ 1000 / M * M = 1000 ∧ 1000 * (1000 / M) = slot_ns ∧ 0 < slot_ns.
Proof.
  destruct HW as [_ Hn _ Hmu _ _]. unfold slot_ns. assert (mu = 0 ∨ mu = 1 ∨ mu = 2 ∨ mu = 3) as Hc by lia.
  destruct Hn as [-> | ->], Hc as [-> | [-> | [-> | ->]]]; (split; [apply list_elem_of_In; vm_compute; tauto|]); repeat split; vm_compute; first [reflexivity|discriminate].
Qed.

Lemma slots_of_numerology : get_nof_slots_per_subframe (to_numerology_value (scs w)) = M.
Proof.
  destruct HW as [_ _ -> Hmu _ _]. unfold get_nof_slots_per_subframe. rewrite Z.shiftl_mul_pow2, Z.mul_1_l by lia. destruct rate_range as (_ & _ & HM & _). apply wrap_small. lia_fits.
Qed.

Lemma seconds_spec t : 0 <= t → seconds_of t = t / 10 ^ 9 ∧ calculate_ns_fraction_from t = t mod 10 ^ 9.
Proof.
  intros Ht. unfold calculate_ns_fraction_from, seconds_of. change 1000000000 with (10 ^ 9). rewrite Z.quot_div_nonneg by lia. split; [done|]. pose proof (Z.div_mod t (10 ^ 9) ltac:(lia)). lia.
Qed.

Lemma slot_parts c :
  c = slot_point.sfn (slot_point.mk mu c) * (M * 10) + slot_point.subframe_index (slot_point.mk mu c) * M + slot_point.subframe_slot_index (slot_point.mk mu c).
Proof.
  pose proof slots_of_numerology as HG. destruct rate_range as (_ & _ & HM & _). rewrite (wo_mu _ _ _ HW) in HG.
  unfold slot_point.sfn, slot_point.subframe_index, slot_point.subframe_slot_index, slot_point.slot_index, slot_point.nof_slots_per_frame, slot_point.nof_slots_per_subframe, NOF_SUBFRAMES_PER_FRAME.
  cbn [slot_point.count_val slot_point.numerology_val]. unfold get_nof_slots_per_subframe in HG. rewrite HG, (wrap_small 32) by lia_fits. generalize dependent M. intros M _ HM.
  assert (H0 : M * 10 ≠ 0) by lia. assert (H1 : M ≠ 0) by lia. pose proof (Z.rem_mul_r c M 10 H1 ltac:(lia)) as HR. pose proof (Z.div_mod c (M * 10) H0) as HD.
  assert (HX : (c mod (M * 10)) / M = (c / M) mod 10); [|rewrite HX, HD at 1; lia].
  rewrite HR, (Z.mul_comm M), Z.div_add by done. rewrite (Z.div_small (c mod M)); [lia|]. apply Z.mod_pos_bound. lia.
Qed.

(** Frame, subframe and slot of the [x]-th slot of a second, put together. *)
Lemma slot_count sec x K : 1 <= K → (sec * 100 + x / (K * 10)) mod 1024 * (K * 10) + (x / K) mod 10 * K + x mod K = (sec * (1000 * K) + x) mod (10240 * K).
Proof.
  intros HK. set (y := sec * (1000 * K) + x). replace (10240 * K) with (K * 10 * 1024) by lia. rewrite (Z.rem_mul_r y (K * 10) 1024) by lia.
  assert (Y0 : y = x + sec * 100 * (K * 10)) by (unfold y; lia). assert (H0 : K * 10 ≠ 0) by lia.
  assert (Y1 : y / (K * 10) = sec * 100 + x / (K * 10)) by (rewrite Y0, Z.div_add by done; apply Z.add_comm). assert (Y2 : y mod (K * 10) = x mod (K * 10)) by (by rewrite Y0, Z.mod_add by done).
  rewrite Y1, Y2, (Z.rem_mul_r x K 10) by lia. generalize (x mod K) ((x / K) mod 10) ((sec * 100 + x / (K * 10)) mod 1024). intros a b z. lia.
Qed.

Lemma slot_point_spec t : 0 <= t < 2 ^ 62 →
  calculate_slot_point (scs w) (wrap 64 (t / 10 ^ 9)) (wrap 32 (Z.quot (t mod 10 ^ 9) 1000)) (1000 / get_nof_slots_per_subframe (to_numerology_value (scs w))) =
    Ok (slot_point.mk mu ((t / slot_ns) mod (10240 * M))).
Proof.
  intros Ht. destruct rate_range as (_ & _ & HM & Hsn & Hsu & Hsl & Hsp). rewrite slots_of_numerology. unfold calculate_slot_point. rewrite slots_of_numerology. rewrite (wo_mu _ _ _ HW).
  set (sec := t / 10 ^ 9). set (ns := t mod 10 ^ 9). assert (Hns : 0 <= ns < 10 ^ 9) by (apply Z.mod_pos_bound; lia). assert (Hsec : 0 <= sec < 2 ^ 40) by (split; [apply Z.div_pos; lia|apply Z.div_lt_upper_bound; lia]).
  rewrite Z.quot_div_nonneg by lia. set (us := ns / 1000). assert (Hus : 0 <= us < 10 ^ 6) by (split; [apply Z.div_pos; lia|apply Z.div_lt_upper_bound; lia]).
  rewrite (wrap_small 32 us) by lia_fits. rewrite (wrap_small 64 sec) by lia_fits. set (d := 1000 / M) in *. assert (Hd : 0 < d) by nia. rewrite (proj2 (Z.eqb_neq _ _)) by lia. cbn [negb].
  set (x := us / d). assert (Hx : 0 <= x) by (apply Z.div_pos; lia).
  assert (A1 : us / 1000 = x / M) by (unfold x; rewrite Z.div_div by lia; f_equal; lia). assert (A2 : us / 10000 = x / (M * 10)) by (unfold x; rewrite Z.div_div by lia; f_equal; lia).
  assert (A3 : t / slot_ns = sec * (1000 * M) + x).
  { rewrite (Z.div_mod t (10 ^ 9)) by lia. fold sec ns. rewrite <- Hsn. replace (slot_ns * (1000 * M) * sec + ns) with (ns + sec * (1000 * M) * slot_ns) by lia. rewrite Z.div_add by lia. unfold x, us. rewrite Z.div_div by lia. rewrite Hsl. lia. }
  assert (Hb : 0 <= us / 10000 < 100) by (split; [apply Z.div_pos; lia|apply Z.div_lt_upper_bound; lia]). rewrite (wrap_small 64 (sec * 100)) by lia_fits. rewrite (wrap_small 64) by lia_fits.
  unfold NOF_SUBFRAMES_PER_FRAME, NOF_SFNS. rewrite A1.
  destruct (slot_point.of_subframe_parts mu ((sec * 100 + us / 10000) mod 1024) ((x / M) mod 10) (x mod M)) as (s & -> & Hw & H1 & H2 & H3 & H4);
    [pose proof (wo_range _ _ _ HW); lia|apply Z.mod_pos_bound; lia|apply Z.mod_pos_bound; lia|apply Z.mod_pos_bound; lia|].
  destruct s as [m c]. change (m = mu) in H1. subst m. rewrite A3, A2 in *. cbn [assume mbind result_bind]. do 2 f_equal. rewrite (slot_parts c), H2, H3, H4. apply slot_count. apply HM.
Qed.

Lemma symbol_at_split t : 0 <= t → symbol_at t = t / 10 ^ 9 * N + (t mod 10 ^ 9) * N / 10 ^ 9 ∧ (t * N) mod 10 ^ 9 = ((t mod 10 ^ 9) * N) mod 10 ^ 9.
Proof.
  intros Ht. unfold symbol_at. rewrite (Z.div_mod t (10 ^ 9)) at 1 4 by lia. set (q := t / 10 ^ 9). set (r := t mod 10 ^ 9).
  replace ((10 ^ 9 * q + r) * N) with (r * N + q * N * 10 ^ 9) by lia. rewrite Z.div_add, Z.mod_add by lia. lia.
Qed.

Lemma taken_current t j : 0 <= t → current N (t mod 10 ^ 9) j ↔ taken t (t / 10 ^ 9 * N + j).
Proof. intros Ht. destruct (symbol_at_split t Ht) as [HS HM]. unfold current, taken. rewrite HS, HM. lia. Qed.

Lemma symbol_slot t : 0 <= t → symbol_at t / n = t / slot_ns.
Proof.
  intros Ht. destruct rate_range as (_ & Hn & HM & Hsn & _). unfold symbol_at. rewrite Z.div_div by lia. replace (t * N) with (t * (1000 * M) * n) by lia. rewrite Z.div_mul_cancel_r by lia.
  rewrite <- Hsn. by rewrite Z.div_mul_cancel_r by lia.
Qed.

Lemma symbol_count a K x : 0 < K → 0 <= x < n → a mod K * n + x = (a * n + x) mod (K * n).
Proof.
  intros HK Hx. rewrite (Z.mul_comm K), Z.rem_mul_r by lia. rewrite Z.div_add_l by lia. rewrite (Z.div_small x), Z.add_0_r by lia. rewrite (Z.add_comm (a * n)), Z.mod_add, (Z.mod_small x) by lia. lia.
Qed.

Lemma boundary_iff t : (t * N) mod 10 ^ 9 = 0 → symbol_at t mod n = 0 ↔ on_boundary t.
Proof.
  intros HZ. destruct rate_range as (_ & Hn & HM & Hsn & _ & _ & Hsp). unfold symbol_at, on_boundary. pose proof (Z.div_mod (t * N) (10 ^ 9) ltac:(done)) as HQ. rewrite HZ in HQ. set (S := t * N / 10 ^ 9) in *.
  assert (HL : t * n = slot_ns * S). { apply (Z.mul_reg_r _ _ (1000 * M)); [lia|]. rewrite <- Hsn in HQ. lia. } clear HQ HZ Hsn. clearbody S. generalize dependent slot_ns. intros d Hsp HL.
  rewrite !Z.mod_divide by lia. split; intros [q Hq]; exists q; [apply (Z.mul_reg_r _ _ n)|apply (Z.mul_reg_l _ _ d)]; [lia| |lia|]; [rewrite HL, Hq|rewrite <- HL, Hq]; lia.
Qed.

(** The point of the time: a slot ahead when the time is the first instant of a slot and is
    taken for the last symbol of the slot before. *)
Definition point_offset (t r : Z) : Z := if bool_decide (on_boundary t ∧ r ≠ symbol_at t) then n else 0.

Lemma current_point t r : 0 <= t < 2 ^ 62 → taken t r →
  slot_symbol_point.of_slot (slot_point.mk mu ((t / slot_ns) mod (10240 * M))) (r mod n) n = Ok (point (r + point_offset t r)) ∧ slot_symbol_point.wf (point (r + point_offset t r)).
Proof.
  intros Ht HT. destruct rate_range as (_ & Hn & HM & _). pose proof (wo_range _ _ _ HW) as Hmu. set (c := (t / slot_ns) mod (10240 * M)). assert (Hc : 0 <= c < 10240 * M) by (apply Z.mod_pos_bound; lia).
  assert (Hw : slot_point.wf (slot_point.mk mu c)) by (split; [cbn; lia|done]). pose proof (Z.mod_pos_bound r n ltac:(lia)) as Hr.
  destruct (slot_symbol_point.symbol_of_slot_spec (slot_point.mk mu c) (r mod n) n Hw ltac:(lia) Hr) as (-> & HP & _). cbn [slot_point.numerology_val slot_point.count_val] in *.
  assert (HX : slot_symbol_point.mk n mu (c * n + r mod n) = point (r + point_offset t r)); [|by rewrite <- HX]. unfold point. f_equal.
  set (S := symbol_at t). assert (HS : S / n = t / slot_ns) by (apply symbol_slot; lia). pose proof (Z.div_mod S n ltac:(lia)) as HD. pose proof (Z.mod_pos_bound S n ltac:(lia)) as HB.
  assert (HE : r + point_offset t r = (t / slot_ns) * n + r mod n).
  { unfold point_offset. rewrite <- HS. destruct HT as [->|[-> HZ]]; fold S.
    - rewrite bool_decide_eq_false_2 by tauto. lia.
    - pose proof (boundary_iff t HZ) as HG. fold S in HG.
      destruct (decide (S mod n = 0)) as [Hz|Hz].
      + rewrite bool_decide_eq_true_2 by (split; [by apply HG|lia]). replace (S - 1) with (n - 1 + (S / n - 1) * n) by lia. rewrite Z.mod_add, Z.mod_small by lia. lia.
      + rewrite bool_decide_eq_false_2 by (intros [Hb _]; by apply HG in Hb). replace ((S - 1) mod n) with (S mod n - 1); [lia|]. apply (Z.mod_unique_pos _ _ (S / n)); lia. }
  rewrite HE. unfold c. apply symbol_count; lia.
Qed.

(** The symbol a reading is taken for. *)
Definition reported (t : Z) : Z := t / 10 ^ 9 * N + match get_symbol_index (calculate_ns_fraction_from t) (symbol_duration w) with Ok j => j | Fault _ => 0 end.

Lemma reported_spec t : 0 <= t → taken t (reported t) ∧ get_symbol_index (calculate_ns_fraction_from t) (symbol_duration w) = Ok (reported t mod N).
Proof.
  intros Ht. destruct rate_range as (HR & _). destruct (seconds_spec t Ht) as [_ HF]. unfold reported. rewrite HF, (wo_duration _ _ _ HW).
  destruct (symbol_index_spec N (t mod 10 ^ 9) HR ltac:(apply Z.mod_pos_bound; lia)) as (j & -> & HC & Hj). split; [by apply taken_current|]. f_equal. rewrite Z.add_comm, Z.mod_add, Z.mod_small by lia. done.
Qed.

Lemma circular_spec r0 r K : 0 < K < 2 ^ 31 → 0 <= r - r0 < K → circular_distance (r mod K) (r0 mod K) K = r - r0.
Proof.
  intros HK Hd. unfold circular_distance. pose proof (Z.mod_pos_bound r K ltac:(lia)) as Ha. pose proof (Z.mod_pos_bound r0 K ltac:(lia)) as Hb.
  assert (HE : (r mod K - r0 mod K) mod K = r - r0) by (rewrite <- Zminus_mod; apply Z.mod_small; lia). set (a := r mod K) in *. set (b := r0 mod K) in *. clearbody a b.
  destruct (Z.leb_spec b a); rewrite wrap_small by lia_fits; rewrite <- HE; [by rewrite Z.mod_small by lia|]. replace (a - b) with (K + a - b + -1 * K) by lia. rewrite Z.mod_add, Z.mod_small by lia. done.
Qed.

Lemma point_sub c k : 0 <= k < 2 ^ 30 → slot_symbol_point.wf (point c) → slot_symbol_point.sub (point c) (swrap 32 (wrap 32 k)) = Ok (point (c - k)).
Proof.
  intros Hk Hw. rewrite (wrap_small 32 k) by lia_fits. rewrite swrap_small by (unfold sfits; lia). unfold slot_symbol_point.sub. rewrite sadd_Ok by (unfold sfits; lia). cbn [mbind result_bind]. rewrite slot_symbol_point.symbol_add_spec by (done || lia).
  unfold point. cbn [slot_symbol_point.nof_symbols slot_symbol_point.numerology slot_symbol_point.count_val]. unfold slot_symbol_point.period. cbn [slot_symbol_point.nof_symbols slot_symbol_point.numerology]. do 2 f_equal.
  rewrite Z.add_0_l. by rewrite Zplus_mod_idemp_l.
Qed.

(** A poll tells the symbols since the last one. *)
Lemma poll_spec t r0 : 0 <= t < 2 ^ 62 → let r := reported t in 0 <= r - r0 < N →
  poll w t (r0 mod N) = Ok (r mod N, map (λ c, point (c + point_offset t r)) (seqZ (r0 + 1) (r - r0))).
Proof.
  intros Ht r Hr. destruct rate_range as (_ & Hn & HM & _). destruct (reported_spec t ltac:(lia)) as [HT HI]. fold r in HT, HI. clearbody r. destruct (seconds_spec t ltac:(lia)) as [HS HF].
  assert (HN : N < 2 ^ 20) by nia. unfold poll. rewrite HI, (wo_rate _ _ _ HW), (wo_n _ _ _ HW). cbn [mbind result_bind]. rewrite circular_spec by lia. destruct (Z.eqb_spec (r - r0) 0) as [->|Hne]; [done|].
  rewrite HS, HF, slot_point_spec by done. cbn [mbind result_bind]. destruct (current_point t r Ht HT) as [HP Hw].
  assert (Hmod : (r mod N) mod n = r mod n) by (rewrite (Z.mul_comm n), <- Z.mul_assoc, (Z.mul_comm n), Z.mul_assoc, (Z.mul_comm _ n); rewrite Z.rem_mul_r by lia; rewrite (Z.mul_comm n), Z.mod_add, Z.mod_mod by lia; done).
  rewrite Hmod, HP. cbn [mbind result_bind]. rewrite (mapM_Ok _ (λ i, point (r + point_offset t r - (r - r0 - 1 - i)))).
  - cbn [mbind result_bind]. do 2 f_equal. replace (seqZ (r0 + 1) (r - r0)) with (Z.add (r0 + 1) <$> seqZ 0 (r - r0)) by (rewrite fmap_add_seqZ; f_equal; lia). rewrite map_map. apply map_ext. intros i. f_equal. lia.
  - intros i Hi%elem_of_seqZ. apply point_sub; [|done]. clear - Hi Hr HN. lia.
Qed.

Lemma reported_advances t t' : 0 <= t → t <= t' <= t + 500000000 → 0 <= reported t' - reported t < N.
Proof.
  intros Ht Ht'. destruct rate_range as (_ & Hn & HM & _). destruct (reported_spec t Ht) as [HT _]. destruct (reported_spec t' ltac:(lia)) as [HT' _].
  assert (HN : 1000 <= N) by nia. destruct (Z.eq_dec t t') as [<-|Hne]; [lia|]. set (r := reported t) in *. set (r' := reported t') in *. clearbody r r'. unfold taken, symbol_at in *. generalize dependent N. intros K HT HT' HN.
  assert (E1 : t * K / 10 ^ 9 <= t' * K / 10 ^ 9) by (apply Z.div_le_mono; nia).
  assert (E2 : (t' * K) mod 10 ^ 9 = 0 → t * K / 10 ^ 9 + 1 <= t' * K / 10 ^ 9).
  { intros HZ. pose proof (Z.div_mod (t' * K) (10 ^ 9) ltac:(done)) as HQ. assert (t * K / 10 ^ 9 < t' * K / 10 ^ 9); [|lia]. apply Z.div_lt_upper_bound; [done|]. nia. }
  assert (E3 : t' * K / 10 ^ 9 <= t * K / 10 ^ 9 + K / 2 + 1).
  { assert (HB : t' * K / 10 ^ 9 <= (t * K + (K / 2 + 1) * 10 ^ 9) / 10 ^ 9); [|rewrite Z.div_add in HB by done; lia]. apply Z.div_le_mono; [done|]. pose proof (Z.div_mod K 2 ltac:(done)). pose proof (Z.mod_pos_bound K 2 ltac:(done)). nia. }
  assert (E4 : K / 2 + 3 < K) by lia. clear - HT HT' E1 E2 E3 E4. destruct HT as [->|[-> _]], HT' as [->|[-> HZ]]; try (specialize (E2 HZ)); lia.
Qed.

(** Readings at most half a second apart, none of them the first instant of a slot. *)
Fixpoint paced (t : Z) (ts : list Z) : Prop :=
  match ts with [] => True | t' :: ts => t <= t' <= t + 500000000 ∧ t' < 2 ^ 62 ∧ ¬ on_boundary t' ∧ paced t' ts end.
Definition last_of (t : Z) (ts : list Z) : Z := List.last ts t.

(** What a notifier was told. *)
Definition told_to (k : nat) (st : state) : list slot_symbol_point.t := map snd (filter (λ x, x.1 = k) (told st)).

Lemma told_points notifiers k points : NoDup notifiers → k ∈ notifiers → map snd (filter (λ x, x.1 = k) (concat (map (notify_slot_symbol_point notifiers) points))) = points.
Proof.
  intros Hd Hk. induction points as [|p points IH]; [done|]. cbn [map concat]. rewrite filter_app, map_app, IH. change (p :: points) with ([p] ++ points). f_equal. clear IH. unfold notify_slot_symbol_point.
  induction notifiers as [|m notifiers IH]; [by apply not_elem_of_nil in Hk|]. apply NoDup_cons in Hd as [Hm Hd]. cbn [map]. rewrite filter_cons. destruct (decide ((m, p).1 = k)) as [Hmk|Hmk]; cbn [fst] in Hmk.
  - subst m. cbn [map snd]. f_equal. assert (HF : ∀ l : list nat, k ∉ l → filter (λ x, x.1 = k) (map (λ n, (n, p)) l) = []); [|by rewrite HF].
    induction l as [|x l IHl]; [done|]. intros Hx. apply not_elem_of_cons in Hx as [Hx Hl]. cbn [map]. rewrite filter_cons_False by (cbn; congruence). by apply IHl.
  - apply elem_of_cons in Hk as [->|Hk]; [done|]. by apply IH.
Qed.

(** The turns of the loop. *)
Lemma turns_spec k ts : ∀ t st, 0 <= t → paced t ts → status st = running → looping st = true → previous_symb_index st = reported t mod N → NoDup (ota_notifiers st) → k ∈ ota_notifiers st →
  ∃ st', runs w st (map Turn ts) st' ∧ told_to k st' = told_to k st ++ map point (seqZ (reported t + 1) (reported (last_of t ts) - reported t)) ∧ status st' = running ∧ looping st' = true ∧ 0 <= last_of t ts ∧ 0 <= reported (last_of t ts) - reported t.
Proof.
  induction ts as [|t' ts IH]; intros t st Ht HP HS HL HI Hd Hk.
  { exists st. split; [constructor|]. unfold last_of. cbn [List.last]. rewrite Z.sub_diag. split; [by rewrite app_nil_r|]. split; [done|]. split; [done|]. lia. }
  destruct HP as (Hgap & Hmax & Hb & HP). pose proof (reported_advances t t' Ht Hgap) as Ha. pose proof (poll_spec t' (reported t) ltac:(lia) Ha) as HPoll.
  assert (HO : point_offset t' (reported t') = 0) by (unfold point_offset; rewrite bool_decide_eq_false_2; [done|tauto]). rewrite HO in HPoll.
  set (st1 := mk_state (ota_notifiers st) (reported t' mod N) (status st) (looping st) (told st ++ concat (map (notify_slot_symbol_point (ota_notifiers st)) (map (λ c, point (c + 0)) (seqZ (reported t + 1) (reported t' - reported t)))))).
  assert (HStep : step w st (Turn t') = Ok st1) by (cbn [step]; rewrite decide_False by congruence; rewrite HI, HPoll; done).
  destruct (IH t' st1) as (st' & HR & HT & HS' & HL' & H0 & H1); [lia|done|done|done|done|done|done|]. exists st'. split; [econstructor; [exact HL|exact HStep|exact HR]|].
  assert (Hlast : last_of t (t' :: ts) = last_of t' ts) by (unfold last_of; destruct ts as [|x ts]; [done|]; cbn [List.last]; generalize x; clear; induction ts; intros x; [done|]; cbn [List.last] in *; done).
  rewrite Hlast. split; [|split; [done|]; split; [done|]; split; [done|]; lia]. rewrite HT. unfold told_to at 1, st1. cbn [told]. rewrite filter_app, map_app, told_points by done. rewrite <- app_assoc. f_equal.
  replace (reported (last_of t' ts) - reported t) with ((reported t' - reported t) + (reported (last_of t' ts) - reported t')) by lia.
  rewrite seqZ_app by lia. rewrite map_app. f_equal; [apply map_ext; intros c; by rewrite Z.add_0_r|]. do 2 f_equal. lia.
Qed.
End symbols.

(** ** What the worker promises *)
Import realtime_timing_worker.

Lemma create_ok cfg w : create cfg = Ok w → to_numerology_value (cfg_scs cfg) <= 3 → worker_ok w (get_nsymb_per_slot (cp cfg)) (to_numerology_value (cfg_scs cfg)).
Proof.
  unfold create. intros (alpha & _ & HE)%bind_Ok Hmu. destruct (sfitsb _ _); [|done]. cbn [assume mbind result_bind] in HE. injection HE as <-.
  assert (Hr : 0 <= to_numerology_value (cfg_scs cfg)) by (by destruct (cfg_scs cfg)).
  assert (HW : wrap 32 (get_nsymb_per_slot (cp cfg) * get_nof_slots_per_subframe (to_numerology_value (cfg_scs cfg)) * NOF_SUBFRAMES_PER_FRAME * 100) = get_nsymb_per_slot (cp cfg) * 2 ^ to_numerology_value (cfg_scs cfg) * 1000)
    by (destruct (cp cfg), (cfg_scs cfg); done || (cbn in Hmu; lia)).
  constructor; cbn [scs nof_symbols_per_slot nof_symbols_per_sec symbol_duration]; [done|destruct (cp cfg); tauto|done|done|exact HW|]. rewrite HW. done.
Qed.

(** C18: every symbol is told once and in order: a worker for a subcarrier spacing of 15 to 120
    kHz that is given its notifiers and started, and that then reads the clock at least every
    half second and never exactly at the first instant of a slot, has told each of its notifiers
    the symbols one after the other, without a gap and without a repetition, from the one after
    that of the start to that of the last reading.  The symbol of a reading is the one its time
    is in, or at the first instant of a symbol possibly the one before. *)
Theorem symbols_told_once cfg w notifiers k t ts st :
  create cfg = Ok w → to_numerology_value (cfg_scs cfg) <= 3 → looping st = false → NoDup notifiers → k ∈ notifiers → 0 <= t →
  let n := get_nsymb_per_slot (cp cfg) in let mu := to_numerology_value (cfg_scs cfg) in
  paced mu t ts →
  ∃ st' first last, runs w st (Subscribe notifiers :: Start t :: map Turn ts) st' ∧ taken n mu t first ∧ taken n mu (last_of t ts) last ∧ first <= last ∧
    told_to k st' = told_to k st ++ map (point n mu) (seqZ (first + 1) (last - first)).
Proof.
  intros HE Hmu HL Hd Hk Ht n mu HP. pose proof (create_ok cfg w HE Hmu) as HW. fold n mu in HW. destruct (reported_spec w n mu HW t Ht) as [HT HI].
  set (st0 := mk_state notifiers (previous_symb_index st) (status st) (looping st) (told st)). set (st1 := mk_state notifiers (reported w n mu t mod (n * 2 ^ mu * 1000)) running true (told st)).
  destruct (turns_spec w n mu HW k ts t st1 Ht HP) as (st' & HR & HTold & _ & _ & H0 & H1); [done..|]. exists st', (reported w n mu t), (reported w n mu (last_of t ts)).
  split; [|split; [done|]; split; [by apply reported_spec|]; split; [lia|exact HTold]].
  apply (runs_cons w st _ st0); [cbn; by rewrite HL|done|]. apply (runs_cons w st0 _ st1); [cbn; by rewrite HL|cbn [step]; by rewrite HI|exact HR].
Qed.

(** What one look at the clock tells, at any time: the symbols after [r0], the one of the
    look before, up to that of the time, unless the time is exactly the first instant of a slot
    and the quotient of the durations, rounded, falls short of the number of the slot's first
    symbol.  The symbols told are then a whole slot ahead. *)
Theorem poll_tells cfg w t r0 : create cfg = Ok w → to_numerology_value (cfg_scs cfg) <= 3 → 0 <= t < 2 ^ 62 →
  let n := get_nsymb_per_slot (cp cfg) in let mu := to_numerology_value (cfg_scs cfg) in let N := n * 2 ^ mu * 1000 in
  let r := reported w n mu t in 0 <= r - r0 < N →
  taken n mu t r ∧
  poll w t (r0 mod N) = Ok (r mod N, map (λ c, point n mu (c + if bool_decide (on_boundary mu t ∧ r ≠ symbol_at n mu t) then n else 0)) (seqZ (r0 + 1) (r - r0))).
Proof.
  intros HE Hmu Ht n mu N r Hr. pose proof (create_ok cfg w HE Hmu) as HW. fold n mu in HW. split; [apply reported_spec; [done|lia]|]. by apply (poll_spec w n mu HW t r0).
Qed.

(** A request to stop ends the loop at its next turn and nothing more is told; without a loop,
    before a start or after an end, nothing but a start will answer it. *)
Lemma stop_ends w st t : status st = stop_requested → looping st = true →
  ∃ st', step w st (Turn t) = Ok st' ∧ status st' = stopped ∧ looping st' = false ∧ told st' = told st.
Proof. intros HS HL. cbn [step]. rewrite decide_True by done. by eexists. Qed.

Lemma stop_unanswered w es : ∀ st st', status st = stop_requested → looping st = false → Forall (λ e, ∀ t, e ≠ Start t) es → runs w st es st' → status st' ≠ stopped.
Proof.
  induction es as [|e es IH]; intros st st' HS HL HF HR; inversion HR as [|? ? st1 ? ? He Hs HR']; subst; [by rewrite HS|]. apply Forall_cons in HF as [Hn HF].
  destruct e as [ns|t|t|]; cbn [enabled step] in *; [|by specialize (Hn t)|congruence|]; injection Hs as <-.
  - by apply (IH (mk_state ns (previous_symb_index st) (status st) (looping st) (told st))).
  - by apply (IH (mk_state (ota_notifiers st) (previous_symb_index st) stop_requested (looping st) (told st))).
Qed.

Module timing_examples.

Definition cfg : realtime_worker_cfg := mk_cfg NORMAL kHz30 0 0.
Definition clock : worker := match create cfg with Ok w => w | Fault _ => mk_worker kHz15 0 0 S754_nan 0 end.

(** [ns] nanoseconds into second 1000 of the GPS. *)
Definition at_ns (ns : Z) : Z := 1000000000000 + ns.

Lemma symbols_told_once_witness :
  ∃ st' first last, runs clock initial [Subscribe [7; 9]%nat; Start (at_ns (-50000)); Turn (at_ns (-10)); Turn (at_ns 10); Turn (at_ns 80000)] st' ∧
    taken 14 1 (at_ns (-50000)) first ∧ taken 14 1 (at_ns 80000) last ∧ first <= last ∧ told_to 9 st' = map (point 14 1) (seqZ (first + 1) (last - first)).
Proof.
  apply (symbols_told_once cfg clock [7; 9]%nat 9 (at_ns (-50000)) [at_ns (-10); at_ns 10; at_ns 80000] initial).
  - vm_compute. reflexivity.
  - vm_compute. discriminate.
  - reflexivity.
  - apply (bool_decide_eq_true_1 _). vm_compute. reflexivity.
  - apply elem_of_cons. right. apply elem_of_cons. by left.
  - vm_compute. discriminate.
  - repeat split; vm_compute; discriminate.
Defined.

(** The clock is read exactly at a boundary of slots, after symbol 12 of the slot that ends: its
    last symbol, 13, is told as symbol 13 of the slot that begins. *)
Lemma poll_tells_witness : poll clock (at_ns 500000) 12 = Ok (13, [point 14 1 (symbol_at 14 1 (at_ns 500000) + 13)]).
Proof.
  destruct (poll_tells cfg clock (at_ns 500000) (symbol_at 14 1 (at_ns 500000) - 2)) as [_ HP].
  - vm_compute. reflexivity.
  - vm_compute. discriminate.
  - vm_compute. split; [discriminate|reflexivity].
  - vm_compute. split; [discriminate|reflexivity].
  - vm_compute in HP. vm_compute. exact HP.
Defined.

(** Microseconds are too coarse for the slots of 240 kHz: in slot 15 of a subframe the slot is
    taken for 0. *)
Example slots_240_kHz : calculate_slot_point kHz240 0 992 (1000 / get_nof_slots_per_subframe 4) = slot_point.of_subframe 4 0 0 0.
Proof. vm_compute. reflexivity. Qed.
End timing_examples.
