(* ===== verification/Prach.v ===== *)
(** * Prach: preamble formats, their times and their place in frequency

    Models include/srsran/ran/prach/prach_subcarrier_spacing.h, prach_format_type.h,
    lib/ran/prach/prach_preamble_information.cpp (the two tables of preambles),
    prach_frequency_mapping.cpp, of include/srsran/ran/phy_time_unit.h what they use, and the
    static functions of lib/ofh/transmitter/ofh_uplink_request_handler_impl.cpp that place an
    occasion in time.  Times are computed in double precision where the code does so. *)

From S2P Require Import Prelude Float SlotPoint OfhBase TxSupport Tdd.

(** ** Subcarrier spacings *)
Inductive prach_subcarrier_spacing : Type := ra_kHz15 | ra_kHz30 | ra_kHz60 | ra_kHz120 | ra_kHz1_25 | ra_kHz5 | ra_invalid.
#[export] Instance prach_scs_eq_dec : EqDecision prach_subcarrier_spacing.
Proof. solve_decision. Defined.

Definition prach_scs_value (scs : prach_subcarrier_spacing) : Z :=
  match scs with ra_kHz15 => 0 | ra_kHz30 => 1 | ra_kHz60 => 2 | ra_kHz120 => 3 | ra_kHz1_25 => 4 | ra_kHz5 => 5 | ra_invalid => 6 end.
Definition ra_is_scs_valid (scs : prach_subcarrier_spacing) : bool := prach_scs_value scs <? prach_scs_value ra_invalid.
Definition ra_is_short_preamble (ra_scs : prach_subcarrier_spacing) : bool :=
  negb (prach_scs_value ra_scs =? prach_scs_value ra_invalid) && (prach_scs_value ra_scs <? prach_scs_value ra_kHz1_25).
Definition ra_to_numerology_value (ra_scs : prach_subcarrier_spacing) : result Z :=
  assume (ra_is_short_preamble ra_scs) AssertFailed;; Ok (prach_scs_value ra_scs).
Definition ra_scs_to_Hz (ra_scs : prach_subcarrier_spacing) : result Z :=
  assume (ra_is_scs_valid ra_scs) AssertFailed;;
  match ra_scs with
  | ra_kHz1_25 => Ok 1250
  | ra_kHz5 => Ok 5000
  | _ => m ← ra_to_numerology_value ra_scs; Ok (wrap 32 (15000 ≪ m))
  end.
Definition to_ra_subcarrier_spacing (scs : subcarrier_spacing) : prach_subcarrier_spacing :=
  match scs with kHz15 => ra_kHz15 | kHz30 => ra_kHz30 | kHz60 => ra_kHz60 | kHz120 => ra_kHz120 | kHz240 | scs_invalid => ra_invalid end.

(** ** Formats *)
Inductive prach_format_type : Type := fmt_zero | fmt_one | fmt_two | fmt_three | A1 | A2 | A3 | B1 | B4 | C0 | C2 | A1_B1 | A2_B2 | A3_B3 | fmt_invalid.
#[export] Instance prach_format_eq_dec : EqDecision prach_format_type.
Proof. solve_decision. Defined.

Definition is_long_preamble (f : prach_format_type) : bool := match f with fmt_zero | fmt_one | fmt_two | fmt_three => true | _ => false end.
Definition is_short_preamble (f : prach_format_type) : bool := match f with fmt_zero | fmt_one | fmt_two | fmt_three | fmt_invalid => false | _ => true end.

(** ** [phy_time_unit]: multiples of [T_c], in 64 bits *)
Module phy_time_unit.

Definition MAX_SCS_HZ : Z := 480 * 1000.
Definition N_F : Z := 4096.
Definition T_C : spec_float := f64_div (f64_of_Z 1) (f64_of_Z (MAX_SCS_HZ * N_F)).
Definition SCS_REF_HZ : Z := 15 * 1000.
Definition N_F_REF : Z := 2048.
Definition KAPPA : Z := 64.

Abbreviation t := Z.

Definition from_units_of_kappa (units_of_kappa : Z) : t := units_of_kappa * KAPPA.
Definition to_seconds (value : t) : spec_float := f64_mul (f64_of_Z value) T_C.
(** [static_cast<int64_t>] of a [double] that is not negative. *)
Definition to_int64 (x : spec_float) : result Z :=
  match sf_floor x with Some z => assume (sfitsb 64 z) SignedOverflow;; Ok z | None => Fault SignedOverflow end.
Definition from_seconds (seconds : spec_float) : result t :=
  let tc_units_dbl := f64_div seconds T_C in
  tc_units ← to_int64 (f64_mul tc_units_dbl (f64_of_Z 10));
  Ok (Z.quot tc_units 10 + Z.quot (Z.rem tc_units 10) 5).
Definition is_sample_accurate (value sampling_rate_Hz : Z) : bool := Z.rem (Z.abs value * sampling_rate_Hz) (SCS_REF_HZ * N_F_REF * KAPPA) =? 0.
Definition to_samples (value sampling_rate_Hz : Z) : result Z :=
  assume (is_sample_accurate value sampling_rate_Hz) AssertFailed;;
  Ok (Z.quot (value * sampling_rate_Hz) (SCS_REF_HZ * N_F_REF * KAPPA)).

End phy_time_unit.

(** ** Preambles *)
Record prach_preamble_information : Type := mk_preamble {
  sequence_length : Z; pi_scs : prach_subcarrier_spacing; pi_nof_symbols : Z; cp_length : phy_time_unit.t; support_restricted_sets : bool }.

Definition symbol_length (info : prach_preamble_information) : result phy_time_unit.t :=
  hz ← ra_scs_to_Hz (pi_scs info); phy_time_unit.from_seconds (f64_div (f64_of_Z (pi_nof_symbols info)) (f64_of_Z hz)).

Definition get_prach_preamble_long_info (format : prach_format_type) : result prach_preamble_information :=
  assume (is_long_preamble format) AssertFailed;;
  Ok match format with
     | fmt_zero => mk_preamble 839 ra_kHz1_25 1 (phy_time_unit.from_units_of_kappa 3168) true
     | fmt_one => mk_preamble 839 ra_kHz1_25 2 (phy_time_unit.from_units_of_kappa 21024) true
     | fmt_two => mk_preamble 839 ra_kHz1_25 4 (phy_time_unit.from_units_of_kappa 4688) true
     | _ => mk_preamble 839 ra_kHz5 4 (phy_time_unit.from_units_of_kappa 3168) true
     end.

Definition get_prach_preamble_short_info (format : prach_format_type) (ra_scs : prach_subcarrier_spacing) (last_occasion : bool) : result prach_preamble_information :=
  assume (is_short_preamble format && ra_is_short_preamble ra_scs) AssertFailed;;
  numerology ← ra_to_numerology_value ra_scs;
  let kappa x := phy_time_unit.from_units_of_kappa (x ≫ numerology) in
  let info n cp := mk_preamble 139 ra_scs n (kappa cp) false in
  Ok match format with
     | A1 => info 2 288
     | A2 => info 4 576
     | A3 => info 6 864
     | B1 => info 2 216
     | B4 => info 12 936
     | C0 => info 1 1240
     | C2 => info 4 2048
     | A1_B1 => info 2 (if last_occasion then 216 else 288)
     | A2_B2 => info 4 (if last_occasion then 360 else 576)
     | _ => info 6 (if last_occasion then 504 else 864)
     end.

(** The information the fronthaul asks for, in three places. *)
Definition preamble_info (format : prach_format_type) (pusch_scs : subcarrier_spacing) : result prach_preamble_information :=
  if is_long_preamble format then get_prach_preamble_long_info format
  else get_prach_preamble_short_info format (to_ra_subcarrier_spacing pusch_scs) true.

(** ** Frequency mapping *)
Record prach_frequency_mapping_information : Type := mk_mapping { nof_rb_ra : Z; k_bar : Z }.
Definition PRACH_FREQUENCY_MAPPING_INFORMATION_RESERVED : prach_frequency_mapping_information := mk_mapping 0 0.

Definition prach_frequency_mapping_get (prach_scs : prach_subcarrier_spacing) (pusch_scs : subcarrier_spacing) : prach_frequency_mapping_information :=
  match prach_scs, pusch_scs with
  | ra_kHz1_25, kHz15 => mk_mapping 6 7
  | ra_kHz1_25, kHz30 => mk_mapping 3 1
  | ra_kHz1_25, kHz60 => mk_mapping 2 133
  | ra_kHz5, kHz15 => mk_mapping 24 12
  | ra_kHz5, kHz30 => mk_mapping 12 10
  | ra_kHz5, kHz60 => mk_mapping 6 7
  | ra_kHz15, kHz15 => mk_mapping 12 2
  | ra_kHz15, kHz30 => mk_mapping 6 2
  | ra_kHz15, kHz60 => mk_mapping 3 2
  | ra_kHz30, kHz15 => mk_mapping 24 2
  | ra_kHz30, kHz30 => mk_mapping 12 2
  | ra_kHz30, kHz60 => mk_mapping 6 2
  | ra_kHz60, kHz60 => mk_mapping 12 2
  | ra_kHz60, kHz120 => mk_mapping 6 2
  | ra_kHz120, kHz60 => mk_mapping 24 2
  | ra_kHz120, kHz120 => mk_mapping 12 2
  | _, _ => PRACH_FREQUENCY_MAPPING_INFORMATION_RESERVED
  end.

(** ** Occasions *)
(** Of [prach_buffer_context] the members the fronthaul reads. *)
Record prach_buffer_context : Type := mk_occasion {
  pb_sector : Z; pb_slot : slot_point.t; pb_start_symbol : Z; pb_format : prach_format_type; rb_offset : Z;
  nof_td_occasions : Z; nof_fd_occasions : Z; pusch_scs : subcarrier_spacing }.

(** [static_cast<unsigned>] and [static_cast<int>] of a [double]: towards zero, undefined out
    of range. *)
Definition trunc_unsigned (x : spec_float) : result Z := to_unsigned (sf_floor x).
Definition to_int32 (x : spec_float) : result Z :=
  let t := match x with S754_finite true _ _ => sf_ceil x | _ => sf_floor x end in
  match t with
  | Some z => assume (sfitsb 32 z) SignedOverflow;; Ok z
  | None => Fault SignedOverflow
  end.

Definition get_prach_cplane_filter_index (context : prach_buffer_context) (info : prach_preamble_information) : filter_index_type :=
  if decide (pb_format context = fmt_three) then ul_prach_preamble_5kHz
  else if is_long_preamble (pb_format context) then ul_prach_preamble_1p25khz
  else if decide (pb_format context = C0) then (if decide (pi_scs info = ra_kHz15) then ul_prach_preamble_short_15kHz else ul_prach_preamble_short_30kHz)
  else if decide (pb_format context = C2) then (if decide (pi_scs info = ra_kHz15) then ul_prach_preamble_short_15kHz else ul_prach_preamble_short_30kHz)
  else ul_prach_preamble_short.

Definition prach_length_slots (context : prach_buffer_context) : result Z :=
  let nof_symbols_per_slot := get_nsymb_per_slot NORMAL in
  assume (is_long_preamble (pb_format context)) AssertFailed;;
  info ← get_prach_preamble_long_info (pb_format context);
  let pusch_symbol_duration_msec :=
    f64_div (f64_of_Z 1) (f64_of_Z (wrap 32 (get_nof_slots_per_subframe (to_numerology_value (pusch_scs context)) * nof_symbols_per_slot))) in
  len ← symbol_length info;
  let len_msecs := f64_mul (f64_add (phy_time_unit.to_seconds (cp_length info)) (phy_time_unit.to_seconds len)) (f64_of_Z 1000) in
  nof_symbols ← to_unsigned (sf_ceil (f64_div len_msecs pusch_symbol_duration_msec));
  to_unsigned (sf_ceil (f64_div (f64_of_Z (wrap 32 (pb_start_symbol context + nof_symbols))) (f64_of_Z nof_symbols_per_slot))).
Definition get_long_prach_length_slots (context : prach_buffer_context) : result slot_point.t :=
  n ← prach_length_slots context; slot_point.add_int (pb_slot context) (swrap 32 (n - 1)).

Definition get_prach_start_symbol (context : prach_buffer_context) : result Z :=
  info ← preamble_info (pb_format context) (pusch_scs context);
  let numerology := if is_short_preamble (pb_format context) then prach_scs_value (pi_scs info) else 0 in
  let symbol_duration_sec := phy_time_unit.to_seconds (phy_time_unit.from_units_of_kappa ((144 + 2048) ≫ numerology)) in
  let cp_length_sec := phy_time_unit.to_seconds (cp_length info) in
  k ← trunc_unsigned (f64_div cp_length_sec symbol_duration_sec);
  Ok (wrap 32 (pb_start_symbol context + k)).

(** ** Times in integers *)

(** The cyclic prefix and the length of the preamble in units of kappa, of which there are
    30720 in a subframe. *)
Definition prefix_kappa (info : prach_preamble_information) : Z := cp_length info / phy_time_unit.KAPPA.
Definition sequence_kappa (info : prach_preamble_information) : Z :=
  pi_nof_symbols info * match pi_scs info with ra_kHz1_25 => 24576 | ra_kHz5 => 6144 | s => 2048 / 2 ^ prach_scs_value s end.
Definition ceil_div (a b : Z) : Z := (a + b - 1) / b.

(** How many slots of the data subcarrier spacing a preamble that starts at a symbol reaches into. *)
Definition spanned_slots (info : prach_preamble_information) (scs : subcarrier_spacing) (start : Z) : Z :=
  ceil_div (start + ceil_div ((prefix_kappa info + sequence_kappa info) * 14 * 2 ^ to_numerology_value scs) 30720) 14.

Definition result_eqb (x : result Z) (z : Z) : bool := match x with Ok y => y =? z | Fault _ => false end.
Lemma result_eqb_spec x z : result_eqb x z = true → x = Ok z.
Proof. destruct x as [y|f]; [|done]. cbn. by intros ->%Z.eqb_eq. Qed.

Definition long_formats : list prach_format_type := [fmt_zero; fmt_one; fmt_two; fmt_three].
Definition fr1_spacings : list subcarrier_spacing := [kHz15; kHz30; kHz60].

Definition check_length (f : prach_format_type) (scs : subcarrier_spacing) (start : Z) : bool :=
  match get_prach_preamble_long_info f with
  | Ok info => result_eqb (prach_length_slots (mk_occasion 0 slot_point.invalid start f 0 1 1 scs)) (spanned_slots info scs start)
  | Fault _ => false
  end.
Lemma lengths_checked : forallb (λ f, forallb (λ scs, forallb (check_length f scs) (seqZ 0 14)) fr1_spacings) long_formats = true.
Proof. vm_compute. reflexivity. Qed.

Lemma prach_length_spec context info : get_prach_preamble_long_info (pb_format context) = Ok info → pusch_scs context ∈ fr1_spacings → 0 <= pb_start_symbol context < 14 →
  prach_length_slots context = Ok (spanned_slots info (pusch_scs context) (pb_start_symbol context)).
Proof.
  intros HI Hscs Hs. pose proof lengths_checked as HA. rewrite forallb_forall in HA. assert (Hf : pb_format context ∈ long_formats) by (destruct (pb_format context); try done; unfold long_formats; set_solver).
  specialize (HA _ (proj1 (list_elem_of_In _ _) Hf)). rewrite forallb_forall in HA. specialize (HA _ (proj1 (list_elem_of_In _ _) Hscs)). rewrite forallb_forall in HA.
  specialize (HA (pb_start_symbol context) (proj1 (list_elem_of_In _ _) (proj2 (elem_of_seqZ 0 14 (pb_start_symbol context)) ltac:(lia)))). unfold check_length in HA. rewrite HI in HA. apply result_eqb_spec in HA. exact HA.
Qed.

Definition check_spanned (f : prach_format_type) (scs : subcarrier_spacing) (start : Z) : bool :=
  match get_prach_preamble_long_info f with Ok info => (1 <=? spanned_slots info scs start) && (spanned_slots info scs start <=? 32) | Fault _ => false end.
Lemma spanned_checked : forallb (λ f, forallb (λ scs, forallb (check_spanned f scs) (seqZ 0 14)) fr1_spacings) long_formats = true.
Proof. vm_compute. reflexivity. Qed.

Lemma spanned_bounds f scs start info : get_prach_preamble_long_info f = Ok info → scs ∈ fr1_spacings → 0 <= start < 14 → 1 <= spanned_slots info scs start <= 32.
Proof.
  intros HI Hscs Hs. pose proof spanned_checked as HA. rewrite forallb_forall in HA. assert (Hf : f ∈ long_formats) by (destruct f; try done; unfold long_formats; set_solver).
  specialize (HA _ (proj1 (list_elem_of_In _ _) Hf)). rewrite forallb_forall in HA. specialize (HA _ (proj1 (list_elem_of_In _ _) Hscs)). rewrite forallb_forall in HA.
  specialize (HA start (proj1 (list_elem_of_In _ _) (proj2 (elem_of_seqZ 0 14 start) ltac:(lia)))). unfold check_spanned in HA. rewrite HI in HA. apply andb_prop in HA as [H1%Z.leb_le H2%Z.leb_le]. done.
Qed.

(** The first symbol after the cyclic prefix. *)
Definition prefix_symbols (format : prach_format_type) (scs : subcarrier_spacing) : result Z :=
  info ← preamble_info format scs;
  let numerology := if is_short_preamble format then prach_scs_value (pi_scs info) else 0 in
  trunc_unsigned (f64_div (phy_time_unit.to_seconds (cp_length info)) (phy_time_unit.to_seconds (phy_time_unit.from_units_of_kappa ((144 + 2048) ≫ numerology)))).
Definition skipped_symbols (f : prach_format_type) : Z := match f with fmt_zero | fmt_three => 1 | fmt_one => 9 | fmt_two => 2 | _ => 0 end.
Definition formats : list prach_format_type := [fmt_zero; fmt_one; fmt_two; fmt_three; A1; A2; A3; B1; B4; C0; C2; A1_B1; A2_B2; A3_B3].
Definition spacings : list subcarrier_spacing := [kHz15; kHz30; kHz60; kHz120].

Lemma prefixes_checked : forallb (λ f, forallb (λ scs, result_eqb (prefix_symbols f scs) (skipped_symbols f)) spacings) formats = true.
Proof. vm_compute. reflexivity. Qed.

Lemma start_symbol_spec context : pb_format context ∈ formats → pusch_scs context ∈ spacings → 0 <= pb_start_symbol context < 64 →
  get_prach_start_symbol context = Ok (pb_start_symbol context + skipped_symbols (pb_format context)).
Proof.
  intros Hf Hscs Hs. pose proof prefixes_checked as HA. rewrite forallb_forall in HA. specialize (HA _ (proj1 (list_elem_of_In _ _) Hf)). rewrite forallb_forall in HA. specialize (HA _ (proj1 (list_elem_of_In _ _) Hscs)).
  apply result_eqb_spec in HA. unfold prefix_symbols in HA. unfold get_prach_start_symbol. destruct (preamble_info _ _) as [info|]; [|done]. cbn [mbind result_bind] in *. cbn zeta in *. rewrite HA. cbn [mbind result_bind].
  f_equal. apply wrap_small. assert (0 <= skipped_symbols (pb_format context) <= 9) by (destruct (pb_format context); cbn; lia). lia_fits.
Qed.
