(* ===== verification/PrachFlow.v ===== *)
(** * PrachFlow: received PRACH messages become the samples of a preamble

    Models lib/phy/support/prach_buffer_impl.h, lib/ofh/support/prach_context_repository.h,
    lib/ofh/receiver/ofh_data_flow_uplane_uplink_prach_impl.cpp,
    ofh_uplane_prach_symbol_data_flow_writer.cpp, ofh_uplane_prach_data_flow_notifier.cpp and
    the PRACH part of ofh_closed_rx_window_handler.cpp: an occasion is registered with a buffer,
    the messages received for it are written to the buffer, and the buffer is notified when it
    is complete or when the reception windows of the slot have closed.

    The buffers belong to the physical layer: the repository has pointers to them.  They are
    the elements of a list, and the functions that write thread it. *)

From S2P Require Import Prelude Bf16 Float SlotPoint OfhBase OfhCplane OfhUplane BoundedBitset BitsetSpec ResourceGrid OfhCompression OfhReceiver TxSupport Prach UplinkContext UplinkFlow.
Import tensor.

Definition LONG_SEQUENCE_LENGTH : Z := 839.
Definition SHORT_SEQUENCE_MAX_NOF_SYMBOLS : Z := 12.
Definition zero_sample : cbf16_t := mk_cbf16 0 0.

(** ** [prach_buffer_impl] *)
Module prach_buffer.

(** The dimensions are resource elements, symbols, frequency-domain occasions, time-domain
    occasions and ports. *)
Abbreviation t := (tensor.t cbf16_t).

Definition create (max_nof_ports max_nof_td_occasions max_nof_fd_occasions max_nof_symbols sequence_length : Z) : t :=
  tensor.resize zero_sample (tensor.mk [0; 0; 0; 0; 0] []) [sequence_length; max_nof_symbols; max_nof_fd_occasions; max_nof_td_occasions; max_nof_ports].

Definition dimension (b : t) (i : nat) : Z := nth i (dimensions_size b) 0.
Definition get_sequence_length (b : t) : Z := dimension b 0.
Definition get_max_nof_symbols (b : t) : Z := dimension b 1.
Definition get_max_nof_fd_occasions (b : t) : Z := dimension b 2.
Definition get_max_nof_td_occasions (b : t) : Z := dimension b 3.
Definition get_max_nof_ports (b : t) : Z := dimension b 4.

Definition get_symbol (b : t) (i_port i_td_occasion i_fd_occasion i_symbol : Z) : result window :=
  assume (i_port <? get_max_nof_ports b) AssertFailed;;
  assume (i_td_occasion <? get_max_nof_td_occasions b) AssertFailed;;
  assume (i_fd_occasion <? get_max_nof_fd_occasions b) AssertFailed;;
  assume (i_symbol <? get_max_nof_symbols b) AssertFailed;;
  get_view 1 b [i_symbol; i_fd_occasion; i_td_occasion; i_port].

End prach_buffer.

(** ** [prach_context] *)
Module prach_context.

(** The buffer is a position in the list of buffers, the null pointer [None]. *)
Record info : Type := mk_info { context : prach_buffer_context; buffer : option nat }.
Record t : Type := mk {
  context_info : info; buffer_stats : list (list bounded_bitset.t); preamble : prach_preamble_information;
  freq_mapping : prach_frequency_mapping_information; nof_symbols : Z; start_symbol : Z }.

(** [prach_context{}]: what has no initial value is never read while there is no buffer. *)
Definition default : t :=
  mk (mk_info (mk_occasion 0 slot_point.invalid 0 fmt_invalid 0 0 0 kHz15) None) []
     (mk_preamble 0 ra_invalid 0 0 false) PRACH_FREQUENCY_MAPPING_INFORMATION_RESERVED 0 0.

Definition create (buffers : list prach_buffer.t) (ctx : prach_buffer_context) (buf : nat) (start_symbol_ : option Z) : result t :=
  assume (nof_fd_occasions ctx =? 1) AssertFailed;;
  assume (nof_td_occasions ctx =? 1) AssertFailed;;
  info ← preamble_info (pb_format ctx) (pusch_scs ctx);
  let mapping := prach_frequency_mapping_get (pi_scs info) (pusch_scs ctx) in
  b ← vec_at buffers (Z.of_nat buf);
  bits ← bounded_bitset.create LONG_SEQUENCE_LENGTH (sequence_length info);
  assume (prach_buffer.get_max_nof_ports b <=? MAX_NOF_SUPPORTED_EAXC) AssertFailed;;
  assume (pi_nof_symbols info <=? SHORT_SEQUENCE_MAX_NOF_SYMBOLS) AssertFailed;;
  Ok (mk (mk_info ctx (Some buf))
        (replicate (Z.to_nat (pi_nof_symbols info)) (replicate (Z.to_nat (prach_buffer.get_max_nof_ports b)) bits))
        info mapping (pi_nof_symbols info) (from_option id (pb_start_symbol ctx) start_symbol_)).

Definition empty (c : t) : bool := match buffer (context_info c) with None => true | Some _ => false end.
Definition get_context (c : t) : prach_buffer_context := context (context_info c).
Definition get_prach_nof_re (c : t) : Z := if empty c then 0 else sequence_length (preamble c).
Definition get_prach_offset_to_first_re (c : t) : Z := k_bar (freq_mapping c).
Definition get_max_nof_ports (buffers : list prach_buffer.t) (c : t) : result Z :=
  match buffer (context_info c) with
  | None => Ok 0
  | Some i => b ← vec_at buffers (Z.of_nat i); Ok (prach_buffer.get_max_nof_ports b)
  end.

(** The symbol within the preamble.  Some radio units always send symbol 0 for long formats. *)
Definition preamble_symbol (c : t) (symbol : Z) : Z :=
  if is_long_preamble (pb_format (context (context_info c)))
  then (if start_symbol c <=? symbol then symbol - start_symbol c else symbol)
  else wrap 32 (symbol - start_symbol c).

Definition write_iq (buffers : list prach_buffer.t) (c : t) (port symbol re_start : Z) (iq_buffer : list cbf16_t) : result (list prach_buffer.t * t) :=
  let symbol := preamble_symbol c symbol in
  match buffer (context_info c) with
  | None => Fault AssertFailed
  | Some i =>
      assume (symbol <? nof_symbols c) AssertFailed;;
      b ← vec_at buffers (Z.of_nat i);
      if prach_buffer.get_max_nof_ports b <=? port then Ok (buffers, c) else
      prach_out_buffer ← prach_buffer.get_symbol b port (wrap 32 (nof_fd_occasions (context (context_info c)) - 1))
        (wrap 32 (nof_td_occasions (context (context_info c)) - 1)) symbol;
      assume (wrap 64 (len prach_out_buffer - re_start) <=? len prach_out_buffer) AssertFailed;;
      assume (zlen iq_buffer <=? wrap 64 (len prach_out_buffer - re_start)) AssertFailed;;
      dst ← window_sub prach_out_buffer re_start (zlen iq_buffer);
      els ← store (elements b) dst iq_buffer;
      row ← vec_at (buffer_stats c) symbol;
      bits ← vec_at row port;
      bits ← bounded_bitset.fill false bits re_start (re_start + zlen iq_buffer) true;
      Ok (<[i := tensor.mk (dimensions_size b) els]> buffers,
          mk (context_info c) (<[Z.to_nat symbol := <[Z.to_nat port := bits]> row]> (buffer_stats c)) (preamble c) (freq_mapping c) (nof_symbols c) (start_symbol c))
  end.

Definition have_all_res_been_written (row : list bounded_bitset.t) : result bool := uplink_context.all_of row.
Fixpoint all_symbols (rows : list (list bounded_bitset.t)) : result bool :=
  match rows with
  | [] => Ok true
  | row :: rows => x ← have_all_res_been_written row; if (x : bool) then all_symbols rows else Ok false
  end.

Definition try_getting_complete_prach_buffer (c : t) : result (option info) :=
  match buffer (context_info c) with
  | None => Ok None
  | Some _ => w ← all_symbols (buffer_stats c); Ok (if (w : bool) then Some (context_info c) else None)
  end.

End prach_context.

(** ** [prach_context_repository] *)
Module prach_context_repository.
Import prach_context.

Abbreviation t := (list prach_context.t).

Definition create (size_ : Z) : t := replicate (Z.to_nat size_) default.

Definition entry (r : t) (slot : slot_point.t) : result (Z * prach_context.t) :=
  index ← entry_index (zlen r) slot; c ← vec_at r index; Ok (index, c).

Definition add (buffers : list prach_buffer.t) (r : t) (ctx : prach_buffer_context) (buf : nat) (start_symbol : option Z) (slot : option slot_point.t) : result t :=
  let current_slot := from_option id (pb_slot ctx) slot in
  c ← prach_context.create buffers ctx buf start_symbol;
  '(index, _) ← entry r current_slot;
  Ok (<[Z.to_nat index := c]> r).

Definition write_iq (buffers : list prach_buffer.t) (r : t) (slot : slot_point.t) (port symbol re_start : Z) (iq_buffer : list cbf16_t) : result (list prach_buffer.t * t) :=
  '(index, c) ← entry r slot;
  '(buffers, c) ← prach_context.write_iq buffers c port symbol re_start iq_buffer;
  Ok (buffers, <[Z.to_nat index := c]> r).

Definition get (r : t) (slot : slot_point.t) : result prach_context.t := '(_, c) ← entry r slot; Ok c.

Definition try_poping_complete_prach_buffer (r : t) (slot : slot_point.t) : result (t * option info) :=
  '(index, c) ← entry r slot;
  x ← try_getting_complete_prach_buffer c;
  match x with
  | Some i => Ok (<[Z.to_nat index := default]> r, Some i)
  | None => Ok (r, None)
  end.

Definition pop_prach_buffer (r : t) (slot : slot_point.t) : result (t * option info) :=
  '(index, c) ← entry r slot;
  if empty c then Ok (r, None) else Ok (<[Z.to_nat index := default]> r, Some (context_info c)).

Definition clear (r : t) (slot : slot_point.t) : result t :=
  '(index, _) ← entry r slot; Ok (<[Z.to_nat index := default]> r).

End prach_context_repository.

(** ** The data flow *)
Module prach_data_flow.
Import uplane prach_context_repository.

(** The parts that change; the notifier is given the context of the occasion and its buffer. *)
Record state : Type := mk_state {
  buffers : list prach_buffer.t; prach_repo : prach_context_repository.t;
  ul_cplane_context_repo : uplink_cplane_context_repository.t; notified : list prach_context.info }.
Definition with_prach (st : state) (x : list prach_buffer.t * prach_context_repository.t) : state := mk_state x.1 x.2 (ul_cplane_context_repo st) (notified st).

(** *** [uplane_prach_symbol_data_flow_writer] *)
Section writer.
Context (slot : slot_point.t) (port symbol prach_nof_res nof_re_to_prach_data prach_nof_prbs nof_re_after_prach_data prach_data_start_prb : Z).

Definition write_section (x : list prach_buffer.t * prach_context_repository.t) (section : uplane_section_params) : result (list prach_buffer.t * prach_context_repository.t) :=
  if prach_nof_prbs <=? sec_start_prb section then Ok x else
  if sec_start_prb section + sec_nof_prbs section <=? prach_data_start_prb then Ok x else
  let nof_prbs_to_write := prach_nof_prbs - sec_start_prb section in
  let nof_prbs_to_write := if sec_start_prb section + sec_nof_prbs section <? prach_nof_prbs then sec_nof_prbs section else nof_prbs_to_write in
  let start_re := Z.max 0 (swrap 32 (wrap 64 (sec_start_prb section * NOF_SUBCARRIERS_PER_RB - nof_re_to_prach_data))) in
  let section_start_re := sec_start_prb section * NOF_SUBCARRIERS_PER_RB in
  let section_nof_re := nof_prbs_to_write * NOF_SUBCARRIERS_PER_RB in
  let section_nof_re :=
    if prach_nof_prbs <=? sec_start_prb section + sec_nof_prbs section then wrap 32 (section_nof_re - nof_re_after_prach_data) else section_nof_re in
  let '(iq_start_re, section_nof_re) :=
    if section_start_re <? nof_re_to_prach_data
    then (nof_re_to_prach_data - section_start_re, wrap 32 (section_nof_re - (nof_re_to_prach_data - section_start_re)))
    else (0, section_nof_re) in
  let iq_size_re := Z.min section_nof_re prach_nof_res in
  prach_in_data ← subspan (iq_samples section) iq_start_re iq_size_re;
  write_iq x.1 x.2 slot port symbol start_re prach_in_data.
End writer.

Definition write_to_prach_buffer (prach_eaxc : list Z) (x : list prach_buffer.t * prach_context_repository.t) (eaxc : Z) (results : uplane_message_decoder_results)
    : result (list prach_buffer.t * prach_context_repository.t) :=
  let slot := d_slot (params results) in
  c ← get x.2 slot;
  if prach_context.empty c then Ok x else
  let port := uplink_data_flow.find_port prach_eaxc eaxc in
  max_nof_ports ← prach_context.get_max_nof_ports x.1 c;
  if max_nof_ports <=? port then Ok x else
  let prach_nof_res := prach_context.get_prach_nof_re c in
  let nof_re_to_prach_data := prach_context.get_prach_offset_to_first_re c in
  prach_nof_prbs ← to_unsigned (sf_ceil (f32_div (f32_of_Z (wrap 32 (prach_nof_res + nof_re_to_prach_data))) (f32_of_Z NOF_SUBCARRIERS_PER_RB)));
  let nof_re_after_prach_data := wrap 32 (prach_nof_prbs * NOF_SUBCARRIERS_PER_RB - (prach_nof_res + nof_re_to_prach_data)) in
  let prach_data_start_prb := nof_re_to_prach_data / NOF_SUBCARRIERS_PER_RB in
  fold_result (write_section slot port (d_symbol_id (params results)) prach_nof_res nof_re_to_prach_data prach_nof_prbs nof_re_after_prach_data prach_data_start_prb)
    x (sections results).

(** *** [data_flow_uplane_uplink_prach_impl] *)
Definition section_filtered (cp_context : uplink_cplane_context_repository.ul_cplane_context) (up_section : uplane_section_params) : bool :=
  if MAX_NOF_PRBS - 1 <? sec_start_prb up_section then true
  else if MAX_NOF_PRBS <? sec_start_prb up_section + sec_nof_prbs up_section then true
  else uplink_data_flow.section_filtered cp_context up_section.

Definition should_uplane_packet_be_filtered (is_prach_cplane_enabled : bool) (repo : uplink_cplane_context_repository.t) (eaxc : Z) (results : uplane_message_decoder_results) : result bool :=
  let p := params results in
  if negb (is_a_prach_message (d_filter_index p)) then Ok true
  else if negb is_prach_cplane_enabled then Ok false else
  ex_cp_context ← uplink_cplane_context_repository.get repo (d_slot p) (d_symbol_id p) (d_filter_index p) eaxc;
  match ex_cp_context with
  | None => Ok true
  | Some cp_context => Ok (existsb (section_filtered cp_context) (sections results))
  end.

(** *** [uplane_prach_data_flow_notifier] *)
Definition notify_prach (st : state) (slot : slot_point.t) : result state :=
  '(r, context) ← try_poping_complete_prach_buffer (prach_repo st) slot;
  Ok (mk_state (buffers st) r (ul_cplane_context_repo st) (notified st ++ option_list context)).

Section flow.
Context {decompressor : IqDecompressor} (uplane_decoder : decoder) (is_prach_cplane_enabled : bool) (prach_eaxc : list Z).

Definition decode_type1_message (st : state) (eaxc : Z) (message : list Z) : result state :=
  '(valid, results) ← decode uplane_decoder uplink_data_flow.no_results message;
  if negb valid then Ok st else
  filtered ← should_uplane_packet_be_filtered is_prach_cplane_enabled (ul_cplane_context_repo st) eaxc results;
  if (filtered : bool) then Ok st else
  x ← write_to_prach_buffer prach_eaxc (buffers st, prach_repo st) eaxc results;
  notify_prach (with_prach st x) (d_slot (params results)).
End flow.

(** *** [uplink_request_handler_impl::handle_prach_occasion]

    The slot in which the messages of an occasion are expected, and its registration. *)
Definition occasion_slot (ctx : prach_buffer_context) : result slot_point.t :=
  if is_short_preamble (pb_format ctx) then Ok (pb_slot ctx) else get_long_prach_length_slots ctx.

Definition add_occasion (buffers : list prach_buffer.t) (r : prach_context_repository.t) (ctx : prach_buffer_context) (buf : nat) : result prach_context_repository.t :=
  if is_short_preamble (pb_format ctx) then add buffers r ctx buf None None else
  slot ← get_long_prach_length_slots ctx;
  start_symbol ← get_prach_start_symbol ctx;
  add buffers r ctx buf (Some start_symbol) (Some slot).
Definition register_occasion (st : state) (ctx : prach_buffer_context) (buf : nat) : result state :=
  r ← add_occasion (buffers st) (prach_repo st) ctx buf; Ok (with_prach st (buffers st, r)).

(** *** [closed_rx_window_handler] *)
Definition handle_prach_context (st : state) (symbol_point : slot_symbol_point.t) : result state :=
  symbol ← slot_symbol_point.get_symbol_index symbol_point;
  if negb (symbol =? 0) then Ok st else
  s ← slot_symbol_point.get_slot symbol_point;
  slot ← slot_point.sub_int s 1;
  '(r, context) ← pop_prach_buffer (prach_repo st) slot;
  Ok (mk_state (buffers st) r (ul_cplane_context_repo st) (notified st ++ option_list context)).

End prach_data_flow.

(** ** Buffers *)
Section buffers.
Import prach_buffer.

(** The number of symbols in the storage of a port. *)
Definition port_rows (b : t) : Z := get_max_nof_symbols b * get_max_nof_fd_occasions b * get_max_nof_td_occasions b.
Definition buffer_ok (b : t) : Prop :=
  dimensions_size b = [get_sequence_length b; get_max_nof_symbols b; get_max_nof_fd_occasions b; get_max_nof_td_occasions b; get_max_nof_ports b] ∧
  0 < get_sequence_length b ∧ 0 < get_max_nof_symbols b ∧ 0 < get_max_nof_fd_occasions b ∧ 0 < get_max_nof_td_occasions b ∧ 0 < get_max_nof_ports b ∧
  get_sequence_length b * (port_rows b * get_max_nof_ports b) < 2 ^ 31 ∧
  zlen (elements b) = get_sequence_length b * (port_rows b * get_max_nof_ports b).

Definition in_buffer (b : t) (port s : Z) : Prop := 0 <= port < get_max_nof_ports b ∧ 0 <= s < get_max_nof_symbols b.
Definition prach_row_index (b : t) (port s : Z) : nat := Z.to_nat (s + port_rows b * port).
Definition prach_row (b : t) (port s : Z) : list cbf16_t := row_at (Z.to_nat (get_sequence_length b)) (elements b) (prach_row_index b port s).
Definition with_prach_row (b : t) (port s : Z) (r : list cbf16_t) : t :=
  tensor.mk (dimensions_size b) (set_row_at (Z.to_nat (get_sequence_length b)) (elements b) (prach_row_index b port s) r).

Lemma port_rows_bound b : buffer_ok b → get_max_nof_symbols b <= port_rows b.
Proof.
  intros (_ & _ & Hs & Hf & Ht & _). unfold port_rows. assert (get_max_nof_symbols b <= get_max_nof_symbols b * get_max_nof_fd_occasions b) by (apply Z.le_mul_diag_r; lia).
  etransitivity; [done|]. apply Z.le_mul_diag_r; lia.
Qed.

Lemma prach_index_bound b port s : buffer_ok b → in_buffer b port s →
  Z.of_nat (prach_row_index b port s) = s + port_rows b * port ∧ s + port_rows b * port + 1 <= port_rows b * get_max_nof_ports b.
Proof.
  intros HB [Hp Hs]. pose proof (port_rows_bound b HB). unfold prach_row_index. assert (0 <= port_rows b * port) by (apply Z.mul_nonneg_nonneg; lia).
  assert (port_rows b * port <= port_rows b * (get_max_nof_ports b - 1)) by (apply Z.mul_le_mono_nonneg_l; lia). split; lia.
Qed.

Lemma prach_index_inj b port s port' s' : buffer_ok b → in_buffer b port s → in_buffer b port' s' →
  prach_row_index b port s = prach_row_index b port' s' → port = port' ∧ s = s'.
Proof.
  intros HB H H' HE. pose proof (port_rows_bound b HB). destruct (prach_index_bound b port s HB H) as [H1 _], (prach_index_bound b port' s' HB H') as [H2 _].
  destruct H as [Hp Hs], H' as [Hp' Hs']. assert (HZ : s + port_rows b * port = s' + port_rows b * port') by lia.
  destruct (Z.lt_trichotomy port port') as [?|[->|?]]; [nia|lia|nia].
Qed.

Lemma prach_rows b port s : buffer_ok b → in_buffer b port s →
  (prach_row_index b port s * Z.to_nat (get_sequence_length b) + Z.to_nat (get_sequence_length b) <= length (elements b))%nat.
Proof.
  intros HB H. destruct (prach_index_bound b port s HB H) as [HE Hb]. destruct HB as (_ & HL & _ & _ & _ & _ & _ & Hz). unfold zlen in Hz.
  apply Nat2Z.inj_le. rewrite Nat2Z.inj_add, Nat2Z.inj_mul, HE, Z2Nat.id, Hz by lia. nia.
Qed.

Lemma zlen_prach_row b port s : buffer_ok b → in_buffer b port s → zlen (prach_row b port s) = get_sequence_length b.
Proof.
  intros HB H. destruct (row_split _ _ _ (prach_rows b port s HB H)) as (_ & _ & HL). unfold zlen, prach_row. rewrite HL. destruct HB as (_ & ? & _). lia.
Qed.

Lemma get_symbol_spec b port s : buffer_ok b → in_buffer b port s →
  get_symbol b port 0 0 s = Ok (mk_window ((s + port_rows b * port) * get_sequence_length b) (get_sequence_length b)).
Proof.
  intros HB H. destruct (prach_index_bound b port s HB H) as [_ Hi]. destruct HB as (Hd & HL & HS & HF & HT & HP & Hlt & Hz), H as [Hp Hs]. unfold get_symbol. do 4 pass_assume.
  set (L := get_sequence_length b) in *. unfold port_rows in *. set (S := get_max_nof_symbols b) in *. set (F := get_max_nof_fd_occasions b) in *. set (T := get_max_nof_td_occasions b) in *. set (P := get_max_nof_ports b) in *.
  assert (B4 : 0 < L * (S * F * T * P) < 2 ^ 31) by nia. assert (B0 : L < 2 ^ 31) by nia. assert (B1 : L * S < 2 ^ 31) by nia. assert (B2 : L * S * F < 2 ^ 31) by nia. assert (B3 : L * S * F * T < 2 ^ 31) by nia.
  assert (HA : accumulate [L; S; F; T; P] = L * (S * F * T * P)).
  { unfold accumulate. cbn [foldl]. rewrite Z.mul_1_l, (wrap_small 32 L), (wrap_small 32 (L * S)), (wrap_small 32 (L * S * F)), (wrap_small 32 (L * S * F * T)), (wrap_small 32 (L * S * F * T * P)) by (unfold fits; change (2 ^ 31) with 2147483648 in *; change (2 ^ 32) with 4294967296; nia). ring. }
  unfold get_view, get_data. rewrite Hd, HA, <- Hz. cbn [len]. pass_assume. rewrite window_sub_ok by (cbn [len]; pose proof (zlen_nonneg (elements b)); lia). cbn [mbind result_bind start].
  unfold get_view_offset. rewrite Hd. cbn [take drop zip zip_with]. assert (HA1 : accumulate [L] = L) by (apply accumulate_1; unfold_fits; lia). rewrite HA1.
  do 4 (cbn [mbind result_bind fold_result add_dimension]; pass_assume). cbn [mbind result_bind fold_result].
  rewrite !Z.mul_0_r, !Z.add_0_r, Z.add_0_l.
  assert (Hsl : 0 <= L * s < 2 ^ 31) by nia. assert (Hpl : 0 <= L * S * F * T * port) by nia. assert (Hall : L * s + L * S * F * T * port <= L * (S * F * T * P) - L) by nia.
  rewrite (wrap_small 32 (L * S)), (wrap_small 32 (L * S * F)), (wrap_small 32 (L * S * F * T)) by (unfold fits; change (2 ^ 31) with 2147483648 in *; change (2 ^ 32) with 4294967296; nia).
  repeat rewrite (wrap_small 32 (L * s)) by (unfold_fits; lia). rewrite (wrap_small 32 (L * s + _)) by (unfold_fits; lia).
  rewrite window_sub_ok by (cbn [len]; lia). do 2 f_equal. cbn [start]. ring.
Qed.

Lemma with_prach_row_ok b port s r : buffer_ok b → in_buffer b port s → zlen r = get_sequence_length b →
  buffer_ok (with_prach_row b port s r) ∧ ∀ port' s', in_buffer b port' s' →
    prach_row (with_prach_row b port s r) port' s' = if decide (port = port' ∧ s = s') then r else prach_row b port' s'.
Proof.
  intros HB H Hr. pose proof (prach_rows b port s HB H) as HX. destruct (row_split _ _ _ HX) as (HS & HL & _). split.
  - destruct HB as (?&?&?&?&?&?&?&Hz). do 7 (split; [done|]). change (zlen (set_row_at (Z.to_nat (get_sequence_length b)) (elements b) (prach_row_index b port s) r) = get_sequence_length b * (port_rows b * get_max_nof_ports b)).
    rewrite <- Hz. unfold set_row_at. unfold zlen in *. rewrite !length_app, HL, length_drop. lia.
  - intros port' s' H'. change (prach_row (with_prach_row b port s r) port' s') with (row_at (Z.to_nat (get_sequence_length b))
      (set_row_at (Z.to_nat (get_sequence_length b)) (elements b) (prach_row_index b port s) r) (prach_row_index b port' s')).
    rewrite row_at_set by (by apply prach_rows || (unfold zlen in Hr; lia)). destruct (decide (port = port' ∧ s = s')) as [[-> ->]|Hne]; [by rewrite decide_True|].
    rewrite decide_False; [done|]. intros HE. by apply Hne, (prach_index_inj b).
Qed.

Lemma prach_row_context b port s : buffer_ok b → in_buffer b port s →
  ∃ u v, zlen u = (s + port_rows b * port) * get_sequence_length b ∧ elements b = u ++ prach_row b port s ++ v ∧
    ∀ r, with_prach_row b port s r = tensor.mk (dimensions_size b) (u ++ r ++ v).
Proof.
  intros HB H. destruct (row_split _ _ _ (prach_rows b port s HB H)) as (HS & HL & _). destruct (prach_index_bound b port s HB H) as [HI _].
  eexists _, _. split; [|split; [exact HS|done]]. unfold zlen. rewrite HL, Nat2Z.inj_mul, HI. destruct HB as (_ & ? & _). by rewrite Z2Nat.id by lia.
Qed.
End buffers.

(** ** The part of a section that belongs to the preamble *)

(** The preamble of [L] elements starts [k] elements after the first block. *)
Definition covered (L k : Z) (sec : uplane.uplane_section_params) : Z * Z :=
  (Z.max 0 (12 * uplane.sec_start_prb sec - k), Z.min L (12 * (uplane.sec_start_prb sec + uplane.sec_nof_prbs sec) - k)).
Definition covered_samples (L k : Z) (sec : uplane.uplane_section_params) : list cbf16_t :=
  let '(a, b) := covered L k sec in
  take (Z.to_nat (b - a)) (drop (Z.to_nat (a + k - 12 * uplane.sec_start_prb sec)) (uplane.iq_samples sec)).

(** The number of blocks, computed in single precision. *)
Definition prach_prbs (L k : Z) : Z := ceil_div (L + k) 12.
Definition check_prbs (L k : Z) : bool :=
  match sf_ceil (f32_div (f32_of_Z (L + k)) (f32_of_Z 12)) with Some z => z =? prach_prbs L k | None => false end.
Lemma prbs_checked : forallb (λ L, forallb (check_prbs L) (seqZ 0 134)) [139; 839] = true.
Proof. vm_compute. reflexivity. Qed.

Lemma prach_prbs_spec L k : L = 139 ∨ L = 839 → 0 <= k <= 133 →
  to_unsigned (sf_ceil (f32_div (f32_of_Z (wrap 32 (L + k))) (f32_of_Z NOF_SUBCARRIERS_PER_RB))) = Ok (prach_prbs L k) ∧
  12 * (prach_prbs L k - 1) < L + k <= 12 * prach_prbs L k.
Proof.
  intros HL Hk. rewrite (wrap_small 32) by lia_fits. pose proof prbs_checked as HA. rewrite forallb_forall in HA.
  assert (HI : In L [139; 839]) by (destruct HL as [-> | ->]; cbn; auto). specialize (HA L HI). rewrite forallb_forall in HA.
  specialize (HA k (proj1 (list_elem_of_In _ _) (proj2 (elem_of_seqZ 0 134 k) ltac:(lia)))). unfold check_prbs in HA. change NOF_SUBCARRIERS_PER_RB with 12.
  destruct (sf_ceil _) as [z|]; [|done]. apply Z.eqb_eq in HA as ->. assert (HB : 12 * (prach_prbs L k - 1) < L + k <= 12 * prach_prbs L k) by (unfold prach_prbs, ceil_div; lia).
  split; [|done]. unfold to_unsigned. by rewrite (proj2 (fitsb_spec 32 _)) by (unfold_fits; lia).
Qed.

Section section_window.
Import uplane prach_data_flow.
Context (L k : Z) (HL : L = 139 ∨ L = 839) (Hk : 0 <= k <= 133).

(** The writer cuts from a section exactly the part that belongs to the preamble. *)
Lemma write_section_spec slot port symbol x sec : section_value sec → 0 < sec_nof_prbs sec →
  write_section slot port symbol L k (prach_prbs L k) (wrap 32 (prach_prbs L k * NOF_SUBCARRIERS_PER_RB - (L + k))) (k / NOF_SUBCARRIERS_PER_RB) x sec =
    (if (covered L k sec).1 <? (covered L k sec).2 then prach_context_repository.write_iq x.1 x.2 slot port symbol (covered L k sec).1 (covered_samples L k sec) else Ok x) ∧
  ((covered L k sec).1 < (covered L k sec).2 → 0 <= (covered L k sec).1 ∧ (covered L k sec).2 <= L ∧ zlen (covered_samples L k sec) = (covered L k sec).2 - (covered L k sec).1).
Proof.
  intros (Hs & Hn & Hz) Hn1. destruct (prach_prbs_spec L k HL Hk) as [_ HP]. set (P := prach_prbs L k) in *. change NOF_SUBCARRIERS_PER_RB with 12.
  set (sp := sec_start_prb sec) in *. set (n := sec_nof_prbs sec) in *. unfold write_section. fold sp n. change NOF_SUBCARRIERS_PER_RB with 12.
  rewrite (wrap_small 32 (P * 12 - (L + k))) by (unfold_fits; lia). unfold covered_samples, covered. fold sp n. cbn [fst snd].
  set (a := Z.max 0 (12 * sp - k)). set (b := Z.min L (12 * (sp + n) - k)).
  assert (HZ : a < b → 0 <= a ∧ b <= L ∧ 0 <= a + k - 12 * sp ∧ a + k - 12 * sp + (b - a) <= n * 12) by (unfold a, b; lia).
  split.
  2: { intros Hab. destruct (HZ Hab) as (H1 & H2 & H3 & H4). split; [lia|]. split; [lia|]. unfold zlen in *. rewrite length_take, length_drop. lia. }
  destruct (Z.leb_spec P sp) as [HPs|HPs]; [by rewrite (proj2 (Z.ltb_ge a b)) by (unfold a, b; lia)|].
  destruct (Z.leb_spec (sp + n) (k / 12)) as [Hks|Hks]; [by rewrite (proj2 (Z.ltb_ge a b)) by (unfold a, b; lia)|].
  assert (Hab : a < b) by (unfold a, b; lia). rewrite (proj2 (Z.ltb_lt a b)) by done. destruct (HZ Hab) as (H1 & H2 & H3 & H4).
  assert (HA : Z.max 0 (swrap 32 (wrap 64 (sp * 12 - k))) = a).
  { unfold a, swrap, wrap. change (2 ^ 64) with 18446744073709551616. change (2 ^ 32) with 4294967296. change (2 ^ (32 - 1)) with 2147483648. cbn zeta. repeat case_Z; lia. }
  rewrite HA. set (m := if sp + n <? P then n else P - sp). set (m2 := if P <=? sp + n then wrap 32 (m * 12 - (P * 12 - (L + k))) else m * 12).
  assert (Hm2 : m2 = Z.min (12 * n) (L + k - 12 * sp)).
  { unfold m2, m. destruct (Z.ltb_spec (sp + n) P); [rewrite (proj2 (Z.leb_gt P _)) by lia; lia|]. rewrite (proj2 (Z.leb_le P _)) by lia. rewrite (wrap_small 32) by (unfold_fits; lia). lia. }
  rewrite Hm2. assert (HS : ∀ o c, o = a + k - 12 * sp → c = b - a → subspan (iq_samples sec) o c = Ok (take (Z.to_nat (b - a)) (drop (Z.to_nat (a + k - 12 * sp)) (iq_samples sec)))).
  { intros o c -> ->. unfold subspan. rewrite Hz. by do 2 pass_assume. }
  destruct (Z.ltb_spec (sp * 12) k); cbn iota beta zeta.
  - rewrite (wrap_small 32) by (unfold_fits; lia). rewrite HS by (unfold a, b; lia). done.
  - rewrite HS by (unfold a, b; lia). done.
Qed.
End section_window.

(** ** Occasions as cells *)

(** What is expected in a slot: the occasion, its buffer, and per symbol and port which
    elements of the preamble have arrived. *)
Record occasion : Type := mk_cell {
  oc_context : prach_buffer_context; oc_buffer : nat; oc_preamble : prach_preamble_information; oc_offset : Z; oc_start : Z; oc_marks : list (list (list bool)) }.

Definition occasion_info (o : occasion) : prach_context.info := prach_context.mk_info (oc_context o) (Some (oc_buffer o)).
Definition occasion_of (c : prach_context.t) : option occasion :=
  match prach_context.buffer (prach_context.context_info c) with
  | None => None
  | Some i => Some (mk_cell (prach_context.context (prach_context.context_info c)) i (prach_context.preamble c) (k_bar (prach_context.freq_mapping c)) (prach_context.start_symbol c)
                      (map (map (bits_of false)) (prach_context.buffer_stats c)))
  end.

(** The symbol of the preamble a received symbol stands for. *)
Definition oc_symbol (o : occasion) (symbol : Z) : Z :=
  if is_long_preamble (pb_format (oc_context o)) then (if oc_start o <=? symbol then symbol - oc_start o else symbol) else wrap 32 (symbol - oc_start o).
Definition oc_complete (o : occasion) : bool := forallb (forallb (forallb id)) (oc_marks o).
Definition oc_mark (s port a b : Z) (o : occasion) : occasion :=
  mk_cell (oc_context o) (oc_buffer o) (oc_preamble o) (oc_offset o) (oc_start o)
    (alter (alter (spec.fill (Z.to_nat a) (Z.to_nat b) true) (Z.to_nat port)) (Z.to_nat s) (oc_marks o)).

Section cells.
Import prach_context prach_context_repository.
Context (size : Z) (Hsize : 0 < size).

(** A context whose marks have the shape of its buffer. *)
Definition prach_context_ok (bufs : list prach_buffer.t) (c : prach_context.t) : Prop :=
  ∀ i, buffer (context_info c) = Some i →
    ∃ b, bufs !! i = Some b ∧ buffer_ok b ∧ sequence_length (preamble c) <= prach_buffer.get_sequence_length b ∧ nof_symbols c <= prach_buffer.get_max_nof_symbols b ∧
      (sequence_length (preamble c) = 139 ∨ sequence_length (preamble c) = 839) ∧ 0 <= k_bar (freq_mapping c) <= 133 ∧ nof_symbols c = pi_nof_symbols (preamble c) ∧ 0 <= start_symbol c < 2 ^ 31 ∧
      nof_fd_occasions (context (context_info c)) = 1 ∧ nof_td_occasions (context (context_info c)) = 1 ∧
      zlen (buffer_stats c) = nof_symbols c ∧
      Forall (λ row, zlen row = prach_buffer.get_max_nof_ports b ∧ Forall (λ s, bounded_bitset.wf LONG_SEQUENCE_LENGTH s ∧ bounded_bitset.size s = sequence_length (preamble c)) row) (buffer_stats c).

Record prach_abstract : Type := mk_prach_abstract { occasions : nat → option occasion; prach_samples : nat → Z → Z → list cbf16_t }.

Record prach_realizes (bufs : list prach_buffer.t) (r : prach_context_repository.t) (a : prach_abstract) : Prop := {
  pr_buffers : Forall buffer_ok bufs;
  pr_size : zlen r = size;
  pr_contexts : Forall (prach_context_ok bufs) r;
  pr_cells : ∀ i c, r !! i = Some c → occasions a i = occasion_of c;
  pr_samples : ∀ i b port s, bufs !! i = Some b → in_buffer b port s → prach_samples a i port s = prach_row b port s }.

Lemma prach_entry r slot : zlen r = size → slot_point.wf slot →
  ∃ c, entry r slot = Ok (Z.of_nat (index_of size slot), c) ∧ r !! index_of size slot = Some c.
Proof.
  intros Hz Hs. unfold entry. rewrite Hz, entry_index_spec by done. cbn [mbind result_bind]. pose proof (index_of_bound size Hsize slot).
  destruct (lookup_lt_is_Some_2 r (index_of size slot)) as [c Hc]; [unfold zlen in Hz; lia|]. exists c. split; [|done]. by rewrite (proj2 (vec_at_nat _ _ _) Hc).
Qed.

(** The shape of the buffers does not change. *)
Definition same_shape (bufs bufs' : list prach_buffer.t) : Prop := Forall2 (λ b b', dimensions_size b' = dimensions_size b ∧ (buffer_ok b → buffer_ok b')) bufs bufs'.

Lemma context_same_shape bufs bufs' c : same_shape bufs bufs' → prach_context_ok bufs c → prach_context_ok bufs' c.
Proof.
  intros HS HC i Hi. destruct (HC i Hi) as (b & Hb & HB & Hrest). destruct (Forall2_lookup_l _ _ _ _ _ HS Hb) as (b' & Hb' & Hd & Hok). exists b'. split; [done|]. split; [by apply Hok|].
  unfold prach_buffer.get_sequence_length, prach_buffer.get_max_nof_symbols, prach_buffer.get_max_nof_ports, prach_buffer.dimension in *. by rewrite Hd.
Qed.

(** Replacing the context of a slot. *)
Lemma realizes_set bufs r a i c c' v : prach_realizes bufs r a → r !! i = Some c → prach_context_ok bufs c' → occasion_of c' = v →
  prach_realizes bufs (<[i := c']> r) (mk_prach_abstract (λ j, if decide (i = j) then v else occasions a j) (prach_samples a)).
Proof.
  intros [HB Hz HC Hce Hs] Hi Hc' Hv. constructor; cbn [occasions prach_samples]; [done|unfold zlen in *; by rewrite length_insert|by apply Forall_insert| |done].
  intros j x Hj. destruct (decide (i = j)) as [<-|Hne]; [|rewrite list_lookup_insert_ne in Hj by done; by apply Hce].
  rewrite list_lookup_insert_eq in Hj by (by eapply lookup_lt_Some). by injection Hj as <-.
Qed.

Lemma marks_alter (c : list (list bounded_bitset.t)) s port row bits bits' (f : list bool → list bool) :
  c !! s = Some row → row !! port = Some bits → bits_of false bits' = f (bits_of false bits) →
  map (map (bits_of false)) (<[s := <[port := bits']> row]> c) = alter (alter f port) s (map (map (bits_of false)) c).
Proof.
  intros Hs Hp HE. change (map ?g ?l) with (g <$> l). rewrite list_fmap_insert. apply list_eq. intros j.
  destruct (decide (s = j)) as [<-|]; [|by rewrite list_lookup_alter_ne, list_lookup_insert_ne].
  rewrite list_lookup_alter_eq, list_lookup_fmap, Hs, list_lookup_insert_eq by (rewrite length_fmap; by eapply lookup_lt_Some). cbn [fmap option_fmap option_map].
  f_equal. symmetry. by apply (map_alter_insert f row port bits).
Qed.

(** Writing [iq] from element [x] on of the symbol [t] of the preamble. *)
Definition spec_write (a : prach_abstract) (i : nat) (o : occasion) (port t x : Z) (iq : list cbf16_t) : prach_abstract :=
  mk_prach_abstract (λ j, if decide (i = j) then Some (oc_mark t port x (x + zlen iq) o) else occasions a j)
    (λ buf p u, if decide (buf = oc_buffer o ∧ p = port ∧ u = t) then patch x iq (prach_samples a buf p u) else prach_samples a buf p u).

Lemma realized_context bufs r a slot o : prach_realizes bufs r a → slot_point.wf slot → occasions a (index_of size slot) = Some o →
  ∃ c b, entry r slot = Ok (Z.of_nat (index_of size slot), c) ∧ r !! index_of size slot = Some c ∧ occasion_of c = Some o ∧ buffer (context_info c) = Some (oc_buffer o) ∧
    bufs !! oc_buffer o = Some b ∧ vec_at bufs (Z.of_nat (oc_buffer o)) = Ok b ∧ buffer_ok b ∧ oc_preamble o = preamble c ∧ oc_offset o = k_bar (freq_mapping c) ∧ (∀ s, preamble_symbol c s = oc_symbol o s).
Proof.
  intros HR Hs Ho. destruct (prach_entry r slot (pr_size _ _ _ HR) Hs) as (c & HE & Hc). exists c. rewrite (pr_cells _ _ _ HR _ _ Hc) in Ho. pose proof Ho as Ho'.
  unfold occasion_of in Ho. destruct (buffer (context_info c)) as [i|] eqn:Hi; [|done]. injection Ho as <-. cbn [oc_buffer oc_preamble oc_offset].
  destruct (Forall_lookup_1 _ _ _ _ (pr_contexts _ _ _ HR) Hc i Hi) as (b & Hb & HB & _). exists b. split; [done|]. split; [done|]. split; [done|]. split; [done|]. split; [done|].
  split; [by apply vec_at_nat|]. split; [done|]. split; [done|]. split; [done|]. intros s. done.
Qed.

Lemma write_iq_spec bufs r a slot o b port symbol x iq :
  prach_realizes bufs r a → slot_point.wf slot → occasions a (index_of size slot) = Some o → bufs !! oc_buffer o = Some b → 0 <= port < prach_buffer.get_max_nof_ports b →
  0 <= symbol → 0 <= x → x + zlen iq <= sequence_length (oc_preamble o) →
  let t := oc_symbol o symbol in
  if t <? pi_nof_symbols (oc_preamble o)
  then ∃ bufs' r', write_iq bufs r slot port symbol x iq = Ok (bufs', r') ∧ prach_realizes bufs' r' (spec_write a (index_of size slot) o port t x iq) ∧ same_shape bufs bufs'
  else write_iq bufs r slot port symbol x iq = Fault AssertFailed.
Proof.
  intros HR Hslot Ho Hb Hport Hsym Hx Hlen t. destruct (realized_context bufs r a slot o HR Hslot Ho) as (c & b' & HE & Hc & Hoc & Hi & Hb' & Hvb & HB & Hpre & Hoff & HPS).
  rewrite Hb in Hb'. injection Hb' as <-. destruct (Forall_lookup_1 _ _ _ _ (pr_contexts _ _ _ HR) Hc _ Hi) as (b2 & Hb2 & _ & HsL & HsS & HL & Hk & Hn & Hst & Hfd & Htd & Hzs & HF).
  rewrite Hb in Hb2. injection Hb2 as <-. unfold write_iq. rewrite HE. cbn [mbind result_bind]. unfold prach_context.write_iq. rewrite Hi, HPS. fold t. rewrite Hpre in *. rewrite Hn in HsS, Hzs |- *.
  destruct (Z.ltb_spec t (pi_nof_symbols (preamble c))) as [Ht|Ht]; [|done]. cbn [assume mbind result_bind]. rewrite Hvb. cbn [mbind result_bind]. rewrite (proj2 (Z.leb_gt _ _)) by lia.
  assert (Ht0 : 0 <= t) by (unfold t, oc_symbol; destruct (is_long_preamble _); [case_Z; lia|apply wrap_fits; lia]).
  rewrite Hfd, Htd. change (wrap 32 (1 - 1)) with 0. assert (Hin : in_buffer b port t) by (split; lia). rewrite (get_symbol_spec b port t HB Hin). cbn [mbind result_bind len].
  pose proof (zlen_nonneg iq). pose proof HB as (_ & HL0 & _ & _ & _ & _ & HLb & _). assert (HLm : prach_buffer.get_sequence_length b < 2 ^ 31).
  { destruct HB as (_ & ? & ? & ? & ? & ? & Hlt & _). unfold port_rows in Hlt. nia. }
  rewrite (wrap_small 64) by (unfold_fits; lia). do 2 pass_assume. rewrite window_sub_ok by (cbn [len]; lia). cbn [mbind result_bind start].
  destruct (prach_row_context b port t HB Hin) as (u & v & Hu & HEl & HW). pose proof (zlen_prach_row b port t HB Hin) as Hzr. rewrite HEl, (store_middle u iq (prach_row b port t) v x) by (cbn [start len]; lia).
  cbn [mbind result_bind]. fold (patch x iq (prach_row b port t)). rewrite <- HW.
  destruct (vec_at_ok (buffer_stats c) t) as (row & HVr & HLr); [lia|]. rewrite HVr. cbn [mbind result_bind]. destruct (Forall_lookup_1 _ _ _ _ HF HLr) as [Hzrow HFr].
  destruct (vec_at_ok row port) as (bits & HVb & HLbits); [lia|]. rewrite HVb. cbn [mbind result_bind]. destruct (Forall_lookup_1 _ _ _ _ HFr HLbits) as [Hwb Hszb].
  destruct (fill_list LONG_SEQUENCE_LENGTH false ltac:(done) bits x (x + zlen iq) true Hwb) as (bits' & HFb & Hwb' & Hsb' & HBb'); [lia|lia|]. rewrite HFb. cbn [mbind result_bind].
  destruct (with_prach_row_ok b port t (patch x iq (prach_row b port t)) HB Hin) as [HBok HBrow]; [rewrite zlen_patch; lia|]. set (b1 := with_prach_row b port t (patch x iq (prach_row b port t))) in *.
  eexists _, _. split; [done|]. assert (HSh : same_shape bufs (<[oc_buffer o := b1]> bufs)).
  { apply Forall2_same_length_lookup_2; [by rewrite length_insert|]. intros j y y' Hy Hy'. destruct (decide (oc_buffer o = j)) as [<-|Hne].
    - rewrite list_lookup_insert_eq in Hy' by (by eapply lookup_lt_Some). rewrite Hb in Hy. injection Hy as <-. by injection Hy' as <-.
    - rewrite list_lookup_insert_ne in Hy' by done. rewrite Hy in Hy'. by injection Hy' as <-. }
  split; [|exact HSh]. rewrite Nat2Z.id. set (c' := mk _ _ _ _ _ _).
  assert (Hc' : prach_context_ok bufs c').
  { intros i' Hi'. cbn [c' context_info] in Hi'. rewrite Hi in Hi'. injection Hi' as <-. exists b. cbn [c' buffer_stats preamble freq_mapping nof_symbols start_symbol context_info].
    repeat (split; [done|]).
    split; [unfold zlen in *; by rewrite length_insert|]. apply Forall_insert; [done|]. split; [unfold zlen in *; by rewrite length_insert|]. apply Forall_insert; [done|]. by rewrite Hsb'. }
  assert (Hoc' : occasion_of c' = Some (oc_mark t port x (x + zlen iq) o)).
  { unfold occasion_of in Hoc |- *. cbn [c' context_info preamble freq_mapping start_symbol buffer_stats]. rewrite Hi in Hoc |- *. injection Hoc as <-. unfold oc_mark. cbn [oc_context oc_buffer oc_preamble oc_offset oc_start oc_marks].
    do 2 f_equal. by apply (marks_alter _ _ _ row bits bits'). }
  pose proof (realizes_set bufs r a _ c c' _ HR Hc Hc' Hoc') as [HB1 Hz1 HC1 Hce1 Hs1]. constructor; cbn [spec_write occasions prach_samples] in *; [|done| |done|].
  - apply Forall_insert; [apply HR|exact HBok].
  - eapply Forall_impl; [exact HC1|]. intros y. by apply context_same_shape.
  - intros j y p q Hj Hiny. destruct (decide (oc_buffer o = j)) as [<-|Hne].
    + rewrite list_lookup_insert_eq in Hj by (by eapply lookup_lt_Some). injection Hj as <-. assert (Hiny' : in_buffer b p q) by exact Hiny. rewrite HBrow by exact Hiny'. rewrite <- (Hs1 _ _ p q Hb Hiny').
      destruct (decide (port = p ∧ t = q)) as [[-> ->]|Hne]; [rewrite decide_True by done; by rewrite (Hs1 _ _ _ _ Hb Hin)|rewrite decide_False by naive_solver; done].
    + rewrite list_lookup_insert_ne in Hj by done. rewrite decide_False by naive_solver. by apply Hs1.
Qed.

End cells.

(** ** Operations on the cells *)

(** An occasion nothing has arrived for. *)
Definition fresh_occasion (ports : Z) (ctx : prach_buffer_context) (buf : nat) (info : prach_preamble_information) (start : Z) : occasion :=
  mk_cell ctx buf info (k_bar (prach_frequency_mapping_get (pi_scs info) (pusch_scs ctx))) start
    (replicate (Z.to_nat (pi_nof_symbols info)) (replicate (Z.to_nat ports) (replicate (Z.to_nat (sequence_length info)) false))).

Definition set_occasion (i : nat) (v : option occasion) (a : prach_abstract) : prach_abstract :=
  mk_prach_abstract (λ j, if decide (i = j) then v else occasions a j) (prach_samples a).

(** Takes an occasion out if [p] holds of it. *)
Definition take_occasion (p : occasion → bool) (i : nat) (a : prach_abstract) : prach_abstract * list prach_context.info :=
  match occasions a i with
  | Some o => if p o then (set_occasion i None a, [occasion_info o]) else (a, [])
  | None => (a, [])
  end.

(** The preambles the fronthaul supports. *)
Definition check_preamble (f : prach_format_type) (scs : subcarrier_spacing) : bool :=
  match preamble_info f scs with
  | Ok info =>
      (sequence_length info =? (if is_long_preamble f then 839 else 139)) && (0 <? pi_nof_symbols info) && (pi_nof_symbols info <=? 12) &&
      (0 <=? k_bar (prach_frequency_mapping_get (pi_scs info) scs)) && (k_bar (prach_frequency_mapping_get (pi_scs info) scs) <=? 133)
  | Fault _ => false
  end.
Lemma preambles_checked : forallb (λ f, forallb (check_preamble f) spacings) formats = true.
Proof. vm_compute. reflexivity. Qed.

Lemma preamble_spec f scs : f ∈ formats → scs ∈ spacings →
  ∃ info, preamble_info f scs = Ok info ∧ (sequence_length info = 139 ∨ sequence_length info = 839) ∧ 0 < pi_nof_symbols info <= 12 ∧
    0 <= k_bar (prach_frequency_mapping_get (pi_scs info) scs) <= 133.
Proof.
  intros Hf Hs. pose proof preambles_checked as HA. rewrite forallb_forall in HA. specialize (HA _ (proj1 (list_elem_of_In _ _) Hf)). rewrite forallb_forall in HA. specialize (HA _ (proj1 (list_elem_of_In _ _) Hs)).
  unfold check_preamble in HA. destruct (preamble_info f scs) as [info|]; [|done]. exists info. split; [done|].
  apply andb_prop in HA as [HA H5%Z.leb_le]. apply andb_prop in HA as [HA H4%Z.leb_le]. apply andb_prop in HA as [HA H3%Z.leb_le]. apply andb_prop in HA as [H1%Z.eqb_eq H2%Z.ltb_lt].
  split; [|lia]. rewrite H1. destruct (is_long_preamble f); auto.
Qed.

Section operations.
Import prach_context prach_context_repository.
Context (size : Z) (Hsize : 0 < size).

(** An occasion that fits a buffer of dimensions [d]. *)
Definition occasion_fits (d : list Z) (ctx : prach_buffer_context) (info : prach_preamble_information) : Prop :=
  nof_fd_occasions ctx = 1 ∧ nof_td_occasions ctx = 1 ∧ preamble_info (pb_format ctx) (pusch_scs ctx) = Ok info ∧ pb_format ctx ∈ formats ∧ pusch_scs ctx ∈ spacings ∧
  nth 4 d 0 <= MAX_NOF_SUPPORTED_EAXC ∧ sequence_length info <= nth 0 d 0 ∧ pi_nof_symbols info <= nth 1 d 0.

Lemma default_context_ok bufs : prach_context_ok bufs default.
Proof. by intros i Hi. Qed.

Lemma create_context_spec bufs ctx buf start b info : bufs !! buf = Some b → buffer_ok b → occasion_fits (dimensions_size b) ctx info → 0 <= from_option id (pb_start_symbol ctx) start < 2 ^ 31 →
  ∃ c, prach_context.create bufs ctx buf start = Ok c ∧ prach_context_ok bufs c ∧
    occasion_of c = Some (fresh_occasion (prach_buffer.get_max_nof_ports b) ctx buf info (from_option id (pb_start_symbol ctx) start)).
Proof.
  intros Hb HB (Hfd & Htd & HI & Hf & Hs & Hports & HLb & HSb) Hstart. change (prach_buffer.get_max_nof_ports b <= MAX_NOF_SUPPORTED_EAXC) in Hports. destruct (preamble_spec _ _ Hf Hs) as (info' & HI' & HL & HN & HK). rewrite HI in HI'. injection HI' as <-.
  unfold prach_context.create. rewrite Hfd, Htd, HI. cbn [assume mbind result_bind Z.eqb Pos.eqb]. rewrite (proj2 (vec_at_nat _ _ _) Hb). cbn [mbind result_bind].
  destruct (create_list LONG_SEQUENCE_LENGTH false ltac:(done) (sequence_length info)) as (bits & -> & Hw & Hz & HE); [unfold LONG_SEQUENCE_LENGTH; lia|]. cbn [mbind result_bind].
  unfold SHORT_SEQUENCE_MAX_NOF_SYMBOLS. do 2 pass_assume. eexists. split; [done|]. pose proof HB as (_ & _ & _ & _ & _ & HP & _). split.
  - intros i [= <-]. exists b. cbn [preamble freq_mapping nof_symbols start_symbol buffer_stats context_info context]. repeat (split; [done|]).
    split; [unfold zlen; rewrite length_replicate; lia|]. apply Forall_replicate. split; [unfold zlen; rewrite length_replicate; lia|]. by apply Forall_replicate.
  - unfold occasion_of, fresh_occasion. cbn [context_info buffer context preamble freq_mapping start_symbol buffer_stats]. do 2 f_equal. change (map ?g ?l) with (g <$> l).
    by rewrite !fmap_replicate, HE.
Qed.

Lemma add_occasion_spec bufs r a ctx buf start slot b info :
  prach_realizes size bufs r a → bufs !! buf = Some b → occasion_fits (dimensions_size b) ctx info → 0 <= from_option id (pb_start_symbol ctx) start < 2 ^ 31 → slot_point.wf (from_option id (pb_slot ctx) slot) →
  ∃ r', add bufs r ctx buf start slot = Ok r' ∧
    prach_realizes size bufs r' (set_occasion (index_of size (from_option id (pb_slot ctx) slot)) (Some (fresh_occasion (prach_buffer.get_max_nof_ports b) ctx buf info (from_option id (pb_start_symbol ctx) start))) a).
Proof.
  intros HR Hb HO Hst Hw. destruct (create_context_spec bufs ctx buf start b info Hb) as (c & HC & Hok & Hc); [by apply (Forall_lookup_1 _ _ _ _ (pr_buffers _ _ _ _ HR) Hb)|done|done|].
  destruct (prach_entry size Hsize r _ (pr_size _ _ _ _ HR) Hw) as (c0 & HE & H0). unfold add. rewrite HC. cbn [mbind result_bind]. rewrite HE. cbn [mbind result_bind].
  eexists. split; [done|]. rewrite Nat2Z.id. by apply (realizes_set size bufs r a _ c0 c).
Qed.

Lemma all_symbols_spec rows : Forall (Forall (bounded_bitset.wf LONG_SEQUENCE_LENGTH)) rows →
  all_symbols rows = Ok (forallb (forallb (forallb id)) (map (map (bits_of false)) rows)).
Proof.
  induction 1 as [|row rows Hr _ IH]; [done|]. cbn [all_symbols map forallb]. unfold have_all_res_been_written. rewrite (all_of_bits LONG_SEQUENCE_LENGTH) by done. cbn [mbind result_bind].
  by destruct (forallb (forallb id) _).
Qed.

Lemma try_complete_spec bufs c : prach_context_ok bufs c →
  try_getting_complete_prach_buffer c = Ok match occasion_of c with Some o => if oc_complete o then Some (occasion_info o) else None | None => None end.
Proof.
  intros HC. unfold try_getting_complete_prach_buffer, occasion_of. destruct (buffer (context_info c)) as [i|] eqn:Hi; [|done]. destruct (HC i Hi) as (b & _ & _ & _ & _ & _ & _ & _ & _ & _ & _ & _ & HF).
  rewrite all_symbols_spec by (eapply Forall_impl; [exact HF|]; intros row [_ Hrow]; eapply Forall_impl; [exact Hrow|]; by intros s [Hs _]). cbn [mbind result_bind]. unfold oc_complete. cbn [oc_marks].
  destruct (forallb _ _); [|done]. unfold occasion_info. cbn [oc_context oc_buffer]. destruct (context_info c) as [x y]. cbn in *. by subst.
Qed.

(** Taking a complete, or any, buffer out. *)
Lemma try_pop_occasion_spec bufs r a slot : prach_realizes size bufs r a → slot_point.wf slot →
  ∃ r' x, try_poping_complete_prach_buffer r slot = Ok (r', x) ∧ option_list x = (take_occasion oc_complete (index_of size slot) a).2 ∧
    prach_realizes size bufs r' (take_occasion oc_complete (index_of size slot) a).1.
Proof.
  intros HR Hw. destruct (prach_entry size Hsize r slot (pr_size _ _ _ _ HR) Hw) as (c & HE & Hc). pose proof (Forall_lookup_1 _ _ _ _ (pr_contexts _ _ _ _ HR) Hc) as Hok.
  unfold try_poping_complete_prach_buffer, take_occasion. rewrite HE. cbn [mbind result_bind]. rewrite (try_complete_spec bufs c Hok). cbn [mbind result_bind]. rewrite (pr_cells _ _ _ _ HR _ _ Hc).
  destruct (occasion_of c) as [o|] eqn:Ho; [|by eexists _, _]. destruct (oc_complete o); [|by eexists _, _]. eexists _, _. split; [done|]. split; [done|]. rewrite Nat2Z.id.
  by apply (realizes_set size bufs r a _ c default _ HR Hc (default_context_ok bufs)).
Qed.

Lemma pop_occasion_spec bufs r a slot : prach_realizes size bufs r a → slot_point.wf slot →
  ∃ r' x, pop_prach_buffer r slot = Ok (r', x) ∧ option_list x = (take_occasion (λ _, true) (index_of size slot) a).2 ∧
    prach_realizes size bufs r' (take_occasion (λ _, true) (index_of size slot) a).1.
Proof.
  intros HR Hw. destruct (prach_entry size Hsize r slot (pr_size _ _ _ _ HR) Hw) as (c & HE & Hc).
  unfold pop_prach_buffer, take_occasion. rewrite HE. cbn [mbind result_bind]. rewrite (pr_cells _ _ _ _ HR _ _ Hc). unfold empty, occasion_of.
  destruct (buffer (context_info c)) as [i|] eqn:Hi; [|by eexists _, _]. eexists _, _. split; [done|]. split.
  - cbn. unfold occasion_info. cbn [oc_context oc_buffer]. destruct (context_info c) as [x y]. cbn in *. by subst.
  - rewrite Nat2Z.id. by apply (realizes_set size bufs r a _ c default _ HR Hc (default_context_ok bufs)).
Qed.

Lemma clear_occasion_spec bufs r a slot : prach_realizes size bufs r a → slot_point.wf slot →
  ∃ r', clear r slot = Ok r' ∧ prach_realizes size bufs r' (set_occasion (index_of size slot) None a).
Proof.
  intros HR Hw. destruct (prach_entry size Hsize r slot (pr_size _ _ _ _ HR) Hw) as (c & HE & Hc). unfold clear. rewrite HE. cbn [mbind result_bind]. eexists. split; [done|]. rewrite Nat2Z.id.
  by apply (realizes_set size bufs r a _ c default _ HR Hc (default_context_ok bufs)).
Qed.
End operations.

(** ** A message against the occasions *)
Section messages.
Import uplane prach_context_repository prach_data_flow.
Context (size : Z) (Hsize : 0 < size) (dims : list (list Z)) (prach_eaxc : list Z).

(** The number of ports of a buffer. *)
Definition buffer_ports (buf : nat) : Z := nth 4 (nth buf dims []) 0.

(** The samples of a section that belong to the preamble of the occasion are stored; a symbol
    past the end of the preamble stops the program. *)
Definition spec_section (i : nat) (port symbol : Z) (a : prach_abstract) (sec : uplane_section_params) : result prach_abstract :=
  match occasions a i with
  | None => Ok a
  | Some o =>
      let L := sequence_length (oc_preamble o) in
      if (covered L (oc_offset o) sec).1 <? (covered L (oc_offset o) sec).2 then
        if oc_symbol o symbol <? pi_nof_symbols (oc_preamble o)
        then Ok (spec_write a i o port (oc_symbol o symbol) (covered L (oc_offset o) sec).1 (covered_samples L (oc_offset o) sec))
        else Fault AssertFailed
      else Ok a
  end.

Definition spec_message (a : prach_abstract) (eaxc : Z) (results : uplane_message_decoder_results) : result prach_abstract :=
  let i := index_of size (d_slot (params results)) in
  match occasions a i with
  | None => Ok a
  | Some o =>
      let port := uplink_data_flow.find_port prach_eaxc eaxc in
      if buffer_ports (oc_buffer o) <=? port then Ok a else fold_result (spec_section i port (d_symbol_id (params results))) a (sections results)
  end.

Definition of_dims (bufs : list prach_buffer.t) : Prop := map dimensions_size bufs = dims.

Lemma same_shape_dims bufs bufs' : same_shape bufs bufs' → of_dims bufs → of_dims bufs'.
Proof. unfold of_dims. intros HS <-. induction HS as [|b b' bufs bufs' [Hd _] _ IH]; [done|]. cbn [map]. by rewrite Hd, IH. Qed.

Lemma of_dims_ports bufs buf b : of_dims bufs → bufs !! buf = Some b → prach_buffer.get_max_nof_ports b = buffer_ports buf.
Proof.
  intros HD Hb. unfold buffer_ports. assert (HN : nth buf dims [] = dimensions_size b); [|by rewrite HN].
  apply nth_lookup_Some. rewrite <- HD. change (map ?g ?l) with (g <$> l). by rewrite list_lookup_fmap, Hb.
Qed.

Lemma find_port_nonneg eaxc : 0 <= uplink_data_flow.find_port prach_eaxc eaxc.
Proof. unfold uplink_data_flow.find_port. destruct (list_find _ _) as [[? ?]|]; [lia|apply zlen_nonneg]. Qed.

Lemma write_preamble_spec slot port symbol o P rest start secs :
  slot_point.wf slot → 0 <= port < buffer_ports (oc_buffer o) → 0 <= symbol →
  let L := sequence_length (oc_preamble o) in let k := oc_offset o in
  P = prach_prbs L k → rest = wrap 32 (prach_prbs L k * NOF_SUBCARRIERS_PER_RB - (L + k)) → start = k / NOF_SUBCARRIERS_PER_RB →
  Forall (λ sec, section_value sec ∧ 0 < sec_nof_prbs sec) secs → ∀ bufs r a o',
  prach_realizes size bufs r a → of_dims bufs → occasions a (index_of size slot) = Some o' → oc_buffer o' = oc_buffer o → oc_preamble o' = oc_preamble o → oc_offset o' = oc_offset o →
  match fold_result (spec_section (index_of size slot) port symbol) a secs with
  | Ok a' => ∃ bufs' r', fold_result (write_section slot port symbol L k P rest start) (bufs, r) secs = Ok (bufs', r') ∧ prach_realizes size bufs' r' a' ∧ of_dims bufs'
  | Fault f => fold_result (write_section slot port symbol L k P rest start) (bufs, r) secs = Fault f
  end.
Proof.
  intros Hslot Hport Hsym L k -> -> -> HF. induction HF as [|sec secs [Hsec Hn] HF IH]; intros bufs r a o' HR HD Ho Eb Ep Ek; cbn [fold_result]; [by exists bufs, r|].
  destruct (prach_entry size Hsize r slot (pr_size _ _ _ _ HR) Hslot) as (c & _ & Hc). pose proof Ho as Hoc. rewrite (pr_cells _ _ _ _ HR _ _ Hc) in Hoc. unfold occasion_of in Hoc. destruct (prach_context.buffer _) as [buf|] eqn:Hbuf; [|done].
  destruct (Forall_lookup_1 _ _ _ _ (pr_contexts _ _ _ _ HR) Hc _ Hbuf) as (b & Hb & HB & _ & _ & HL & Hk & _).
  assert (HO : oc_buffer o' = buf ∧ oc_preamble o' = prach_context.preamble c ∧ oc_offset o' = k_bar (prach_context.freq_mapping c)) by (by injection Hoc as <-).
  destruct HO as (E1 & E2 & E3). rewrite <- E2, Ep in HL. rewrite <- E3, Ek in Hk. fold L in HL. fold k in Hk. destruct (write_section_spec L k HL Hk slot port symbol (bufs, r) sec Hsec Hn) as [-> HC]. cbn [fst snd].
  unfold spec_section at 2. rewrite Ho, Ep, Ek. fold L k. destruct (Z.ltb_spec (covered L k sec).1 (covered L k sec).2) as [Hlt|]; [|by eapply IH].
  destruct (HC Hlt) as (H0 & H1 & H2). assert (Hp : 0 <= port < prach_buffer.get_max_nof_ports b) by (by rewrite (of_dims_ports bufs buf b HD Hb), <- E1, Eb).
  rewrite <- E1 in Hb. pose proof (write_iq_spec size Hsize bufs r a slot o' b port symbol (covered L k sec).1 (covered_samples L k sec) HR Hslot Ho Hb Hp Hsym H0) as HW. rewrite Ep in HW. fold L in HW.
  specialize (HW ltac:(lia)). cbn zeta in HW. destruct (_ <? _) in HW |- *; [|cbn [mbind result_bind]; by rewrite HW]. destruct HW as (bufs' & r' & -> & HR' & HS'). cbn [mbind result_bind].
  eapply IH; [exact HR'|by eapply same_shape_dims|cbn [spec_write occasions]; by rewrite decide_True|exact Eb|exact Ep|exact Ek].
Qed.

Lemma write_message_spec bufs r a eaxc results :
  prach_realizes size bufs r a → of_dims bufs → slot_point.wf (d_slot (params results)) → 0 <= d_symbol_id (params results) →
  Forall (λ sec, section_value sec ∧ 0 < sec_nof_prbs sec) (sections results) →
  match spec_message a eaxc results with
  | Ok a' => ∃ bufs' r', write_to_prach_buffer prach_eaxc (bufs, r) eaxc results = Ok (bufs', r') ∧ prach_realizes size bufs' r' a' ∧ of_dims bufs'
  | Fault f => write_to_prach_buffer prach_eaxc (bufs, r) eaxc results = Fault f
  end.
Proof.
  intros HR HD Hslot Hsym HF. unfold spec_message, write_to_prach_buffer, get. cbn [fst snd]. destruct (prach_entry size Hsize r _ (pr_size _ _ _ _ HR) Hslot) as (c & HE & Hc). rewrite HE. cbn [mbind result_bind].
  pose proof (pr_cells _ _ _ _ HR _ _ Hc) as Ho. rewrite Ho. unfold prach_context.empty, prach_context.get_max_nof_ports, prach_context.get_prach_nof_re, prach_context.get_prach_offset_to_first_re. unfold occasion_of in Ho |- *.
  destruct (prach_context.buffer (prach_context.context_info c)) as [buf|] eqn:Hbuf; [|by exists bufs, r]. cbn [oc_buffer].
  destruct (Forall_lookup_1 _ _ _ _ (pr_contexts _ _ _ _ HR) Hc _ Hbuf) as (b & Hb & HB & _ & _ & HL & Hk & _). rewrite (proj2 (vec_at_nat _ _ _) Hb). cbn [mbind result_bind]. rewrite (of_dims_ports bufs buf b HD Hb).
  destruct (Z.leb_spec (buffer_ports buf) (uplink_data_flow.find_port prach_eaxc eaxc)) as [|H]; [by exists bufs, r|]. unfold prach_context.empty. rewrite Hbuf.
  destruct (prach_prbs_spec _ _ HL Hk) as [-> HP]. cbn [mbind result_bind].
  match type of Ho with _ = Some ?o => apply (write_preamble_spec _ (uplink_data_flow.find_port prach_eaxc eaxc) _ o _ _ _ _ Hslot (conj (find_port_nonneg eaxc) H) Hsym eq_refl eq_refl eq_refl HF bufs r a o) end; done.
Qed.
End messages.

(** ** The whole flow *)
Inductive prach_event : Type :=
  | Occasion (ctx : prach_buffer_context) (buf : nat)
  | PrachCommand (slot : slot_point.t) (eaxc : Z) (cp : uplink_cplane_context_repository.ul_cplane_context)
  | PrachMessage (eaxc : Z) (message : list Z)
  | PrachClosed (symbol_point : slot_symbol_point.t).

(** Where and from which symbol on an occasion is awaited: a long preamble in the last slot it
    reaches into, from the first symbol after its cyclic prefix on. *)
Definition awaited_slot (ctx : prach_buffer_context) (info : prach_preamble_information) : result slot_point.t :=
  if is_short_preamble (pb_format ctx) then Ok (pb_slot ctx) else slot_point.add_int (pb_slot ctx) (spanned_slots info (pusch_scs ctx) (pb_start_symbol ctx) - 1).
Definition awaited_symbol (ctx : prach_buffer_context) : Z :=
  if is_short_preamble (pb_format ctx) then pb_start_symbol ctx else pb_start_symbol ctx + skipped_symbols (pb_format ctx).

Record prach_promise : Type := mk_prach_promise {
  awaited : prach_abstract; commanded : nat → nat → uplink_cplane_context_repository.ul_cplane_context; prach_told : list prach_context.info }.

Section events.
Import uplane prach_context_repository prach_data_flow.
Context {decompressor : IqDecompressor} (self : decoder) (enabled : bool) (prach_eaxc ul_eaxc heard : list Z) (size cp_size : Z) (dims : list (list Z)).

Definition prach_step (st : state) (e : prach_event) : result state :=
  match e with
  | Occasion ctx buf => register_occasion st ctx buf
  | PrachCommand slot eaxc cp =>
      c ← uplink_cplane_context_repository.add (ul_cplane_context_repo st) slot eaxc cp;
      Ok (mk_state (buffers st) (prach_repo st) c (notified st))
  | PrachMessage eaxc message => decode_type1_message self enabled prach_eaxc st eaxc message
  | PrachClosed point => handle_prach_context st point
  end.
Definition prach_run : state → list prach_event → result state := fold_result prach_step.

Definition telling (q : prach_promise) (x : prach_abstract * list prach_context.info) : prach_promise :=
  mk_prach_promise x.1 (commanded q) (prach_told q ++ x.2).

(** A preamble message is used if no commands are sent, or if it answers the last one for its
    slot and eAxC and stays in the blocks the fronthaul can number. *)
Definition prach_admitted (q : prach_promise) (eaxc : Z) (results : uplane_message_decoder_results) : bool :=
  let p := params results in
  let cp := commanded q (index_of cp_size (d_slot p)) (Z.to_nat eaxc) in
  let start_symbol := cplane.start_symbol (uplink_cplane_context_repository.radio_hdr cp) in
  is_a_prach_message (d_filter_index p) &&
  (negb enabled ||
   ((start_symbol <=? d_symbol_id p) && (d_symbol_id p <? start_symbol + uplink_cplane_context_repository.nof_symbols cp) &&
    bool_decide (d_filter_index p = cplane.filter_index (uplink_cplane_context_repository.radio_hdr cp)) && negb (existsb (section_filtered cp) (sections results)))).

Definition prach_promise_step (q : prach_promise) (e : prach_event) : result prach_promise :=
  match e with
  | Occasion ctx buf =>
      info ← preamble_info (pb_format ctx) (pusch_scs ctx);
      slot ← awaited_slot ctx info;
      Ok (telling q (set_occasion (index_of size slot) (Some (fresh_occasion (buffer_ports dims buf) ctx buf info (awaited_symbol ctx))) (awaited q), []))
  | PrachCommand slot eaxc cp => Ok (mk_prach_promise (awaited q) (upd (index_of cp_size slot) (Z.to_nat eaxc) cp (commanded q)) (prach_told q))
  | PrachMessage eaxc message =>
      '(valid, results) ← decode self uplink_data_flow.no_results message;
      if valid && prach_admitted q eaxc results then
        a ← spec_message size dims prach_eaxc (awaited q) eaxc results;
        Ok (telling q (take_occasion oc_complete (index_of size (d_slot (params results))) a))
      else Ok q
  | PrachClosed point =>
      symbol ← slot_symbol_point.get_symbol_index point;
      if negb (symbol =? 0) then Ok q else
      slot ← slot_symbol_point.get_slot point;
      slot ← slot_point.sub_int slot 1;
      Ok (telling q (take_occasion (λ _, true) (index_of size slot) (awaited q)))
  end.
Definition prach_promise_run : prach_promise → list prach_event → result prach_promise := fold_result prach_promise_step.

Definition occasion_ok (ctx : prach_buffer_context) (buf : nat) : Prop :=
  ∃ d info, dims !! buf = Some d ∧ occasion_fits d ctx info ∧ slot_point.wf (pb_slot ctx) ∧ 0 <= pb_start_symbol ctx < 14 ∧
    (is_long_preamble (pb_format ctx) = true → pusch_scs ctx ∈ fr1_spacings).

Definition prach_event_ok (e : prach_event) : Prop :=
  match e with
  | Occasion ctx buf => occasion_ok ctx buf
  | PrachCommand slot eaxc cp => slot_point.wf slot ∧ 0 <= eaxc < MAX_SUPPORTED_EAXC_ID_VALUE ∧ (asks_data cp → eaxc ∈ heard → eaxc ∈ ul_eaxc)
  | PrachMessage eaxc message => 0 <= eaxc < MAX_SUPPORTED_EAXC_ID_VALUE ∧ bytes_ok message ∧ zlen message < 2 ^ 32
  | PrachClosed point => slot_symbol_point.wf point
  end.

(** An occasion is kept where its messages are awaited. *)
Definition occasions_placed (a : prach_abstract) : Prop :=
  ∀ i o, occasions a i = Some o → ∃ t, occasion_slot (oc_context o) = Ok t ∧ index_of size t = i.

Record prach_flow_realizes (st : state) (q : prach_promise) : Prop := {
  fr_prach : prach_realizes size (buffers st) (prach_repo st) (awaited q);
  fr_dims : of_dims dims (buffers st);
  fr_cplane : cplane_realizes ul_eaxc heard cp_size (ul_cplane_context_repo st) (commanded q);
  fr_told : notified st = prach_told q;
  fr_placed : occasions_placed (awaited q) }.

Context {fills : DecompressorFills decompressor}.
Context (Hself : decoder_ok self) (Hru : 0 < ru_nof_prbs self) (Hsize : 0 < size) (Hcp : 0 < cp_size).

Lemma occasion_slot_spec ctx d info : occasion_fits d ctx info → slot_point.wf (pb_slot ctx) → 0 <= pb_start_symbol ctx < 14 → (is_long_preamble (pb_format ctx) = true → pusch_scs ctx ∈ fr1_spacings) →
  ∃ slot, slot_point.wf slot ∧ awaited_slot ctx info = Ok slot ∧ occasion_slot ctx = Ok slot ∧ (is_short_preamble (pb_format ctx) = false → get_prach_start_symbol ctx = Ok (awaited_symbol ctx)) ∧
    0 <= awaited_symbol ctx < 2 ^ 31.
Proof.
  intros (_ & _ & HI & Hf & Hs & _) Hw Hst Hl. unfold awaited_slot, occasion_slot, awaited_symbol, get_long_prach_length_slots. pose proof (start_symbol_spec ctx Hf Hs ltac:(lia)) as HSS.
  assert (0 <= skipped_symbols (pb_format ctx) <= 9) by (destruct (pb_format ctx); cbn; lia). destruct (is_short_preamble (pb_format ctx)) eqn:Hsh.
  { exists (pb_slot ctx). repeat (split; [done|]). lia. }
  assert (HL : is_long_preamble (pb_format ctx) = true) by (destruct (pb_format ctx); try done; unfold formats in Hf; set_solver). unfold preamble_info in HI. rewrite HL in HI.
  rewrite (prach_length_spec ctx info HI (Hl HL) Hst). cbn [mbind result_bind]. pose proof (spanned_bounds _ _ _ info HI (Hl HL) Hst) as HB. set (n := spanned_slots _ _ _) in *.
  rewrite (swrap_small 32 (n - 1)) by lia_fits. rewrite slot_point.add_int_spec by (done || lia). eexists. split; [by apply slot_point.add_wf|]. repeat (split; [done|]). lia.
Qed.

(** Registration: the occasion is awaited with nothing received. *)
Lemma register_spec bufs r a ctx buf : prach_realizes size bufs r a → of_dims dims bufs → occasion_ok ctx buf →
  ∃ info slot r', preamble_info (pb_format ctx) (pusch_scs ctx) = Ok info ∧ awaited_slot ctx info = Ok slot ∧ occasion_slot ctx = Ok slot ∧ add_occasion bufs r ctx buf = Ok r' ∧
    prach_realizes size bufs r' (set_occasion (index_of size slot) (Some (fresh_occasion (buffer_ports dims buf) ctx buf info (awaited_symbol ctx))) a).
Proof.
  intros HR HD (d & info & Hd & HO & Hw & Hst & Hl). pose proof HO as (_ & _ & HI & _). destruct (occasion_slot_spec ctx d info HO Hw Hst Hl) as (slot & Hws & HA & HOS & HSS & Hsym). exists info, slot.
  destruct (lookup_lt_is_Some_2 bufs buf) as [b Hb]; [apply lookup_lt_Some in Hd; rewrite <- HD, length_map in Hd; exact Hd|].
  assert (Hdb : d = dimensions_size b). { rewrite <- HD in Hd. change (map ?g ?l) with (g <$> l) in Hd. rewrite list_lookup_fmap, Hb in Hd. by injection Hd. } subst d.
  rewrite <- (of_dims_ports dims bufs buf b HD Hb). unfold add_occasion. unfold occasion_slot, awaited_symbol in *. destruct (is_short_preamble (pb_format ctx)).
  - injection HOS as <-. destruct (add_occasion_spec size Hsize bufs r a ctx buf None None b info HR Hb HO Hsym Hws) as (r' & HE & HR'). by exists r'.
  - rewrite HOS. cbn [mbind result_bind]. rewrite (HSS eq_refl). cbn [mbind result_bind].
    destruct (add_occasion_spec size Hsize bufs r a ctx buf (Some (pb_start_symbol ctx + skipped_symbols (pb_format ctx))) (Some slot) b info HR Hb HO Hsym Hws) as (r' & HE & HR'). by exists r'.
Qed.

Lemma prach_filter_value c q eaxc results : cplane_realizes ul_eaxc heard cp_size c (commanded q) → slot_point.wf (d_slot (params results)) → 0 <= eaxc < MAX_SUPPORTED_EAXC_ID_VALUE →
  should_uplane_packet_be_filtered enabled c eaxc results = Ok (negb (prach_admitted q eaxc results)).
Proof.
  intros HC Hslot He. unfold should_uplane_packet_be_filtered, prach_admitted, uplink_cplane_context_repository.get. rewrite (cplane_entry ul_eaxc heard cp_size c (commanded q)) by done.
  cbn [mbind result_bind]. set (cp := commanded q _ _). set (p := params results). destruct (is_a_prach_message (d_filter_index p)); cbn [negb andb]; [|done].
  destruct enabled; cbn [negb orb]; [|done]. case_bool_decide as Hf; [|by rewrite !andb_false_r]. rewrite !andb_true_r.
  destruct (_ <=? _); cbn [andb mbind result_bind]; [|done]. destruct (_ <? _); cbn [andb mbind result_bind]; [|done]. by rewrite negb_involutive.
Qed.

(** A new table of occasions. *)
Lemma prach_realizes_with st q bufs r a new :
  prach_flow_realizes st q → prach_realizes size bufs r a → of_dims dims bufs → occasions_placed a →
  prach_flow_realizes (mk_state bufs r (ul_cplane_context_repo st) (notified st ++ new)) (telling q (a, new)).
Proof. intros [HP HD HC HT HPl] HR HD' HPl'. constructor; try done. cbn [notified telling prach_told snd]. by rewrite HT. Qed.

Lemma set_placed i v a : occasions_placed a → (∀ o, v = Some o → ∃ t, occasion_slot (oc_context o) = Ok t ∧ index_of size t = i) → occasions_placed (set_occasion i v a).
Proof. intros HP Hv j o. cbn [set_occasion occasions]. destruct (decide (i = j)) as [<-|]; [apply Hv|apply HP]. Qed.

Lemma take_placed p i a : occasions_placed a → occasions_placed (take_occasion p i a).1.
Proof. intros HP. unfold take_occasion. destruct (occasions a i) as [o|]; [|done]. destruct (p o); [|done]. by apply set_placed. Qed.

(** A section keeps every occasion but for its marks. *)
Definition same_occasion (o o' : occasion) : Prop := oc_context o' = oc_context o ∧ oc_buffer o' = oc_buffer o.
Definition same_occasions (a a' : prach_abstract) : Prop := ∀ i, option_Forall2 same_occasion (occasions a i) (occasions a' i).

Lemma same_occasions_refl a : same_occasions a a.
Proof. intros i. destruct (occasions a i); by constructor. Qed.
Lemma same_occasions_trans a b c : same_occasions a b → same_occasions b c → same_occasions a c.
Proof.
  intros H1 H2 i. specialize (H1 i). specialize (H2 i). inversion H1 as [x y [E1 E2] Hx Hy|Hx Hy]; rewrite <- Hy in H2; inversion H2 as [y' z [E3 E4] Hy' Hz|Hy' Hz]; constructor. split; congruence.
Qed.

Lemma spec_message_same a eaxc results a' : spec_message size dims prach_eaxc a eaxc results = Ok a' → same_occasions a a'.
Proof.
  unfold spec_message. destruct (occasions a _) as [o|]; [|intros [= <-]; apply same_occasions_refl]. destruct (_ <=? _); [intros [= <-]; apply same_occasions_refl|].
  generalize (sections results) as secs. intros secs. revert a. induction secs as [|sec secs IH]; intros a; cbn [fold_result]; [intros [= <-]; apply same_occasions_refl|].
  intros (a1 & H1 & H2)%bind_Ok. eapply same_occasions_trans; [|by apply IH]. unfold spec_section in H1. destruct (occasions a _) as [o1|] eqn:Ho; [|injection H1 as <-; apply same_occasions_refl].
  destruct (_ <? _) in H1; [|injection H1 as <-; apply same_occasions_refl]. destruct (_ <? _) in H1; [|done]. injection H1 as <-. intros i. cbn [spec_write occasions].
  destruct (decide _) as [<-|]; [rewrite Ho; by constructor|]. destruct (occasions a i); by constructor.
Qed.

Lemma same_placed a a' : same_occasions a a' → occasions_placed a → occasions_placed a'.
Proof. intros HS HP i o Ho. specialize (HS i). rewrite Ho in HS. inversion HS as [x y [E _] Hx Hy|]; subst. rewrite E. by apply HP. Qed.

Lemma prach_message_realizes st q eaxc message : prach_flow_realizes st q → prach_event_ok (PrachMessage eaxc message) →
  match prach_promise_step q (PrachMessage eaxc message) with
  | Ok q' => ∃ st', prach_step st (PrachMessage eaxc message) = Ok st' ∧ prach_flow_realizes st' q'
  | Fault f => prach_step st (PrachMessage eaxc message) = Fault f
  end.
Proof.
  intros HQ (He & Hb & Hl). cbn [prach_step prach_promise_step]. unfold decode_type1_message.
  destruct (decode self uplink_data_flow.no_results message) as [[valid results]|f] eqn:HD; cbn [mbind result_bind]; [|done].
  destruct valid; cbn [negb andb]; [|by exists st]. destruct (decode_from self message results Hself Hb Hl HD) as (Hslot & Hsym & HF).
  rewrite (prach_filter_value _ q) by (done || apply HQ). cbn [mbind result_bind]. destruct (prach_admitted q eaxc results); cbn [negb]; [|by exists st].
  assert (HF' : Forall (λ sec, section_value sec ∧ 0 < sec_nof_prbs sec) (sections results)) by (eapply Forall_impl; [exact HF|]; intros sec [H1 H2]; by split; [|apply H2]).
  pose proof (write_message_spec size Hsize dims prach_eaxc _ _ _ eaxc results (fr_prach _ _ HQ) (fr_dims _ _ HQ) Hslot (proj1 Hsym) HF') as HW.
  destruct (spec_message size dims prach_eaxc (awaited q) eaxc results) as [a|f] eqn:HS; cbn [mbind result_bind]; [|by rewrite HW].
  destruct HW as (bufs & r & -> & HR & HDm). cbn [mbind result_bind]. unfold notify_prach. cbn [prach_repo with_prach snd].
  destruct (try_pop_occasion_spec size Hsize bufs r a _ HR Hslot) as (r' & x & -> & HX & HR'). cbn [mbind result_bind buffers with_prach fst ul_cplane_context_repo notified]. rewrite HX. eexists. split; [done|].
  rewrite (surjective_pairing (take_occasion oc_complete _ a)) at 2. eapply prach_realizes_with; [done|done|done|]. apply take_placed. by eapply same_placed; [eapply spec_message_same|apply HQ].
Qed.

Lemma prach_step_realizes st q e : prach_flow_realizes st q → prach_event_ok e →
  match prach_promise_step q e with
  | Ok q' => ∃ st', prach_step st e = Ok st' ∧ prach_flow_realizes st' q'
  | Fault f => prach_step st e = Fault f
  end.
Proof.
  intros HQ He. destruct e as [ctx buf|slot eaxc cp|eaxc message|point]; [| |by apply prach_message_realizes|].
  - cbn [prach_promise_step prach_step prach_event_ok] in *. unfold register_occasion. destruct (register_spec _ _ _ ctx buf (fr_prach _ _ HQ) (fr_dims _ _ HQ) He) as (info & slot & r' & -> & HA & HOS & -> & HR). cbn [mbind result_bind].
    rewrite HA. cbn [mbind result_bind]. eexists. split; [done|]. pose proof (prach_realizes_with st q (buffers st) r' _ [] HQ HR (fr_dims _ _ HQ)) as HX. rewrite app_nil_r in HX. apply HX.
    apply set_placed; [apply HQ|]. intros o [= <-]. by exists slot.
  - destruct He as (Hslot & He & Hx). destruct HQ as [HP HD HC HT HPl]. cbn [prach_promise_step prach_step].
    destruct (cplane_add ul_eaxc heard cp_size _ _ slot eaxc cp Hcp HC Hslot He Hx) as (c' & -> & HC'). cbn [mbind result_bind]. eexists. split; [done|]. by constructor.
  - cbn [prach_promise_step prach_step prach_event_ok] in *. unfold handle_prach_context. destruct (slot_symbol_point.point_values point He) as (slot & s & -> & Hslot & -> & Hs). cbn [mbind result_bind].
    destruct (negb _); [by exists st|]. rewrite slot_point.sub_int_spec by (done || lia). cbn [mbind result_bind]. set (prev := slot_point.mk _ _).
    assert (Hprev : slot_point.wf prev) by (apply (slot_point.add_wf slot (-1)); done).
    destruct (pop_occasion_spec size Hsize _ _ _ prev (fr_prach _ _ HQ) Hprev) as (r' & x & -> & HX & HR'). cbn [mbind result_bind]. rewrite HX. eexists. split; [done|].
    rewrite (surjective_pairing (take_occasion _ _ (awaited q))) at 2. eapply prach_realizes_with; [done|done|apply HQ|]. apply take_placed, HQ.
Qed.

Lemma prach_run_realizes es : ∀ st q, prach_flow_realizes st q → Forall prach_event_ok es →
  match prach_promise_run q es with
  | Ok q' => ∃ st', prach_run st es = Ok st' ∧ prach_flow_realizes st' q'
  | Fault f => prach_run st es = Fault f
  end.
Proof.
  induction es as [|e es IH]; intros st q HQ HF; cbn [prach_promise_run prach_run fold_result]; [by exists st|]. inversion_clear HF as [|? ? He Hes].
  pose proof (prach_step_realizes st q e HQ He) as HS. destruct (prach_promise_step q e) as [q1|f]; cbn [mbind result_bind]; [|by rewrite HS]. destruct HS as (st1 & -> & HQ1). cbn [mbind result_bind]. by apply IH.
Qed.

(** What stops the program: the decoder, or a preamble message for a symbol past the preamble. *)
Definition stops (f : fault) (message : list Z) : Prop :=
  decode self uplink_data_flow.no_results message = Fault f ∨
  f = AssertFailed ∧ ∃ results, decode self uplink_data_flow.no_results message = Ok (true, results) ∧ is_a_prach_message (d_filter_index (params results)) = true.

Lemma spec_message_fault a eaxc results f : spec_message size dims prach_eaxc a eaxc results = Fault f → f = AssertFailed.
Proof.
  unfold spec_message. destruct (occasions a _); [|done]. destruct (_ <=? _); [done|]. generalize (sections results) as secs. intros secs. revert a.
  induction secs as [|sec secs IH]; intros a; cbn [fold_result]; [done|]. destruct (spec_section _ _ _ a sec) as [a1|f1] eqn:E; cbn [mbind result_bind]; [apply IH|]. intros [= <-].
  unfold spec_section in E. repeat case_match; congruence.
Qed.

Lemma prach_step_fault q e f : prach_event_ok e → prach_promise_step q e = Fault f → ∃ eaxc message, e = PrachMessage eaxc message ∧ stops f message.
Proof.
  intros He HE. destruct e as [ctx buf|slot eaxc cp|eaxc message|point]; cbn [prach_promise_step] in HE; [|done| |].
  - destruct He as (d & info & _ & HO & Hw & Hst & Hl). pose proof HO as (_ & _ & HI & _). rewrite HI in HE. cbn [mbind result_bind] in HE.
    destruct (occasion_slot_spec ctx d info HO Hw Hst Hl) as (slot & _ & HA & _). by rewrite HA in HE.
  - exists eaxc, message. split; [done|]. unfold stops. destruct (decode self _ message) as [[valid results]|f'] eqn:HD; cbn [mbind result_bind] in HE; [|left; congruence]. right.
    destruct valid; cbn [andb] in HE; [|done]. destruct (prach_admitted q eaxc results) eqn:HA; [|done]. destruct (spec_message _ _ _ _ _ _) eqn:HS in HE; [done|]. cbn [mbind result_bind] in HE. injection HE as <-.
    split; [by eapply spec_message_fault|]. exists results. split; [done|]. unfold prach_admitted in HA. by apply andb_prop in HA as [HA _].
  - destruct (slot_symbol_point.point_values point He) as (slot & s & Hg & Hslot & Hi & _). rewrite Hg, Hi in HE. cbn [mbind result_bind] in HE. destruct (negb _); [done|].
    rewrite slot_point.sub_int_spec in HE by (done || lia). done.
Qed.

Lemma prach_run_fault es f : ∀ q, Forall prach_event_ok es → prach_promise_run q es = Fault f → ∃ eaxc message, PrachMessage eaxc message ∈ es ∧ stops f message.
Proof.
  intros q HF. revert q. induction HF as [|e es He HF IH]; intros q HE; [done|]. unfold prach_promise_run in HE. cbn [fold_result] in HE.
  destruct (prach_promise_step q e) as [q1|f1] eqn:E1; cbn [mbind result_bind] in HE.
  - destruct (IH q1 HE) as (eaxc & m & Hin & HS). exists eaxc, m. split; [set_solver|done].
  - injection HE as <-. destruct (prach_step_fault q e f1 He E1) as (eaxc & m & -> & HS). exists eaxc, m. split; [set_solver|done].
Qed.

(** C22: The PRACH flow keeps what it promises.  Whatever sequence of occasions, commands,
    received messages (of any octets) and closing windows occurs, the flow tells the notifier
    the same occasions with the same buffers and in the same order, and leaves the same samples
    in the buffers, as a table of awaited occasions in which an admitted message stores of each
    of its sections exactly the samples that belong to the preamble, from the element of the
    preamble on at which they stand, and an occasion leaves the table once every element of
    every symbol and port has arrived or when the slot it is awaited in is over; a long preamble
    is awaited in the last slot it reaches into.  The program stops only in the decoder or at a
    preamble message for a symbol past the end of the preamble. *)
Theorem prach_flow_refines es st q : prach_flow_realizes st q → Forall prach_event_ok es →
  match prach_promise_run q es with
  | Ok q' => ∃ st', prach_run st es = Ok st' ∧ notified st' = prach_told q' ∧ prach_flow_realizes st' q'
  | Fault f => prach_run st es = Fault f ∧ ∃ eaxc message, PrachMessage eaxc message ∈ es ∧ stops f message
  end.
Proof.
  intros HQ HF. pose proof (prach_run_realizes es st q HQ HF) as HX. destruct (prach_promise_run q es) as [q'|f] eqn:E.
  - destruct HX as (st' & -> & HQ'). exists st'. split; [done|]. split; [apply HQ'|done].
  - split; [done|by eapply prach_run_fault].
Qed.

(** *** One occasion, from its registration to the end of its slot *)

Definition awaited_at (i : nat) (n : prach_context.info) : bool :=
  match occasion_slot (prach_context.context n) with Ok t => bool_decide (index_of size t = i) | Fault _ => false end.
Definition told_for (i : nat) : list prach_context.info → list prach_context.info := filter (λ n, awaited_at i n = true).

(** An occasion that stays awaited is not told; one that leaves is told once. *)
Definition prach_evolves (i : nat) (v v' : option occasion) (ns : list prach_context.info) : Prop :=
  match v with
  | None => v' = None ∧ told_for i ns = []
  | Some o => (∃ o', v' = Some o' ∧ same_occasion o o' ∧ told_for i ns = []) ∨ (v' = None ∧ told_for i ns = [occasion_info o])
  end.

Lemma prach_evolves_same i v v' : option_Forall2 same_occasion v v' → prach_evolves i v v' [].
Proof. intros [x y Hxy|]; [left; by exists y|done]. Qed.

Lemma prach_evolves_app i v v1 v2 ns1 ns2 : prach_evolves i v v1 ns1 → prach_evolves i v1 v2 ns2 → prach_evolves i v v2 (ns1 ++ ns2).
Proof.
  unfold prach_evolves, told_for. intros H1 H2. rewrite filter_app. destruct v as [o|]; [|destruct H1 as [-> ->]; by destruct H2 as [-> ->]].
  destruct H1 as [(o1 & -> & [E1 E2] & ->)|[-> ->]]; [|destruct H2 as [-> ->]; by right].
  destruct H2 as [(o2 & -> & [E3 E4] & ->)|[-> ->]]; [left; exists o2; split; [done|]; split; [split; congruence|done]|right]. split; [done|]. unfold occasion_info. by rewrite E1, E2.
Qed.

Lemma take_evolves p i j a : occasions_placed a → prach_evolves i (occasions a i) (occasions (take_occasion p j a).1 i) (take_occasion p j a).2.
Proof.
  intros HP. assert (HN : prach_evolves i (occasions a i) (occasions a i) []) by (apply prach_evolves_same; destruct (occasions a i); by constructor).
  unfold take_occasion. destruct (occasions a j) as [o|] eqn:Ho; [|exact HN]. destruct (p o); [|exact HN]. cbn [fst snd set_occasion occasions].
  destruct (HP _ _ Ho) as (t & HT & Ht). unfold prach_evolves, told_for. destruct (decide (j = i)) as [<-|Hne].
  - rewrite Ho. right. split; [done|]. rewrite filter_cons_True; [done|]. unfold awaited_at. cbn [occasion_info prach_context.context]. rewrite HT. by apply bool_decide_true.
  - rewrite filter_cons_False by (unfold awaited_at; cbn [occasion_info prach_context.context]; rewrite HT, bool_decide_false by congruence; done).
    destruct (occasions a i) as [o'|]; [left; by exists o'|done].
Qed.

(** No other occasion takes the place. *)
Definition prach_quiet (i : nat) (e : prach_event) : Prop :=
  match e with Occasion ctx _ => ∀ t, occasion_slot ctx = Ok t → index_of size t ≠ i | _ => True end.

Lemma prach_step_evolves q e q' i : occasions_placed (awaited q) → prach_event_ok e → prach_quiet i e → prach_promise_step q e = Ok q' →
  ∃ new, prach_told q' = prach_told q ++ new ∧ occasions_placed (awaited q') ∧ prach_evolves i (occasions (awaited q) i) (occasions (awaited q') i) new.
Proof.
  intros HP He Hq HE. assert (HN : ∃ new, prach_told q = prach_told q ++ new ∧ occasions_placed (awaited q) ∧ prach_evolves i (occasions (awaited q) i) (occasions (awaited q) i) new).
  { exists []. rewrite app_nil_r. split; [done|]. split; [done|]. apply prach_evolves_same, same_occasions_refl. }
  destruct e as [ctx buf|slot eaxc cp|eaxc message|point]; cbn [prach_promise_step] in HE.
  - destruct He as (d & info & _ & HO & Hw & Hst & Hl). pose proof HO as (_ & _ & HI & _). rewrite HI in HE. cbn [mbind result_bind] in HE.
    destruct (occasion_slot_spec ctx d info HO Hw Hst Hl) as (slot & _ & HA & HOS & _). rewrite HA in HE. cbn [mbind result_bind] in HE. injection HE as <-. exists []. split; [done|]. split.
    + apply set_placed; [done|]. intros o [= <-]. by exists slot.
    + cbn [telling awaited fst set_occasion occasions]. rewrite decide_False by (by apply Hq). apply prach_evolves_same, same_occasions_refl.
  - by injection HE as <-.
  - apply bind_Ok in HE as ([valid results] & _ & HE). destruct (_ && _) in HE; [|by injection HE as <-]. apply bind_Ok in HE as (a & HS & [= <-]). eexists. split; [done|]. cbn [telling awaited].
    pose proof (spec_message_same _ _ _ _ HS) as HS'. assert (HPa : occasions_placed a) by (by eapply same_placed). split; [by apply take_placed|].
    apply (prach_evolves_app i _ (occasions a i) _ [] _); [apply prach_evolves_same, HS'|by apply take_evolves].
  - apply bind_Ok in HE as (symbol & _ & HE). destruct (negb _) in HE; [by injection HE as <-|]. apply bind_Ok in HE as (s & _ & HE). apply bind_Ok in HE as (prev & _ & [= <-]).
    eexists. split; [done|]. cbn [telling awaited]. split; [by apply take_placed|by apply take_evolves].
Qed.

Lemma prach_run_evolves es i : ∀ q q', occasions_placed (awaited q) → Forall prach_event_ok es → Forall (prach_quiet i) es → prach_promise_run q es = Ok q' →
  ∃ new, prach_told q' = prach_told q ++ new ∧ occasions_placed (awaited q') ∧ prach_evolves i (occasions (awaited q) i) (occasions (awaited q') i) new.
Proof.
  induction es as [|e es IH]; intros q q' HP HF HQ HE; unfold prach_promise_run in HE; cbn [fold_result] in HE.
  { injection HE as <-. exists []. rewrite app_nil_r. split; [done|]. split; [done|]. apply prach_evolves_same, same_occasions_refl. }
  inversion_clear HF as [|? ? He Hes]. inversion_clear HQ as [|? ? Hq Hqs]. apply bind_Ok in HE as (q1 & H1 & HE).
  destruct (prach_step_evolves q e q1 i HP He Hq H1) as (n1 & E1 & HP1 & V1). destruct (IH q1 q' HP1 Hes Hqs HE) as (n2 & E2 & HP2 & V2).
  exists (n1 ++ n2). rewrite E2, E1, app_assoc. split; [done|]. split; [done|by eapply prach_evolves_app].
Qed.

(** An occasion, from its registration to the end of the slot it is awaited in. *)
Lemma occasion_told es q q' ctx buf slot point s prev : occasions_placed (awaited q) → prach_event_ok (Occasion ctx buf) → prach_event_ok (PrachClosed point) → Forall prach_event_ok es →
  occasion_slot ctx = Ok slot → slot_symbol_point.get_symbol_index point = Ok 0 → slot_symbol_point.get_slot point = Ok s → slot_point.sub_int s 1 = Ok prev →
  index_of size prev = index_of size slot → Forall (prach_quiet (index_of size slot)) es →
  prach_promise_run q (Occasion ctx buf :: es ++ [PrachClosed point]) = Ok q' →
  ∃ new, prach_told q' = prach_told q ++ new ∧ told_for (index_of size slot) new = [prach_context.mk_info ctx (Some buf)].
Proof.
  intros HP Ho Hcl Hes HOS Hsym Hs Hp Hi HQt HE.
  unfold prach_promise_run in HE. cbn [fold_result] in HE. apply bind_Ok in HE as (q1 & E1 & HE). rewrite fold_result_app in HE. apply bind_Ok in HE as (q2 & E2 & E3).
  set (i := index_of size slot) in *. cbn [prach_promise_step] in E1. destruct Ho as (d & info & _ & HO & Hw & Hst & Hl). pose proof HO as (_ & _ & HI & _). rewrite HI in E1. cbn [mbind result_bind] in E1.
  destruct (occasion_slot_spec ctx d info HO Hw Hst Hl) as (slot' & _ & HA & HOS' & _). rewrite HOS in HOS'. injection HOS' as <-. rewrite HA in E1. cbn [mbind result_bind] in E1. injection E1 as <-.
  match type of E2 with fold_result _ ?x _ = _ => set (q1 := x) in * end. assert (HP1 : occasions_placed (awaited q1)) by (apply set_placed; [done|]; intros o [= <-]; by exists slot).
  assert (Hc1 : occasions (awaited q1) i = Some (fresh_occasion (buffer_ports dims buf) ctx buf info (awaited_symbol ctx))) by (cbn; by rewrite decide_True).
  destruct (prach_run_evolves es i q1 q2 HP1 Hes HQt E2) as (n1 & T1 & HP2 & V1). destruct (prach_run_evolves [PrachClosed point] i q2 q' HP2 (Forall_cons_2 _ _ _ Hcl (Forall_nil_2 _)) ltac:(by repeat constructor) E3) as (n2 & T2 & _ & V2).
  exists (n1 ++ n2). rewrite T2, T1. cbn [q1 telling prach_told snd]. rewrite app_nil_r, app_assoc. split; [done|].
  pose proof (prach_evolves_app i _ _ _ n1 n2 V1 V2) as V. rewrite Hc1 in V. destruct V as [(o' & HN & _)|[_ HV]]; [|exact HV].
  exfalso. cbn [fold_result prach_promise_step] in E3. rewrite Hsym, Hs in E3. cbn [mbind result_bind] in E3. rewrite Hp in E3. cbn [negb Z.eqb mbind result_bind] in E3. injection E3 as <-.
  cbn [telling awaited] in HN. rewrite Hi in HN. fold i in HN. unfold take_occasion in HN. destruct (occasions (awaited q2) i) eqn:Hc2; cbn [fst set_occasion occasions] in HN; [|congruence]. by rewrite decide_True in HN.
Qed.

(** Every PRACH occasion is told once.  After an occasion is registered, whatever messages
    arrive, are lost or are repeated and whatever else occurs, when the slot in which it is
    awaited is over and no later occasion has taken its place, and the program was not stopped,
    the notifier has been given the occasion exactly once, with its context and its buffer. *)
Theorem prach_notified_once es st q q' ctx buf slot point s prev :
  prach_flow_realizes st q → Forall prach_event_ok (Occasion ctx buf :: es ++ [PrachClosed point]) →
  occasion_slot ctx = Ok slot → slot_symbol_point.get_symbol_index point = Ok 0 → slot_symbol_point.get_slot point = Ok s → slot_point.sub_int s 1 = Ok prev →
  index_of size prev = index_of size slot → Forall (prach_quiet (index_of size slot)) es →
  prach_promise_run q (Occasion ctx buf :: es ++ [PrachClosed point]) = Ok q' →
  ∃ st' new, prach_run st (Occasion ctx buf :: es ++ [PrachClosed point]) = Ok st' ∧ notified st' = notified st ++ new ∧
    told_for (index_of size slot) new = [prach_context.mk_info ctx (Some buf)].
Proof.
  intros HQ HF HOS Hsym Hs Hp Hi HQt HE. pose proof (prach_run_realizes _ st q HQ HF) as HX. rewrite HE in HX. destruct HX as (st' & HR & HQ').
  inversion_clear HF as [|? ? Ho HF']. apply Forall_app in HF' as [Hes Hcl]. apply Forall_cons in Hcl as [Hcl _].
  destruct (occasion_told es q q' ctx buf slot point s prev (fr_placed _ _ HQ) Ho Hcl Hes HOS Hsym Hs Hp Hi HQt HE) as (new & HT & HN).
  exists st', new. split; [exact HR|]. by rewrite (fr_told _ _ HQ'), (fr_told _ _ HQ), HT.
Qed.
End events.

(** ** Examples *)
Module prach_examples.
Import uplane prach_context_repository prach_data_flow uplink_examples.

#[local] Instance prach_decompressor : IqDecompressor := selector_decompressor compression_examples.example_compressors.
#[local] Instance prach_fills : DecompressorFills prach_decompressor := selector_fills _.
Abbreviation receiver := raw_samples.example_decoder.

(** Blocks [start, start + n) of a preamble message, 9 bits; the slot is that of the occasion
    modulo 256 frames, or the one [k] slots after it. *)
Definition preamble_message (filter : filter_index_type) (k symbol start n : Z) : list Z :=
  [16 + filter_index_value filter; 1; 0x70 + (1 + k) / 2 * 16; (1 + k) mod 2 * 64 + symbol; 0; 0; start; n; 0x91; 0] ++ concat (replicate (Z.to_nat n) (0 :: replicate 27 85)).
Definition short_occasion : prach_buffer_context := mk_occasion 7 example_slot 2 C0 0 1 1 kHz30.
Definition long_occasion : prach_buffer_context := mk_occasion 7 example_slot 0 fmt_zero 0 1 1 kHz30.
Definition short_command : uplink_cplane_context_repository.ul_cplane_context :=
  uplink_cplane_context_repository.mk_cplane (cplane.mk_header uplink ul_prach_preamble_short_30kHz 2 example_slot) 0 12 1.
Definition long_command : uplink_cplane_context_repository.ul_cplane_context :=
  uplink_cplane_context_repository.mk_cplane (cplane.mk_header uplink ul_prach_preamble_1p25khz 1 example_slot) 0 72 1.
Definition short_message (start n : Z) : list Z := preamble_message ul_prach_preamble_short_30kHz 0 2 start n.
Definition next_slot (symbol : Z) : slot_symbol_point.t := slot_symbol_point.mk 14 1 (10276 * 14 + symbol).

Definition buffer_dims : list (list Z) := [[139; 1; 1; 1; 1]].
Definition prach_initial : state := mk_state [prach_buffer.create 1 1 1 1 139] (prach_context_repository.create 5) (uplink_cplane_context_repository.create 5) [].
Definition prach_promised : prach_promise :=
  mk_prach_promise (mk_prach_abstract (λ _, None) (λ _ _ _, replicate 139 zero_sample)) (λ _ _, uplink_cplane_context_repository.default) [].

Lemma prach_initial_realizes : prach_flow_realizes [3] [3; 4] 5 5 buffer_dims prach_initial prach_promised.
Proof.
  assert (HB : buffer_ok (prach_buffer.create 1 1 1 1 139)) by (repeat (split; [done|]); done). constructor; [|done| |done|done].
  - constructor; cbn [prach_initial buffers prach_repo prach_promised awaited occasions prach_samples]; [by repeat constructor|done| | |].
    + by apply Forall_replicate.
    + intros i c Hc. unfold prach_context_repository.create in Hc. by apply lookup_replicate_1 in Hc as [-> _].
    + intros [|i] b port s Hb [Hp Hs]; [|done]. injection Hb as <-. change (prach_buffer.get_max_nof_ports _) with 1 in Hp. change (prach_buffer.get_max_nof_symbols _) with 1 in Hs.
      assert (port = 0) as -> by lia. assert (s = 0) as -> by lia. vm_compute. reflexivity.
  - constructor; cbn [prach_initial ul_cplane_context_repo commanded prach_promised].
    + done.
    + apply Forall_replicate. by rewrite length_replicate.
    + intros i e x. unfold uplink_cplane_context_repository.create. destruct (replicate (Z.to_nat 5) _ !! i) as [row|] eqn:Hi; [|done]. cbn.
      apply lookup_replicate_1 in Hi as [-> _]. intros Hs. by apply lookup_replicate_1 in Hs as [-> _].
    + intros i e (H & _). cbn in H. lia.
Qed.

Lemma short_occasion_ok : prach_event_ok [3] [3; 4] buffer_dims (Occasion short_occasion 0).
Proof.
  eexists _, _. split; [done|]. split; [|split; [slot_point.solve_wf|split; [cbn; lia|done]]]. split; [done|]. split; [done|]. split; [reflexivity|]. unfold formats, spacings. split; [set_solver|]. split; [set_solver|].
  split; [done|]. by split.
Qed.

Lemma prach_events_ok start n : bytes_ok (short_message start n) → zlen (short_message start n) < 2 ^ 32 →
  Forall (prach_event_ok [3] [3; 4] buffer_dims) [PrachCommand example_slot 3 short_command; PrachMessage 3 (short_message start n)].
Proof.
  intros HB HZ. constructor; [|constructor; [|constructor]].
  - split; [slot_point.solve_wf|]. split; [done|]. intros _ _. apply elem_of_cons. by left.
  - split; [done|]. by split.
Qed.

(** The whole preamble arrives, in two parts, and again: it is told once. *)
Definition prach_session : list prach_event :=
  [Occasion short_occasion 0; PrachCommand example_slot 3 short_command; PrachMessage 3 (short_message 0 7); PrachMessage 3 (short_message 7 5); PrachMessage 3 (short_message 7 5); PrachClosed (next_slot 0)].

Lemma prach_session_ok : Forall (prach_event_ok [3] [3; 4] buffer_dims) prach_session.
Proof.
  assert (HB : ∀ s n, (s = 0 ∧ n = 7) ∨ (s = 7 ∧ n = 5) → bytes_ok (short_message s n) ∧ zlen (short_message s n) < 2 ^ 32).
  { intros s n [[-> ->]|[-> ->]]; (split; [vm_compute; repeat constructor; vm_compute; congruence|done]). }
  destruct (HB 0 7 ltac:(auto)) as [H1 Z1]. destruct (HB 7 5 ltac:(auto)) as [H2 Z2].
  pose proof (prach_events_ok 0 7 H1 Z1) as E1. pose proof (prach_events_ok 7 5 H2 Z2) as E2. inversion_clear E1 as [|? ? Ec E1']. inversion_clear E2 as [|? ? _ E2'].
  unfold prach_session. constructor; [exact short_occasion_ok|]. constructor; [done|]. inversion_clear E1' as [|? ? Em _]. inversion_clear E2' as [|? ? Em2 _]. constructor; [done|]. constructor; [done|]. constructor; [done|]. constructor; [|constructor].
  cbn [prach_event_ok]. unfold slot_symbol_point.wf, slot_symbol_point.period, next_slot. cbn [slot_symbol_point.nof_symbols slot_symbol_point.numerology slot_symbol_point.count_val]. lia.
Qed.

Definition the_occasion : prach_context.info := prach_context.mk_info short_occasion (Some 0%nat).

Lemma prach_flow_refines_witness : ∃ st', prach_run receiver true [3] prach_initial prach_session = Ok st' ∧ notified st' = [the_occasion].
Proof.
  pose proof (prach_flow_refines receiver true [3] [3] [3; 4] 5 5 buffer_dims ltac:(split; [done|split; [done|done]]) ltac:(done) ltac:(done) ltac:(done) prach_session prach_initial prach_promised prach_initial_realizes prach_session_ok) as H.
  assert (HT : match prach_promise_run receiver true [3] 5 5 buffer_dims prach_promised prach_session with Ok q' => prach_told q' = [the_occasion] | Fault _ => False end) by (vm_compute; reflexivity).
  destruct (prach_promise_run _ _ _ _ _ _ _ _) as [q'|]; [|contradiction]. destruct H as (st' & HE & HN & _). exists st'. split; [exact HE|]. by rewrite HN.
Defined.

(** Part of the preamble arrives: it is told at the end of the slot. *)
Definition part_session : list prach_event := [PrachCommand example_slot 3 short_command; PrachMessage 3 (short_message 0 7)].

Lemma part_session_ok : Forall (prach_event_ok [3] [3; 4] buffer_dims) (Occasion short_occasion 0 :: part_session ++ [PrachClosed (next_slot 0)]).
Proof.
  pose proof prach_session_ok as H. unfold prach_session in H. inversion_clear H as [|? ? Ho H0]. inversion_clear H0 as [|? ? Hc H1]. inversion_clear H1 as [|? ? Hm H2]. inversion_clear H2 as [|? ? _ H3].
  inversion_clear H3 as [|? ? _ H4]. inversion_clear H4 as [|? ? Hp _]. unfold part_session. cbn [app]. by repeat constructor.
Qed.

Lemma prach_notified_once_witness :
  ∃ st' new, prach_run receiver true [3] prach_initial (Occasion short_occasion 0 :: part_session ++ [PrachClosed (next_slot 0)]) = Ok st' ∧
    notified st' = notified prach_initial ++ new ∧ told_for 5 (index_of 5 example_slot) new = [prach_context.mk_info short_occasion (Some 0%nat)].
Proof.
  assert (Hr : decoder_ok receiver ∧ 0 < ru_nof_prbs receiver ∧ 0 < 5) by (split; [split; [done|split; [done|done]]|done]).
  assert (HP : ∃ q', prach_promise_run receiver true [3] 5 5 buffer_dims prach_promised (Occasion short_occasion 0 :: part_session ++ [PrachClosed (next_slot 0)]) = Ok q').
  { assert (HT : match prach_promise_run receiver true [3] 5 5 buffer_dims prach_promised (Occasion short_occasion 0 :: part_session ++ [PrachClosed (next_slot 0)]) with Ok _ => True | Fault _ => False end) by (vm_compute; exact I).
    destruct (prach_promise_run _ _ _ _ _ _ _ _) as [q'|]; [by exists q'|contradiction]. }
  destruct HP as (q' & HP).
  apply (prach_notified_once receiver true [3] [3] [3; 4] 5 5 buffer_dims (proj1 Hr) (proj1 (proj2 Hr)) (proj2 (proj2 Hr)) (proj2 (proj2 Hr)) part_session prach_initial prach_promised q'
    short_occasion 0%nat example_slot (next_slot 0) (slot_point.mk 1 10276) (slot_point.mk 1 10275) prach_initial_realizes part_session_ok).
  - vm_compute. reflexivity.
  - vm_compute. reflexivity.
  - vm_compute. reflexivity.
  - vm_compute. reflexivity.
  - vm_compute. reflexivity.
  - repeat constructor.
  - exact HP.
Defined.

(** A long preamble on 30 kHz data reaches into a second slot.  It is awaited there, but the
    command is kept for the first: with commands enabled neither the messages for the first slot
    nor those for the second are written, without them those for the second are. *)
Definition long_initial : state := mk_state [prach_buffer.create 1 1 1 1 839] (prach_context_repository.create 5) (uplink_cplane_context_repository.create 5) [].
Definition long_session : list prach_event :=
  [Occasion long_occasion 0; PrachCommand example_slot 3 long_command; PrachMessage 3 (preamble_message ul_prach_preamble_1p25khz 0 1 0 2);
   PrachMessage 3 (preamble_message ul_prach_preamble_1p25khz 1 1 0 2)].
Example long_preamble_lost :
  (∃ st, prach_run receiver true [3] long_initial long_session = Ok st ∧ buffers st = buffers long_initial) ∧
  (∃ st, prach_run receiver false [3] long_initial long_session = Ok st ∧ buffers st ≠ buffers long_initial).
Proof.
  split; eexists; (split; [vm_compute; reflexivity|]); [vm_compute; reflexivity|]. vm_compute. intros H. injection H. congruence.
Qed.

(** Without commands, a message for a symbol before the preamble stops the program. *)
Example early_symbol_stops :
  prach_run receiver false [3] prach_initial [Occasion short_occasion 0; PrachMessage 3 (preamble_message ul_prach_preamble_short_30kHz 0 1 0 1)] = Fault AssertFailed.
Proof. vm_compute. reflexivity. Qed.

(** The writer reads the context of a slot and then writes to it.  That the context is still there
    relies on received messages and closing windows being handled by one executor. *)
Example pop_between_get_and_write :
  ∃ st, register_occasion prach_initial short_occasion 0 = Ok st ∧
    (∃ c, get (prach_repo st) example_slot = Ok c ∧ prach_context.empty c = false) ∧
    (∃ r i, pop_prach_buffer (prach_repo st) example_slot = Ok (r, i) ∧ write_iq (buffers st) r example_slot 0 2 0 [zero_sample] = Fault AssertFailed).
Proof.
  eexists. split; [vm_compute; reflexivity|]. split.
  - eexists. split; [vm_compute; reflexivity|]. vm_compute. reflexivity.
  - eexists _, _. split; [vm_compute; reflexivity|]. vm_compute. reflexivity.
Qed.
End prach_examples.
