(* ===== verification/DownlinkFlow.v ===== *)
(** * DownlinkFlow: from a resource grid to User-Plane frames in the pool

    Models lib/ofh/transmitter/ofh_data_flow_uplane_downlink_data_impl.cpp: every symbol of
    a port is cut into fragments that fit a frame, each of which becomes a User-Plane message
    in an eCPRI packet in an Ethernet frame of the pool.

    The frames are written in place: the functions that fill one map the octets of the
    buffer to the new ones.  The reader of the grid stands for the grid.  Traces and log
    messages are left out. *)

From S2P Require Import Prelude SlotPoint OfhBase OfhUplane OfhCompression Ecpri Ethernet ResourceGrid FramePool TxSupport Tdd.

(** The two Ethernet frame builders behind their interface. *)
Module frame_builder.

Inductive t : Type := frame_builder_impl (p : ethernet.vlan_frame_params) | vlan_frame_builder_impl (p : ethernet.vlan_frame_params).

Definition get_header_size (b : t) : Z :=
  match b with frame_builder_impl _ => ethernet.get_header_size | vlan_frame_builder_impl _ => ethernet.vlan_get_header_size end.
Definition build_frame (b : t) (buffer : list Z) : result (list Z) :=
  match b with frame_builder_impl p => ethernet.build_frame p buffer | vlan_frame_builder_impl p => ethernet.vlan_build_frame p buffer end.

(** The octets a builder writes. *)
Definition octets (b : t) : list Z :=
  match b with
  | frame_builder_impl p => ethernet.header_octets p []
  | vlan_frame_builder_impl p => ethernet.header_octets p (be_bytes 2 ethernet.VLAN_TPID ++ be_bytes 2 (default 0 (ethernet.tci p)))
  end.
Definition wf (b : t) : Prop :=
  match b with frame_builder_impl p => ethernet.params_ok p | vlan_frame_builder_impl p => ethernet.params_ok p ∧ is_Some (ethernet.tci p) end.

Lemma zlen_octets b : wf b → zlen (octets b) = get_header_size b ∧ 14 <= get_header_size b <= 18.
Proof.
  destruct b as [p|p]; cbn [wf octets get_header_size]; unfold ethernet.header_octets; rewrite !be_bytes_2.
  - intros (Hd & Hs & _). split; [|done]. rewrite !zlen_app, Hd, Hs. done.
  - intros [(Hd & Hs & _) _]. split; [|done]. rewrite !zlen_app, Hd, Hs. done.
Qed.

Lemma build_frame_octets b buffer : wf b → get_header_size b <= zlen buffer →
  build_frame b buffer = Ok (octets b ++ drop (Z.to_nat (get_header_size b)) buffer).
Proof.
  destruct b as [p|p]; cbn [wf get_header_size build_frame octets].
  - intros Hp Hb. by apply ethernet.build_frame_spec.
  - intros [Hp [t Ht]] Hb. rewrite Ht. by apply ethernet.vlan_build_frame_spec.
Qed.
End frame_builder.

(** The eCPRI and Ethernet headers in front of a message of [bytes_written] octets; the
    number of octets of the frame. *)
Definition add_headers (eth : frame_builder.t) (ecpri_hdr_size bytes_written : Z) (build_packet : list Z → result (list Z)) (buffer : list Z)
    : result (Z * list Z) :=
  let ether_header_size := frame_builder.get_header_size eth in
  ecpri_buffer ← subspan buffer ether_header_size (wrap 32 (ecpri_hdr_size + bytes_written));
  ecpri_buffer ← build_packet ecpri_buffer;
  let buffer := take (Z.to_nat ether_header_size) buffer ++ ecpri_buffer ++ drop (Z.to_nat (ether_header_size + zlen ecpri_buffer)) buffer in
  let bytes_written := wrap 32 (bytes_written + ecpri_hdr_size) in
  eth_buffer ← span_first buffer (wrap 32 (ether_header_size + bytes_written));
  eth_buffer ← frame_builder.build_frame eth eth_buffer;
  Ok (zlen eth_buffer, eth_buffer ++ drop (length eth_buffer) buffer).

(** ** [data_flow_uplane_downlink_data_impl] *)
Module uplane_downlink_flow.
Import uplane.

Record config : Type := mk_config {
  nof_symbols_per_slot : Z; ru_nof_prbs : Z; compr_params : ru_compression_params;
  mode : cplane.compression_mode; eth_builder : frame_builder.t }.

(** [ud_comp_length_support] of the message builder. *)
Definition ud_comp_length_support : bool := false.

Record resource_grid_context : Type := mk_context {
  c_slot : slot_point.t; c_sector : Z; c_port : Z; c_eaxc : Z; c_symbol_range : ofdm_symbol_range }.

Definition generate_dl_ofh_user_parameters (slot : slot_point.t) (symbol_id start_prb nof_prb : Z) (comp : ru_compression_params)
    : uplane_message_params :=
  mk_params downlink slot standard_channel_filter start_prb nof_prb symbol_id type_1 comp.

Definition generate_ecpri_data_parameters (seq_id eaxc : Z) : ecpri.iq_data_parameters :=
  ecpri.mk_iq (wrap 16 eaxc) (wrap 16 (Z.lor (wrap 16 (Z.lor 0 (Z.land seq_id 0x00ff ≪ 8))) (1 ≪ 7))).

Section flow.
Context {compressor : IqCompressor} (cfg : config).

Definition ecpri_hdr_size : Z := ecpri.get_header_size ecpri.iq_data.

(** The counters, the number of octets of the frame and the octets of the buffer. *)
Definition enqueue_section_type_1_message_symbol (up_seq_gen : list Z) (iq_symbol_data : list cbf16_t) (params : uplane_message_params) (eaxc : Z)
    (buffer : list Z) : result (list Z * Z * list Z) :=
  let ether_header_size := frame_builder.get_header_size (eth_builder cfg) in
  let offset := ether_header_size + ecpri_hdr_size in
  ofh_buffer ← span_last buffer (wrap 64 (zlen buffer - offset));
  '(bytes_written, ofh_buffer) ← build_message (mode cfg) ud_comp_length_support ofh_buffer iq_symbol_data params;
  let buffer := take (Z.to_nat offset) buffer ++ ofh_buffer in
  '(up_seq_gen, seq_id) ← sequence_identifier_generator.generate up_seq_gen eaxc;
  '(size, buffer) ← add_headers (eth_builder cfg) ecpri_hdr_size bytes_written
    (λ b, ecpri.build_data_packet b (generate_ecpri_data_parameters seq_id eaxc)) buffer;
  Ok (up_seq_gen, size, buffer).

Definition headers_size : Z :=
  frame_builder.get_header_size (eth_builder cfg) + ecpri_hdr_size + get_header_size (mode cfg) (compr_params cfg).

(** The loop over the fragments of a symbol. *)
Fixpoint fragment_loop (fuel : nat) (slot : slot_point.t) (symbol_id eaxc : Z) (iq_data : list cbf16_t) (scoped_buffer : scoped_frame_buffer.t)
    (calculator : fragment_size_calculator.t) (frame_pool : eth_frame_pool.t) (up_seq_gen : list Z) : result (eth_frame_pool.t * list Z) :=
  match fuel with
  | O => Fault OutOfFuel
  | S fuel =>
      i ← scoped_frame_buffer.get_next_frame frame_pool scoped_buffer;
      frame ← scoped_frame_buffer.read_frame frame_pool scoped_buffer i;
      let data := frame_buffer.buffer frame in
      '(calculator, (fragment_start_prb, fragment_nof_prbs, is_last_fragment)) ←
        fragment_size_calculator.calculate_fragment_size calculator (wrap 32 (wrap 64 (zlen data - headers_size)));
      '(frame_pool, up_seq_gen) ←
        (if fragment_nof_prbs =? 0 then Ok (frame_pool, up_seq_gen) else
         let up_params := generate_dl_ofh_user_parameters slot symbol_id fragment_start_prb fragment_nof_prbs (compr_params cfg) in
         iq ← subspan iq_data (fragment_start_prb * NOF_SUBCARRIERS_PER_RB) (fragment_nof_prbs * NOF_SUBCARRIERS_PER_RB);
         '(up_seq_gen, used_size, data) ← enqueue_section_type_1_message_symbol up_seq_gen iq up_params eaxc data;
         frame_pool ← scoped_frame_buffer.update_frame frame_pool scoped_buffer i
           (λ b, frame_buffer.set_size (frame_buffer.mk (frame_buffer.sz b) (frame_buffer.status b) data) used_size);
         Ok (frame_pool, up_seq_gen));
      if (is_last_fragment : bool) then Ok (frame_pool, up_seq_gen)
      else fragment_loop fuel slot symbol_id eaxc iq_data scoped_buffer calculator frame_pool up_seq_gen
  end.

(** The samples of a symbol: a view of the grid, or a copy in the temporary buffer when
    the radio unit is wider than the cell. *)
Definition read_symbol (grid : resource_grid.t) (port symbol_id : Z) (temp_buffer : list cbf16_t) : result (list cbf16_t * list cbf16_t) :=
  let ru_nof_subc := ru_nof_prbs cfg * NOF_SUBCARRIERS_PER_RB in
  if ru_nof_subc =? resource_grid.get_nof_subc grid then
    view ← resource_grid.get_view_of grid port symbol_id;
    iq_data ← tensor.load (tensor.elements (resource_grid.rg_buffer grid)) view;
    Ok (iq_data, temp_buffer)
  else
    temp_iq_data ← vec_range temp_buffer 0 ru_nof_subc;
    first ← span_first temp_iq_data (resource_grid.get_nof_subc grid);
    symbols ← resource_grid.get grid (zlen first) port symbol_id 0;
    let temp_buffer := symbols ++ drop (length symbols) temp_buffer in
    Ok (take (Z.to_nat ru_nof_subc) temp_buffer, temp_buffer).

(** The loop over the symbols; it is left when the pool has no frames to lend. *)
Fixpoint symbol_loop (fuel : nat) (context : resource_grid_context) (grid : resource_grid.t) (symbol_id symbol_end : Z) (temp_buffer : list cbf16_t)
    (frame_pool : eth_frame_pool.t) (up_seq_gen : list Z) : result (eth_frame_pool.t * list Z) :=
  if symbol_id =? symbol_end then Ok (frame_pool, up_seq_gen) else
  match fuel with
  | O => Fault OutOfFuel
  | S fuel =>
      symbol_point ← slot_symbol_point.of_slot (c_slot context) symbol_id (nof_symbols_per_slot cfg);
      '(frame_pool, scoped_buffer) ← scoped_frame_buffer.create frame_pool symbol_point user_plane downlink;
      if scoped_frame_buffer.empty scoped_buffer then Ok (frame_pool, up_seq_gen) else
      '(iq_data, temp_buffer) ← read_symbol grid (c_port context) symbol_id temp_buffer;
      calculator ← fragment_size_calculator.create 0 (ru_nof_prbs cfg) (compr_params cfg);
      '(frame_pool, up_seq_gen) ← fragment_loop (S (Z.to_nat (ru_nof_prbs cfg))) (c_slot context) symbol_id (c_eaxc context) iq_data scoped_buffer calculator
        frame_pool up_seq_gen;
      frame_pool ← scoped_frame_buffer.destroy frame_pool scoped_buffer;
      symbol_loop fuel context grid (wrap 32 (symbol_id + 1)) symbol_end temp_buffer frame_pool up_seq_gen
  end.

(** [temp_buffer] is not initialised; a symbol past the slot fails an assertion, which bounds
    the loop. *)
Definition enqueue_section_type_1_message (context : resource_grid_context) (grid : resource_grid.t) (temp_buffer : list cbf16_t)
    (frame_pool : eth_frame_pool.t) (up_seq_gen : list Z) : result (eth_frame_pool.t * list Z) :=
  let nof_subc := resource_grid.get_nof_subc grid in
  temp_buffer ← (if negb (ru_nof_prbs cfg * NOF_SUBCARRIERS_PER_RB =? nof_subc) then
                   assume (nof_subc <=? zlen temp_buffer) OutOfBounds;;
                   Ok (take (Z.to_nat nof_subc) temp_buffer ++ replicate (length temp_buffer - Z.to_nat nof_subc) resource_grid.zero)
                 else Ok temp_buffer);
  symbol_loop (S (Z.to_nat (nof_symbols_per_slot cfg))) context grid (range_start (c_symbol_range context)) (range_length (c_symbol_range context)) temp_buffer
    frame_pool up_seq_gen.

End flow.
End uplane_downlink_flow.

(** ** One frame *)

(** Putting headers in front of a message that already is in its place. *)
Lemma add_headers_spec eth header message rest build buffer : frame_builder.wf eth →
  zlen buffer = frame_builder.get_header_size eth + 8 → zlen header = 8 → zlen message < 2 ^ 31 →
  (∀ b, zlen b = 8 + zlen message → build b = Ok (header ++ drop 8 b)) →
  let frame := frame_builder.octets eth ++ header ++ message in
  add_headers eth 8 (zlen message) build (buffer ++ message ++ rest) = Ok (zlen frame, frame ++ rest).
Proof.
  intros He Hb Hh Hm HB frame. destruct (frame_builder.zlen_octets eth He) as [Ho Hr]. unfold add_headers. pose proof (zlen_nonneg message).
  rewrite (wrap_small 32 (8 + _)) by lia_fits. set (h := frame_builder.get_header_size eth) in *.
  assert (HS : subspan (buffer ++ message ++ rest) h (8 + zlen message) = Ok (drop (Z.to_nat h) buffer ++ message)).
  { unfold subspan. pose proof (zlen_nonneg rest). rewrite !zlen_app. do 2 pass_assume. f_equal. rewrite app_assoc, drop_app_le by (rewrite length_app; unfold zlen in *; lia).
    rewrite take_app_le by (rewrite length_drop, length_app; unfold zlen in *; lia). rewrite drop_app_le by (unfold zlen in *; lia).
    apply take_ge. rewrite length_app, length_drop. unfold zlen in *. lia. }
  rewrite HS. cbn [mbind result_bind]. rewrite HB by (rewrite zlen_app; unfold zlen in *; rewrite length_drop; lia). cbn [mbind result_bind].
  assert (HD8 : drop 8 (drop (Z.to_nat h) buffer ++ message) = message) by (rewrite drop_app_length'; [done|rewrite length_drop; unfold zlen in *; lia]).
  rewrite HD8. assert (HDR : drop (Z.to_nat (h + zlen (header ++ message))) (buffer ++ message ++ rest) = rest).
  { rewrite app_assoc. apply drop_app_length'. rewrite !length_app. rewrite zlen_app. unfold zlen in *. lia. }
  rewrite HDR. set (eth_part := take (Z.to_nat h) (buffer ++ message ++ rest)). assert (Hep : zlen eth_part = h).
  { unfold eth_part, zlen. rewrite length_take, !length_app. unfold zlen in *. lia. }
  rewrite (wrap_small 32 (zlen message + 8)) by lia_fits. rewrite (wrap_small 32) by lia_fits.
  assert (HF : span_first (eth_part ++ (header ++ message) ++ rest) (h + (zlen message + 8)) = Ok (eth_part ++ header ++ message)).
  { unfold span_first, subspan. rewrite !zlen_app. pose proof (zlen_nonneg rest). do 3 pass_assume. f_equal. rewrite drop_0, app_assoc. apply take_app_length'. rewrite !length_app. unfold zlen in *. lia. }
  rewrite HF. cbn [mbind result_bind]. rewrite frame_builder.build_frame_octets by (done || (rewrite zlen_app, Hep; fold h; pose proof (zlen_nonneg (header ++ message)); lia)). fold h. cbn [mbind result_bind].
  rewrite (drop_app_length' eth_part) by (unfold zlen in *; lia). fold frame. do 2 f_equal. f_equal. rewrite app_assoc. apply drop_app_length'.
  unfold frame. rewrite !length_app. unfold zlen in *. lia.
Qed.

(** The sequence identifier field: the identifier, the E bit and subsequence 0. *)
Lemma seq_field x : u8 x → wrap 16 (Z.lor (wrap 16 (Z.lor 0 (Z.land x 0x00ff ≪ 8))) (1 ≪ 7)) = 256 * x + 128 ∧ u16 (256 * x + 128).
Proof.
  intros Hx. assert (HI : x ∈ seqZ 0 256) by (apply elem_of_seqZ; lia_fits). split; [|lia_fits].
  assert (HF : Forall (λ x, wrap 16 (Z.lor (wrap 16 (Z.lor 0 (Z.land x 0x00ff ≪ 8))) (1 ≪ 7)) = 256 * x + 128) (seqZ 0 256)) by (apply (bool_decide_eq_true_1 _); vm_compute; reflexivity).
  rewrite Forall_forall in HF. by apply HF.
Qed.

Section frames.
Import uplane uplane_downlink_flow.
Context {compressor : IqCompressor} (cfg : config).

Abbreviation n := (ru_nof_prbs cfg).
Abbreviation c := (compr_params cfg).
Abbreviation size := (get_compressed_prb_size c).

(** What the compressor leaves in a view, whatever was there. *)
Definition payload (iq : list cbf16_t) : list Z :=
  match iq_compress (replicate (Z.to_nat (zlen iq / 12 * size)) 0) iq c with Ok p => p | Fault _ => [] end.
Definition compressible (iq : list cbf16_t) : Prop :=
  ∀ view, zlen view = zlen iq / 12 * size → iq_compress view iq c = Ok (payload iq) ∧ zlen (payload iq) = zlen iq / 12 * size.

(** The frame of a fragment. *)
Definition fragment_samples (iq : list cbf16_t) (f : Z * Z) : list cbf16_t :=
  take (Z.to_nat (f.2 * 12)) (drop (Z.to_nat (f.1 * 12)) iq).
Definition fragment_params (slot : slot_point.t) (symbol_id : Z) (f : Z * Z) : uplane_message_params :=
  generate_dl_ofh_user_parameters slot symbol_id f.1 f.2 c.
Definition fragment_message (slot : slot_point.t) (symbol_id : Z) (iq : list cbf16_t) (f : Z * Z) : list Z :=
  144 :: message_tail (mode cfg) ud_comp_length_support (fragment_params slot symbol_id f) (payload (fragment_samples iq f)).
Definition fragment_frame (slot : slot_point.t) (symbol_id eaxc seq : Z) (iq : list cbf16_t) (f : Z * Z) : list Z :=
  let message := fragment_message slot symbol_id iq f in
  frame_builder.octets (eth_builder cfg) ++ ecpri.header_octets ecpri.iq_data (zlen message + 4) (wrap 16 eaxc) (256 * seq + 128) ++ message.

(** The configurations of the flow: a supported width and a method without length field. *)
Definition config_ok : Prop :=
  frame_builder.wf (eth_builder cfg) ∧ 0 < data_width c <= 16 ∧ is_selective (compr_type c) = false ∧ 0 < n <= 275.

Lemma header_size_range : config_ok → 0 <= get_header_size (mode cfg) c <= 12 ∧ headers_size cfg = frame_builder.get_header_size (eth_builder cfg) + 8 + get_header_size (mode cfg) c.
Proof. intros _. unfold get_header_size. split; [|done]. destruct (mode cfg), (is_selective _); lia. Qed.

Lemma zlen_fragment_message slot symbol_id iq f : config_ok → compressible (fragment_samples iq f) → zlen (fragment_samples iq f) = f.2 * 12 →
  zlen (fragment_message slot symbol_id iq f) = get_header_size (mode cfg) c + f.2 * size.
Proof.
  intros (_ & _ & Hsel & _) Hc Hz. unfold fragment_message. rewrite zlen_cons, zlen_tail by (unfold fragment_params; cbn; by rewrite Hsel). unfold fragment_params. cbn [compression_params generate_dl_ofh_user_parameters].
  assert (zlen (payload (fragment_samples iq f)) = f.2 * size) as ->; [|done].
  assert (Hq : zlen (fragment_samples iq f) / 12 = f.2) by (rewrite Hz; apply Z.div_mul; lia). rewrite <- Hq.
  pose proof (zlen_nonneg (fragment_samples iq f)). destruct (Z.le_gt_cases 0 (zlen (fragment_samples iq f) / 12 * size)) as [Hle|Hgt].
  - apply (Hc (replicate (Z.to_nat (zlen (fragment_samples iq f) / 12 * size)) 0)). unfold zlen at 1. rewrite length_replicate. lia.
  - exfalso. assert (0 <= size) by (unfold get_compressed_prb_size, round_up_to_bytes, wrap; apply Z.div_pos; [apply Z.mod_pos_bound; lia|lia]). nia.
Qed.

Lemma frame_written slot symbol_id eaxc iq f gen buffer : config_ok → sequence_identifier_generator.wf gen → 0 <= eaxc < 32 →
  0 < f.2 <= 275 → zlen (fragment_samples iq f) = f.2 * 12 → compressible (fragment_samples iq f) →
  headers_size cfg + f.2 * size <= zlen buffer < 2 ^ 31 →
  let frame := fragment_frame slot symbol_id eaxc (sequence_identifier_generator.next gen eaxc) iq f in
  zlen frame = headers_size cfg + f.2 * size ∧
  enqueue_section_type_1_message_symbol cfg gen (fragment_samples iq f) (fragment_params slot symbol_id f) eaxc buffer =
    Ok (sequence_identifier_generator.advance gen eaxc 1, zlen frame, frame ++ drop (length frame) buffer).
Proof.
  intros Hcfg Hgen He Hf Hiq Hc Hb frame. destruct (header_size_range Hcfg) as [Hgh Hhs]. pose proof Hcfg as (Heth & Hw & Hsel & Hn).
  destruct (frame_builder.zlen_octets _ Heth) as [Ho Hor]. pose proof (zlen_fragment_message slot symbol_id iq f Hcfg Hc Hiq) as Hzm.
  destruct (sequence_identifier_generator.generate_spec gen eaxc Hgen He) as (HG & Hu & _). destruct (seq_field _ Hu) as [HSq HSu].
  assert (Hzf : zlen frame = headers_size cfg + f.2 * size).
  { unfold frame, fragment_frame. rewrite !zlen_app, Ho, Hzm, Hhs. unfold zlen. rewrite ecpri.length_header_octets. lia. }
  split; [done|]. unfold enqueue_section_type_1_message_symbol, ecpri_hdr_size. change (ecpri.get_header_size ecpri.iq_data) with 8.
  set (h := frame_builder.get_header_size (eth_builder cfg)) in *. assert (Hsz : 0 <= f.2 * size) by (rewrite prb_size_value by lia; case_match; lia).
  rewrite (wrap_small 64) by lia_fits.
  assert (HL : span_last buffer (zlen buffer - (h + 8)) = Ok (drop (Z.to_nat (h + 8)) buffer)).
  { unfold span_last, subspan. do 3 pass_assume. f_equal. replace (zlen buffer - (zlen buffer - (h + 8))) with (h + 8) by lia. apply take_ge. rewrite length_drop. unfold zlen in *. lia. }
  rewrite HL. cbn [mbind result_bind]. assert (Hq : zlen (fragment_samples iq f) / 12 = f.2) by (rewrite Hiq; apply Z.div_mul; lia).
  unfold compressible in Hc. rewrite Hq in Hc. assert (Hzp : zlen (payload (fragment_samples iq f)) = f.2 * size).
  { apply (Hc (replicate (Z.to_nat (f.2 * size)) 0)). unfold zlen at 1. rewrite length_replicate. lia. }
  rewrite (build_message_spec _ _ _ _ _ (payload (fragment_samples iq f))); cbn [fragment_params generate_dl_ofh_user_parameters sect_type nof_prb compression_params];
    [|done|done|lia|lia|by rewrite Hsel|intros view Hv; by apply Hc|done|rewrite Hzp; unfold zlen in *; rewrite length_drop; lia].
  cbn [mbind result_bind]. rewrite Hzp, HG. cbn [mbind result_bind]. rewrite <- Hzm.
  change (144 :: message_tail _ _ _ _) with (fragment_message slot symbol_id iq f). set (message := fragment_message slot symbol_id iq f) in *.
  rewrite (add_headers_spec _ (ecpri.header_octets ecpri.iq_data (zlen message + 4) (wrap 16 eaxc) (256 * sequence_identifier_generator.next gen eaxc + 128)));
    [|done|unfold zlen in *; rewrite length_take; lia|unfold zlen; by rewrite ecpri.length_header_octets|lia|].
  - cbn [mbind result_bind]. fold frame. do 3 f_equal. rewrite drop_drop. f_equal. unfold zlen in *. lia.
  - intros b Hzb. unfold ecpri.build_data_packet, generate_ecpri_data_parameters. cbn [ecpri.pc_id ecpri.seq_id]. rewrite HSq. rewrite ecpri.build_packet_spec by lia.
    rewrite Hzb. do 2 f_equal. f_equal. lia.
Qed.

(** ** One symbol *)

Context (Q : nat) (mtu : Z).

(** The blocks that fit a frame, and the frames of a symbol as they are sent. *)
Definition blocks_per_frame : Z := (mtu - headers_size cfg) / size.
Abbreviation k := blocks_per_frame.
Definition frames_per_symbol : Z := fragment_size_calculator.nof_fragments k n.
Abbreviation F := frames_per_symbol.
Definition fragment_at (j : Z) : Z * Z := fragment_size_calculator.fragment k n j.

Definition padded (frame : list Z) : list Z := frame ++ replicate (Z.to_nat (MIN_ETH_FRAME_LENGTH - zlen frame)) 0.
Definition numbered_frame (slot : slot_point.t) (symbol_id eaxc seq : Z) (iq : list cbf16_t) (j : Z) : list Z :=
  padded (fragment_frame slot symbol_id eaxc (wrap 8 (seq + j)) iq (fragment_at j)).
Definition symbol_frames (slot : slot_point.t) (symbol_id eaxc seq : Z) (iq : list cbf16_t) : list (list Z) :=
  map (numbered_frame slot symbol_id eaxc seq iq) (seqZ 0 F).

(** A frame can hold a block, and the pool lends as many frames as a symbol takes. *)
Definition frames_ok : Prop :=
  config_ok ∧ compr_type c ≠ block_scaling ∧ compr_type c ≠ reserved ∧
  MIN_ETH_FRAME_LENGTH <= mtu <= MAX_ETH_FRAME_LENGTH ∧ headers_size cfg + size <= mtu ∧ F <= Z.of_nat Q.
Definition row_ok (iq : list cbf16_t) : Prop := zlen iq = n * 12 ∧ ∀ j, 0 <= j < F → compressible (fragment_samples iq (fragment_at j)).

Lemma framed_padded frame rest : framed (frame ++ rest) (zlen frame) = padded frame.
Proof. unfold framed, padded. by rewrite take_app_length' by (unfold zlen; lia). Qed.

Lemma frames_range : frames_ok → 0 < size <= 49 ∧ 0 < k ∧ headers_size cfg + k * size <= mtu ∧ 0 < headers_size cfg <= 38 ∧ 0 < F <= n.
Proof.
  intros (Hcfg & _ & _ & Hm & Hfit & _). destruct (header_size_range Hcfg) as [Hgh Hhs]. pose proof Hcfg as (Heth & Hw & Hsel & Hn).
  destruct (frame_builder.zlen_octets _ Heth) as [Ho Hor]. assert (Hs : 0 < size <= 49) by (rewrite prb_size_value by lia; case_match; lia).
  assert (Hk : 0 < k) by (apply Z.div_str_pos; lia). split; [done|]. split; [done|].
  split; [unfold blocks_per_frame; pose proof (Z.div_mod (mtu - headers_size cfg) size ltac:(lia)); pose proof (Z.mod_pos_bound (mtu - headers_size cfg) size ltac:(lia)); nia|].
  split; [lia|]. apply fragment_size_calculator.length_fragments; lia.
Qed.

Lemma fragment_range j : frames_ok → 0 <= j < F → j * k < n ∧ 0 < (fragment_at j).2 <= k ∧ (fragment_at j).2 <= 275 ∧
  (fragment_at j).1 = j * k ∧ (fragment_at j).1 + (fragment_at j).2 <= n.
Proof.
  intros HK Hj. destruct (frames_range HK) as (_ & Hk & _ & _ & HF). pose proof HK as ((_ & _ & _ & Hn) & _).
  unfold frames_per_symbol, fragment_size_calculator.nof_fragments in Hj.
  pose proof (Z.div_mod (n + k - 1) k ltac:(lia)). pose proof (Z.mod_pos_bound (n + k - 1) k Hk).
  assert (j * k < n) by nia. split; [done|]. unfold fragment_at, fragment_size_calculator.fragment. cbn [fst snd]. lia.
Qed.

Lemma zlen_fragment_samples iq j : frames_ok → zlen iq = n * 12 → 0 <= j < F → zlen (fragment_samples iq (fragment_at j)) = (fragment_at j).2 * 12.
Proof.
  intros HK Hz Hj. destruct (fragment_range j HK Hj) as (H1 & H2 & _ & H3 & H4). unfold fragment_samples, zlen in *. rewrite length_take, length_drop. nia.
Qed.

Definition data_context (p : slot_symbol_point.t) : frame_pool_context := mk_pool_context (mk_type user_plane downlink) p.

Lemma fragment_loop_spec slot symbol_id eaxc iq G point w gen : frames_ok → row_ok iq → sequence_identifier_generator.wf gen → 0 <= eaxc < 32 →
  ∀ (m : nat) j fuel pool, F = j + Z.of_nat m → (0 < m)%nat → 0 <= j → (m <= fuel)%nat →
  let seq := sequence_identifier_generator.next gen eaxc in
  lending Q mtu pool G (data_context point) w (map (numbered_frame slot symbol_id eaxc seq iq) (seqZ 0 j)) →
  ∃ pool', fragment_loop cfg fuel slot symbol_id eaxc iq (scope Q (data_context point) w) (fragment_size_calculator.mk 0 n size (j * k)) pool
      (sequence_identifier_generator.advance gen eaxc j) = Ok (pool', sequence_identifier_generator.advance gen eaxc F) ∧
    lending Q mtu pool' G (data_context point) w (symbol_frames slot symbol_id eaxc seq iq).
Proof.
  intros HK [Hz Hrow] Hgen He. destruct (frames_range HK) as (Hs & Hk & Hfit & Hh & HFr). pose proof HK as (Hcfg & _ & _ & Hm & Hmin & HQ). unfold MIN_ETH_FRAME_LENGTH, MAX_ETH_FRAME_LENGTH in Hm.
  pose proof Hcfg as (_ & _ & _ & Hn). induction m as [|m IH]; intros j fuel pool HF Hm0 Hj Hfuel seq HL; [lia|].
  destruct fuel as [|fuel]; [lia|]. cbn [fragment_loop].
  destruct (lending_fill Q mtu pool G (data_context point) w _ HL) as (i & b & HN & HR & Hbz & HU); [rewrite length_map, length_seqZ; change (quant Q _) with Q; lia|unfold MIN_ETH_FRAME_LENGTH; lia|].
  rewrite HN. cbn [mbind result_bind]. rewrite HR. cbn [mbind result_bind]. rewrite Hbz. rewrite (wrap_small 64) by lia_fits. rewrite (wrap_small 32) by lia_fits.
  destruct (fragment_range j HK ltac:(lia)) as (Hjk & H2 & H275 & H1 & H12).
  pose proof (fragment_size_calculator.calculate_step n size (mtu - headers_size cfg) j ltac:(lia) ltac:(lia) ltac:(lia)) as HC. cbn zeta in HC.
  change ((mtu - headers_size cfg) / size) with k in HC. rewrite HC by lia. destruct (fragment_size_calculator.nof_fragments_step k n j) as [HLast _]; [lia..|]. rewrite HLast. fold F.
  cbn [mbind result_bind]. fold (fragment_at j). destruct (fragment_at j) as [start count] eqn:Hfa. cbn [fst snd] in *. rewrite (proj2 (Z.eqb_neq count 0)) by lia.
  unfold NOF_SUBCARRIERS_PER_RB. assert (HSub : subspan iq (start * 12) (count * 12) = Ok (fragment_samples iq (start, count))).
  { unfold subspan. do 2 pass_assume. done. }
  rewrite HSub. cbn [mbind result_bind]. pose proof (sequence_identifier_generator.advance_wf gen eaxc j Hgen) as Hgj.
  destruct (frame_written slot symbol_id eaxc iq (start, count) (sequence_identifier_generator.advance gen eaxc j) (frame_buffer.buffer b)) as [Hzf HW];
    [done|done|done|cbn; lia|rewrite <- Hfa; apply zlen_fragment_samples; (done || lia)|rewrite <- Hfa; apply Hrow; lia|cbn [snd]; nia|]. cbn [snd] in *.
  unfold fragment_params in HW. cbn [fst snd] in HW. rewrite HW. cbn [mbind result_bind]. rewrite sequence_identifier_generator.advance_next in * by done.
  rewrite sequence_identifier_generator.advance_add in * by done. set (frame := fragment_frame _ _ _ _ _ _) in *.
  destruct (HU (frame ++ drop (length frame) (frame_buffer.buffer b)) (zlen frame)) as (pool1 & HUp & HL1);
    [rewrite zlen_app; unfold zlen in *; rewrite length_drop; nia|nia|unfold MAX_ETH_FRAME_LENGTH; nia|]. rewrite HUp. cbn [mbind result_bind].
  rewrite framed_padded in HL1. assert (HE : padded frame = numbered_frame slot symbol_id eaxc seq iq j) by (unfold numbered_frame; rewrite Hfa; done).
  rewrite HE in HL1. assert (HM : map (numbered_frame slot symbol_id eaxc seq iq) (seqZ 0 j) ++ [numbered_frame slot symbol_id eaxc seq iq j] = map (numbered_frame slot symbol_id eaxc seq iq) (seqZ 0 (j + 1))).
  { rewrite (seqZ_app 0 j 1) by lia. by rewrite map_app. }
  rewrite HM in HL1. destruct (Z.eqb_spec F (j + 1)) as [Heq|Hne].
  - rewrite <- Heq in HL1 |- *. exists pool1. split; [done|exact HL1].
  - apply (IH (j + 1) fuel pool1); [lia|lia|lia|lia|exact HL1].
Qed.

(** A frame that cannot hold a block is left empty and handed out again: the loop never
    ends. *)
Lemma fragment_loop_stuck slot symbol_id eaxc iq G point w gen calc pool fuel : 
  (0 < Q)%nat → MIN_ETH_FRAME_LENGTH <= mtu → 0 <= mtu - headers_size cfg < size → mtu < 2 ^ 32 → 0 <= headers_size cfg →
  fragment_size_calculator.prb_size calc = size → lending Q mtu pool G (data_context point) w [] →
  fragment_loop cfg fuel slot symbol_id eaxc iq (scope Q (data_context point) w) calc pool gen = Fault OutOfFuel.
Proof.
  intros HQ Hmin Hsmall Hm Hh Hcalc HL. induction fuel as [|fuel IH]; [done|]. cbn [fragment_loop].
  destruct (lending_fill Q mtu pool G (data_context point) w _ HL) as (i & b & HN & HR & Hbz & _); [done|done|].
  rewrite HN. cbn [mbind result_bind]. rewrite HR. cbn [mbind result_bind]. rewrite Hbz, (wrap_small 64) by lia_fits. rewrite (wrap_small 32) by lia_fits.
  unfold fragment_size_calculator.calculate_fragment_size. rewrite Hcalc, (proj2 (Z.ltb_lt _ _)) by lia. exact IH.
Qed.

(** ** The samples of a symbol *)

Definition temp_size : Z := MAX_NOF_PRBS * NOF_SUBCARRIERS_PER_RB.

(** The subcarriers the cell does not have are zero. *)
Definition symbol_samples (grid : resource_grid.t) (port symbol_id : Z) : list cbf16_t :=
  row grid port symbol_id ++ replicate (Z.to_nat (n * 12 - resource_grid.nof_subc grid)) resource_grid.zero.
Definition temp_ok (grid : resource_grid.t) (temp : list cbf16_t) : Prop :=
  zlen temp = temp_size ∧ (resource_grid.nof_subc grid < n * 12 →
    drop (Z.to_nat (resource_grid.nof_subc grid)) temp = replicate (Z.to_nat (temp_size - resource_grid.nof_subc grid)) resource_grid.zero).

Lemma read_symbol_spec grid port symbol_id temp : wf grid → on_grid grid port symbol_id → n <= 275 → resource_grid.nof_subc grid <= n * 12 → temp_ok grid temp →
  ∃ temp', read_symbol cfg grid port symbol_id temp = Ok (symbol_samples grid port symbol_id, temp') ∧ temp_ok grid temp'.
Proof.
  intros Hw Hg Hn Hsub [Hzt Htemp]. unfold read_symbol, symbol_samples, NOF_SUBCARRIERS_PER_RB. destruct (dimensions_wf grid Hw) as (HD1 & HD2 & HD3). rewrite HD1.
  pose proof (zlen_row grid port symbol_id Hw Hg) as Hzr. pose proof Hg as [Hp Hl]. unfold temp_size, MAX_NOF_PRBS, NOF_SUBCARRIERS_PER_RB in *.
  destruct (Z.eqb_spec (n * 12) (resource_grid.nof_subc grid)) as [Heq|Hne].
  - exists temp. split; [|done]. unfold resource_grid.get_view_of. rewrite HD2, HD3. do 2 pass_assume. rewrite get_view_wf by done. cbn [mbind result_bind].
    destruct (row_context grid port symbol_id Hw Hg) as (u & v & Hu & HE & _). rewrite HE.
    rewrite (load_middle u (row grid port symbol_id) v 0 (resource_grid.nof_subc grid)) by (cbn [tensor.start tensor.len]; pose proof (zlen_nonneg (row grid port symbol_id)); lia).
    cbn [mbind result_bind]. rewrite drop_0, take_ge by (unfold zlen in *; lia). replace (n * 12 - resource_grid.nof_subc grid) with 0 by lia. by rewrite app_nil_r.
  - pose proof (zlen_nonneg (row grid port symbol_id)). unfold vec_range. rewrite !(proj2 (Z.leb_le _ _)) by lia. cbn [andb mbind result_bind].
    rewrite drop_0, Z.sub_0_r. set (t := take (Z.to_nat (n * 12)) temp). assert (Hzl : zlen t = n * 12) by (unfold t, zlen in *; rewrite length_take; lia).
    unfold span_first, subspan. rewrite Hzl. do 3 pass_assume. cbn [mbind result_bind]. rewrite drop_0.
    assert (Hzf : zlen (take (Z.to_nat (resource_grid.nof_subc grid)) t) = resource_grid.nof_subc grid) by (unfold zlen in *; rewrite length_take; lia). rewrite Hzf.
    rewrite grid_get_spec by (done || lia). cbn [mbind result_bind]. rewrite drop_0, (take_ge (row _ _ _)) by (unfold zlen in *; lia).
    assert (HD : drop (length (row grid port symbol_id)) temp = replicate (Z.to_nat (275 * 12 - resource_grid.nof_subc grid)) resource_grid.zero).
    { rewrite <- Htemp by lia. f_equal. unfold zlen in Hzr. lia. }
    rewrite HD. eexists. split; [|split].
    + do 2 f_equal. rewrite take_app_ge by (unfold zlen in *; lia). f_equal. rewrite take_replicate. f_equal. unfold zlen in *. lia.
    + unfold temp_size, MAX_NOF_PRBS, NOF_SUBCARRIERS_PER_RB. rewrite zlen_app. unfold zlen in *. rewrite length_replicate. lia.
    + intros _. apply drop_app_length'. unfold zlen in *. lia.
Qed.

(** ** All symbols of a port *)

Abbreviation rings := (nat → nat → ring).

(** Room for [m] more reservations in every ring. *)
Definition room (G : rings) (m : Z) : Prop := ∀ i k, Z.of_nat (quant Q k) * (granted (G i k) + m) < 2 ^ 32.

Definition point_of (slot : slot_point.t) (symbol_id : Z) : slot_symbol_point.t :=
  slot_symbol_point.mk (nof_symbols_per_slot cfg) (slot_point.numerology_val slot) (slot_point.count_val slot * nof_symbols_per_slot cfg + symbol_id).

(** What the flow does on the rings: the frames of a symbol are queued for it, until there is
    no window left. *)
Fixpoint spec_symbols (slot : slot_point.t) (eaxc : Z) (samples : Z → list cbf16_t) (symbols : list Z) (G : rings) (gen : list Z) : result (rings * list Z) :=
  match symbols with
  | [] => Ok (G, gen)
  | s :: symbols =>
      let i := place (point_of slot s) in
      r ← ring_send (G i 2%nat) (point_of slot s) (symbol_frames slot s eaxc (sequence_identifier_generator.next gen eaxc) (samples s));
      match r with
      | None => Ok (G, gen)
      | Some g => spec_symbols slot eaxc samples symbols (upd i 2 g G) (sequence_identifier_generator.advance gen eaxc F)
      end
  end.

Lemma ring_send_granted g p frames g' : ring_send g p frames = Ok (Some g') → granted g' = granted g + 1.
Proof. unfold ring_send. destruct (ring_reserve g) as [g1 [w|]]; [|done]. destruct (_ <=? _); [|done]. by intros [= <-]. Qed.

Lemma room_send G i k p frames g m : room G (m + 1) → ring_send (G i k) p frames = Ok (Some g) → room (upd i k g G) m.
Proof.
  intros HR HS i' k'. specialize (HR i' k'). unfold upd. destruct (decide _) as [[<- <-]|_]; [|lia]. rewrite (ring_send_granted _ _ _ _ HS). lia.
Qed.

(** One symbol, from the reservation to the push. *)
Definition send_symbol (context : resource_grid_context) (iq : list cbf16_t) (symbol_id : Z) (scoped : scoped_frame_buffer.t) (pool : eth_frame_pool.t) (gen : list Z)
    : result (eth_frame_pool.t * list Z) :=
  calculator ← fragment_size_calculator.create 0 n c;
  '(pool, gen) ← fragment_loop cfg (S (Z.to_nat n)) (c_slot context) symbol_id (c_eaxc context) iq scoped calculator pool gen;
  pool ← scoped_frame_buffer.destroy pool scoped;
  Ok (pool, gen).

Lemma send_symbol_spec context iq symbol_id G pool gen w : frames_ok → row_ok iq → sequence_identifier_generator.wf gen → 0 <= c_eaxc context < 32 →
  let p := point_of (c_slot context) symbol_id in let g := G (place p) 2%nat in
  (ring_reserve g).2 = Some w → lending Q mtu pool G (data_context p) w [] →
  match ring_send g p (symbol_frames (c_slot context) symbol_id (c_eaxc context) (sequence_identifier_generator.next gen (c_eaxc context)) iq) with
  | Ok (Some g') => ∃ pool', send_symbol context iq symbol_id (scope Q (data_context p) w) pool gen = Ok (pool', sequence_identifier_generator.advance gen (c_eaxc context) F) ∧
      pool_implements Q mtu pool' (upd (place p) 2 g' G)
  | Ok None => False
  | Fault f => send_symbol context iq symbol_id (scope Q (data_context p) w) pool gen = Fault f
  end.
Proof.
  intros HK Hrow Hgen He p g Hres HL. destruct (frames_range HK) as (Hs & Hk & _ & _ & HF). pose proof HK as ((_ & Hw & _ & Hn) & Hb & Hr & _).
  unfold send_symbol, fragment_size_calculator.create. rewrite fragment_size_calculator.prb_data_size_compressed by (done || lia). cbn [mbind result_bind].
  destruct (fragment_loop_spec (c_slot context) symbol_id (c_eaxc context) iq G p w gen HK Hrow Hgen He (Z.to_nat F) 0 (S (Z.to_nat n)) pool) as (pool1 & HLoop & HL1);
    [lia|lia|lia|lia|exact HL|].
  rewrite Z.mul_0_l, sequence_identifier_generator.advance_zero in HLoop by done. rewrite HLoop. cbn [mbind result_bind].
  pose proof (lending_push Q mtu pool1 G (data_context p) w _ HL1 Hres) as HP. cbn [data_context pc_symbol_point pc_type] in HP. change (kind (mk_type user_plane downlink)) with 2%nat in HP. fold g in HP.
  destruct (ring_send g p _) as [[g'|]|f]; [|done|by rewrite HP]. destruct HP as (pool' & -> & HP'). by eexists.
Qed.

Lemma point_of_spec slot s : slot_point.wf slot → 0 < nof_symbols_per_slot cfg < 16 → 0 <= s < nof_symbols_per_slot cfg →
  slot_symbol_point.of_slot slot s (nof_symbols_per_slot cfg) = Ok (point_of slot s) ∧ slot_symbol_point.wf (point_of slot s).
Proof. intros Hw Hn Hs. destruct (slot_symbol_point.symbol_of_slot_spec slot s _ Hw Hn Hs) as (H1 & H2 & _). done. Qed.

(** The contexts and grids the flow is given. *)
Definition context_fits (context : resource_grid_context) (grid : resource_grid.t) : Prop :=
  wf grid ∧ slot_point.wf (c_slot context) ∧ 0 < nof_symbols_per_slot cfg < 16 ∧ nof_symbols_per_slot cfg <= resource_grid.nof_symb grid ∧
  0 <= c_port context < resource_grid.nof_ports grid ∧ 0 <= c_eaxc context < 32 ∧ resource_grid.nof_subc grid <= n * 12.

Lemma symbol_loop_spec context grid : frames_ok → context_fits context grid →
  ∀ (m : nat) s fuel temp pool G gen, temp_ok grid temp → pool_implements Q mtu pool G → sequence_identifier_generator.wf gen → room G (Z.of_nat m) →
  0 <= s → s + Z.of_nat m <= nof_symbols_per_slot cfg → (m <= fuel)%nat →
  (∀ s', s <= s' < s + Z.of_nat m → row_ok (symbol_samples grid (c_port context) s')) →
  match spec_symbols (c_slot context) (c_eaxc context) (symbol_samples grid (c_port context)) (seqZ s (Z.of_nat m)) G gen with
  | Ok (G', gen') => ∃ pool', symbol_loop cfg fuel context grid s (s + Z.of_nat m) temp pool gen = Ok (pool', gen') ∧ pool_implements Q mtu pool' G'
  | Fault f => symbol_loop cfg fuel context grid s (s + Z.of_nat m) temp pool gen = Fault f
  end.
Proof.
  intros HK (Hwg & Hslot & Hnof & Hsym & Hport & He & Hsub). pose proof HK as ((_ & _ & _ & Hn) & _).
  induction m as [|m IH]; intros s fuel temp pool G gen Ht HP Hgen Hroom Hs Hend Hfuel Hrows.
  { cbn [seqZ Z.of_nat]. rewrite Z.add_0_r. destruct fuel; cbn [symbol_loop]; rewrite Z.eqb_refl; by eexists. }
  rewrite seqZ_cons by lia. replace (Z.pred (Z.of_nat (S m))) with (Z.of_nat m) by lia. cbn [spec_symbols]. destruct fuel as [|fuel]; [lia|]. cbn [symbol_loop].
  rewrite (proj2 (Z.eqb_neq s _)) by lia. destruct (point_of_spec (c_slot context) s Hslot Hnof ltac:(lia)) as [HPt Hwp]. rewrite HPt. cbn [mbind result_bind].
  set (p := point_of (c_slot context) s) in *. set (g := G (place p) 2%nat).
  destruct (scoped_lend Q mtu pool G (data_context p) HP) as (pool1 & HC & HL).
  { split; [split; [done|exact Hwp]|]. cbn [data_context pc_symbol_point pc_type]. specialize (Hroom (place p) 2%nat). change (kind _) with 2%nat. nia. }
  cbn [data_context pc_symbol_point pc_type type FramePool.direction] in HC, HL. change (kind (mk_type user_plane downlink)) with 2%nat in HC, HL. fold g in HC, HL. rewrite HC. cbn [mbind result_bind].
  destruct (ring_reserve g).2 as [w|] eqn:Hres; cbn [option_map scoped_frame_buffer.empty scoped_frame_buffer.frames].
  2: { assert (HSN : ∀ fr, ring_send g p fr = Ok None) by (intros fr; unfold ring_send; destruct (ring_reserve g) as [g1 o]; cbn in Hres; by subst o). rewrite HSN. cbn [mbind result_bind]. by eexists. }
  destruct (read_symbol_spec grid (c_port context) s temp Hwg) as (temp' & HRd & Ht'); [split; [done|lia]|lia|done|done|]. rewrite HRd. cbn [mbind result_bind].
  pose proof (send_symbol_spec context (symbol_samples grid (c_port context) s) s G pool1 gen w HK (Hrows s ltac:(lia)) Hgen He Hres HL) as HSend. cbn zeta in HSend. fold p g in HSend.
  assert (HX : ∀ rest : eth_frame_pool.t → list Z → result (eth_frame_pool.t * list Z),
    (calculator ← fragment_size_calculator.create 0 n c;
     '(frame_pool, up_seq_gen) ← fragment_loop cfg (S (Z.to_nat n)) (c_slot context) s (c_eaxc context) (symbol_samples grid (c_port context) s) (scope Q (data_context p) w) calculator pool1 gen;
     frame_pool ← scoped_frame_buffer.destroy frame_pool (scope Q (data_context p) w); rest frame_pool up_seq_gen) =
    ('(pool, gen) ← send_symbol context (symbol_samples grid (c_port context) s) s (scope Q (data_context p) w) pool1 gen; rest pool gen)).
  { intros rest. unfold send_symbol. destruct (fragment_size_calculator.create 0 n c) as [calc|]; [|done]. cbn [mbind result_bind].
    destruct (fragment_loop _ _ _ _ _ _ _ _ _ _) as [[fp ug]|]; [|done]. cbn [mbind result_bind]. by destruct (scoped_frame_buffer.destroy _ _). }
  fold (data_context p). fold (scope Q (data_context p) w). rewrite HX.
  destruct (ring_send g p _) as [[g'|]|f] eqn:HS; cbn [mbind result_bind]; [|done|by rewrite HSend].
  destruct HSend as (pool2 & -> & HP2). cbn [mbind result_bind]. rewrite (wrap_small 32) by lia_fits.
  specialize (IH (s + 1) fuel temp' pool2 (upd (place p) 2 g' G) (sequence_identifier_generator.advance gen (c_eaxc context) F)).
  replace (s + 1 + Z.of_nat m) with (s + Z.of_nat (S m)) in IH by lia. change (Z.succ s) with (s + 1). apply IH; [done|done|by apply sequence_identifier_generator.advance_wf| |lia|lia|lia|intros; apply Hrows; lia].
  apply (room_send G (place p) 2 p _ g' (Z.of_nat m)) in HS; [done|]. intros i' k'. specialize (Hroom i' k'). replace (Z.of_nat m + 1) with (Z.of_nat (S m)) by lia. done.
Qed.

(** The whole message burst.  The loop runs from the start of the range to its length. *)
Lemma enqueue_spec context grid temp pool G gen : frames_ok → context_fits context grid → zlen temp = temp_size →
  pool_implements Q mtu pool G → sequence_identifier_generator.wf gen →
  let r := c_symbol_range context in
  0 <= range_start r <= range_length r → range_length r <= nof_symbols_per_slot cfg → room G (range_length r - range_start r) →
  (∀ s, range_start r <= s < range_length r → row_ok (symbol_samples grid (c_port context) s)) →
  match spec_symbols (c_slot context) (c_eaxc context) (symbol_samples grid (c_port context)) (seqZ (range_start r) (range_length r - range_start r)) G gen with
  | Ok (G', gen') => ∃ pool', enqueue_section_type_1_message cfg context grid temp pool gen = Ok (pool', gen') ∧ pool_implements Q mtu pool' G'
  | Fault f => enqueue_section_type_1_message cfg context grid temp pool gen = Fault f
  end.
Proof.
  intros HK HC Hzt HP Hgen r Hr Hlen Hroom Hrows. pose proof HC as (Hwg & _ & Hnof & _ & _ & _ & Hsub). pose proof HK as ((_ & _ & _ & Hn) & _).
  unfold enqueue_section_type_1_message, NOF_SUBCARRIERS_PER_RB. destruct (dimensions_wf grid Hwg) as (HD1 & _ & _). rewrite HD1. fold r.
  assert (0 <= resource_grid.nof_subc grid) by (destruct Hwg as (_ & _ & ? & _); lia).
  assert (HT : ∃ temp', (if negb (n * 12 =? resource_grid.nof_subc grid) then assume (resource_grid.nof_subc grid <=? zlen temp) OutOfBounds;;
      Ok (take (Z.to_nat (resource_grid.nof_subc grid)) temp ++ replicate (length temp - Z.to_nat (resource_grid.nof_subc grid)) resource_grid.zero) else Ok temp) = Ok temp' ∧ temp_ok grid temp').
  { unfold temp_ok, temp_size, MAX_NOF_PRBS, NOF_SUBCARRIERS_PER_RB in *. destruct (Z.eqb_spec (n * 12) (resource_grid.nof_subc grid)) as [Heq|Hne]; cbn [negb].
    - exists temp. split; [done|]. split; [done|lia].
    - pass_assume. eexists. split; [done|]. unfold zlen in *. rewrite length_app, length_take, length_replicate. split; [lia|]. intros _.
      rewrite drop_app_length' by (rewrite length_take; lia). f_equal. lia. }
  destruct HT as (temp' & -> & Ht'). cbn [mbind result_bind].
  pose proof (symbol_loop_spec context grid HK HC (Z.to_nat (range_length r - range_start r)) (range_start r) (S (Z.to_nat (nof_symbols_per_slot cfg))) temp' pool G gen Ht' HP Hgen) as HS.
  rewrite Z2Nat.id in HS by lia. replace (range_start r + (range_length r - range_start r)) with (range_length r) in HS by lia. apply HS; [done|lia|lia|lia|intros; apply Hrows; lia].
Qed.

(** ** What a receiver makes of the frames *)

(** The frame after its Ethernet header. *)
Definition packet (frame : list Z) : list Z := drop (length (frame_builder.octets (eth_builder cfg))) frame.
End frames.

(** A packet with octets after it, as in a frame filled up to the minimum length. *)
Lemma padded_packet_decoded ty id seq message pad params : u16 id → u16 seq → zlen message + 4 < 2 ^ 16 → zlen message + zlen pad < 2 ^ 31 →
  ecpri.decode ecpri.use_header_payload_size (ecpri.header_octets ty (zlen message + 4) id seq ++ message ++ pad) params =
    Ok (message, ecpri.mk_packet (ecpri.mk_header 1 true (ecpri.message_type_value ty) (zlen message + 4)) (ecpri.parameters_of (ecpri.message_type_value ty) id seq)).
Proof.
  intros Hi Hs Hm Hp. pose proof (zlen_nonneg message). pose proof (zlen_nonneg pad). unfold ecpri.decode, ecpri.header_octets. rewrite !be_bytes_2. rewrite (wrap_small 16) by lia_fits. cbn [app].
  rewrite ecpri.ecpri_header_spec by (lia_fits || (rewrite !zlen_cons, zlen_app; lia)). cbn [mbind result_bind].
  rewrite (proj2 (ecpri.valid_header_iff _ _ _ _)) by (split; reflexivity). cbn iota.
  assert (HH : ecpri.header_of 16 (ecpri.message_type_value ty) ((zlen message + 4) / 256 mod 256) ((zlen message + 4) mod 256) = ecpri.mk_header 1 true (ecpri.message_type_value ty) (zlen message + 4)).
  { unfold ecpri.header_of. change (2 ^ 16) with 65536 in Hm. f_equal. rewrite (Z.mod_small (_ / 256)) by lia. lia. }
  rewrite HH. rewrite ecpri.decode_payload_spec by (cbn [ecpri.header ecpri.payload_size]; first [rewrite !zlen_cons, zlen_app; lia|lia_fits]). cbn [ecpri.header].
  assert (HT : ecpri.supported_type (ecpri.message_type_value ty) = true) by by destruct ty.
  unfold ecpri.too_large, ecpri.payload_of. cbn [ecpri.payload_size ecpri.msg_type]. rewrite HT. rewrite !zlen_cons, zlen_app. rewrite !(proj2 (Z.ltb_ge _ _)) by lia. cbn [orb negb mbind result_bind].
  unfold_fits. replace (256 * ((id / 256) mod 256) + id mod 256) with id by lia. replace (256 * ((seq / 256) mod 256) + seq mod 256) with seq by lia.
  do 2 f_equal. rewrite take_app_length'; [done|]. unfold zlen. lia.
Qed.

(** Quantizing a part of the samples. *)
Lemma float_samples_take m iq : float_samples (take m iq) = take (2 * m) (float_samples iq).
Proof.
  revert m. induction iq as [|x iq IH]; intros m; [by destruct m|]. destruct m as [|m]; [done|]. cbn [take]. unfold float_samples. rewrite !bind_cons. fold (float_samples (take m iq)) (float_samples iq).
  rewrite IH. replace (2 * S m)%nat with (S (S (2 * m))) by lia. done.
Qed.

Lemma float_samples_drop m iq : float_samples (drop m iq) = drop (2 * m) (float_samples iq).
Proof.
  revert m. induction iq as [|x iq IH]; intros m; [by destruct m|]. destruct m as [|m]; [done|]. cbn [drop]. rewrite IH. unfold float_samples at 2. rewrite bind_cons. fold (float_samples iq).
  replace (2 * S m)%nat with (S (S (2 * m))) by lia. done.
Qed.

Lemma quantized_fragment q iq scaling qs n f : 0 <= f.1 → 0 <= f.2 → f.1 + f.2 <= n → quantizer.to_fixed_point q (n * 24) (float_samples iq) scaling = Ok qs →
  quantizer.to_fixed_point q (f.2 * 24) (float_samples (fragment_samples iq f)) scaling = Ok (take (Z.to_nat (f.2 * 24)) (drop (Z.to_nat (f.1 * 24)) qs)).
Proof.
  intros H1 H2 H3. unfold quantizer.to_fixed_point. intros (Hx & Hq & _ & HF)%convert_inv. unfold convert, fragment_samples. rewrite float_samples_take, float_samples_drop.
  replace (2 * Z.to_nat (f.2 * 12))%nat with (Z.to_nat (f.2 * 24)) by lia. replace (2 * Z.to_nat (f.1 * 12))%nat with (Z.to_nat (f.1 * 24)) by lia.
  assert (HZ : zlen (take (Z.to_nat (f.2 * 24)) (drop (Z.to_nat (f.1 * 24)) (float_samples iq))) = f.2 * 24) by (unfold zlen in *; rewrite length_take, length_drop; lia).
  rewrite HZ, Z.eqb_refl. cbn [assume mbind result_bind]. apply mapM_Ok_Forall2. by apply Forall2_take, Forall2_drop.
Qed.

Lemma reference_fragment c q qs n f : 0 <= f.1 → 0 <= f.2 → f.1 + f.2 <= n → zlen qs = n * 24 →
  concat (map (reference_block c q (take (Z.to_nat (f.2 * 24)) (drop (Z.to_nat (f.1 * 24)) qs))) (seqZ 0 f.2)) = concat (map (reference_block c q qs) (seqZ f.1 f.2)).
Proof.
  intros H1 H2 H3 Hq. f_equal. replace (seqZ f.1 f.2) with (Z.add f.1 <$> seqZ 0 f.2) by (by rewrite fmap_add_seqZ, Z.add_0_r). rewrite map_map. apply map_ext_in. intros i Hi%list_elem_of_In%elem_of_seqZ.
  unfold reference_block. assert (HB : nth_block 24 (take (Z.to_nat (f.2 * 24)) (drop (Z.to_nat (f.1 * 24)) qs)) i = nth_block 24 qs (f.1 + i)); [|by rewrite HB].
  unfold nth_block.
  rewrite take_drop_commute, take_take, Nat.min_l by lia. rewrite <- take_drop_commute, drop_drop. f_equal. f_equal. lia.
Qed.

(** The fragments number the blocks once each, in order. *)
Lemma fragments_seq k n : 0 < k → 0 < n → concat (map (λ f, seqZ f.1 f.2) (fragment_size_calculator.fragments k n)) = seqZ 0 n.
Proof.
  intros Hk Hn. transitivity (concat (map (λ f, take (Z.to_nat (f.2 * 1)) (drop (Z.to_nat (f.1 * 1)) (seqZ 0 n))) (fragment_size_calculator.fragments k n)));
    [|apply fragment_size_calculator.fragments_cover; [done|done|lia|unfold zlen; rewrite length_seqZ; lia]].
  f_equal. apply map_ext_in. intros f Hf%list_elem_of_In. unfold fragment_size_calculator.fragments in Hf. apply list_elem_of_fmap in Hf as (j & -> & Hj%elem_of_seqZ).
  unfold fragment_size_calculator.fragment. cbn [fst snd]. rewrite !Z.mul_1_r. unfold fragment_size_calculator.nof_fragments in Hj.
  pose proof (Z.div_mod (n + k - 1) k ltac:(lia)). pose proof (Z.mod_pos_bound (n + k - 1) k Hk). assert (j * k < n) by nia. set (m := Z.min k (n - j * k)).
  replace n with (j * k + (m + (n - j * k - m))) at 1 by lia. rewrite (seqZ_app 0) by lia. rewrite drop_app_length' by (rewrite length_seqZ; lia).
  rewrite (seqZ_app _ m) by lia. by rewrite take_app_length' by (rewrite length_seqZ; lia).
Qed.

Lemma concat_map_concat {A B} (g : A → list B) (h : Z * Z → list A) l :
  concat (map (λ f, concat (map g (h f))) l) = concat (map g (concat (map h l))).
Proof. induction l as [|f l IH]; [done|]. cbn [map concat]. by rewrite map_app, concat_app, IH. Qed.

(** ** With the compressors of the transmitter *)
Section transmitter.
Import uplane uplane_downlink_flow.
Context (cfg : config) (Q : nat) (mtu : Z) (iq_scaling : spec_float) (sc sd : list implementation) (q : quantizer.t).

Abbreviation n := (ru_nof_prbs cfg).
Abbreviation c := (compr_params cfg).
Abbreviation k := (blocks_per_frame cfg mtu).
Abbreviation F := (frames_per_symbol cfg mtu).
Abbreviation frames := (symbol_frames (compressor := selector_compressor sc) cfg mtu).

(** A method the compressors implement, a width of 8 to 16 bits, and frames that hold a
    block and suffice for a symbol. *)
Definition flow_ok : Prop :=
  create_compressors iq_scaling = Ok sc ∧ supported (compr_type c) = true ∧ 8 <= data_width c <= 16 ∧
  quantizer.create (quantizer_width c) = Ok q ∧ frames_ok cfg Q mtu.

(** The samples [iq] of a symbol are quantized without overflow. *)
Definition quantized (iq : list cbf16_t) (qs : list Z) : Prop := quantizer.to_fixed_point q (n * 24) (float_samples iq) iq_scaling = Ok qs.

Lemma decompressors_exist : ∃ sd, create_decompressors = Ok sd.
Proof. eexists. vm_compute. reflexivity. Qed.

Lemma fragment_roundtrip iq qs j sd' : flow_ok → create_decompressors = Ok sd' → zlen iq = n * 12 → quantized iq qs → 0 <= j < F →
  let f := fragment_at cfg mtu j in
  compressible (compressor := selector_compressor sc) cfg (fragment_samples iq f) ∧ bytes_ok (payload (compressor := selector_compressor sc) cfg (fragment_samples iq f)) ∧
  iq_decompress (IqDecompressor := selector_decompressor sd') (f.2 * 12) (payload (compressor := selector_compressor sc) cfg (fragment_samples iq f)) c =
    Ok (concat (map (reference_block c q qs) (seqZ f.1 f.2))).
Proof.
  intros (HC & Hsup & Hw & Hq & HK) HD Hz HQ Hj f. destruct (fragment_range cfg Q mtu j HK Hj) as (Hjk & H2 & H275 & H1 & H12). fold f in H2, H275, H1, H12.
  destruct (frames_range cfg Q mtu HK) as (Hs & Hk & _). pose proof (zlen_fragment_samples cfg Q mtu iq j HK Hz Hj) as Hzf. fold f in Hzf.
  pose proof (convert_inv _ _ _ _ HQ) as (_ & Hzq & _).
  destruct (selector_roundtrip sc sd' iq_scaling c (fragment_samples iq f) q (take (Z.to_nat (f.2 * 24)) (drop (Z.to_nat (f.1 * 24)) qs)) f.2)
    as (p & Hb & Hzp & HCp & HDp); [done|done|done|done|lia|done|done|apply (quantized_fragment q iq iq_scaling qs n); (done || lia)|].
  assert (Hdiv : zlen (fragment_samples iq f) / 12 = f.2) by (rewrite Hzf; apply Z.div_mul; lia).
  assert (HP : payload (compressor := selector_compressor sc) cfg (fragment_samples iq f) = p).
  { unfold payload. rewrite Hdiv. cbn [iq_compress selector_compressor]. rewrite HCp; [done|]. unfold zlen. rewrite length_replicate. lia. }
  rewrite HP. split; [|split; [done|]].
  - intros view Hv. rewrite Hdiv in *. rewrite HP. split; [by apply HCp|done].
  - cbn [iq_decompress selector_decompressor]. rewrite HDp by (unfold zlen; rewrite length_replicate; lia). f_equal. apply (reference_fragment c q qs n); (done || lia).
Qed.

Lemma quantized_row_ok iq qs : flow_ok → zlen iq = n * 12 → quantized iq qs → row_ok (compressor := selector_compressor sc) cfg mtu iq.
Proof. intros HF Hz HQ. destruct decompressors_exist as [sd' HD]. split; [done|]. intros j Hj. by apply (fragment_roundtrip iq qs j sd'). Qed.

(** The slot a receiver can tell from a message: the frame number modulo 256. *)
Definition same_slot (scs_ : subcarrier_spacing) (slot s : slot_point.t) : Prop :=
  slot_point.wf s ∧ slot_point.numerology s = to_numerology_value scs_ ∧ slot_point.sfn s = slot_point.sfn slot mod 256 ∧
  slot_point.subframe_index s = slot_point.subframe_index slot ∧ slot_point.subframe_slot_index s = slot_point.subframe_slot_index slot.

(** A radio unit of the same configuration. *)
Definition receiver_ok (self : decoder) (slot : slot_point.t) (symbol_id : Z) : Prop :=
  decoder_ok self ∧ slot_point.wf slot ∧ slot_point.numerology slot = to_numerology_value (scs self) ∧ 0 <= symbol_id < nof_symbols self ∧ nof_symbols self <= 64 ∧
  uplane.ru_nof_prbs self = n ∧ static_params self = match mode cfg with cplane.static_compression => Some c | cplane.dynamic_compression => None end.

Lemma fragment_decoded self slot symbol_id iq qs j r : flow_ok → create_decompressors = Ok sd → zlen iq = n * 12 → quantized iq qs → 0 <= j < F →
  receiver_ok self slot symbol_id → k <= 255 ∨ n <= k →
  let f := fragment_at cfg mtu j in
  ∃ s, decode (decompressor := selector_decompressor sd) self (mk_results r [])
         (16 :: message_tail (mode cfg) ud_comp_length_support (fragment_params cfg slot symbol_id f) (payload (compressor := selector_compressor sc) cfg (fragment_samples iq f))) =
       Ok (true, mk_results (mk_decoded uplink s standard_channel_filter symbol_id) [expected_section (fragment_params cfg slot symbol_id f) (concat (map (reference_block c q qs) (seqZ f.1 f.2)))]) ∧
    same_slot (scs self) slot s.
Proof.
  intros HF HD Hz HQ Hj (Hok & Hslot & Hnum & Hsym & H64 & Hru & Hst) Hwide f. pose proof HF as (HC & Hsup & Hw & Hq & HK). pose proof HK as ((_ & _ & Hsel & Hn) & _ & Hres & _).
  destruct (fragment_range cfg Q mtu j HK Hj) as (Hjk & H2 & H275 & H1 & H12). fold f in H2, H275, H1, H12. destruct (frames_range cfg Q mtu HK) as (Hs & Hk & _ & _ & HFr).
  destruct (fragment_roundtrip iq qs j sd HF HD Hz HQ Hj) as (Hcomp & Hb & Hdec). cbn zeta in Hcomp, Hb, Hdec. fold f in Hcomp, Hb, Hdec.
  pose proof (zlen_fragment_samples cfg Q mtu iq j HK Hz Hj) as Hzf. fold f in Hzf. assert (Hdiv : zlen (fragment_samples iq f) / 12 = f.2) by (rewrite Hzf; apply Z.div_mul; lia).
  unfold compressible in Hcomp. rewrite Hdiv in Hcomp. set (p := payload (compressor := selector_compressor sc) cfg (fragment_samples iq f)) in *.
  assert (Hzp : zlen p = f.2 * get_compressed_prb_size c) by (apply (Hcomp (replicate (Z.to_nat (f.2 * get_compressed_prb_size c)) 0)); unfold zlen; rewrite length_replicate; nia).
  set (m := get_header_size (mode cfg) c + zlen p). assert (Hm0 : 0 <= m) by (unfold m, get_header_size; destruct (mode cfg), (is_selective _); lia).
  assert (Hmo : message_ok (mode cfg) ud_comp_length_support self (fragment_params cfg slot symbol_id f)).
  { unfold message_ok, fragment_params. cbn. repeat (split; [first [done|lia]|]). split.
    - intros Hbig. assert (n <= k) as Hnk by lia. assert (j = 0) as -> by nia. unfold f, fragment_at, fragment_size_calculator.fragment in *. cbn [fst snd] in *. lia.
    - split; [lia|]. split; [done|]. split; [by rewrite Hsel|done]. }
  destruct (uplane_roundtrip (compressor := selector_compressor sc) (decompressor := selector_decompressor sd) (mode cfg) ud_comp_length_support self
    (fragment_params cfg slot symbol_id f) (fragment_samples iq f) (replicate (Z.to_nat m) 0) p (concat (map (reference_block c q qs) (seqZ f.1 f.2))) r) as (tail & HB & _ & s & HDec & HS); try done.
  - intros view Hv. by apply Hcomp.
  - cbn. fold m. unfold zlen. rewrite length_replicate. lia.
  - rewrite (build_message_spec (mode cfg) ud_comp_length_support _ _ _ p) in HB; cbn [fragment_params generate_dl_ofh_user_parameters sect_type nof_prb compression_params] in *;
      [|done|done|lia|lia|by rewrite Hsel|intros view Hv; by apply Hcomp|done|fold m; unfold zlen; rewrite length_replicate; lia].
    fold (fragment_params cfg slot symbol_id f) in HB. generalize dependent (message_tail (mode cfg) ud_comp_length_support (fragment_params cfg slot symbol_id f) p). intros mt HB.
    injection HB as HB. apply app_inv_tail in HB. rewrite HB. exists s. split; [exact HDec|exact HS].
Qed.

(** The frame as the network card hands it over, and the addresses in it. *)
Definition untagged (frame : list Z) : list Z :=
  match eth_builder cfg with frame_builder.frame_builder_impl _ => frame | frame_builder.vlan_frame_builder_impl _ => ethernet.strip_tag frame end.
Definition addresses : ethernet.vlan_frame_params :=
  match eth_builder cfg with frame_builder.frame_builder_impl p | frame_builder.vlan_frame_builder_impl p => p end.

Lemma untagged_decoded pk e : frame_builder.wf (eth_builder cfg) → 50 <= zlen pk < 2 ^ 32 - 14 →
  ethernet.decode (untagged (frame_builder.octets (eth_builder cfg) ++ pk)) e =
    Ok (pk, ethernet.mk_params (ethernet.mac_dst_address addresses) (ethernet.mac_src_address addresses) (ethernet.tci e) (ethernet.eth_type addresses)).
Proof.
  unfold untagged, addresses. destruct (eth_builder cfg) as [p|p]; cbn [frame_builder.wf frame_builder.octets]; unfold ethernet.header_octets.
  - intros (Hd & Hs & Ht) Hp. cbn [app]. rewrite <- !app_assoc. by apply ethernet.decode_built.
  - intros [(Hd & Hs & Ht) _] Hp. assert (HX : ethernet.strip_tag ((ethernet.mac_dst_address p ++ ethernet.mac_src_address p ++ (be_bytes 2 ethernet.VLAN_TPID ++ be_bytes 2 (default 0 (ethernet.tci p))) ++ be_bytes 2 (ethernet.eth_type p)) ++ pk) =
      ethernet.mac_dst_address p ++ ethernet.mac_src_address p ++ be_bytes 2 (ethernet.eth_type p) ++ pk); [|rewrite HX; by apply ethernet.decode_built].
    unfold ethernet.strip_tag. rewrite <- !app_assoc. rewrite (app_assoc (ethernet.mac_dst_address p) (ethernet.mac_src_address p)). rewrite take_app_length' by (rewrite length_app; unfold zlen in *; lia).
    rewrite <- (app_assoc (ethernet.mac_dst_address p) (ethernet.mac_src_address p)). f_equal. f_equal. rewrite !app_assoc. rewrite <- (app_assoc _ (be_bytes 2 (ethernet.eth_type p)) pk).
    apply drop_app_length'. rewrite !length_app, !be_bytes_2. unfold zlen in *. cbn [length]. lia.
Qed.

(** C27: the frames of a downlink symbol carry the symbol.  They are as many as the fragments of
    the blocks, none is longer than the frames of the pool, and the [j]-th one decodes, layer
    by layer, to an eCPRI packet for the eAxC with the [j]-th next sequence identifier and to a
    User-Plane message (here with the direction bit of an uplink one, which is what the decoder
    of the repository takes) of the slot and symbol with one section: the blocks of the [j]-th
    fragment with the quantized samples.  Together they are all blocks of the symbol, each once
    and in order.  Fragments of more than 255 blocks must be the whole symbol. *)
Theorem downlink_frames_decode self slot symbol_id eaxc seq iq qs r params e :
  flow_ok → create_decompressors = Ok sd → zlen iq = n * 12 → quantized iq qs → receiver_ok self slot symbol_id → k <= 255 ∨ n <= k → 0 <= eaxc < 32 → u8 seq →
  zlen (frames slot symbol_id eaxc seq iq) = F ∧
  (∀ j frame, frames slot symbol_id eaxc seq iq !! j = Some frame →
     let f := fragment_at cfg mtu (Z.of_nat j) in
     zlen frame <= mtu ∧
     (50 <= zlen (packet cfg frame) →
        ethernet.decode (untagged frame) e = Ok (packet cfg frame, ethernet.mk_params (ethernet.mac_dst_address addresses) (ethernet.mac_src_address addresses) (ethernet.tci e) (ethernet.eth_type addresses))) ∧
     ∃ tail s, ecpri.decode ecpri.use_header_payload_size (packet cfg frame) params =
         Ok (144 :: tail, ecpri.mk_packet (ecpri.mk_header 1 true 0 (zlen tail + 5)) (ecpri.iq_parameters (ecpri.mk_iq eaxc (256 * wrap 8 (seq + Z.of_nat j) + 128)))) ∧
       decode (decompressor := selector_decompressor sd) self (mk_results r []) (16 :: tail) =
         Ok (true, mk_results (mk_decoded uplink s standard_channel_filter symbol_id)
                     [expected_section (fragment_params cfg slot symbol_id f) (concat (map (reference_block c q qs) (seqZ f.1 f.2)))]) ∧
       same_slot (scs self) slot s) ∧
  concat (map (λ j, let f := fragment_at cfg mtu j in concat (map (reference_block c q qs) (seqZ f.1 f.2))) (seqZ 0 F)) = concat (map (reference_block c q qs) (seqZ 0 n)).
Proof.
  intros HF HD Hz HQ HR Hwide He Hseq. pose proof HF as (HC & Hsup & Hw & Hq & HK). destruct (frames_range cfg Q mtu HK) as (Hs & Hk & Hfit & Hh & HFr). pose proof HK as (Hcfg & _ & _ & Hm & _).
  pose proof Hcfg as (Heth & _ & _ & Hn). destruct (frame_builder.zlen_octets _ Heth) as [Ho Hor]. unfold MIN_ETH_FRAME_LENGTH, MAX_ETH_FRAME_LENGTH in Hm.
  split; [unfold symbol_frames, zlen; rewrite length_map, length_seqZ; lia|]. split.
  - intros j frame Hj f. unfold symbol_frames in Hj. change (map ?g ?l) with (g <$> l) in Hj. rewrite list_lookup_fmap in Hj. apply fmap_Some in Hj as (j' & Hj & ->). apply lookup_seqZ in Hj as [-> Hlt].
    rewrite Z.add_0_l. assert (HjF : 0 <= Z.of_nat j < F) by lia. destruct (fragment_range cfg Q mtu _ HK HjF) as (_ & H2 & H275 & _ & _). fold f in H2, H275.
    destruct (fragment_roundtrip iq qs _ sd HF HD Hz HQ HjF) as (Hcomp & _ & _). cbn zeta in Hcomp. fold f in Hcomp. pose proof (zlen_fragment_samples cfg Q mtu iq _ HK Hz HjF) as Hzf. fold f in Hzf.
    pose proof (zlen_fragment_message (compressor := selector_compressor sc) cfg slot symbol_id iq f Hcfg Hcomp Hzf) as Hzm. destruct (header_size_range cfg Hcfg) as [Hgh Hhs].
    set (message := fragment_message (compressor := selector_compressor sc) cfg slot symbol_id iq f) in *.
    assert (Hsmall : 0 <= zlen message <= mtu - (frame_builder.get_header_size (eth_builder cfg) + 8)) by nia. set (x := wrap 8 (seq + Z.of_nat j)). assert (Hx : u8 x) by (apply wrap_fits; lia).
    set (frame := fragment_frame (compressor := selector_compressor sc) cfg slot symbol_id eaxc x iq f). set (pad := replicate (Z.to_nat (MIN_ETH_FRAME_LENGTH - zlen frame)) 0).
    assert (Hzframe : zlen frame = frame_builder.get_header_size (eth_builder cfg) + 8 + zlen message).
    { unfold frame, fragment_frame. fold message. rewrite !zlen_app, Ho. unfold zlen at 1. rewrite ecpri.length_header_octets. lia. }
    assert (Hnf : numbered_frame (compressor := selector_compressor sc) cfg mtu slot symbol_id eaxc seq iq (Z.of_nat j) =
      frame_builder.octets (eth_builder cfg) ++ ecpri.header_octets ecpri.iq_data (zlen message + 4) (wrap 16 eaxc) (256 * x + 128) ++ message ++ pad).
    { unfold numbered_frame, padded. fold f x frame pad. unfold frame, fragment_frame. fold message. by rewrite <- !app_assoc. }
    rewrite Hnf. assert (Hzpad : zlen pad = Z.max 0 (64 - zlen frame)) by (unfold pad, zlen, MIN_ETH_FRAME_LENGTH; rewrite length_replicate; lia).
    unfold packet. rewrite drop_app_length. split; [rewrite !zlen_app, Ho; unfold zlen at 1; rewrite ecpri.length_header_octets; lia|]. split.
    + intros H50. apply untagged_decoded; [done|]. split; [done|]. rewrite !zlen_app. unfold zlen at 1. rewrite ecpri.length_header_octets. lia.
    + destruct (fragment_decoded self slot symbol_id iq qs (Z.of_nat j) r HF HD Hz HQ HjF HR Hwide) as (s & HDec & HSlot). fold f in HDec.
      eexists _, s. split; [|split; [exact HDec|done]]. rewrite padded_packet_decoded by (lia || lia_fits || (apply wrap_fits; lia)). rewrite (wrap_small 16) by lia_fits. cbn [ecpri.parameters_of ecpri.message_type_value].
      unfold message, fragment_message. rewrite zlen_cons. do 4 f_equal. lia.
  - rewrite <- (fragments_seq k n) by lia. rewrite <- concat_map_concat. f_equal. unfold fragment_size_calculator.fragments. by rewrite map_map.
Qed.

(** C26: the downlink User-Plane flow refines queueing on the rings of the pool: for any state
    of the pool, any grid whose samples are quantized without overflow and any range of
    symbols that starts at 0 (or, as the code has it, from its start up to its length), it ends,
    and queues for every symbol the frames of that symbol, numbered on from the counter of the
    eAxC, until it meets a symbol for which the pool has no window left; where the queue of a
    symbol is full it fails the assertion that is to be expected. *)
Theorem downlink_flow_refines context grid temp pool G gen :
  flow_ok → context_fits cfg context grid → zlen temp = temp_size → pool_implements Q mtu pool G → sequence_identifier_generator.wf gen →
  let r := c_symbol_range context in
  0 <= range_start r <= range_length r → range_length r <= nof_symbols_per_slot cfg → room Q G (range_length r - range_start r) →
  (∀ s, range_start r <= s < range_length r → ∃ qs, quantized (symbol_samples cfg grid (c_port context) s) qs) →
  match spec_symbols (compressor := selector_compressor sc) cfg mtu (c_slot context) (c_eaxc context) (symbol_samples cfg grid (c_port context))
          (seqZ (range_start r) (range_length r - range_start r)) G gen with
  | Ok (G', gen') => ∃ pool', enqueue_section_type_1_message (compressor := selector_compressor sc) cfg context grid temp pool gen = Ok (pool', gen') ∧ pool_implements Q mtu pool' G'
  | Fault f => enqueue_section_type_1_message (compressor := selector_compressor sc) cfg context grid temp pool gen = Fault f
  end.
Proof.
  intros HF HC Ht HP Hgen r Hr Hlen Hroom HQ. pose proof HF as (_ & _ & _ & _ & HK). apply (enqueue_spec (compressor := selector_compressor sc)); try done.
  intros s Hs. destruct (HQ s Hs) as [qs Hqs]. apply (quantized_row_ok _ qs); [done| |done].
  pose proof HC as (Hwg & _ & _ & Hsy & Hport & _ & Hsub). unfold symbol_samples. subst r.
  rewrite zlen_app, zlen_row by first [done|split; [done|lia]]. unfold zlen. rewrite length_replicate. lia.
Qed.

(** C28: how a symbol is cut.  With the number of frames the factory computes in single
    precision for the bandwidth, the loop over the fragments of a symbol ends after as many
    frames as that number, for every bandwidth of the standard, every width and every frame
    that can hold one block; with frames too small for one block it never ends, whatever the
    number of iterations. *)
Theorem fragmentation_terminates bw scs_ slot symbol_id eaxc iq G point w gen pool :
  config_ok cfg → 8 <= data_width c <= 16 → compr_type c ≠ block_scaling → compr_type c ≠ reserved → get_max_Nprb bw scs_ FR1 = Ok n →
  MIN_ETH_FRAME_LENGTH <= mtu <= MAX_ETH_FRAME_LENGTH → (0 < Q)%nat → sequence_identifier_generator.wf gen → 0 <= eaxc < 32 → lending Q mtu pool G (data_context point) w [] →
  let calc := fragment_size_calculator.mk 0 n (get_compressed_prb_size c) 0 in
  let loop fuel := fragment_loop (compressor := selector_compressor sc) cfg fuel slot symbol_id eaxc iq (scope Q (data_context point) w) calc pool gen in
  (headers_size cfg + get_compressed_prb_size c <= mtu → row_ok (compressor := selector_compressor sc) cfg mtu iq →
     fragment_size_calculator.calculate_nof_segments mtu n c (headers_size cfg) = Ok (Z.of_nat Q) →
     ∃ pool', loop (S (Z.to_nat n)) = Ok (pool', sequence_identifier_generator.advance gen eaxc (Z.of_nat Q))) ∧
  (headers_size cfg <= mtu < headers_size cfg + get_compressed_prb_size c → ∀ fuel, loop fuel = Fault OutOfFuel).
Proof.
  intros Hcfg Hw Hb Hr Hbw Hm HQ Hgen He HL calc loop. pose proof Hcfg as (Heth & _ & _ & Hn). destruct (header_size_range cfg Hcfg) as [Hgh Hhs]. destruct (frame_builder.zlen_octets _ Heth) as [_ Hor].
  unfold MIN_ETH_FRAME_LENGTH, MAX_ETH_FRAME_LENGTH in Hm. split.
  - intros Hfit Hrow HS. pose proof (fr1_width bw scs_ n Hbw ltac:(lia)) as Hin.
    assert (Hsz : 3 * data_width c + match compr_type c with none | modulation => 0 | _ => 1 end = get_compressed_prb_size c).
    { pose proof (fragment_size_calculator.prb_data_size_compressed c ltac:(lia) Hb Hr) as H1. rewrite fragment_size_calculator.prb_data_size_spec in H1 by lia. by injection H1. }
    rewrite fragment_count.nof_segments_spec in HS by (try done; try lia; rewrite Hsz; lia). rewrite Hsz in HS. injection HS as HS. change (F = Z.of_nat Q) in HS.
    assert (HK : frames_ok cfg Q mtu) by (unfold frames_ok, MIN_ETH_FRAME_LENGTH, MAX_ETH_FRAME_LENGTH; repeat (split; [done|]); lia).
    destruct (frames_range cfg Q mtu HK) as (_ & _ & _ & _ & HFr).
    destruct (fragment_loop_spec (compressor := selector_compressor sc) cfg Q mtu slot symbol_id eaxc iq G point w gen HK Hrow Hgen He (Z.to_nat F) 0 (S (Z.to_nat n)) pool) as (pool' & HE & _);
      [lia|lia|lia|lia|exact HL|]. exists pool'. rewrite Z.mul_0_l, sequence_identifier_generator.advance_zero, HS in HE by done. exact HE.
  - intros Hsmall fuel. apply (fragment_loop_stuck cfg Q mtu slot symbol_id eaxc iq G point w gen); [done|unfold MIN_ETH_FRAME_LENGTH; lia|lia|lia|lia|done|done].
Qed.
End transmitter.

Module downlink_examples.
Import uplane uplane_downlink_flow compression_examples.

(** A radio unit of 11 blocks, a cell of 10, 9 bits of block floating point, frames of 200
    octets: 6 blocks per frame, two frames per symbol. *)
Definition cfg : config :=
  mk_config 14 11 (mk_compr BFP 9) cplane.static_compression
    (frame_builder.frame_builder_impl (ethernet.mk_params (replicate 6 1) (replicate 6 2) None 0xaefe)).
Definition grid : resource_grid.t :=
  resource_grid.mk 1 14 120 (tensor.mk [120; 14; 1] (replicate 1680 (mk_cbf16 0x3f00 0xbe80))) 0.
Definition context : resource_grid_context := mk_context (slot_point.mk 1 10275) 0 0 3 (mk_range 0 2).
Definition unit_decoder : decoder := mk_decoder kHz30 14 11 (Some (mk_compr BFP 9)).

Definition iq : list cbf16_t := symbol_samples cfg grid 0 0.
Definition qs : list Z := concat (replicate 120 [16384; -8192]) ++ replicate 24 0.
Definition counters : list Z := sequence_identifier_generator.create 0.
Definition temp : list cbf16_t := replicate 3300 (mk_cbf16 7 7).

Lemma grid_wf : wf grid.
Proof. repeat split; try (vm_compute; first [reflexivity|discriminate]). Qed.

Lemma cfg_ok : config_ok cfg.
Proof. repeat split; vm_compute; first [reflexivity|discriminate]. Qed.

Lemma example_flow_ok : flow_ok cfg 2 200 (f32_of_Z 1) example_compressors q16.
Proof. split; [vm_compute; reflexivity|]. split; [done|]. split; [cbn; lia|]. split; [vm_compute; reflexivity|]. split; [exact cfg_ok|]. repeat split; vm_compute; discriminate. Qed.

Lemma example_quantized : quantized cfg (f32_of_Z 1) q16 iq qs.
Proof. vm_compute. reflexivity. Qed.

Lemma downlink_frames_decode_witness :
  ∃ frame, symbol_frames (compressor := selector_compressor example_compressors) cfg 200 (slot_point.mk 1 10275) 4 3 255 iq !! 1%nat = Some frame ∧
    zlen frame = 170 ∧
  ∃ tail s, ecpri.decode ecpri.use_header_payload_size (packet cfg frame) (ecpri.mk_packet (ecpri.mk_header 0 false 0 0) (ecpri.iq_parameters (ecpri.mk_iq 0 0))) =
      Ok (144 :: tail, ecpri.mk_packet (ecpri.mk_header 1 true 0 (zlen tail + 5)) (ecpri.iq_parameters (ecpri.mk_iq 3 128))) ∧
    decode (decompressor := selector_decompressor example_compressors) unit_decoder (mk_results raw_samples.no_params []) (16 :: tail) =
      Ok (true, mk_results (mk_decoded uplink s standard_channel_filter 4)
                  [expected_section (fragment_params cfg (slot_point.mk 1 10275) 4 (6, 5)) (replicate 48 (mk_cbf16 0x3f00 0xbe80) ++ replicate 12 (mk_cbf16 0 0))]).
Proof.
  destruct (downlink_frames_decode cfg 2 200 (f32_of_Z 1) example_compressors example_compressors q16 unit_decoder (slot_point.mk 1 10275) 4 3 255 iq qs
    raw_samples.no_params (ecpri.mk_packet (ecpri.mk_header 0 false 0 0) (ecpri.iq_parameters (ecpri.mk_iq 0 0))) (ethernet.mk_params [] [] None 0)) as (_ & HJ & _).
  - exact example_flow_ok.
  - vm_compute. reflexivity.
  - vm_compute. reflexivity.
  - exact example_quantized.
  - split; [split; [reflexivity|cbn; split; [lia|done]]|]. split; [slot_point.solve_wf|]. repeat split; vm_compute; first [reflexivity|discriminate].
  - left. vm_compute. discriminate.
  - lia.
  - vm_compute. split; [discriminate|reflexivity].
  - eexists. split; [vm_compute; reflexivity|]. split; [vm_compute; reflexivity|].
    match goal with |- ∃ tail s, ecpri.decode _ (packet cfg ?fr) _ = _ ∧ _ => set (frame := fr) end.
    destruct (HJ 1%nat frame) as (_ & _ & tail & s & H1 & H2 & _); [vm_compute; reflexivity|]. exists tail, s. split; [exact H1|]. revert H2. 
    match goal with |- decode _ _ _ = Ok (true, mk_results _ [expected_section _ ?l]) → _ => replace l with (replicate 48 (mk_cbf16 0x3f00 0xbe80) ++ replicate 12 (mk_cbf16 0 0)) by (vm_compute; reflexivity) end.
    intros H2. exact H2.
Defined.

Lemma context_ok : context_fits cfg context grid.
Proof. split; [exact grid_wf|]. split; [slot_point.solve_wf|]. repeat split; vm_compute; first [reflexivity|discriminate]. Qed.

Lemma initial_room m : 0 <= m <= 1000 → room 2 initial_rings m.
Proof. intros Hm i k. cbn [initial_rings granted]. unfold quant. destruct (decide _); lia. Qed.

Lemma initial_pool : pool_implements 2 200 (eth_frame_pool.create 200 2) initial_rings.
Proof. apply (pool_create_implements 2 200); lia. Qed.

Lemma example_symbols : (∀ s, 0 <= s < 2 → symbol_samples cfg grid 0 s = iq).
Proof. intros s Hs. assert (s = 0 ∨ s = 1) as [-> | ->] by lia; vm_compute; reflexivity. Qed.

Lemma downlink_flow_refines_witness :
  ∃ G gen pool, spec_symbols (compressor := selector_compressor example_compressors) cfg 200 (slot_point.mk 1 10275) 3 (symbol_samples cfg grid 0) [0; 1] initial_rings counters = Ok (G, gen) ∧
    enqueue_section_type_1_message (compressor := selector_compressor example_compressors) cfg context grid temp (eth_frame_pool.create 200 2) counters = Ok (pool, gen) ∧
    pool_implements 2 200 pool G.
Proof.
  pose proof (downlink_flow_refines cfg 2 200 (f32_of_Z 1) example_compressors q16 context grid temp (eth_frame_pool.create 200 2) initial_rings counters) as HT.
  cbn zeta in HT. change (seqZ _ _) with [0; 1] in HT. change (c_slot context) with (slot_point.mk 1 10275) in HT. change (c_eaxc context) with 3 in HT. change (c_port context) with 0 in HT.
  destruct (spec_symbols cfg 200 (slot_point.mk 1 10275) 3 (symbol_samples cfg grid 0) [0; 1] initial_rings counters) as [[G gen]|f] eqn:HE.
  - destruct HT as (pool & HQ & HP); [exact example_flow_ok|exact context_ok|reflexivity|exact initial_pool|exact sequence_identifier_generator.counters_wf|vm_compute; split; discriminate|vm_compute; discriminate| | |].
    + apply initial_room. vm_compute. split; discriminate.
    + intros s Hs. exists qs. rewrite example_symbols by exact Hs. exact example_quantized.
    + exists G, gen, pool. split; [exact eq_refl|]. split; [exact HQ|exact HP].
  - exfalso. assert (HX : match spec_symbols (compressor := selector_compressor example_compressors) cfg 200 (slot_point.mk 1 10275) 3 (symbol_samples cfg grid 0) [0; 1] initial_rings counters with Ok _ => true | Fault _ => false end = true)
      by (vm_compute; reflexivity). rewrite HE in HX. discriminate.
Defined.

Lemma fragmentation_terminates_witness :
  ∃ pool w, lending 2 200 pool initial_rings (data_context (point_of cfg (slot_point.mk 1 10275) 4)) w [] ∧
  ∃ pool', fragment_loop (compressor := selector_compressor example_compressors) cfg 12 (slot_point.mk 1 10275) 4 3 iq
    (scope 2 (data_context (point_of cfg (slot_point.mk 1 10275) 4)) w) (fragment_size_calculator.mk 0 11 28 0) pool counters =
    Ok (pool', sequence_identifier_generator.advance counters 3 2).
Proof.
  destruct (scoped_lend 2 200 (eth_frame_pool.create 200 2) initial_rings (data_context (point_of cfg (slot_point.mk 1 10275) 4)) initial_pool) as (pool & _ & HL).
  { split; [split; [done|]|vm_compute; reflexivity]. repeat split; vm_compute; first [reflexivity|discriminate]. }
  change (ring_reserve (initial_rings _ _)).2 with (Some 0%nat) in HL. cbv iota in HL. exists pool, 0%nat. split; [exact HL|].
  destruct (fragmentation_terminates cfg 2 200 example_compressors 5 kHz30 (slot_point.mk 1 10275) 4 3 iq initial_rings (point_of cfg (slot_point.mk 1 10275) 4) 0 counters pool) as [HT _];
    [exact cfg_ok|cbn; lia|discriminate|discriminate|vm_compute; reflexivity|vm_compute; split; discriminate|lia|exact sequence_identifier_generator.counters_wf|lia|exact HL|].
  apply HT; [vm_compute; discriminate| |vm_compute; reflexivity].
  apply (quantized_row_ok cfg 2 200 (f32_of_Z 1) example_compressors q16 iq qs); [exact example_flow_ok|vm_compute; reflexivity|exact example_quantized].
Defined.

(** A fragment of more than 255 blocks that is not the whole symbol is announced as all of
    them: with 34 octets per block a frame of 9000 octets takes 263 of 273 blocks. *)
Example wide_fragment_announced_as_all :
  fragment_at (mk_config 14 273 (mk_compr BFP 11) cplane.static_compression (eth_builder cfg)) 9000 0 = (0, 263) ∧
  nth 7 (144 :: message_tail cplane.static_compression false (fragment_params (mk_config 14 273 (mk_compr BFP 11) cplane.static_compression (eth_builder cfg)) (slot_point.mk 1 10275) 4 (0, 263)) []) 1 = 0.
Proof. split; vm_compute; reflexivity. Qed.
End downlink_examples.
