(* ===== verification/RadioReceiver.v ===== *)
(** * RadioReceiver: from received frames and closing windows to the consumer

    Models lib/ofh/receiver/ofh_receiver_impl.cpp, ofh_message_receiver_task_dispatcher.h and
    the closed window handler's [on_new_symbol]: the message receiver hands messages to the two
    data flows, which share the repository of commands, and every symbol closes a window of
    both.  Frames and closed windows are tasks of one executor, which runs those it accepted one
    at a time; what the transmitter's handlers put into the shared repositories arrives as
    events of its own.

    The receiver refines the two flows' promises fed with the messages of the frames that pass
    ([receiver_refines]); only frames with the addresses of the radio unit can stop it; whatever
    frames arrive, every requested symbol and every PRACH occasion is told once. *)

From S2P Require Import Prelude Bf16 SlotPoint OfhBase OfhUplane OfhCompression Ecpri Ethernet ResourceGrid GridPool OfhReceiver UplinkContext UplinkFlow Prach PrachFlow.

Module radio_receiver.
Import uplane.

(** The configuration: that of the message receiver, the decoders of the two flows, and the end
    of the reception window. *)
Record config : Type := mk_config {
  messages : message_receiver.config; ul_decoder : decoder; prach_decoder : decoder; is_prach_cplane_enabled : bool; sym_end : Z }.

Inductive task : Type :=
| FrameTask (buffer : list Z)
| ClosedTask (symbol_point : slot_symbol_point.t).

Record state : Type := mk_state {
  seq_id_checker : sequence_id_checker.t; window_checker : rx_window_checker.t;
  ul_context_repo : uplink_context_repository.t; ul_cplane_context_repo : uplink_cplane_context_repository.t;
  prach_buffers : list prach_buffer.t; prach_repo : prach_context_repository.t;
  pending : list task; symbols_notified : list notification; prach_notified : list prach_context.info }.

(** The parts the two flows work on. *)
Definition data_view (st : state) : uplink_data_flow.state := uplink_data_flow.mk_state (ul_context_repo st) (ul_cplane_context_repo st) (symbols_notified st).
Definition prach_view (st : state) : prach_data_flow.state := prach_data_flow.mk_state (prach_buffers st) (prach_repo st) (ul_cplane_context_repo st) (prach_notified st).

Definition with_data (st : state) (u : uplink_data_flow.state) : state :=
  mk_state (seq_id_checker st) (window_checker st) (uplink_data_flow.ul_context_repo u) (uplink_data_flow.ul_cplane_context_repo u) (prach_buffers st) (prach_repo st)
    (pending st) (uplink_data_flow.notified u) (prach_notified st).
Definition with_prach (st : state) (p : prach_data_flow.state) : state :=
  mk_state (seq_id_checker st) (window_checker st) (ul_context_repo st) (prach_data_flow.ul_cplane_context_repo p) (prach_data_flow.buffers p) (prach_data_flow.prach_repo p)
    (pending st) (symbols_notified st) (prach_data_flow.notified p).
Definition with_checkers (st : state) (sc : sequence_id_checker.t) (wc : rx_window_checker.t) : state :=
  mk_state sc wc (ul_context_repo st) (ul_cplane_context_repo st) (prach_buffers st) (prach_repo st) (pending st) (symbols_notified st) (prach_notified st).
Definition with_pending (st : state) (ts : list task) : state :=
  mk_state (seq_id_checker st) (window_checker st) (ul_context_repo st) (ul_cplane_context_repo st) (prach_buffers st) (prach_repo st) ts (symbols_notified st) (prach_notified st).

(** [executor.execute] and [executor.defer]: the executor may refuse. *)
Definition execute (accept : bool) (t : task) (st : state) : state := if accept then with_pending st (pending st ++ [t]) else st.

Section receiver.
Context {decompressor : IqDecompressor} (cfg : config).

(** [ofh_message_receiver_task_dispatcher] *)
Definition on_new_frame (accept : bool) (buffer : list Z) (st : state) : state := execute accept (FrameTask buffer) st.

(** [closed_rx_window_handler]; the receiver does not delay the end of the window. *)
Definition close_window (accept : bool) (symbol_point : slot_symbol_point.t) (st : state) : result state :=
  internal_slot ← slot_symbol_point.sub symbol_point (swrap 32 (uplink_data_flow.notification_delay_in_symbols 0 (sym_end cfg)));
  Ok (execute accept (ClosedTask internal_slot) st).

(** [ota_symbol_boundary_dispatcher], with the handlers the constructor gives it. *)
Definition on_new_symbol (accept : bool) (symbol_point : slot_symbol_point.t) (st : state) : result state :=
  wc ← (if rx_window_checker.is_disabled (window_checker st) then Ok (window_checker st) else rx_window_checker.on_new_symbol (window_checker st) symbol_point);
  close_window accept symbol_point (with_checkers st (seq_id_checker st) wc).

(** The data flow a message goes to; [clears]: of the executor that clears grids. *)
Definition decode_type1_message (clears : bool) (st : state) (m : message_receiver.flow * Z * list Z) : result state :=
  let '(target, eaxc, ofh_pdu) := m in
  match target with
  | message_receiver.uplink_data =>
      u ← uplink_data_flow.decode_type1_message (ul_decoder cfg) (message_receiver.ul_eaxc (messages cfg)) clears (data_view st) eaxc ofh_pdu; Ok (with_data st u)
  | message_receiver.uplink_prach =>
      p ← prach_data_flow.decode_type1_message (prach_decoder cfg) (is_prach_cplane_enabled cfg) (message_receiver.ul_prach_eaxc (messages cfg)) (prach_view st) eaxc ofh_pdu;
      Ok (with_prach st p)
  end.

Definition process_new_frame (clears : bool) (buffer : list Z) (st : state) : result state :=
  m ← message_receiver.process_new_frame (messages cfg) (message_receiver.mk_state (seq_id_checker st) (window_checker st) []) buffer;
  fold_result (decode_type1_message clears) (with_checkers st (message_receiver.seq_id_checker m) (message_receiver.window_checker m)) (message_receiver.delivered m).

Definition run_task (clears : bool) (t : task) (st : state) : result state :=
  match t with
  | FrameTask buffer => process_new_frame clears buffer st
  | ClosedTask symbol_point =>
      u ← uplink_data_flow.handle_uplink_context (data_view st) symbol_point;
      let st := with_data st u in
      p ← prach_data_flow.handle_prach_context (prach_view st) symbol_point;
      Ok (with_prach st p)
  end.
End receiver.
End radio_receiver.

(** ** What the receiver promises *)

Inductive rx_event : Type :=
| Arrival (accept : bool) (buffer : list Z)
| NewSymbol (accept : bool) (symbol_point : slot_symbol_point.t)
| RunTask (n : nat) (clears : bool)
| SlotRequested (accept : bool) (context : resource_grid_context) (gid start stop : Z)
| OccasionRequested (ctx : prach_buffer_context) (buf : nat)
| CommandSent (slot : slot_point.t) (eaxc : Z) (cp : uplink_cplane_context_repository.ul_cplane_context).

(** The two promises, fed by what the message receiver lets through. *)
Record rx_spec : Type := mk_rx_spec {
  sp_seq : sequence_id_checker.t; sp_window : rx_window_checker.t; sp_data : promise; sp_prach : prach_promise; sp_pending : list radio_receiver.task }.

Section reception.
Import uplane radio_receiver.
Context {decompressor : IqDecompressor} (cfg : config) (ports symb subc size cp_size psize : Z) (dims : list (list Z)).
Abbreviation ul_eaxc := (message_receiver.ul_eaxc (messages cfg)).
Abbreviation prach_eaxc := (message_receiver.ul_prach_eaxc (messages cfg)).
Abbreviation heard := (message_receiver.ul_eaxc (messages cfg) ++ message_receiver.ul_prach_eaxc (messages cfg)).
Abbreviation data_step := (flow_step (ul_decoder cfg) ul_eaxc).
Abbreviation occasion_step := (prach_step (prach_decoder cfg) (is_prach_cplane_enabled cfg) prach_eaxc).
Abbreviation data_promise := (promise_step (ul_decoder cfg) ul_eaxc ports subc size cp_size).
Abbreviation occasion_promise := (prach_promise_step (prach_decoder cfg) (is_prach_cplane_enabled cfg) prach_eaxc psize cp_size dims).

Definition rx_step (st : state) (e : rx_event) : result state :=
  match e with
  | Arrival accept buffer => Ok (on_new_frame accept buffer st)
  | NewSymbol accept p => on_new_symbol cfg accept p st
  | RunTask n clears => match pending st !! n with Some t => run_task cfg clears t (with_pending st (delete n (pending st))) | None => Ok st end
  | SlotRequested accept context gid start stop =>
      r ← uplink_context_repository.add accept (ul_context_repo st) context (Some gid) start stop; Ok (with_data st (uplink_data_flow.with_repo (data_view st) r))
  | OccasionRequested ctx buf => p ← prach_data_flow.register_occasion (prach_view st) ctx buf; Ok (with_prach st p)
  | CommandSent slot eaxc cp =>
      c ← uplink_cplane_context_repository.add (ul_cplane_context_repo st) slot eaxc cp; Ok (with_data st (uplink_data_flow.mk_state (ul_context_repo st) c (symbols_notified st)))
  end.
Definition rx_run : state → list rx_event → result state := fold_result rx_step.

Definition with_promises (s : rx_spec) (q : promise) (r : prach_promise) : rx_spec := mk_rx_spec (sp_seq s) (sp_window s) q r (sp_pending s).
Definition with_tasks (s : rx_spec) (ts : list task) : rx_spec := mk_rx_spec (sp_seq s) (sp_window s) (sp_data s) (sp_prach s) ts.

(** The events of the two flows. *)
Definition promises (s : rx_spec) (data : list event) (occasions : list prach_event) : result rx_spec :=
  q ← fold_result data_promise (sp_data s) data; r ← fold_result occasion_promise (sp_prach s) occasions; Ok (with_promises s q r).

(** The message a frame carries. *)
Definition frame_messages (buffer : list Z) (s : rx_spec) : result message_receiver.state :=
  message_receiver.process_new_frame (messages cfg) (message_receiver.mk_state (sp_seq s) (sp_window s) []) buffer.

Definition data_events (clears : bool) (ms : list (message_receiver.flow * Z * list Z)) : list event :=
  omap (λ m, match m.1.1 with message_receiver.uplink_data => Some (Message clears m.1.2 m.2) | _ => None end) ms.
Definition occasion_events (ms : list (message_receiver.flow * Z * list Z)) : list prach_event :=
  omap (λ m, match m.1.1 with message_receiver.uplink_prach => Some (PrachMessage m.1.2 m.2) | _ => None end) ms.

Definition spec_rx_task (clears : bool) (t : task) (s : rx_spec) : result rx_spec :=
  match t with
  | FrameTask buffer =>
      m ← frame_messages buffer s;
      promises (mk_rx_spec (message_receiver.seq_id_checker m) (message_receiver.window_checker m) (sp_data s) (sp_prach s) (sp_pending s))
        (data_events clears (message_receiver.delivered m)) (occasion_events (message_receiver.delivered m))
  | ClosedTask p => promises s [Closed p] [PrachClosed p]
  end.

(** The symbol whose window closes at the symbol [p]. *)
Definition closing (p : slot_symbol_point.t) : slot_symbol_point.t :=
  slot_symbol_point.mk (slot_symbol_point.nof_symbols p) (slot_symbol_point.numerology p) ((slot_symbol_point.count_val p - (sym_end cfg + 1)) mod slot_symbol_point.period p).

Definition spec_rx_event (s : rx_spec) (e : rx_event) : result rx_spec :=
  match e with
  | Arrival accept buffer => Ok (if accept then with_tasks s (sp_pending s ++ [FrameTask buffer]) else s)
  | NewSymbol accept p =>
      wc ← rx_window_checker.on_new_symbol (sp_window s) p;
      let s := mk_rx_spec (sp_seq s) wc (sp_data s) (sp_prach s) (sp_pending s) in
      Ok (if accept then with_tasks s (sp_pending s ++ [ClosedTask (closing p)]) else s)
  | RunTask n clears => match sp_pending s !! n with Some t => spec_rx_task clears t (with_tasks s (delete n (sp_pending s))) | None => Ok s end
  | SlotRequested accept context gid start stop => promises s [Request accept context gid start stop] []
  | OccasionRequested ctx buf => promises s [] [Occasion ctx buf]
  | CommandSent slot eaxc cp => promises s [Command slot eaxc cp] [PrachCommand slot eaxc cp]
  end.
Definition spec_rx_run : rx_spec → list rx_event → result rx_spec := fold_result spec_rx_event.

(** *** The conditions *)

Definition rx_config_ok : Prop :=
  message_receiver.config_ok (messages cfg) ∧ decoder_ok (ul_decoder cfg) ∧ nof_symbols (ul_decoder cfg) <= MAX_NSYMB_PER_SLOT ∧ decoder_ok (prach_decoder cfg) ∧
  0 < ru_nof_prbs (prach_decoder cfg) ∧ 0 < cp_size ∧ 0 < psize ∧ 0 <= sym_end cfg < 2 ^ 29.

Definition rx_task_ok (t : task) : Prop :=
  match t with
  | FrameTask buffer => bytes_ok buffer ∧ zlen buffer < 2 ^ 32
  | ClosedTask p => slot_symbol_point.wf p ∧ slot_symbol_point.nof_symbols p <= MAX_NSYMB_PER_SLOT
  end.

Definition rx_event_ok (held : list grid_pool.handle) (e : rx_event) : Prop :=
  match e with
  | Arrival _ buffer => rx_task_ok (FrameTask buffer)
  | NewSymbol _ p => rx_task_ok (ClosedTask p)
  | RunTask _ _ => True
  | SlotRequested accept context gid start stop => event_ok ul_eaxc heard symb subc held (Request accept context gid start stop)
  | OccasionRequested ctx buf => occasion_ok dims ctx buf
  | CommandSent slot eaxc cp => event_ok ul_eaxc heard symb subc held (Command slot eaxc cp)
  end.

Record rx_realizes (st : state) (held : list grid_pool.handle) (s : rx_spec) : Prop := {
  rr_seq : seq_id_checker st = sp_seq s;
  rr_seq_wf : sequence_id_checker.wf (sp_seq s);
  rr_window : window_checker st = sp_window s;
  rr_data : realizes ul_eaxc heard ports symb subc size cp_size (data_view st) held (sp_data s);
  rr_prach : prach_flow_realizes ul_eaxc heard psize cp_size dims (prach_view st) (sp_prach s);
  rr_pending : pending st = sp_pending s;
  rr_tasks : Forall rx_task_ok (sp_pending s) }.

Context {Hdim : Dimensions ports symb subc size} {fills : DecompressorFills decompressor}.
Context (HC : rx_config_ok).

(** *** One step of a flow *)

Lemma data_step_cplane u e u' : data_step u e = Ok u' → (∀ slot eaxc cp, e ≠ Command slot eaxc cp) → uplink_data_flow.ul_cplane_context_repo u' = uplink_data_flow.ul_cplane_context_repo u.
Proof.
  intros HE HN. destruct e as [accept context gid start stop|slot eaxc cp|accept eaxc m|p]; cbn [flow_step] in HE.
  - by apply bind_Ok in HE as (r & _ & [= <-]).
  - by destruct (HN slot eaxc cp).
  - unfold uplink_data_flow.decode_type1_message in HE. apply bind_Ok in HE as ([valid results] & _ & HE). destruct valid; cbn [negb] in HE; [|by injection HE as <-].
    apply bind_Ok in HE as ([] & _ & HE); [by injection HE as <-|]. apply bind_Ok in HE as (r & _ & HE). unfold uplink_data_flow.notify_received_symbol in HE.
    apply bind_Ok in HE as ([r' [i|]] & _ & HE); by injection HE as <-.
  - unfold uplink_data_flow.handle_uplink_context in HE. apply bind_Ok in HE as (slot & _ & HE). apply bind_Ok in HE as (symbol & _ & HE). apply bind_Ok in HE as ([r' [i|]] & _ & HE); by injection HE as <-.
Qed.

Lemma occasion_step_cplane u e u' : occasion_step u e = Ok u' → (∀ slot eaxc cp, e ≠ PrachCommand slot eaxc cp) → prach_data_flow.ul_cplane_context_repo u' = prach_data_flow.ul_cplane_context_repo u.
Proof.
  intros HE HN. destruct e as [ctx buf|slot eaxc cp|eaxc m|p]; cbn [prach_step] in HE.
  - unfold prach_data_flow.register_occasion in HE. by apply bind_Ok in HE as (r & _ & [= <-]).
  - by destruct (HN slot eaxc cp).
  - unfold prach_data_flow.decode_type1_message in HE. apply bind_Ok in HE as ([valid results] & _ & HE). destruct valid; cbn [negb] in HE; [|by injection HE as <-].
    apply bind_Ok in HE as ([] & _ & HE); [by injection HE as <-|]. apply bind_Ok in HE as (r & _ & HE). unfold prach_data_flow.notify_prach in HE. by apply bind_Ok in HE as ([r' i] & _ & [= <-]).
  - unfold prach_data_flow.handle_prach_context in HE. apply bind_Ok in HE as (symbol & _ & HE). destruct (negb _); [by injection HE as <-|].
    apply bind_Ok in HE as (t & _ & HE). apply bind_Ok in HE as (slot & _ & HE). by apply bind_Ok in HE as ([r' i] & _ & [= <-]).
Qed.

Definition rx_room (st : state) (held : list grid_pool.handle) (m : Z) : Prop :=
  size * MAX_NSYMB_PER_SLOT + zlen (symbols_notified st) + zlen held + m + 3 < grid_pool.ref_counter_available.

Lemma data_one st held s e m : rx_realizes st held s → rx_room st held (m + 1) → 0 <= m → event_ok ul_eaxc heard symb subc held e → (∀ slot eaxc cp, e ≠ Command slot eaxc cp) →
  match data_promise (sp_data s) e with
  | Ok q => ∃ u, data_step (data_view st) e = Ok u ∧ rx_realizes (with_data st u) held (with_promises s q (sp_prach s)) ∧ rx_room (with_data st u) held m
  | Fault f => data_step (data_view st) e = Fault f
  end.
Proof.
  intros HQ HR Hm He HN. destruct HC as (_ & Hd & Hn & _ & _ & Hcp & _). assert (HRm : room size (data_view st) held) by (unfold room, rx_room in *; cbn [data_view uplink_data_flow.notified]; lia).
  pose proof (flow_step_realizes (ul_decoder cfg) ul_eaxc heard ports symb subc size cp_size Hd Hn Hcp (data_view st) held (sp_data s) e (rr_data _ _ _ HQ) HRm He) as HX.
  destruct (data_promise (sp_data s) e) as [q|f] eqn:HE; [|done]. destruct HX as (u & HU & HRu). exists u. split; [done|].
  pose proof (data_step_cplane _ _ _ HU HN) as HCp. destruct (told_grows (ul_decoder cfg) ul_eaxc heard ports symb subc size cp_size (data_view st) held (sp_data s) e q (rr_data _ _ _ HQ) HE) as (new & HT & Hnew).
  destruct HQ as [Q1 Q2 Q3 Q4 Q5 Q6 Q7]. split.
  - constructor; try done; [by destruct u|]. unfold prach_view, with_data. cbn [prach_buffers prach_repo ul_cplane_context_repo prach_notified]. by rewrite HCp.
  - unfold rx_room in *. cbn [with_data symbols_notified]. rewrite (re_told _ _ _ _ _ _ _ _ _ _ HRu), HT, zlen_app, <- (re_told _ _ _ _ _ _ _ _ _ _ Q4). cbn [data_view uplink_data_flow.notified]. lia.
Qed.

Lemma occasion_one st held s e : rx_realizes st held s → prach_event_ok ul_eaxc heard dims e → (∀ slot eaxc cp, e ≠ PrachCommand slot eaxc cp) →
  match occasion_promise (sp_prach s) e with
  | Ok r => ∃ p, occasion_step (prach_view st) e = Ok p ∧ rx_realizes (with_prach st p) held (with_promises s (sp_data s) r)
  | Fault f => occasion_step (prach_view st) e = Fault f
  end.
Proof.
  intros HQ He HN. destruct HC as (_ & _ & _ & Hd & Hru & Hcp & Hps & _).
  pose proof (prach_step_realizes (prach_decoder cfg) (is_prach_cplane_enabled cfg) prach_eaxc ul_eaxc heard psize cp_size dims Hd Hru Hps Hcp (prach_view st) (sp_prach s) e (rr_prach _ _ _ HQ) He) as HX.
  destruct (occasion_promise (sp_prach s) e) as [r|f] eqn:HE; [|done]. destruct HX as (p & HU & HRu). exists p. split; [done|]. pose proof (occasion_step_cplane _ _ _ HU HN) as HCp.
  destruct HQ as [Q1 Q2 Q3 Q4 Q5 Q6 Q7]. constructor; try done; [|by destruct p]. unfold data_view, with_prach. cbn [ul_context_repo ul_cplane_context_repo symbols_notified]. by rewrite HCp.
Qed.

(** *** Tasks and events *)

Lemma close_window_spec accept p st : slot_symbol_point.wf p → close_window cfg accept p st = Ok (execute accept (ClosedTask (closing p)) st) ∧ slot_symbol_point.wf (closing p).
Proof.
  intros Hw. destruct HC as (_ & _ & _ & _ & _ & _ & _ & Hs). unfold close_window, uplink_data_flow.notification_delay_in_symbols, slot_symbol_point.sub.
  rewrite (wrap_small 32) by lia_fits. rewrite swrap_small by (unfold_fits; lia). rewrite sadd_Ok by (unfold_fits; lia). cbn [mbind result_bind].
  rewrite slot_symbol_point.symbol_add_spec by (done || lia). cbn [mbind result_bind]. unfold closing.
  replace (slot_symbol_point.count_val p - (sym_end cfg + 1)) with (slot_symbol_point.count_val p + (0 + - (0 + sym_end cfg + 1))) by lia. split; [done|by apply slot_symbol_point.symbol_add_wf].
Qed.

Lemma pending_realizes st held s ts : rx_realizes st held s → Forall rx_task_ok ts → rx_realizes (with_pending st ts) held (with_tasks s ts).
Proof. intros [Q1 Q2 Q3 Q4 Q5 Q6 Q7] HT. by constructor. Qed.

Lemma checkers_realizes st held s sc wc : rx_realizes st held s → sequence_id_checker.wf sc →
  rx_realizes (with_checkers st sc wc) held (mk_rx_spec sc wc (sp_data s) (sp_prach s) (sp_pending s)).
Proof. intros [Q1 Q2 Q3 Q4 Q5 Q6 Q7] HT. by constructor. Qed.

(** A message of the radio unit: octets of a known eAxC. *)
Definition message_ok (m : message_receiver.flow * Z * list Z) : Prop := 0 <= m.1.2 < MAX_SUPPORTED_EAXC_ID_VALUE ∧ m.1.2 ∈ heard ∧ bytes_ok m.2 ∧ zlen m.2 < 2 ^ 32.

Lemma frame_messages_spec buffer s : rx_task_ok (FrameTask buffer) → sequence_id_checker.wf (sp_seq s) →
  match frame_messages buffer s with
  | Ok m => sequence_id_checker.wf (message_receiver.seq_id_checker m) ∧
      (message_receiver.delivered m = [] ∨ ∃ x, message_receiver.delivered m = [x] ∧ message_ok x ∧ message_receiver.addressed (messages cfg) buffer)
  | Fault _ => message_receiver.addressed (messages cfg) buffer
  end.
Proof.
  intros [Hb Hl] Hw. destruct HC as (Hm & _). unfold frame_messages.
  destruct (message_receiver.process_new_frame_outcome (messages cfg) (message_receiver.mk_state (sp_seq s) (sp_window s) []) buffer Hm Hw Hb Hl) as [(m & -> & Hwm & HD)|(-> & Ha & _)]; [|done].
  split; [done|]. destruct HD as [->|(pdu & Ha & _ & _ & Hk & _ & [rest Hp] & _ & ->)]; [by left|]. right. eexists. split; [done|]. split; [|done]. unfold message_ok. cbn [fst snd].
  destruct Hm as (_ & _ & HE). rewrite Forall_forall in HE. split; [by apply HE|]. split; [done|]. assert (Hb' : bytes_ok (drop 22 buffer)) by by apply Forall_drop. rewrite Hp in Hb'. apply Forall_app in Hb' as [Hb' _]. split; [done|].
  apply (f_equal zlen) in Hp. rewrite zlen_app in Hp. pose proof (zlen_nonneg rest). unfold zlen in *. rewrite length_drop in Hp. lia.
Qed.

Lemma task_realizes clears t st held s m : rx_realizes st held s → rx_task_ok t → 0 <= m → rx_room st held (m + 1) →
  match spec_rx_task clears t s with
  | Ok s' => ∃ st', run_task cfg clears t st = Ok st' ∧ rx_realizes st' held s' ∧ rx_room st' held m
  | Fault f => run_task cfg clears t st = Fault f
  end.
Proof.
  intros HQ Ht Hm HR. assert (HR0 : ∀ st', symbols_notified st' = symbols_notified st → rx_room st' held m) by (intros st' E; unfold rx_room in *; rewrite E; lia).
  destruct t as [buffer|p]; cbn [spec_rx_task run_task].
  - pose proof (frame_messages_spec buffer s Ht (rr_seq_wf _ _ _ HQ)) as HM. unfold process_new_frame. rewrite (rr_seq _ _ _ HQ), (rr_window _ _ _ HQ). fold (frame_messages buffer s).
    destruct (frame_messages buffer s) as [ms|f]; cbn [mbind result_bind]; [|done]. destruct HM as [Hw HD].
    pose proof (checkers_realizes st held s (message_receiver.seq_id_checker ms) (message_receiver.window_checker ms) HQ Hw) as HQ1. set (st1 := with_checkers st _ _) in *. set (s1 := mk_rx_spec _ _ _ _ _) in *.
    destruct HD as [->|([[[] eaxc] pdu] & -> & (He & Hh & Hb & Hl) & _)]; unfold promises; cbn [data_events occasion_events omap list_omap fst snd fold_result mbind result_bind decode_type1_message].
    + exists st1. split; [done|]. split; [by destruct s1|by apply HR0].
    + pose proof (data_one st1 held s1 (Message clears eaxc pdu) m HQ1 HR Hm) as HX. cbn [event_ok flow_step] in HX. specialize (HX ltac:(done) ltac:(done)). destruct (data_promise _ _) as [q|f]; cbn [mbind result_bind]; [|by rewrite HX].
      destruct HX as (u & -> & HX & HRx). cbn [mbind result_bind]. by eexists.
    + pose proof (occasion_one st1 held s1 (PrachMessage eaxc pdu) HQ1) as HX. cbn [prach_event_ok prach_step] in HX. specialize (HX ltac:(done) ltac:(done)). destruct (occasion_promise _ _) as [r|f]; cbn [mbind result_bind]; [|by rewrite HX].
      destruct HX as (u & -> & HX). cbn [mbind result_bind]. eexists. split; [done|]. split; [done|by apply HR0].
  - unfold promises. cbn [fold_result mbind result_bind]. destruct Ht as [Hw Hn]. pose proof (data_one st held s (Closed p) m HQ HR Hm ltac:(by split) ltac:(done)) as HX. cbn [flow_step] in HX.
    destruct (data_promise _ _) as [q|f]; cbn [mbind result_bind]; [|by rewrite HX]. destruct HX as (u & -> & HX & HRx). cbn [mbind result_bind].
    pose proof (occasion_one _ held _ (PrachClosed p) HX ltac:(done) ltac:(done)) as HY. cbn [prach_step with_promises sp_prach] in HY. destruct (occasion_promise _ _) as [r|f]; cbn [mbind result_bind]; [|by rewrite HY].
    destruct HY as (v & -> & HY). cbn [mbind result_bind]. eexists. split; [done|]. by split.
Qed.

Lemma rx_event_spec e st held s m : rx_realizes st held s → rx_event_ok held e → 0 <= m → rx_room st held (m + 1) →
  match spec_rx_event s e with
  | Ok s' => ∃ st', rx_step st e = Ok st' ∧ rx_realizes st' held s' ∧ rx_room st' held m
  | Fault f => rx_step st e = Fault f
  end.
Proof.
  intros HQ He Hm HR. assert (HR0 : ∀ st', symbols_notified st' = symbols_notified st → rx_room st' held m) by (intros st' E; unfold rx_room in *; rewrite E; lia).
  assert (HP : ∀ accept t, rx_task_ok t → rx_realizes (execute accept t st) held (if accept then with_tasks s (sp_pending s ++ [t]) else s) ∧ rx_room (execute accept t st) held m).
  { intros [] t Ht; (split; [|by apply HR0]); [|done]. cbn [execute]. rewrite (rr_pending _ _ _ HQ). apply pending_realizes; [done|]. apply Forall_app. split; [apply HQ|by constructor]. }
  destruct e as [accept buffer|accept p|k clears|accept context gid start stop|ctx buf|slot eaxc cp]; cbn [spec_rx_event rx_step].
  - eexists. split; [done|]. by apply HP.
  - destruct He as [Hw Hn]. unfold on_new_symbol. assert (HW : (if rx_window_checker.is_disabled (window_checker st) then Ok (window_checker st) else rx_window_checker.on_new_symbol (window_checker st) p) = rx_window_checker.on_new_symbol (sp_window s) p).
    { rewrite <- (rr_window _ _ _ HQ). unfold rx_window_checker.on_new_symbol. by destruct (rx_window_checker.is_disabled _). }
    rewrite HW. clear HW. destruct (rx_window_checker.on_new_symbol (sp_window s) p) as [wc|]; cbn [mbind result_bind]; [|done]. rewrite (proj1 (close_window_spec accept p _ Hw)). eexists. split; [done|].
    pose proof (checkers_realizes st held s (sp_seq s) wc HQ (rr_seq_wf _ _ _ HQ)) as HQ1. rewrite (rr_seq _ _ _ HQ). destruct accept; cbn [execute]; (split; [|by apply HR0]); [|done].
    change (pending (with_checkers _ _ _)) with (pending st). rewrite (rr_pending _ _ _ HQ). apply pending_realizes; [done|]. apply Forall_app. split; [apply HQ|]. constructor; [|constructor]. split; [by apply (close_window_spec true p st Hw)|done].
  - rewrite (rr_pending _ _ _ HQ). destruct (sp_pending s !! k) as [t|] eqn:Hk; [|exists st; split; [done|]; split; [done|by apply HR0]].
    pose proof (rr_tasks _ _ _ HQ) as HT. apply task_realizes; [apply pending_realizes; [done|by apply Forall_delete]|by eapply Forall_lookup_1|done|done].
  - unfold promises. pose proof (data_one st held s (Request accept context gid start stop) m HQ HR Hm He ltac:(done)) as HX. cbn [fold_result flow_step data_view uplink_data_flow.ul_context_repo] in *.
    destruct (data_promise _ _) as [q|f]; cbn [mbind result_bind]; [|destruct (uplink_context_repository.add _ _ _ _ _ _); [done|by injection HX as ->]].
    destruct HX as (u & HU & HX). destruct (uplink_context_repository.add _ _ _ _ _ _) as [r|]; [|done]. injection HU as <-. cbn [mbind result_bind]. eexists. split; [done|]. exact HX.
  - unfold promises. pose proof (occasion_one st held s (Occasion ctx buf) HQ He ltac:(done)) as HX. cbn [fold_result prach_step] in *. cbn [mbind result_bind].
    destruct (occasion_promise _ _) as [r|f]; cbn [mbind result_bind]; [|by rewrite HX]. destruct HX as (p & -> & HX). cbn [mbind result_bind]. eexists. split; [done|]. split; [done|by apply HR0].
  - unfold promises. cbn [fold_result promise_step prach_promise_step mbind result_bind]. destruct HC as (_ & _ & _ & _ & _ & Hcp & _ & _). destruct He as (Hs & He & Ha).
    destruct (cplane_add ul_eaxc heard cp_size (ul_cplane_context_repo st) _ slot eaxc cp Hcp (re_cplane _ _ _ _ _ _ _ _ _ _ (rr_data _ _ _ HQ)) Hs He Ha) as (c & HA & HC1).
    destruct (cplane_add ul_eaxc heard cp_size (ul_cplane_context_repo st) _ slot eaxc cp Hcp (fr_cplane _ _ _ _ _ _ _ (rr_prach _ _ _ HQ)) Hs He Ha) as (c' & HA' & HC2). rewrite HA in HA'. injection HA' as <-. rewrite HA. cbn [mbind result_bind].
    eexists. split; [done|]. split; [|by apply HR0]. destruct HQ as [Q1 Q2 Q3 [D1 D2 D3 D4] [P1 P2 P3 P4 P5] Q6 Q7]. constructor; try done; by constructor.
Qed.

(** *** The events of the flows *)

Definition rx_quiet (i k : nat) (e : rx_event) : Prop :=
  match e with SlotRequested accept context gid start stop => quiet size i k (Request accept context gid start stop) | _ => True end.
Definition rx_prach_quiet (i : nat) (e : rx_event) : Prop :=
  match e with OccasionRequested ctx buf => prach_quiet psize i (Occasion ctx buf) | _ => True end.

(** What an event is for the two flows, and that it takes no place it does not ask for. *)
Definition projects (s s' : rx_spec) (es : list rx_event) (ds : list event) (ps : list prach_event) : Prop :=
  fold_result data_promise (sp_data s) ds = Ok (sp_data s') ∧ fold_result occasion_promise (sp_prach s) ps = Ok (sp_prach s') ∧ Forall (prach_event_ok ul_eaxc heard dims) ps ∧
  (∀ i k, Forall (rx_quiet i k) es → Forall (quiet size i k) ds) ∧ (∀ i, Forall (rx_prach_quiet i) es → Forall (prach_quiet psize i) ps).

Lemma projects_nil s s' es : sp_data s' = sp_data s → sp_prach s' = sp_prach s → projects s s' es [] [].
Proof. intros E1 E2. unfold projects. rewrite E1, E2. repeat (split; [done|]). done. Qed.

Lemma projects_app s s1 s2 es1 es2 ds1 ds2 ps1 ps2 : projects s s1 es1 ds1 ps1 → projects s1 s2 es2 ds2 ps2 → projects s s2 (es1 ++ es2) (ds1 ++ ds2) (ps1 ++ ps2).
Proof.
  intros (A1 & A2 & A3 & A4 & A5) (B1 & B2 & B3 & B4 & B5). unfold projects. rewrite !fold_result_app, A1, A2. cbn [mbind result_bind]. repeat (split; [done|]).
  split; [by apply Forall_app|]. split; [intros i k HF; apply Forall_app in HF as [? ?]; apply Forall_app; split; auto|intros i HF; apply Forall_app in HF as [? ?]; apply Forall_app; split; auto].
Qed.

Lemma promises_projects s ds ps s' es : promises s ds ps = Ok s' → Forall (prach_event_ok ul_eaxc heard dims) ps →
  (∀ i k, Forall (rx_quiet i k) es → Forall (quiet size i k) ds) → (∀ i, Forall (rx_prach_quiet i) es → Forall (prach_quiet psize i) ps) → projects s s' es ds ps.
Proof. unfold promises. intros (q & HQ & (r & HR & [= <-])%bind_Ok)%bind_Ok Hok H1 H2. done. Qed.

Lemma task_projects clears t s s' e : rx_task_ok t → sequence_id_checker.wf (sp_seq s) → spec_rx_task clears t s = Ok s' → ∃ ds ps, projects s s' [e] ds ps.
Proof.
  intros Ht Hw HE. destruct t as [buffer|p]; cbn [spec_rx_task] in HE.
  - pose proof (frame_messages_spec buffer s Ht Hw) as HM. apply bind_Ok in HE as (m & Hm & HE). rewrite Hm in HM. destruct HM as [_ HD]. eexists _, _. apply (promises_projects _ _ _ _ [e]) in HE; [exact HE|..];
    (destruct HD as [->|([[[] eaxc] pdu] & -> & HO & _)]; cbn [data_events occasion_events omap list_omap fst snd]; intros; first [by constructor|constructor; [by destruct HO as (? & _ & ? & ?)|constructor]|by repeat constructor]).
  - eexists _, _. apply (promises_projects _ _ _ _ [e]) in HE; [exact HE|..]; [|intros; by repeat constructor..]. constructor; [|constructor]. apply Ht.
Qed.

Lemma event_projects st held s e s' : rx_realizes st held s → rx_event_ok held e → spec_rx_event s e = Ok s' → ∃ ds ps, projects s s' [e] ds ps.
Proof.
  intros HQ He HE. destruct e as [accept buffer|accept p|k clears|accept context gid start stop|ctx buf|slot eaxc cp]; cbn [spec_rx_event] in HE.
  - exists [], []. injection HE as <-. by destruct accept; apply projects_nil.
  - exists [], []. apply bind_Ok in HE as (wc & _ & [= <-]). by destruct accept; apply projects_nil.
  - destruct (sp_pending s !! k) as [t|] eqn:Hk; [|injection HE as <-; exists [], []; by apply projects_nil].
    apply (task_projects clears t (with_tasks s (delete k (sp_pending s)))); [|apply HQ|done]. eapply Forall_lookup_1; [apply HQ|done].
  - eexists _, _. eapply promises_projects; [exact HE|done| |done]. intros i k HF. apply Forall_cons in HF as [HF _]. by constructor.
  - eexists _, _. eapply promises_projects; [exact HE| |done|]; [by constructor|]. intros i HF. apply Forall_cons in HF as [HF _]. by constructor.
  - eexists _, _. eapply promises_projects; [exact HE|by constructor|intros; by repeat constructor..].
Qed.

Lemma rx_run_spec es : ∀ st held s m, rx_realizes st held s → Forall (rx_event_ok held) es → 0 <= m → rx_room st held (m + zlen es) →
  match spec_rx_run s es with
  | Ok s' => ∃ st' ds ps, rx_run st es = Ok st' ∧ rx_realizes st' held s' ∧ rx_room st' held m ∧ projects s s' es ds ps
  | Fault f => rx_run st es = Fault f
  end.
Proof.
  unfold spec_rx_run, rx_run. induction es as [|e es IH]; intros st held s m HQ HF Hm HR; cbn [fold_result].
  { exists st, [], []. change (zlen []) with 0 in HR. rewrite Z.add_0_r in HR. split; [done|]. split; [done|]. split; [done|]. by apply projects_nil. }
  inversion_clear HF as [|? ? He Hes]. rewrite zlen_cons in HR. replace (m + (1 + zlen es)) with (m + zlen es + 1) in HR by lia. pose proof (zlen_nonneg es).
  pose proof (rx_event_spec e st held s (m + zlen es) HQ He ltac:(lia) HR) as HX. destruct (spec_rx_event s e) as [s1|f] eqn:HE; cbn [mbind result_bind]; [|by rewrite HX].
  destruct HX as (st1 & -> & HQ1 & HR1). cbn [mbind result_bind]. pose proof (IH st1 held s1 m HQ1 Hes Hm HR1) as HY. destruct (fold_result spec_rx_event s1 es) as [s2|f]; [|done].
  destruct HY as (st2 & ds & ps & HY & HQ2 & HR2 & HP2). destruct (event_projects st held s e s1 HQ He HE) as (ds1 & ps1 & HP1). exists st2, (ds1 ++ ds), (ps1 ++ ps). split; [done|]. split; [done|]. split; [done|]. by apply (projects_app _ s1 _ [e]).
Qed.

(** *** What can stop the receiver *)

Lemma window_symbol_total w p : slot_symbol_point.wf p → ∃ w', rx_window_checker.on_new_symbol w p = Ok w'.
Proof.
  intros (Hn & Hm & Hc). unfold rx_window_checker.on_new_symbol. destruct (rx_window_checker.is_disabled w); [by eexists|]. destruct p as [k m c]. unfold slot_symbol_point.period in Hc.
  cbn [slot_symbol_point.nof_symbols slot_symbol_point.numerology slot_symbol_point.count_val] in *. pose proof (Z.mod_pos_bound c k ltac:(lia)).
  assert (Hw : slot_point.wf (slot_point.mk m (c / k))).
  { split; [done|]. unfold slot_point.period. cbn [slot_point.count_val slot_point.numerology_val]. split; [apply Z.div_pos; lia|]. apply Z.div_lt_upper_bound; lia. }
  destruct (rx_window_checker.ofh_point_spec (slot_point.mk m (c / k)) (c mod k) k Hw Hn ltac:(lia)) as (q & HQ & _). cbn [slot_point.numerology_val slot_point.count_val] in HQ.
  replace (c / k * k + c mod k) with c in HQ by (pose proof (Z.div_mod c k); lia). rewrite HQ. by eexists.
Qed.

Lemma promises_total s ds ps held : Forall (event_ok ul_eaxc heard symb subc held) ds → Forall (prach_event_ok ul_eaxc heard dims) ps →
  (∀ accept eaxc m, Message accept eaxc m ∉ ds) → (∀ eaxc m, PrachMessage eaxc m ∉ ps) → ∃ s', promises s ds ps = Ok s'.
Proof.
  intros Hd Hp HDm HPm. destruct HC as (_ & Hdec & Hn & Hpdec & Hru & Hcp & Hps & _). unfold promises. destruct (fold_result data_promise (sp_data s) ds) as [q|f] eqn:E1.
  2: { destruct (promise_run_fault (ul_decoder cfg) ul_eaxc heard ports symb subc size cp_size Hdec Hn Hcp ds held f (sp_data s) Hd E1) as (? & ? & ? & HI & _). by apply HDm in HI. }
  destruct (fold_result occasion_promise (sp_prach s) ps) as [r|f] eqn:E2; [by eexists|].
  destruct (prach_run_fault (prach_decoder cfg) (is_prach_cplane_enabled cfg) prach_eaxc ul_eaxc heard psize cp_size dims Hpdec Hru Hps Hcp ps f (sp_prach s) Hp E2) as (? & ? & HI & _). by apply HPm in HI.
Qed.

Lemma closed_total clears p s : rx_task_ok (ClosedTask p) → ∃ s', spec_rx_task clears (ClosedTask p) s = Ok s'.
Proof.
  intros [Hw Hn]. apply (promises_total _ _ _ []); [by repeat (constructor; [done|])|by repeat (constructor; [done|])|intros ? ? ? HI; by apply list_elem_of_singleton in HI|intros ? ? HI; by apply list_elem_of_singleton in HI].
Qed.

(** Only a frame that is run can stop the receiver. *)
Lemma event_fault st held s e f : rx_realizes st held s → rx_event_ok held e → spec_rx_event s e = Fault f →
  ∃ k clears buffer, e = RunTask k clears ∧ sp_pending s !! k = Some (FrameTask buffer) ∧ message_receiver.addressed (messages cfg) buffer.
Proof.
  intros HQ He HE. destruct e as [accept buffer|accept p|k clears|accept context gid start stop|ctx buf|slot eaxc cp]; cbn [spec_rx_event] in HE; [done| | | | |].
  - destruct He as [Hw _]. destruct (window_symbol_total (sp_window s) p Hw) as [w Hww]. by rewrite Hww in HE.
  - destruct (sp_pending s !! k) as [t|] eqn:Hk; [|done]. assert (Ht : rx_task_ok t) by (eapply Forall_lookup_1; [apply HQ|done]). destruct t as [buffer|p].
    + exists k, clears, buffer. split; [done|]. split; [done|]. cbn [spec_rx_task] in HE. pose proof (frame_messages_spec buffer (with_tasks s (delete k (sp_pending s))) Ht (rr_seq_wf _ _ _ HQ)) as HM.
      destruct (frame_messages _ _) as [m|]; [|done]. destruct HM as [_ [HD|(x & _ & _ & Ha)]]; [|done]. cbn [mbind result_bind] in HE. by rewrite HD in HE.
    + destruct (closed_total clears p (with_tasks s (delete k (sp_pending s))) Ht) as [s' Hs']. by rewrite Hs' in HE.
  - destruct (promises_total s [Request accept context gid start stop] [] held) as [s' Hs']; [by repeat (constructor; [done|])|done|intros ? ? ? HI; by apply list_elem_of_singleton in HI|intros ? ? HI; by apply not_elem_of_nil in HI|by rewrite Hs' in HE].
  - destruct (promises_total s [] [Occasion ctx buf] held) as [s' Hs']; [done|by repeat (constructor; [done|])|intros ? ? ? HI; by apply not_elem_of_nil in HI|intros ? ? HI; by apply list_elem_of_singleton in HI|by rewrite Hs' in HE].
  - destruct (promises_total s [Command slot eaxc cp] [PrachCommand slot eaxc cp] held) as [s' Hs']; [by repeat (constructor; [done|])|by repeat (constructor; [done|])|intros ? ? ? HI; by apply list_elem_of_singleton in HI|intros ? ? HI; by apply list_elem_of_singleton in HI|by rewrite Hs' in HE].
Qed.

Lemma promises_pending s ds ps s' : promises s ds ps = Ok s' → sp_pending s' = sp_pending s.
Proof. unfold promises. by intros (q & _ & (r & _ & [= <-])%bind_Ok)%bind_Ok. Qed.

(** Tasks of frames come from arrivals. *)
Lemma event_pending s e s' buffer : spec_rx_event s e = Ok s' → FrameTask buffer ∈ sp_pending s' → FrameTask buffer ∈ sp_pending s ∨ ∃ accept, e = Arrival accept buffer.
Proof.
  intros HE HI. destruct e as [accept b|accept p|k clears|accept context gid start stop|ctx buf|slot eaxc cp]; cbn [spec_rx_event] in HE.
  - injection HE as <-. destruct accept; [|by left]. cbn [with_tasks sp_pending] in HI. apply elem_of_app in HI as [HI|HI]; [by left|]. apply list_elem_of_singleton in HI as [= <-]. right. by eexists.
  - apply bind_Ok in HE as (wc & _ & [= <-]). destruct accept; [|by left]. cbn [with_tasks sp_pending] in HI. apply elem_of_app in HI as [HI|HI]; [by left|]. by apply list_elem_of_singleton in HI.
  - destruct (sp_pending s !! k) as [t|]; [|injection HE as <-; by left]. left. assert (HP : sp_pending s' = delete k (sp_pending s)).
    { destruct t as [b|p]; cbn [spec_rx_task] in HE; [apply bind_Ok in HE as (m & _ & HE)|]; by apply promises_pending in HE. }
    rewrite HP in HI. assert (HA : Forall (λ t, t ∈ sp_pending s) (delete k (sp_pending s))) by (apply Forall_delete, Forall_forall; done). rewrite Forall_forall in HA. by apply HA.
  - apply promises_pending in HE. rewrite HE in HI. by left.
  - apply promises_pending in HE. rewrite HE in HI. by left.
  - apply promises_pending in HE. rewrite HE in HI. by left.
Qed.

Lemma run_fault es : ∀ st held s f, rx_realizes st held s → Forall (rx_event_ok held) es → rx_room st held (zlen es) → spec_rx_run s es = Fault f →
  ∃ buffer, (FrameTask buffer ∈ sp_pending s ∨ ∃ accept, Arrival accept buffer ∈ es) ∧ message_receiver.addressed (messages cfg) buffer.
Proof.
  unfold spec_rx_run. induction es as [|e es IH]; intros st held s f HQ HF HR; cbn [fold_result]; [done|]. inversion_clear HF as [|? ? He Hes]. rewrite zlen_cons in HR. pose proof (zlen_nonneg es).
  assert (HR1 : rx_room st held (zlen es + 1)) by (unfold rx_room in *; lia). pose proof (rx_event_spec e st held s (zlen es) HQ He ltac:(lia) HR1) as HX. destruct (spec_rx_event s e) as [s1|f1] eqn:HE; cbn [mbind result_bind].
  - destruct HX as (st1 & _ & HQ1 & HR2). intros HY. destruct (IH st1 held s1 f HQ1 Hes HR2 HY) as (buffer & HI & Ha). exists buffer. split; [|done]. destruct HI as [HI|(acc & HI)]; [|right; exists acc; by apply elem_of_cons; right].
    destruct (event_pending s e s1 buffer HE HI) as [?|(acc & ->)]; [by left|]. right. exists acc. apply elem_of_cons. by left.
  - intros _. destruct (event_fault st held s e f1 HQ He HE) as (k & clears & buffer & -> & Hk & Ha). exists buffer. split; [|done]. left. by eapply list_elem_of_lookup_2.
Qed.

(** *** What is shown *)

(** C19: the receiver refines its two flows: for any interleaving of arriving frames (of any
    octets), symbols, requests, occasions, commands and runs of the tasks the executor has
    accepted, the consumer is told the same symbols and occasions in the same order as the
    tables of expected symbols and awaited occasions say when they are fed with the messages
    that pass the message receiver and with the symbols whose windows close; the receiver
    stops only in the run of a frame that bears the addresses of the radio unit and of the
    receiver, and with the same fault. *)
Theorem receiver_refines es st held s : rx_realizes st held s → Forall (rx_event_ok held) es → rx_room st held (zlen es) →
  match spec_rx_run s es with
  | Ok s' => ∃ st', rx_run st es = Ok st' ∧ rx_realizes st' held s' ∧ symbols_notified st' = told (sp_data s') ∧ prach_notified st' = prach_told (sp_prach s')
  | Fault f => rx_run st es = Fault f ∧
      ∃ buffer, (FrameTask buffer ∈ pending st ∨ ∃ accept, Arrival accept buffer ∈ es) ∧ message_receiver.addressed (messages cfg) buffer
  end.
Proof.
  intros HQ HF HR. pose proof (rx_run_spec es st held s 0 HQ HF ltac:(lia) HR) as HX. destruct (spec_rx_run s es) as [s'|f] eqn:HE.
  - destruct HX as (st' & ds & ps & HX & HQ' & _). exists st'. split; [done|]. split; [done|]. split; [apply (rr_data _ _ _ HQ')|apply (rr_prach _ _ _ HQ')].
  - split; [done|]. rewrite (rr_pending _ _ _ HQ). by eapply run_fault.
Qed.

(** What a run of the receiver is for the two flows. *)
Lemma run_projects es st held s st' : rx_realizes st held s → Forall (rx_event_ok held) es → rx_room st held (zlen es + 1) → rx_run st es = Ok st' →
  ∃ s' ds ps, rx_realizes st' held s' ∧ rx_room st' held 1 ∧ projects s s' es ds ps.
Proof.
  intros HQ HF HR HE. rewrite Z.add_comm in HR. pose proof (rx_run_spec es st held s 1 HQ HF ltac:(lia) HR) as HX. destruct (spec_rx_run s es) as [s'|f]; [|congruence].
  destruct HX as (st2 & ds & ps & HX & HQ' & HR' & HP). rewrite HE in HX. injection HX as <-. by exists s', ds, ps.
Qed.

(** The task of a closed window does not fail. *)
Lemma closed_runs st held s k clears point : rx_realizes st held s → rx_room st held 1 → pending st !! k = Some (ClosedTask point) →
  ∃ st' s', rx_step st (RunTask k clears) = Ok st' ∧ rx_realizes st' held s' ∧ rx_task_ok (ClosedTask point) ∧
    data_promise (sp_data s) (Closed point) = Ok (sp_data s') ∧ occasion_promise (sp_prach s) (PrachClosed point) = Ok (sp_prach s').
Proof.
  intros HQ HR Hk. pose proof (rx_event_spec (RunTask k clears) st held s 0 HQ I ltac:(lia) HR) as HX. rewrite (rr_pending _ _ _ HQ) in Hk. cbn [spec_rx_event] in HX. rewrite Hk in HX.
  assert (Ht : rx_task_ok (ClosedTask point)) by (eapply Forall_lookup_1; [apply HQ|done]). destruct (closed_total clears point (with_tasks s (delete k (sp_pending s))) Ht) as [s' HS]. rewrite HS in HX.
  destruct HX as (st' & HX & HQ' & _). exists st', s'. split; [done|]. split; [done|]. split; [done|]. cbn [spec_rx_task] in HS. unfold promises in HS. cbn [fold_result with_tasks sp_data sp_prach] in HS.
  destruct (data_promise (sp_data s) (Closed point)); [|done]. destruct (occasion_promise (sp_prach s) (PrachClosed point)); [|done]. injection HS as <-. by split.
Qed.

(** An event, whatever follows it, and the run of the task of a closed window. *)
Lemma run_to_close e es st held s st1 k clears point : rx_realizes st held s → Forall (rx_event_ok held) (e :: es) → rx_room st held (zlen es + 2) →
  rx_run st (e :: es) = Ok st1 → pending st1 !! k = Some (ClosedTask point) →
  ∃ s0 s1 ds ps st' s', spec_rx_event s e = Ok s0 ∧ projects s0 s1 es ds ps ∧ rx_step st1 (RunTask k clears) = Ok st' ∧ rx_realizes st' held s' ∧ rx_task_ok (ClosedTask point) ∧
    fold_result data_promise (sp_data s0) (ds ++ [Closed point]) = Ok (sp_data s') ∧ fold_result occasion_promise (sp_prach s0) (ps ++ [PrachClosed point]) = Ok (sp_prach s').
Proof.
  intros HQ HF HR HE Hk. apply Forall_cons in HF as [He Hes]. unfold rx_run in HE. cbn [fold_result] in HE. apply bind_Ok in HE as (st0 & E0 & HE). pose proof (zlen_nonneg es).
  assert (HR0 : rx_room st held (zlen es + 1 + 1)) by (unfold rx_room in *; lia). pose proof (rx_event_spec _ st held s (zlen es + 1) HQ He ltac:(lia) HR0) as HX. rewrite E0 in HX.
  destruct (spec_rx_event s e) as [s0|]; [|done]. destruct HX as (? & [= <-] & HQ0 & HR1). destruct (run_projects es st0 held s0 st1 HQ0 Hes HR1 HE) as (s1 & ds & ps & HQ1 & HR2 & HP).
  destruct (closed_runs st1 held s1 k clears point HQ1 HR2 Hk) as (st' & s' & HS & HQ' & Ht & HD & HO). exists s0, s1, ds, ps, st', s'. split; [done|]. split; [done|]. split; [done|]. split; [done|]. split; [done|].
  destruct HP as (D & O & _). rewrite !fold_result_app, D, O. cbn [mbind result_bind fold_result]. by rewrite HD, HO.
Qed.

(** Every requested symbol is told once, whatever arrives: after a request for a range of
    symbols of a slot, through any frames, symbols, other requests and tasks, the run of the
    task that closes the window of a symbol of the range succeeds, and then, if no later
    request has taken the symbol's place, the consumer has been told that symbol exactly
    once, with the slot and sector of the request and a reference to its grid. *)
Theorem symbol_answered es st held s st1 accept context gid start stop k clears point slot x :
  rx_realizes st held s → Forall (rx_event_ok held) (SlotRequested accept context gid start stop :: es) → rx_room st held (zlen es + 2) →
  rx_run st (SlotRequested accept context gid start stop :: es) = Ok st1 → pending st1 !! k = Some (ClosedTask point) →
  slot_symbol_point.get_slot point = Ok slot → slot_symbol_point.get_symbol_index point = Ok (Z.of_nat x) →
  start <= Z.of_nat x < stop → index_of size slot = index_of size (ctx_slot context) → Forall (rx_quiet (index_of size slot) x) es →
  ∃ st' new, rx_step st1 (RunTask k clears) = Ok st' ∧ symbols_notified st' = symbols_notified st ++ new ∧
    told_at size (index_of size slot) x new = [the_notification x context gid].
Proof.
  intros HQ HF HR HE Hk Hg Hi Hx Hslot Hquiet. destruct (run_to_close _ es st held s st1 k clears point HQ HF HR HE Hk) as (s0 & s1 & ds & ps & st' & s' & E0 & HP & HS & HQ' & _ & HD & _).
  assert (Hrun : promise_run (ul_decoder cfg) ul_eaxc ports subc size cp_size (sp_data s) (Request accept context gid start stop :: ds ++ [Closed point]) = Ok (sp_data s')).
  { apply bind_Ok in E0 as (q0 & E0 & (r0 & _ & [= <-])%bind_Ok). unfold promise_run. cbn [fold_result] in E0 |- *. destruct (data_promise (sp_data s) _); [|done]. by injection E0 as ->. }
  destruct (request_told (ul_decoder cfg) ul_eaxc ports subc size cp_size ds (sp_data s) (sp_data s') accept context gid start stop point slot x) as (new & HT & HN); try done; [exact (re_placed _ _ _ _ _ _ _ _ _ _ (rr_data _ _ _ HQ))|by apply HP|].
  exists st', new. split; [done|]. split; [|done]. pose proof (re_told _ _ _ _ _ _ _ _ _ _ (rr_data _ _ _ HQ)) as T1. pose proof (re_told _ _ _ _ _ _ _ _ _ _ (rr_data _ _ _ HQ')) as T2. cbn [data_view uplink_data_flow.notified] in T1, T2. by rewrite T1, T2.
Qed.

(** C20: every PRACH occasion is told once, whatever arrives: after an occasion is registered,
    through any frames, symbols, requests and tasks, the run of the task that closes the first
    window after the slot it is awaited in succeeds, and then, if no later occasion has taken
    its place, the consumer has been told the occasion exactly once, with its context and its
    buffer. *)
Theorem occasion_answered es st held s st1 ctx buf k clears point slot t prev :
  rx_realizes st held s → Forall (rx_event_ok held) (OccasionRequested ctx buf :: es) → rx_room st held (zlen es + 2) →
  rx_run st (OccasionRequested ctx buf :: es) = Ok st1 → pending st1 !! k = Some (ClosedTask point) →
  prach_data_flow.occasion_slot ctx = Ok slot → slot_symbol_point.get_symbol_index point = Ok 0 → slot_symbol_point.get_slot point = Ok t → slot_point.sub_int t 1 = Ok prev →
  index_of psize prev = index_of psize slot → Forall (rx_prach_quiet (index_of psize slot)) es →
  ∃ st' new, rx_step st1 (RunTask k clears) = Ok st' ∧ prach_notified st' = prach_notified st ++ new ∧
    told_for psize (index_of psize slot) new = [prach_context.mk_info ctx (Some buf)].
Proof.
  intros HQ HF HR HE Hk Hos Hi Hg Hp Hslot Hquiet. destruct (run_to_close _ es st held s st1 k clears point HQ HF HR HE Hk) as (s0 & s1 & ds & ps & st' & s' & E0 & HP & HS & HQ' & Ht & _ & HO).
  apply Forall_cons in HF as [He _]. destruct HC as (_ & _ & _ & Hpdec & Hru & Hcp & Hps & _).
  assert (Hrun : prach_promise_run (prach_decoder cfg) (is_prach_cplane_enabled cfg) prach_eaxc psize cp_size dims (sp_prach s) (Occasion ctx buf :: ps ++ [PrachClosed point]) = Ok (sp_prach s')).
  { apply bind_Ok in E0 as (q0 & _ & (r0 & E0 & [= <-])%bind_Ok). unfold prach_promise_run. cbn [fold_result] in E0 |- *. destruct (occasion_promise (sp_prach s) _); [|done]. by injection E0 as ->. }
  destruct (occasion_told (prach_decoder cfg) (is_prach_cplane_enabled cfg) prach_eaxc ul_eaxc heard psize cp_size dims ps (sp_prach s) (sp_prach s') ctx buf slot point t prev) as (new & HT & HN);
    try done; [exact (fr_placed _ _ _ _ _ _ _ (rr_prach _ _ _ HQ))|apply Ht|apply HP|by apply HP|].
  exists st', new. split; [done|]. split; [|done]. pose proof (fr_told _ _ _ _ _ _ _ (rr_prach _ _ _ HQ)) as T1. pose proof (fr_told _ _ _ _ _ _ _ (rr_prach _ _ _ HQ')) as T2. cbn [prach_view prach_data_flow.notified] in T1, T2. by rewrite T1, T2.
Qed.
End reception.

Module reception_examples.
Import uplane radio_receiver uplink_examples.

#[local] Instance rx_decompressor : IqDecompressor := selector_decompressor compression_examples.example_compressors.
#[local] Instance rx_fills : DecompressorFills rx_decompressor := selector_fills _.

(** eAxC 3 carries data, eAxC 4 preambles; a window ends nine symbols after its symbol. *)
Definition cfg : config :=
  mk_config (message_receiver.mk_config 14 kHz30 (ethernet.mk_params (replicate 6 1) (replicate 6 2) None 0xaefe) [4] [3] ecpri.use_header_payload_size sequence_id_checker.sequence_id_checker_impl)
    raw_samples.example_decoder raw_samples.example_decoder true 9.

(** A frame of the radio unit. *)
Definition unit_frame (eaxc seq : Z) (message : list Z) : list Z :=
  let frame := replicate 6 1 ++ replicate 6 2 ++ [0xae; 0xfe; 16; 0; (zlen message + 4) / 256; (zlen message + 4) mod 256; 0; eaxc; seq; 128] ++ message in
  frame ++ replicate (64 - length frame) 0.
Definition data_frame (seq : Z) : list Z := unit_frame 3 seq flow_examples.example_message.
Definition preamble_frame (seq : Z) : list Z := unit_frame 4 seq (prach_examples.short_message 0 12).
Definition foreign_frame : list Z := replicate 100 255.

Definition initial : state :=
  mk_state sequence_id_checker.init rx_window_checker.example_checker (uplink_context_repository.create lent_pool 5) (uplink_cplane_context_repository.create 5)
    [prach_buffer.create 1 1 1 1 139] (prach_context_repository.create 5) [] [] [].
Definition promised : rx_spec := mk_rx_spec sequence_id_checker.init rx_window_checker.example_checker flow_examples.promised prach_examples.prach_promised [].

(** The symbol at which the window of symbol [k] of the slot closes. *)
Definition closes (k : Z) : slot_symbol_point.t := slot_symbol_point.mk 14 1 (10275 * 14 + k + 10).

(** The data of symbol 0 and the preamble arrive, each twice, and a foreign frame; symbol 1 is
    lost. *)
Definition request : rx_event := SlotRequested true example_context 0 0 2.
Definition session : list rx_event :=
  [CommandSent example_slot 3 flow_examples.example_command; OccasionRequested prach_examples.short_occasion 0; CommandSent example_slot 4 prach_examples.short_command;
   Arrival true (data_frame 7); Arrival true foreign_frame; Arrival true (preamble_frame 1); RunTask 0 true; NewSymbol true (closes 0); RunTask 2 true; RunTask 1 true; RunTask 0 true;
   Arrival false (data_frame 8); Arrival true (data_frame 9); Arrival true (data_frame 6); RunTask 1 true; RunTask 0 true; NewSymbol true (closes 1)].

Lemma rx_cfg_ok : rx_config_ok cfg 5 5.
Proof. repeat split; try (repeat constructor); vm_compute; first [reflexivity|discriminate]. Qed.

Lemma rx_initial_realizes : rx_realizes cfg 1 2 12 5 5 5 prach_examples.buffer_dims initial [Some 0] promised.
Proof.
  constructor; [reflexivity| |reflexivity| | |reflexivity|constructor].
  - split; [reflexivity|]. split; [reflexivity|]. repeat constructor; vm_compute; discriminate.
  - exact (flow_examples.initial_realizes [3] [3; 4]).
  - exact prach_examples.prach_initial_realizes.
Qed.

Abbreviation event_ok := (rx_event_ok cfg 2 12 prach_examples.buffer_dims [Some 0]).

Lemma arrival_ok accept frame : forallb (λ b, (0 <=? b) && (b <? 256)) frame = true → zlen frame < 2 ^ 32 → event_ok (Arrival accept frame).
Proof. intros Hb Hl. split; [|done]. apply Forall_forall. intros b Hin. rewrite forallb_forall in Hb. specialize (Hb b). rewrite <- list_elem_of_In in Hb. specialize (Hb Hin). apply andb_prop in Hb as [H1%Z.leb_le H2%Z.ltb_lt]. unfold_fits. lia. Qed.

Lemma closes_ok accept k : 0 <= k < 28 → event_ok (NewSymbol accept (closes k)).
Proof. intros Hk. split; [|done]. change (0 < 14 < 16 ∧ 0 <= 1 < 5 ∧ 0 <= 10275 * 14 + k + 10 < 286720). lia. Qed.

Lemma reception_ok : Forall event_ok (request :: session).
Proof.
  pose proof flow_examples.events_ok as HF. inversion_clear HF as [|? ? HR HF']. inversion_clear HF' as [|? ? HCm _].
  unfold session. constructor; [exact HR|]. constructor; [exact HCm|]. constructor; [exact prach_examples.short_occasion_ok|].
  constructor; [split; [slot_point.solve_wf|split; [done|]]; intros (_ & HP & _); vm_compute in HP; discriminate HP|].
  repeat (constructor; [first [apply arrival_ok; vm_compute; reflexivity|apply closes_ok; lia|exact I]|]). constructor.
Qed.

Definition the_occasion : prach_context.info := prach_context.mk_info prach_examples.short_occasion (Some 0%nat).

Lemma receiver_refines_witness :
  ∃ st', rx_run cfg initial (request :: session) = Ok st' ∧ symbols_notified st' = [the_notification 0 example_context 0] ∧ prach_notified st' = [the_occasion].
Proof.
  pose proof (receiver_refines cfg 1 2 12 5 5 5 prach_examples.buffer_dims rx_cfg_ok (request :: session) initial [Some 0] promised rx_initial_realizes reception_ok) as HT.
  assert (HX : match spec_rx_run cfg 1 12 5 5 5 prach_examples.buffer_dims promised (request :: session) with Ok s => (told (sp_data s), prach_told (sp_prach s)) | Fault _ => ([], []) end =
    ([the_notification 0 example_context 0], [the_occasion])) by (vm_compute; reflexivity).
  destruct (spec_rx_run cfg 1 12 5 5 5 prach_examples.buffer_dims promised (request :: session)) as [s'|f]; [|discriminate HX].
  destruct HT as (st' & HE & _ & HS & HP); [vm_compute; reflexivity|]. injection HX as H1 H2. exists st'. split; [exact HE|]. rewrite HS, HP. split; [exact H1|exact H2].
Defined.

(** The lost symbol 1 is told when its window closes. *)
Lemma symbol_answered_witness :
  ∃ st1 st' new, rx_run cfg initial (request :: session) = Ok st1 ∧ rx_step cfg st1 (RunTask 0 true) = Ok st' ∧ symbols_notified st' = [] ++ new ∧
    told_at 5 (index_of 5 example_slot) 1 new = [the_notification 1 example_context 0].
Proof.
  assert (HX : match rx_run cfg initial (request :: session) with Ok st => pending st !! 0%nat | Fault _ => None end = Some (ClosedTask (flow_examples.example_closed 1))) by (vm_compute; reflexivity).
  destruct (rx_run cfg initial (request :: session)) as [st1|f] eqn:HE; [|discriminate HX].
  destruct (symbol_answered cfg 1 2 12 5 5 5 prach_examples.buffer_dims rx_cfg_ok session initial [Some 0] promised st1 true example_context 0 0 2 0%nat true (flow_examples.example_closed 1) example_slot 1%nat
    rx_initial_realizes reception_ok) as (st' & new & HS & HN & HT).
  - vm_compute. reflexivity.
  - exact HE.
  - exact HX.
  - vm_compute. reflexivity.
  - vm_compute. reflexivity.
  - split; vm_compute; congruence.
  - reflexivity.
  - repeat constructor.
  - exists st1, st', new. split; [reflexivity|]. split; [exact HS|]. split; [exact HN|exact HT].
Defined.

(** Part of the preamble arrives: it is told when the slot is over. *)
Definition preamble_session : list rx_event :=
  [CommandSent example_slot 4 prach_examples.short_command; Arrival true (unit_frame 4 1 (prach_examples.short_message 0 7)); RunTask 0 true; NewSymbol true (closes 14)].

Lemma preamble_session_ok : Forall event_ok (OccasionRequested prach_examples.short_occasion 0 :: preamble_session).
Proof.
  unfold preamble_session. constructor; [exact prach_examples.short_occasion_ok|].
  constructor; [split; [slot_point.solve_wf|split; [done|]]; intros (_ & HP & _); vm_compute in HP; discriminate HP|].
  repeat (constructor; [first [apply arrival_ok; vm_compute; reflexivity|apply closes_ok; lia|exact I]|]). constructor.
Qed.

Lemma occasion_answered_witness :
  ∃ st1 st' new, rx_run cfg initial (OccasionRequested prach_examples.short_occasion 0 :: preamble_session) = Ok st1 ∧ rx_step cfg st1 (RunTask 0 true) = Ok st' ∧
    prach_notified st' = [] ++ new ∧ told_for 5 (index_of 5 example_slot) new = [the_occasion].
Proof.
  assert (HX : match rx_run cfg initial (OccasionRequested prach_examples.short_occasion 0 :: preamble_session) with Ok st => pending st !! 0%nat | Fault _ => None end = Some (ClosedTask (prach_examples.next_slot 0))) by (vm_compute; reflexivity).
  destruct (rx_run cfg initial (OccasionRequested prach_examples.short_occasion 0 :: preamble_session)) as [st1|f] eqn:HE; [|discriminate HX].
  destruct (occasion_answered cfg 1 2 12 5 5 5 prach_examples.buffer_dims rx_cfg_ok preamble_session initial [Some 0] promised st1 prach_examples.short_occasion 0%nat 0%nat true (prach_examples.next_slot 0)
    example_slot (slot_point.mk 1 10276) (slot_point.mk 1 10275) rx_initial_realizes preamble_session_ok) as (st' & new & HS & HN & HT).
  - vm_compute. reflexivity.
  - exact HE.
  - exact HX.
  - vm_compute. reflexivity.
  - vm_compute. reflexivity.
  - vm_compute. reflexivity.
  - vm_compute. reflexivity.
  - vm_compute. reflexivity.
  - repeat constructor.
  - exists st1, st', new. split; [reflexivity|]. split; [exact HS|]. split; [exact HN|exact HT].
Defined.
End reception_examples.
