(* ===== verification/SchedulingFlow.v ===== *)
(** * SchedulingFlow: Control-Plane commands into the frame pool

    Models lib/ofh/transmitter/ofh_data_flow_cplane_scheduling_commands_impl.cpp: a command
    for the radio unit (section type 1 for data, type 3 for PRACH) becomes an eCPRI packet in
    an Ethernet frame of the pool, and a command for the uplink is registered in the repository
    the receiver asks what it expects. *)

From S2P Require Import Prelude Float SlotPoint OfhBase OfhCplane OfhUplane Ecpri Ethernet FramePool TxSupport Tdd Prach UplinkContext DownlinkFlow.

(** ** [data_flow_cplane_scheduling_commands_impl] *)
Module cplane_flow.
Import cplane.

Record type_1_context : Type := mk_context1 {
  c1_slot : slot_point.t; c1_eaxc : Z; c1_filter_type : filter_index_type; c1_direction : data_direction; c1_symbol_range : ofdm_symbol_range }.

Record prach_context : Type := mk_prach {
  cp_slot : slot_point.t; cp_eaxc : Z; cp_filter_type : filter_index_type; cp_start_symbol : Z; cp_nof_repetitions : Z;
  cp_scs : subcarrier_spacing; cp_prach_scs : prach_subcarrier_spacing; cp_prach_start_re : Z; cp_prach_nof_rb : Z; cp_time_offset : Z }.

Record config : Type := mk_config {
  nof_symbols_per_slot : Z; ru_nof_prbs : Z; dl_compr_params : ru_compression_params; ul_compr_params : ru_compression_params;
  prach_compr_params : ru_compression_params; mode : compression_mode; eth_builder : frame_builder.t }.

(** The counters of the two directions, the repository of the uplink commands and the pool
    of frames, the last two shared with other parts. *)
Record state : Type := mk_state {
  cp_dl_seq_gen : list Z; cp_ul_seq_gen : list Z;
  ul_cplane_context_repo : uplink_cplane_context_repository.t; frame_pool : eth_frame_pool.t }.

Definition init_radio_app_header_parameters (slot : slot_point.t) (start_symbol : Z) (direction : data_direction) (filter_type : filter_index_type)
    : cplane_radio_application_header := mk_header direction filter_type (wrap 8 start_symbol) slot.

Definition init_common_section_0_1_3_5_fields (nof_prb nof_symbols : Z) : cplane_common_section_0_1_3_5_fields :=
  mk_common 0 0 nof_prb 0xfff (wrap 8 nof_symbols).

Definition generate_section1_control_parameters (context : type_1_context) (nof_prb : Z) (comp : ru_compression_params) : cplane_section_type1_parameters :=
  mk_type1 (init_radio_app_header_parameters (c1_slot context) (range_start (c1_symbol_range context)) (c1_direction context) (c1_filter_type context))
    (init_common_section_0_1_3_5_fields nof_prb (range_length (c1_symbol_range context))) comp.

Definition cplane_convert_scs (scs : prach_subcarrier_spacing) : result cplane_scs :=
  match scs with
  | ra_kHz1_25 => Ok cp_kHz1_25
  | ra_kHz5 => Ok cp_kHz5
  | ra_kHz15 => Ok cp_kHz15 | ra_kHz30 => Ok cp_kHz30 | ra_kHz60 => Ok cp_kHz60 | ra_kHz120 => Ok cp_kHz120
  | ra_invalid => Fault AssertFailed
  end.

(** The offset of the first subcarrier from the centre of the bandwidth, in half subcarrier
    spacings, computed in double precision. *)
Definition frequency_offset (context : prach_context) (ru_nof_prb : Z) : result Z :=
  ra_scs ← ra_scs_to_Hz (cp_prach_scs context);
  khz ← scs_to_khz (cp_scs context);
  let offset_to_prach_Hz := f64_of_Z (wrap 32 (cp_prach_start_re context * ra_scs)) in
  let total_bw_Hz := f64_of_Z (wrap 64 (wrap 32 (wrap 32 (1000 * khz) * ru_nof_prb) * NOF_SUBCARRIERS_PER_RB)) in
  let freq_offset_Hz := SFopp (f64_sub (f64_div total_bw_Hz (f64_of_Z 2)) offset_to_prach_Hz) in
  to_int32 (f64_div freq_offset_Hz (f64_of_Z (ra_scs / 2))).

Definition generate_prach_control_parameters (context : prach_context) (comp : ru_compression_params) (ru_nof_prb : Z) : result cplane_section_type3_parameters :=
  scs ← cplane_convert_scs (cp_prach_scs context);
  freq_offset ← frequency_offset context ru_nof_prb;
  Ok (mk_type3 (init_radio_app_header_parameters (cp_slot context) (cp_start_symbol context) uplink (cp_filter_type context))
        (init_common_section_0_1_3_5_fields (cp_prach_nof_rb context) (cp_nof_repetitions context))
        freq_offset comp scs fft_4096 0 (wrap 16 (cp_time_offset context))).

Definition generate_ecpri_control_parameters (seq_id eaxc : Z) : ecpri.realtime_control_parameters :=
  ecpri.mk_rt (wrap 16 eaxc) (wrap 16 (Z.lor (wrap 16 (Z.lor 0 (Z.land seq_id 0x00ff ≪ 8))) (1 ≪ 7))).

Section flow.
Context (cfg : config).

(** The counter of the direction. *)
Definition generate (st : state) (direction : data_direction) (eaxc : Z) : result (state * Z) :=
  match direction with
  | downlink =>
      '(g, seq) ← sequence_identifier_generator.generate (cp_dl_seq_gen st) eaxc;
      Ok (mk_state g (cp_ul_seq_gen st) (ul_cplane_context_repo st) (frame_pool st), seq)
  | uplink =>
      '(g, seq) ← sequence_identifier_generator.generate (cp_ul_seq_gen st) eaxc;
      Ok (mk_state (cp_dl_seq_gen st) g (ul_cplane_context_repo st) (frame_pool st), seq)
  end.
Definition with_pool (st : state) (pool : eth_frame_pool.t) : state := mk_state (cp_dl_seq_gen st) (cp_ul_seq_gen st) (ul_cplane_context_repo st) pool.
Definition with_repo (st : state) (r : uplink_cplane_context_repository.t) : state := mk_state (cp_dl_seq_gen st) (cp_ul_seq_gen st) r (frame_pool st).

(** The statements both functions share, from the reservation of a frame on: the message is
    built, [register]ed, and put into an eCPRI packet and an Ethernet frame. *)
Definition enqueue_message (symbol_point : slot_symbol_point.t) (direction : data_direction) (eaxc : Z)
    (build_message : list Z → result (Z * list Z)) (register : uplink_cplane_context_repository.t → result uplink_cplane_context_repository.t) (st : state)
    : result state :=
  '(pool, scoped_buffer) ← scoped_frame_buffer.create (frame_pool st) symbol_point control_plane direction;
  if scoped_frame_buffer.empty scoped_buffer then Ok (with_pool st pool) else
  i ← scoped_frame_buffer.get_next_frame pool scoped_buffer;
  frame ← scoped_frame_buffer.read_frame pool scoped_buffer i;
  let buffer := frame_buffer.buffer frame in
  let ecpri_hdr_size := ecpri.get_header_size ecpri.rt_control_data in
  let offset := frame_builder.get_header_size (eth_builder cfg) + ecpri_hdr_size in
  ofh_buffer ← span_last buffer (wrap 64 (zlen buffer - offset));
  '(bytes_written, ofh_buffer) ← build_message ofh_buffer;
  let buffer := take (Z.to_nat offset) buffer ++ ofh_buffer in
  repo ← register (ul_cplane_context_repo st);
  '(st, seq_id) ← generate (with_repo st repo) direction eaxc;
  '(size, buffer) ← add_headers (eth_builder cfg) ecpri_hdr_size bytes_written
    (λ b, ecpri.build_control_packet b (generate_ecpri_control_parameters seq_id eaxc)) buffer;
  pool ← scoped_frame_buffer.update_frame pool scoped_buffer i
    (λ b, frame_buffer.set_size (frame_buffer.mk (frame_buffer.sz b) (frame_buffer.status b) buffer) size);
  pool ← scoped_frame_buffer.destroy pool scoped_buffer;
  Ok (with_pool st pool).

Definition expected_context (hdr : cplane_radio_application_header) (section : cplane_common_section_0_1_3_5_fields) : uplink_cplane_context_repository.ul_cplane_context :=
  uplink_cplane_context_repository.mk_cplane hdr (prb_start section) (nof_prb section) (nof_symbols section).

Definition enqueue_section_type_1_message (context : type_1_context) (st : state) : result state :=
  symbol_point ← slot_symbol_point.of_slot (c1_slot context) 0 (nof_symbols_per_slot cfg);
  let direction := c1_direction context in
  let params := generate_section1_control_parameters context (ru_nof_prbs cfg) (if decide (direction = downlink) then dl_compr_params cfg else ul_compr_params cfg) in
  enqueue_message symbol_point direction (c1_eaxc context)
    (λ b, build_dl_ul_radio_channel_message (mode cfg) b params)
    (λ r, match direction with
          | uplink => uplink_cplane_context_repository.add r (c1_slot context) (c1_eaxc context) (expected_context (t1_radio_hdr params) (t1_section_fields params))
          | downlink => Ok r
          end) st.

(** The parameters are generated after the frame was reserved; they are the same whether or
    not it could be. *)
Definition enqueue_section_type_3_prach_message (context : prach_context) (st : state) : result state :=
  symbol_point ← slot_symbol_point.of_slot (cp_slot context) (cp_start_symbol context) (nof_symbols_per_slot cfg);
  enqueue_message symbol_point uplink (cp_eaxc context)
    (λ b, params ← generate_prach_control_parameters context (prach_compr_params cfg) (ru_nof_prbs cfg); build_prach_mixed_numerology_message (mode cfg) b params)
    (λ r, params ← generate_prach_control_parameters context (prach_compr_params cfg) (ru_nof_prbs cfg);
          uplink_cplane_context_repository.add r (cp_slot context) (cp_eaxc context) (expected_context (t3_radio_hdr params) (t3_section_fields params))) st.

End flow.
End cplane_flow.

(** ** What a command does on the rings *)
Section commands.
Import cplane cplane_flow.
Context (cfg : config) (Q : nat) (mtu : Z).

Abbreviation rings := (nat → nat → ring).

Definition control_context (p : slot_symbol_point.t) (direction : data_direction) : frame_pool_context := mk_pool_context (mk_type control_plane direction) p.
Definition control_kind (direction : data_direction) : nat := match direction with downlink => 0 | uplink => 1 end.

Definition control_frame (eaxc seq : Z) (message : list Z) : list Z :=
  frame_builder.octets (eth_builder cfg) ++ ecpri.header_octets ecpri.rt_control_data (zlen message + 4) (wrap 16 eaxc) (256 * seq + 128) ++ message.

(** The counters, the repository and the rings. *)
Record command_state : Type := mk_commands { k_dl : list Z; k_ul : list Z; k_repo : uplink_cplane_context_repository.t; k_rings : rings }.

Definition counter (direction : data_direction) (st : command_state) : list Z := match direction with downlink => k_dl st | uplink => k_ul st end.

Definition spec_command (p : slot_symbol_point.t) (direction : data_direction) (eaxc : Z) (message : list Z)
    (repo' : uplink_cplane_context_repository.t) (st : command_state) : result command_state :=
  let i := place p in let k := control_kind direction in
  r ← ring_send (k_rings st i k) p [padded (control_frame eaxc (sequence_identifier_generator.next (counter direction st) eaxc) message)];
  match r with
  | None => Ok st
  | Some g =>
      Ok (mk_commands (match direction with downlink => sequence_identifier_generator.advance (k_dl st) eaxc 1 | uplink => k_dl st end)
                      (match direction with uplink => sequence_identifier_generator.advance (k_ul st) eaxc 1 | downlink => k_ul st end)
                      repo' (upd i k g (k_rings st)))
  end.

(** The flow and its abstract state. *)
Definition commands_implement (st : state) (s : command_state) : Prop :=
  pool_implements Q mtu (frame_pool st) (k_rings s) ∧ cp_dl_seq_gen st = k_dl s ∧ cp_ul_seq_gen st = k_ul s ∧ ul_cplane_context_repo st = k_repo s ∧
  sequence_identifier_generator.wf (k_dl s) ∧ sequence_identifier_generator.wf (k_ul s).

Definition control_ok : Prop :=
  frame_builder.wf (eth_builder cfg) ∧ MIN_ETH_FRAME_LENGTH <= mtu <= MAX_ETH_FRAME_LENGTH.

Lemma generate_state st s direction eaxc repo : commands_implement st s → 0 <= eaxc < 32 →
  ∃ st', generate (with_repo st repo) direction eaxc = Ok (st', sequence_identifier_generator.next (counter direction s) eaxc) ∧
    u8 (sequence_identifier_generator.next (counter direction s) eaxc) ∧
    ∀ pool G, pool_implements Q mtu pool G → commands_implement (with_pool st' pool)
      (mk_commands (match direction with downlink => sequence_identifier_generator.advance (k_dl s) eaxc 1 | uplink => k_dl s end)
                   (match direction with uplink => sequence_identifier_generator.advance (k_ul s) eaxc 1 | downlink => k_ul s end) repo G).
Proof.
  intros (HP & Hd & Hu & Hr & Hwd & Hwu) He. unfold generate, with_repo, counter. cbn [cp_dl_seq_gen cp_ul_seq_gen]. rewrite Hd, Hu.
  destruct direction.
  - destruct (sequence_identifier_generator.generate_spec (k_ul s) eaxc Hwu He) as (-> & H8 & Hw'). cbn [mbind result_bind]. eexists. split; [done|]. split; [done|]. intros pool G HG. repeat (split; [done|]). done.
  - destruct (sequence_identifier_generator.generate_spec (k_dl s) eaxc Hwd He) as (-> & H8 & Hw'). cbn [mbind result_bind]. eexists. split; [done|]. split; [done|]. intros pool G HG. repeat (split; [done|]). done.
Qed.

Lemma enqueue_message_spec p direction eaxc message build register repo' st s :
  control_ok → commands_implement st s → slot_symbol_point.wf p → 0 <= eaxc < 32 → room Q (k_rings s) 1 → 0 <= zlen message <= 38 →
  (∀ b, 38 <= zlen b → build b = Ok (zlen message, message ++ drop (length message) b)) → register (k_repo s) = Ok repo' →
  match spec_command p direction eaxc message repo' s with
  | Ok s' => ∃ st', enqueue_message cfg p direction eaxc build register st = Ok st' ∧ commands_implement st' s'
  | Fault f => enqueue_message cfg p direction eaxc build register st = Fault f
  end.
Proof.
  intros [Heth Hm] HI Hwp He Hroom Hmsg HB HReg. pose proof HI as (HP & Hd & Hu & Hr & Hwd & Hwu). unfold MIN_ETH_FRAME_LENGTH, MAX_ETH_FRAME_LENGTH in Hm.
  set (ctx := control_context p direction). set (g := k_rings s (place p) (control_kind direction)).
  assert (Hkind : kind (pc_type ctx) = control_kind direction) by (by destruct direction). assert (Hq : quant Q (control_kind direction) = 1%nat) by (by destruct direction).
  unfold enqueue_message, spec_command. fold g. destruct (scoped_lend Q mtu (frame_pool st) (k_rings s) ctx HP) as (pool1 & HC & HL).
  { split; [split; [done|exact Hwp]|]. rewrite Hkind, Hq. specialize (Hroom (place p) (control_kind direction)). rewrite Hq in Hroom. cbn [ctx control_context pc_symbol_point]. lia. }
  rewrite Hkind in HC, HL. cbn [ctx control_context pc_symbol_point pc_type type FramePool.direction] in HC, HL. fold g ctx in HC, HL. rewrite HC. cbn [mbind result_bind].
  destruct (ring_reserve g).2 as [w|] eqn:Hres; cbn [option_map scoped_frame_buffer.empty scoped_frame_buffer.frames].
  2: { assert (HSN : ∀ fr, ring_send g p fr = Ok None) by (intros fr; unfold ring_send; destruct (ring_reserve g) as [g1 o]; cbn in Hres; by subst o). rewrite HSN. cbn [mbind result_bind].
       eexists. split; [done|]. repeat (split; [done|]). done. }
  assert (Hsc : scoped_frame_buffer.mk_scoped ctx (Some (Z.of_nat (w * quant Q (control_kind direction)))) = scope Q ctx w) by (unfold scope; by rewrite Hkind).
  rewrite Hsc. destruct (lending_fill Q mtu pool1 (k_rings s) ctx w [] HL) as (i & b & HN & HRd & Hbz & HU); [rewrite Hkind, Hq; cbn; lia|unfold MIN_ETH_FRAME_LENGTH; lia|].
  rewrite HN. cbn [mbind result_bind]. rewrite HRd. cbn [mbind result_bind]. change (ecpri.get_header_size ecpri.rt_control_data) with 8.
  destruct (frame_builder.zlen_octets _ Heth) as [Ho Hor]. set (h := frame_builder.get_header_size (eth_builder cfg)) in *. rewrite Hbz, (wrap_small 64) by lia_fits.
  assert (HSL : span_last (frame_buffer.buffer b) (mtu - (h + 8)) = Ok (drop (Z.to_nat (h + 8)) (frame_buffer.buffer b))).
  { unfold span_last, subspan. rewrite Hbz. do 3 pass_assume. f_equal. replace (mtu - (mtu - (h + 8))) with (h + 8) by lia. apply take_ge. rewrite length_drop. unfold zlen in *. lia. }
  rewrite HSL. cbn [mbind result_bind]. rewrite HB by (unfold zlen in *; rewrite length_drop; lia). cbn [mbind result_bind]. rewrite Hr, HReg. cbn [mbind result_bind].
  destruct (generate_state st s direction eaxc repo' HI He) as (st2 & -> & H8 & HI2). cbn [mbind result_bind]. set (seq := sequence_identifier_generator.next (counter direction s) eaxc) in *.
  destruct (seq_field seq H8) as [HSq HSu]. set (hd := ecpri.header_octets ecpri.rt_control_data (zlen message + 4) (wrap 16 eaxc) (256 * seq + 128)).
  rewrite (add_headers_spec _ hd); [|done|unfold zlen in *; rewrite length_take; lia|unfold hd, zlen; by rewrite ecpri.length_header_octets|lia|].
  2: { intros bb Hzb. unfold ecpri.build_control_packet, generate_ecpri_control_parameters. cbn [ecpri.rtc_id ecpri.rt_seq_id]. rewrite HSq. rewrite ecpri.build_packet_spec by lia. rewrite Hzb. do 2 f_equal. unfold hd. f_equal. lia. }
  cbn [mbind result_bind]. set (frame := frame_builder.octets (eth_builder cfg) ++ hd ++ message).
  assert (Hzf : zlen frame = h + 8 + zlen message) by (unfold frame, hd; rewrite !zlen_app, Ho; unfold zlen at 1; rewrite ecpri.length_header_octets; lia).
  destruct (HU (frame ++ drop (length message) (drop (Z.to_nat (h + 8)) (frame_buffer.buffer b))) (zlen frame)) as (pool2 & HUp & HL2);
    [rewrite zlen_app, drop_drop; unfold zlen in *; rewrite length_drop; lia|lia|unfold MAX_ETH_FRAME_LENGTH; lia|].
  rewrite HUp. cbn [mbind result_bind app] in *. rewrite framed_padded in HL2. change frame with (control_frame eaxc seq message) in HL2.
  pose proof (lending_push Q mtu pool2 (k_rings s) ctx w _ HL2) as HPush. rewrite Hkind in HPush. cbn [ctx control_context pc_symbol_point] in HPush. fold g ctx in HPush. specialize (HPush Hres).
  destruct (ring_send g p _) as [[g'|]|f]; cbn [mbind result_bind]; [|done|by rewrite HPush]. destruct HPush as (pool3 & -> & HP3). cbn [mbind result_bind]. eexists. split; [done|]. by apply HI2.
Qed.

(** ** The repository of the uplink commands *)
Context (repo_size : Z).

Definition repo_ok (r : uplink_cplane_context_repository.t) : Prop :=
  0 < repo_size ∧ zlen r = repo_size ∧ Forall (λ row, length row = Z.to_nat MAX_SUPPORTED_EAXC_ID_VALUE) r.

Definition registered (slot : slot_point.t) (eaxc : Z) (x : uplink_cplane_context_repository.ul_cplane_context)
    (r : uplink_cplane_context_repository.t) : uplink_cplane_context_repository.t :=
  alter (λ row, <[Z.to_nat eaxc := x]> row) (index_of repo_size slot) r.

Lemma repo_entry r slot eaxc : repo_ok r → slot_point.wf slot → 0 <= eaxc < 32 →
  ∃ x, uplink_cplane_context_repository.entry r slot eaxc = Ok (Z.of_nat (index_of repo_size slot), x) ∧ r !! index_of repo_size slot ≫= (.!! Z.to_nat eaxc) = Some x.
Proof.
  intros (H0 & Hz & HF) Hslot He. unfold uplink_cplane_context_repository.entry. rewrite Hz, entry_index_spec by done. cbn [mbind result_bind].
  pose proof (index_of_bound repo_size H0 slot). destruct (lookup_lt_is_Some_2 r (index_of repo_size slot)) as [row Hrow]; [unfold zlen in Hz; lia|].
  rewrite Forall_lookup in HF. pose proof (HF _ _ Hrow) as HL. cbn beta in HL. change (Z.to_nat MAX_SUPPORTED_EAXC_ID_VALUE) with 32%nat in HL.
  destruct (lookup_lt_is_Some_2 row (Z.to_nat eaxc)) as [x Hx]; [lia|].
  exists x. unfold vec_at. rewrite !(proj2 (Z.leb_le 0 _)) by lia. rewrite Nat2Z.id, Hrow. cbn [mbind result_bind]. by rewrite Hx.
Qed.

Lemma repo_add r slot eaxc x : repo_ok r → slot_point.wf slot → 0 <= eaxc < 32 →
  uplink_cplane_context_repository.add r slot eaxc x = Ok (registered slot eaxc x r) ∧ repo_ok (registered slot eaxc x r).
Proof.
  intros HR Hslot He. destruct (repo_entry r slot eaxc HR Hslot He) as (y & HE & _). destruct HR as (H0 & Hz & HF).
  unfold uplink_cplane_context_repository.add. rewrite HE. cbn [mbind result_bind]. rewrite Nat2Z.id. split; [done|].
  split; [done|]. unfold registered. split; [unfold zlen in *; by rewrite length_alter|]. apply Forall_alter; [done|]. intros row _ Hl. by rewrite length_insert.
Qed.

(** The repository answers with the command just registered, and for the other eAxCs and
    places as before. *)
Lemma repo_get r slot eaxc x symbol filter : repo_ok r → slot_point.wf slot → 0 <= eaxc < 32 →
  uplink_cplane_context_repository.get (registered slot eaxc x r) slot symbol filter eaxc =
    Ok (if (start_symbol (uplink_cplane_context_repository.radio_hdr x) <=? symbol) &&
           (symbol <? start_symbol (uplink_cplane_context_repository.radio_hdr x) + uplink_cplane_context_repository.nof_symbols x) &&
           bool_decide (filter = filter_index (uplink_cplane_context_repository.radio_hdr x)) then Some x else None).
Proof.
  intros HR Hslot He. destruct (repo_entry _ slot eaxc HR Hslot He) as (x0 & _ & HX0). destruct (repo_add r slot eaxc x HR Hslot He) as [_ HR'].
  destruct (repo_entry _ slot eaxc HR' Hslot He) as (y & HE & HY). unfold uplink_cplane_context_repository.get. rewrite HE. cbn [mbind result_bind].
  assert (y = x) as ->; [|by case_match].
  unfold registered in HY. rewrite list_lookup_alter_eq in HY. destruct (r !! _) as [row|]; [|done]. cbn in HX0, HY. apply lookup_lt_Some in HX0.
  rewrite list_lookup_insert_eq in HY by done. by injection HY.
Qed.

(** ** The commands *)
Inductive command : Type := DataCommand (c : type_1_context) | PrachCommand (c : prach_context).

Definition exec_command (c : command) (st : state) : result state :=
  match c with DataCommand x => enqueue_section_type_1_message cfg x st | PrachCommand x => enqueue_section_type_3_prach_message cfg x st end.

(** What a command is to send: when, to whom, which octets, and what is then expected. *)
Record order : Type := mk_order {
  o_slot : slot_point.t; o_symbol : Z; o_direction : data_direction; o_eaxc : Z; o_message : list Z;
  o_hdr : cplane_radio_application_header; o_section : cplane_common_section_0_1_3_5_fields }.

Definition data_params (x : type_1_context) : cplane_section_type1_parameters :=
  generate_section1_control_parameters x (ru_nof_prbs cfg) (match c1_direction x with downlink => dl_compr_params cfg | uplink => ul_compr_params cfg end).

Definition order_of (c : command) : result order :=
  match c with
  | DataCommand x => let p := data_params x in Ok (mk_order (c1_slot x) 0 (c1_direction x) (c1_eaxc x) (type1_bytes (mode cfg) p) (t1_radio_hdr p) (t1_section_fields p))
  | PrachCommand x =>
      p ← generate_prach_control_parameters x (prach_compr_params cfg) (ru_nof_prbs cfg);
      Ok (mk_order (cp_slot x) (cp_start_symbol x) uplink (cp_eaxc x) (type3_bytes (mode cfg) p) (t3_radio_hdr p) (t3_section_fields p))
  end.

Definition order_point (o : order) : slot_symbol_point.t :=
  slot_symbol_point.mk (nof_symbols_per_slot cfg) (slot_point.numerology_val (o_slot o)) (slot_point.count_val (o_slot o) * nof_symbols_per_slot cfg + o_symbol o).
Definition order_expected (o : order) : uplink_cplane_context_repository.ul_cplane_context := expected_context (o_hdr o) (o_section o).

Definition spec_order (o : order) (s : command_state) : result command_state :=
  spec_command (order_point o) (o_direction o) (o_eaxc o) (o_message o)
    (match o_direction o with uplink => registered (o_slot o) (o_eaxc o) (order_expected o) (k_repo s) | downlink => k_repo s end) s.

Definition order_ok (o : order) : Prop := slot_point.wf (o_slot o) ∧ 0 <= o_symbol o < nof_symbols_per_slot cfg ∧ 0 <= o_eaxc o < 32.

(** The arguments of the flow are in range, and the frequency offset is representable. *)
Definition command_config_ok : Prop :=
  control_ok ∧ 0 < nof_symbols_per_slot cfg < 16 ∧ 0 <= data_width (dl_compr_params cfg) <= 16 ∧ 0 <= data_width (ul_compr_params cfg) <= 16 ∧
  0 <= data_width (prach_compr_params cfg) <= 16.

Lemma control_message_size c o : order_of c = Ok o → 0 <= zlen (o_message o) <= 38.
Proof.
  destruct c as [x|x]; cbn [order_of]; [intros [= <-]; cbn [o_message]; by rewrite zlen_type1|].
  destruct (generate_prach_control_parameters _ _ _) as [p|f]; [|done]. cbn [mbind result_bind]. intros [= <-]. cbn [o_message].
  unfold type3_bytes. rewrite !zlen_app, !zlen_be_bytes. done.
Qed.

Lemma exec_command_spec c o st s : command_config_ok → commands_implement st s → repo_ok (k_repo s) → room Q (k_rings s) 1 → order_of c = Ok o → order_ok o →
  match spec_order o s with
  | Ok s' => ∃ st', exec_command c st = Ok st' ∧ commands_implement st' s'
  | Fault f => exec_command c st = Fault f
  end.
Proof.
  intros (HC & Hn & Hwd & Hwu & Hwp) HI HR Hroom Ho (Hslot & Hsym & He). pose proof (control_message_size c o Ho) as Hsz.
  destruct (slot_symbol_point.symbol_of_slot_spec (o_slot o) (o_symbol o) _ Hslot Hn Hsym) as (HPt & Hwpt & _).
  destruct (repo_add (k_repo s) (o_slot o) (o_eaxc o) (order_expected o) HR Hslot He) as [HA _]. unfold spec_order.
  destruct c as [x|x]; cbn [order_of] in Ho; cbn [exec_command].
  - injection Ho as <-. cbn [o_slot o_symbol o_direction o_eaxc o_message] in *. unfold enqueue_section_type_1_message. rewrite HPt. cbn [mbind result_bind].
    assert (Hd : (if decide (c1_direction x = downlink) then dl_compr_params cfg else ul_compr_params cfg) = match c1_direction x with downlink => dl_compr_params cfg | uplink => ul_compr_params cfg end) by (by destruct (c1_direction x)).
    rewrite Hd. fold (data_params x). apply enqueue_message_spec; try done.
    + intros b Hb. rewrite type1_spec; [by rewrite zlen_type1| |lia]. cbn. by destruct (c1_direction x).
    + revert HA. unfold order_expected, data_params, generate_section1_control_parameters. cbn [o_hdr o_section t1_radio_hdr t1_section_fields]. by destruct (c1_direction x).
  - destruct (generate_prach_control_parameters _ _ _) as [p|f] eqn:Hp; [|done]. cbn [mbind result_bind] in Ho. injection Ho as <-.
    cbn [o_slot o_symbol o_direction o_eaxc o_message] in *. unfold enqueue_section_type_3_prach_message. rewrite HPt. cbn [mbind result_bind].
    apply enqueue_message_spec; try done; [|by rewrite Hp].
    intros b Hb. rewrite Hp. cbn [mbind result_bind]. rewrite type3_spec; [by unfold type3_bytes; rewrite !zlen_app, !zlen_be_bytes| |lia].
    revert Hp. unfold generate_prach_control_parameters. destruct (cplane_convert_scs _); [|done]. cbn [mbind result_bind]. destruct (frequency_offset _ _); [|done]. cbn [mbind result_bind]. by intros [= <-].
Qed.

Lemma spec_order_preserves o s s' m : order_ok o → repo_ok (k_repo s) → room Q (k_rings s) (m + 1) → 0 <= m → spec_order o s = Ok s' → repo_ok (k_repo s') ∧ room Q (k_rings s') m.
Proof.
  intros (Hslot & _ & He) HR Hroom Hm. destruct (repo_add (k_repo s) (o_slot o) (o_eaxc o) (order_expected o) HR Hslot He) as [_ HA].
  unfold spec_order, spec_command. destruct (ring_send _ _ _) as [[g|]|f] eqn:HS; cbn [mbind result_bind]; [|intros [= <-]|done].
  - intros [= <-]. cbn [k_repo k_rings]. split; [by destruct (o_direction o)|]. by eapply room_send.
  - split; [done|]. intros i k. specialize (Hroom i k). nia.
Qed.

Definition exec_commands (cs : list command) (st : state) : result state := fold_result (λ st c, exec_command c st) st cs.
Definition spec_orders (os : list order) (s : command_state) : result command_state := fold_result (λ s o, spec_order o s) s os.

Lemma exec_commands_spec cs os m st s :
  command_config_ok → Forall2 (λ c o, order_of c = Ok o ∧ order_ok o) cs os → commands_implement st s → repo_ok (k_repo s) → 0 <= m → room Q (k_rings s) (m + zlen cs) →
  match spec_orders os s with
  | Ok s' => ∃ st', exec_commands cs st = Ok st' ∧ commands_implement st' s' ∧ repo_ok (k_repo s') ∧ room Q (k_rings s') m
  | Fault f => exec_commands cs st = Fault f
  end.
Proof.
  intros HC HF. unfold spec_orders, exec_commands. revert st s. induction HF as [|c o cs os [Ho Hok] HF IH]; intros st s HI HR Hm Hroom; cbn [fold_result].
  { exists st. repeat (split; [done|]). change (zlen []) with 0 in Hroom. by rewrite Z.add_0_r in Hroom. }
  rewrite zlen_cons in Hroom. pose proof (zlen_nonneg cs). replace (m + (1 + zlen cs)) with (m + zlen cs + 1) in Hroom by lia.
  assert (H1 : room Q (k_rings s) 1) by (intros i k; specialize (Hroom i k); nia).
  pose proof (exec_command_spec c o st s HC HI HR H1 Ho Hok) as HE. destruct (spec_order o s) as [s1|f] eqn:HS; cbn [mbind result_bind]; [|by rewrite HE].
  destruct HE as (st1 & -> & HI1). cbn [mbind result_bind]. destruct (spec_order_preserves o s s1 (m + zlen cs) Hok HR Hroom) as [HR1 Hroom1]; [lia|done|]. by apply IH.
Qed.

(** C29: the Control-Plane flow refines queueing on the rings: for any sequence of data and
    PRACH commands with arguments in range, from any state of the pool, each command queues
    exactly one frame (Ethernet header, eCPRI header with the next sequence identifier of its
    direction and eAxC, message) for its symbol and, if it is for the uplink, registers what is
    to be expected; a command that finds no frame changes nothing, neither counter nor
    repository; where a queue is full the flow fails the assertion. *)
Theorem control_commands_refine cs os st s :
  command_config_ok → Forall2 (λ c o, order_of c = Ok o ∧ order_ok o) cs os → commands_implement st s → repo_ok (k_repo s) → room Q (k_rings s) (zlen cs) →
  match spec_orders os s with
  | Ok s' => ∃ st', exec_commands cs st = Ok st' ∧ commands_implement st' s' ∧ repo_ok (k_repo s')
  | Fault f => exec_commands cs st = Fault f
  end.
Proof.
  intros HC HF HI HR Hroom. pose proof (exec_commands_spec cs os 0 st s HC HF HI HR ltac:(lia) Hroom) as HX. destruct (spec_orders os s) as [s'|f]; [|done].
  destruct HX as (st' & HE & HI' & HR' & _). by exists st'.
Qed.

(** The fields a command asks to be sent: its header and section, and where in the message. *)
Definition command_header (c : command) : cplane_radio_application_header :=
  match c with
  | DataCommand x => mk_header (c1_direction x) (c1_filter_type x) (range_start (c1_symbol_range x)) (c1_slot x)
  | PrachCommand x => mk_header uplink (cp_filter_type x) (cp_start_symbol x) (cp_slot x)
  end.
Definition command_section (c : command) : cplane_common_section_0_1_3_5_fields :=
  match c with
  | DataCommand x => mk_common 0 0 (ru_nof_prbs cfg) 0xfff (range_stop (c1_symbol_range x) - range_start (c1_symbol_range x))
  | PrachCommand x => mk_common 0 0 (cp_prach_nof_rb x) 0xfff (cp_nof_repetitions x)
  end.
Definition section_at (c : command) : nat := match c with DataCommand _ => 8 | PrachCommand _ => 12 end.
Definition section_type (c : command) : Z := match c with DataCommand _ => 1 | PrachCommand _ => 3 end.
(** The 24 bits of the frequency offset of a PRACH command. *)
Definition offset_sent (c : command) (message : list Z) : Prop :=
  match c with
  | DataCommand _ => True
  | PrachCommand x => ∃ off, frequency_offset x (ru_nof_prbs cfg) = Ok off ∧ octet message 20 * 65536 + octet message 21 * 256 + octet message 22 = off mod 2 ^ 24
  end.

Lemma order_fields c o : order_of c = Ok o → header_ok (command_header c) → section_ok (command_section c) →
  o_hdr o = command_header c ∧ o_section o = command_section c ∧ o_slot o = slot (command_header c) ∧ o_direction o = direction (command_header c) ∧
  wire_header_of (o_message o) = header_fields (command_header c) ∧ octet (o_message o) 5 = section_type c ∧ wire_section_of (o_message o) (section_at c) = section_fields (command_section c) ∧
  offset_sent c (o_message o).
Proof.
  intros Ho Hh Hs. pose proof Hh as [_ Hst]. pose proof Hs as (_ & _ & Hn & _ & Hsy). destruct c as [x|x]; cbn [command_header command_section start_symbol nof_symbols nof_prb] in *.
  - injection Ho as <-. cbn [o_hdr o_section o_slot o_direction o_message]. unfold init_radio_app_header_parameters, init_common_section_0_1_3_5_fields, range_length.
    rewrite !(wrap_small 8) by (rewrite ?(wrap_small 32) by lia_fits; lia_fits). rewrite (wrap_small 32) by lia_fits. split; [done|]. split; [done|]. split; [done|]. split; [done|].
    assert (HP : data_params x = mk_type1 (command_header (DataCommand x)) (command_section (DataCommand x)) (match c1_direction x with downlink => dl_compr_params cfg | uplink => ul_compr_params cfg end)).
    { unfold data_params, generate_section1_control_parameters, init_radio_app_header_parameters, init_common_section_0_1_3_5_fields, range_length. rewrite (wrap_small 32) by lia_fits. by rewrite !(wrap_small 8) by lia_fits. }
    rewrite HP. unfold type1_bytes. cbn [t1_radio_hdr t1_section_fields t1_compr_params]. split; [by apply header_layout|]. split; [done|]. split; [|done].
    pose proof (section_layout (command_section (DataCommand x)) (header_bytes (command_header (DataCommand x)) 1 ++
       [compression_octet (mode cfg) (match c1_direction x with downlink => dl_compr_params cfg | uplink => ul_compr_params cfg end) (direction (command_header (DataCommand x)))] ++ [0]) ([0] ++ [0]) Hs) as HL.
    by rewrite <- !app_assoc in HL.
  - cbn [order_of] in Ho. unfold generate_prach_control_parameters in Ho. destruct (cplane_convert_scs _) as [scs|]; [|done]. cbn [mbind result_bind] in Ho. destruct (frequency_offset x _) as [off|] eqn:Hoff; [|done].
    cbn [mbind result_bind] in Ho. injection Ho as <-. cbn [o_hdr o_section o_slot o_direction o_message]. unfold init_radio_app_header_parameters, init_common_section_0_1_3_5_fields.
    rewrite !(wrap_small 8) by lia_fits. split; [done|]. split; [done|]. split; [done|]. split; [done|]. unfold type3_bytes. cbn [t3_radio_hdr t3_section_fields t3_compr_params t3_frequency_offset].
    rewrite !be_bytes_2, land_ffff, !Z.shiftr_div_pow2 by lia. split; [by apply header_layout|]. split; [done|]. split.
    + exact (section_layout (command_section (PrachCommand x)) (header_bytes (command_header (PrachCommand x)) 3 ++ [_; _] ++ [_] ++ [_; _] ++ [_]) _ Hs).
    + exists off. split; [done|]. unfold octet, section_bytes, header_bytes. cbn [app nth]. unfold wrap. unfold_fits. lia.
Qed.

(** The eCPRI packet of a frame. *)
Definition control_packet (frame : list Z) : list Z := drop (length (frame_builder.octets (eth_builder cfg))) frame.

(** C30: a command reaches the radio unit and, if it is for the uplink, the receiver expects
    exactly what was asked for.  When the pool has a frame, the command succeeds and the last
    frame queued for its symbol decodes to a real-time control packet for the eAxC with the
    next sequence identifier, whose message, read by the O-RAN layout, has the slot, direction,
    filter, symbols and blocks of the command (and the frequency offset of PRACH in 24 bits);
    the repository then answers for the slot and eAxC of an uplink command: with its context
    on the symbols and filter it asked for, with nothing otherwise. *)
Theorem control_command_received c o st s g params :
  command_config_ok → commands_implement st s → repo_ok (k_repo s) → room Q (k_rings s) 1 → order_of c = Ok o → order_ok o →
  header_ok (command_header c) → section_ok (command_section c) →
  let seq := sequence_identifier_generator.next (counter (o_direction o) s) (o_eaxc o) in
  let frame := padded (control_frame (o_eaxc o) seq (o_message o)) in
  let i := place (order_point o) in let k := control_kind (o_direction o) in
  ring_send (k_rings s i k) (order_point o) [frame] = Ok (Some g) →
  ∃ st' s' message, exec_command c st = Ok st' ∧ commands_implement st' s' ∧ queue (k_rings s' i k) = queue (k_rings s i k) ++ [(order_point o, frame)] ∧
    ecpri.decode ecpri.use_header_payload_size (control_packet frame) params =
      Ok (message, ecpri.mk_packet (ecpri.mk_header 1 true 2 (zlen message + 4)) (ecpri.rt_parameters (ecpri.mk_rt (o_eaxc o) (256 * seq + 128)))) ∧
    wire_header_of message = header_fields (command_header c) ∧ octet message 5 = section_type c ∧ wire_section_of message (section_at c) = section_fields (command_section c) ∧ offset_sent c message ∧
    (o_direction o = uplink → ∀ symbol filter,
       uplink_cplane_context_repository.get (ul_cplane_context_repo st') (o_slot o) symbol filter (o_eaxc o) =
         Ok (if (start_symbol (command_header c) <=? symbol) && (symbol <? start_symbol (command_header c) + nof_symbols (command_section c)) && bool_decide (filter = filter_index (command_header c))
             then Some (expected_context (command_header c) (command_section c)) else None)).
Proof.
  intros HC HI HR Hroom Ho Hok Hh Hs seq frame i k HS. pose proof Hok as (Hslot & _ & He). destruct (order_fields c o Ho Hh Hs) as (HH & HSec & _ & _ & HW & HT & HWS & HOff).
  pose proof (exec_command_spec c o st s HC HI HR Hroom Ho Hok) as HE. unfold spec_order, spec_command in HE. fold seq frame i k in HE. rewrite HS in HE. cbn [mbind result_bind] in HE. destruct HE as (st' & HE & HI').
  eexists st', _, (o_message o). split; [exact HE|]. split; [exact HI'|]. split.
  { cbn [k_rings]. rewrite upd_same. unfold ring_send in HS. destruct (ring_reserve _) as [g1 [w|]]; [|done]. destruct (assume _ _) in HS; [|done]. by injection HS as <-. }
  pose proof (control_message_size c o Ho) as Hsz. assert (H8 : u8 seq).
  { destruct HI as (_ & _ & _ & _ & Hwd & Hwu). unfold seq, counter. destruct (o_direction o); by eapply sequence_identifier_generator.generate_spec. }
  split.
  { unfold frame, control_packet, padded, control_frame. rewrite <- !app_assoc, drop_app_length. rewrite padded_packet_decoded; [|by apply wrap_fits|lia_fits|lia|].
    - by rewrite (wrap_small 16) by lia_fits.
    - unfold zlen at 2. rewrite length_replicate. unfold MIN_ETH_FRAME_LENGTH. pose proof (zlen_nonneg (frame_builder.octets (eth_builder cfg) ++ ecpri.header_octets ecpri.rt_control_data (zlen (o_message o) + 4) (wrap 16 (o_eaxc o)) (256 * seq + 128) ++ o_message o)). lia. }
  repeat (split; [done|]). intros Hd symbol filter. destruct HI' as (_ & _ & _ & HRp & _). rewrite HRp. cbn [k_repo]. rewrite Hd. rewrite repo_get by done.
  unfold order_expected. rewrite HH, HSec. done.
Qed.

End commands.

Module control_examples.
Import cplane cplane_flow.

(** A radio unit of 273 blocks, 9 bits of block floating point, repositories of 40 slots. *)
Definition cfg : config :=
  mk_config 14 273 (mk_compr BFP 9) (mk_compr BFP 9) (mk_compr BFP 9) dynamic_compression
    (frame_builder.vlan_frame_builder_impl (ethernet.mk_params (replicate 6 1) (replicate 6 2) (Some 33) 0xaefe)).
Definition data_command : command := DataCommand (mk_context1 (slot_point.mk 1 10275) 3 standard_channel_filter uplink (mk_range 0 14)).
Definition prach_command : command :=
  PrachCommand (mk_prach (slot_point.mk 1 10279) 4 ul_prach_preamble_short 2 12 kHz30 ra_kHz30 24 12 0).
Definition st : state := mk_state (sequence_identifier_generator.create 0) (sequence_identifier_generator.create 0) (uplink_cplane_context_repository.create 40) (eth_frame_pool.create 200 2).
Definition s : command_state := mk_commands (sequence_identifier_generator.create 0) (sequence_identifier_generator.create 0) (uplink_cplane_context_repository.create 40) initial_rings.

(** The 24 subcarriers of 30 kHz above the lowest one are 3228 half spacings below the centre. *)
Example prach_offset : frequency_offset (mk_prach (slot_point.mk 1 10279) 4 ul_prach_preamble_short 2 12 kHz30 ra_kHz30 24 12 0) 273 = Ok (-3228).
Proof. vm_compute. reflexivity. Qed.

Lemma control_cfg_ok : command_config_ok cfg 200.
Proof. repeat split; vm_compute; first [reflexivity|discriminate|by eexists]. Qed.

Lemma st_implements : commands_implement 2 200 st s.
Proof. split; [exact downlink_examples.initial_pool|]. repeat (split; [reflexivity|]). split; exact sequence_identifier_generator.counters_wf. Qed.

Lemma s_repo : repo_ok 40 (k_repo s).
Proof. split; [lia|]. split; [reflexivity|]. apply Forall_replicate. reflexivity. Qed.

Definition order_get (c : command) : order :=
  match order_of cfg c with Ok o => o | Fault _ => mk_order slot_point.invalid 0 uplink 0 [] (command_header c) (command_section cfg c) end.

Lemma orders_exist : Forall2 (λ c o, order_of cfg c = Ok o ∧ order_ok cfg o) [data_command; prach_command] [order_get data_command; order_get prach_command].
Proof.
  constructor; [|constructor; [|constructor]]; (split; [vm_compute; reflexivity|split; [slot_point.solve_wf|]]); repeat split; vm_compute; first [reflexivity|discriminate].
Qed.

Lemma control_commands_refine_witness :
  ∃ s' st', spec_orders cfg 40 [order_get data_command; order_get prach_command] s = Ok s' ∧ exec_commands cfg [data_command; prach_command] st = Ok st' ∧ commands_implement 2 200 st' s'.
Proof.
  pose proof (control_commands_refine cfg 2 200 40 [data_command; prach_command] [order_get data_command; order_get prach_command] st s control_cfg_ok orders_exist st_implements s_repo) as HT.
  destruct (spec_orders cfg 40 _ s) as [s'|f] eqn:HE.
  - destruct HT as (st' & HX & HI & _); [apply downlink_examples.initial_room; vm_compute; split; discriminate|]. exists s', st'. split; [reflexivity|]. split; [exact HX|exact HI].
  - exfalso. assert (HX : match spec_orders cfg 40 [order_get data_command; order_get prach_command] s with Ok _ => true | Fault _ => false end = true) by (vm_compute; reflexivity). rewrite HE in HX. discriminate.
Defined.

Lemma s_room : room 2 (k_rings s) 1.
Proof. cbn [s k_rings]. apply downlink_examples.initial_room. lia. Qed.

Lemma prach_header : header_ok (command_header prach_command).
Proof. split; [slot_point.solve_wf|vm_compute; split; [discriminate|reflexivity]]. Qed.

Lemma prach_section : section_ok (command_section cfg prach_command).
Proof. repeat split; vm_compute; first [reflexivity|discriminate]. Qed.

Lemma control_command_received_witness :
  ∃ st', exec_command cfg prach_command st = Ok st' ∧
    uplink_cplane_context_repository.get (ul_cplane_context_repo st') (slot_point.mk 1 10279) 13 ul_prach_preamble_short 4 =
      Ok (Some (expected_context (command_header prach_command) (command_section cfg prach_command))) ∧
    uplink_cplane_context_repository.get (ul_cplane_context_repo st') (slot_point.mk 1 10279) 14 ul_prach_preamble_short 4 = Ok None.
Proof.
  pose proof orders_exist as HF. apply Forall2_cons_1 in HF as [_ HF]. apply Forall2_cons_1 in HF as [[Ho Hok] _].
  assert (HS : ∃ g, ring_send (k_rings s (place (order_point cfg (order_get prach_command))) (control_kind (o_direction (order_get prach_command)))) (order_point cfg (order_get prach_command))
      [padded (control_frame cfg (o_eaxc (order_get prach_command)) (sequence_identifier_generator.next (counter (o_direction (order_get prach_command)) s) (o_eaxc (order_get prach_command))) (o_message (order_get prach_command)))] = Ok (Some g))
    by (eexists; vm_compute; reflexivity).
  destruct HS as [g HS].
  pose proof (control_command_received cfg 2 200 40 prach_command (order_get prach_command) st s g (ecpri.mk_packet (ecpri.mk_header 0 false 0 0) (ecpri.iq_parameters (ecpri.mk_iq 0 0)))
    control_cfg_ok st_implements s_repo s_room Ho Hok prach_header prach_section HS) as HT.
  destruct HT as (st' & s' & m & HE & _ & _ & _ & _ & _ & _ & _ & HG).
  exists st'. split; [exact HE|]. specialize (HG eq_refl). split; [exact (HG 13 ul_prach_preamble_short)|exact (HG 14 ul_prach_preamble_short)].
Defined.
End control_examples.
