(* ===== verification/Transmitter.v ===== *)
(** * Transmitter: from grids and requests to bursts of Ethernet frames

    Models lib/ofh/transmitter/ofh_message_transmitter_impl.cpp, ofh_downlink_handler_impl.cpp,
    ofh_downlink_handler_broadcast_impl.cpp, ofh_uplink_request_handler_impl.cpp,
    ofh_transmitter_ota_symbol_task_dispatcher.h and the task dispatchers of the two downlink
    data flows: the handlers hand grids and commands to the data flows, which queue frames in
    the pool, and at every symbol the transmitter sends the frames whose window is open.

    The executors run the tasks they have accepted one at a time, in any order; a task that
    an executor refuses is lost.  The gateway is the consumer of the bursts; what it is given is
    recorded, as are the notifications of late grids. *)

From S2P Require Import Prelude Bf16 Float SlotPoint OfhBase OfhCplane OfhUplane OfhCompression BitBuffer Ecpri Ethernet ResourceGrid GridPool FramePool TxSupport Tdd Prach PrachFlow UplinkContext DownlinkFlow SchedulingFlow.

(** ** [message_transmitter_impl] *)
Module message_transmitter.

Definition MAX_BURST_SIZE : Z := 128.

Definition enqueue_messages_into_burst (interval : frame_pool_interval) (x : eth_frame_pool.t * list (list Z)) : result (eth_frame_pool.t * list (list Z)) :=
  let '(pool, frame_burst) := x in
  '(pool, frame_buffers) ← eth_frame_pool.read_frame_buffers_interval pool interval;
  match frame_buffers with
  | [] => Ok (pool, frame_burst)
  | _ =>
      assume (zlen frame_burst + zlen frame_buffers <=? MAX_BURST_SIZE) AssertFailed;;
      frames ← mapM (eth_frame_pool.frame_data pool) frame_buffers;
      Ok (pool, frame_burst ++ frames)
  end.

(** What the gateway is given: nothing or one burst. *)
Definition transmit_frame_burst (frame_burst : list (list Z)) : list (list (list Z)) := match frame_burst with [] => [] | _ => [frame_burst] end.

Definition window (ty : ofh_pool_message_type) (symbol_point : slot_symbol_point.t) (sym_end sym_start : Z) : result frame_pool_interval :=
  first ← slot_symbol_point.add symbol_point (swrap 32 sym_end);
  last ← slot_symbol_point.add symbol_point (swrap 32 sym_start);
  Ok (mk_interval ty first last).

Definition on_new_symbol (timing_params : tx_window_timing_parameters) (pool : eth_frame_pool.t) (symbol_point : slot_symbol_point.t)
    : result (eth_frame_pool.t * list (list (list Z))) :=
  interval_cp_dl ← window (mk_type control_plane downlink) symbol_point (sym_cp_dl_end timing_params) (sym_cp_dl_start timing_params);
  x ← enqueue_messages_into_burst interval_cp_dl (pool, []);
  interval_cp_ul ← window (mk_type control_plane uplink) symbol_point (sym_cp_ul_end timing_params) (sym_cp_ul_start timing_params);
  x ← enqueue_messages_into_burst interval_cp_ul x;
  interval_up ← window (mk_type user_plane downlink) symbol_point (sym_up_dl_end timing_params) (sym_up_dl_start timing_params);
  '(pool, frame_burst) ← enqueue_messages_into_burst interval_up x;
  let sent := transmit_frame_burst frame_burst in
  pool ← eth_frame_pool.clear_sent_frame_buffers_interval pool interval_cp_dl;
  pool ← eth_frame_pool.clear_sent_frame_buffers_interval pool interval_cp_ul;
  pool ← eth_frame_pool.clear_sent_frame_buffers_interval pool interval_up;
  Ok (pool, sent).

End message_transmitter.

(** ** The handlers *)
Module transmitter.

(** What the handlers are configured with, and the configurations of the data flows: the
    downlink and the uplink handler each have a Control-Plane flow of their own. *)
Record config : Type := mk_config {
  sector_id : Z; cp : cyclic_prefix; tdd_config : option tdd.tdd_ul_dl_config_common; dl_eaxc : list Z; ul_eaxc : list Z; prach_eaxc : list Z;
  is_prach_cp_enabled : bool; timing_params : tx_window_timing_parameters;
  dl_cplane : cplane_flow.config; ul_cplane : cplane_flow.config; dl_uplane : uplane_downlink_flow.config }.

(** What an executor has accepted and not run yet.  A task keeps its grid alive, and nobody
    writes to a grid that was handed over. *)
Inductive task : Type :=
| ControlTask (context : cplane_flow.type_1_context)
| DataTask (context : uplane_downlink_flow.resource_grid_context) (grid : resource_grid.t)
| SymbolTask (symbol_point : slot_symbol_point.t).

(** The counters of the two Control-Plane flows and of the User-Plane flow, the parts that
    are shared, the clock of the downlink handler, the accepted tasks, and what was sent and
    notified. *)
Record state : Type := mk_state {
  frame_pool : eth_frame_pool.t; dl_counters : list Z * list Z; ul_counters : list Z * list Z; up_counters : list Z;
  ul_cp_context_repo : uplink_cplane_context_repository.t; ul_slot_repo : uplink_context_repository.t;
  prach_buffers : list prach_buffer.t; ul_prach_repo : prach_context_repository.t;
  window_checker : tx_window_checker.t; pending : list task;
  sent : list (list (list Z)); late_grids : list (slot_point.t * Z) }.

Definition with_pool (st : state) (pool : eth_frame_pool.t) : state :=
  mk_state pool (dl_counters st) (ul_counters st) (up_counters st) (ul_cp_context_repo st) (ul_slot_repo st) (prach_buffers st) (ul_prach_repo st)
    (window_checker st) (pending st) (sent st) (late_grids st).
Definition with_checker (st : state) (w : tx_window_checker.t) : state :=
  mk_state (frame_pool st) (dl_counters st) (ul_counters st) (up_counters st) (ul_cp_context_repo st) (ul_slot_repo st) (prach_buffers st) (ul_prach_repo st)
    w (pending st) (sent st) (late_grids st).
Definition with_pending (st : state) (ts : list task) : state :=
  mk_state (frame_pool st) (dl_counters st) (ul_counters st) (up_counters st) (ul_cp_context_repo st) (ul_slot_repo st) (prach_buffers st) (ul_prach_repo st)
    (window_checker st) ts (sent st) (late_grids st).
Definition notify_late (st : state) (slot : slot_point.t) (sector : Z) : state :=
  mk_state (frame_pool st) (dl_counters st) (ul_counters st) (up_counters st) (ul_cp_context_repo st) (ul_slot_repo st) (prach_buffers st) (ul_prach_repo st)
    (window_checker st) (pending st) (sent st) (late_grids st ++ [(slot, sector)]).
Definition with_repos (st : state) (u : uplink_context_repository.t) (p : prach_context_repository.t) : state :=
  mk_state (frame_pool st) (dl_counters st) (ul_counters st) (up_counters st) (ul_cp_context_repo st) u (prach_buffers st) p
    (window_checker st) (pending st) (sent st) (late_grids st).

(** The Control-Plane flow of the downlink and that of the uplink. *)
Definition dl_flow (st : state) : cplane_flow.state := cplane_flow.mk_state (dl_counters st).1 (dl_counters st).2 (ul_cp_context_repo st) (frame_pool st).
Definition ul_flow (st : state) : cplane_flow.state := cplane_flow.mk_state (ul_counters st).1 (ul_counters st).2 (ul_cp_context_repo st) (frame_pool st).
Definition with_dl_flow (st : state) (f : cplane_flow.state) : state :=
  mk_state (cplane_flow.frame_pool f) (cplane_flow.cp_dl_seq_gen f, cplane_flow.cp_ul_seq_gen f) (ul_counters st) (up_counters st) (cplane_flow.ul_cplane_context_repo f)
    (ul_slot_repo st) (prach_buffers st) (ul_prach_repo st) (window_checker st) (pending st) (sent st) (late_grids st).
Definition with_ul_flow (st : state) (f : cplane_flow.state) : state :=
  mk_state (cplane_flow.frame_pool f) (dl_counters st) (cplane_flow.cp_dl_seq_gen f, cplane_flow.cp_ul_seq_gen f) (up_counters st) (cplane_flow.ul_cplane_context_repo f)
    (ul_slot_repo st) (prach_buffers st) (ul_prach_repo st) (window_checker st) (pending st) (sent st) (late_grids st).

(** [executor.execute]: whether the executor accepts the task is its choice. *)
Definition execute (accept : bool) (t : task) (st : state) : state := if accept then with_pending st (pending st ++ [t]) else st.

Section handlers.
Context {compressor : IqCompressor} (cfg : config).

Definition dl_symbol_range (slot : slot_point.t) (grid : resource_grid.t) : result ofdm_symbol_range :=
  match tdd_config cfg with
  | Some t => tdd.get_active_tdd_dl_symbols t (slot_point.slot_index slot) (cp cfg)
  | None => range_make 0 (resource_grid.get_nof_symbols grid)
  end.

(** One turn of the loop over the ports, with what the executor makes of its two tasks. *)
Definition dispatch_port (accept : bool * bool) (context : resource_grid_context) (range : ofdm_symbol_range) (grid : resource_grid.t) (eaxc port : Z) (st : state) : state :=
  let st := execute accept.1 (ControlTask (cplane_flow.mk_context1 (ctx_slot context) eaxc standard_channel_filter downlink range)) st in
  execute accept.2 (DataTask (uplane_downlink_flow.mk_context (ctx_slot context) (ctx_sector context) port eaxc range) grid) st.

(** [downlink_handler_impl] *)
Definition handle_dl_data (accept : Z → bool * bool) (context : resource_grid_context) (grid : resource_grid.t) (st : state) : result state :=
  assume (resource_grid.get_nof_ports grid <=? zlen (dl_eaxc cfg)) AssertFailed;;
  pool ← eth_frame_pool.clear_downlink_slot (frame_pool st) (ctx_slot context);
  let st := with_pool st pool in
  late ← tx_window_checker.is_late (window_checker st) (ctx_slot context);
  if (late : bool) then Ok (notify_late st (ctx_slot context) (sector_id cfg)) else
  range ← dl_symbol_range (ctx_slot context) grid;
  fold_result (λ st cell_port_id, eaxc ← vec_at (dl_eaxc cfg) cell_port_id; Ok (dispatch_port (accept cell_port_id) context range grid eaxc cell_port_id st)) st (seqZ 0 (resource_grid.get_nof_ports grid)).

(** [downlink_handler_broadcast_impl]: the first port goes to every eAxC. *)
Definition handle_dl_data_broadcast (accept : Z → bool * bool) (context : resource_grid_context) (grid : resource_grid.t) (st : state) : result state :=
  pool ← eth_frame_pool.clear_downlink_slot (frame_pool st) (ctx_slot context);
  let st := with_pool st pool in
  late ← tx_window_checker.is_late (window_checker st) (ctx_slot context);
  if (late : bool) then Ok (notify_late st (ctx_slot context) (sector_id cfg)) else
  range ← dl_symbol_range (ctx_slot context) grid;
  Ok (foldl (λ st x, dispatch_port (accept x.1) context range grid x.2 0 st) st (zip (seqZ 0 (zlen (dl_eaxc cfg))) (dl_eaxc cfg))).

(** [uplink_request_handler_impl] *)
Definition ul_symbol_range (slot : slot_point.t) : result ofdm_symbol_range :=
  match tdd_config cfg with
  | Some t => tdd.get_active_tdd_ul_symbols t (slot_point.slot_index slot) (cp cfg)
  | None => range_make 0 (get_nsymb_per_slot (cp cfg))
  end.

(** [accept]: of the executor that clears grids. *)
Definition handle_new_uplink_slot (accept : bool) (context : resource_grid_context) (grid : grid_pool.handle) (st : state) : result state :=
  pool ← eth_frame_pool.clear_uplink_slot (frame_pool st) (ctx_slot context);
  let st := with_pool st pool in
  range ← ul_symbol_range (ctx_slot context);
  r ← uplink_context_repository.add accept (ul_slot_repo st) context grid (range_start range) (range_stop range);
  let st := with_repos st r (ul_prach_repo st) in
  fold_result (λ st eaxc, f ← cplane_flow.enqueue_section_type_1_message (ul_cplane cfg) (cplane_flow.mk_context1 (ctx_slot context) eaxc standard_channel_filter uplink range) (ul_flow st);
                          Ok (with_ul_flow st f)) st (ul_eaxc cfg).

(** The sampling rate of the reference time unit. *)
Definition ref_srate_Hz : Z := 30720000.

(** The command of an occasion, without its eAxC. *)
Definition prach_command (context : prach_buffer_context) : result cplane_flow.prach_context :=
  info ← preamble_info (pb_format context) (pusch_scs context);
  let mapping := prach_frequency_mapping_get (pi_scs info) (pusch_scs context) in
  let cp_time := if is_short_preamble (pb_format context) then cp_length info + phy_time_unit.from_units_of_kappa 16 else cp_length info in
  cp_samples ← phy_time_unit.to_samples cp_time ref_srate_Hz;
  khz ← scs_to_khz (pusch_scs context);
  ra_hz ← ra_scs_to_Hz (pi_scs info);
  let K := wrap 32 (1000 * khz) / ra_hz in
  start_symbol ← get_prach_start_symbol context;
  Ok (cplane_flow.mk_prach (pb_slot context) 0 (get_prach_cplane_filter_index context info) start_symbol (pi_nof_symbols info) (pusch_scs context) (pi_scs info)
        (wrap 32 (rb_offset context * K * NOF_SUBCARRIERS_PER_RB)) (wrap 32 (nof_rb_ra mapping * K)) (wrap 32 cp_samples)).

Definition with_eaxc (c : cplane_flow.prach_context) (eaxc : Z) : cplane_flow.prach_context :=
  cplane_flow.mk_prach (cplane_flow.cp_slot c) eaxc (cplane_flow.cp_filter_type c) (cplane_flow.cp_start_symbol c) (cplane_flow.cp_nof_repetitions c) (cplane_flow.cp_scs c)
    (cplane_flow.cp_prach_scs c) (cplane_flow.cp_prach_start_re c) (cplane_flow.cp_prach_nof_rb c) (cplane_flow.cp_time_offset c).

Definition handle_prach_occasion (context : prach_buffer_context) (buffer : nat) (st : state) : result state :=
  pool ← eth_frame_pool.clear_uplink_slot (frame_pool st) (pb_slot context);
  let st := with_pool st pool in
  r ← prach_data_flow.add_occasion (prach_buffers st) (ul_prach_repo st) context buffer;
  let st := with_repos st (ul_slot_repo st) r in
  if negb (is_prach_cp_enabled cfg) then Ok st else
  cp_prach_context ← prach_command context;
  fold_result (λ st eaxc, f ← cplane_flow.enqueue_section_type_3_prach_message (ul_cplane cfg) (with_eaxc cp_prach_context eaxc) (ul_flow st);
                          Ok (with_ul_flow st f)) st (prach_eaxc cfg).

(** [transmitter_ota_symbol_task_dispatcher] *)
Definition on_new_symbol (accept : bool) (symbol_point : slot_symbol_point.t) (st : state) : state :=
  execute accept (SymbolTask symbol_point) (with_checker st (tx_window_checker.on_new_symbol (window_checker st) symbol_point)).

(** A task runs; [temp_buffer] is the uninitialised memory the User-Plane flow copies to. *)
Definition run_task (temp_buffer : list cbf16_t) (t : task) (st : state) : result state :=
  match t with
  | ControlTask context =>
      f ← cplane_flow.enqueue_section_type_1_message (dl_cplane cfg) context (dl_flow st); Ok (with_dl_flow st f)
  | DataTask context grid =>
      '(pool, gen) ← uplane_downlink_flow.enqueue_section_type_1_message (dl_uplane cfg) context grid temp_buffer (frame_pool st) (up_counters st);
      Ok (mk_state pool (dl_counters st) (ul_counters st) gen (ul_cp_context_repo st) (ul_slot_repo st) (prach_buffers st) (ul_prach_repo st)
            (window_checker st) (pending st) (sent st) (late_grids st))
  | SymbolTask symbol_point =>
      '(pool, bursts) ← message_transmitter.on_new_symbol (timing_params cfg) (frame_pool st) symbol_point;
      Ok (mk_state pool (dl_counters st) (ul_counters st) (up_counters st) (ul_cp_context_repo st) (ul_slot_repo st) (prach_buffers st) (ul_prach_repo st)
            (window_checker st) (pending st) (sent st ++ bursts) (late_grids st))
  end.
End handlers.
End transmitter.

(** ** A symbol on the rings *)
Section symbol.
Import message_transmitter.
Context (Q : nat) (mtu : Z).
Abbreviation rings := (nat → nat → ring).

(** The symbols whose messages may be sent now: from the end of the window, which is the
    nearest, to its start. *)
Definition due (ty : ofh_pool_message_type) (p : slot_symbol_point.t) (sym_end sym_start : Z) : frame_pool_interval :=
  mk_interval ty (shift p sym_end) (shift p sym_start).
Definition due_intervals (tp : tx_window_timing_parameters) (p : slot_symbol_point.t) : list frame_pool_interval :=
  [due (mk_type control_plane downlink) p (sym_cp_dl_end tp) (sym_cp_dl_start tp); due (mk_type control_plane uplink) p (sym_cp_ul_end tp) (sym_cp_ul_start tp);
   due (mk_type user_plane downlink) p (sym_up_dl_end tp) (sym_up_dl_start tp)].
Definition timing_ok (tp : tx_window_timing_parameters) : Prop :=
  Forall (λ x, 0 <= x < 2 ^ 30) [sym_cp_dl_end tp; sym_cp_dl_start tp; sym_cp_ul_end tp; sym_cp_ul_start tp; sym_up_dl_end tp; sym_up_dl_start tp].

Definition read_due (x : rings * list (list Z)) (iv : frame_pool_interval) : rings * list (list Z) := foldl (read_point (kind (pi_type iv))) x (interval_points iv).
Definition clear_due (G : rings) (iv : frame_pool_interval) : rings := foldl (clear_point (kind (pi_type iv))) G (interval_points iv).

(** The due frames are taken from their queues and sent in one burst, if they are not too
    many, and their windows become free. *)
Definition spec_symbol (tp : tx_window_timing_parameters) (p : slot_symbol_point.t) (G : rings) : result (rings * list (list (list Z))) :=
  let x := foldl read_due (G, []) (due_intervals tp p) in
  if zlen x.2 <=? MAX_BURST_SIZE then Ok (foldl clear_due x.1 (due_intervals tp p), transmit_frame_burst x.2) else Fault AssertFailed.

Lemma window_spec ty p e s : slot_symbol_point.wf p → sent_type ty → 0 <= e < 2 ^ 30 → 0 <= s < 2 ^ 30 →
  window ty p e s = Ok (due ty p e s) ∧ interval_ok (due ty p e s).
Proof.
  intros Hw Ht He Hs. unfold window. rewrite !swrap_small by (unfold_fits; lia). rewrite !slot_symbol_point.symbol_add_spec by (done || lia). cbn [mbind result_bind]. split; [done|].
  split; [done|]. split; [by apply slot_symbol_point.symbol_add_wf|]. split; [by apply slot_symbol_point.symbol_add_wf|done].
Qed.

(** Reading only adds frames. *)
Lemma read_points_app k ps : ∀ x, ∃ new, (foldl (read_point k) x ps).2 = x.2 ++ new ∧ foldl (read_point k) x ps = ((foldl (read_point k) (x.1, []) ps).1, x.2 ++ (foldl (read_point k) (x.1, []) ps).2).
Proof.
  assert (HX : ∀ ps x, foldl (read_point k) x ps = ((foldl (read_point k) (x.1, []) ps).1, x.2 ++ (foldl (read_point k) (x.1, []) ps).2)).
  { clear. induction ps as [|p ps IH]; intros [G l]; cbn [foldl fst snd]; [by rewrite app_nil_r|]. rewrite (IH (read_point k (G, l) p)), (IH (read_point k (G, []) p)). cbn [fst snd].
    assert (E1 : (read_point k (G, l) p).1 = (read_point k (G, []) p).1) by done. assert (E2 : (read_point k (G, l) p).2 = l ++ (read_point k (G, []) p).2) by done. by rewrite E1, E2, <- app_assoc. }
  intros x. exists (foldl (read_point k) (x.1, []) ps).2. split; [by rewrite (HX ps x) at 1|apply HX].
Qed.

Lemma enqueue_burst_spec iv pool G frame_burst : pool_implements Q mtu pool G → interval_ok iv → zlen frame_burst <= MAX_BURST_SIZE →
  if zlen (read_due (G, frame_burst) iv).2 <=? MAX_BURST_SIZE
  then ∃ pool', enqueue_messages_into_burst iv (pool, frame_burst) = Ok (pool', (read_due (G, frame_burst) iv).2) ∧ pool_implements Q mtu pool' (read_due (G, frame_burst) iv).1
  else enqueue_messages_into_burst iv (pool, frame_burst) = Fault AssertFailed.
Proof.
  intros HP Hiv Hb. unfold read_due. destruct (read_points_app (kind (pi_type iv)) (interval_points iv) (G, frame_burst)) as (_ & _ & ->). cbn [fst snd].
  pose proof (read_interval_spec Q mtu pool G iv HP Hiv) as HR. cbn [spec_pool_step pool_step] in HR. destruct HR as (pool' & HE & HP'). set (new := (foldl _ (G, []) _).2) in *. unfold enqueue_messages_into_burst.
  destruct (eth_frame_pool.read_frame_buffers_interval pool iv) as [[pool1 ptrs]|]; [|done]. cbn [mbind result_bind] in HE |- *.
  destruct (mapM (eth_frame_pool.frame_data pool1) ptrs) as [frames|] eqn:HM; [|done]. cbn [mbind result_bind] in HE. injection HE as -> ->.
  pose proof (Forall2_length _ _ _ (proj1 (mapM_Ok_Forall2 _ _ _) HM)) as HL. rewrite zlen_app. assert (Hz : zlen ptrs = zlen new) by (unfold zlen; by rewrite HL). destruct ptrs as [|ptr ptrs].
  - destruct new; [|done]. rewrite app_nil_r, Z.add_0_r. rewrite (proj2 (Z.leb_le _ _)) by done. by eexists.
  - rewrite Hz. destruct (_ <=? _); cbn [assume mbind result_bind]; [|done]. by eexists.
Qed.

Lemma symbol_spec tp p pool G : pool_implements Q mtu pool G → slot_symbol_point.wf p → timing_ok tp →
  match spec_symbol tp p G with
  | Ok (G', bursts) => ∃ pool', on_new_symbol tp pool p = Ok (pool', bursts) ∧ pool_implements Q mtu pool' G'
  | Fault f => on_new_symbol tp pool p = Fault f
  end.
Proof.
  intros HP Hw HT. unfold timing_ok in HT. rewrite !Forall_cons in HT. destruct HT as (T1 & T2 & T3 & T4 & T5 & T6 & _). unfold spec_symbol, on_new_symbol, due_intervals. cbn [foldl].
  destruct (window_spec (mk_type control_plane downlink) p _ _ Hw ltac:(done) T1 T2) as [-> I1]. destruct (window_spec (mk_type control_plane uplink) p _ _ Hw ltac:(done) T3 T4) as [-> I2].
  destruct (window_spec (mk_type user_plane downlink) p _ _ Hw ltac:(done) T5 T6) as [-> I3]. cbn [mbind result_bind]. set (i1 := due _ p (sym_cp_dl_end tp) _) in *. set (i2 := due _ p (sym_cp_ul_end tp) _) in *. set (i3 := due _ p (sym_up_dl_end tp) _) in *.
  assert (HG : ∀ x iv, zlen x.2 <= zlen (read_due x iv).2). { intros x iv. unfold read_due. destruct (read_points_app (kind (pi_type iv)) (interval_points iv) x) as (new & -> & _). rewrite zlen_app. pose proof (zlen_nonneg new). lia. }
  pose proof (enqueue_burst_spec i1 pool G [] HP I1 ltac:(done)) as H1. set (x1 := read_due (G, []) i1) in *. pose proof (HG x1 i2). set (x2 := read_due x1 i2) in *. pose proof (HG x2 i3). set (x3 := read_due x2 i3) in *.
  destruct (Z.leb_spec (zlen x1.2) MAX_BURST_SIZE) as [B1|B1]; [|rewrite (proj2 (Z.leb_gt _ _)) by lia; by rewrite H1]. destruct H1 as (pool1 & -> & HP1). cbn [mbind result_bind].
  pose proof (enqueue_burst_spec i2 pool1 x1.1 x1.2 HP1 I2 B1) as H2. rewrite <- (surjective_pairing x1) in H2. fold x2 in H2.
  destruct (Z.leb_spec (zlen x2.2) MAX_BURST_SIZE) as [B2|B2]; [|rewrite (proj2 (Z.leb_gt _ _)) by lia; by rewrite H2]. destruct H2 as (pool2 & -> & HP2). cbn [mbind result_bind].
  pose proof (enqueue_burst_spec i3 pool2 x2.1 x2.2 HP2 I3 B2) as H3. rewrite <- (surjective_pairing x2) in H3. fold x3 in H3. destruct (Z.leb_spec (zlen x3.2) MAX_BURST_SIZE) as [B3|B3]; [|by rewrite H3].
  destruct H3 as (pool3 & -> & HP3). cbn [mbind result_bind]. assert (HC : ∀ pl g iv, pool_implements Q mtu pl g → interval_ok iv → ∃ pl', eth_frame_pool.clear_sent_frame_buffers_interval pl iv = Ok pl' ∧ pool_implements Q mtu pl' (clear_due g iv)).
  { intros pl g iv Hpl Hi. destruct (clear_interval_spec Q mtu pl g iv Hpl Hi) as (pl' & HE & Hpl'). cbn [pool_step] in HE. destruct (eth_frame_pool.clear_sent_frame_buffers_interval pl iv) as [pl1|]; [|done]. injection HE as ->. by exists pl'. }
  destruct (HC _ _ i1 HP3 I1) as (pool4 & -> & HP4). cbn [mbind result_bind]. destruct (HC _ _ i2 HP4 I2) as (pool5 & -> & HP5). cbn [mbind result_bind]. destruct (HC _ _ i3 HP5 I3) as (pool6 & -> & HP6). cbn [mbind result_bind].
  exists pool6. by split.
Qed.
End symbol.

(** ** What the transmitter promises *)

Record tx_spec : Type := mk_spec {
  s_rings : nat → nat → ring; s_dl : list Z * list Z; s_ul : list Z * list Z; s_up : list Z; s_repo : uplink_cplane_context_repository.t;
  s_expected : abstract; s_awaited : prach_abstract; s_clock : tx_window_checker.t; s_pending : list transmitter.task;
  s_sent : list (list (list Z)); s_late : list (slot_point.t * Z) }.

Definition dl_commands (s : tx_spec) : command_state := mk_commands (s_dl s).1 (s_dl s).2 (s_repo s) (s_rings s).
Definition ul_commands (s : tx_spec) : command_state := mk_commands (s_ul s).1 (s_ul s).2 (s_repo s) (s_rings s).
Definition with_dl_commands (s : tx_spec) (k : command_state) : tx_spec :=
  mk_spec (k_rings k) (k_dl k, k_ul k) (s_ul s) (s_up s) (k_repo k) (s_expected s) (s_awaited s) (s_clock s) (s_pending s) (s_sent s) (s_late s).
Definition with_ul_commands (s : tx_spec) (k : command_state) : tx_spec :=
  mk_spec (k_rings k) (s_dl s) (k_dl k, k_ul k) (s_up s) (k_repo k) (s_expected s) (s_awaited s) (s_clock s) (s_pending s) (s_sent s) (s_late s).
Definition with_rings (s : tx_spec) (G : nat → nat → ring) : tx_spec :=
  mk_spec G (s_dl s) (s_ul s) (s_up s) (s_repo s) (s_expected s) (s_awaited s) (s_clock s) (s_pending s) (s_sent s) (s_late s).
Definition with_clock (s : tx_spec) (w : tx_window_checker.t) : tx_spec :=
  mk_spec (s_rings s) (s_dl s) (s_ul s) (s_up s) (s_repo s) (s_expected s) (s_awaited s) w (s_pending s) (s_sent s) (s_late s).
Definition with_tasks (s : tx_spec) (ts : list transmitter.task) : tx_spec :=
  mk_spec (s_rings s) (s_dl s) (s_ul s) (s_up s) (s_repo s) (s_expected s) (s_awaited s) (s_clock s) ts (s_sent s) (s_late s).
Definition with_late (s : tx_spec) (l : list (slot_point.t * Z)) : tx_spec :=
  mk_spec (s_rings s) (s_dl s) (s_ul s) (s_up s) (s_repo s) (s_expected s) (s_awaited s) (s_clock s) (s_pending s) (s_sent s) l.
Definition with_tables (s : tx_spec) (a : abstract) (b : prach_abstract) : tx_spec :=
  mk_spec (s_rings s) (s_dl s) (s_ul s) (s_up s) (s_repo s) a b (s_clock s) (s_pending s) (s_sent s) (s_late s).

(** The frames queued for other slots in the places of a slot are dropped. *)
Definition drop_downlink (slot : slot_point.t) (G : nat → nat → ring) : nat → nat → ring :=
  foldl (drop_late 2 slot) (drop_late 0 slot G 0) (seqZ 0 eth_frame_pool.NOF_OFDM_SYM_PER_SLOT_NORMAL_CP).
Definition drop_uplink (slot : slot_point.t) (G : nat → nat → ring) : nat → nat → ring := drop_late 1 slot G 0.

(** Too late: not less than the advance time before the slot, and not more than half a system
    frame. *)
Definition too_late (w : tx_window_checker.t) (slot : slot_point.t) : bool :=
  negb (bool_decide (0 < tx_window_checker.time_left w slot < 10240 * 2 ^ tx_window_checker.numerology w * tx_window_checker.nof_symbols w / 2)).

Inductive tx_event : Type :=
| DlData (broadcast : bool) (accept : Z → bool * bool) (context : resource_grid_context) (grid : resource_grid.t)
| UlSlot (accept : bool) (context : resource_grid_context) (gid : Z)
| UlPrach (context : prach_buffer_context) (buf : nat)
| Symbol (accept : bool) (symbol_point : slot_symbol_point.t)
| Run (n : nat) (temp_buffer : list cbf16_t).

Section transmission.
Import transmitter.
Context {compressor : IqCompressor} (cfg : config) (Q : nat) (mtu repo_size : Z) (ports symb subc size : Z) (psize : Z) (dims : list (list Z)).

Definition tx_step (st : state) (e : tx_event) : result state :=
  match e with
  | DlData broadcast accept context grid => (if broadcast then handle_dl_data_broadcast else handle_dl_data) cfg accept context grid st
  | UlSlot accept context gid => handle_new_uplink_slot cfg accept context (Some gid) st
  | UlPrach context buf => handle_prach_occasion cfg context buf st
  | Symbol accept p => Ok (on_new_symbol accept p st)
  | Run n temp => match pending st !! n with Some t => run_task cfg temp t (with_pending st (delete n (pending st))) | None => Ok st end
  end.
Definition tx_run : state → list tx_event → result state := fold_result tx_step.

(** The tasks of a port. *)
Definition port_tasks (accept : bool * bool) (context : resource_grid_context) (range : ofdm_symbol_range) (grid : resource_grid.t) (eaxc port : Z) : list task :=
  (if accept.1 then [ControlTask (cplane_flow.mk_context1 (ctx_slot context) eaxc standard_channel_filter downlink range)] else []) ++
  (if accept.2 then [DataTask (uplane_downlink_flow.mk_context (ctx_slot context) (ctx_sector context) port eaxc range) grid] else []).

(** The eAxCs a grid goes to, each with the number of its turn and the port it is fed from. *)
Definition dl_destinations (broadcast : bool) (grid : resource_grid.t) : list (Z * Z * Z) :=
  if broadcast then map (λ x, (x.1, x.2, 0)) (zip (seqZ 0 (zlen (dl_eaxc cfg))) (dl_eaxc cfg))
  else map (λ x, (x.1, x.2, x.1)) (zip (seqZ 0 (resource_grid.nof_ports grid)) (dl_eaxc cfg)).

Definition spec_commands (cs : list command) (s : tx_spec) : result tx_spec :=
  os ← mapM (order_of (ul_cplane cfg)) cs;
  k ← spec_orders (ul_cplane cfg) repo_size os (ul_commands s);
  Ok (with_ul_commands s k).

Definition spec_task (t : task) (s : tx_spec) : result tx_spec :=
  match t with
  | ControlTask c =>
      o ← order_of (dl_cplane cfg) (DataCommand c);
      k ← spec_order (dl_cplane cfg) repo_size o (dl_commands s);
      Ok (with_dl_commands s k)
  | DataTask c grid =>
      let r := uplane_downlink_flow.c_symbol_range c in
      '(G, gen) ← spec_symbols (dl_uplane cfg) mtu (uplane_downlink_flow.c_slot c) (uplane_downlink_flow.c_eaxc c) (symbol_samples (dl_uplane cfg) grid (uplane_downlink_flow.c_port c))
                    (seqZ (range_start r) (range_length r - range_start r)) (s_rings s) (s_up s);
      Ok (mk_spec G (s_dl s) (s_ul s) gen (s_repo s) (s_expected s) (s_awaited s) (s_clock s) (s_pending s) (s_sent s) (s_late s))
  | SymbolTask p =>
      '(G, bursts) ← spec_symbol (timing_params cfg) p (s_rings s);
      Ok (mk_spec G (s_dl s) (s_ul s) (s_up s) (s_repo s) (s_expected s) (s_awaited s) (s_clock s) (s_pending s) (s_sent s ++ bursts) (s_late s))
  end.

Definition spec_event (s : tx_spec) (e : tx_event) : result tx_spec :=
  match e with
  | DlData broadcast accept context grid =>
      let s := with_rings s (drop_downlink (ctx_slot context) (s_rings s)) in
      if too_late (s_clock s) (ctx_slot context) then Ok (with_late s (s_late s ++ [(ctx_slot context, sector_id cfg)])) else
      range ← dl_symbol_range cfg (ctx_slot context) grid;
      Ok (with_tasks s (s_pending s ++ concat (map (λ x, port_tasks (accept x.1.1) context range grid x.1.2 x.2) (dl_destinations broadcast grid))))
  | UlSlot accept context gid =>
      let s := with_rings s (drop_uplink (ctx_slot context) (s_rings s)) in
      range ← ul_symbol_range cfg (ctx_slot context);
      let a := from_option fst (s_expected s) (spec_step ports subc size (s_expected s) (Add accept context gid (range_start range) (range_stop range))) in
      spec_commands (map (λ eaxc, DataCommand (cplane_flow.mk_context1 (ctx_slot context) eaxc standard_channel_filter uplink range)) (ul_eaxc cfg)) (with_tables s a (s_awaited s))
  | UlPrach context buf =>
      let s := with_rings s (drop_uplink (pb_slot context) (s_rings s)) in
      info ← preamble_info (pb_format context) (pusch_scs context);
      slot ← awaited_slot context info;
      let s := with_tables s (s_expected s) (set_occasion (index_of psize slot) (Some (fresh_occasion (buffer_ports dims buf) context buf info (awaited_symbol context))) (s_awaited s)) in
      if is_prach_cp_enabled cfg then
        c ← prach_command context;
        spec_commands (map (λ eaxc, SchedulingFlow.PrachCommand (with_eaxc c eaxc)) (prach_eaxc cfg)) s
      else Ok s
  | Symbol accept p => let s := with_clock s (tx_window_checker.on_new_symbol (s_clock s) p) in Ok (if accept then with_tasks s (s_pending s ++ [SymbolTask p]) else s)
  | Run n _ => match s_pending s !! n with Some t => spec_task t (with_tasks s (delete n (s_pending s))) | None => Ok s end
  end.
Definition spec_tx_run : tx_spec → list tx_event → result tx_spec := fold_result spec_event.

(** *** The conditions *)
Context (mu : Z) (held : list grid_pool.handle).
Let n : Z := get_nsymb_per_slot (cp cfg).

Definition tx_config_ok : Prop :=
  command_config_ok (dl_cplane cfg) mtu ∧ command_config_ok (ul_cplane cfg) mtu ∧ frames_ok (dl_uplane cfg) Q mtu ∧ timing_ok (timing_params cfg) ∧
  cplane_flow.nof_symbols_per_slot (dl_cplane cfg) = n ∧ cplane_flow.nof_symbols_per_slot (ul_cplane cfg) = n ∧ uplane_downlink_flow.nof_symbols_per_slot (dl_uplane cfg) = n ∧
  from_option (tdd.tdd_ok (cp cfg)) True (tdd_config cfg) ∧ Forall (λ e, 0 <= e < 32) (dl_eaxc cfg) ∧ Forall (λ e, 0 <= e < 32) (ul_eaxc cfg) ∧
  zlen (ul_eaxc cfg) <= 4 ∧ zlen (prach_eaxc cfg) <= 4 ∧ 0 < psize ∧ n <= symb ∧ size * MAX_NSYMB_PER_SLOT + zlen held + 3 < grid_pool.ref_counter_available.

Definition task_ok (t : task) : Prop :=
  match t with
  | ControlTask c => cplane_flow.c1_direction c = downlink ∧ slot_point.wf (cplane_flow.c1_slot c) ∧ 0 <= cplane_flow.c1_eaxc c < 32
  | DataTask c grid =>
      context_fits (dl_uplane cfg) c grid ∧ range_start (uplane_downlink_flow.c_symbol_range c) = 0 ∧ 0 <= range_length (uplane_downlink_flow.c_symbol_range c) <= n ∧
      ∀ s, 0 <= s < range_length (uplane_downlink_flow.c_symbol_range c) → row_ok (dl_uplane cfg) mtu (symbol_samples (dl_uplane cfg) grid (uplane_downlink_flow.c_port c) s)
  | SymbolTask p => slot_symbol_point.wf p
  end.

(** The arguments of an event are in range, grids have the shape of the cell and samples that
    can be compressed, and the commands of an occasion can be sent. *)
Definition tx_event_ok (e : tx_event) : Prop :=
  match e with
  | DlData broadcast _ context grid =>
      slot_point.wf (ctx_slot context) ∧ slot_point.numerology (ctx_slot context) = mu ∧ wf grid ∧ resource_grid.nof_symb grid = n ∧
      resource_grid.nof_subc grid <= uplane_downlink_flow.ru_nof_prbs (dl_uplane cfg) * 12 ∧
      (if broadcast then 0 < resource_grid.nof_ports grid else resource_grid.nof_ports grid <= zlen (dl_eaxc cfg)) ∧
      ∀ port s, 0 <= port < resource_grid.nof_ports grid → 0 <= s < n → row_ok (dl_uplane cfg) mtu (symbol_samples (dl_uplane cfg) grid port s)
  | UlSlot _ context gid => Some gid ∈ held ∧ slot_point.wf (ctx_slot context)
  | UlPrach context buf =>
      occasion_ok dims context buf ∧
      (is_prach_cp_enabled cfg = true → ∃ c, prach_command context = Ok c ∧
         ∀ eaxc, eaxc ∈ prach_eaxc cfg → ∃ o, order_of (ul_cplane cfg) (SchedulingFlow.PrachCommand (with_eaxc c eaxc)) = Ok o ∧ order_ok (ul_cplane cfg) o)
  | Symbol _ p => slot_symbol_point.wf p ∧ slot_symbol_point.numerology p = mu ∧ slot_symbol_point.nof_symbols p = n
  | Run _ temp => zlen temp = temp_size
  end.

Record tx_implements (st : state) (s : tx_spec) : Prop := {
  ti_pool : pool_implements Q mtu (frame_pool st) (s_rings s);
  ti_dl : dl_counters st = s_dl s;
  ti_ul : ul_counters st = s_ul s;
  ti_up : up_counters st = s_up s;
  ti_counters : Forall sequence_identifier_generator.wf [(s_dl s).1; (s_dl s).2; (s_ul s).1; (s_ul s).2; s_up s];
  ti_repo : ul_cp_context_repo st = s_repo s;
  ti_repo_ok : repo_ok repo_size (s_repo s);
  ti_slots : implements ports symb subc size (ul_slot_repo st) held (s_expected s);
  ti_prach : prach_realizes psize (prach_buffers st) (ul_prach_repo st) (s_awaited s);
  ti_dims : of_dims dims (prach_buffers st);
  ti_clock : window_checker st = s_clock s;
  ti_clock_wf : tx_window_checker.wf (s_clock s) ∧ tx_window_checker.numerology (s_clock s) = mu ∧ tx_window_checker.nof_symbols (s_clock s) = n;
  ti_pending : pending st = s_pending s;
  ti_tasks : Forall task_ok (s_pending s);
  ti_sent : sent st = s_sent s;
  ti_late : late_grids st = s_late s }.

(** *** The rings *)

Lemma drop_late_granted k slot G symbol i j : granted (drop_late k slot G symbol i j) = granted (G i j).
Proof. unfold drop_late. destruct (late _ _); [|done]. unfold upd. by destruct (decide _) as [[<- <-]|]. Qed.

Lemma room_same G G' m : (∀ i k, granted (G' i k) = granted (G i k)) → room Q G m → room Q G' m.
Proof. intros HE HR i k. rewrite HE. apply HR. Qed.

Lemma room_le G a b : a <= b → room Q G b → room Q G a.
Proof. intros Hab HR i k. eapply Z.le_lt_trans; [|apply (HR i k)]. apply Z.mul_le_mono_nonneg_l; lia. Qed.

Lemma drop_downlink_granted slot G i k : granted (drop_downlink slot G i k) = granted (G i k).
Proof.
  unfold drop_downlink. rewrite <- (drop_late_granted 0 slot G 0 i k). generalize (drop_late 0 slot G 0) as G0. generalize (seqZ 0 eth_frame_pool.NOF_OFDM_SYM_PER_SLOT_NORMAL_CP) as l.
  induction l as [|x l IH]; intros G0; [done|]. cbn [foldl]. rewrite IH. apply drop_late_granted.
Qed.

Lemma drop_downlink_spec slot pool G : pool_implements Q mtu pool G → slot_point.wf slot →
  ∃ pool', eth_frame_pool.clear_downlink_slot pool slot = Ok pool' ∧ pool_implements Q mtu pool' (drop_downlink slot G).
Proof.
  intros HP Hs. pose proof (pool_step_spec Q mtu pool G (ClearDownlink slot) HP Hs) as HX. cbn [spec_pool_step pool_step] in HX. destruct HX as (pool' & HE & HP').
  destruct (eth_frame_pool.clear_downlink_slot pool slot) as [p1|]; [|done]. injection HE as ->. by exists pool'.
Qed.

Lemma drop_uplink_spec slot pool G : pool_implements Q mtu pool G → slot_point.wf slot →
  ∃ pool', eth_frame_pool.clear_uplink_slot pool slot = Ok pool' ∧ pool_implements Q mtu pool' (drop_uplink slot G).
Proof. intros HP Hs. by apply (clear_late_spec Q mtu pool G (mk_type control_plane uplink) slot 0). Qed.

Lemma read_points_granted k ps i j : ∀ x, granted ((foldl (read_point k) x ps).1 i j) = granted (x.1 i j).
Proof. induction ps as [|p ps IH]; intros x; [done|]. cbn [foldl]. rewrite IH. unfold read_point. cbn [fst]. unfold upd. by destruct (decide _) as [[<- <-]|]. Qed.
Lemma clear_points_granted k ps i j : ∀ G, granted (foldl (clear_point k) G ps i j) = granted (G i j).
Proof. induction ps as [|p ps IH]; intros G; [done|]. cbn [foldl]. rewrite IH. unfold clear_point, upd. by destruct (decide _) as [[<- <-]|]. Qed.

Lemma spec_symbol_granted tp p G G' bursts i k : spec_symbol tp p G = Ok (G', bursts) → granted (G' i k) = granted (G i k).
Proof.
  unfold spec_symbol. destruct (_ <=? _); [|done]. intros [= <- _]. unfold due_intervals. cbn [foldl]. unfold clear_due, read_due. by rewrite !clear_points_granted, !read_points_granted.
Qed.

Lemma spec_symbols_preserves slot eaxc samples symbols m : ∀ G gen G' gen', 0 <= m → room Q G (m + zlen symbols) → sequence_identifier_generator.wf gen →
  spec_symbols (dl_uplane cfg) mtu slot eaxc samples symbols G gen = Ok (G', gen') → room Q G' m ∧ sequence_identifier_generator.wf gen'.
Proof.
  induction symbols as [|x symbols IH]; intros G gen G' gen' Hm HR Hg; cbn [spec_symbols].
  - intros [= <- <-]. change (zlen []) with 0 in HR. by rewrite Z.add_0_r in HR.
  - rewrite zlen_cons in HR. replace (m + (1 + zlen symbols)) with (m + zlen symbols + 1) in HR by lia. destruct (ring_send _ _ _) as [[g|]|] eqn:HS; cbn [mbind result_bind]; [| |done].
    + apply IH; [done|by eapply room_send|by apply sequence_identifier_generator.advance_wf].
    + intros [= <- <-]. split; [|done]. pose proof (zlen_nonneg symbols). eapply room_le; [|exact HR]. lia.
Qed.

(** *** Tasks and commands *)

Lemma nsymb_bounds c : 12 <= get_nsymb_per_slot c <= 14.
Proof. destruct c; cbn; lia. Qed.

Lemma flow_commands {A} (g : A → command) xs : ∀ st,
  fold_result (λ st x, f ← exec_command (ul_cplane cfg) (g x) (ul_flow st); Ok (with_ul_flow st f)) st xs =
  (f ← exec_commands (ul_cplane cfg) (map g xs) (ul_flow st); Ok (with_ul_flow st f)).
Proof.
  induction xs as [|x xs IH]; intros st; unfold exec_commands; cbn [fold_result map]; [by destruct st as [? ? [? ?] ? ? ? ? ? ? ? ? ?]|].
  destruct (exec_command _ (g x) (ul_flow st)) as [f|]; [|done]. cbn [mbind result_bind]. rewrite IH. destruct f as [a b c d]. unfold exec_commands, ul_flow, with_ul_flow.
  cbn [ul_counters fst snd ul_cp_context_repo frame_pool cplane_flow.cp_dl_seq_gen cplane_flow.cp_ul_seq_gen cplane_flow.ul_cplane_context_repo cplane_flow.frame_pool]. by destruct (fold_result _ _ _).
Qed.

Lemma dl_flow_implements st s : tx_implements st s → commands_implement Q mtu (dl_flow st) (dl_commands s).
Proof.
  intros H. pose proof (ti_counters _ _ H) as HC. rewrite !Forall_cons in HC. destruct HC as (C1 & C2 & _). unfold commands_implement, dl_flow, dl_commands. cbn. rewrite (ti_dl _ _ H).
  split; [apply H|]. split; [done|]. split; [done|]. split; [apply H|done].
Qed.

Lemma ul_flow_implements st s : tx_implements st s → commands_implement Q mtu (ul_flow st) (ul_commands s).
Proof.
  intros H. pose proof (ti_counters _ _ H) as HC. rewrite !Forall_cons in HC. destruct HC as (_ & _ & C1 & C2 & _). unfold commands_implement, ul_flow, ul_commands. cbn. rewrite (ti_ul _ _ H).
  split; [apply H|]. split; [done|]. split; [done|]. split; [apply H|done].
Qed.

Lemma spec_commands_spec {A} (g : A → command) xs st s m : tx_config_ok → tx_implements st s → 0 <= m → room Q (s_rings s) (m + zlen xs) →
  (∀ x, x ∈ xs → ∃ o, order_of (ul_cplane cfg) (g x) = Ok o ∧ order_ok (ul_cplane cfg) o) →
  match spec_commands (map g xs) s with
  | Ok s' => ∃ st', fold_result (λ st x, f ← exec_command (ul_cplane cfg) (g x) (ul_flow st); Ok (with_ul_flow st f)) st xs = Ok st' ∧ tx_implements st' s' ∧ room Q (s_rings s') m
  | Fault f => fold_result (λ st x, f ← exec_command (ul_cplane cfg) (g x) (ul_flow st); Ok (with_ul_flow st f)) st xs = Fault f
  end.
Proof.
  intros (_ & HC & _) H Hm HR Ho. unfold spec_commands. rewrite flow_commands.
  assert (HOs : ∃ os, mapM (order_of (ul_cplane cfg)) (map g xs) = Ok os ∧ Forall2 (λ c o, order_of (ul_cplane cfg) c = Ok o ∧ order_ok (ul_cplane cfg) o) (map g xs) os).
  { clear - Ho. induction xs as [|x xs IH]; [by exists []|]. destruct (Ho x) as (o & HE & Hok); [apply elem_of_cons; by left|]. destruct IH as (os & HM & HF); [intros y Hy; apply Ho; apply elem_of_cons; by right|].
    exists (o :: os). split; [|by constructor]. cbn [map mapM]. rewrite HE. cbn [mbind result_bind]. by rewrite HM. }
  destruct HOs as (os & -> & HF). cbn [mbind result_bind].
  pose proof (exec_commands_spec (ul_cplane cfg) Q mtu repo_size (map g xs) os m (ul_flow st) (ul_commands s) HC HF (ul_flow_implements st s H) (ti_repo_ok _ _ H) Hm) as HX.
  assert (HZ : zlen (map g xs) = zlen xs) by (unfold zlen; by rewrite length_map). rewrite HZ in HX. specialize (HX HR).
  destruct (spec_orders _ _ os _) as [k|f]; cbn [mbind result_bind]; [|by rewrite HX]. destruct HX as (f & -> & HI & HRk & Hroom). cbn [mbind result_bind]. eexists. split; [done|]. split; [|done].
  destruct HI as (HP & E1 & E2 & E3 & W1 & W2). pose proof (ti_counters _ _ H) as HCn. rewrite !Forall_cons in HCn. destruct HCn as (C1 & C2 & _ & _ & C5 & _).
  destruct H. constructor; cbn [with_ul_flow with_ul_commands frame_pool dl_counters ul_counters up_counters ul_cp_context_repo ul_slot_repo prach_buffers ul_prach_repo window_checker pending sent late_grids s_rings s_dl s_ul s_up s_repo s_expected s_awaited s_clock s_pending s_sent s_late fst snd]; try done.
  - by rewrite E1, E2.
  - by repeat (constructor; [done|]).
Qed.

Lemma task_spec t temp st s m : tx_config_ok → tx_implements st s → task_ok t → zlen temp = temp_size → 0 <= m → room Q (s_rings s) (m + 16) →
  match spec_task t s with
  | Ok s' => ∃ st', run_task cfg temp t st = Ok st' ∧ tx_implements st' s' ∧ room Q (s_rings s') m
  | Fault f => run_task cfg temp t st = Fault f
  end.
Proof.
  intros HC H Ht Hz Hm HR. pose proof (ti_counters _ _ H) as HCn. rewrite !Forall_cons in HCn. destruct HCn as (C1 & C2 & C3 & C4 & C5 & _).
  destruct HC as (HCd & HCu & HF & HT & Nd & Nu & Nup & _). pose proof (nsymb_bounds (cp cfg)) as Hn. fold n in Hn. destruct t as [c|c grid|p]; cbn [spec_task run_task task_ok] in *.
  - destruct Ht as (Hd & Hs & He). destruct (order_of (dl_cplane cfg) (DataCommand c)) as [o|] eqn:Ho; [|done]. cbn [mbind result_bind].
    assert (Hok : order_ok (dl_cplane cfg) o) by (injection Ho as <-; split; [done|]; split; [cbn; rewrite Nd; lia|done]).
    assert (HR1 : room Q (k_rings (dl_commands s)) (m + 1)) by (eapply room_le; [|exact HR]; lia). assert (HR2 : room Q (k_rings (dl_commands s)) 1) by (eapply room_le; [|exact HR]; lia).
    pose proof (exec_command_spec (dl_cplane cfg) Q mtu repo_size (DataCommand c) o (dl_flow st) (dl_commands s) HCd (dl_flow_implements st s H) (ti_repo_ok _ _ H) HR2 Ho Hok) as HX. cbn [exec_command] in HX.
    destruct (spec_order _ _ o _) as [k|f] eqn:HS; cbn [mbind result_bind]; [|by rewrite HX]. destruct HX as (f & -> & (HP & E1 & E2 & E3 & W1 & W2)). cbn [mbind result_bind].
    destruct (spec_order_preserves (dl_cplane cfg) Q repo_size o (dl_commands s) k m Hok (ti_repo_ok _ _ H) HR1 Hm HS) as [HRk Hroom]. eexists. split; [done|]. split; [|done].
    destruct H. constructor; cbn [with_dl_flow with_dl_commands frame_pool dl_counters ul_counters up_counters ul_cp_context_repo ul_slot_repo prach_buffers ul_prach_repo window_checker pending sent late_grids s_rings s_dl s_ul s_up s_repo s_expected s_awaited s_clock s_pending s_sent s_late fst snd]; try done.
    + by rewrite E1, E2.
    + by repeat (constructor; [done|]).
  - destruct Ht as (Hfit & H0 & Hlen & Hrows). rewrite H0, Z.sub_0_r. set (r := uplane_downlink_flow.c_symbol_range c) in *.
    assert (HR1 : room Q (s_rings s) (range_length r - range_start r)) by (eapply room_le; [|exact HR]; lia).
    pose proof (enqueue_spec (dl_uplane cfg) Q mtu c grid temp (frame_pool st) (s_rings s) (s_up s) HF Hfit Hz (ti_pool _ _ H) C5) as HX. cbn zeta in HX. fold r in HX. rewrite Nup in HX.
    specialize (HX ltac:(lia) ltac:(lia) HR1 ltac:(intros x Hx; apply Hrows; lia)). rewrite H0, Z.sub_0_r in HX. rewrite (ti_up _ _ H).
    destruct (spec_symbols _ _ _ _ _ _ _ _) as [[G' gen']|f] eqn:HS; cbn [mbind result_bind]; [|by rewrite HX]. destruct HX as (pool' & -> & HP'). cbn [mbind result_bind].
    assert (HR2 : room Q (s_rings s) (m + zlen (seqZ 0 (range_length r)))) by (eapply room_le; [|exact HR]; unfold zlen; rewrite length_seqZ; lia).
    destruct (spec_symbols_preserves _ _ _ _ m _ _ _ _ Hm HR2 C5 HS) as [Hroom Hg]. eexists. split; [done|]. split; [|done].
    destruct H. constructor; try done. by repeat (constructor; [done|]).
  - pose proof (symbol_spec Q mtu (timing_params cfg) p (frame_pool st) (s_rings s) (ti_pool _ _ H) Ht HT) as HX.
    destruct (spec_symbol _ p _) as [[G' bursts]|f] eqn:HS; cbn [mbind result_bind]; [|by rewrite HX]. destruct HX as (pool' & -> & HP'). cbn [mbind result_bind].
    eexists. split; [done|]. split; [|cbn [s_rings]; apply (room_same (s_rings s)); [intros i k; by eapply spec_symbol_granted|eapply room_le; [|exact HR]; lia]].
    destruct H. constructor; try done. cbn. by rewrite ti_sent0.
Qed.

(** *** The handlers *)

Lemma slot_index_nonneg slot : slot_point.wf slot → 0 <= slot_point.slot_index slot.
Proof. intros Hs. unfold slot_point.slot_index. slot_point.slot_cases slot Hs; lia. Qed.

Lemma dl_range_spec slot grid : tx_config_ok → slot_point.wf slot → wf grid → resource_grid.nof_symb grid = n →
  ∃ d, dl_symbol_range cfg slot grid = Ok (mk_range 0 d) ∧ 0 <= d <= n.
Proof.
  intros (_ & _ & _ & _ & _ & _ & _ & HT & _) Hs Hg Hn. unfold dl_symbol_range. pose proof (nsymb_bounds (cp cfg)) as Hb. fold n in Hb. destruct (tdd_config cfg) as [t|]; cbn [from_option id] in HT.
  - pose proof (tdd.ranges_spec (cp cfg) t _ HT (slot_index_nonneg slot Hs)) as HR. pose proof (tdd.pattern_of_ok (cp cfg) t _ HT (slot_index_nonneg slot Hs)) as HP. destruct (tdd.pattern_of t _) as [p i]. destruct HR as [-> _], HP as [HP Hi].
    eexists. split; [done|]. apply (tdd.dl_count_spec (cp cfg) p i 0 HP Hi). fold n. lia.
  - destruct (dimensions_wf grid Hg) as (_ & HD & _). rewrite HD, Hn. exists n. split; [|lia]. unfold range_make. rewrite !(wrap_small 8) by lia_fits. cbn [range_start range_stop]. by pass_assume.
Qed.

Lemma ul_range_spec slot : tx_config_ok → slot_point.wf slot → ∃ r, ul_symbol_range cfg slot = Ok r ∧ 0 <= range_start r <= range_stop r ∧ range_stop r <= n.
Proof.
  intros (_ & _ & _ & _ & _ & _ & _ & HT & _) Hs. unfold ul_symbol_range. pose proof (nsymb_bounds (cp cfg)) as Hb. fold n in Hb |- *. destruct (tdd_config cfg) as [t|]; cbn [from_option id] in HT.
  - pose proof (tdd.ranges_spec (cp cfg) t _ HT (slot_index_nonneg slot Hs)) as HR. pose proof (tdd.pattern_of_ok (cp cfg) t _ HT (slot_index_nonneg slot Hs)) as HP. destruct (tdd.pattern_of t _) as [p i]. destruct HR as [_ ->], HP as [HP Hi].
    fold n. eexists. split; [done|]. destruct (tdd.ul_count_spec (cp cfg) p i 0 HP Hi) as [Hu _]; [fold n; lia|]. fold n in Hu. case_Z; cbn [range_start range_stop range_default]; lia.
  - eexists. unfold range_make. rewrite !(wrap_small 8) by lia_fits. cbn [range_start range_stop]. pass_assume. split; [done|]. cbn [range_start range_stop]. lia.
Qed.

Lemma fold_ports {A} (f : Z → Z → A → A) (l : list Z) (m : nat) : ∀ a x, 0 <= a → a + Z.of_nat m <= zlen l →
  fold_result (λ x i, e ← vec_at l i; Ok (f i e x)) x (seqZ a (Z.of_nat m)) = Ok (foldl (λ x y, f y.1 y.2 x) x (zip (seqZ a (Z.of_nat m)) (drop (Z.to_nat a) l))).
Proof.
  induction m as [|m IH]; intros a x Ha Hm; [done|]. rewrite seqZ_cons by lia. replace (Z.pred (Z.of_nat (S m))) with (Z.of_nat m) by lia. cbn [fold_result].
  destruct (vec_at_ok l a) as (e & -> & He); [lia|]. cbn [mbind result_bind]. rewrite IH by lia. rewrite (drop_S l e (Z.to_nat a) He). cbn [zip zip_with foldl fst snd]. replace (Z.to_nat (Z.succ a)) with (S (Z.to_nat a)) by lia. done.
Qed.

Lemma dispatch_tasks {B} (F : B → state → state) (T : B → list task) xs : (∀ x st, F x st = with_pending st (pending st ++ T x)) →
  ∀ st, foldl (λ st x, F x st) st xs = with_pending st (pending st ++ concat (map T xs)).
Proof.
  intros HF. induction xs as [|x xs IH]; intros st; cbn [foldl map concat]; [rewrite app_nil_r; by destruct st|]. rewrite HF, IH. cbn [with_pending pending]. by rewrite <- app_assoc.
Qed.

Lemma dispatch_port_tasks accept context range grid eaxc port st :
  dispatch_port accept context range grid eaxc port st = with_pending st (pending st ++ port_tasks accept context range grid eaxc port).
Proof.
  unfold dispatch_port, execute, port_tasks. destruct accept as [[] []]; cbn [fst snd app]; rewrite ?app_nil_r; [|done|done|by destruct st]. cbn [with_pending pending]. by rewrite <- app_assoc.
Qed.

Lemma destinations_ok broadcast accept context grid : tx_config_ok → tx_event_ok (DlData broadcast accept context grid) → ∀ x, x ∈ dl_destinations broadcast grid →
  0 <= x.1.2 < 32 ∧ 0 <= x.2 < resource_grid.nof_ports grid.
Proof.
  intros (_ & _ & _ & _ & _ & _ & _ & _ & HE & _) (_ & _ & Hg & _ & _ & Hp & _) x Hx. rewrite Forall_forall in HE. unfold dl_destinations in Hx.
  destruct broadcast; apply list_elem_of_fmap in Hx as ([i e] & -> & Hx); cbn [fst snd].
  - split; [apply HE; by eapply elem_of_zip_r|lia].
  - split; [apply HE; by eapply elem_of_zip_r|]. apply elem_of_zip_l in Hx. apply elem_of_seqZ in Hx. lia.
Qed.

Lemma port_tasks_ok broadcast accept context grid d : tx_config_ok → tx_event_ok (DlData broadcast accept context grid) → 0 <= d <= n →
  Forall task_ok (concat (map (λ x, port_tasks (accept x.1.1) context (mk_range 0 d) grid x.1.2 x.2) (dl_destinations broadcast grid))).
Proof.
  intros HC He Hd. pose proof (destinations_ok broadcast accept context grid HC He) as HX. destruct He as (Hs & _ & Hg & Hn & Hsub & _ & Hrow). destruct HC as (_ & _ & _ & _ & _ & _ & Nup & _).
  pose proof (nsymb_bounds (cp cfg)) as Hb. fold n in Hb. apply Forall_concat. apply Forall_fmap, Forall_forall. intros x Hx%HX. destruct x as [[i e] port]. destruct Hx as [He Hport]. cbn [fst snd] in *.
  assert (HL : range_length (mk_range 0 d) = d) by (unfold range_length; cbn [range_start range_stop]; rewrite Z.sub_0_r; apply wrap_small; lia_fits).
  change (Forall task_ok (port_tasks (accept i) context (mk_range 0 d) grid e port)). unfold port_tasks. apply Forall_app. split.
  - destruct (accept i).1; [|constructor]. constructor; [|constructor]. by split.
  - destruct (accept i).2; [|constructor]. constructor; [|constructor]. cbn [task_ok uplane_downlink_flow.c_symbol_range uplane_downlink_flow.c_port]. rewrite HL. split; [|split; [done|split; [lia|intros y Hy; apply Hrow; lia]]].
    unfold context_fits. cbn [uplane_downlink_flow.c_slot uplane_downlink_flow.c_port uplane_downlink_flow.c_eaxc]. rewrite Nup, Hn. split; [done|]. split; [done|]. split; [lia|]. split; [lia|]. done.
Qed.

Ltac keep_parts := constructor; cbn [with_pool with_pending with_checker notify_late with_repos with_rings with_clock with_tasks with_late with_tables
  frame_pool dl_counters ul_counters up_counters ul_cp_context_repo ul_slot_repo prach_buffers ul_prach_repo window_checker pending sent late_grids
  s_rings s_dl s_ul s_up s_repo s_expected s_awaited s_clock s_pending s_sent s_late]; try done.

Lemma with_pool_implements st s pool G : tx_implements st s → pool_implements Q mtu pool G → tx_implements (with_pool st pool) (with_rings s G).
Proof. intros H HP. destruct H. by keep_parts. Qed.

Lemma pending_implements st s ts : tx_implements st s → Forall task_ok ts → tx_implements (with_pending st ts) (with_tasks s ts).
Proof. intros H HT. destruct H. by keep_parts. Qed.

Lemma dl_data_spec broadcast accept context grid st s m : tx_config_ok → tx_implements st s → tx_event_ok (DlData broadcast accept context grid) → room Q (s_rings s) m →
  match spec_event s (DlData broadcast accept context grid) with
  | Ok s' => ∃ st', tx_step st (DlData broadcast accept context grid) = Ok st' ∧ tx_implements st' s' ∧ room Q (s_rings s') m
  | Fault f => tx_step st (DlData broadcast accept context grid) = Fault f
  end.
Proof.
  intros HC H He HR. pose proof (port_tasks_ok broadcast accept context grid) as HTk. pose proof He as (Hs & Hmu & Hg & Hn & _ & Hp & _). cbn [spec_event tx_step].
  destruct (drop_downlink_spec (ctx_slot context) (frame_pool st) (s_rings s) (ti_pool _ _ H) Hs) as (pool & HE & HP). pose proof (with_pool_implements st s pool _ H HP) as H1. set (s1 := with_rings s _) in *. set (st1 := with_pool st pool) in *.
  assert (HR1 : room Q (s_rings s1) m) by (apply (room_same (s_rings s)); [intros i k; apply drop_downlink_granted|done]). destruct (ti_clock_wf _ _ H1) as (Hw & Hm & Hns).
  assert (HL : tx_window_checker.is_late (window_checker st1) (ctx_slot context) = Ok (too_late (s_clock s1) (ctx_slot context))) by (rewrite (ti_clock _ _ H1); by apply tx_window_checker.is_late_spec; [..|by rewrite Hm]).
  destruct (dl_range_spec (ctx_slot context) grid HC Hs Hg Hn) as (d & HRg & Hd).
  assert (HLate : tx_implements (notify_late st1 (ctx_slot context) (sector_id cfg)) (with_late s1 (s_late s1 ++ [(ctx_slot context, sector_id cfg)]))) by (destruct H1; keep_parts; by rewrite ti_late0).
  assert (HDone : tx_implements (with_pending st1 (pending st1 ++ concat (map (λ x, port_tasks (accept x.1.1) context (mk_range 0 d) grid x.1.2 x.2) (dl_destinations broadcast grid))))
    (with_tasks s1 (s_pending s1 ++ concat (map (λ x, port_tasks (accept x.1.1) context (mk_range 0 d) grid x.1.2 x.2) (dl_destinations broadcast grid))))).
  { rewrite (ti_pending _ _ H1). apply pending_implements; [done|]. apply Forall_app. split; [apply H1|by apply HTk]. }
  destruct broadcast.
  - unfold handle_dl_data_broadcast. rewrite HE. cbn [mbind result_bind]. fold st1. rewrite HL. cbn [mbind result_bind]. destruct (too_late _ _); [by eexists|]. rewrite HRg. cbn [mbind result_bind]. eexists. split; [|split; [exact HDone|done]].
    f_equal. rewrite (dispatch_tasks _ (λ x, port_tasks (accept x.1) context (mk_range 0 d) grid x.2 0)) by (intros; apply dispatch_port_tasks). unfold dl_destinations. by rewrite map_map.
  - unfold handle_dl_data. destruct (dimensions_wf grid Hg) as (_ & _ & ->). pass_assume. rewrite HE. cbn [mbind result_bind]. fold st1. rewrite HL. cbn [mbind result_bind]. destruct (too_late _ _); [by eexists|]. rewrite HRg. cbn [mbind result_bind].
    eexists. split; [|split; [exact HDone|done]]. assert (0 <= resource_grid.nof_ports grid) by (destruct Hg as (? & _); lia). rewrite <- (Z2Nat.id (resource_grid.nof_ports grid)) at 1 by done.
    rewrite (fold_ports (λ i e x, dispatch_port (accept i) context (mk_range 0 d) grid e i x)) by lia. rewrite Z2Nat.id by done. f_equal.
    rewrite (dispatch_tasks _ (λ x, port_tasks (accept x.1) context (mk_range 0 d) grid x.2 x.1)) by (intros; apply dispatch_port_tasks). unfold dl_destinations. by rewrite map_map.
Qed.

Context {Hdim : Dimensions ports symb subc size}.

Lemma ul_slot_spec accept context gid st s m : tx_config_ok → tx_implements st s → tx_event_ok (UlSlot accept context gid) → 0 <= m → room Q (s_rings s) (m + 16) →
  match spec_event s (UlSlot accept context gid) with
  | Ok s' => ∃ st', tx_step st (UlSlot accept context gid) = Ok st' ∧ tx_implements st' s' ∧ room Q (s_rings s') m
  | Fault f => tx_step st (UlSlot accept context gid) = Fault f
  end.
Proof.
  intros HC H [Hgid Hs] Hm HR. pose proof HC as (_ & _ & _ & _ & _ & Nu & _ & _ & _ & HE & Hl & _ & _ & Hsym & Hroom). cbn [spec_event tx_step]. unfold handle_new_uplink_slot.
  destruct (drop_uplink_spec (ctx_slot context) (frame_pool st) (s_rings s) (ti_pool _ _ H) Hs) as (pool & -> & HP). cbn [mbind result_bind]. pose proof (with_pool_implements st s pool _ H HP) as H1. set (s1 := with_rings s _) in *. set (st1 := with_pool st pool) in *.
  assert (HR1 : room Q (s_rings s1) (m + 16)) by (apply (room_same (s_rings s)); [intros i k; apply drop_late_granted|done]).
  destruct (ul_range_spec (ctx_slot context) HC Hs) as (r & -> & Hr & Hrn). cbn [mbind result_bind]. pose proof (nsymb_bounds (cp cfg)) as Hb. fold n in Hb.
  assert (Hop : op_ok symb subc held (Add accept context gid (range_start r) (range_stop r))) by (cbn [op_ok]; change MAX_NSYMB_PER_SLOT with 14; split; [done|]; split; [done|lia]).
  assert (Hrm : roomy (ul_slot_repo st1) held) by (unfold roomy; rewrite (zlen_handles ports symb subc size _ _ (impl_rep _ _ _ _ _ _ _ (ti_slots _ _ H1))); lia).
  pose proof (step_implements ports symb subc size _ _ _ _ (ti_slots _ _ H1) Hop Hrm) as HX. cbn [spec_step step] in HX |- *. cbn [from_option fst]. set (a' := mk_abstract _ _) in *.
  destruct HX as (r' & HEr & HI). destruct (uplink_context_repository.add accept (ul_slot_repo st1) context (Some gid) _ _) as [r1|]; [|done]. injection HEr as ->. cbn [mbind result_bind map app] in *.
  assert (H2 : tx_implements (with_repos st1 r' (ul_prach_repo st1)) (with_tables s1 a' (s_awaited s1))) by (destruct H1; by keep_parts).
  apply (spec_commands_spec (λ eaxc, DataCommand (cplane_flow.mk_context1 (ctx_slot context) eaxc standard_channel_filter uplink r)) (ul_eaxc cfg) _ _ m HC H2 Hm); [eapply room_le; [|exact HR1]; lia|].
  intros e He. rewrite Forall_forall in HE. eexists. split; [done|]. split; [done|]. split; [cbn; rewrite Nu; lia|]. by apply HE.
Qed.

Lemma ul_prach_spec context buf st s m : tx_config_ok → tx_implements st s → tx_event_ok (UlPrach context buf) → 0 <= m → room Q (s_rings s) (m + 16) →
  match spec_event s (UlPrach context buf) with
  | Ok s' => ∃ st', tx_step st (UlPrach context buf) = Ok st' ∧ tx_implements st' s' ∧ room Q (s_rings s') m
  | Fault f => tx_step st (UlPrach context buf) = Fault f
  end.
Proof.
  intros HC H [Ho Hc] Hm HR. pose proof HC as (_ & _ & _ & _ & _ & Nu & _ & _ & _ & _ & _ & Hl & Hps & _). cbn [spec_event tx_step]. unfold handle_prach_occasion.
  pose proof Ho as (d & info & _ & _ & Hs & _). destruct (drop_uplink_spec (pb_slot context) (frame_pool st) (s_rings s) (ti_pool _ _ H) Hs) as (pool & -> & HP). cbn [mbind result_bind].
  pose proof (with_pool_implements st s pool _ H HP) as H1. set (s1 := with_rings s _) in *. set (st1 := with_pool st pool) in *.
  assert (HR1 : room Q (s_rings s1) (m + 16)) by (apply (room_same (s_rings s)); [intros i k; apply drop_late_granted|done]).
  destruct (register_spec psize dims Hps _ _ _ context buf (ti_prach _ _ H1) (ti_dims _ _ H1) Ho) as (info' & slot & r' & -> & HA & _ & -> & HRr). cbn [mbind result_bind]. rewrite HA. cbn [mbind result_bind].
  set (a' := set_occasion _ _ _) in *. assert (H2 : tx_implements (with_repos st1 (ul_slot_repo st1) r') (with_tables s1 (s_expected s1) a')) by (destruct H1; by keep_parts).
  destruct (is_prach_cp_enabled cfg) eqn:Hen; cbn [negb].
  - destruct (Hc eq_refl) as (c & -> & Hord). cbn [mbind result_bind].
    apply (spec_commands_spec (λ eaxc, SchedulingFlow.PrachCommand (with_eaxc c eaxc)) (prach_eaxc cfg) _ _ m HC H2 Hm); [eapply room_le; [|exact HR1]; lia|]. exact Hord.
  - eexists. split; [done|]. split; [done|]. eapply room_le; [|exact HR1]. lia.
Qed.

Lemma tx_event_spec e st s m : tx_config_ok → tx_implements st s → tx_event_ok e → 0 <= m → room Q (s_rings s) (m + 16) →
  match spec_event s e with
  | Ok s' => ∃ st', tx_step st e = Ok st' ∧ tx_implements st' s' ∧ room Q (s_rings s') m
  | Fault f => tx_step st e = Fault f
  end.
Proof.
  intros HC H He Hm HR. destruct e as [broadcast accept context grid|accept context gid|context buf|accept p|k temp].
  - apply dl_data_spec; try done. eapply room_le; [|exact HR]. lia.
  - by apply ul_slot_spec.
  - by apply ul_prach_spec.
  - destruct He as (Hw & Hmu & Hns). destruct H as [HP E1 E2 E3 EC E4 E5 E6 E7 E8 E9 (Hcw & Hcm & Hcn) E10 ET E11 E12]. cbn [spec_event tx_step]. unfold on_new_symbol, execute. eexists. split; [done|].
    assert (HCk : tx_window_checker.wf (tx_window_checker.on_new_symbol (s_clock s) p)).
    { destruct Hcw as (W1 & W2 & W3 & W4). destruct Hw as (P1 & P2 & P3). split; [done|]. split; [done|]. split; [done|]. cbn. unfold slot_symbol_point.to_uint. unfold slot_symbol_point.period in P3. rewrite Hmu, Hns in P3. rewrite Hcm, Hcn. lia. }
    split; [destruct accept; keep_parts; rewrite ?E9, ?E10; try done; apply Forall_app; split; [done|]; by constructor|]. destruct accept; cbn; (eapply room_le; [|exact HR]; lia).
  - cbn [spec_event tx_step tx_event_ok] in *. rewrite (ti_pending _ _ H). destruct (s_pending s !! k) as [t|] eqn:Ht.
    + pose proof (ti_tasks _ _ H) as HT. apply task_spec; [done|apply pending_implements; [done|by apply Forall_delete]|by eapply Forall_lookup_1|done|done|done].
    + exists st. split; [done|]. split; [done|]. eapply room_le; [|exact HR]. lia.
Qed.

Lemma tx_run_spec es m : tx_config_ok → Forall tx_event_ok es → 0 <= m → ∀ st s, tx_implements st s → room Q (s_rings s) (m + 16 * zlen es) →
  match spec_tx_run s es with
  | Ok s' => ∃ st', tx_run st es = Ok st' ∧ tx_implements st' s' ∧ room Q (s_rings s') m
  | Fault f => tx_run st es = Fault f
  end.
Proof.
  intros HC HE Hm. unfold spec_tx_run, tx_run. induction HE as [|e es He HE IH]; intros st s H HR; cbn [fold_result].
  { exists st. split; [done|]. split; [done|]. eapply room_le; [|exact HR]. pose proof (zlen_nonneg (@nil tx_event)). lia. }
  rewrite zlen_cons in HR. replace (m + 16 * (1 + zlen es)) with (m + 16 * zlen es + 16) in HR by lia. pose proof (zlen_nonneg es).
  pose proof (tx_event_spec e st s (m + 16 * zlen es) HC H He ltac:(lia) HR) as HX. destruct (spec_event s e) as [s1|f]; cbn [mbind result_bind]; [|by rewrite HX].
  destruct HX as (st1 & -> & H1 & HR1). by apply IH.
Qed.

(** *** What becomes of a queued frame *)

Definition extends (G G' : nat → nat → ring) : Prop := ∀ i k, ∃ new, queue (G' i k) = queue (G i k) ++ new.
#[local] Instance extends_preorder : PreOrder extends.
Proof.
  split; [intros G i k; exists []; by rewrite app_nil_r|]. intros G1 G2 G3 H1 H2 i k. destruct (H1 i k) as [a Ha], (H2 i k) as [b Hb]. exists (a ++ b). by rewrite Hb, Ha, app_assoc.
Qed.

Lemma send_extends G i k p frames g : ring_send (G i k) p frames = Ok (Some g) → extends G (upd i k g G).
Proof.
  unfold ring_send. destruct (ring_reserve (G i k)) as [g' [w|]]; [|done]. destruct (_ <=? _); cbn [assume mbind result_bind]; [|done]. intros [= <-] i' k'. unfold upd.
  destruct (decide _) as [[<- <-]|]; [by eexists|exists []; by rewrite app_nil_r].
Qed.

Lemma order_extends fc o k k' : spec_order fc repo_size o k = Ok k' → extends (k_rings k) (k_rings k').
Proof.
  unfold spec_order, spec_command. destruct (ring_send _ _ _) as [[g|]|] eqn:HS; cbn [mbind result_bind]; [intros [= <-]; by eapply send_extends|by intros [= <-]|done].
Qed.

Lemma orders_extends fc os : ∀ k k', spec_orders fc repo_size os k = Ok k' → extends (k_rings k) (k_rings k').
Proof.
  unfold spec_orders. induction os as [|o os IH]; intros k k'; cbn [fold_result]; [by intros [= <-]|]. destruct (spec_order fc repo_size o k) as [k1|] eqn:H1; [|done]. cbn [mbind result_bind]. intros H2.
  transitivity (k_rings k1); [by eapply order_extends|by apply IH].
Qed.

Lemma symbols_extends slot eaxc samples symbols : ∀ G gen G' gen', spec_symbols (dl_uplane cfg) mtu slot eaxc samples symbols G gen = Ok (G', gen') → extends G G'.
Proof.
  induction symbols as [|x symbols IH]; intros G gen G' gen'; cbn [spec_symbols]; [by intros [= <- _]|]. destruct (ring_send _ _ _) as [[g|]|] eqn:HS; cbn [mbind result_bind]; [|by intros [= <- _]|done].
  intros H2. transitivity (upd (place (point_of (dl_uplane cfg) slot x)) 2 g G); [by eapply send_extends|by eapply IH].
Qed.

(** The queues, by kind and place, that the symbol [p] opens. *)
Definition due_queues (ivs : list frame_pool_interval) : list (nat * slot_symbol_point.t) :=
  concat (map (λ iv, map (pair (kind (pi_type iv))) (interval_points iv)) ivs).
Definition opens (ivs : list frame_pool_interval) (i k : nat) : bool := existsb (λ x, bool_decide (place x.2 = i ∧ x.1 = k)) (due_queues ivs).

(** The queues that a handler of a slot looks through for frames of other slots. *)
Definition slot_queues (e : tx_event) : option (slot_point.t * list (nat * nat)) :=
  let at_symbol slot y := Z.to_nat (eth_frame_pool.sym_index slot y) in
  match e with
  | DlData _ _ c _ => Some (ctx_slot c, (at_symbol (ctx_slot c) 0, 0%nat) :: map (λ y, (at_symbol (ctx_slot c) y, 2%nat)) (seqZ 0 eth_frame_pool.NOF_OFDM_SYM_PER_SLOT_NORMAL_CP))
  | UlSlot _ c _ => Some (ctx_slot c, [(at_symbol (ctx_slot c) 0, 1%nat)])
  | UlPrach c _ => Some (pb_slot c, [(at_symbol (pb_slot c) 0, 1%nat)])
  | _ => None
  end.

Definition drops (s : tx_spec) (e : tx_event) (i k : nat) : bool :=
  match slot_queues e with Some (slot, qs) => bool_decide ((i, k) ∈ qs) && late (s_rings s i k) slot | None => false end.
Definition sends (s : tx_spec) (e : tx_event) (i k : nat) : bool :=
  match e with
  | Run n _ => match s_pending s !! n with Some (SymbolTask p) => opens (due_intervals (timing_params cfg) p) i k | _ => false end
  | _ => false
  end.

Lemma read_all ivs i k : ∀ x, let y := foldl read_due x ivs in
  queue (y.1 i k) = (if opens ivs i k then [] else queue (x.1 i k)) ∧ ∃ a b, y.2 = x.2 ++ a ++ (if opens ivs i k then map snd (queue (x.1 i k)) else []) ++ b.
Proof.
  assert (HF : ∀ x, foldl read_due x ivs = foldl (λ x y, read_point y.1 x y.2) x (due_queues ivs)).
  { unfold due_queues. induction ivs as [|iv ivs IH]; intros x; [done|]. cbn [foldl map concat]. rewrite IH, foldl_app. f_equal. clear. unfold read_due. revert x. generalize (kind (pi_type iv)) as k0. induction (interval_points iv) as [|q qs IH]; intros k0 x; [done|]. cbn [foldl map]. apply IH. }
  intros x. cbn zeta. rewrite HF. unfold opens. clear HF. generalize (due_queues ivs) as l. intros l. revert x. induction l as [|[k0 p] l IH]; intros x; cbn [foldl existsb fst snd].
  { split; [done|]. exists [], []. by rewrite !app_nil_r. }
  destruct (IH (read_point k0 x p)) as (-> & a & b & ->). cbn [read_point fst snd]. unfold upd. case_bool_decide as Hc; cbn [orb].
  - destruct Hc as [<- <-]. destruct (decide _) as [_|Hd]; [|by destruct Hd]. cbn [ring_read queue]. split; [by destruct (existsb _ l)|]. exists [], (a ++ (if existsb (λ x0, bool_decide (place x0.2 = place p ∧ x0.1 = k0)) l then [] else []) ++ b).
    cbn [map]. by rewrite <- !app_assoc.
  - destruct (decide _) as [Hd|_]; [by destruct (Hc Hd)|]. split; [done|]. exists (map snd (queue (x.1 (place p) k0)) ++ a), b. by rewrite <- !app_assoc.
Qed.

Lemma clear_all ivs i k : ∀ G, queue (foldl clear_due G ivs i k) = queue (G i k).
Proof.
  assert (HC : ∀ k0 ps G, queue (foldl (clear_point k0) G ps i k) = queue (G i k)).
  { intros k0. induction ps as [|p ps IH]; intros G; [done|]. cbn [foldl]. rewrite IH. unfold clear_point, upd. by destruct (decide _) as [[<- <-]|]. }
  induction ivs as [|iv ivs IH]; intros G; [done|]. cbn [foldl]. rewrite IH. apply HC.
Qed.

Lemma drop_lates k0 slot l i k : ∀ G, let d := bool_decide ((i, k) ∈ map (λ y, (Z.to_nat (eth_frame_pool.sym_index slot y), k0)) l) && late (G i k) slot in
  foldl (drop_late k0 slot) G l i k = if d then ring_reset (G i k) else G i k.
Proof.
  induction l as [|y l IH]; intros G; [done|]. cbn [foldl map]. rewrite IH. unfold drop_late. set (j := Z.to_nat (eth_frame_pool.sym_index slot y)). cbn zeta.
  destruct (decide ((i, k) = (j, k0))) as [[= -> ->]|Hne].
  - rewrite (bool_decide_eq_true_2 ((j, k0) ∈ (j, k0) :: _)) by (apply elem_of_cons; by left). destruct (late (G j k0) slot) eqn:HL; cbn [andb]; [|by rewrite HL, andb_false_r].
    rewrite upd_same. unfold late at 1. cbn [ring_reset queue existsb]. by rewrite andb_false_r.
  - assert (HU : ∀ g, upd j k0 g G i k = G i k) by (intros g; unfold upd; destruct (decide _) as [[<- <-]|]; [by destruct Hne|done]).
    assert (HB : bool_decide ((i, k) ∈ (j, k0) :: map (λ y, (Z.to_nat (eth_frame_pool.sym_index slot y), k0)) l) = bool_decide ((i, k) ∈ map (λ y, (Z.to_nat (eth_frame_pool.sym_index slot y), k0)) l))
      by (apply bool_decide_ext; rewrite elem_of_cons; naive_solver). rewrite HB. destruct (late (G j k0) slot); by rewrite ?HU.
Qed.

Lemma symbol_queues tp p G G' bursts i k : spec_symbol tp p G = Ok (G', bursts) →
  queue (G' i k) = (if opens (due_intervals tp p) i k then [] else queue (G i k)) ∧
  (opens (due_intervals tp p) i k → queue (G i k) ≠ [] → ∃ a b, bursts = [a ++ map snd (queue (G i k)) ++ b]).
Proof.
  unfold spec_symbol. generalize (due_intervals tp p) as ivs. intros ivs. destruct (read_all ivs i k (G, [])) as (HQ & a & b & HB). destruct (_ <=? _); [|done]. intros [= <- <-]. split; [by rewrite clear_all, HQ|].
  intros Ho Hq. rewrite HB. destruct (opens _ i k); [|done]. cbn [fst snd app]. exists a, b. destruct (queue (G i k)) as [|f q]; [done|]. destruct a; done.
Qed.

Lemma drop_downlink_queue slot G i k :
  queue (drop_downlink slot G i k) = if bool_decide ((i, k) ∈ (Z.to_nat (eth_frame_pool.sym_index slot 0), 0%nat) :: map (λ y, (Z.to_nat (eth_frame_pool.sym_index slot y), 2%nat)) (seqZ 0 eth_frame_pool.NOF_OFDM_SYM_PER_SLOT_NORMAL_CP)) && late (G i k) slot
                                     then [] else queue (G i k).
Proof.
  unfold drop_downlink. rewrite drop_lates. pose proof (drop_lates 0 slot [0] i k G) as H0. cbn zeta in H0. cbn [foldl map] in H0. rewrite H0. generalize (map (λ y, (Z.to_nat (eth_frame_pool.sym_index slot y), 2%nat)) (seqZ 0 eth_frame_pool.NOF_OFDM_SYM_PER_SLOT_NORMAL_CP)) as l.
  intros l. cbn zeta. set (j := Z.to_nat (eth_frame_pool.sym_index slot 0)). assert (HB : bool_decide ((i, k) ∈ (j, 0%nat) :: l) = bool_decide ((i, k) ∈ [(j, 0%nat)]) || bool_decide ((i, k) ∈ l)).
  { rewrite <- bool_decide_or. apply bool_decide_ext. by rewrite elem_of_cons, list_elem_of_singleton. }
  rewrite HB. destruct (bool_decide ((i, k) ∈ [_])), (late (G i k) slot) eqn:HL; cbn [andb orb]; rewrite ?HL, ?andb_false_r, ?andb_true_r; try done.
  by repeat case_bool_decide.
Qed.

Lemma drop_uplink_queue slot G i k :
  queue (drop_uplink slot G i k) = if bool_decide ((i, k) ∈ [(Z.to_nat (eth_frame_pool.sym_index slot 0), 1%nat)]) && late (G i k) slot then [] else queue (G i k).
Proof. pose proof (drop_lates 1 slot [0] i k G) as H0. cbn [foldl map] in H0. unfold drop_uplink. rewrite H0. by destruct (_ && _). Qed.

(** An event that sends or drops the queue empties it before it adds to it. *)
Lemma event_queue s e s' i k : spec_event s e = Ok s' →
  (∃ new, queue (s_rings s' i k) = (if sends s e i k || drops s e i k then [] else queue (s_rings s i k)) ++ new) ∧
  ∃ bursts, s_sent s' = s_sent s ++ bursts ∧ (sends s e i k → queue (s_rings s i k) ≠ [] → ∃ a b, bursts = [a ++ map snd (queue (s_rings s i k)) ++ b]).
Proof.
  assert (HN : ∀ l : list (list (list Z)), ∃ bursts, l = l ++ bursts ∧ (false → queue (s_rings s i k) ≠ [] → ∃ a b, bursts = [a ++ map snd (queue (s_rings s i k)) ++ b])) by (intros l; exists []; by rewrite app_nil_r).
  assert (HCm : ∀ cs s0, spec_commands cs s0 = Ok s' → extends (s_rings s0) (s_rings s') ∧ s_sent s' = s_sent s0).
  { intros cs s0. unfold spec_commands. destruct (mapM _ cs) as [os|]; [|done]. cbn [mbind result_bind]. destruct (spec_orders _ _ os _) as [k0|] eqn:HO; [|done]. intros [= <-]. split; [|done]. by apply orders_extends in HO. }
  unfold drops. destruct e as [broadcast accept context grid|accept context gid|context buf|accept p|m temp]; cbn [spec_event slot_queues sends orb].
  - destruct (too_late _ _); [|destruct (dl_symbol_range _ _ _); [|done]]; intros [= <-]; (split; [exists []; rewrite app_nil_r; apply drop_downlink_queue|apply HN]).
  - destruct (ul_symbol_range _ _) as [range|]; [|done]. cbn [mbind result_bind]. intros [HX HS]%HCm. split; [|rewrite HS; apply HN]. destruct (HX i k) as [new ->]. exists new. f_equal. apply drop_uplink_queue.
  - destruct (preamble_info _ _) as [info|]; [|done]. cbn [mbind result_bind]. destruct (awaited_slot _ _) as [slot|]; [|done]. cbn [mbind result_bind]. destruct (is_prach_cp_enabled cfg).
    + destruct (prach_command _) as [c|]; [|done]. cbn [mbind result_bind]. intros [HX HS]%HCm. split; [|rewrite HS; apply HN]. destruct (HX i k) as [new ->]. exists new. f_equal. apply drop_uplink_queue.
    + intros [= <-]. split; [exists []; rewrite app_nil_r; apply drop_uplink_queue|apply HN].
  - intros [= <-]. split; [exists []; rewrite app_nil_r|]; destruct accept; done || apply HN.
  - destruct (s_pending s !! m) as [[c|c grid|p]|]; cbn [spec_task orb].
    + destruct (order_of _ _) as [o|]; [|done]. cbn [mbind result_bind]. destruct (spec_order _ _ _ _) as [k0|] eqn:HO; [|done]. intros [= <-]. split; [|apply HN]. by apply (order_extends _ _ _ _ HO).
    + destruct (spec_symbols _ _ _ _ _ _ _ _) as [[G gen]|] eqn:HO; [|done]. intros [= <-]. split; [|apply HN]. by apply (symbols_extends _ _ _ _ _ _ _ _ HO).
    + destruct (spec_symbol _ _ _) as [[G bursts]|] eqn:HO; [|done]. intros [= <-]. destruct (symbol_queues _ _ _ _ _ i k HO) as [HQ HB]. cbn [s_rings s_sent with_tasks] in *.
      split; [exists []; by rewrite app_nil_r, orb_false_r, HQ|by exists bursts].
    + intros [= <-]. split; [exists []; by rewrite app_nil_r|apply HN].
Qed.

Lemma sent_grows es : ∀ s s', spec_tx_run s es = Ok s' → ∃ rest, s_sent s' = s_sent s ++ rest.
Proof.
  unfold spec_tx_run. induction es as [|e es IH]; intros s s'; cbn [fold_result]; [intros [= <-]; exists []; by rewrite app_nil_r|].
  destruct (spec_event s e) as [s1|] eqn:H1; [|done]. cbn [mbind result_bind]. intros [rest ->]%IH. destruct (event_queue s e s1 0 0 H1) as [_ (bursts & -> & _)]. exists (bursts ++ rest). by rewrite app_assoc.
Qed.

(** The frame stays queued through [es], or the events split at the one that takes its queue. *)
Lemma queued_until es i k f : ∀ s s', spec_tx_run s es = Ok s' → f ∈ queue (s_rings s i k) →
  f ∈ queue (s_rings s' i k) ∨
  ∃ es1 e es2 s1, es = es1 ++ e :: es2 ∧ spec_tx_run s es1 = Ok s1 ∧ f ∈ queue (s_rings s1 i k) ∧
    (if sends s1 e i k then ∃ burst rest, s_sent s' = s_sent s1 ++ burst :: rest ∧ f.2 ∈ burst else drops s1 e i k = true).
Proof.
  unfold spec_tx_run. induction es as [|e es IH]; intros s s'; cbn [fold_result]; [intros [= <-]; by left|]. destruct (spec_event s e) as [s1|] eqn:H1; [|done]. cbn [mbind result_bind]. intros HR Hf.
  destruct (event_queue s e s1 i k H1) as [(new & HQ) (bursts & HS & HB)]. destruct (sends s e i k) eqn:Hs; [|destruct (drops s e i k) eqn:Hd]; cbn [orb] in *.
  - right. exists [], e, es, s. split; [done|]. split; [done|]. split; [done|]. rewrite Hs. destruct HB as (a & b & ->); [done|by intros HE; rewrite HE in Hf; apply not_elem_of_nil in Hf|].
    destruct (sent_grows es s1 s' HR) as [rest HE]. eexists _, rest. rewrite HE, HS, <- app_assoc. split; [done|]. apply elem_of_app. right. apply elem_of_app. left. apply list_elem_of_fmap. by exists f.
  - right. exists [], e, es, s. split; [done|]. split; [done|]. split; [done|]. by rewrite Hs.
  - destruct (IH s1 s' HR) as [Hk|(es1 & e' & es2 & s2 & -> & HR1 & Hf2 & Hc)]; [rewrite HQ; apply elem_of_app; by left|by left|]. right. exists (e :: es1), e', es2, s2. split; [done|].
    cbn [fold_result]. rewrite H1. cbn [mbind result_bind]. by split.
Qed.

(** C23: the transmitter refines queueing and sending on the rings: for any interleaving of
    downlink grids, uplink slots, PRACH occasions, symbols and runs of accepted tasks, refused
    tasks included, from any state of its parts, the handlers drop the frames of other slots,
    refuse late grids with one notification, register what the uplink is to bring, and queue
    one frame per command and the frames of every symbol of a grid, and a symbol sends all
    frames whose window is open in one burst of at most 128; where a queue or the burst is too
    small the code fails the same assertion. *)
Theorem transmitter_refines es st s : tx_config_ok → Forall tx_event_ok es → tx_implements st s → room Q (s_rings s) (16 * zlen es) →
  match spec_tx_run s es with
  | Ok s' => ∃ st', tx_run st es = Ok st' ∧ tx_implements st' s' ∧ sent st' = s_sent s' ∧ late_grids st' = s_late s'
  | Fault f => tx_run st es = Fault f
  end.
Proof.
  intros HC HE H HR. pose proof (tx_run_spec es 0 HC HE ltac:(lia) st s H HR) as HX. destruct (spec_tx_run s es) as [s'|f]; [|done].
  destruct HX as (st' & HX & H' & _). exists st'. repeat (split; [done|]). split; apply H'.
Qed.

(** C24: what becomes of a queued frame: whatever happens meanwhile, it stays queued until the
    first event that takes its queue, which is either the run of the task of a symbol whose
    window contains the frame's symbol, and then the frame is in the burst sent by that task,
    or the handler of a slot that shares the queue and found in it a frame of another slot. *)
Theorem frame_fate es st s st' i k f : tx_config_ok → Forall tx_event_ok es → tx_implements st s → room Q (s_rings s) (16 * zlen es) →
  tx_run st es = Ok st' → f ∈ queue (s_rings s i k) →
  ∃ s', tx_implements st' s' ∧
    (f ∈ queue (s_rings s' i k) ∨
     ∃ es1 e es2 st1 s1, es = es1 ++ e :: es2 ∧ tx_run st es1 = Ok st1 ∧ tx_implements st1 s1 ∧ f ∈ queue (s_rings s1 i k) ∧
       if sends s1 e i k then ∃ burst rest, sent st' = sent st1 ++ burst :: rest ∧ f.2 ∈ burst else drops s1 e i k = true).
Proof.
  intros HC HE H HR Hrun Hf. pose proof (tx_run_spec es 0 HC HE ltac:(lia) st s H HR) as HX. destruct (spec_tx_run s es) as [s'|] eqn:HS; [|by rewrite Hrun in HX].
  destruct HX as (st2 & HX & H' & _). rewrite Hrun in HX. injection HX as <-. exists s'. split; [done|].
  destruct (queued_until es i k f s s' HS Hf) as [Hk|(es1 & e & es2 & s1 & -> & HS1 & Hf1 & Hc)]; [by left|]. right. apply Forall_app in HE as [HE1 _].
  rewrite zlen_app in HR. pose proof (zlen_nonneg (e :: es2)). assert (HR1 : room Q (s_rings s) (16 * zlen es1)) by (eapply room_le; [|exact HR]; lia).
  pose proof (tx_run_spec es1 0 HC HE1 ltac:(lia) st s H HR1) as HX. rewrite HS1 in HX.
  destruct HX as (st1 & Hrun1 & H1 & _). exists es1, e, es2, st1, s1. repeat (split; [done|]). by rewrite (ti_sent _ _ H'), (ti_sent _ _ H1).
Qed.
End transmission.

Module transmitter_examples.
Import transmitter compression_examples.

#[local] Instance tx_compressor : IqCompressor := selector_compressor example_compressors.

(** Two grids of one port, 14 symbols and one block for the uplink; the first is lent. *)
Definition slot_grid : resource_grid.t :=
  match resource_grid.create 1 14 12 with Ok g => g | Fault _ => resource_grid.mk 0 0 0 (tensor.mk [] []) 0 end.
Definition slot_pool : grid_pool.t :=
  match grid_pool.allocate_resource_grid (grid_pool.create true [slot_grid; slot_grid]) with Ok (p, _) => p | Fault _ => grid_pool.create true [] end.

#[local] Instance slot_dimensions : Dimensions 1 14 12 5.
Proof. split; change re_capacity with 3300; change MAX_NOF_SUPPORTED_EAXC with 4; lia. Qed.

Lemma slot_pool_counted : counted slot_pool [Some 0] ∧ Forall (shaped 1 14 12) (grid_pool.grids slot_pool).
Proof.
  assert (Hg : shaped 1 14 12 slot_grid) by (destruct (create_wf 1 14 12) as (g & HC & Hw & _ & Hp & Hs & Hk & _); [lia..|]; unfold slot_grid; by rewrite HC).
  assert (HC : counted (grid_pool.create true [slot_grid; slot_grid]) []).
  { apply create_counted; [|done]. constructor; [apply Hg|]. constructor; [apply Hg|constructor]. }
  destruct (allocate_counted _ _ HC) as (p & h & HE & HC' & HG & _); [done|done|]. unfold slot_pool. rewrite HE.
  assert (h = Some 0) as ->.
  { assert (HX : match grid_pool.allocate_resource_grid (grid_pool.create true [slot_grid; slot_grid]) with Ok (_, x) => x = Some 0 | Fault _ => False end)
      by (vm_compute; reflexivity). by rewrite HE in HX. }
  split; [done|]. rewrite HG. constructor; [done|]. constructor; [done|constructor].
Qed.

(** Slots of two downlink and four uplink symbols alternate with four uplink slots. *)
Definition timing : tx_window_timing_parameters := mk_timing 12 8 12 8 12 9.
Definition cfg : config :=
  mk_config 0 NORMAL (Some (tdd.mk_tdd kHz30 (tdd.mk_pattern 5 0 2 4 4) None)) [3] [3] [4] true timing control_examples.cfg control_examples.cfg downlink_examples.cfg.
Definition counters : list Z := sequence_identifier_generator.create 0.
Definition clock : tx_window_checker.t := tx_window_checker.mk 8 14 1 (10275 * 14 - 100).
Definition initial : state :=
  mk_state (eth_frame_pool.create 200 2) (counters, counters) (counters, counters) counters (uplink_cplane_context_repository.create 40)
    (uplink_context_repository.create slot_pool 5) [prach_buffer.create 1 1 1 1 139] (prach_context_repository.create 5) clock [] [] [].
Definition promised : tx_spec :=
  mk_spec initial_rings (counters, counters) (counters, counters) counters (uplink_cplane_context_repository.create 40)
    (nothing_expected slot_pool) (mk_prach_abstract (λ _, None) (λ _ _ _, replicate 139 zero_sample)) clock [] [] [].

(** The symbol [k] symbols before the slot. *)
Definition before (k : Z) : slot_symbol_point.t := slot_symbol_point.mk 14 1 (10275 * 14 - k).
Definition context : resource_grid_context := mk_context (slot_point.mk 1 10275) 0.
Definition session : list tx_event :=
  [Symbol true (before 40); DlData false (λ _, (true, true)) context downlink_examples.grid; UlSlot true context 0; UlPrach prach_examples.short_occasion 0;
   Run 0 downlink_examples.temp; Run 0 downlink_examples.temp; Run 0 downlink_examples.temp; Symbol true (before 10); Run 0 downlink_examples.temp; DlData false (λ _, (true, true)) context downlink_examples.grid; Symbol true (before 7); DlData true (λ _, (true, true)) context downlink_examples.grid].

Lemma tx_cfg_ok : tx_config_ok cfg 2 200 14 5 5 [Some 0].
Proof.
  split; [exact control_examples.control_cfg_ok|]. split; [exact control_examples.control_cfg_ok|].
  split; [by destruct downlink_examples.example_flow_ok as (_ & _ & _ & _ & ?)|].
  split; [repeat (constructor; [cbn; lia|]); constructor|]. repeat (split; [reflexivity|]). split; [split; [repeat split; vm_compute; first [reflexivity|discriminate]|exact I]|].
  repeat split; repeat constructor; vm_compute; first [reflexivity|discriminate].
Qed.

Lemma initial_implements : tx_implements cfg 2 200 40 1 14 12 5 5 prach_examples.buffer_dims 1 [Some 0] initial promised.
Proof.
  constructor; cbn [initial promised frame_pool dl_counters ul_counters up_counters ul_cp_context_repo ul_slot_repo prach_buffers ul_prach_repo window_checker pending sent late_grids
    s_rings s_dl s_ul s_up s_repo s_expected s_awaited s_clock s_pending s_sent s_late]; try reflexivity.
  - exact downlink_examples.initial_pool.
  - repeat (constructor; [exact sequence_identifier_generator.counters_wf|]). constructor.
  - exact control_examples.s_repo.
  - destruct slot_pool_counted as [HC HS]. by apply create_implements.
  - exact (fr_prach _ _ _ _ _ _ _ prach_examples.prach_initial_realizes).
  - repeat split; vm_compute; first [reflexivity|discriminate].
  - constructor.
Qed.

Lemma example_rows port s : 0 <= port < 1 → 0 <= s < 14 → row_ok downlink_examples.cfg 200 (symbol_samples downlink_examples.cfg downlink_examples.grid port s).
Proof.
  intros Hp Hs. assert (port = 0) as -> by lia. replace (symbol_samples _ _ 0 s) with downlink_examples.iq.
  - apply (quantized_row_ok downlink_examples.cfg 2 200 (f32_of_Z 1) example_compressors q16 downlink_examples.iq downlink_examples.qs); [exact downlink_examples.example_flow_ok|vm_compute; reflexivity|exact downlink_examples.example_quantized].
  - assert (HF : Forall (λ s, symbol_samples downlink_examples.cfg downlink_examples.grid 0 s = downlink_examples.iq) (seqZ 0 14)) by (repeat (constructor; [vm_compute; reflexivity|]); constructor).
    rewrite Forall_forall in HF. symmetry. apply HF. apply elem_of_seqZ. lia.
Qed.

Abbreviation event_ok := (tx_event_ok cfg 200 prach_examples.buffer_dims 1 [Some 0]).

Lemma grid_event_ok broadcast accept : event_ok (DlData broadcast accept context downlink_examples.grid).
Proof.
  split; [slot_point.solve_wf|]. split; [done|]. split; [exact downlink_examples.grid_wf|]. split; [done|]. split; [vm_compute; discriminate|].
  split; [destruct broadcast; vm_compute; first [reflexivity|discriminate]|exact example_rows].
Qed.

Lemma occasion_event_ok : event_ok (UlPrach prach_examples.short_occasion 0).
Proof.
  split; [exact prach_examples.short_occasion_ok|]. intros _. eexists. split; [vm_compute; reflexivity|]. intros e He. apply list_elem_of_singleton in He as ->.
  eexists. split; [vm_compute; reflexivity|]. split; [slot_point.solve_wf|]. repeat split; vm_compute; first [reflexivity|discriminate].
Qed.

Lemma symbol_event_ok accept k : 0 <= k <= 100 → event_ok (Symbol accept (before k)).
Proof. intros Hk. split; [|done]. change (0 < 14 < 16 ∧ 0 <= 1 < 5 ∧ 0 <= 10275 * 14 - k < 286720). lia. Qed.

Lemma tx_session_ok : Forall event_ok session.
Proof.
  repeat (constructor; [first [apply grid_event_ok|exact occasion_event_ok|apply symbol_event_ok; lia|reflexivity|split; [apply elem_of_cons; by left|slot_point.solve_wf]]|]). constructor.
Qed.

(** The control and data frames of the slot go out in one burst; a grid that comes again is
    queued again while there is time and refused afterwards. *)
Lemma transmitter_refines_witness :
  ∃ st', tx_run cfg initial session = Ok st' ∧ map (map zlen) (sent st') = [[64; 64; 64; 198; 170; 198; 170]] ∧ late_grids st' = [(slot_point.mk 1 10275, 0)].
Proof.
  pose proof (transmitter_refines cfg 2 200 40 1 14 12 5 5 prach_examples.buffer_dims 1 [Some 0] session initial promised tx_cfg_ok tx_session_ok initial_implements) as HT.
  assert (HX : match spec_tx_run cfg 200 40 1 12 5 5 prach_examples.buffer_dims promised session with Ok s => (map (map zlen) (s_sent s), s_late s) | Fault _ => ([], []) end =
    ([[64; 64; 64; 198; 170; 198; 170]], [(slot_point.mk 1 10275, 0)])) by (vm_compute; reflexivity).
  destruct (spec_tx_run cfg 200 40 1 12 5 5 prach_examples.buffer_dims promised session) as [s'|f]; [|discriminate HX].
  destruct HT as (st' & HE & _ & HS & HL); [apply downlink_examples.initial_room; vm_compute; split; discriminate|]. injection HX as H1 H2.
  exists st'. split; [exact HE|]. rewrite HS, HL. split; [exact H1|exact H2].
Defined.

(** The Control-Plane frame of the slot, from when it is queued. *)
Definition queue_place : nat := place (before 0).
Definition queued_so_far : list tx_event := take 7 session.
Definition remaining : list tx_event := drop 7 session.

Lemma run_split st es es' : tx_run cfg st (es ++ es') = (st ← tx_run cfg st es; tx_run cfg st es').
Proof. apply fold_result_app. Qed.

Lemma frame_fate_witness :
  ∃ st1 s1 st' s' f, tx_run cfg initial queued_so_far = Ok st1 ∧ f ∈ queue (s_rings s1 queue_place 0) ∧ tx_run cfg st1 remaining = Ok st' ∧
    tx_implements cfg 2 200 40 1 14 12 5 5 prach_examples.buffer_dims 1 [Some 0] st' s' ∧
    (f ∈ queue (s_rings s' queue_place 0) ∨
     ∃ es1 e es2 st2 s2, remaining = es1 ++ e :: es2 ∧ tx_run cfg st1 es1 = Ok st2 ∧
       tx_implements cfg 2 200 40 1 14 12 5 5 prach_examples.buffer_dims 1 [Some 0] st2 s2 ∧ f ∈ queue (s_rings s2 queue_place 0) ∧
       if sends cfg s2 e queue_place 0 then ∃ burst rest, sent st' = sent st2 ++ burst :: rest ∧ f.2 ∈ burst else drops s2 e queue_place 0 = true).
Proof.
  pose proof tx_session_ok as HO. rewrite <- (take_drop 7 session) in HO. apply Forall_app in HO as [HO1 HO2].
  pose proof (tx_run_spec cfg 2 200 40 1 14 12 5 5 prach_examples.buffer_dims 1 [Some 0] queued_so_far 80 tx_cfg_ok HO1 ltac:(lia) initial promised initial_implements) as HT.
  assert (HX : match spec_tx_run cfg 200 40 1 12 5 5 prach_examples.buffer_dims promised queued_so_far with Ok s => zlen (queue (s_rings s queue_place 0)) | Fault _ => 0 end = 1) by (vm_compute; reflexivity).
  assert (HY : match tx_run cfg initial (queued_so_far ++ remaining) with Ok _ => true | Fault _ => false end = true) by (vm_compute; reflexivity).
  destruct (spec_tx_run cfg 200 40 1 12 5 5 prach_examples.buffer_dims promised queued_so_far) as [s1|]; [|discriminate HX].
  destruct HT as (st1 & HE & HI & HR); [apply downlink_examples.initial_room; vm_compute; split; discriminate|].
  destruct (queue (s_rings s1 queue_place 0)) as [|f q] eqn:HQ; [discriminate HX|].
  assert (Hf : f ∈ queue (s_rings s1 queue_place 0)) by (rewrite HQ; apply elem_of_cons; left; reflexivity).
  rewrite run_split, HE in HY. cbn [mbind result_bind] in HY. destruct (tx_run cfg st1 remaining) as [st'|] eqn:HE2; [|discriminate HY].
  destruct (frame_fate cfg 2 200 40 1 14 12 5 5 prach_examples.buffer_dims 1 [Some 0] remaining st1 s1 st' queue_place 0 f tx_cfg_ok HO2 HI HR HE2 Hf) as (s' & HI' & HF).
  exists st1, s1, st', s', f. split; [exact HE|]. split; [exact Hf|]. split; [exact HE2|]. split; [exact HI'|exact HF].
Defined.
End transmitter_examples.
