(* ===== verification/Sector.v ===== *)
(** * Sector: transmitter and receiver on shared repositories

    Models lib/ofh/ofh_sector_impl.h: a sector is a transmitter and a receiver that share the
    repository of commands, the repository of expected symbols, the repository of PRACH
    occasions and the buffers of the occasions.

    The sector refines the transmitter's and the receiver's promises on one table
    ([sector_refines]); every symbol of an uplink slot given to the transmitter is told to the
    consumer once, whatever the network brings ([slot_served]). *)

From S2P Require Import Prelude Bf16 Float SlotPoint OfhBase OfhCplane OfhUplane OfhCompression Ecpri Ethernet ResourceGrid GridPool FramePool OfhReceiver UplinkContext UplinkFlow TxSupport Tdd Prach PrachFlow DownlinkFlow SchedulingFlow RadioReceiver Transmitter.

Module sector_impl.

(** The transmitter and the receiver; the four shared parts are the same in both. *)
Record state : Type := mk_state { ofh_transmitter : transmitter.state; ofh_receiver : radio_receiver.state }.

(** What the one has done to the shared parts, the other sees. *)
Definition transmitter_sees (r : radio_receiver.state) (t : transmitter.state) : transmitter.state :=
  transmitter.mk_state (transmitter.frame_pool t) (transmitter.dl_counters t) (transmitter.ul_counters t) (transmitter.up_counters t)
    (radio_receiver.ul_cplane_context_repo r) (radio_receiver.ul_context_repo r) (radio_receiver.prach_buffers r) (radio_receiver.prach_repo r)
    (transmitter.window_checker t) (transmitter.pending t) (transmitter.sent t) (transmitter.late_grids t).
Definition receiver_sees (t : transmitter.state) (r : radio_receiver.state) : radio_receiver.state :=
  radio_receiver.mk_state (radio_receiver.seq_id_checker r) (radio_receiver.window_checker r) (transmitter.ul_slot_repo t) (transmitter.ul_cp_context_repo t)
    (transmitter.prach_buffers t) (transmitter.ul_prach_repo t) (radio_receiver.pending r) (radio_receiver.symbols_notified r) (radio_receiver.prach_notified r).

End sector_impl.

(** ** What happens to a sector *)
Inductive sector_event : Type :=
| TxEvent (e : tx_event)
| FrameReceived (accept : bool) (buffer : list Z)
| SymbolReceived (accept : bool) (symbol_point : slot_symbol_point.t)
| RxTask (n : nat) (clears : bool).

(** The receiver's event. *)
Definition rx_of (e : sector_event) : rx_event :=
  match e with
  | FrameReceived accept buffer => Arrival accept buffer
  | SymbolReceived accept p => NewSymbol accept p
  | RxTask n clears => RunTask n clears
  | TxEvent _ => RunTask 0 true
  end.

Record sector_spec : Type := mk_sector_spec { sec_tx : tx_spec; sec_rx : rx_spec }.

(** The commands in a repository. *)
Definition commands_of (r : uplink_cplane_context_repository.t) (i e : nat) : uplink_cplane_context_repository.ul_cplane_context :=
  default uplink_cplane_context_repository.default (r !! i ≫= (.!! e)).

Section sector.
Import sector_impl.
Context {compressor : IqCompressor} {decompressor : IqDecompressor} (tcfg : transmitter.config) (rcfg : radio_receiver.config) (Q : nat) (mtu : Z).
Context (ports symb subc size : Z) (dims : list (list Z)) (mu : Z).
Abbreviation ul_eaxc := (message_receiver.ul_eaxc (radio_receiver.messages rcfg)).
Abbreviation heard := (message_receiver.ul_eaxc (radio_receiver.messages rcfg) ++ message_receiver.ul_prach_eaxc (radio_receiver.messages rcfg)).
Abbreviation tx_promise := (spec_event tcfg mtu size ports subc size size dims).
Abbreviation rx_promise := (spec_rx_event rcfg ports subc size size size dims).
Abbreviation tx_ok := (λ held, tx_implements tcfg Q mtu size ports symb subc size size dims mu held).
Abbreviation rx_ok := (rx_realizes rcfg ports symb subc size size size dims).

Definition sector_step (st : state) (e : sector_event) : result state :=
  match e with
  | TxEvent e => t ← tx_step tcfg (ofh_transmitter st) e; Ok (mk_state t (receiver_sees t (ofh_receiver st)))
  | _ => r ← rx_step rcfg (ofh_receiver st) (rx_of e); Ok (mk_state (transmitter_sees r (ofh_transmitter st)) r)
  end.
Definition sector_run : state → list sector_event → result state := fold_result sector_step.

Definition rx_follows (t : tx_spec) (r : rx_spec) : rx_spec :=
  with_promises r (mk_promise (s_expected t) (commands_of (s_repo t)) (told (sp_data r))) (mk_prach_promise (s_awaited t) (commands_of (s_repo t)) (prach_told (sp_prach r))).
Definition tx_follows (r : rx_spec) (t : tx_spec) : tx_spec := with_tables t (expected (sp_data r)) (awaited (sp_prach r)).

Definition spec_sector_event (s : sector_spec) (e : sector_event) : result sector_spec :=
  match e with
  | TxEvent e => t ← tx_promise (sec_tx s) e; Ok (mk_sector_spec t (rx_follows t (sec_rx s)))
  | _ => r ← rx_promise (sec_rx s) (rx_of e); Ok (mk_sector_spec (tx_follows r (sec_tx s)) r)
  end.
Definition spec_sector_run : sector_spec → list sector_event → result sector_spec := fold_result spec_sector_event.

(** *** The conditions *)

(** Both parts are configured, and what the transmitter asks for on an eAxC that the receiver
    listens to, the receiver takes for data. *)
Definition sector_config_ok : Prop :=
  tx_config_ok tcfg Q mtu symb size size [] ∧ rx_config_ok rcfg size size ∧ ∀ e, e ∈ transmitter.ul_eaxc tcfg → e ∈ heard → e ∈ ul_eaxc.

Definition sector_event_ok (held : list grid_pool.handle) (e : sector_event) : Prop :=
  match e with TxEvent e => tx_event_ok tcfg mtu dims mu held e | _ => rx_event_ok rcfg symb subc dims held (rx_of e) end.

Record sector_realizes (st : state) (held : list grid_pool.handle) (s : sector_spec) : Prop := {
  sr_tx : tx_ok (map n_grid (radio_receiver.symbols_notified (ofh_receiver st)) ++ held) (ofh_transmitter st) (sec_tx s);
  sr_rx : rx_ok (ofh_receiver st) held (sec_rx s);
  sr_shared : receiver_sees (ofh_transmitter st) (ofh_receiver st) = ofh_receiver st;
  sr_expected : s_expected (sec_tx s) = expected (sp_data (sec_rx s));
  sr_awaited : s_awaited (sec_tx s) = awaited (sp_prach (sec_rx s)) }.

Context {Hdim : Dimensions ports symb subc size} {fills : DecompressorFills decompressor}.
Context (HC : sector_config_ok).

(** *** The commands in the repository *)

Definition data_only (r : uplink_cplane_context_repository.t) : Prop :=
  ∀ i e x, r !! i ≫= (.!! e) = Some x → asks_data x → Z.of_nat e ∈ heard → Z.of_nat e ∈ ul_eaxc.

Lemma cplane_data_only c f : cplane_realizes ul_eaxc heard size c f → data_only c.
Proof. intros HR i e x Hx Ha. apply (cr_data _ _ _ _ _ HR i e). by rewrite (cr_at _ _ _ _ _ HR i e x Hx). Qed.

Lemma commands_realize c : repo_ok size c → data_only c → cplane_realizes ul_eaxc heard size c (commands_of c).
Proof.
  intros (_ & Hz & HF) HD. constructor; [done|done| |].
  - intros i e x Hx. unfold commands_of. by rewrite Hx.
  - intros i e. unfold commands_of. destruct (c !! i ≫= (.!! e)) as [x|] eqn:Hx; [exact (HD i e x Hx)|]. intros (H0 & _). cbn in H0. lia.
Qed.

Lemma registered_data_only r slot eaxc x : data_only r → 0 <= eaxc → (asks_data x → eaxc ∈ heard → eaxc ∈ ul_eaxc) → data_only (registered size slot eaxc x r).
Proof.
  intros HD He Hx i e y. unfold registered. destruct (decide (index_of size slot = i)) as [<-|Hne]; [|rewrite list_lookup_alter_ne by done; apply HD].
  rewrite list_lookup_alter_eq. destruct (r !! index_of size slot) as [row|] eqn:Hrow; [|done]. cbn. destruct (decide (Z.to_nat eaxc = e)) as [<-|Hne].
  - intros Hl. assert (x = y) as ->; [|by rewrite Z2Nat.id]. rewrite list_lookup_insert_eq in Hl; [by injection Hl|]. apply lookup_lt_Some in Hl. by rewrite length_insert in Hl.
  - rewrite list_lookup_insert_ne by done. intros Hl. apply (HD (index_of size slot) e y). by rewrite Hrow.
Qed.

(** An order that asks for data asks an eAxC of the uplink. *)
Definition asks_uplink (o : order) : Prop := o_direction o = uplink → 0 <= o_eaxc o ∧ (asks_data (order_expected o) → o_eaxc o ∈ heard → o_eaxc o ∈ ul_eaxc).

Lemma order_data_only fc o k k' : spec_order fc size o k = Ok k' → asks_uplink o → data_only (k_repo k) → data_only (k_repo k').
Proof.
  unfold spec_order, spec_command. intros HE Ha HD. destruct (ring_send _ _ _) as [[g|]|]; [|by injection HE as <-|done]. injection HE as <-. cbn [k_repo].
  destruct (o_direction o) eqn:Hd; [|done]. destruct (Ha Hd). by apply registered_data_only.
Qed.

Lemma orders_data_only fc os : ∀ k k', spec_orders fc size os k = Ok k' → Forall asks_uplink os → data_only (k_repo k) → data_only (k_repo k').
Proof.
  unfold spec_orders. induction os as [|o os IH]; intros k k'; cbn [fold_result]; [by intros [= <-]|]. intros (k1 & H1 & H2)%bind_Ok HF HD. apply Forall_cons in HF as [Ho HF]. eapply IH; [done|done|]. by eapply order_data_only.
Qed.

(** *** What an event of the transmitter does to the shared parts *)

Lemma spec_commands_tables cs s s' : spec_commands tcfg size cs s = Ok s' → s_expected s' = s_expected s ∧ s_awaited s' = s_awaited s ∧
  ∃ os, mapM (order_of (transmitter.ul_cplane tcfg)) cs = Ok os ∧ (Forall asks_uplink os → data_only (s_repo s) → data_only (s_repo s')).
Proof.
  unfold spec_commands. intros (os & HO & (k & HK & [= <-])%bind_Ok)%bind_Ok. split; [done|]. split; [done|]. exists os. split; [done|]. intros HF HD. by eapply orders_data_only.
Qed.

Lemma slot_orders slot range xs os : Forall (λ e, 0 <= e < 32) xs → (∀ e, e ∈ xs → e ∈ transmitter.ul_eaxc tcfg) →
  mapM (order_of (transmitter.ul_cplane tcfg)) (map (λ eaxc, DataCommand (cplane_flow.mk_context1 slot eaxc standard_channel_filter uplink range)) xs) = Ok os → Forall asks_uplink os.
Proof.
  intros HF Hin HM. apply mapM_Ok_Forall2 in HM. revert os HM. induction xs as [|x xs IH]; intros os HM; cbn [map] in HM; [inversion HM; constructor|]. inversion HM as [|? o ? os' Ho HM']; subst. apply Forall_cons in HF as [Hx HF].
  constructor; [|apply IH; [done|intros e He; apply Hin; apply elem_of_cons; by right|done]]. injection Ho as <-. intros _. cbn [o_eaxc]. split; [lia|]. intros _. destruct HC as (_ & _ & HE). apply HE, Hin, elem_of_cons. by left.
Qed.

Lemma prach_orders context c xs os : transmitter.prach_command context = Ok c → Forall (λ o, 0 <= o_eaxc o) os →
  mapM (order_of (transmitter.ul_cplane tcfg)) (map (λ eaxc, SchedulingFlow.PrachCommand (transmitter.with_eaxc c eaxc)) xs) = Ok os → Forall asks_uplink os.
Proof.
  intros Hc HF HM. assert (Hfilter : is_a_prach_message (cplane_flow.cp_filter_type c) = true).
  { unfold transmitter.prach_command in Hc. repeat (apply bind_Ok in Hc as (? & _ & Hc)). injection Hc as <-. cbn [cplane_flow.cp_filter_type]. unfold get_prach_cplane_filter_index. by repeat case_match. }
  apply mapM_Ok_Forall2 in HM. revert os HF HM. induction xs as [|x xs IH]; intros os HF HM; cbn [map] in HM; [inversion HM; constructor|]. inversion HM as [|? o ? os' Ho HM']; subst. apply Forall_cons in HF as [Hx HF].
  constructor; [|by apply IH]. intros _. split; [done|]. intros (_ & Hp & _). exfalso. cbn [order_of] in Ho. apply bind_Ok in Ho as (p & Hp' & [= <-]). unfold order_expected, cplane_flow.expected_context in Hp. cbn [o_hdr uplink_cplane_context_repository.radio_hdr] in Hp.
  unfold cplane_flow.generate_prach_control_parameters in Hp'. apply bind_Ok in Hp' as (scs & _ & (off & _ & [= <-])%bind_Ok). cbn in Hp. unfold transmitter.with_eaxc in Hp. cbn in Hp. by rewrite Hfilter in Hp.
Qed.

Definition asked (e : tx_event) (a a' : abstract) : Prop :=
  match e with
  | UlSlot accept context gid => ∃ range, transmitter.ul_symbol_range tcfg (ctx_slot context) = Ok range ∧
      spec_step ports subc size a (Add accept context gid (range_start range) (range_stop range)) = Some (a', [])
  | _ => a' = a
  end.
Definition awaited_after (e : tx_event) (a a' : prach_abstract) : Prop :=
  match e with
  | UlPrach context buf => ∃ info slot, preamble_info (pb_format context) (pusch_scs context) = Ok info ∧ awaited_slot context info = Ok slot ∧
      a' = set_occasion (index_of size slot) (Some (fresh_occasion (buffer_ports dims buf) context buf info (awaited_symbol context))) a
  | _ => a' = a
  end.

Lemma tx_event_tables held st s e s' : tx_ok held st s → tx_event_ok tcfg mtu dims mu held e → tx_promise s e = Ok s' →
  asked e (s_expected s) (s_expected s') ∧ awaited_after e (s_awaited s) (s_awaited s') ∧ (data_only (s_repo s) → data_only (s_repo s')).
Proof.
  intros HT He HE. destruct HC as (HCt & _). pose proof HCt as (_ & _ & _ & _ & _ & _ & _ & _ & _ & Hul & _). destruct e as [broadcast accept context grid|accept context gid|context buf|accept p|m temp]; cbn [spec_event asked awaited_after] in *.
  - destruct (too_late _ _); [by injection HE as <-|]. by apply bind_Ok in HE as (range & _ & [= <-]).
  - apply bind_Ok in HE as (range & HR & HE). apply spec_commands_tables in HE as (-> & -> & os & HO & HD). split; [exists range; by split|]. split; [done|]. apply HD. by eapply slot_orders.
  - apply bind_Ok in HE as (info & HI & (slot & HS & HE)%bind_Ok). destruct He as [_ He]. destruct (transmitter.is_prach_cp_enabled tcfg); [|injection HE as <-; split; [done|]; split; [by exists info, slot|done]].
    apply bind_Ok in HE as (c & Hc & HE). apply spec_commands_tables in HE as (-> & -> & os & HO & HD). split; [done|]. split; [by exists info, slot|]. apply HD. eapply prach_orders; [exact Hc| |exact HO].
    destruct (He eq_refl) as (c' & Hc' & Ho). rewrite Hc in Hc'. injection Hc' as <-. apply mapM_Ok_Forall2 in HO. apply Forall2_fmap_l in HO. apply Forall_forall. intros o Hin.
    apply list_elem_of_lookup_1 in Hin as (i & Hi). destruct (Forall2_lookup_r _ _ _ _ _ HO Hi) as (x & Hx & Hxo). destruct (Ho x) as (o' & Ho' & (_ & _ & Hok)); [by eapply list_elem_of_lookup_2|]. pose proof (eq_trans (eq_sym Hxo) Ho') as HEq. injection HEq as <-. lia.
  - injection HE as <-. by destruct accept.
  - destruct (s_pending s !! m) as [t|] eqn:Ht; [|by injection HE as <-]. destruct t as [c|c grid|p]; cbn [spec_task] in HE.
    + apply bind_Ok in HE as (o & Ho & (k & Hk & [= <-])%bind_Ok). split; [done|]. split; [done|]. intros HD. eapply order_data_only; [exact Hk| |exact HD]. intros Hd. exfalso. injection Ho as <-. cbn [o_direction] in Hd.
      destruct (Forall_lookup_1 _ _ _ _ (ti_tasks _ _ _ _ _ _ _ _ _ _ _ _ _ _ HT) Ht) as [Hdir _]. congruence.
    + by apply bind_Ok in HE as ([G gen] & _ & [= <-]).
    + by apply bind_Ok in HE as ([G gen] & _ & [= <-]).
Qed.

Lemma asked_placed e a a' : asked e a a' → placed size a → placed size a'.
Proof. destruct e; cbn [asked]; [by intros ->|intros (range & _ & HS) HP; by eapply spec_step_placed|by intros ->|by intros ->|by intros ->]. Qed.

Lemma awaited_placed held e a a' : tx_event_ok tcfg mtu dims mu held e → awaited_after e a a' → occasions_placed size a → occasions_placed size a'.
Proof.
  destruct e as [| |context buf| |]; cbn [awaited_after]; [by intros _ ->|by intros _ ->| |by intros _ ->|by intros _ ->]. intros [(d & info' & _ & HO & Hw & Hst & Hl) _] (info & slot & HI & HS & ->) HP.
  apply set_placed; [done|]. intros o [= <-]. exists slot. split; [|done]. pose proof HO as (_ & _ & HI' & _). rewrite HI in HI'. injection HI' as <-. destruct (occasion_slot_spec context d info HO Hw Hst Hl) as (slot' & _ & HA & HOS & _).
  rewrite HS in HA. by injection HA as <-.
Qed.

(** *** What an event of the receiver does to the commands: nothing *)

Lemma message_cplane clears st m st' : radio_receiver.decode_type1_message rcfg clears st m = Ok st' → radio_receiver.ul_cplane_context_repo st' = radio_receiver.ul_cplane_context_repo st.
Proof.
  destruct m as [[[] eaxc] pdu]; cbn [radio_receiver.decode_type1_message]; intros (u & HU & [= <-])%bind_Ok.
  - exact (data_step_cplane rcfg _ (Message clears eaxc pdu) u HU ltac:(done)).
  - exact (occasion_step_cplane rcfg _ (PrachMessage eaxc pdu) u HU ltac:(done)).
Qed.

Lemma rx_task_cplane clears t st st' : radio_receiver.run_task rcfg clears t st = Ok st' → radio_receiver.ul_cplane_context_repo st' = radio_receiver.ul_cplane_context_repo st.
Proof.
  destruct t as [buffer|p]; cbn [radio_receiver.run_task].
  - unfold radio_receiver.process_new_frame. intros (m & _ & HE)%bind_Ok. revert HE.
    apply (fold_result_invariant (λ x, radio_receiver.ul_cplane_context_repo x = radio_receiver.ul_cplane_context_repo st)); [|done]. intros a x a' _ Ha HE. by rewrite (message_cplane _ _ _ _ HE).
  - intros (u & HU & (v & HV & [= <-])%bind_Ok)%bind_Ok. cbn [radio_receiver.with_prach radio_receiver.ul_cplane_context_repo].
    rewrite (occasion_step_cplane rcfg _ (PrachClosed p) v HV ltac:(done)). exact (data_step_cplane rcfg _ (Closed p) u HU ltac:(done)).
Qed.

Lemma own_step_cplane e st st' : (∀ x, e ≠ TxEvent x) → rx_step rcfg st (rx_of e) = Ok st' → radio_receiver.ul_cplane_context_repo st' = radio_receiver.ul_cplane_context_repo st.
Proof.
  intros HN. destruct e as [x|accept buffer|accept p|k clears]; [by destruct (HN x)|..]; cbn [rx_of rx_step].
  - intros [= <-]. by destruct accept.
  - unfold radio_receiver.on_new_symbol, radio_receiver.close_window. intros (wc & _ & (q & _ & [= <-])%bind_Ok)%bind_Ok. by destruct accept.
  - destruct (radio_receiver.pending st !! k) as [t|]; [|by intros [= <-]]. intros HE. by rewrite (rx_task_cplane _ _ _ _ HE).
Qed.

(** *** One event *)

Definition sector_room (st : state) (held : list grid_pool.handle) (s : sector_spec) (m : Z) : Prop :=
  DownlinkFlow.room Q (s_rings (sec_tx s)) (16 * m) ∧ rx_room size (ofh_receiver st) held m.

Lemma tx_config_held st held m : 0 <= m → rx_room size st held m → tx_config_ok tcfg Q mtu symb size size (map n_grid (radio_receiver.symbols_notified st) ++ held).
Proof.
  intros Hm HR. destruct HC as ((C1 & C2 & C3 & C4 & C5 & C6 & C7 & C8 & C9 & C10 & C11 & C12 & C13 & C14 & _) & _). do 14 (split; [done|]). unfold rx_room in HR. rewrite zlen_app. unfold zlen in *. rewrite length_map. lia.
Qed.

Lemma event_held st held e : tx_event_ok tcfg mtu dims mu held e → tx_event_ok tcfg mtu dims mu (map n_grid (radio_receiver.symbols_notified st) ++ held) e.
Proof. destruct e; try done. intros [Hg Hs]. split; [|done]. apply elem_of_app. by right. Qed.

Lemma tx_event_sector e st held s m : sector_realizes st held s → tx_event_ok tcfg mtu dims mu held e → 0 <= m → sector_room st held s (m + 1) →
  match spec_sector_event s (TxEvent e) with
  | Ok s' => ∃ st', sector_step st (TxEvent e) = Ok st' ∧ sector_realizes st' held s' ∧ sector_room st' held s' m
  | Fault f => sector_step st (TxEvent e) = Fault f
  end.
Proof.
  intros HS He Hm [HR1 HR2]. pose proof (event_held (ofh_receiver st) held e He) as He'. pose proof (tx_config_held (ofh_receiver st) held (m + 1) ltac:(lia) HR2) as HCt.
  replace (16 * (m + 1)) with (16 * m + 16) in HR1 by lia.
  pose proof (tx_event_spec tcfg Q mtu size ports symb subc size size dims mu _ e (ofh_transmitter st) (sec_tx s) (16 * m) HCt (sr_tx _ _ _ HS) He' ltac:(lia) HR1) as HX.
  cbn [spec_sector_event sector_step]. destruct (tx_promise (sec_tx s) e) as [t'|f] eqn:HE; cbn [mbind result_bind]; [|by rewrite HX]. destruct HX as (t & -> & HT & HR). cbn [mbind result_bind].
  destruct (tx_event_tables _ _ _ _ _ (sr_tx _ _ _ HS) He' HE) as (HA & HW & HD). eexists. split; [done|]. split; [|split; [done|by unfold rx_room in *; cbn; lia]].
  destruct HS as [S1 [R1 R2 R3 [D1 D2 D3 D4] [P1 P2 P3 P4 P5] R6 R7] S3 S4 S5]. pose proof (cplane_data_only _ _ D2) as HDo.
  assert (HDo' : data_only (s_repo t')) by (apply HD; rewrite <- (ti_repo _ _ _ _ _ _ _ _ _ _ _ _ _ _ S1); rewrite <- S3 in HDo; exact HDo).
  pose proof (commands_realize _ (ti_repo_ok _ _ _ _ _ _ _ _ _ _ _ _ _ _ HT) HDo') as HCm. rewrite <- (ti_repo _ _ _ _ _ _ _ _ _ _ _ _ _ _ HT) in HCm at 1.
  constructor; [exact HT| |done|done|done]. constructor; try done.
  - constructor; cbn; [exact (ti_slots _ _ _ _ _ _ _ _ _ _ _ _ _ _ HT)|done|done|]. eapply asked_placed; [exact HA|]. by rewrite S4.
  - constructor; cbn; [exact (ti_prach _ _ _ _ _ _ _ _ _ _ _ _ _ _ HT)|exact (ti_dims _ _ _ _ _ _ _ _ _ _ _ _ _ _ HT)|done|done|]. eapply awaited_placed; [exact He|exact HW|]. by rewrite S5.
Qed.

Lemma rx_event_sector e st held s m : sector_realizes st held s → (∀ x, e ≠ TxEvent x) → rx_event_ok rcfg symb subc dims held (rx_of e) → 0 <= m → sector_room st held s (m + 1) →
  match rx_promise (sec_rx s) (rx_of e) with
  | Ok r => ∃ r', rx_step rcfg (ofh_receiver st) (rx_of e) = Ok r' ∧ sector_realizes (mk_state (transmitter_sees r' (ofh_transmitter st)) r') held (mk_sector_spec (tx_follows r (sec_tx s)) r) ∧
      sector_room (mk_state (transmitter_sees r' (ofh_transmitter st)) r') held (mk_sector_spec (tx_follows r (sec_tx s)) r) m
  | Fault f => rx_step rcfg (ofh_receiver st) (rx_of e) = Fault f
  end.
Proof.
  intros HS HN He Hm [HR1 HR2]. destruct HC as (_ & HCr & _). pose proof (rx_event_spec rcfg ports symb subc size size size dims HCr (rx_of e) (ofh_receiver st) held (sec_rx s) m (sr_rx _ _ _ HS) He Hm HR2) as HX.
  destruct (rx_promise (sec_rx s) (rx_of e)) as [r|f]; [|done]. destruct HX as (r' & HE & HQ & HR). exists r'. split; [done|]. split; [|split; [apply (room_le tcfg Q _ (16 * m) (16 * (m + 1))); [lia|exact HR1]|done]].
  pose proof (own_step_cplane e _ _ HN HE) as HCp. destruct HS as [S1 _ S3 _ _]. rewrite <- S3 in HCp. cbn [receiver_sees radio_receiver.ul_cplane_context_repo] in HCp.
  constructor; [|exact HQ|by destruct r'|done|done]. destruct S1 as [T1 T2 T3 T4 T5 T6 T7 T8 T9 T10 T11 T12 T13 T14 T15 T16]. destruct HQ as [R1 R2 R3 [D1 D2 D3 D4] [P1 P2 P3 P4 P5] R6 R7]. constructor; try done.
  cbn [ofh_transmitter sec_tx transmitter_sees tx_follows with_tables transmitter.ul_cp_context_repo s_repo]. by rewrite HCp.
Qed.

Lemma sector_event_spec e st held s m : sector_realizes st held s → sector_event_ok held e → 0 <= m → sector_room st held s (m + 1) →
  match spec_sector_event s e with
  | Ok s' => ∃ st', sector_step st e = Ok st' ∧ sector_realizes st' held s' ∧ sector_room st' held s' m
  | Fault f => sector_step st e = Fault f
  end.
Proof.
  intros HS He Hm HR. assert (HRx : (∀ x, e ≠ TxEvent x) → rx_event_ok rcfg symb subc dims held (rx_of e) →
    match (r ← rx_promise (sec_rx s) (rx_of e); Ok (mk_sector_spec (tx_follows r (sec_tx s)) r)) with
    | Ok s' => ∃ st', (r ← rx_step rcfg (ofh_receiver st) (rx_of e); Ok (mk_state (transmitter_sees r (ofh_transmitter st)) r)) = Ok st' ∧ sector_realizes st' held s' ∧ sector_room st' held s' m
    | Fault f => (r ← rx_step rcfg (ofh_receiver st) (rx_of e); Ok (mk_state (transmitter_sees r (ofh_transmitter st)) r)) = Fault f
    end).
  { intros HN Hok. pose proof (rx_event_sector e st held s m HS HN Hok Hm HR) as HX. destruct (rx_promise (sec_rx s) (rx_of e)) as [r|f]; cbn [mbind result_bind]; [|by rewrite HX].
    destruct HX as (r' & -> & HX). cbn [mbind result_bind]. by eexists. }
  destruct e as [e|accept buffer|accept p|k clears]; [by apply tx_event_sector|by apply HRx..].
Qed.

Lemma sector_run_spec es m : 0 <= m → ∀ st held s, sector_realizes st held s → Forall (sector_event_ok held) es → sector_room st held s (m + zlen es) →
  match spec_sector_run s es with
  | Ok s' => ∃ st', sector_run st es = Ok st' ∧ sector_realizes st' held s' ∧ sector_room st' held s' m
  | Fault f => sector_run st es = Fault f
  end.
Proof.
  intros Hm. unfold spec_sector_run, sector_run. induction es as [|e es IH]; intros st held s HS HF HR; cbn [fold_result].
  { exists st. change (zlen []) with 0 in HR. rewrite Z.add_0_r in HR. by split. }
  apply Forall_cons in HF as [He HF]. rewrite zlen_cons in HR. replace (m + (1 + zlen es)) with (m + zlen es + 1) in HR by lia. pose proof (zlen_nonneg es).
  pose proof (sector_event_spec e st held s (m + zlen es) HS He ltac:(lia) HR) as HX. destruct (spec_sector_event s e) as [s1|f]; cbn [mbind result_bind]; [|by rewrite HX]. destruct HX as (st1 & -> & HS1 & HR1). by apply IH.
Qed.

(** *** One symbol, from its slot to the end of its window *)

(** No later slot asks for the symbol's place. *)
Definition sector_quiet (i k : nat) (e : sector_event) : Prop :=
  match e with
  | TxEvent (UlSlot _ context _) => ∀ range, transmitter.ul_symbol_range tcfg (ctx_slot context) = Ok range →
      ¬ (index_of size (ctx_slot context) = i ∧ range_start range <= Z.of_nat k < range_stop range)
  | _ => True
  end.

Abbreviation cell_of := (λ s i k, cells (expected (sp_data (sec_rx s))) i k).
Abbreviation told_by := (λ s, told (sp_data (sec_rx s))).

Lemma sector_event_evolves e st held s s' i k : sector_realizes st held s → sector_event_ok held e → sector_quiet i k e → spec_sector_event s e = Ok s' →
  ∃ new, told_by s' = told_by s ++ new ∧ evolves size i k (cell_of s i k) (cell_of s' i k) new.
Proof.
  intros HS He Hq HE. pose proof (re_placed _ _ _ _ _ _ _ _ _ _ (rr_data _ _ _ _ _ _ _ _ _ _ _ (sr_rx _ _ _ HS))) as HP.
  assert (HRx : ∀ r, (∀ x, e ≠ TxEvent x) → rx_event_ok rcfg symb subc dims held (rx_of e) → rx_promise (sec_rx s) (rx_of e) = Ok r → s' = mk_sector_spec (tx_follows r (sec_tx s)) r →
    ∃ new, told_by s' = told_by s ++ new ∧ evolves size i k (cell_of s i k) (cell_of s' i k) new).
  { intros r HN Hok Hr ->. destruct HC as (_ & HCr & _). destruct (event_projects rcfg ports symb subc size size size dims HCr _ _ _ _ _ (sr_rx _ _ _ HS) Hok Hr) as (ds & ps & (HD & _ & _ & HQ & _)).
    destruct (promise_run_evolves (radio_receiver.ul_decoder rcfg) ul_eaxc ports subc size size ds i k _ (sp_data r) HP) as (new & HT & _ & HV); [|exact HD|by exists new]. apply HQ. constructor; [|constructor]. by destruct e. }
  destruct e as [e|accept buffer|accept p|n clears]; cbn [spec_sector_event] in HE; [|apply bind_Ok in HE as (r & Hr & [= <-]); by apply (HRx r)..].
  apply bind_Ok in HE as (t & Ht & [= <-]). exists []. split; [by rewrite app_nil_r|]. cbn [sec_rx rx_follows with_promises sp_data expected].
  destruct (tx_event_tables _ _ _ _ _ (sr_tx _ _ _ HS) (event_held (ofh_receiver st) held e He) Ht) as (HA & _). rewrite (sr_expected _ _ _ HS) in HA.
  destruct e as [| accept context gid| | |]; cbn [asked] in HA; try (rewrite HA; apply evolves_refl). destruct HA as (range & HR & HA).
  apply (spec_step_evolves ports subc size _ (Add accept context gid (range_start range) (range_stop range)) _ [] i k 0); [exact HP| |exact HA]. cbn [keeps]. by apply Hq.
Qed.

Lemma sector_run_evolves es i k : ∀ st held s s', sector_realizes st held s → Forall (sector_event_ok held) es → Forall (sector_quiet i k) es → sector_room st held s (zlen es) → spec_sector_run s es = Ok s' →
  ∃ new, told_by s' = told_by s ++ new ∧ evolves size i k (cell_of s i k) (cell_of s' i k) new.
Proof.
  unfold spec_sector_run. induction es as [|e es IH]; intros st held s s' HS HF HQ HR; cbn [fold_result]; [intros [= <-]; exists []; rewrite app_nil_r; split; [done|apply evolves_refl]|].
  apply Forall_cons in HF as [He HF]. apply Forall_cons in HQ as [Hq HQ]. rewrite zlen_cons in HR. rewrite Z.add_comm in HR. intros (s1 & H1 & H2)%bind_Ok.
  pose proof (sector_event_spec e st held s (zlen es) HS He (zlen_nonneg es) HR) as HX. rewrite H1 in HX. destruct HX as (st1 & _ & HS1 & HR1).
  destruct (sector_event_evolves e st held s s1 i k HS He Hq H1) as (n1 & T1 & V1). destruct (IH st1 held s1 s' HS1 HF HQ HR1 H2) as (n2 & T2 & V2). exists (n1 ++ n2). rewrite T2, T1, app_assoc. split; [done|by eapply evolves_app].
Qed.

(** C15: the sector refines its parts on shared tables: for any interleaving of what the upper
    layer hands to the transmitter, of symbols, of frames from the network and of the tasks of
    both parts, the bursts sent, the late grids, the symbols and the occasions told are those of
    the transmitter's and the receiver's promises when both work on one table of expected
    symbols, one table of awaited occasions and one repository of commands. *)
Theorem sector_refines es st held s : sector_realizes st held s → Forall (sector_event_ok held) es → sector_room st held s (zlen es) →
  match spec_sector_run s es with
  | Ok s' => ∃ st', sector_run st es = Ok st' ∧ sector_realizes st' held s' ∧
      transmitter.sent (ofh_transmitter st') = s_sent (sec_tx s') ∧ transmitter.late_grids (ofh_transmitter st') = s_late (sec_tx s') ∧
      radio_receiver.symbols_notified (ofh_receiver st') = told (sp_data (sec_rx s')) ∧ radio_receiver.prach_notified (ofh_receiver st') = prach_told (sp_prach (sec_rx s'))
  | Fault f => sector_run st es = Fault f
  end.
Proof.
  intros HS HF HR. pose proof (sector_run_spec es 0 ltac:(lia) st held s HS HF HR) as HX. destruct (spec_sector_run s es) as [s'|f]; [|done]. destruct HX as (st' & HX & HS' & _). exists st'. split; [done|]. split; [done|].
  destruct HS' as [[] [_ _ _ [] [] _ _] _ _ _]. done.
Qed.

(** The window of a symbol closes: it is no longer expected. *)
Lemma window_closed q q' point slot x i k : placed size (expected q) → slot_symbol_point.get_slot point = Ok slot → slot_symbol_point.get_symbol_index point = Ok (Z.of_nat x) →
  promise_step (radio_receiver.ul_decoder rcfg) ul_eaxc ports subc size size q (Closed point) = Ok q' →
  (∃ new, told q' = told q ++ new ∧ evolves size i k (cells (expected q) i k) (cells (expected q') i k) new) ∧ cells (expected q') (index_of size slot) x = None.
Proof.
  intros HP Hg Hi HE. split.
  - destruct (promise_step_evolves (radio_receiver.ul_decoder rcfg) ul_eaxc ports subc size size q (Closed point) q' i k HP I HE) as (new & HT & _ & HV). by exists new.
  - cbn [promise_step] in HE. rewrite Hg in HE. cbn [mbind result_bind] in HE. rewrite Hi in HE. cbn [mbind result_bind] in HE. injection HE as <-. rewrite Nat2Z.id. unfold taking. cbn [spec_run spec_step].
    destruct (cells (expected q) (index_of size slot) x) eqn:Hc; cbn [mbind option_bind expected cells]; [|done]. unfold upd. by rewrite decide_True.
Qed.

(** C16: every symbol of an uplink slot is answered once: after the transmitter is given an uplink
    slot with a grid, through any other requests, bursts, frames of any octets from the network,
    and tasks, the run of the receiver's task that closes the window of a symbol in which the slot
    is for the uplink succeeds, and then, if no later slot has taken the symbol's place, the
    consumer has been told that symbol exactly once, with the slot, the sector and the grid that
    were given. *)
Theorem slot_served es st held s st1 accept context gid range k clears point slot x :
  sector_realizes st held s → Forall (sector_event_ok held) (TxEvent (UlSlot accept context gid) :: es) → sector_room st held s (zlen es + 2) →
  sector_run st (TxEvent (UlSlot accept context gid) :: es) = Ok st1 → radio_receiver.pending (ofh_receiver st1) !! k = Some (radio_receiver.ClosedTask point) →
  slot_symbol_point.get_slot point = Ok slot → slot_symbol_point.get_symbol_index point = Ok (Z.of_nat x) →
  transmitter.ul_symbol_range tcfg (ctx_slot context) = Ok range → range_start range <= Z.of_nat x < range_stop range → index_of size slot = index_of size (ctx_slot context) →
  Forall (sector_quiet (index_of size slot) x) es →
  ∃ st' new, sector_step st1 (RxTask k clears) = Ok st' ∧ radio_receiver.symbols_notified (ofh_receiver st') = radio_receiver.symbols_notified (ofh_receiver st) ++ new ∧
    told_at size (index_of size slot) x new = [the_notification x context gid].
Proof.
  intros HS HF HR HE Hk Hg Hi Hrange Hx Hslot HQ. apply Forall_cons in HF as [He HF]. pose proof (zlen_nonneg es). unfold sector_run in HE. cbn [fold_result] in HE. apply bind_Ok in HE as (st0 & E0 & HE).
  replace (zlen es + 2) with (zlen es + 1 + 1) in HR by lia. pose proof (sector_event_spec _ st held s (zlen es + 1) HS He ltac:(lia) HR) as HX0. rewrite E0 in HX0. destruct (spec_sector_event s _) as [s0|] eqn:HP0; [|done]. destruct HX0 as (? & [= <-] & HS0 & HR0).
  assert (HR0' : sector_room st0 held s0 (1 + zlen es)) by (by rewrite Z.add_comm). pose proof (sector_run_spec es 1 ltac:(lia) st0 held s0 HS0 HF HR0') as HX. change (sector_run st0 es) with (fold_result sector_step st0 es) in HX. rewrite HE in HX.
  destruct (spec_sector_run s0 es) as [s1|] eqn:HP; [|done]. destruct HX as (? & [= <-] & HS1 & HR1).
  assert (HRe : sector_room st0 held s0 (zlen es)) by (destruct HR0 as [A B]; split; [apply (room_le tcfg Q _ _ (16 * (zlen es + 1))); [lia|exact A]|unfold rx_room in *; lia]).
  destruct (sector_run_evolves es _ x st0 held s0 s1 HS0 HF HQ HRe HP) as (n1 & T1 & V1). destruct HC as (_ & HCr & _).
  destruct (closed_runs rcfg ports symb subc size size size dims HCr (ofh_receiver st1) held (sec_rx s1) k clears point (sr_rx _ _ _ HS1) (proj2 HR1) Hk) as (r' & r & Hstep & HQr & _ & HD & _).
  destruct (window_closed (sp_data (sec_rx s1)) (sp_data r) point slot x (index_of size slot) x (re_placed _ _ _ _ _ _ _ _ _ _ (rr_data _ _ _ _ _ _ _ _ _ _ _ (sr_rx _ _ _ HS1))) Hg Hi HD) as ((n2 & T2 & V2) & HN).
  exists (mk_state (transmitter_sees r' (ofh_transmitter st1)) r'), (n1 ++ n2). split; [cbn [sector_step rx_of]; by rewrite Hstep|].
  cbn [spec_sector_event] in HP0. apply bind_Ok in HP0 as (t & Ht & [= <-]). destruct (tx_event_tables _ _ _ _ _ (sr_tx _ _ _ HS) (event_held (ofh_receiver st) held _ He) Ht) as ((range' & Hr' & HA) & _). rewrite Hrange in Hr'. injection Hr' as <-.
  cbn [spec_step] in HA. injection HA as HA. cbn [sec_rx rx_follows with_promises sp_data told expected] in T1, V1. split.
  - pose proof (re_told _ _ _ _ _ _ _ _ _ _ (rr_data _ _ _ _ _ _ _ _ _ _ _ HQr)) as A1. pose proof (re_told _ _ _ _ _ _ _ _ _ _ (rr_data _ _ _ _ _ _ _ _ _ _ _ (sr_rx _ _ _ HS))) as A2.
    cbn [radio_receiver.data_view uplink_data_flow.notified ofh_receiver] in *. by rewrite A1, A2, T2, T1, app_assoc.
  - pose proof (evolves_app _ _ _ _ _ _ _ _ V1 V2) as V. rewrite HN in V. rewrite <- HA in V. cbn [cells] in V. rewrite decide_True in V by done. destruct V as [(c' & HV & _)|[_ HV]]; [done|exact HV].
Qed.
End sector.

Module sector_examples.
Import uplane sector_impl uplink_examples.

#[local] Instance sec_compressor : IqCompressor := selector_compressor compression_examples.example_compressors.
#[local] Instance sec_decompressor : IqDecompressor := selector_decompressor compression_examples.example_compressors.
#[local] Instance sec_fills : DecompressorFills sec_decompressor := selector_fills _.
#[local] Instance sec_dimensions : Dimensions 1 14 12 5 := transmitter_examples.slot_dimensions.

Abbreviation tcfg := transmitter_examples.cfg.
Abbreviation rcfg := reception_examples.cfg.
Abbreviation dims := prach_examples.buffer_dims.

(** A sector whose repositories keep five slots. *)
Definition repository : uplink_cplane_context_repository.t := uplink_cplane_context_repository.create 5.
Definition slots : uplink_context_repository.t := uplink_context_repository.create transmitter_examples.slot_pool 5.
Definition counters : list Z := transmitter_examples.counters.
Definition initial : state :=
  mk_state
    (transmitter.mk_state (eth_frame_pool.create 200 2) (counters, counters) (counters, counters) counters repository slots [prach_buffer.create 1 1 1 1 139] (prach_context_repository.create 5) transmitter_examples.clock [] [] [])
    (radio_receiver.mk_state sequence_id_checker.init rx_window_checker.example_checker slots repository [prach_buffer.create 1 1 1 1 139] (prach_context_repository.create 5) [] [] []).
Definition promised : sector_spec :=
  mk_sector_spec
    (mk_spec initial_rings (counters, counters) (counters, counters) counters repository (nothing_expected transmitter_examples.slot_pool) (awaited prach_examples.prach_promised) transmitter_examples.clock [] [] [])
    (mk_rx_spec sequence_id_checker.init rx_window_checker.example_checker
       (mk_promise (nothing_expected transmitter_examples.slot_pool) (λ _ _, uplink_cplane_context_repository.default) []) prach_examples.prach_promised []).

(** The radio unit answers the command for symbol [k] of the slot. *)
Definition answer (k : Z) : list Z :=
  match build_message cplane.dynamic_compression true (replicate 38 0) example_block (mk_params downlink example_slot standard_channel_filter 0 1 k type_1 (mk_compr BFP 9)) with
  | Ok (_, b) => 16 :: tl b
  | Fault _ => []
  end.
Definition answer_frame (k seq : Z) : list Z := reception_examples.unit_frame 3 seq (answer k).

(** A downlink grid, an uplink slot of the symbols 10 to 13 and an occasion are handed over; the
    radio unit answers for symbol 10 and the preamble, symbol 11 is lost. *)
Definition slot_given : sector_event := TxEvent (UlSlot true example_context 0).
Definition session : list sector_event :=
  [TxEvent (UlPrach prach_examples.short_occasion 0); TxEvent (DlData false (λ _, (true, true)) example_context downlink_examples.grid);
   TxEvent (Run 0 downlink_examples.temp); TxEvent (Run 0 downlink_examples.temp); TxEvent (Symbol true (transmitter_examples.before 10)); TxEvent (Run 0 downlink_examples.temp);
   FrameReceived true (answer_frame 10 7); FrameReceived true reception_examples.foreign_frame; FrameReceived true (reception_examples.preamble_frame 1); RxTask 0 true; RxTask 0 true; RxTask 0 true;
   SymbolReceived true (reception_examples.closes 11)].

Lemma sec_cfg_ok : sector_config_ok tcfg rcfg 2 200 14 5.
Proof.
  split; [|split; [exact reception_examples.rx_cfg_ok|]].
  - pose proof transmitter_examples.tx_cfg_ok as (C1 & C2 & C3 & C4 & C5 & C6 & C7 & C8 & C9 & C10 & C11 & C12 & C13 & C14 & _). do 14 (split; [done|]). reflexivity.
  - intros e He%list_elem_of_singleton _. by apply list_elem_of_singleton.
Qed.

Lemma sec_initial_realizes : sector_realizes tcfg rcfg 2 200 1 14 12 5 dims 1 initial [Some 0] promised.
Proof.
  destruct transmitter_examples.slot_pool_counted as [HC HS]. assert (HI : implements 1 14 12 5 slots [Some 0] (nothing_expected transmitter_examples.slot_pool)) by (by apply create_implements).
  destruct transmitter_examples.initial_implements. constructor; [|constructor; [done| |done| | |done|constructor]|done..].
  - constructor; try done. split; [lia|]. split; [reflexivity|]. apply Forall_replicate. reflexivity.
  - exact (rr_seq_wf _ _ _ _ _ _ _ _ _ _ _ reception_examples.rx_initial_realizes).
  - constructor; [exact HI|exact (re_cplane _ _ _ _ _ _ _ _ _ _ (flow_examples.initial_realizes [3] [3; 4]))|done|done].
  - exact prach_examples.prach_initial_realizes.
Qed.

Abbreviation event_ok := (sector_event_ok tcfg rcfg 200 14 12 dims 1 [Some 0]).

Lemma sec_session_ok : Forall event_ok (slot_given :: session).
Proof.
  constructor; [split; [apply elem_of_cons; by left|slot_point.solve_wf]|].
  repeat (constructor; [first [exact transmitter_examples.occasion_event_ok|apply transmitter_examples.grid_event_ok|apply transmitter_examples.symbol_event_ok; lia|
    cbn [sector_event_ok rx_of rx_event_ok]; apply (reception_examples.arrival_ok true); vm_compute; reflexivity|cbn [sector_event_ok rx_of rx_event_ok]; apply (reception_examples.closes_ok true); lia|reflexivity|exact I]|]). constructor.
Qed.

Lemma sec_room m : 0 <= m <= 60 → sector_room 2 5 initial [Some 0] promised m.
Proof.
  intros Hm. split; [apply downlink_examples.initial_room; lia|]. unfold rx_room. change (zlen _) with 0 at 1. change (zlen [Some 0]) with 1. change MAX_NSYMB_PER_SLOT with 14. change grid_pool.ref_counter_available with (2 ^ 32 - 1). lia.
Qed.

(** Commands and data go out in one burst; the answered symbol and the preamble are told. *)
Lemma sector_refines_witness :
  ∃ st', sector_run tcfg rcfg initial (slot_given :: session) = Ok st' ∧ map (map zlen) (transmitter.sent (ofh_transmitter st')) = [[64; 64; 64; 198; 170; 198; 170]] ∧
    radio_receiver.symbols_notified (ofh_receiver st') = [the_notification 10 example_context 0] ∧ radio_receiver.prach_notified (ofh_receiver st') = [reception_examples.the_occasion].
Proof.
  pose proof (sector_refines tcfg rcfg 2 200 1 14 12 5 dims 1 sec_cfg_ok (slot_given :: session) initial [Some 0] promised sec_initial_realizes sec_session_ok) as HT.
  assert (HX : match spec_sector_run tcfg rcfg 200 1 12 5 dims promised (slot_given :: session) with
    | Ok s => (map (map zlen) (s_sent (sec_tx s)), told (sp_data (sec_rx s)), prach_told (sp_prach (sec_rx s))) | Fault _ => ([], [], []) end =
    ([[64; 64; 64; 198; 170; 198; 170]], [the_notification 10 example_context 0], [reception_examples.the_occasion])) by (vm_compute; reflexivity).
  destruct (spec_sector_run tcfg rcfg 200 1 12 5 dims promised (slot_given :: session)) as [s'|f]; [|discriminate HX].
  destruct HT as (st' & HE & _ & HS & _ & HN & HP); [apply sec_room; vm_compute; split; discriminate|]. injection HX as H1 H2 H3.
  exists st'. split; [exact HE|]. rewrite HS, HN, HP. split; [exact H1|]. split; [exact H2|exact H3].
Defined.

(** The lost symbol 11 is told when its window closes. *)
Lemma slot_served_witness :
  ∃ st1 st' new, sector_run tcfg rcfg initial (slot_given :: session) = Ok st1 ∧ sector_step tcfg rcfg st1 (RxTask 0 true) = Ok st' ∧
    radio_receiver.symbols_notified (ofh_receiver st') = [] ++ new ∧ told_at 5 (index_of 5 example_slot) 11 new = [the_notification 11 example_context 0].
Proof.
  assert (HX : match sector_run tcfg rcfg initial (slot_given :: session) with Ok st => radio_receiver.pending (ofh_receiver st) !! 0%nat | Fault _ => None end = Some (radio_receiver.ClosedTask (flow_examples.example_closed 11))) by (vm_compute; reflexivity).
  destruct (sector_run tcfg rcfg initial (slot_given :: session)) as [st1|f] eqn:HE; [|discriminate HX].
  destruct (slot_served tcfg rcfg 2 200 1 14 12 5 dims 1 sec_cfg_ok session initial [Some 0] promised st1 true example_context 0 (mk_range 10 14) 0%nat true (flow_examples.example_closed 11) example_slot 11%nat
    sec_initial_realizes sec_session_ok) as (st' & new & HS & HN & HT).
  - apply sec_room. vm_compute. split; discriminate.
  - exact HE.
  - exact HX.
  - vm_compute. reflexivity.
  - vm_compute. reflexivity.
  - vm_compute. reflexivity.
  - split; vm_compute; congruence.
  - reflexivity.
  - repeat constructor.
  - exists st1, st', new. split; [reflexivity|]. split; [exact HS|]. split; [exact HN|exact HT].
Defined.
End sector_examples.
