(* ===== verification/SectorFactory.v ===== *)
(** * SectorFactory: from a configuration to a sector

    Models lib/ofh/ofh_factories.cpp, the factories of the transmitter
    (ofh_transmitter_factories.cpp) and of the receiver (ofh_receiver_factories.cpp,
    ofh_receiver_impl.cpp), the constructors that compute what they keep, and
    lib/ru/ofh/ru_ofh_config_validator.cpp.  Loggers, executors, notifiers and the Ethernet
    sockets with their options are left out.

    A configuration that the validator accepts and that satisfies what it does not check gives a
    sector that is configured and starts as the refinement theorems ask for
    ([sector_created]). *)

From S2P Require Import Prelude Bf16 Float SlotPoint OfhBase BitBuffer OfhCplane OfhUplane OfhCompression Ecpri Ethernet ResourceGrid GridPool FramePool OfhReceiver UplinkContext UplinkFlow TxSupport Tdd Prach PrachFlow DownlinkFlow SchedulingFlow RadioReceiver Transmitter Sector.

(** [enum class bs_channel_bandwidth] *)
Inductive bs_channel_bandwidth : Type :=
| bw_invalid | MHz5 | MHz10 | MHz15 | MHz20 | MHz25 | MHz30 | MHz35 | MHz40 | MHz45 | MHz50 | MHz60 | MHz70 | MHz80 | MHz90 | MHz100 | MHz200 | MHz400.

Definition bs_channel_bandwidth_to_MHz (bw : bs_channel_bandwidth) : Z :=
  match bw with
  | bw_invalid => 0 | MHz5 => 5 | MHz10 => 10 | MHz15 => 15 | MHz20 => 20 | MHz25 => 25 | MHz30 => 30 | MHz35 => 35 | MHz40 => 40 | MHz45 => 45 | MHz50 => 50
  | MHz60 => 60 | MHz70 => 70 | MHz80 => 80 | MHz90 => 90 | MHz100 => 100 | MHz200 => 200 | MHz400 => 400
  end.

Record rx_window_timing_parameters : Type := mk_rx_timing { rx_sym_start : Z; rx_sym_end : Z }.

Definition ECPRI_ETH_TYPE : Z := 0xaefe.

(** [get_max_Nprb] of a bandwidth label. *)
Definition nof_prbs_of (bw : bs_channel_bandwidth) (scs : subcarrier_spacing) : result Z := get_max_Nprb (bs_channel_bandwidth_to_MHz bw) scs FR1.

(** ** The transmitter *)
Module transmitter_factory.

Record transmitter_config : Type := mk_config {
  sector : Z; bw : bs_channel_bandwidth; scs : subcarrier_spacing; cp : cyclic_prefix; tx_timing_params : tx_window_timing_parameters;
  dl_eaxc : list Z; ul_eaxc : list Z; prach_eaxc : list Z; is_prach_cp_enabled : bool; mac_dst_address : list Z; mac_src_address : list Z;
  tci_cp : option Z; tci_up : option Z; mtu_size : Z; ru_working_bw : bs_channel_bandwidth;
  dl_compr_params : ru_compression_params; ul_compr_params : ru_compression_params; prach_compr_params : ru_compression_params;
  is_downlink_static_compr_hdr_enabled : bool; is_uplink_static_compr_hdr_enabled : bool; downlink_broadcast : bool; iq_scaling : spec_float;
  dl_processing_time : Z; tdd_config : option tdd.tdd_ul_dl_config_common }.

Definition compression_mode_of (static_compr_header_enabled : bool) : cplane.compression_mode :=
  if static_compr_header_enabled then cplane.static_compression else cplane.dynamic_compression.

(** The builder of frames with a tag, if there is one. *)
Definition eth_builder (c : transmitter_config) (tci : option Z) : frame_builder.t :=
  let params := ethernet.mk_params (mac_dst_address c) (mac_src_address c) tci ECPRI_ETH_TYPE in
  match tci with Some _ => frame_builder.vlan_frame_builder_impl params | None => frame_builder.frame_builder_impl params end.

Definition create_data_flow_cplane_sched (c : transmitter_config) (static_compr_header_enabled : bool) : result cplane_flow.config :=
  ru_nof_prbs ← nof_prbs_of (ru_working_bw c) (scs c);
  Ok (cplane_flow.mk_config (get_nsymb_per_slot (cp c)) ru_nof_prbs (dl_compr_params c) (ul_compr_params c) (prach_compr_params c)
        (compression_mode_of static_compr_header_enabled) (eth_builder c (tci_cp c))).

(** The scaling of the samples: the product of a [float] and a [double], converted to the
    [float] the compressors take. *)
Definition scaling (c : transmitter_config) : result spec_float :=
  nof_prbs ← nof_prbs_of (bw c) (scs c);
  let bw_scaling := f64_div (f64_of_Z 1) (SFsqrt 53 1024 (f64_of_Z (wrap 32 (nof_prbs * NOF_SUBCARRIERS_PER_RB)))) in
  Ok (f32_of_f64 (f64_mul (f64_of_f32 (iq_scaling c)) bw_scaling)).

Definition create_data_flow_uplane_data (c : transmitter_config) : result (uplane_downlink_flow.config * list implementation) :=
  ru_nof_prbs ← nof_prbs_of (ru_working_bw c) (scs c);
  s ← scaling c;
  compressors ← create_compressors s;
  Ok (uplane_downlink_flow.mk_config (get_nsymb_per_slot (cp c)) ru_nof_prbs (dl_compr_params c) (compression_mode_of (is_downlink_static_compr_hdr_enabled c)) (eth_builder c (tci_up c)),
      compressors).

(** The builders are created to ask for the sizes of their headers. *)
Definition pool_headers_size (c : transmitter_config) : Z :=
  (match tci_up c, tci_cp c with None, None => ethernet.get_header_size | _, _ => ethernet.vlan_get_header_size end) +
  ecpri.get_header_size ecpri.iq_data + uplane.get_header_size (compression_mode_of (is_downlink_static_compr_hdr_enabled c)) (dl_compr_params c).

Definition create_eth_frame_pool (c : transmitter_config) : result eth_frame_pool.t :=
  nof_prbs ← nof_prbs_of (ru_working_bw c) (scs c);
  nof_frames_per_symbol ← fragment_size_calculator.calculate_nof_segments (mtu_size c) nof_prbs (dl_compr_params c) (pool_headers_size c);
  Ok (eth_frame_pool.create (mtu_size c) nof_frames_per_symbol).

(** The checker of the downlink handler; [count] is what its counter happens to hold. *)
Definition create_window_checker (c : transmitter_config) (count : Z) : result tx_window_checker.t :=
  advance ← calculate_nof_symbols_before_ota (get_nsymb_per_slot (cp c)) (to_numerology_value (scs c)) (dl_processing_time c) (tx_timing_params c);
  Ok (tx_window_checker.mk advance (get_nsymb_per_slot (cp c)) (to_numerology_value (scs c)) count).

(** The transmitter on the given repositories, with its compressors. *)
Definition create_transmitter (c : transmitter_config) (count : Z) (cp_repo : uplink_cplane_context_repository.t) (slot_repo : uplink_context_repository.t)
    (buffers : list prach_buffer.t) (prach_repo : prach_context_repository.t) : result (transmitter.config * list implementation * transmitter.state) :=
  pool ← create_eth_frame_pool c;
  dl_cplane ← create_data_flow_cplane_sched c (is_downlink_static_compr_hdr_enabled c);
  '(dl_uplane, compressors) ← create_data_flow_uplane_data c;
  checker ← create_window_checker c count;
  ul_cplane ← create_data_flow_cplane_sched c (is_uplink_static_compr_hdr_enabled c);
  let gen := sequence_identifier_generator.create 0 in
  Ok (transmitter.mk_config (sector c) (cp c) (tdd_config c) (dl_eaxc c) (ul_eaxc c) (prach_eaxc c) (is_prach_cp_enabled c) (tx_timing_params c) dl_cplane ul_cplane dl_uplane,
      compressors, transmitter.mk_state pool (gen, gen) (gen, gen) gen cp_repo slot_repo buffers prach_repo checker [] [] []).
End transmitter_factory.

(** ** The receiver *)
Module receiver_factory.

Record receiver_config : Type := mk_config {
  ru_operating_bw : bs_channel_bandwidth; scs : subcarrier_spacing; cp : cyclic_prefix; is_uplink_static_compr_hdr_enabled : bool;
  prach_compression_params : ru_compression_params; ul_compression_params : ru_compression_params; is_prach_control_plane_enabled : bool;
  ignore_ecpri_payload_size_field : bool; ignore_ecpri_seq_id_field : bool; prach_eaxc : list Z; ul_eaxc : list Z;
  mac_dst_address : list Z; mac_src_address : list Z; tci : option Z; rx_timing_params : rx_window_timing_parameters }.

Definition create_uplane_decoder (c : receiver_config) (compr_params : ru_compression_params) : result uplane.decoder :=
  nof_prbs_ru ← nof_prbs_of (ru_operating_bw c) (scs c);
  Ok (uplane.mk_decoder (scs c) (get_nsymb_per_slot (cp c)) nof_prbs_ru (if is_uplink_static_compr_hdr_enabled c then Some compr_params else None)).

Definition get_message_receiver_configuration (c : receiver_config) : message_receiver.config :=
  message_receiver.mk_config (get_nsymb_per_slot (cp c)) (scs c) (ethernet.mk_params (mac_dst_address c) (mac_src_address c) (tci c) ECPRI_ETH_TYPE) (prach_eaxc c) (ul_eaxc c)
    (if ignore_ecpri_payload_size_field c then ecpri.ignore_header_payload_size else ecpri.use_header_payload_size)
    (if ignore_ecpri_seq_id_field c then sequence_id_checker.sequence_id_checker_dummy_impl else sequence_id_checker.sequence_id_checker_impl).

(** The checker of the reception window; [log_enabled]: of the logger. *)
Definition create_window_checker (c : receiver_config) (log_enabled : bool) (count : Z) : result rx_window_checker.t :=
  let symbol_duration := f64_div (f64_of_Z 1000000) (f64_of_Z (wrap 32 (get_nsymb_per_slot (cp c) * get_nof_slots_per_subframe (to_numerology_value (scs c))))) in
  nof_symbols_in_one_second ← to_unsigned (sf_ceil (f64_div (f64_of_Z 1000000000) symbol_duration));
  Ok (rx_window_checker.mk (rx_sym_start (rx_timing_params c)) (rx_sym_end (rx_timing_params c)) nof_symbols_in_one_second (negb log_enabled) 0 0 0 0 0 0 0 count []).

(** The receiver on the given repositories, with its decompressors. *)
Definition create_receiver (c : receiver_config) (log_enabled : bool) (count : Z) (cp_repo : uplink_cplane_context_repository.t) (slot_repo : uplink_context_repository.t)
    (buffers : list prach_buffer.t) (prach_repo : prach_context_repository.t) : result (radio_receiver.config * list implementation * radio_receiver.state) :=
  decompressors ← create_decompressors;
  ul_decoder ← create_uplane_decoder c (ul_compression_params c);
  prach_decoder ← create_uplane_decoder c (prach_compression_params c);
  checker ← create_window_checker c log_enabled count;
  Ok (radio_receiver.mk_config (get_message_receiver_configuration c) ul_decoder prach_decoder (is_prach_control_plane_enabled c) (rx_sym_end (rx_timing_params c)),
      decompressors, radio_receiver.mk_state sequence_id_checker.init checker slot_repo cp_repo buffers prach_repo [] [] []).
End receiver_factory.

(** ** The sector *)
Module sector_factory.

Record sector_configuration : Type := mk_config {
  sector_id : Z; mtu_size : Z; mac_dst_address : list Z; mac_src_address : list Z; tci_cp : option Z; tci_up : option Z;
  tx_window_timing_params : tx_window_timing_parameters; rx_window_timing_params : rx_window_timing_parameters;
  cp : cyclic_prefix; scs : subcarrier_spacing; bw : bs_channel_bandwidth; ru_operating_bw : bs_channel_bandwidth;
  prach_eaxc : list Z; dl_eaxc : list Z; ul_eaxc : list Z; is_prach_control_plane_enabled : bool; is_downlink_broadcast_enabled : bool;
  ignore_ecpri_payload_size_field : bool; ignore_ecpri_seq_id_field : bool;
  ul_compression_params : ru_compression_params; dl_compression_params : ru_compression_params; prach_compression_params : ru_compression_params;
  is_downlink_static_compr_hdr_enabled : bool; is_uplink_static_compr_hdr_enabled : bool; iq_scaling : spec_float;
  max_processing_delay_slots : Z; dl_processing_time : Z; nof_antennas_ul : Z; tdd_config : option tdd.tdd_ul_dl_config_common }.

(** Of the eAxCs only the first [nof_antennas_ul] are taken; the addresses are swapped. *)
Definition generate_receiver_config (c : sector_configuration) : result receiver_factory.receiver_config :=
  prach ← vec_range (prach_eaxc c) 0 (nof_antennas_ul c);
  ul ← vec_range (ul_eaxc c) 0 (nof_antennas_ul c);
  Ok (receiver_factory.mk_config (ru_operating_bw c) (scs c) (cp c) (is_uplink_static_compr_hdr_enabled c) (prach_compression_params c) (ul_compression_params c)
        (is_prach_control_plane_enabled c) (ignore_ecpri_payload_size_field c) (ignore_ecpri_seq_id_field c) prach ul
        (mac_src_address c) (mac_dst_address c) (tci_up c) (rx_window_timing_params c)).

Definition generate_transmitter_config (c : sector_configuration) : transmitter_factory.transmitter_config :=
  transmitter_factory.mk_config (sector_id c) (bw c) (scs c) (cp c) (tx_window_timing_params c) (dl_eaxc c) (ul_eaxc c) (prach_eaxc c) (is_prach_control_plane_enabled c)
    (mac_dst_address c) (mac_src_address c) (tci_cp c) (tci_up c) (mtu_size c) (ru_operating_bw c) (dl_compression_params c) (ul_compression_params c) (prach_compression_params c)
    (is_downlink_static_compr_hdr_enabled c) (is_uplink_static_compr_hdr_enabled c) (is_downlink_broadcast_enabled c) (iq_scaling c) (dl_processing_time c) (tdd_config c).

(** What a sector finds when it is created: the pool of the uplink grids, the buffers of the
    occasions, whether the logger is enabled, and what the two counters without an initial value
    hold. *)
Record surroundings : Type := mk_surroundings { grids : grid_pool.t; buffers : list prach_buffer.t; log_enabled : bool; rx_count : Z; tx_count : Z }.

(** The sector: its configurations, which of the two downlink handlers it has, its compressors
    and its state. *)
Record sector : Type := mk_sector {
  tx_config : transmitter.config; rx_config : radio_receiver.config; broadcast : bool; compressors : list implementation; decompressors : list implementation; parts : sector_impl.state }.

Definition repository_size (c : sector_configuration) : Z := wrap 32 (max_processing_delay_slots c * 4).

Definition create_ofh_sector (c : sector_configuration) (env : surroundings) : result sector :=
  let cp_repo := uplink_cplane_context_repository.create (repository_size c) in
  let prach_repo := prach_context_repository.create (repository_size c) in
  let slot_repo := uplink_context_repository.create (grids env) (repository_size c) in
  rx ← generate_receiver_config c;
  '(rcfg, decompressors, r) ← receiver_factory.create_receiver rx (log_enabled env) (rx_count env) cp_repo slot_repo (buffers env) prach_repo;
  '(tcfg, compressors, t) ← transmitter_factory.create_transmitter (generate_transmitter_config c) (tx_count env) cp_repo slot_repo (buffers env) prach_repo;
  Ok (mk_sector tcfg rcfg (is_downlink_broadcast_enabled c) compressors decompressors (sector_impl.mk_state t r)).
End sector_factory.

(** ** The configuration of a radio unit and its validator *)
Module ru_ofh_config.

Record ru_ofh_sector_configuration : Type := mk_sector_config {
  cp : cyclic_prefix; scs : subcarrier_spacing; bw : bs_channel_bandwidth; ru_operating_bw : option bs_channel_bandwidth;
  tx_window_timing_params : tx_window_timing_parameters; rx_window_timing_params : rx_window_timing_parameters;
  is_prach_control_plane_enabled : bool; is_downlink_broadcast_enabled : bool; ignore_ecpri_payload_size_field : bool; ignore_ecpri_seq_id_field : bool;
  ul_compression_params : ru_compression_params; dl_compression_params : ru_compression_params; prach_compression_params : ru_compression_params;
  is_downlink_static_comp_hdr_enabled : bool; is_uplink_static_comp_hdr_enabled : bool; iq_scaling : spec_float;
  mtu_size : Z; mac_dst_address : list Z; mac_src_address : list Z; tci_cp : option Z; tci_up : option Z;
  prach_eaxc : list Z; dl_eaxc : list Z; ul_eaxc : list Z; nof_antennas_ul : Z; tdd_config : option tdd.tdd_ul_dl_config_common }.

Record ru_ofh_configuration : Type := mk_config {
  sector_configs : list ru_ofh_sector_configuration; max_processing_delay_slots : Z; gps_Alpha : Z; gps_Beta : Z; dl_processing_time : Z }.

Definition check_compression_params (params : ru_compression_params) : bool :=
  if negb (bool_decide (compr_type params = none)) && negb (bool_decide (compr_type params = BFP)) then false else
  if bool_decide (compr_type params = BFP) && negb (data_width params =? 8) && negb (data_width params =? 9) && negb (data_width params =? 12) && negb (data_width params =? 14) &&
     negb (data_width params =? 16) then false
  else true.

Definition check_dl_eaxc_if_broadcast_is_enabled (c : ru_ofh_sector_configuration) : bool :=
  if is_downlink_broadcast_enabled c && negb (zlen (dl_eaxc c) =? 2) then false else true.

Definition check_eaxc_id (eaxc : Z) : bool := eaxc <? MAX_SUPPORTED_EAXC_ID_VALUE.
Definition check_eaxcs_id (c : ru_ofh_sector_configuration) : bool :=
  forallb check_eaxc_id (prach_eaxc c) && forallb check_eaxc_id (ul_eaxc c) && forallb check_eaxc_id (dl_eaxc c).

Definition check_sector (c : ru_ofh_sector_configuration) : bool :=
  check_compression_params (ul_compression_params c) && check_compression_params (dl_compression_params c) && check_compression_params (prach_compression_params c) &&
  check_dl_eaxc_if_broadcast_is_enabled c && check_eaxcs_id c.
Definition is_valid_ru_ofh_config (c : ru_ofh_configuration) : bool := forallb check_sector (sector_configs c).

Definition generate_sector_configuration (c : ru_ofh_configuration) (s : ru_ofh_sector_configuration) (sector_id : Z) : sector_factory.sector_configuration :=
  sector_factory.mk_config sector_id (mtu_size s) (mac_dst_address s) (mac_src_address s) (tci_cp s) (tci_up s) (tx_window_timing_params s) (rx_window_timing_params s)
    (cp s) (scs s) (bw s) (default (bw s) (ru_operating_bw s)) (prach_eaxc s) (dl_eaxc s) (ul_eaxc s) (is_prach_control_plane_enabled s) (is_downlink_broadcast_enabled s)
    (ignore_ecpri_payload_size_field s) (ignore_ecpri_seq_id_field s) (ul_compression_params s) (dl_compression_params s) (prach_compression_params s)
    (is_downlink_static_comp_hdr_enabled s) (is_uplink_static_comp_hdr_enabled s) (iq_scaling s) (max_processing_delay_slots c) (dl_processing_time c) (nof_antennas_ul s) (tdd_config s).

(** The checks of [create_ofh_ru] on a sector; the labels are compared by their values. *)
Definition fatal_checks (s : ru_ofh_sector_configuration) : bool :=
  match ru_operating_bw s with Some b => bs_channel_bandwidth_to_MHz (bw s) <=? bs_channel_bandwidth_to_MHz b | None => true end &&
  (if is_downlink_broadcast_enabled s then 1 <? zlen (dl_eaxc s) else true).

(** The sectors of [create_ofh_ru], each in its surroundings. *)
Fixpoint create_sectors (c : ru_ofh_configuration) (i : Z) (ss : list (ru_ofh_sector_configuration * sector_factory.surroundings)) : result (list sector_factory.sector) :=
  match ss with
  | [] => Ok []
  | (s, env) :: ss =>
      assume (fatal_checks s) FatalError;;
      sector ← sector_factory.create_ofh_sector (generate_sector_configuration c s i) env;
      sectors ← create_sectors c (i + 1) ss;
      Ok (sector :: sectors)
  end.
End ru_ofh_config.

(** ** What a configuration must satisfy *)
Import sector_factory.

(** What the validator and the checks of [create_ofh_ru] do not look at: a bandwidth the radio
    unit has blocks for, a width for samples that are not compressed, frames with room for a
    block, six octets per address, windows and a pattern in range, as many eAxCs as antennas
    and no more than a [static_vector] holds, and no uplink eAxC without an antenna among those
    of the preambles. *)
Record unchecked (c : sector_configuration) : Prop := {
  uc_blocks : ∃ n, nof_prbs_of (ru_operating_bw c) (scs c) = Ok n ∧ 0 < n;
  uc_cell : ∃ n, nof_prbs_of (bw c) (scs c) = Ok n;
  uc_dl_width : compr_type (dl_compression_params c) = none → 8 <= data_width (dl_compression_params c) <= 16;
  uc_ul_width : compr_type (ul_compression_params c) = none → 0 <= data_width (ul_compression_params c) <= 16;
  uc_prach_width : compr_type (prach_compression_params c) = none → 0 <= data_width (prach_compression_params c) <= 16;
  uc_mtu : MIN_ETH_FRAME_LENGTH <= mtu_size c <= MAX_ETH_FRAME_LENGTH;
  uc_room : transmitter_factory.pool_headers_size (generate_transmitter_config c) + get_compressed_prb_size (dl_compression_params c) <= mtu_size c;
  uc_dst : zlen (mac_dst_address c) = 6;
  uc_src : zlen (mac_src_address c) = 6;
  uc_tx_window : timing_ok (tx_window_timing_params c);
  uc_rx_window : 0 <= rx_sym_end (rx_window_timing_params c) < 2 ^ 29;
  uc_processing : ∃ a, calculate_nof_symbols_before_ota (get_nsymb_per_slot (cp c)) (to_numerology_value (scs c)) (dl_processing_time c) (tx_window_timing_params c) = Ok a ∧ 0 <= a < 2 ^ 30;
  uc_tdd : from_option (tdd.tdd_ok (cp c)) True (tdd_config c);
  uc_unsigned : Forall (λ e, 0 <= e) (dl_eaxc c ++ ul_eaxc c ++ prach_eaxc c);
  uc_capacity : zlen (ul_eaxc c) <= 4 ∧ zlen (prach_eaxc c) <= 4;
  uc_antennas : 0 <= nof_antennas_ul c <= zlen (ul_eaxc c) ∧ nof_antennas_ul c <= zlen (prach_eaxc c);
  uc_shared : ∀ e, e ∈ ul_eaxc c → e ∈ take (Z.to_nat (nof_antennas_ul c)) (prach_eaxc c) → e ∈ take (Z.to_nat (nof_antennas_ul c)) (ul_eaxc c);
  uc_delay : 1 <= max_processing_delay_slots c < 2 ^ 20 }.

Definition checked (c : sector_configuration) : Prop :=
  ru_ofh_config.check_compression_params (ul_compression_params c) = true ∧ ru_ofh_config.check_compression_params (dl_compression_params c) = true ∧
  ru_ofh_config.check_compression_params (prach_compression_params c) = true ∧ Forall (λ e, e < MAX_SUPPORTED_EAXC_ID_VALUE) (dl_eaxc c ++ ul_eaxc c ++ prach_eaxc c).

Lemma sector_checked rc s i : ru_ofh_config.check_sector s = true → checked (ru_ofh_config.generate_sector_configuration rc s i).
Proof.
  unfold ru_ofh_config.check_sector, ru_ofh_config.check_eaxcs_id. rewrite !andb_true_iff. intros ((((H1 & H2) & H3) & _) & ((H4 & H5) & H6)). split; [done|]. split; [done|]. split; [done|].
  rewrite !Forall_app, !Forall_forall. rewrite !forallb_forall in *. cbn [dl_eaxc ul_eaxc prach_eaxc ru_ofh_config.generate_sector_configuration].
  split; [|split]; intros e He; apply Z.ltb_lt; [apply H6|apply H5|apply H4]; by apply list_elem_of_In.
Qed.

Lemma checked_width p : ru_ofh_config.check_compression_params p = true →
  (compr_type p = none ∨ compr_type p = BFP) ∧ uplane.is_selective (compr_type p) = false ∧ compr_type p ≠ block_scaling ∧ compr_type p ≠ reserved ∧ (compr_type p = BFP → 8 <= data_width p <= 16).
Proof.
  unfold ru_ofh_config.check_compression_params. destruct (compr_type p); cbn; try done.
  - intros _. split; [by left|done].
  - destruct (Z.eqb_spec (data_width p) 8), (Z.eqb_spec (data_width p) 9), (Z.eqb_spec (data_width p) 12), (Z.eqb_spec (data_width p) 14), (Z.eqb_spec (data_width p) 16); cbn; try done; intros _; (split; [by right|]); repeat (split; [done|]); lia.
Qed.

(** The bandwidths of FR1 exist for the three lowest spacings. *)
Lemma blocks_range b s n : nof_prbs_of b s = Ok n → 0 < n → 0 <= to_numerology_value s <= 2 ∧ n ∈ fr1_widths ∧ n <= 275.
Proof.
  intros HN Hn. assert (Hw : n ∈ fr1_widths) by (eapply fr1_width; [exact HN|lia]). split; [|split; [done|by apply fr1_widths_range]].
  split; [by destruct s|]. unfold nof_prbs_of, get_max_Nprb in HN. destruct (channel_bw_mhz_to_index_fr1 _) as [k|]; [|injection HN as <-; lia]. apply bind_Ok in HN as (row & Hrow & HN).
  apply vec_at_nat, list_elem_of_lookup_2 in Hrow. assert (HF : Forall (λ r, length r = 3%nat) rb_table_fr1) by (by repeat constructor). rewrite Forall_forall in HF. specialize (HF _ Hrow).
  apply vec_at_lookup_eq in HN as [HN H0]. apply lookup_lt_Some in HN. lia.
Qed.

(** ** The created sector *)
Section created.
Context (c : sector_configuration) (HK : checked c) (HU : unchecked c).
Abbreviation tc := (generate_transmitter_config c).
Abbreviation nsymb := (get_nsymb_per_slot (cp c)).
Abbreviation mu := (to_numerology_value (scs c)).
Abbreviation size := (repository_size c).

(** The configurations of the flows for [n] blocks. *)
Definition cplane_for (n : Z) (static : bool) : cplane_flow.config :=
  cplane_flow.mk_config nsymb n (dl_compression_params c) (ul_compression_params c) (prach_compression_params c) (transmitter_factory.compression_mode_of static) (transmitter_factory.eth_builder tc (tci_cp c)).
Definition uplane_for (n : Z) : uplane_downlink_flow.config :=
  uplane_downlink_flow.mk_config nsymb n (dl_compression_params c) (transmitter_factory.compression_mode_of (is_downlink_static_compr_hdr_enabled c)) (transmitter_factory.eth_builder tc (tci_up c)).

Lemma builder_wf tci : frame_builder.wf (transmitter_factory.eth_builder tc tci).
Proof.
  assert (HP : ∀ t, ethernet.params_ok (ethernet.mk_params (mac_dst_address c) (mac_src_address c) t ECPRI_ETH_TYPE)) by (intros t; split; [exact (uc_dst _ HU)|]; split; [exact (uc_src _ HU)|]; done).
  destruct tci as [t|]; cbn [transmitter_factory.eth_builder frame_builder.wf]; [split; [apply HP|by eexists]|apply HP].
Qed.

Lemma nsymb_values : nsymb = 12 ∨ nsymb = 14.
Proof. destruct (cp c); cbn; tauto. Qed.

Lemma dl_width : 8 <= data_width (dl_compression_params c) <= 16.
Proof. destruct HK as (_ & H & _). destruct (checked_width _ H) as ([E|E] & _ & _ & _ & HB); [by apply (uc_dl_width _ HU)|by apply HB]. Qed.
Lemma ul_width : 0 <= data_width (ul_compression_params c) <= 16.
Proof. destruct HK as (H & _). destruct (checked_width _ H) as ([E|E] & _ & _ & _ & HB); [by apply (uc_ul_width _ HU)|specialize (HB E); lia]. Qed.
Lemma prach_width : 0 <= data_width (prach_compression_params c) <= 16.
Proof. destruct HK as (_ & _ & H & _). destruct (checked_width _ H) as ([E|E] & _ & _ & _ & HB); [by apply (uc_prach_width _ HU)|specialize (HB E); lia]. Qed.

(** The headers of a frame are no longer than what the pool was sized for. *)
Lemma headers_bound n : uplane_downlink_flow.headers_size (uplane_for n) <= transmitter_factory.pool_headers_size tc.
Proof.
  unfold uplane_downlink_flow.headers_size, transmitter_factory.pool_headers_size, uplane_downlink_flow.ecpri_hdr_size, uplane_for. cbn [uplane_downlink_flow.eth_builder uplane_downlink_flow.mode uplane_downlink_flow.compr_params].
  cbn [transmitter_factory.tci_up transmitter_factory.tci_cp transmitter_factory.is_downlink_static_compr_hdr_enabled transmitter_factory.dl_compr_params generate_transmitter_config].
  destruct (tci_up c), (tci_cp c); cbn [transmitter_factory.eth_builder frame_builder.get_header_size]; change ethernet.vlan_get_header_size with 18; change ethernet.get_header_size with 14; lia.
Qed.

Lemma fragments_antitone k k' n : 0 < k <= k' → 0 < n → fragment_size_calculator.nof_fragments k' n <= fragment_size_calculator.nof_fragments k n.
Proof.
  intros Hk Hn. unfold fragment_size_calculator.nof_fragments. pose proof (Z.div_mod (n + k - 1) k ltac:(lia)). pose proof (Z.mod_pos_bound (n + k - 1) k ltac:(lia)).
  set (q := (n + k - 1) / k) in *. clearbody q. assert (Hq : n <= k * q) by lia. assert (0 < q) by nia. assert (k * q <= k' * q) by nia.
  assert ((n + k' - 1) / k' < q + 1); [|lia]. apply Z.div_lt_upper_bound; lia.
Qed.

(** The pool has enough frames for the fragments of a symbol. *)
Lemma frames_enough n : nof_prbs_of (ru_operating_bw c) (scs c) = Ok n → 0 < n →
  ∃ Q : nat, fragment_size_calculator.calculate_nof_segments (mtu_size c) n (dl_compression_params c) (transmitter_factory.pool_headers_size tc) = Ok (Z.of_nat Q) ∧
    frames_ok (uplane_for n) Q (mtu_size c) ∧ (0 < Q)%nat ∧ Z.of_nat Q * 8 < 2 ^ 32.
Proof.
  intros HN Hn. destruct (blocks_range _ _ _ HN Hn) as (_ & Hw & H275). pose proof dl_width as Hdw. pose proof (uc_mtu _ HU) as Hm. pose proof (uc_room _ HU) as Hroom. destruct HK as (_ & Hdl & _).
  destruct (checked_width _ Hdl) as (_ & Hsel & Hbs & Hres & _). pose proof (headers_bound n) as Hh. set (h := transmitter_factory.pool_headers_size tc) in *. set (hr := uplane_downlink_flow.headers_size (uplane_for n)) in *.
  set (sz := get_compressed_prb_size (dl_compression_params c)) in *.
  assert (Hsz : 3 * data_width (dl_compression_params c) + match compr_type (dl_compression_params c) with none | modulation => 0 | _ => 1 end = sz).
  { pose proof (fragment_size_calculator.prb_data_size_compressed (dl_compression_params c) ltac:(lia) Hbs Hres) as H1. rewrite fragment_size_calculator.prb_data_size_spec in H1 by lia. by injection H1. }
  assert (Hs : 24 <= sz) by (rewrite <- Hsz; destruct (compr_type (dl_compression_params c)); lia). unfold MIN_ETH_FRAME_LENGTH, MAX_ETH_FRAME_LENGTH in Hm.
  assert (Hcfg : DownlinkFlow.config_ok (uplane_for n)) by (split; [apply builder_wf|]; split; [cbn; lia|]; split; [done|cbn; lia]).
  destruct (DownlinkFlow.header_size_range (uplane_for n) Hcfg) as [Hg Hhr]. assert (H0 : 0 <= hr) by (destruct (frame_builder.zlen_octets _ (builder_wf (tci_up c))) as [_ Ho]; unfold hr; rewrite Hhr; cbn [uplane_for uplane_downlink_flow.eth_builder]; lia).
  pose proof (fragment_count.nof_segments_spec (mtu_size c) n (dl_compression_params c) h Hdw Hw ltac:(lia) ltac:(lia)) as HS. cbv zeta in HS. rewrite Hsz in HS. specialize (HS Hroom).
  assert (Hk : 0 < (mtu_size c - h) / sz) by (apply Z.div_str_pos; lia). assert (Hkk : (mtu_size c - h) / sz <= (mtu_size c - hr) / sz) by (apply Z.div_le_mono; lia).
  destruct (fragment_size_calculator.length_fragments ((mtu_size c - h) / sz) n Hk Hn) as [_ HF]. exists (Z.to_nat (fragment_size_calculator.nof_fragments ((mtu_size c - h) / sz) n)). rewrite Z2Nat.id by lia. split; [exact HS|]. split; [|split; lia].
  split; [done|]. split; [done|]. split; [done|]. split; [unfold MIN_ETH_FRAME_LENGTH, MAX_ETH_FRAME_LENGTH; lia|]. split; [change (hr + sz <= mtu_size c); lia|]. rewrite Z2Nat.id by lia. apply fragments_antitone; [split; [exact Hk|exact Hkk]|done].
Qed.

(** The eAxCs the receiver listens to. *)
Definition listened (l : list Z) : list Z := take (Z.to_nat (nof_antennas_ul c)) l.

Definition rc : receiver_factory.receiver_config :=
  receiver_factory.mk_config (ru_operating_bw c) (scs c) (cp c) (is_uplink_static_compr_hdr_enabled c) (prach_compression_params c) (ul_compression_params c)
    (is_prach_control_plane_enabled c) (ignore_ecpri_payload_size_field c) (ignore_ecpri_seq_id_field c) (listened (prach_eaxc c)) (listened (ul_eaxc c))
    (mac_src_address c) (mac_dst_address c) (tci_up c) (rx_window_timing_params c).
Definition decoder_for (n : Z) (p : ru_compression_params) : uplane.decoder := uplane.mk_decoder (scs c) nsymb n (if is_uplink_static_compr_hdr_enabled c then Some p else None).
Definition tx_for (n : Z) : transmitter.config :=
  transmitter.mk_config (sector_id c) (cp c) (tdd_config c) (dl_eaxc c) (ul_eaxc c) (prach_eaxc c) (is_prach_control_plane_enabled c) (tx_window_timing_params c)
    (cplane_for n (is_downlink_static_compr_hdr_enabled c)) (cplane_for n (is_uplink_static_compr_hdr_enabled c)) (uplane_for n).
Definition rx_for (n : Z) : radio_receiver.config :=
  radio_receiver.mk_config (receiver_factory.get_message_receiver_configuration rc) (decoder_for n (ul_compression_params c)) (decoder_for n (prach_compression_params c))
    (is_prach_control_plane_enabled c) (rx_sym_end (rx_window_timing_params c)).

Lemma antennas_range l : nof_antennas_ul c <= zlen l → 0 <= nof_antennas_ul c → vec_range l 0 (nof_antennas_ul c) = Ok (listened l).
Proof. intros H1 H2. unfold vec_range, listened. rewrite (proj2 (Z.leb_le _ _) H1), (proj2 (Z.leb_le _ _) H2). cbn [Z.leb andb]. by rewrite Z.sub_0_r. Qed.

Lemma size_range : size = max_processing_delay_slots c * 4 ∧ 4 <= size < 2 ^ 22.
Proof. pose proof (uc_delay _ HU). unfold repository_size. rewrite wrap_small by lia_fits. lia. Qed.

Lemma eaxcs_range l : l = dl_eaxc c ∨ l = ul_eaxc c ∨ l = prach_eaxc c → Forall (λ e, 0 <= e < 32) l.
Proof.
  pose proof (uc_unsigned _ HU) as H0. destruct HK as (_ & _ & _ & H1). unfold MAX_SUPPORTED_EAXC_ID_VALUE in H1. rewrite !Forall_app, !Forall_forall in *. intros [-> | [-> | ->]]; naive_solver.
Qed.

Lemma tx_config_for n Q : 0 < n → frames_ok (uplane_for n) Q (mtu_size c) → tx_config_ok (tx_for n) Q (mtu_size c) nsymb size size [].
Proof.
  intros Hn HF. pose proof dl_width. pose proof ul_width. pose proof prach_width. pose proof size_range as [_ Hs]. pose proof nsymb_values as Hv. pose proof (uc_capacity _ HU) as [Hc1 Hc2].
  assert (HC : ∀ b, command_config_ok (cplane_for n b) (mtu_size c)).
  { intros b. split; [split; [apply builder_wf|exact (uc_mtu _ HU)]|]. cbn. lia. }
  split; [apply HC|]. split; [apply HC|]. split; [done|]. split; [exact (uc_tx_window _ HU)|]. do 3 (split; [done|]). split; [exact (uc_tdd _ HU)|]. split; [apply eaxcs_range; by left|]. split; [apply eaxcs_range; right; by left|].
  split; [done|]. split; [done|]. split; [lia|]. split; [done|]. change MAX_NSYMB_PER_SLOT with 14. change (zlen []) with 0. unfold grid_pool.ref_counter_available. lia.
Qed.

Lemma rx_config_for n : 0 < n <= 275 → 0 <= mu <= 2 → rx_config_ok (rx_for n) size size.
Proof.
  intros Hn Hmu. pose proof size_range as [_ Hs]. pose proof nsymb_values as Hv. assert (Hscs : is_scs_valid (scs c) = true) by (unfold is_scs_valid; apply Z.leb_le; lia).
  assert (HD : ∀ p, 0 <= data_width p <= 16 → uplane.decoder_ok (decoder_for n p)) by (intros p Hp; split; [done|]; split; [cbn; lia|]; unfold decoder_for; cbn; by destruct (is_uplink_static_compr_hdr_enabled c)).
  split; [split; [done|]; split; [cbn; lia|]|]; [|split; [apply HD, ul_width|]; split; [cbn; change MAX_NSYMB_PER_SLOT with 14; lia|]; split; [apply HD, prach_width|]; split; [cbn; lia|]; split; [lia|]; split; [lia|exact (uc_rx_window _ HU)]].
  apply Forall_app. split; apply Forall_take, eaxcs_range; tauto.
Qed.

Lemma sector_config_for n Q : 0 < n <= 275 → 0 <= mu <= 2 → frames_ok (uplane_for n) Q (mtu_size c) → sector_config_ok (tx_for n) (rx_for n) Q (mtu_size c) nsymb size.
Proof.
  intros Hn Hmu HF. split; [apply tx_config_for; [lia|done]|]. split; [by apply rx_config_for|]. intros e He [Hu|Hp]%elem_of_app; [done|]. by apply (uc_shared _ HU).
Qed.

(** What is created, and the promise it starts with. *)
Definition compressors_for (x : spec_float) : list implementation := [generic_none x; generic_bfp x; death; death; death; death; death].
Definition tx_clock_for (a : Z) (env : surroundings) : tx_window_checker.t := tx_window_checker.mk a nsymb mu (tx_count env).
Definition rx_clock_for (env : surroundings) : rx_window_checker.t :=
  rx_window_checker.mk (rx_sym_start (rx_window_timing_params c)) (rx_sym_end (rx_window_timing_params c)) (nsymb * 2 ^ mu * 1000) (negb (log_enabled env)) 0 0 0 0 0 0 0 (rx_count env) [].
Definition state_for (Q : nat) (a : Z) (env : surroundings) : sector_impl.state :=
  let gen := sequence_identifier_generator.create 0 in
  let cp_repo := uplink_cplane_context_repository.create size in
  let slot_repo := uplink_context_repository.create (grids env) size in
  let prach_repo := prach_context_repository.create size in
  sector_impl.mk_state
    (transmitter.mk_state (eth_frame_pool.create (mtu_size c) (Z.of_nat Q)) (gen, gen) (gen, gen) gen cp_repo slot_repo (buffers env) prach_repo (tx_clock_for a env) [] [] [])
    (radio_receiver.mk_state sequence_id_checker.init (rx_clock_for env) slot_repo cp_repo (buffers env) prach_repo [] [] []).

(** No occasion is awaited; the samples are those of the buffers. *)
Definition nothing_awaited (bufs : list prach_buffer.t) : prach_abstract :=
  mk_prach_abstract (λ _, None) (λ i port s, match bufs !! i with Some b => prach_row b port s | None => [] end).

Definition promise_for (a : Z) (env : surroundings) : sector_spec :=
  let gen := sequence_identifier_generator.create 0 in
  mk_sector_spec
    (mk_spec initial_rings (gen, gen) (gen, gen) gen (uplink_cplane_context_repository.create size) (nothing_expected (grids env)) (nothing_awaited (buffers env)) (tx_clock_for a env) [] [] [])
    (mk_rx_spec sequence_id_checker.init (rx_clock_for env)
       (mk_promise (nothing_expected (grids env)) (λ _ _, uplink_cplane_context_repository.default) [])
       (mk_prach_promise (nothing_awaited (buffers env)) (λ _ _, uplink_cplane_context_repository.default) []) []).

(** A second has [nsymb * 2 ^ mu * 1000] symbols, also in double precision. *)
Lemma rx_clock_created env : 0 <= mu <= 2 → receiver_factory.create_window_checker rc (log_enabled env) (rx_count env) = Ok (rx_clock_for env).
Proof.
  intros Hmu. unfold receiver_factory.create_window_checker, rx_clock_for. cbn [receiver_factory.cp receiver_factory.scs receiver_factory.rx_timing_params rc].
  assert (HS : to_unsigned (sf_ceil (f64_div (f64_of_Z 1000000000) (f64_div (f64_of_Z 1000000) (f64_of_Z (wrap 32 (nsymb * get_nof_slots_per_subframe mu)))))) = Ok (nsymb * 2 ^ mu * 1000))
    by (destruct (cp c), (scs c); try (cbn in Hmu; lia); vm_compute; reflexivity). by rewrite HS.
Qed.

Lemma factory_spec env n Q a : nof_prbs_of (ru_operating_bw c) (scs c) = Ok n → 0 < n →
  fragment_size_calculator.calculate_nof_segments (mtu_size c) n (dl_compression_params c) (transmitter_factory.pool_headers_size tc) = Ok (Z.of_nat Q) →
  calculate_nof_symbols_before_ota nsymb mu (dl_processing_time c) (tx_window_timing_params c) = Ok a →
  ∃ x, transmitter_factory.scaling tc = Ok x ∧ create_ofh_sector c env = Ok (mk_sector (tx_for n) (rx_for n) (is_downlink_broadcast_enabled c) (compressors_for x) (compressors_for (f32_of_Z 1)) (state_for Q a env)).
Proof.
  intros HN Hn HQ Ha. destruct (blocks_range _ _ _ HN Hn) as (Hmu & _). pose proof (uc_antennas _ HU) as [Hu Hp].
  assert (HX : ∃ x, transmitter_factory.scaling tc = Ok x) by (destruct (uc_cell _ HU) as [m Hm]; unfold transmitter_factory.scaling; cbn [transmitter_factory.bw transmitter_factory.scs generate_transmitter_config]; rewrite Hm; by eexists).
  destruct HX as [x HX]. exists x. split; [done|]. unfold create_ofh_sector, generate_receiver_config. rewrite !antennas_range by lia. cbn [mbind result_bind].
  change (receiver_factory.mk_config _ _ _ _ _ _ _ _ _ _ _ _ _ _ _) with rc. unfold receiver_factory.create_receiver, receiver_factory.create_uplane_decoder. cbn [receiver_factory.ru_operating_bw receiver_factory.scs rc]. fold rc.
  rewrite HN, rx_clock_created by done. cbn [mbind result_bind create_decompressors]. 
  unfold transmitter_factory.create_transmitter, transmitter_factory.create_eth_frame_pool, transmitter_factory.create_data_flow_cplane_sched, transmitter_factory.create_data_flow_uplane_data, transmitter_factory.create_window_checker.
  rewrite HX. cbn [transmitter_factory.ru_working_bw transmitter_factory.scs transmitter_factory.mtu_size transmitter_factory.dl_compr_params transmitter_factory.cp transmitter_factory.dl_processing_time transmitter_factory.tx_timing_params generate_transmitter_config]. fold tc.
  rewrite HN. cbn [mbind result_bind]. rewrite HQ. cbn [mbind result_bind]. rewrite Ha. done.
Qed.

(** *** The start *)

(** Every reference to a grid of the pool is held by the upper layer, the grids and the buffers
    have their shapes, and the counter of the transmitter holds the number of a symbol. *)
Record surroundings_ok (env : surroundings) (held : list grid_pool.handle) (ports subc : Z) (dims : list (list Z)) : Prop := {
  so_counted : counted (grids env) held;
  so_shaped : Forall (shaped ports nsymb subc) (grid_pool.grids (grids env));
  so_held : zlen held < 2 ^ 31;
  so_buffers : Forall buffer_ok (buffers env);
  so_dims : of_dims dims (buffers env);
  so_count : 0 <= tx_count env < 10240 * 2 ^ mu * nsymb }.

Lemma commands_created eaxcs heard : cplane_realizes eaxcs heard size (uplink_cplane_context_repository.create size) (λ _ _, uplink_cplane_context_repository.default) ∧ repo_ok size (uplink_cplane_context_repository.create size).
Proof.
  pose proof size_range as [_ Hs]. assert (HZ : zlen (uplink_cplane_context_repository.create size) = size) by (unfold zlen, uplink_cplane_context_repository.create; rewrite length_replicate; lia).
  assert (HR : Forall (λ row, length row = Z.to_nat MAX_SUPPORTED_EAXC_ID_VALUE) (uplink_cplane_context_repository.create size)) by (apply Forall_replicate; apply length_replicate).
  split; [|split; [lia|done]]. constructor; [done|done| |intros i e (H & _); cbn in H; lia].
  intros i e y. unfold uplink_cplane_context_repository.create. destruct (replicate (Z.to_nat size) _ !! i) as [row|] eqn:Hi; [|done]. cbn. apply lookup_replicate_1 in Hi as [-> _]. intros Hy. by apply lookup_replicate_1 in Hy as [-> _].
Qed.

Lemma occasions_created bufs : Forall buffer_ok bufs → prach_realizes size bufs (prach_context_repository.create size) (nothing_awaited bufs).
Proof.
  pose proof size_range as [_ Hs]. intros HB. constructor; cbn [nothing_awaited occasions prach_samples]; [done|unfold zlen, prach_context_repository.create; rewrite length_replicate; lia|by apply Forall_replicate| |].
  - intros i y Hy. unfold prach_context_repository.create in Hy. by apply lookup_replicate_1 in Hy as [-> _].
  - intros i b port s Hb _. by rewrite Hb.
Qed.

Context {compressor : IqCompressor}.

Lemma start_realizes env held ports subc dims n Q a : Dimensions ports nsymb subc size → surroundings_ok env held ports subc dims → 0 <= mu <= 2 → (0 < Q)%nat ∧ Z.of_nat Q * 8 < 2 ^ 32 → 0 <= a < 2 ^ 30 →
  sector_realizes (tx_for n) (rx_for n) Q (mtu_size c) ports nsymb subc size dims mu (state_for Q a env) held (promise_for a env).
Proof.
  intros Hdim [S1 S2 S3 S4 S5 S6] Hmu [HQ0 HQ] Ha. pose proof (uc_mtu _ HU) as Hm. unfold MIN_ETH_FRAME_LENGTH in Hm. pose proof size_range as [_ Hs]. pose proof nsymb_values as Hv.
  assert (HI : implements ports nsymb subc size (uplink_context_repository.create (grids env) size) held (nothing_expected (grids env)))
    by (apply (create_implements ports nsymb subc size (grids env) held S1 S2); change MAX_NSYMB_PER_SLOT with 14; unfold grid_pool.ref_counter_available; lia).
  pose proof (occasions_created _ S4) as HO. pose proof (λ e h, commands_created e h) as HCm.
  constructor; [|constructor; [done| |done| | |done|constructor]|done..].
  - constructor; cbn [state_for promise_for sector_impl.ofh_transmitter sec_tx transmitter.frame_pool transmitter.dl_counters transmitter.ul_counters transmitter.up_counters transmitter.ul_cp_context_repo transmitter.ul_slot_repo
      transmitter.prach_buffers transmitter.ul_prach_repo transmitter.window_checker transmitter.pending transmitter.sent transmitter.late_grids s_rings s_dl s_ul s_up s_repo s_expected s_awaited s_clock s_pending s_sent s_late]; try done.
    + apply (pool_create_implements Q (mtu_size c)); (done || lia).
    + repeat (constructor; [exact sequence_identifier_generator.counters_wf|]). constructor.
    + apply (HCm [] []).
    + split; [|done]. split; [cbn; lia|]. split; [cbn; lia|]. split; [cbn; lia|exact S6].
  - split; [done|]. split; [done|]. apply Forall_replicate. done.
  - constructor; [exact HI|apply HCm|done|done].
  - constructor; [exact HO|exact S5|apply HCm|done|done].
Qed.
End created.

(** What the factory makes of a configuration: if the validator accepts the configuration of
    the sector, and what it does not look at is in order too, the factory succeeds; the sector
    is configured as the refinement of the sector asks for, with as many frames per symbol as the
    fragments need, and starts as the promise of a sector that expects nothing, with repositories
    of four times the processing delay. *)
Theorem sector_created rc s i env held ports subc dims :
  let c := ru_ofh_config.generate_sector_configuration rc s i in let n := get_nsymb_per_slot (cp c) in let mu := to_numerology_value (scs c) in
  ru_ofh_config.check_sector s = true → unchecked c → Dimensions ports n subc (max_processing_delay_slots c * 4) → surroundings_ok c env held ports subc dims →
  ∃ sector Q a, create_ofh_sector c env = Ok sector ∧
    sector_config_ok (tx_config sector) (rx_config sector) Q (mtu_size c) n (max_processing_delay_slots c * 4) ∧
    sector_realizes (compressor := selector_compressor (compressors sector)) (tx_config sector) (rx_config sector) Q (mtu_size c)
      ports n subc (max_processing_delay_slots c * 4) dims mu (parts sector) held (promise_for c a env).
Proof.
  intros c n mu HK HU Hdim HS. pose proof (sector_checked rc s i HK : checked c) as HC. destruct (uc_blocks _ HU) as (m & HN & Hm). destruct (blocks_range _ _ _ HN Hm) as (Hmu & _ & H275).
  destruct (frames_enough c HC HU m HN Hm) as (Q & HQ & HF & HQ8). destruct (uc_processing _ HU) as (a & Ha & Har). destruct (factory_spec c HU env m Q a HN Hm HQ Ha) as (x & _ & HE). destruct (size_range c HU) as [Hsz _].
  eexists _, Q, a. split; [exact HE|]. cbn [tx_config rx_config compressors decompressors parts]. rewrite <- Hsz in *. split; [apply sector_config_for; (done || lia)|]. by apply start_realizes.
Qed.

Module factory_examples.
Import uplink_examples.

(** A cell of 20 MHz at 30 kHz with two antennas of the radio unit, of which the receiver uses
    one; the preambles have the eAxCs [prach]. *)
Definition sector_config (prach : list Z) : ru_ofh_config.ru_ofh_sector_configuration :=
  ru_ofh_config.mk_sector_config NORMAL kHz30 MHz20 None transmitter_examples.timing (mk_rx_timing 2 9) true false false false (mk_compr BFP 9) (mk_compr BFP 9) (mk_compr BFP 9) true false
    (f32_of_Z 1) 1500 (replicate 6 2) (replicate 6 1) (Some 33) (Some 33) prach [3] [3; 4] 1 (Some (tdd.mk_tdd kHz30 (tdd.mk_pattern 5 0 2 4 4) None)).
Definition ru_config (prach : list Z) : ru_ofh_config.ru_ofh_configuration := ru_ofh_config.mk_config [sector_config prach] 5 0 0 400.
Definition config (prach : list Z) : sector_configuration := ru_ofh_config.generate_sector_configuration (ru_config prach) (sector_config prach) 0.
Definition env : surroundings := mk_surroundings transmitter_examples.slot_pool [prach_buffer.create 1 1 1 1 139] true 0 0.

#[local] Instance factory_dimensions : Dimensions 1 14 12 20.
Proof. split; change re_capacity with 3300; change MAX_NOF_SUPPORTED_EAXC with 4; lia. Qed.

Lemma config_unchecked : unchecked (config [8; 9]).
Proof.
  constructor.
  - exists 51. split; [vm_compute; reflexivity|done].
  - exists 51. vm_compute. reflexivity.
  - intros H. discriminate H.
  - intros H. discriminate H.
  - intros H. discriminate H.
  - vm_compute. split; discriminate.
  - vm_compute. discriminate.
  - reflexivity.
  - reflexivity.
  - repeat (constructor; [split; [vm_compute; discriminate|vm_compute; reflexivity]|]). constructor.
  - split; [vm_compute; discriminate|vm_compute; reflexivity].
  - exists 20. split; [vm_compute; reflexivity|lia].
  - split; [repeat split; vm_compute; first [reflexivity|discriminate]|exact I].
  - repeat (constructor; [vm_compute; discriminate|]). constructor.
  - split; vm_compute; discriminate.
  - split; [split; vm_compute; discriminate|vm_compute; discriminate].
  - intros e He He'. exfalso. apply list_elem_of_singleton in He'. subst e. apply elem_of_cons in He as [He|He%list_elem_of_singleton]; discriminate He.
  - split; [vm_compute; discriminate|vm_compute; reflexivity].
Qed.

Lemma env_ok : surroundings_ok (config [8; 9]) env [Some 0] 1 12 prach_examples.buffer_dims.
Proof.
  destruct transmitter_examples.slot_pool_counted as [HC HS]. constructor; [exact HC|exact HS|vm_compute; reflexivity| |reflexivity|vm_compute; split; [discriminate|reflexivity]].
  constructor; [|constructor]. repeat (split; [done|]). done.
Qed.

Lemma sector_created_witness :
  ∃ sector Q a, create_ofh_sector (config [8; 9]) env = Ok sector ∧ sector_config_ok (tx_config sector) (rx_config sector) Q 1500 14 20 ∧
    sector_realizes (compressor := selector_compressor (compressors sector)) (tx_config sector) (rx_config sector) Q 1500 1 14 12 20 prach_examples.buffer_dims 1 (parts sector) [Some 0] (promise_for (config [8; 9]) a env).
Proof.
  apply (sector_created (ru_config [8; 9]) (sector_config [8; 9]) 0 env [Some 0] 1 12 prach_examples.buffer_dims).
  - vm_compute. reflexivity.
  - exact config_unchecked.
  - exact factory_dimensions.
  - exact env_ok.
Defined.

(** With the second uplink eAxC also that of the preambles, the validator accepts the
    configuration; the transmitter asks for data on that eAxC, the receiver listens to it, and
    the answer fails an assertion. *)
Definition shared_run : result sector_impl.state :=
  sector ← create_ofh_sector (config [4; 9]) env;
  sector_run (compressor := selector_compressor (compressors sector)) (decompressor := selector_decompressor (decompressors sector)) (tx_config sector) (rx_config sector) (parts sector)
    [sector_examples.slot_given; FrameReceived true (reception_examples.unit_frame 4 7 (sector_examples.answer 10)); RxTask 0 true].
Example shared_eaxc_stops : ru_ofh_config.is_valid_ru_ofh_config (ru_config [4; 9]) = true ∧ shared_run = Fault AssertFailed.
Proof. split; vm_compute; reflexivity. Qed.

(** A bandwidth of 35 MHz is a label of its own and has no blocks. *)
Example bandwidth_without_blocks : nof_prbs_of MHz35 kHz30 = Ok 0.
Proof. vm_compute. reflexivity. Qed.
End factory_examples.
