(* ===== verification/RadioUnit.v ===== *)
(** * RadioUnit: the sectors of a radio unit and the clock of the upper layer

    Models lib/ru/ofh: [ru_ofh_impl] with its handler proxies, and the notifier that turns
    symbols into the boundaries of slots for the upper layer.  The proxies pick the sector of a
    request; a symbol of the clock goes to the notifier of the upper layer and then to every
    sector, first to its transmitter and then to its receiver.

    Each sector of a radio unit refines its own promise as if it were alone
    ([radio_unit_refines]); the upper layer hears of every slot once and in order
    ([slots_announced]). *)

From S2P Require Import Prelude Bf16 Float SlotPoint OfhBase BitBuffer OfhUplane OfhCompression ResourceGrid GridPool OfhReceiver UplinkContext UplinkFlow TxSupport Tdd Timing Prach PrachFlow DownlinkFlow SchedulingFlow RadioReceiver Transmitter Sector SectorFactory.

(** ** The clock of the upper layer *)
Module ru_ofh_timing_notifier.

Record t : Type := mk { nof_slot_offset_du_ru : Z; half_slot_symbol : Z; full_slot_symbol : Z }.

Definition create (nof_slot_offset_du_ru nof_symbols_per_slot : Z) : t := mk nof_slot_offset_du_ru (wrap 32 (nof_symbols_per_slot / 2 - 1)) (wrap 32 (nof_symbols_per_slot - 1)).

(** What [ru_timing_notifier] is told. *)
Inductive boundary : Type :=
| ul_half_slot_boundary (slot : slot_point.t)
| ul_full_slot_boundary (slot : slot_point.t)
| tti_boundary (slot : slot_point.t).

Definition on_new_symbol (n : t) (symbol_point : slot_symbol_point.t) : result (list boundary) :=
  index ← slot_symbol_point.get_symbol_index symbol_point;
  half ← (if index =? half_slot_symbol n then slot ← slot_symbol_point.get_slot symbol_point; Ok [ul_half_slot_boundary slot] else Ok []);
  full ← (if index =? full_slot_symbol n then slot ← slot_symbol_point.get_slot symbol_point; Ok [ul_full_slot_boundary slot] else Ok []);
  tti ← (if index =? 0 then slot ← slot_symbol_point.get_slot symbol_point; Ok [tti_boundary (slot_point.add_unsigned slot (nof_slot_offset_du_ru n))] else Ok []);
  Ok (half ++ full ++ tti).
End ru_ofh_timing_notifier.

(** ** The radio unit *)
Module ru_ofh.
Import sector_factory.

Record state : Type := mk_state { timing_notifier : ru_ofh_timing_notifier.t; sectors : list sector; announced : list ru_ofh_timing_notifier.boundary }.

(** An event of one sector. *)
Definition sector_event_step (s : sector) (e : sector_event) : result sector :=
  p ← sector_step (compressor := selector_compressor (compressors s)) (decompressor := selector_decompressor (decompressors s)) (tx_config s) (rx_config s) (parts s) e;
  Ok (mk_sector (tx_config s) (rx_config s) (broadcast s) (compressors s) (decompressors s) p).

Definition at_sector (i : Z) (f : sector → result sector) (st : state) : result state :=
  s ← vec_at (sectors st) i;
  s ← f s;
  Ok (mk_state (timing_notifier st) (<[Z.to_nat i := s]> (sectors st)) (announced st)).

(** [ru_downlink_plane_handler_proxy] and [ru_uplink_plane_handler_proxy] *)
Definition handle_dl_data (accept : Z → bool * bool) (context : resource_grid_context) (grid : resource_grid.t) (st : state) : result state :=
  assume (ctx_sector context <? zlen (sectors st)) AssertFailed;;
  at_sector (ctx_sector context) (λ s, sector_event_step s (TxEvent (DlData (broadcast s) accept context grid))) st.
Definition handle_new_uplink_slot (accept : bool) (context : resource_grid_context) (gid : Z) (st : state) : result state :=
  assume (ctx_sector context <? zlen (sectors st)) AssertFailed;;
  at_sector (ctx_sector context) (λ s, sector_event_step s (TxEvent (UlSlot accept context gid))) st.
Definition handle_prach_occasion (context : prach_buffer_context) (buf : nat) (st : state) : result state :=
  assume (pb_sector context <? zlen (sectors st)) AssertFailed;;
  at_sector (pb_sector context) (λ s, sector_event_step s (TxEvent (UlPrach context buf))) st.

(** The notifiers the constructor subscribes, in their order; [accept]: of the executors of the
    transmitter and of the receiver of each sector. *)
Fixpoint notify_sectors (accept : nat → bool * bool) (p : slot_symbol_point.t) (i : nat) (ss : list sector) : result (list sector) :=
  match ss with
  | [] => Ok []
  | s :: ss =>
      s ← sector_event_step s (TxEvent (Symbol (accept i).1 p));
      s ← sector_event_step s (SymbolReceived (accept i).2 p);
      ss ← notify_sectors accept p (S i) ss;
      Ok (s :: ss)
  end.
Definition on_new_symbol (accept : nat → bool * bool) (p : slot_symbol_point.t) (st : state) : result state :=
  bs ← ru_ofh_timing_notifier.on_new_symbol (timing_notifier st) p;
  ss ← notify_sectors accept p 0 (sectors st);
  Ok (mk_state (timing_notifier st) ss (announced st ++ bs)).

(** [create_ofh_ru], the sectors each in its surroundings.  The clock has the cyclic prefix and
    the subcarrier spacing of the last sector; without a sector there is none to take them
    from. *)
Definition create_ofh_ru (c : ru_ofh_config.ru_ofh_configuration) (envs : list surroundings) : result (realtime_timing_worker.worker * state) :=
  assume (1 <=? ru_ofh_config.max_processing_delay_slots c) FatalError;;
  sectors ← ru_ofh_config.create_sectors c 0 (zip (ru_ofh_config.sector_configs c) envs);
  back ← match last (ru_ofh_config.sector_configs c) with Some s => Ok s | None => Fault OutOfBounds end;
  worker ← realtime_timing_worker.create
    (realtime_timing_worker.mk_cfg (ru_ofh_config.cp back) (ru_ofh_config.scs back) (ru_ofh_config.gps_Alpha c) (ru_ofh_config.gps_Beta c));
  Ok (worker, mk_state (ru_ofh_timing_notifier.create (ru_ofh_config.max_processing_delay_slots c) (get_nsymb_per_slot (ru_ofh_config.cp back))) sectors []).
End ru_ofh.

(** What happens to a radio unit: requests of the upper layer, symbols, and what happens inside a
    sector, where frames arrive and tasks run. *)
Inductive inside : Type :=
| TxTask (n : nat) (temp : list cbf16_t)
| RxFrame (accept : bool) (buffer : list Z)
| RxRun (n : nat) (clears : bool).
Definition inside_event (x : inside) : sector_event :=
  match x with TxTask n temp => TxEvent (Run n temp) | RxFrame accept buffer => FrameReceived accept buffer | RxRun n clears => RxTask n clears end.

Inductive ru_event : Type :=
| DownlinkGrid (accept : Z → bool * bool) (context : resource_grid_context) (grid : resource_grid.t)
| UplinkSlot (accept : bool) (context : resource_grid_context) (gid : Z)
| UplinkPrach (context : prach_buffer_context) (buf : nat)
| ClockSymbol (accept : nat → bool * bool) (symbol_point : slot_symbol_point.t)
| Inside (i : Z) (x : inside).

Section radio_unit.
Import sector_factory ru_ofh.

Definition ru_step (st : state) (e : ru_event) : result state :=
  match e with
  | DownlinkGrid accept context grid => handle_dl_data accept context grid st
  | UplinkSlot accept context gid => handle_new_uplink_slot accept context gid st
  | UplinkPrach context buf => handle_prach_occasion context buf st
  | ClockSymbol accept p => on_new_symbol accept p st
  | Inside i x => at_sector i (λ s, sector_event_step s (inside_event x)) st
  end.
Definition ru_run : state → list ru_event → result state := fold_result ru_step.

(** The events of sector [i]. *)
Definition project (i : nat) (with_broadcast : bool) (e : ru_event) : list sector_event :=
  match e with
  | DownlinkGrid accept context grid => if decide (ctx_sector context = Z.of_nat i) then [TxEvent (DlData with_broadcast accept context grid)] else []
  | UplinkSlot accept context gid => if decide (ctx_sector context = Z.of_nat i) then [TxEvent (UlSlot accept context gid)] else []
  | UplinkPrach context buf => if decide (pb_sector context = Z.of_nat i) then [TxEvent (UlPrach context buf)] else []
  | ClockSymbol accept p => [TxEvent (Symbol (accept i).1 p); SymbolReceived (accept i).2 p]
  | Inside j x => if decide (j = Z.of_nat i) then [inside_event x] else []
  end.

(** A sector on its own. *)
Definition run_alone (s : sector) (es : list sector_event) : result sector := fold_result sector_event_step s es.

Lemma run_alone_parts s es : run_alone s es =
  (p ← sector_run (compressor := selector_compressor (compressors s)) (decompressor := selector_decompressor (decompressors s)) (tx_config s) (rx_config s) (parts s) es;
   Ok (mk_sector (tx_config s) (rx_config s) (broadcast s) (compressors s) (decompressors s) p)).
Proof.
  unfold run_alone, sector_run. revert s. induction es as [|e es IH]; intros s; cbn [fold_result mbind result_bind]; [by destruct s|]. pose proof (eq_refl (sector_event_step s e)) as E. unfold sector_event_step in E at 2. rewrite E. clear E.
  destruct (sector_step _ _ _ _) as [p|]; cbn [mbind result_bind]; [|done]. by rewrite IH.
Qed.

Lemma sector_event_broadcast s e s' : sector_event_step s e = Ok s' → broadcast s' = broadcast s.
Proof. unfold sector_event_step. by intros (p & _ & [= <-])%bind_Ok. Qed.

Lemma at_sector_spec j f st st' i s : at_sector j f st = Ok st' → sectors st !! i = Some s →
  ∃ s', sectors st' !! i = Some s' ∧ (if decide (j = Z.of_nat i) then f s = Ok s' else s' = s) ∧ length (sectors st') = length (sectors st).
Proof.
  unfold at_sector. intros (x & Hx & (y & Hy & [= <-])%bind_Ok)%bind_Ok Hs. apply vec_at_lookup_eq in Hx as [Hx Hj]. cbn [sectors]. rewrite length_insert. destruct (decide (j = Z.of_nat i)) as [->|Hne].
  - rewrite Nat2Z.id in *. rewrite Hs in Hx. injection Hx as <-. exists y. split; [|done]. apply list_lookup_insert_eq. by eapply lookup_lt_Some.
  - exists s. rewrite list_lookup_insert_ne by lia. done.
Qed.

Lemma notify_spec accept p ss : ∀ k ss' i s, notify_sectors accept p k ss = Ok ss' → ss !! i = Some s →
  ∃ s', ss' !! i = Some s' ∧ run_alone s [TxEvent (Symbol (accept (k + i)%nat).1 p); SymbolReceived (accept (k + i)%nat).2 p] = Ok s'.
Proof.
  induction ss as [|x ss IH]; intros k ss' i s HE Hs; [done|]. cbn [notify_sectors] in HE. apply bind_Ok in HE as (y & Hy & (z & Hz & (zs & Hzs & [= <-])%bind_Ok)%bind_Ok). destruct i as [|i].
  - injection Hs as <-. exists z. split; [done|]. rewrite Nat.add_0_r. unfold run_alone. cbn [fold_result]. rewrite Hy. cbn [mbind result_bind]. by rewrite Hz.
  - destruct (IH (S k) zs i s Hzs Hs) as (s' & H1 & H2). exists s'. split; [done|]. by rewrite <- Nat.add_succ_comm.
Qed.

(** One event: each sector does its part of it. *)
Lemma ru_step_projects st e st' i s : ru_step st e = Ok st' → sectors st !! i = Some s →
  ∃ s', sectors st' !! i = Some s' ∧ run_alone s (project i (broadcast s) e) = Ok s'.
Proof.
  assert (HA : ∀ j f st', at_sector j (λ s, sector_event_step s (f s)) st = Ok st' → sectors st !! i = Some s →
    ∃ s', sectors st' !! i = Some s' ∧ run_alone s (if decide (j = Z.of_nat i) then [f s] else []) = Ok s').
  { intros j f st1 HE Hs. destruct (at_sector_spec _ _ _ _ _ _ HE Hs) as (s' & H1 & H2 & _). exists s'. split; [done|]. unfold run_alone. destruct (decide _); cbn [fold_result]; [by rewrite H2|by rewrite H2]. }
  intros HE Hs. destruct e as [accept context grid|accept context gid|context buf|accept p|j x]; cbn [ru_step project] in *.
  - apply bind_Ok in HE as (_ & _ & HE). by apply (HA (ctx_sector context) (λ s, TxEvent (DlData (broadcast s) accept context grid))).
  - apply bind_Ok in HE as (_ & _ & HE). by apply (HA (ctx_sector context) (λ _, TxEvent (UlSlot accept context gid))).
  - apply bind_Ok in HE as (_ & _ & HE). by apply (HA (pb_sector context) (λ _, TxEvent (UlPrach context buf))).
  - apply bind_Ok in HE as (bs & _ & (ss & HN & [= <-])%bind_Ok). by apply (notify_spec accept p (sectors st) 0 ss i s).
  - by apply (HA j (λ _, inside_event x)).
Qed.

Lemma run_alone_broadcast s es : ∀ s', run_alone s es = Ok s' → broadcast s' = broadcast s.
Proof. intros s'. rewrite run_alone_parts. by intros (p & _ & [= <-])%bind_Ok. Qed.

Lemma ru_run_projects es : ∀ st st' i s, ru_run st es = Ok st' → sectors st !! i = Some s →
  ∃ s', sectors st' !! i = Some s' ∧ run_alone s (concat (map (project i (broadcast s)) es)) = Ok s'.
Proof.
  unfold ru_run. induction es as [|e es IH]; intros st st' i s HE Hs; cbn [fold_result] in HE; [injection HE as <-; by exists s|]. apply bind_Ok in HE as (st1 & H1 & H2).
  destruct (ru_step_projects st e st1 i s H1 Hs) as (s1 & Hs1 & R1). destruct (IH st1 st' i s1 H2 Hs1) as (s' & Hs' & R2). exists s'. split; [done|]. cbn [map concat]. unfold run_alone in *. rewrite fold_result_app, R1. cbn [mbind result_bind].
  by rewrite (run_alone_broadcast _ _ _ R1) in R2.
Qed.

(** *** Nothing stops the radio unit but one of its sectors *)

(** A request names a sector of the radio unit, a symbol is one of the clock's. *)
Definition ru_event_ok (nof_sectors : Z) (e : ru_event) : Prop :=
  match e with
  | DownlinkGrid _ context _ | UplinkSlot _ context _ => 0 <= ctx_sector context < nof_sectors
  | UplinkPrach context _ => 0 <= pb_sector context < nof_sectors
  | ClockSymbol _ p => slot_symbol_point.wf p
  | Inside i _ => 0 <= i < nof_sectors
  end.

Lemma point_parts p : slot_symbol_point.wf p →
  slot_symbol_point.get_slot p = Ok (slot_point.mk (slot_symbol_point.numerology p) (slot_symbol_point.count_val p / slot_symbol_point.nof_symbols p)) ∧
  slot_symbol_point.get_symbol_index p = Ok (slot_symbol_point.count_val p mod slot_symbol_point.nof_symbols p).
Proof.
  destruct p as [n m c]. intros (Hn & Hm & Hc). unfold slot_symbol_point.get_slot, slot_symbol_point.get_symbol_index, slot_symbol_point.period in *. cbn [slot_symbol_point.nof_symbols slot_symbol_point.numerology slot_symbol_point.count_val] in *.
  unfold NOF_NUMEROLOGIES. rewrite (proj2 (Z.ltb_lt _ _)), (proj2 (Z.eqb_neq _ _)) by lia. split; [|done]. apply (slot_point.of_count_spec (slot_point.mk m (c / n))). split; [exact Hm|].
  unfold slot_point.period. cbn [slot_point.numerology_val slot_point.count_val]. split; [apply Z.div_pos; lia|]. apply Z.div_lt_upper_bound; lia.
Qed.

Lemma boundaries_told n p : slot_symbol_point.wf p → ∃ bs, ru_ofh_timing_notifier.on_new_symbol n p = Ok bs.
Proof.
  intros Hw. destruct (point_parts p Hw) as (HS & HI). unfold ru_ofh_timing_notifier.on_new_symbol. rewrite HI, HS. cbn [mbind result_bind].
  destruct (_ =? _), (_ =? _), (_ =? _); by eexists.
Qed.

Lemma at_sector_runs j f st : 0 <= j < zlen (sectors st) → (∀ s, sectors st !! Z.to_nat j = Some s → ∃ s', f s = Ok s') → ∃ st', at_sector j f st = Ok st'.
Proof.
  intros Hj HF. unfold at_sector. destruct (vec_at_ok (sectors st) j Hj) as (s & -> & Hs). cbn [mbind result_bind]. destruct (HF s Hs) as [s' ->]. by eexists.
Qed.

Lemma notify_runs accept p ss : ∀ k,
  (∀ i s, ss !! i = Some s → ∃ s', run_alone s [TxEvent (Symbol (accept (k + i)%nat).1 p); SymbolReceived (accept (k + i)%nat).2 p] = Ok s') → ∃ ss', notify_sectors accept p k ss = Ok ss'.
Proof.
  induction ss as [|x ss IH]; intros k HF; [by eexists|]. cbn [notify_sectors]. destruct (HF 0%nat x eq_refl) as (z & HZ). rewrite Nat.add_0_r in HZ. unfold run_alone in HZ. cbn [fold_result] in HZ.
  apply bind_Ok in HZ as (y & -> & (z' & HZ & _)%bind_Ok). cbn [mbind result_bind]. rewrite HZ. cbn [mbind result_bind]. destruct (IH (S k)) as [ss' ->]; [|by eexists].
  intros i s Hs. rewrite Nat.add_succ_comm. by apply (HF (S i)).
Qed.

(** The sector a request names, alone, can take it. *)
Lemma one_runs st j f : 0 <= j < zlen (sectors st) → (∀ i s, sectors st !! i = Some s → ∃ s', run_alone s (if decide (j = Z.of_nat i) then [f s] else []) = Ok s') →
  ∃ st', at_sector j (λ s, sector_event_step s (f s)) st = Ok st'.
Proof.
  intros Hj HF. apply at_sector_runs; [done|]. intros s Hs. destruct (HF _ s Hs) as (s' & HR). rewrite decide_True in HR by lia. unfold run_alone in HR. cbn [fold_result] in HR. apply bind_Ok in HR as (y & HY & _). by exists y.
Qed.

Lemma ru_step_runs st e : ru_event_ok (zlen (sectors st)) e → (∀ i s, sectors st !! i = Some s → ∃ s', run_alone s (project i (broadcast s) e) = Ok s') → ∃ st', ru_step st e = Ok st'.
Proof.
  intros He HF. destruct e as [accept context grid|accept context gid|context buf|accept p|j x]; cbn [ru_step project ru_event_ok] in *.
  - unfold handle_dl_data. pass_assume. by apply (one_runs st (ctx_sector context) (λ s, TxEvent (DlData (broadcast s) accept context grid))).
  - unfold handle_new_uplink_slot. pass_assume. by apply (one_runs st (ctx_sector context) (λ _, TxEvent (UlSlot accept context gid))).
  - unfold handle_prach_occasion. pass_assume. by apply (one_runs st (pb_sector context) (λ _, TxEvent (UlPrach context buf))).
  - unfold on_new_symbol. destruct (boundaries_told (timing_notifier st) p He) as [bs ->]. cbn [mbind result_bind]. destruct (notify_runs accept p (sectors st) 0 HF) as [ss ->]. by eexists.
  - by apply (one_runs st j (λ _, inside_event x)).
Qed.

(** What stays, and what the upper layer is told. *)
Definition symbols_of (e : ru_event) : list slot_symbol_point.t := match e with ClockSymbol _ p => [p] | _ => [] end.

Lemma at_sector_frame j f st st' : at_sector j f st = Ok st' → length (sectors st') = length (sectors st) ∧ timing_notifier st' = timing_notifier st ∧ announced st' = announced st.
Proof. unfold at_sector. intros (x & _ & (y & _ & [= <-])%bind_Ok)%bind_Ok. cbn [sectors]. by rewrite length_insert. Qed.

Lemma notify_length accept p ss : ∀ k ss', notify_sectors accept p k ss = Ok ss' → length ss' = length ss.
Proof.
  induction ss as [|x ss IH]; intros k ss' HE; [by injection HE as <-|]. cbn [notify_sectors] in HE. apply bind_Ok in HE as (y & _ & (z & _ & (zs & Hzs & [= <-])%bind_Ok)%bind_Ok). cbn [length]. by rewrite (IH (S k) zs).
Qed.

Lemma ru_step_frame st e st' : ru_step st e = Ok st' →
  length (sectors st') = length (sectors st) ∧ timing_notifier st' = timing_notifier st ∧
  ∃ bss, mapM (ru_ofh_timing_notifier.on_new_symbol (timing_notifier st)) (symbols_of e) = Ok bss ∧ announced st' = announced st ++ concat bss.
Proof.
  assert (HA : ∀ j f, at_sector j f st = Ok st' → length (sectors st') = length (sectors st) ∧ timing_notifier st' = timing_notifier st ∧
    ∃ bss, Ok [] = Ok bss ∧ announced st' = announced st ++ concat bss).
  { intros j f (H1 & H2 & H3)%at_sector_frame. split; [done|]. split; [done|]. exists []. by rewrite app_nil_r. }
  destruct e as [accept context grid|accept context gid|context buf|accept p|j x]; cbn [ru_step symbols_of mapM]; [intros (_ & _ & HE)%bind_Ok; by apply (HA _ _ HE)..| |apply HA].
  intros (bs & HB & (ss & HN & [= <-])%bind_Ok)%bind_Ok. rewrite HB. split; [by apply (notify_length _ _ _ _ _ HN)|]. split; [done|]. exists [bs]. cbn [concat]. by rewrite app_nil_r.
Qed.

Lemma ru_run_frame es : ∀ st st', ru_run st es = Ok st' → length (sectors st') = length (sectors st) ∧
  ∃ bss, mapM (ru_ofh_timing_notifier.on_new_symbol (timing_notifier st)) (concat (map symbols_of es)) = Ok bss ∧ announced st' = announced st ++ concat bss.
Proof.
  unfold ru_run. induction es as [|e es IH]; intros st st' HE; cbn [fold_result] in HE; [injection HE as <-; split; [done|]; exists []; by rewrite app_nil_r|].
  apply bind_Ok in HE as (st1 & H1 & H2). destruct (ru_step_frame st e st1 H1) as (L1 & N1 & b1 & M1 & A1). destruct (IH st1 st' H2) as (L2 & b2 & M2 & A2). split; [congruence|]. exists (b1 ++ b2).
  rewrite N1 in M2. cbn [map concat]. rewrite concat_app, A2, A1, app_assoc. split; [|done]. apply mapM_Ok_Forall2. apply Forall2_app; by apply mapM_Ok_Forall2.
Qed.

Lemma ru_run_runs es : ∀ st, Forall (ru_event_ok (zlen (sectors st))) es →
  (∀ i s, sectors st !! i = Some s → ∃ s', run_alone s (concat (map (project i (broadcast s)) es)) = Ok s') → ∃ st', ru_run st es = Ok st'.
Proof.
  unfold ru_run. induction es as [|e es IH]; intros st HE HF; cbn [fold_result]; [by eexists|]. apply Forall_cons in HE as [He HE]. cbn [map concat] in HF. unfold run_alone in HF.
  assert (HX : ∀ i s, sectors st !! i = Some s → ∃ s1 s', run_alone s (project i (broadcast s) e) = Ok s1 ∧ run_alone s1 (concat (map (project i (broadcast s)) es)) = Ok s').
  { intros i s Hs. destruct (HF i s Hs) as (s' & HR). rewrite fold_result_app in HR. apply bind_Ok in HR as (s1 & H1 & H2). by exists s1, s'. }
  destruct (ru_step_runs st e He) as (st1 & H1). { intros i s Hs. destruct (HX i s Hs) as (s1 & _ & H1 & _). by exists s1. }
  rewrite H1. cbn [mbind result_bind]. destruct (ru_step_frame st e st1 H1) as (L1 & _ & _). apply IH; [unfold zlen in *; by rewrite L1|].
  intros i s1 Hs1. destruct (lookup_lt_is_Some_2 (sectors st) i) as [s Hs]; [rewrite <- L1; by eapply lookup_lt_Some|]. destruct (ru_step_projects st e st1 i s H1 Hs) as (s2 & Hs2 & R2). rewrite Hs1 in Hs2. injection Hs2 as <-.
  destruct (HX i s Hs) as (s3 & s' & R3 & R4). rewrite R2 in R3. injection R3 as <-. rewrite <- (run_alone_broadcast _ _ _ R2) in R4. by exists s'.
Qed.
End radio_unit.

(** ** What a radio unit promises *)
Import sector_factory ru_ofh.

(** The promise of a sector, with the sizes of its parts: the frames per symbol and their size,
    the ports, symbols and subcarriers of a grid, the slots of a repository, the buffers of the
    occasions, the numerology and the grids the upper layer holds. *)
Record sector_promise : Type := mk_sector_promise {
  sp_frames : nat; sp_frame_size : Z; sp_ports : Z; sp_symb : Z; sp_subc : Z; sp_slots : Z; sp_buffers : list (list Z); sp_numerology : Z; sp_held : list grid_pool.handle; sp_promise : sector_spec }.

Definition keeps (s : sector) (p : sector_promise) (state : sector_impl.state) (promise : sector_spec) : Prop :=
  sector_realizes (compressor := selector_compressor (compressors s)) (tx_config s) (rx_config s) (sp_frames p) (sp_frame_size p) (sp_ports p) (sp_symb p) (sp_subc p) (sp_slots p) (sp_buffers p) (sp_numerology p) state (sp_held p) promise.

(** What the promise becomes. *)
Definition promised (s : sector) (p : sector_promise) (es : list sector_event) : result sector_spec :=
  spec_sector_run (compressor := selector_compressor (compressors s)) (decompressor := selector_decompressor (decompressors s)) (tx_config s) (rx_config s) (sp_frame_size p) (sp_ports p) (sp_subc p) (sp_slots p) (sp_buffers p) (sp_promise p) es.

(** A sector that keeps its promise and can take the events. *)
Record sector_ready (s : sector) (p : sector_promise) (es : list sector_event) : Prop := {
  sy_dims : Dimensions (sp_ports p) (sp_symb p) (sp_subc p) (sp_slots p);
  sy_config : sector_config_ok (tx_config s) (rx_config s) (sp_frames p) (sp_frame_size p) (sp_symb p) (sp_slots p);
  sy_keeps : keeps s p (parts s) (sp_promise p);
  sy_events : Forall (sector_event_ok (compressor := selector_compressor (compressors s)) (tx_config s) (rx_config s) (sp_frame_size p) (sp_symb p) (sp_subc p) (sp_buffers p) (sp_numerology p) (sp_held p)) es;
  sy_room : sector_room (sp_frames p) (sp_slots p) (parts s) (sp_held p) (sp_promise p) (zlen es) }.

(** The events of sector [i]. *)
Definition own_events (i : nat) (s : sector) (es : list ru_event) : list sector_event := concat (map (project i (broadcast s)) es).

Lemma ready_runs s p es : sector_ready s p es →
  match promised s p es with
  | Ok q => ∃ st, run_alone s es = Ok (mk_sector (tx_config s) (rx_config s) (broadcast s) (compressors s) (decompressors s) st) ∧ keeps s p st q
  | Fault f => run_alone s es = Fault f
  end.
Proof.
  intros [Hd HC HK HE HR]. rewrite run_alone_parts. unfold promised.
  pose proof (sector_run_spec (compressor := selector_compressor (compressors s)) (decompressor := selector_decompressor (decompressors s)) (fills := selector_fills _) _ _ _ _ _ _ _ _ _ _ HC es 0 ltac:(lia) _ _ _ HK HE HR) as HX.
  destruct (spec_sector_run _ _ _ _ _ _ _ _ _) as [q|f]; [|by rewrite HX]. destruct HX as (st & -> & HS & _). by exists st.
Qed.

(** What the parts of a sector have sent and told is what its promise says. *)
Lemma keeps_sent s p st q : keeps s p st q →
  transmitter.sent (sector_impl.ofh_transmitter st) = s_sent (sec_tx q) ∧ radio_receiver.symbols_notified (sector_impl.ofh_receiver st) = told (sp_data (sec_rx q)).
Proof. intros [[] [_ _ _ [] _ _ _] _ _ _]. done. Qed.

(** C17: the sectors of a radio unit do not disturb each other: whatever the order in which the
    upper layer hands grids, slots and occasions to the sectors, the clock brings symbols,
    frames arrive and the tasks of the sectors run, the radio unit stops only if the promise of
    one of its sectors, fed with this sector's own part of the events, stops; otherwise each
    sector ends with its promise kept, as if it were alone, and the upper layer has been told
    the boundaries of the clock's symbols. *)
Theorem radio_unit_refines st es ps :
  Forall (ru_event_ok (zlen (sectors st))) es →
  Forall2 (λ i_s p, sector_ready i_s.2 p (own_events i_s.1 i_s.2 es) ∧ ∃ q, promised i_s.2 p (own_events i_s.1 i_s.2 es) = Ok q) (imap pair (sectors st)) ps →
  ∃ st', ru_run st es = Ok st' ∧
    (∀ i s p q, sectors st !! i = Some s → ps !! i = Some p → promised s p (own_events i s es) = Ok q →
      ∃ s', sectors st' !! i = Some s' ∧ keeps s p (parts s') q ∧ tx_config s' = tx_config s ∧ rx_config s' = rx_config s) ∧
    ∃ bss, mapM (ru_ofh_timing_notifier.on_new_symbol (timing_notifier st)) (concat (map symbols_of es)) = Ok bss ∧ announced st' = announced st ++ concat bss.
Proof.
  intros HE HF.
  assert (HS : ∀ i s, sectors st !! i = Some s → ∃ p q, ps !! i = Some p ∧ sector_ready s p (own_events i s es) ∧ promised s p (own_events i s es) = Ok q).
  { intros i s Hs. destruct (Forall2_lookup_l _ _ _ i (i, s) HF) as (p & Hp & HR & q & HQ); [by rewrite list_lookup_imap, Hs|]. by exists p, q. }
  destruct (ru_run_runs es st HE) as (st' & HRun).
  { intros i s Hs. destruct (HS i s Hs) as (p & q & _ & HR & HQ). pose proof (ready_runs s p _ HR) as HX. rewrite HQ in HX. destruct HX as (x & HX & _). by eexists. }
  exists st'. split; [done|]. split; [|by apply (ru_run_frame es st st')]. intros i s p q Hs Hp HQ. destruct (HS i s Hs) as (p' & _ & Hp' & HR & _). rewrite Hp in Hp'. injection Hp' as <-.
  destruct (ru_run_projects es st st' i s HRun Hs) as (s' & Hs' & HA). exists s'. split; [done|]. pose proof (ready_runs s p _ HR) as HX. rewrite HQ in HX. destruct HX as (x & HX & HK).
  unfold own_events in HX. rewrite HX in HA. injection HA as <-. done.
Qed.

(** *** The boundaries of slots *)
Section boundaries.
Import ru_ofh_timing_notifier.
Context (n mu offset : Z) (Hn : n = 12 ∨ n = 14) (Hmu : 0 <= mu < 5) (Ho : 0 <= offset < 2 ^ 31).

(** The [q]-th slot since the first frame of the clock. *)
Definition slot_of (q : Z) : slot_point.t := slot_point.mk mu (q mod (10240 * 2 ^ mu)).

Lemma point_in_slot q j : 0 <= j < n → slot_symbol_point.get_slot (point n mu (q * n + j)) = Ok (slot_of q) ∧ slot_symbol_point.get_symbol_index (point n mu (q * n + j)) = Ok j.
Proof.
  intros Hj. assert (HP : 0 < 2 ^ mu) by (apply Z.pow_pos_nonneg; lia). assert (Hn0 : 0 < n) by lia. set (P := 10240 * 2 ^ mu) in *. assert (HP0 : 0 < P) by lia.
  assert (HX : (q * n + j) mod (P * n) = (q mod P) * n + j).
  { rewrite (Z.mul_comm P), Z.rem_mul_r, (Z.add_comm (q * n)), Z.mod_add, Z.div_add, (Z.mod_small j), (Z.div_small j) by lia. rewrite Z.add_0_l. lia. }
  pose proof (Z.mod_pos_bound q P HP0) as HQ. destruct (point_parts (point n mu (q * n + j))) as [HS HI].
  { split; [cbn; lia|]. split; [done|]. apply Z.mod_pos_bound. unfold slot_symbol_point.period. cbn. fold P. apply Z.mul_pos_pos; lia. }
  rewrite HS, HI. unfold point, slot_of. cbn [slot_symbol_point.numerology slot_symbol_point.count_val slot_symbol_point.nof_symbols]. fold P. rewrite HX, (Z.add_comm _ j), Z.div_add, Z.mod_add, (Z.div_small j n), (Z.mod_small j n) by lia. done.
Qed.

Lemma slot_later q : slot_point.add_unsigned (slot_of q) offset = slot_of (q + offset).
Proof.
  assert (HF : ∀ c, slot_point.nof_slots_per_system_frame (slot_point.mk mu c) = 10240 * 2 ^ mu ∧ 0 < 10240 * 2 ^ mu <= 163840)
    by (intros c; destruct (slot_point.numerology_cases mu Hmu) as [->|[->|[->|[->| ->]]]]; split; [reflexivity|done| | | | | | | |]; (reflexivity || done)).
  unfold slot_point.add_unsigned, slot_of. cbn [slot_point.numerology_val slot_point.count_val]. destruct (HF (q mod (10240 * 2 ^ mu))) as [-> HP]. f_equal. set (P := 10240 * 2 ^ mu) in *. clearbody P.
  pose proof (Z.mod_pos_bound q P ltac:(lia)). rewrite (wrap_small 32) by (unfold fits; lia). pose proof (Z.mod_pos_bound (q mod P + offset) P ltac:(lia)). rewrite (wrap_small 29) by (unfold fits; lia). apply Z.add_mod_idemp_l. lia.
Qed.

(** What one slot announces. *)
Definition slot_boundaries (q : Z) : list boundary := [tti_boundary (slot_of (q + offset)); ul_half_slot_boundary (slot_of q); ul_full_slot_boundary (slot_of q)].

Definition boundaries_at (q j : Z) : list boundary :=
  (if j =? n / 2 - 1 then [ul_half_slot_boundary (slot_of q)] else []) ++ (if j =? n - 1 then [ul_full_slot_boundary (slot_of q)] else []) ++ (if j =? 0 then [tti_boundary (slot_of (q + offset))] else []).

Lemma symbol_announces q j : 0 <= j < n → on_new_symbol (create offset n) (point n mu (q * n + j)) = Ok (boundaries_at q j).
Proof.
  intros Hj. destruct (point_in_slot q j Hj) as [HS HI]. unfold on_new_symbol. rewrite HI, HS. cbn [mbind result_bind create half_slot_symbol full_slot_symbol nof_slot_offset_du_ru]. rewrite slot_later.
  rewrite (wrap_small 32 (n / 2 - 1)), (wrap_small 32 (n - 1)) by (destruct Hn as [-> | ->]; unfold fits; cbn; lia). unfold boundaries_at. by destruct (_ =? _), (_ =? _), (_ =? _).
Qed.

Lemma slot_announces q : concat (map (boundaries_at q) (seqZ 0 n)) = slot_boundaries q.
Proof. destruct Hn as [E|E]; unfold boundaries_at; rewrite E; reflexivity. Qed.

Lemma slots_announce k : ∀ q0, ∃ bss, mapM (on_new_symbol (create offset n)) (map (point n mu) (seqZ (q0 * n) (Z.of_nat k * n))) = Ok bss ∧ concat bss = concat (map slot_boundaries (seqZ q0 (Z.of_nat k))).
Proof.
  induction k as [|k IH]; intros q0; [by exists []|]. destruct (IH (q0 + 1)) as (bss & HM & HC). exists (map (boundaries_at q0) (seqZ 0 n) ++ bss).
  rewrite concat_app, HC, slot_announces. replace (Z.of_nat (S k)) with (1 + Z.of_nat k) by lia. rewrite (seqZ_app q0 1) by lia. split; [|by rewrite map_app].
  replace ((1 + Z.of_nat k) * n) with (n + Z.of_nat k * n) by lia. rewrite seqZ_app by lia. rewrite map_app. apply mapM_Ok_Forall2, Forall2_app; apply mapM_Ok_Forall2; [|by replace (q0 * n + n) with ((q0 + 1) * n) by lia].
  replace (seqZ (q0 * n) n) with (map (Z.add (q0 * n)) (seqZ 0 n)) by (rewrite <- (Z.add_0_r (q0 * n)) at 2; apply fmap_add_seqZ). 
  rewrite map_map. apply mapM_Ok_Forall2, Forall2_fmap, Forall_Forall2_diag, Forall_forall. intros j Hj%elem_of_seqZ. apply symbol_announces. lia.
Qed.
End boundaries.

(** The upper layer hears of every slot once, in order and in time: while the clock goes
    through [k] whole slots, from the slot [q0] on, the notifier tells for each slot, one after
    the other, the boundary of the slot [offset] slots ahead at its first symbol, that of half
    the slot and at its last symbol that of the whole slot; slots are counted modulo the
    frames of the clock. *)
Theorem slots_announced n mu offset q0 k : (n = 12 ∨ n = 14) → 0 <= mu < 5 → 0 <= offset < 2 ^ 31 → 0 <= k →
  ∃ bss, mapM (ru_ofh_timing_notifier.on_new_symbol (ru_ofh_timing_notifier.create offset n)) (map (point n mu) (seqZ (q0 * n) (k * n))) = Ok bss ∧
    concat bss = concat (map (slot_boundaries mu offset) (seqZ q0 k)).
Proof. intros Hn Hmu Ho Hk. rewrite <- (Z2Nat.id k) by done. by apply slots_announce. Qed.

Module unit_examples.
Import sector_examples uplink_examples.

(** Two sectors; the first has an uplink slot, the second a downlink grid. *)
Definition one_sector : sector := mk_sector transmitter_examples.cfg reception_examples.cfg false compression_examples.example_compressors compression_examples.example_compressors initial.
Definition unit_initial : state := mk_state (ru_ofh_timing_notifier.create 4 14) [one_sector; one_sector] [].
Definition one_promise : sector_promise := mk_sector_promise 2 200 1 14 12 5 prach_examples.buffer_dims 1 [Some 0] sector_examples.promised.

Definition to_second : resource_grid_context := mk_context (slot_point.mk 1 10275) 1.
Definition session : list ru_event :=
  [UplinkSlot true example_context 0; DownlinkGrid (λ _, (true, true)) to_second downlink_examples.grid; Inside 1 (TxTask 0 downlink_examples.temp); Inside 0 (TxTask 0 downlink_examples.temp);
   Inside 1 (TxTask 0 downlink_examples.temp); ClockSymbol (λ _, (true, true)) (transmitter_examples.before 14); ClockSymbol (λ _, (true, true)) (transmitter_examples.before 10);
   Inside 0 (TxTask 0 downlink_examples.temp); Inside 1 (TxTask 0 downlink_examples.temp); Inside 1 (TxTask 0 downlink_examples.temp); Inside 0 (TxTask 0 downlink_examples.temp);
   Inside 0 (RxFrame true (answer_frame 10 7)); Inside 0 (RxRun 2 true)].

Lemma unit_events_ok : Forall (ru_event_ok 2) session.
Proof. repeat (constructor; [first [vm_compute; split; [discriminate|reflexivity]|split; [|split]; vm_compute; split; first [discriminate|reflexivity]]|]). constructor. Qed.

Abbreviation taken_ok := (sector_event_ok (compressor := selector_compressor compression_examples.example_compressors) transmitter_examples.cfg reception_examples.cfg 200 14 12 prach_examples.buffer_dims 1 [Some 0]).

Lemma clock_ok (a b : bool) k : 0 <= k <= 100 → taken_ok (TxEvent (Symbol a (transmitter_examples.before k))) ∧ taken_ok (SymbolReceived b (transmitter_examples.before k)).
Proof.
  intros Hk. split; [by apply transmitter_examples.symbol_event_ok|]. split; [|done]. change (0 < 14 < 16 ∧ 0 <= 1 < 5 ∧ 0 <= 10275 * 14 - k < 286720). lia.
Qed.

Lemma grid_ok broadcast accept : taken_ok (TxEvent (DlData broadcast accept to_second downlink_examples.grid)).
Proof. exact (transmitter_examples.grid_event_ok broadcast accept). Qed.

(** The parts of the two sectors. *)
Abbreviation run_next := (TxEvent (Run 0 downlink_examples.temp)).
Abbreviation clock_at := (λ k, [TxEvent (Symbol true (transmitter_examples.before k)); SymbolReceived true (transmitter_examples.before k)]).
Lemma own_first : own_events 0 one_sector session =
  [slot_given; run_next] ++ clock_at 14 ++ clock_at 10 ++ [run_next; run_next; FrameReceived true (answer_frame 10 7); RxTask 2 true].
Proof. reflexivity. Qed.
Lemma own_second : own_events 1 one_sector session =
  [TxEvent (DlData false (λ _, (true, true)) to_second downlink_examples.grid); run_next; run_next] ++ clock_at 14 ++ clock_at 10 ++ [run_next; run_next].
Proof. reflexivity. Qed.

Lemma first_ok : Forall taken_ok (own_events 0 one_sector session).
Proof.
  rewrite own_first. constructor; [split; [apply elem_of_cons; by left|slot_point.solve_wf]|].
  repeat (constructor; [first [apply (clock_ok true true); lia|cbn [sector_event_ok rx_of rx_event_ok]; apply (reception_examples.arrival_ok true); vm_compute; reflexivity|reflexivity|exact I]|]). constructor.
Qed.

Lemma second_ok : Forall taken_ok (own_events 1 one_sector session).
Proof. rewrite own_second. constructor; [apply grid_ok|]. repeat (constructor; [first [apply (clock_ok true true); lia|reflexivity]|]). constructor. Qed.

Lemma one_ready (es : list sector_event) : Forall taken_ok es → 0 <= zlen es <= 60 → sector_ready one_sector one_promise es.
Proof. intros HE HR. constructor; [exact transmitter_examples.slot_dimensions|exact sec_cfg_ok|exact sec_initial_realizes|exact HE|by apply sec_room]. Qed.

(** What the promises of the two sectors say they have sent and told. *)
Definition outcome (i : nat) : list (list Z) * list notification :=
  match RadioUnit.promised one_sector one_promise (own_events i one_sector session) with
  | Ok s => (map (map zlen) (s_sent (sec_tx s)), told (sp_data (sec_rx s))) | Fault _ => ([[-1]], []) end.

Lemma outcome_at i : outcome i ≠ ([[-1]], []) → ∃ q, RadioUnit.promised one_sector one_promise (own_events i one_sector session) = Ok q ∧ outcome i = (map (map zlen) (s_sent (sec_tx q)), told (sp_data (sec_rx q))).
Proof. unfold outcome. destruct (RadioUnit.promised _ _ _) as [q|f]; [|done]. intros _. by exists q. Qed.

Lemma first_outcome : outcome 0 = ([[64]], [the_notification 10 example_context 0]).
Proof. vm_compute. reflexivity. Qed.
Lemma second_outcome : outcome 1 = ([[64; 198; 170; 198; 170]], []).
Proof. vm_compute. reflexivity. Qed.

Lemma sectors_ready :
  Forall2 (λ i_s p, sector_ready i_s.2 p (own_events i_s.1 i_s.2 session) ∧ ∃ q, RadioUnit.promised i_s.2 p (own_events i_s.1 i_s.2 session) = Ok q) [(0%nat, one_sector); (1%nat, one_sector)] [one_promise; one_promise].
Proof.
  constructor; [|constructor; [|constructor]]; cbn [fst snd]; (split; [apply one_ready|]).
  - exact first_ok.
  - vm_compute. split; discriminate.
  - destruct (outcome_at 0) as (q & HQ & _); [rewrite first_outcome; discriminate|by exists q].
  - exact second_ok.
  - vm_compute. split; discriminate.
  - destruct (outcome_at 1) as (q & HQ & _); [rewrite second_outcome; discriminate|by exists q].
Qed.

Lemma clock_told : mapM (ru_ofh_timing_notifier.on_new_symbol (timing_notifier unit_initial)) (concat (map symbols_of session)) = Ok [[ru_ofh_timing_notifier.tti_boundary (slot_point.mk 1 10278)]; []].
Proof. vm_compute. reflexivity. Qed.

(** The first sector has sent its command and told the symbol, the second has sent its grid, and
    the upper layer has heard of the slot four ahead. *)
Lemma radio_unit_refines_witness :
  ∃ st' s0 s1, ru_run unit_initial session = Ok st' ∧ sectors st' !! 0%nat = Some s0 ∧ sectors st' !! 1%nat = Some s1 ∧
    map (map zlen) (transmitter.sent (sector_impl.ofh_transmitter (parts s0))) = [[64]] ∧
    radio_receiver.symbols_notified (sector_impl.ofh_receiver (parts s0)) = [the_notification 10 example_context 0] ∧
    map (map zlen) (transmitter.sent (sector_impl.ofh_transmitter (parts s1))) = [[64; 198; 170; 198; 170]] ∧
    announced st' = [ru_ofh_timing_notifier.tti_boundary (slot_point.mk 1 10278)].
Proof.
  destruct (outcome_at 0) as (q0 & E0 & O0); [rewrite first_outcome; discriminate|]. destruct (outcome_at 1) as (q1 & E1 & O1); [rewrite second_outcome; discriminate|].
  rewrite first_outcome in O0. rewrite second_outcome in O1. injection O0 as S0 T0. injection O1 as S1 _.
  destruct (radio_unit_refines unit_initial session [one_promise; one_promise] unit_events_ok sectors_ready) as (st' & HR & HS & bss & HB & HA).
  destruct (HS 0%nat one_sector one_promise q0 eq_refl eq_refl E0) as (s0 & L0 & K0 & _). destruct (HS 1%nat one_sector one_promise q1 eq_refl eq_refl E1) as (s1 & L1 & K1 & _).
  exists st', s0, s1. split; [exact HR|]. split; [exact L0|]. split; [exact L1|].
  destruct (keeps_sent _ _ _ _ K0) as [X0 Y0]. destruct (keeps_sent _ _ _ _ K1) as [X1 _]. rewrite X0, Y0, X1. split; [exact (eq_sym S0)|]. split; [exact (eq_sym T0)|]. split; [exact (eq_sym S1)|].
  rewrite clock_told in HB. injection HB as <-. exact HA.
Defined.

(** Three slots, the last two of them the first of the next period of the frames. *)
Lemma slots_announced_witness :
  ∃ bss, mapM (ru_ofh_timing_notifier.on_new_symbol (ru_ofh_timing_notifier.create 4 14)) (map (point 14 1) (seqZ (20479 * 14) (3 * 14))) = Ok bss ∧
    concat bss = concat (map (λ q, [ru_ofh_timing_notifier.tti_boundary (slot_point.mk 1 (q.1 + 4)); ru_ofh_timing_notifier.ul_half_slot_boundary (slot_point.mk 1 q.2); ru_ofh_timing_notifier.ul_full_slot_boundary (slot_point.mk 1 q.2)])
      [(-1, 20479); (0, 0); (1, 1)]).
Proof.
  destruct (slots_announced 14 1 4 20479 3) as (bss & HM & HC); [by right|lia|lia|lia|]. exists bss. split; [exact HM|]. rewrite HC. vm_compute. reflexivity.
Defined.

(** A sector of 15 kHz after one of 30 kHz: the clock counts the symbols of 15 kHz for both. *)
Definition mixed : ru_ofh_config.ru_ofh_configuration :=
  let s := factory_examples.sector_config [8; 9] in
  ru_ofh_config.mk_config [s; ru_ofh_config.mk_sector_config NORMAL kHz15 MHz20 None transmitter_examples.timing (mk_rx_timing 2 9) true false false false (mk_compr BFP 9) (mk_compr BFP 9) (mk_compr BFP 9) true false
    (f32_of_Z 1) 1500 (replicate 6 2) (replicate 6 1) (Some 33) (Some 33) [8; 9] [3] [3; 4] 1 None] 5 0 0 400.
Example clock_of_the_last : match create_ofh_ru mixed [factory_examples.env; factory_examples.env] with
  | Ok (w, st) => (realtime_timing_worker.nof_symbols_per_sec w, zlen (sectors st), ru_ofh_timing_notifier.nof_slot_offset_du_ru (timing_notifier st)) = (14000, 2, 5)
  | Fault _ => False end.
Proof. vm_compute. reflexivity. Qed.
End unit_examples.
